(* ===== verification/_CoqProject ===== *)
-Q . S2P
Prelude.v
Text.v
Json.v
Worker.v
LeakDetector.v
Telemetry.v
Sqlstate.v
Wire.v
Codec.v
Scram.v
Identifiers.v
WireBuild.v
WireParse.v
WireServer.v
ErrorContext.v
Transport.v
NetworkConfig.v
DriverConfig.v
NetworkClient.v
Oids.v
NetworkParams.v
NetworkClientSpec.v
NetworkProgress.v
NetworkInvariant.v
Handshake.v
HandshakeSpec.v
ConnectSpec.v
DriverConfigSpec.v
Client.v
Keepalive.v
StatementCache.v
Pool.v
PoolThreads.v
Leases.v
State.v
Socket.v
Tls.v
Retry.v
Batch.v
CircuitBreaker.v
TypeExtractor.v
Values.v
ResultSet.v
CValues.v
Metadata.v
MetadataQueries.v
ClientC.v
ClientNotify.v
ClientCSpec.v
Connection.v
ConnectionSpec.v
OdbcText.v
OdbcDates.v
OdbcTypes.v
OdbcRun.v
OdbcNumbers.v
OdbcConnection.v
OdbcDescriptor.v
OdbcStatement.v
OdbcAttributes.v
OdbcBulk.v
OdbcCursor.v
OdbcResults.v
OdbcBuffers.v
OdbcChunks.v
OdbcEcho.v
OdbcLimits.v
OdbcBulkSpec.v
