(* ===== verification/Prelude.v ===== *)
(** * ScratchBird C/C++ client and ODBC drivers: verification library

    The client driver is [src/tracks/p3/drivers/cpp] of the repository; the paths
    below are relative to it, those of the ODBC driver to
    [src/tracks/p3/drivers/odbc]. The client driver has a network client for the
    SBWP protocol, a C++ interface ([Connection], [ResultSet]) and a C interface
    ([sb_connect] and the like) on top of it, and services around these: a
    connection pool, a statement cache, retries, a circuit breaker, telemetry,
    keepalive and leak detection. The ODBC driver is a second program on the same
    network client.

    ** Parts, from the wire up

    Shared: [Prelude] has bytes, machine integers, the outcome of code that may
    be undefined ([Ret] and [UB]), and lemmas on lists; [Text] decimal and
    hexadecimal output; [State] computations that pass a state; [Codec] the
    interface of encoders that are decoded whatever follows; [Json] the escapes of
    [jsonEscape] with a reference reader.

    - System: [Socket] ([src/network/socket.cpp]) owns descriptors and reads and
      writes them; [Tls] ([src/security/tls_context.cpp]) configures contexts and
      keeps connections. Both show what [Transport] assumes of them.
    - Protocol ([src/protocol/sbwp_protocol.cpp]): [Wire] frames messages,
      [WireBuild] has the request builders as stores into a sized buffer,
      [WireParse] the parsers of replies as guarded reads, [WireServer] the
      layouts that the server sends; [Oids] the type identifiers.
    - Errors: [Sqlstate] ([src/core/sqlstate.cpp]), [ErrorContext]
      ([core/error_context.h]), [Client] (the [sb_error] of the C interface).
    - Network client ([src/network_client.cpp]): [Transport] reads and writes
      exact numbers of bytes over fragments; [NetworkConfig] and [Scram] have
      the configuration helpers and SCRAM-SHA-256; [NetworkClient] the session,
      the requests and their message loops; [NetworkParams] the parameters of
      prepared statements; [Handshake] the manager front door, authentication
      and [connect]. [NetworkClientSpec], [NetworkProgress], [NetworkInvariant],
      [HandshakeSpec] and [ConnectSpec] have their theorems.
    - Configuration ([src/driver_config.cpp]): [DriverConfig], [DriverConfigSpec].
    - C++ interface ([src/connection.cpp]): [Values] turns cells into text,
      [ResultSet] is the cursor with its accessors, [Connection] mirrors the
      session and forwards requests; [ConnectionSpec] has the theorems.
      [TypeExtractor] ([src/core/type_extractor.cpp]) is the calendar.
    - Metadata ([src/metadata.cpp]): [Metadata], [MetadataQueries].
    - C interface ([src/scratchbird_client_c.cpp]): [CValues] converts values,
      [ClientC] has connections, statements, transactions and the other
      requests, [ClientNotify] notifications, listeners and reports;
      [ClientCSpec] has the theorems. An [sb_connection] owns a network client,
      a [CircuitBreaker], a collector of [Telemetry], a manager of [Keepalive]
      and a detector of [LeakDetector]; every operation asks the breaker first,
      runs one request of the network client, and records its end in all three.
    - Services: [CircuitBreaker], [Telemetry], [Worker] (the threads that
      keepalive and leak detection own), [Keepalive], [LeakDetector], each from
      the file of that name under [src]; [StatementCache]; and the parts of
      [src/pool.cpp]: [Pool], [PoolThreads], [Leases], [Retry], [Batch],
      [Identifiers].
    - ODBC driver ([src/odbc_handles.cpp], [src/odbc_client_bridge.cpp] and their
      headers): [OdbcText] has SQL text and names, [OdbcDates] and [OdbcNumbers]
      values as text, [OdbcTypes] codes and tables, [OdbcRun] the memory of the
      application and executions that may be undefined or throw,
      [OdbcConnection] the requests of a connection, [OdbcDescriptor] descriptors,
      [OdbcStatement] a statement with its cursor, buffers and parameters,
      [OdbcAttributes] its attributes, descriptions and descriptor handles,
      [OdbcBulk] its bulk operations. The theorems are in [OdbcText],
      [OdbcDescriptor], [OdbcCursor] (consistency of the state),
      [OdbcResults] (from the server to results), [OdbcBuffers] (memory),
      [OdbcChunks] (long values), [OdbcEcho] (values there and back),
      [OdbcBulkSpec] and [OdbcLimits] (the breaker, and where it falls short).

    A member of a class is a field of a record with the same name, a member
    function a definition with the same name. Where names collide between files
    they are qualified by the file.

    ** How the code is modelled

    Integers are [Z] with their wrap-around written out; [size_t] indices that
    cannot wrap are [nat]. Undefined behaviour is a result of its own ([UB],
    [Crash], [Undefined]); no theorem hides it. Operations on a session run in
    the monad [M] of [NetworkClient], those of a C++ connection in [N] of
    [Connection], those of the C interface in [C] of [ClientC], those of sockets
    and TLS in [State], those of ODBC handles in [prog] of [OdbcRun]; a null
    pointer is [None], or the address 0 in the ODBC driver. Raw pointers that can
    dangle are addresses into a heap ([Keepalive], [Leases], handles in [Pool] and
    [StatementCache]); buffers of an ODBC application are blocks of bytes at
    addresses. Floating-point values are given by their bits. The machine is
    little-endian, [long] has 64 bits, the locale is "C".

    Threads: what a mutex protects is one atomic step. [PoolThreads],
    [StatementCache] and [Keepalive] interleave these steps with those of other
    threads, [Worker] single accesses of atomic variables, [CircuitBreaker]
    requests in flight.

    Fuel: a loop over messages takes fuel, counted in messages, and
    [NetworkProgress] proves that one unit for each forty bytes still to come is
    enough for every request. [wait_slices] and [params_loop] are given fuel
    from their input and never run out ([wait_spec], [named_params_found]);
    loops over a socket or a TLS connection take a unit for each call, and
    [exact_reads_refine_transport], [exact_writes_refine_transport] and
    [tls_refines_transport] say how many are enough; the recursions over metadata
    trees are bounded by the longest path.

    ** What the theorems show

    - Conversations: with a server that follows the protocol, requests return
      what the reply says and leave the stream after it, on success and after an
      error; a sequence of queries gets its own answers, in order.
    - Every request ends and keeps the session well typed, whatever is received.
    - Authentication: the handshake performs the run of a machine over messages;
      SCRAM completes with the honest server and accepts no other proof. What it
      accepts without authentication is stated as well.
    - Sockets and TLS: every descriptor and context obtained is released once,
      data flow over TLS only after a handshake, a context is handed out only when
      every call that its configuration asks for succeeded, and both refine the
      abstract transport of the network client.
    - Memory safety and round trips of builders and parsers, with the exact
      inputs on which four parsers read out of bounds.
    - Connections mirror their session, results deliver the rows sent, values
      bound and stored are read back; the exceptions are stated.
    - The C interface: statements are steps of the circuit breaker's
      specification; notifications are handed out once and in order; reports and
      generated statements read back whatever bytes they hold; opening and
      closing acquire and release everything; the code returned is the one
      reported.
    - Services refine small specifications: the pool conserves connections and
      excludes sharing, the cache is a bounded list ordered by use, the breaker
      has three phases, metrics are counts of samples, the detector tracks
      leases, rounds of keepalive are memory safe as long as nothing is
      unregistered while one is open.
    - ODBC: a batch or a prepared statement gives the results of the replies; a
      statement with its parameters filled in reads back as its template; the
      state of a statement stays consistent whatever is called; a descriptor holds
      the values last given to its fields; fetching writes
      only the buffers given; long values are read and written in pieces without
      loss; a bound value comes back as it was; a bulk operation is its rows.
    - Where the code does less than it means to, a theorem states what it does.

    ** What is given as an argument

    The operating system and libraries the code calls: the system calls of sockets
    ([System]) and OpenSSL ([OpenSSL] of [Tls], [Crypto] with [CryptoLaws]), the
    bytes that arrive and whether reads and writes succeed, dialling, environment
    variables, clocks, random numbers, memory allocation where its failure is
    handled, and the dump function of the JSON library. For ODBC: the steady
    clock, the order in which a hash map is iterated, the addresses of new
    descriptors, and the codes of positioned and bulk operations and of three
    attributes (they come from the [sqlext.h] of the system).

    ** Not modelled

    [src/network/network.cpp] only sets a flag. Listeners of notifications that
    call back into the interface, and calls from several threads into one
    connection (the keepalive worker does that when it pings) are outside of the
    model of [ClientC]; the worker is in [Keepalive], where the answer of the ping
    is an argument. The functions that only free memory have no definition.
    Of the ODBC driver: connection strings, DSN files and the opening of a
    connection, attributes of a connection that are only stored, [SQLGetInfo], the
    catalog functions (queries of the system tables whose rows are rearranged; a
    statement is given their rows), environments, the other exported functions ([src/odbc_driver.cpp],
    which check handles and forward), and its copies of the breaker, keepalive and
    leak detector. The statement cache of that driver is not used by its handles.
    The command-line tools and the drivers in other languages are other programs;
    the JSON library and the headers copied from the server are not the drivers'
    code. *)

From stdpp Require Export base list sorting gmap strings numbers pretty.
From Stdlib Require Export ZArith Lia ZifyBool.
From Stdlib Require Strings.Byte.
Export (notations) Byte.
Open Scope Z_scope.

Declare Scope sb_scope.
Delimit Scope sb_scope with sb.
Open Scope sb_scope.

(** ** Bytes and byte strings

    [std::vector<uint8_t>] and [std::string] are both lists of bytes. *)

Abbreviation byte := Byte.byte.
Abbreviation bytes := (list byte).

#[export] Instance byte_eq_dec : EqDecision byte := Byte.byte_eq_dec.

#[export] Program Instance byte_countable : Countable byte :=
  inj_countable Byte.to_N Byte.of_N _.
Next Obligation. intros b. apply Byte.of_to_N. Qed.

#[export] Instance byte_inhabited : Inhabited byte := populate Byte.x00.

Coercion String.list_byte_of_string : string >-> list.

(** The unsigned value of a byte, and [static_cast<uint8_t>]. *)
Definition byte_val (b : byte) : Z := Z.of_N (Byte.to_N b).

Definition byte_of (z : Z) : byte := default Byte.x00 (Byte.of_N (Z.to_N (z mod 256))).

Abbreviation blen l := (Z.of_nat (length l)).

(** Unsigned and signed machine integers: reduction modulo the width. *)
Definition u8 (z : Z) : Z := z mod 2 ^ 8.
Definition u16 (z : Z) : Z := z mod 2 ^ 16.
Definition u32 (z : Z) : Z := z mod 2 ^ 32.
Definition u64 (z : Z) : Z := z mod 2 ^ 64.

Definition to_signed (w : Z) (z : Z) : Z :=
  let m := z mod 2 ^ w in if m <? 2 ^ (w - 1) then m else m - 2 ^ w.
Definition i16 (z : Z) : Z := to_signed 16 z.
Definition i32 (z : Z) : Z := to_signed 32 z.
Definition i64 (z : Z) : Z := to_signed 64 z.

Definition in_u8 (z : Z) : Prop := 0 <= z < 2 ^ 8.
Definition in_u16 (z : Z) : Prop := 0 <= z < 2 ^ 16.
Definition in_u32 (z : Z) : Prop := 0 <= z < 2 ^ 32.
Definition in_u64 (z : Z) : Prop := 0 <= z < 2 ^ 64.

#[export] Instance in_u8_dec z : Decision (in_u8 z).
Proof. unfold in_u8. apply _. Defined.
#[export] Instance in_u16_dec z : Decision (in_u16 z).
Proof. unfold in_u16. apply _. Defined.
#[export] Instance in_u32_dec z : Decision (in_u32 z).
Proof. unfold in_u32. apply _. Defined.
#[export] Instance in_u64_dec z : Decision (in_u64 z).
Proof. unfold in_u64. apply _. Defined.

(** ** Executions of C++ code

    [Ret a] is a defined execution that yields [a]; [UB] is undefined
    behaviour: an access outside a buffer. *)

Inductive outcome (A : Type) : Type :=
  | Ret (a : A)
  | UB.
Arguments Ret {A} a.
Arguments UB {A}.

#[export] Instance outcome_ret : MRet outcome := λ A a, Ret a.
#[export] Instance outcome_bind : MBind outcome := λ A B f o,
  match o with Ret a => f a | UB => UB end.

Definition defined {A} (o : outcome A) : Prop :=
  match o with Ret _ => True | UB => False end.

Lemma bind_ret {A B} (a : A) (k : A → outcome B) : (Ret a ≫= k) = k a.
Proof. done. Qed.

Lemma defined_ret {A} (o : outcome A) : defined o ↔ ∃ a, o = Ret a.
Proof. split; destruct o; simpl; [eauto|done|done|by intros [??]]. Qed.

(** A closed decidable proposition, by evaluation. *)
Ltac by_evaluation := apply (bool_decide_unpack _); vm_compute; exact I.

(** Resolve the first conditional of the goal by arithmetic. *)
Ltac guard_true :=
  match goal with |- context [if ?b then _ else _] => replace b with true by first [reflexivity | lia] end.
Ltac guard_false :=
  match goal with |- context [if ?b then _ else _] => replace b with false by first [reflexivity | lia] end.

(** ** Buffers *)

(** [std::vector<uint8_t> v(n)]: value-initialised, all zero. *)
Definition zeros (n : Z) : bytes := replicate (Z.to_nat n) Byte.x00.

(** [buf[off] = b] *)
Definition store (buf : bytes) (off : Z) (b : byte) : outcome bytes :=
  if (0 <=? off) && (off <? blen buf) then Ret (<[Z.to_nat off := b]> buf) else UB.

(** [std::memcpy(buf.data() + off, src.data(), src.size())] *)
Definition copy_into (buf : bytes) (off : Z) (src : bytes) : outcome bytes :=
  if (0 <=? off) && (off + blen src <=? blen buf)
  then Ret (take (Z.to_nat off) buf ++ src ++ drop (Z.to_nat off + length src) buf)
  else UB.

(** [data[off]] *)
Definition load (data : bytes) (off : Z) : outcome byte :=
  if (0 <=? off) && (off <? blen data)
  then Ret (nth (Z.to_nat off) data Byte.x00) else UB.

(** The range [[data.begin() + off, data.begin() + off + len)]. *)
Definition slice (data : bytes) (off len : Z) : outcome bytes :=
  if (0 <=? off) && (0 <=? len) && (off + len <=? blen data)
  then Ret (take (Z.to_nat len) (drop (Z.to_nat off) data)) else UB.

(** ** Little-endian values *)

Fixpoint le_bytes (n : nat) (v : Z) : bytes :=
  match n with
  | O => []
  | S n => byte_of v :: le_bytes n (v / 256)
  end.

Fixpoint le_val (bs : bytes) : Z :=
  match bs with
  | [] => 0
  | b :: bs => byte_val b + 256 * le_val bs
  end.

Lemma byte_val_range b : 0 <= byte_val b < 256.
Proof.
  unfold byte_val. pose proof (Byte.to_N_bounded b). lia.
Qed.

Lemma byte_of_val b : byte_of (byte_val b) = b.
Proof.
  unfold byte_of. rewrite Z.mod_small by apply byte_val_range.
  unfold byte_val. rewrite N2Z.id, Byte.of_to_N. done.
Qed.

Lemma byte_val_of z : byte_val (byte_of z) = z mod 256.
Proof.
  unfold byte_of, byte_val.
  pose proof (Z.mod_pos_bound z 256 ltac:(lia)) as Hb.
  destruct (Byte.of_N (Z.to_N (z mod 256))) as [b|] eqn:E; simpl.
  - apply Byte.to_of_N in E. rewrite E. lia.
  - apply Byte.of_N_None_iff in E. lia.
Qed.

Lemma byte_of_mod z : byte_of (z mod 256) = byte_of z.
Proof. unfold byte_of. by rewrite Z.mod_mod. Qed.

Lemma byte_val_inj b1 b2 : byte_val b1 = byte_val b2 → b1 = b2.
Proof. intros H. by rewrite <-(byte_of_val b1), H, byte_of_val. Qed.

Lemma byte_val_x00 : byte_val Byte.x00 = 0.
Proof. done. Qed.

Lemma length_le_bytes n v : length (le_bytes n v) = n.
Proof. revert v; induction n; intros v; simpl; auto. Qed.

Lemma le_val_bounds bs : 0 <= le_val bs < 256 ^ blen bs.
Proof.
  induction bs as [|b bs IH]; simpl; [lia|].
  pose proof (byte_val_range b).
  replace (Z.of_nat (S (length bs))) with (1 + blen bs) by lia.
  rewrite Z.pow_add_r by lia. lia.
Qed.

Lemma le_val_le_bytes n v : le_val (le_bytes n v) = v mod 256 ^ Z.of_nat n.
Proof.
  revert v; induction n as [|n IH]; intros v; simpl.
  { by rewrite Z.mod_1_r. }
  rewrite IH, byte_val_of.
  replace (Z.of_nat (S n)) with (1 + Z.of_nat n) by lia.
  rewrite Z.pow_add_r, Z.pow_1_r by lia.
  rewrite Z.rem_mul_r; lia.
Qed.

Lemma le_bytes_le_val bs : le_bytes (length bs) (le_val bs) = bs.
Proof.
  induction bs as [|b bs IH]; simpl; [done|].
  pose proof (byte_val_range b).
  f_equal.
  - rewrite <-byte_of_mod.
    replace ((byte_val b + 256 * le_val bs) mod 256) with (byte_val b)
      by (Z.div_mod_to_equations; lia).
    apply byte_of_val.
  - replace ((byte_val b + 256 * le_val bs) / 256) with (le_val bs)
      by (Z.div_mod_to_equations; lia).
    done.
Qed.

(** ** Filling a zeroed buffer from the left

    A builder fills a buffer of known size; the part already written is [w],
    the rest is still zero. *)

Lemma length_zeros n : 0 <= n → blen (zeros n) = n.
Proof. intros. unfold zeros. rewrite length_replicate. lia. Qed.

Lemma zeros_0 : zeros 0 = [].
Proof. done. Qed.

Lemma zeros_cons n : 0 < n → zeros n = Byte.x00 :: zeros (n - 1).
Proof.
  intros. unfold zeros.
  replace (Z.to_nat n) with (S (Z.to_nat (n - 1))) by lia. done.
Qed.

Lemma zeros_split k n : 0 <= k <= n → zeros n = zeros k ++ zeros (n - k).
Proof.
  intros. unfold zeros. rewrite <-replicate_add. f_equal. lia.
Qed.

Lemma drop_zeros k n : 0 <= n → drop k (zeros n) = zeros (n - Z.of_nat k).
Proof.
  intros. unfold zeros. rewrite drop_replicate. f_equal. lia.
Qed.

(** Zero bytes the code leaves untouched. *)
Lemma skip_app (w : bytes) k n :
  0 <= k <= n → w ++ zeros n = (w ++ zeros k) ++ zeros (n - k).
Proof. intros. by rewrite (zeros_split k n), app_assoc. Qed.

Lemma store_app (w : bytes) n off b :
  off = blen w → 0 < n →
  store (w ++ zeros n) off b = Ret ((w ++ [b]) ++ zeros (n - 1)).
Proof.
  intros -> Hn. unfold store.
  rewrite length_app, Nat2Z.inj_add, length_zeros by lia.
  guard_true.
  rewrite Nat2Z.id, zeros_cons by done.
  rewrite insert_app_r_alt, Nat.sub_diag by lia. simpl.
  by rewrite <-app_assoc.
Qed.

Lemma copy_into_app (w : bytes) n off src :
  off = blen w → blen src <= n →
  copy_into (w ++ zeros n) off src = Ret ((w ++ src) ++ zeros (n - blen src)).
Proof.
  intros -> Hn. unfold copy_into.
  rewrite length_app, Nat2Z.inj_add, length_zeros by lia.
  guard_true.
  rewrite Nat2Z.id, take_app_length.
  rewrite <-drop_drop, drop_app_length, drop_zeros by lia.
  by rewrite <-!app_assoc.
Qed.

Lemma copy_into_nil buf off :
  0 <= off <= blen buf → copy_into buf off [] = Ret buf.
Proof.
  intros. unfold copy_into. simpl.
  guard_true.
  by rewrite Nat.add_0_r, take_drop.
Qed.

(** ** Reading at an offset *)

Lemma load_app (p r : bytes) off b :
  off = blen p → load (p ++ b :: r) off = Ret b.
Proof.
  intros ->. unfold load. rewrite length_app. simpl.
  rewrite Nat2Z.id, app_nth2, Nat.sub_diag by lia. simpl.
  by replace ((0 <=? blen p) && (blen p <? Z.of_nat (length p + S (length r)))) with true by lia.
Qed.

Lemma slice_app (p m r : bytes) off len :
  off = blen p → len = blen m → slice (p ++ m ++ r) off len = Ret m.
Proof.
  intros -> ->. unfold slice. rewrite !length_app.
  guard_true.
  by rewrite !Nat2Z.id, drop_app_length, take_app_length.
Qed.

Lemma slice_defined data off len :
  0 <= off → 0 <= len → off + len <= blen data →
  ∃ s, slice data off len = Ret s ∧ blen s = len.
Proof.
  intros. unfold slice. guard_true.
  eexists; split; [done|]. rewrite length_take, length_drop. lia.
Qed.

Lemma slice_UB data off len :
  blen data < off + len → slice data off len = UB.
Proof. intros. unfold slice. by guard_false. Qed.

Lemma load_defined data off :
  0 <= off < blen data → ∃ b, load data off = Ret b.
Proof. intros. unfold load. guard_true. eauto. Qed.

(** ** Containers and text of the C++ standard library *)

(** Lexicographic order of [std::string] ([char_traits<char>::compare]
    compares as unsigned). *)
Fixpoint bytes_leb (s t : bytes) : bool :=
  match s, t with
  | [], _ => true
  | _ :: _, [] => false
  | a :: s, b :: t =>
      if byte_val a <? byte_val b then true
      else if byte_val b <? byte_val a then false else bytes_leb s t
  end.

Definition key_le {V} (p q : bytes * V) : Prop := bytes_leb p.1 q.1 = true.

#[export] Instance key_le_dec {V} : RelDecision (@key_le V).
Proof. intros p q. unfold key_le. apply _. Defined.

(** The entries of a [std::map<std::string, V>] in iteration order. *)
Definition std_map_items {V} (m : gmap bytes V) : list (bytes * V) :=
  merge_sort key_le (map_to_list m).

Lemma std_map_items_perm {V} (m : gmap bytes V) :
  std_map_items m ≡ₚ map_to_list m.
Proof. apply merge_sort_Permutation. Qed.

Lemma elem_of_std_map_items {V} (m : gmap bytes V) k v :
  (k, v) ∈ std_map_items m ↔ m !! k = Some v.
Proof. rewrite std_map_items_perm. apply elem_of_map_to_list. Qed.

Lemma bytes_leb_total s t : bytes_leb s t = true ∨ bytes_leb t s = true.
Proof.
  revert t; induction s as [|a s IH]; intros [|b t]; simpl; auto.
  destruct (byte_val a <? byte_val b) eqn:E1, (byte_val b <? byte_val a) eqn:E2; auto.
Qed.

#[export] Instance key_le_total {V} : Total (@key_le V).
Proof. intros [k v] [k' v']. apply bytes_leb_total. Qed.

Lemma std_map_items_sorted {V} (m : gmap bytes V) :
  Sorted key_le (std_map_items m).
Proof. apply Sorted_merge_sort. apply _. Qed.

(** [std::isspace] and [std::tolower] in the "C" locale. *)
Definition isspace (b : byte) : bool :=
  let v := byte_val b in (v =? 32) || ((9 <=? v) && (v <=? 13)).

Definition tolower (b : byte) : byte :=
  let v := byte_val b in if (65 <=? v) && (v <=? 90) then byte_of (v + 32) else b.

Definition toLower (s : bytes) : bytes := tolower <$> s.

Fixpoint drop_while (f : byte → bool) (s : bytes) : bytes :=
  match s with
  | [] => []
  | b :: r => if f b then drop_while f r else s
  end.

(** Both ends stripped of the bytes satisfying [f]. *)
Definition trim_with (f : byte → bool) (s : bytes) : bytes :=
  reverse (drop_while f (reverse (drop_while f s))).

(** Position of the first occurrence of a byte, as [std::string::find]. *)
Fixpoint find_byte (c : byte) (s : bytes) : option nat :=
  match s with
  | [] => None
  | b :: r => if Byte.eqb b c then Some O else S <$> find_byte c r
  end.

(** Pieces between the occurrences of [c]; never empty. *)
Fixpoint split_on (c : byte) (s : bytes) : list bytes :=
  match s with
  | [] => [[]]
  | b :: r =>
      if Byte.eqb b c then [] :: split_on c r
      else match split_on c r with
           | [] => [[b]]
           | p :: ps => (b :: p) :: ps
           end
  end.

Fixpoint join_with (sep : bytes) (ps : list bytes) : bytes :=
  match ps with
  | [] => []
  | [p] => p
  | p :: ps => p ++ sep ++ join_with sep ps
  end.

Lemma join_cons sep p ps : ps ≠ [] → join_with sep (p :: ps) = p ++ sep ++ join_with sep ps.
Proof. by destruct ps. Qed.

Definition starts_with (p s : bytes) : bool := bool_decide (take (length p) s = p).

(** Decimal digits of a non-negative integer, as [operator<<] prints it. *)
Definition dec (z : Z) : bytes := pretty (Z.to_N z).

(** ** Masks and shifts *)

Lemma lor_shiftl_add a b n :
  0 <= n → 0 <= a < 2 ^ n → Z.lor a (Z.shiftl b n) = a + 2 ^ n * b.
Proof.
  intros Hn Ha.
  assert (Hd : Z.land a (Z.shiftl b n) = 0).
  { apply Z.bits_inj'. intros i Hi. rewrite Z.land_spec, Z.bits_0.
    destruct (decide (i < n)).
    - rewrite Z.shiftl_spec_low by done. apply andb_false_r.
    - rewrite <-(Z.mod_small a (2 ^ n)) by done.
      by rewrite Z.mod_pow2_bits_high by lia. }
  rewrite <-Z.lxor_lor by done.
  rewrite <-Z.add_nocarry_lxor by done.
  rewrite Z.shiftl_mul_pow2 by done. lia.
Qed.

Lemma land_ff z : Z.land z 255 = z mod 256.
Proof. change 255 with (Z.ones 8). by rewrite Z.land_ones. Qed.

Lemma byte_of_land_ff z : byte_of (Z.land z 255) = byte_of z.
Proof. by rewrite land_ff, byte_of_mod. Qed.

Lemma shiftr_8 z : Z.shiftr z 8 = z / 256.
Proof. by rewrite Z.shiftr_div_pow2 by lia. Qed.

Lemma shiftr_add_8 z k : 0 <= k → Z.shiftr z (k + 8) = Z.shiftr z k / 256.
Proof. intros. by rewrite <-Z.shiftr_shiftr, shiftr_8 by lia. Qed.

Lemma shiftr_16 z : Z.shiftr z 16 = z / 256 / 256.
Proof. change 16 with (8 + 8). by rewrite shiftr_add_8, shiftr_8. Qed.

Lemma shiftr_24 z : Z.shiftr z 24 = z / 256 / 256 / 256.
Proof. change 24 with (16 + 8). by rewrite shiftr_add_8, shiftr_16. Qed.

Create Rewrite HintDb bytes.
#[export] Hint Rewrite shiftr_8 shiftr_16 shiftr_24 byte_of_land_ff byte_of_val byte_val_of : bytes.
#[export] Hint Rewrite @length_app @length_le_bytes Nat2Z.inj_add : bytes.

(** A range is read byte by byte. *)
Lemma slice_cons data off n :
  0 <= off → 0 <= n →
  slice data off (1 + n) =
    (b ← load data off; bs ← slice data (off + 1) n; Ret (b :: bs)).
Proof.
  intros Ho Hn. unfold load, slice.
  destruct (decide (off + (1 + n) <= blen data)); cycle 1.
  { guard_false. destruct ((0 <=? off) && (off <? blen data)); simpl; [|done].
    by guard_false. }
  guard_true. guard_true. simpl. guard_true. simpl.
  replace (Z.to_nat (1 + n)) with (S (Z.to_nat n)) by lia.
  replace (Z.to_nat (off + 1)) with (S (Z.to_nat off)) by lia.
  assert (Hlt : (Z.to_nat off < length data)%nat) by lia.
  apply lookup_lt_is_Some_2 in Hlt as [b Hb].
  rewrite (drop_S _ b) by done. simpl. do 2 f_equal.
  symmetry. by apply nth_lookup_Some.
Qed.

Lemma slice_nil data off : 0 <= off <= blen data → slice data off 0 = Ret [].
Proof. intros. unfold slice. by guard_true. Qed.

Lemma slice_zero data off :
  0 <= off → slice data off 0 = if off <=? blen data then Ret [] else UB.
Proof.
  intros. unfold slice. rewrite Z.add_0_r, Z.leb_refl.
  by destruct (off <=? blen data); [guard_true|guard_false].
Qed.

Lemma slice_one data off :
  0 <= off → slice data off 1 = (b ← load data off; Ret [b]).
Proof.
  intros. rewrite (slice_cons _ _ 0) by lia.
  destruct (load data off) as [b|] eqn:E; simpl; [|done].
  rewrite slice_nil; [done|]. unfold load in E. case_match; [lia|done].
Qed.

(** The elements of a range, or the failed access. *)
Lemma slice_inv data off len s :
  slice data off len = Ret s →
  0 <= off ∧ 0 <= len ∧ off + len <= blen data ∧ blen s = len ∧
  s = take (Z.to_nat len) (drop (Z.to_nat off) data).
Proof.
  unfold slice. destruct (_ && _) eqn:E; [|done]. intros [= <-].
  rewrite length_take, length_drop. split_and!; first [lia|done].
Qed.

(** ** Reading a concatenation

    An access skips the pieces that lie before its offset. *)

Lemma slice_skip m r off n :
  blen m <= off → slice (m ++ r) off n = slice r (off - blen m) n.
Proof.
  intros Hm. unfold slice. rewrite length_app.
  replace ((0 <=? off - blen m) && (0 <=? n) && (off - blen m + n <=? blen r))
    with ((0 <=? off) && (0 <=? n) && (off + n <=? Z.of_nat (length m + length r))) by lia.
  destruct (_ && _) eqn:E; [|done]. do 2 f_equal.
  rewrite drop_app_ge by lia. f_equal. lia.
Qed.

Lemma slice_skip_cons b r off n :
  1 <= off → slice (b :: r) off n = slice r (off - 1) n.
Proof. intros. by rewrite (slice_skip [b] r) by (simpl; lia). Qed.

Lemma slice_head m r off n :
  off = 0 → n = blen m → slice (m ++ r) off n = Ret m.
Proof. intros. by apply (slice_app [] m r). Qed.

Lemma slice_whole m off n : off = 0 → n = blen m → slice m off n = Ret m.
Proof. intros. rewrite <-(app_nil_r m) at 1. by apply slice_head. Qed.

Lemma load_skip m r off :
  blen m <= off → load (m ++ r) off = load r (off - blen m).
Proof.
  intros Hm. unfold load. rewrite length_app.
  replace ((0 <=? off - blen m) && (off - blen m <? blen r))
    with ((0 <=? off) && (off <? Z.of_nat (length m + length r))) by lia.
  destruct (_ && _) eqn:E; [|done]. f_equal.
  rewrite app_nth2 by lia. f_equal. lia.
Qed.

Lemma load_skip_cons b r off :
  1 <= off → load (b :: r) off = load r (off - 1).
Proof. intros. by rewrite (load_skip [b] r) by (simpl; lia). Qed.

Lemma load_head b r off : off = 0 → load (b :: r) off = Ret b.
Proof. intros ->. done. Qed.

(** Solve the offset side conditions of the reading and building lemmas. *)
Ltac solve_off :=
  autorewrite with bytes; simpl length;
  first [ lia | repeat progress (autorewrite with bytes; simpl length); lia ].

Ltac slice_step :=
  repeat first [ rewrite slice_skip_cons by solve_off | rewrite slice_skip by solve_off ];
  first [ rewrite slice_head by solve_off | rewrite slice_whole by solve_off
        | rewrite slice_zero by solve_off; guard_true ];
  cbn [mbind outcome_bind].

Ltac load_step :=
  repeat first [ rewrite load_skip_cons by solve_off | rewrite load_skip by solve_off ];
  rewrite load_head by solve_off.

(** Right-nest appends. *)
Ltac flat_app := repeat progress (rewrite <-?app_assoc; cbn [app]).

(** Cut a list at a length. *)
Lemma cut_list {A} (k : nat) (l : list A) n :
  length l = (k + n)%nat → ∃ a r, l = a ++ r ∧ length a = k ∧ length r = n.
Proof.
  intros H. exists (take k l), (drop k l).
  rewrite take_drop, length_take, length_drop. split_and!; [done|lia..].
Qed.

Lemma le_bytes_of k m : length m = k → m = le_bytes k (le_val m).
Proof. intros <-. by rewrite le_bytes_le_val. Qed.

Lemma le_val_range k m : length m = k → 0 <= le_val m < 256 ^ Z.of_nat k.
Proof. intros <-. apply le_val_bounds. Qed.

(** ** Loops over a container with a defined-or-not body *)

Fixpoint foldM {A S} (f : S → A → outcome S) (s : S) (l : list A) : outcome S :=
  match l with
  | [] => Ret s
  | x :: l => s ← f s x; foldM f s l
  end.

Lemma foldM_snoc {A S} (f : S → A → outcome S) (s : S) (l : list A) (x : A) :
  foldM f s (l ++ [x]) = (s ← foldM f s l; f s x).
Proof.
  revert s. induction l as [|y l IH]; intros s; cbn; [by destruct (f s x)|]. by destruct (f s y); cbn.
Qed.

(** A loop that appends [enc x] to the written part for every element. *)
Lemma foldM_append {A} (f : bytes * Z → A → outcome (bytes * Z)) (enc : A → bytes) :
  (∀ w n off x, off = blen w → blen (enc x) <= n →
     f (w ++ zeros n, off) x =
       Ret ((w ++ enc x) ++ zeros (n - blen (enc x)), off + blen (enc x))) →
  ∀ l w n off, off = blen w → blen (concat (enc <$> l)) <= n →
    foldM f (w ++ zeros n, off) l =
      Ret ((w ++ concat (enc <$> l)) ++ zeros (n - blen (concat (enc <$> l))),
           off + blen (concat (enc <$> l))).
Proof.
  intros Hf l. induction l as [|x l IH]; intros w n off Hoff Hn; csimpl in *.
  { by rewrite app_nil_r, Z.sub_0_r, Z.add_0_r. }
  rewrite length_app in *.
  rewrite Hf by lia. cbn [mbind outcome_bind].
  rewrite IH by (rewrite ?length_app; lia).
  rewrite Nat2Z.inj_add, Z.sub_add_distr, Z.add_assoc, (app_assoc w). done.
Qed.

Lemma length_concat_const {A} (enc : A → bytes) k l :
  (∀ x, length (enc x) = k) → blen (concat (enc <$> l)) = Z.of_nat k * blen l.
Proof.
  intros H. induction l as [|x l IH]; csimpl; [lia|]. rewrite length_app, H. lia.
Qed.

(** [(v & (1u << k)) != 0] *)
Lemma land_bit v k : 0 <= k → negb (Z.land v (Z.shiftl 1 k) =? 0) = Z.testbit v k.
Proof.
  intros Hk. rewrite Z.shiftl_1_l. destruct (Z.testbit v k) eqn:E.
  - destruct (Z.eqb_spec (Z.land v (2 ^ k)) 0) as [H|]; [|done].
    apply (f_equal (λ z, Z.testbit z k)) in H.
    rewrite Z.land_spec, E, Z.pow2_bits_true, Z.bits_0 in H by done. done.
  - replace (Z.land v (2 ^ k)) with 0; [done|]. symmetry. apply Z.bits_inj'. intros n Hn.
    rewrite Z.land_spec, Z.bits_0.
    destruct (decide (n = k)) as [->|]; [by rewrite E|].
    rewrite Z.pow2_bits_false by lia. apply andb_false_r.
Qed.

(** ** Record update

    [r <| f := v |>] replaces a field. A record type gives its eta expansion
    ([Eta]); the update of a field is found from it. *)

Class Eta (R : Type) := eta : R → R.

Class Setter {R T : Type} (field : R → T) := set_field : (T → T) → R → R.

Ltac make_setter field :=
  lazymatch type of field with
  | ?R → ?T =>
      let inst := constr:(_ : Eta R) in
      let e := eval hnf in inst in
      let f := eval pattern field in e in
      lazymatch f with
      | ?abs _ =>
          let t := eval cbv beta in (λ (g : T → T) (r : R), abs (λ r, g (field r)) r) in
          exact t
      end
  end.

#[export] Hint Mode Setter + + ! : typeclass_instances.
#[export] Hint Extern 1 (Setter ?field) => make_setter field : typeclass_instances.

Notation "r <| field := v |>" := (set_field (field := field) (λ _, v) r)
  (at level 12, left associativity, format "r  <| field  :=  v |>") : sb_scope.

(** ** Reading decimal numbers: [std::strtoull] and [std::stoul] in base 10 *)

Definition digit_of (b : byte) : option Z :=
  let v := byte_val b - 48 in if (0 <=? v) && (v <=? 9) then Some v else None.

(** The digits at the head of a text: their value and the rest. *)
Fixpoint scan_digits (acc : Z) (s : bytes) : Z * bytes :=
  match s with
  | b :: r => match digit_of b with Some d => scan_digits (acc * 10 + d) r | None => (acc, s) end
  | [] => (acc, [])
  end.

(** Leading blanks, an optional sign, then digits; [None] when there are none.
    The value saturates at the largest [unsigned long]; a minus sign negates it
    in 64 bits. The boolean tells whether the value was out of range. *)
Definition strtoull (s : bytes) : option (Z * bool * bytes) :=
  let s := drop_while isspace s in
  let '(negative, s) :=
    match s with
    | b :: r => if bool_decide (b = "-"%byte) then (true, r)
                else if bool_decide (b = "+"%byte) then (false, r) else (false, s)
    | [] => (false, s)
    end in
  match s with
  | b :: _ =>
      match digit_of b with
      | None => None
      | Some _ =>
          let '(v, rest) := scan_digits 0 s in
          if 2 ^ 64 <=? v then Some (2 ^ 64 - 1, true, rest)
          else Some (if negative : bool then u64 (- v) else v, false, rest)
      end
  | [] => None
  end.

(** [std::stoul(s, &idx)]: the value and what follows it; no digits and a value
    out of range are exceptions. *)
Definition stoul (s : bytes) : option (Z * bytes) :=
  match strtoull s with
  | Some (v, false, rest) => Some (v, rest)
  | _ => None
  end.

(** [sub] occurs in [s]. *)
Fixpoint contains (sub s : bytes) : bool :=
  starts_with sub s || match s with [] => false | _ :: r => contains sub r end.

Lemma digit_of_range b d : digit_of b = Some d → 0 <= d <= 9.
Proof. unfold digit_of. destruct ((0 <=? _) && _) eqn:E; [|done]. intros [= <-]. lia. Qed.

Lemma scan_digits_nonneg s : ∀ acc, 0 <= acc → 0 <= (scan_digits acc s).1.
Proof.
  induction s as [|b s IH]; intros acc Ha; [done|]. cbn [scan_digits].
  destruct (digit_of b) eqn:E; [|done]. apply digit_of_range in E. apply IH. lia.
Qed.

Lemma strtoull_range s v o r : strtoull s = Some (v, o, r) → in_u64 v.
Proof.
  unfold strtoull. destruct (match drop_while _ _ with [] => _ | _ => _ end) as [neg s'].
  destruct s' as [|b s']; [done|]. destruct (digit_of b); [|done].
  pose proof (scan_digits_nonneg (b :: s') 0 ltac:(done)).
  destruct (scan_digits 0 (b :: s')) as [w rest]. cbn [fst] in H. unfold in_u64.
  destruct (Z.leb_spec (2 ^ 64) w); intros [= <- <- <-]; [lia|].
  destruct neg; [|lia]. apply Z.mod_pos_bound. lia.
Qed.

(** [s.find(sub)]: where [sub] occurs first. *)
Fixpoint find_sub (sub s : bytes) : option nat :=
  if starts_with sub s then Some O
  else match s with [] => None | _ :: r => S <$> find_sub sub r end.

Lemma starts_with_app p s : starts_with p (p ++ s) = true.
Proof. unfold starts_with. rewrite bool_decide_eq_true. by rewrite take_app_length. Qed.

Lemma starts_with_true p s : starts_with p s = true ↔ ∃ r, s = p ++ r.
Proof.
  unfold starts_with. rewrite bool_decide_eq_true. split.
  - intros E. exists (drop (length p) s). by rewrite <-E at 1; rewrite take_drop.
  - intros [r ->]. by rewrite take_app_length.
Qed.

(** A text that does not contain the first byte of [sub] is skipped. *)
Lemma find_sub_skip sep q p t : sep ∉ p → find_sub (sep :: q) (p ++ t) = Nat.add (length p) <$> find_sub (sep :: q) t.
Proof.
  induction p as [|b p IH]; intros Hp.
  { cbn [app length]. by destruct (find_sub _ t). }
  apply not_elem_of_cons in Hp as [Hb Hp]. cbn [app length find_sub].
  replace (starts_with (sep :: q) (b :: p ++ t)) with false.
  - rewrite IH by done. by destruct (find_sub _ t).
  - symmetry. unfold starts_with. rewrite bool_decide_eq_false. by intros [= -> _].
Qed.

Lemma find_sub_here sub t : find_sub sub (sub ++ t) = Some O.
Proof.
  destruct (sub ++ t) eqn:E; cbn [find_sub]; rewrite <-E, starts_with_app; done.
Qed.

(** [find_sub] from the left of a text it skips. *)
Lemma find_sub_app sep q p t : sep ∉ p → find_sub (sep :: q) (p ++ (sep :: q) ++ t) = Some (length p).
Proof. intros. rewrite find_sub_skip, find_sub_here by done. cbn. by rewrite Nat.add_0_r. Qed.

(** The digit printed for a value is read as that value. *)
Lemma digit_char x : (x < 10)%N →
  digit_of (Ascii.byte_of_ascii (pretty_N_char x)) = Some (Z.of_N x).
Proof.
  intros H. assert (Hx : (x ∈ [0; 1; 2; 3; 4; 5; 6; 7; 8; 9])%N).
  { destruct x as [|p]; [by left|]. do 9 (destruct p as [p|p|]; try lia; try set_solver). }
  repeat (apply elem_of_cons in Hx as [->|Hx]; [done|]). by apply elem_of_nil in Hx.
Qed.

Lemma scan_pretty_go x : ∀ s, ∃ D, String.list_byte_of_string (pretty_N_go x s) = D ++ s ∧
  (∀ t, scan_digits 0 (D ++ t) = scan_digits (Z.of_N x) t) ∧ Forall (λ b, is_Some (digit_of b)) D.
Proof.
  induction (N.lt_wf_0 x) as [x _ IH]; intros s. destruct (decide (x = 0%N)) as [->|Hx].
  { exists []. rewrite pretty_N_go_0. split; [done|]. by split. }
  rewrite pretty_N_go_step by lia.
  destruct (IH (x `div` 10)%N ltac:(apply N.div_lt; lia) (String (pretty_N_char (x `mod` 10)) s)) as (D & E & HD & Hd).
  exists (D ++ [Ascii.byte_of_ascii (pretty_N_char (x `mod` 10))]). split.
  { rewrite E, <-app_assoc. done. }
  pose proof (digit_char (x `mod` 10) ltac:(apply N.mod_lt; lia)) as Hc. split.
  - intros t. rewrite <-app_assoc. cbn [app]. rewrite HD. cbn [scan_digits]. rewrite Hc. f_equal.
    rewrite N2Z.inj_mod, N2Z.inj_div. rewrite (Z.div_mod (Z.of_N x) 10) at 3 by lia. lia.
  - apply Forall_app. split; [done|]. by repeat constructor.
Qed.

Lemma dec_digits z : Forall (λ b, is_Some (digit_of b)) (dec z).
Proof.
  unfold dec, pretty, pretty_N. case_decide as H0; [by repeat constructor|].
  destruct (scan_pretty_go (Z.to_N z) "") as (D & E & _ & Hd). rewrite E.
  cbn [String.list_byte_of_string app]. by rewrite app_nil_r.
Qed.

Lemma scan_dec z t : 0 <= z → scan_digits 0 (dec z ++ t) = scan_digits z t.
Proof.
  intros Hz. unfold dec, pretty, pretty_N. case_decide as H0.
  { replace z with 0 by lia. done. }
  destruct (scan_pretty_go (Z.to_N z) "") as (D & E & HD & _).
  rewrite E. cbn [String.list_byte_of_string app]. rewrite app_nil_r, HD. f_equal. lia.
Qed.

Lemma dec_nonempty z : dec z ≠ [].
Proof.
  unfold dec, pretty, pretty_N. case_decide as H0; [done|].
  destruct (scan_pretty_go (Z.to_N z) "") as (D & E & HD & _). rewrite E.
  cbn [String.list_byte_of_string app]. rewrite app_nil_r. intros ->.
  specialize (HD []). cbn in HD. injection HD. lia.
Qed.

Lemma dec_head z : ∃ b r d, dec z = b :: r ∧ digit_of b = Some d.
Proof.
  pose proof (dec_digits z) as Hd. pose proof (dec_nonempty z).
  destruct (dec z) as [|b r]; [done|]. apply Forall_cons in Hd as [[d Hd] _]. by exists b, r, d.
Qed.

(** What the C library reads back of a printed number. *)
Lemma strtoull_dec z t : 0 <= z < 2 ^ 64 → (∀ b r, t = b :: r → digit_of b = None) →
  strtoull (dec z ++ t) = Some (z, false, t).
Proof.
  intros Hz Ht. pose proof (scan_dec z t ltac:(lia)) as Hscan.
  replace (scan_digits z t) with (z, t) in Hscan.
  2: { destruct t as [|b r]; [done|]. cbn [scan_digits]. by rewrite (Ht b r). }
  destruct (dec_head z) as (b & r & d & E & Hd). rewrite E in *. cbn [app] in *.
  unfold strtoull. cbn [drop_while].
  assert (Hb : 48 <= byte_val b <= 57).
  { revert Hd. unfold digit_of. destruct ((0 <=? _) && _) eqn:Hr; [lia|done]. }
  replace (isspace b) with false by (unfold isspace; lia).
  rewrite !bool_decide_eq_false_2 by (intros ->; cbn in Hb; lia).
  rewrite Hd, Hscan. guard_false. done.
Qed.

Lemma stoul_dec z t : 0 <= z < 2 ^ 64 → (∀ b r, t = b :: r → digit_of b = None) →
  stoul (dec z ++ t) = Some (z, t).
Proof. intros Hz Ht. unfold stoul. by rewrite strtoull_dec. Qed.

(** ** Trimming, splitting and folding of case *)

Lemma drop_while_elem f s b : b ∈ drop_while f s → b ∈ s.
Proof.
  induction s as [|x s IH]; [done|]. cbn [drop_while]. destruct (f x); [|done].
  intros H. apply elem_of_cons. right. by apply IH.
Qed.

Lemma trim_with_elem f s b : b ∈ trim_with f s → b ∈ s.
Proof.
  unfold trim_with. rewrite elem_of_reverse. intros H%drop_while_elem.
  rewrite elem_of_reverse in H. by apply drop_while_elem in H.
Qed.

Lemma drop_while_idem f s : drop_while f (drop_while f s) = drop_while f s.
Proof.
  induction s as [|x s IH]; [done|]. cbn [drop_while]. destruct (f x) eqn:E; [done|].
  cbn [drop_while]. by rewrite E.
Qed.

(** Dropping at the end keeps a head that is not dropped. *)
Lemma drop_while_head f s : drop_while f s = s ↔ (∀ b r, s = b :: r → f b = false).
Proof.
  destruct s as [|b r]; [by split|]. cbn [drop_while]. split.
  - intros H b' r' [= <- <-]. destruct (f b); [|done].
    assert (Hl : (length (drop_while f r) <= length r)%nat).
    { clear. induction r as [|x r IH]; [done|]. cbn [drop_while length]. destruct (f x); cbn; lia. }
    rewrite H in Hl. cbn in Hl. lia.
  - intros H. by rewrite (H b r).
Qed.

Lemma drop_while_suffix f s : ∃ p, s = p ++ drop_while f s.
Proof.
  induction s as [|b s [p IH]]; [by exists []|]. cbn [drop_while]. destruct (f b).
  - exists (b :: p). cbn. by rewrite <-IH.
  - by exists [].
Qed.

Lemma trim_with_idem f s : trim_with f (trim_with f s) = trim_with f s.
Proof.
  unfold trim_with. set (a := drop_while f s).
  assert (Ha : drop_while f a = a) by apply drop_while_idem.
  destruct (drop_while_suffix f (reverse a)) as [p Hp].
  set (r := drop_while f (reverse a)) in *.
  assert (Hr : drop_while f r = r) by apply drop_while_idem.
  rewrite (proj2 (drop_while_head f (reverse r))).
  - by rewrite reverse_involutive, Hr.
  - intros b q Hb. rewrite drop_while_head in Ha.
    apply (f_equal reverse) in Hp. rewrite reverse_involutive, reverse_app, Hb in Hp.
    by apply (Ha b (q ++ reverse p)).
Qed.

Lemma split_on_elem c s p : p ∈ split_on c s → c ∉ p.
Proof.
  revert p. induction s as [|b s IH]; intros p; cbn [split_on].
  { intros ->%list_elem_of_singleton. apply not_elem_of_nil. }
  destruct (Byte.eqb b c) eqn:E.
  - intros [->|H]%elem_of_cons; [apply not_elem_of_nil|by apply IH].
  - assert (Hb : b ≠ c).
    { intros ->. assert (Byte.eqb c c = true) by (by apply Byte.byte_dec_lb). congruence. }
    destruct (split_on c s) as [|q qs].
    + intros ->%list_elem_of_singleton. by intros ?%list_elem_of_singleton.
    + intros [->|H]%elem_of_cons; [|apply IH; by right].
      intros [?|H]%elem_of_cons; [done|]. by apply (IH q); [left|].
Qed.

Lemma split_on_subset c s p x : p ∈ split_on c s → x ∈ p → x ∈ s.
Proof.
  revert p. induction s as [|b s IH]; intros p; cbn [split_on].
  { intros ->%list_elem_of_singleton []%elem_of_nil. }
  destruct (Byte.eqb b c).
  - intros [->|Hp]%elem_of_cons; [by intros ?%elem_of_nil|]. intros Hx. right. by apply (IH p).
  - destruct (split_on c s) as [|q qs] eqn:E.
    + intros ->%list_elem_of_singleton. intros ->%list_elem_of_singleton. by left.
    + intros [->|Hp]%elem_of_cons; intros Hx.
      * apply elem_of_cons in Hx as [->|Hx]; [by left|]. right. apply (IH q); [by left|done].
      * right. apply (IH p); [by right|done].
Qed.

Lemma split_on_free c p : c ∉ p → split_on c p = [p].
Proof.
  induction p as [|b p IH]; [done|]. intros [Hb Hp]%not_elem_of_cons. cbn [split_on].
  rewrite (IH Hp). destruct (Byte.eqb b c) eqn:E; [|done].
  apply Byte.byte_dec_bl in E. congruence.
Qed.

Lemma split_on_app c p s : c ∉ p → split_on c (p ++ c :: s) = p :: split_on c s.
Proof.
  induction p as [|b p IH]; intros Hp; cbn [app split_on].
  - by rewrite (Byte.byte_dec_lb eq_refl).
  - apply not_elem_of_cons in Hp as [Hb Hp]. rewrite (IH Hp).
    destruct (Byte.eqb b c) eqn:E; [|done]. apply Byte.byte_dec_bl in E. congruence.
Qed.

(** A text that neither begins nor ends with a byte that is stripped. *)
Lemma trim_with_fixed f s :
  (∀ b r, s = b :: r → f b = false) → (∀ b r, s = r ++ [b] → f b = false) → trim_with f s = s.
Proof.
  intros Hh Hl. unfold trim_with. rewrite (proj2 (drop_while_head f s) Hh).
  rewrite (proj2 (drop_while_head f (reverse s))); [apply reverse_involutive|].
  intros b r E. apply (Hl b (reverse r)). rewrite <-(reverse_involutive s), E. apply reverse_cons.
Qed.

(** Nothing is stripped from a text that was stripped. *)
Lemma trim_with_ends f s :
  trim_with f s = s → (∀ b r, s = b :: r → f b = false) ∧ (∀ b r, s = r ++ [b] → f b = false).
Proof.
  intros E. assert (Hd : drop_while f (reverse (drop_while f s)) = reverse s).
  { rewrite <-E at 2. unfold trim_with. by rewrite reverse_involutive. }
  assert (Hs : drop_while f s = s).
  { apply (f_equal length) in Hd. rewrite length_reverse in Hd.
    destruct (drop_while_suffix f s) as [p Hp]. destruct (drop_while_suffix f (reverse (drop_while f s))) as [q Hq].
    apply (f_equal length) in Hq. rewrite length_app, length_reverse in Hq.
    apply (f_equal length) in Hp as Hp'. rewrite length_app in Hp'.
    destruct p; [by rewrite Hp at 2|]. cbn in Hp'. lia. }
  split; [by apply drop_while_head|]. rewrite Hs in Hd. rewrite drop_while_head in Hd.
  intros b r ->. apply (Hd b (reverse r)). by rewrite reverse_app.
Qed.

Lemma find_byte_app c p s : c ∉ p → find_byte c (p ++ c :: s) = Some (length p).
Proof.
  induction p as [|b p IH]; intros Hp; cbn [app find_byte length].
  - by rewrite (Byte.byte_dec_lb eq_refl).
  - apply not_elem_of_cons in Hp as [Hb Hp]. rewrite (IH Hp).
    destruct (Byte.eqb b c) eqn:E; [|done]. apply Byte.byte_dec_bl in E. congruence.
Qed.

Lemma find_byte_free c p : c ∉ p → find_byte c p = None.
Proof.
  induction p as [|b p IH]; [done|]. intros [Hb Hp]%not_elem_of_cons. cbn [find_byte].
  rewrite (IH Hp). destruct (Byte.eqb b c) eqn:E; [|done]. apply Byte.byte_dec_bl in E. congruence.
Qed.

Lemma tolower_idem b : tolower (tolower b) = tolower b.
Proof. by destruct b. Qed.

Lemma toLower_idem s : toLower (toLower s) = toLower s.
Proof. unfold toLower. rewrite <-list_fmap_compose. apply list_fmap_ext. intros. apply tolower_idem. Qed.

Lemma to_signed_mod w z :
  1 <= w → - 2 ^ (w - 1) <= z < 2 ^ (w - 1) → to_signed w (z mod 2 ^ w) = z.
Proof.
  intros Hw Hz. unfold to_signed.
  assert (E : 2 ^ w = 2 * 2 ^ (w - 1)) by (rewrite <-Z.pow_succ_r by lia; f_equal; lia).
  rewrite Z.mod_mod by lia. rewrite E. set (p := 2 ^ (w - 1)) in *.
  assert (0 <= z ∧ z mod (2 * p) = z ∨ z < 0 ∧ z mod (2 * p) = z + 2 * p) as [[? ->]|[? ->]].
  { destruct (Z.leb_spec 0 z).
    - left. split; [done|]. apply Z.mod_small. lia.
    - right. split; [done|]. rewrite <-(Z_mod_plus_full z 1), Z.mul_1_l. apply Z.mod_small. lia. }
  - by guard_true.
  - guard_false. lia.
Qed.

(** ** Clocks

    Time points are nanoseconds; [duration_cast<milliseconds>] truncates toward
    zero. *)
Definition milliseconds_of (ns : Z) : Z := Z.quot ns (10 ^ 6).

Lemma list_filter_local {A} (P Q : A → Prop) `{∀ x, Decision (P x), ∀ x, Decision (Q x)} (l : list A) :
  (∀ x, x ∈ l → P x ↔ Q x) → filter P l = filter Q l.
Proof.
  induction l as [|x l IH]; intros Hl; [done|]. rewrite !filter_cons, IH by (intros; apply Hl; by right).
  by rewrite (decide_ext (P x) (Q x)) by (apply Hl; by left).
Qed.
