(* ===== verification/Text.v ===== *)
(** * Text: decimal and hexadecimal output

    What the C++ sources write through output streams, and readers for it. *)

From S2P Require Import Prelude.

(** ** Decimal *)

(** [std::to_string] and [operator<<] of a signed integer. *)
Definition to_string (z : Z) : bytes := if z <? 0 then "-"%byte :: dec (- z) else dec z.

(** [std::setw(w) << std::setfill('0')] *)
Definition pad (w : nat) (s : bytes) : bytes := replicate (w - length s) "0"%byte ++ s.

Definition put (w : nat) (z : Z) : bytes := pad w (to_string z).

(** ** Hexadecimal *)

Definition hex_digit (n : Z) : byte := byte_of (if n <? 10 then 48 + n else 87 + n).
Definition hex_byte (b : byte) : bytes := [hex_digit (byte_val b / 16); hex_digit (byte_val b mod 16)].

Definition hex_text (data : bytes) : bytes := data ≫= hex_byte.

Definition unhex_digit (b : byte) : Z := let v := byte_val b in if v <? 58 then v - 48 else v - 87.

Fixpoint unhex_text (s : bytes) : bytes :=
  match s with
  | hi :: lo :: r => byte_of (16 * unhex_digit hi + unhex_digit lo) :: unhex_text r
  | _ => []
  end.

Lemma unhex_byte (b : byte) : unhex_text (hex_byte b) = [b].
Proof. by destruct b. Qed.

Lemma unhex_hex data : unhex_text (hex_text data) = data.
Proof.
  induction data as [|b data IH]; [done|]. unfold hex_text. rewrite bind_cons. fold (hex_text data).
  unfold hex_byte. cbn [app unhex_text]. rewrite IH. f_equal. pose proof (unhex_byte b) as E. by injection E.
Qed.

Lemma hex_digit_plain (b : byte) : Forall (λ c, 48 <= byte_val c < 128) (hex_byte b).
Proof. destruct b; by repeat constructor. Qed.

Lemma hex_text_plain data : Forall (λ c, 48 <= byte_val c < 128) (hex_text data).
Proof. apply Forall_bind, Forall_forall. intros b _. apply hex_digit_plain. Qed.

Lemma length_hex_text data : length (hex_text data) = (2 * length data)%nat.
Proof. induction data as [|b data IH]; [done|]. unfold hex_text in *. rewrite bind_cons, length_app, IH. cbn. lia. Qed.
