(* ===== verification/Json.v ===== *)
(** * JSON texts

    [jsonEscape] of [src/scratchbird_client_c.cpp], which the reports of the C API
    are written with; JSON values with their compact text; and a reader of JSON
    texts, which gets the value back. The reader is the reference the reports are
    proved against. *)

From S2P Require Import Prelude.
From S2P Require Import Text.

Definition quote : byte := Byte.x22.
Definition backslash : byte := Byte.x5c.

(** ** Strings *)

Definition escape_byte (ch : byte) : bytes :=
  if bool_decide (ch = quote) then [backslash; quote]
  else if bool_decide (ch = backslash) then [backslash; backslash]
  else if bool_decide (ch = Byte.x08) then [backslash; "b"%byte]
  else if bool_decide (ch = Byte.x0c) then [backslash; "f"%byte]
  else if bool_decide (ch = Byte.x0a) then [backslash; "n"%byte]
  else if bool_decide (ch = Byte.x0d) then [backslash; "r"%byte]
  else if bool_decide (ch = Byte.x09) then [backslash; "t"%byte]
  else if byte_val ch <? 32 then
    [backslash; "u"%byte; "0"%byte; "0"%byte; hex_digit (Z.land (Z.shiftr (byte_val ch) 4) 0x0F);
     hex_digit (Z.land (byte_val ch) 0x0F)]
  else [ch].

Definition jsonEscape (value : bytes) : bytes := value ≫= escape_byte.

(** The byte that an escape of one letter stands for. *)
Definition unescape (c : byte) : option byte :=
  if bool_decide (c = quote) then Some quote
  else if bool_decide (c = backslash) then Some backslash
  else if bool_decide (c = "/"%byte) then Some "/"%byte
  else if bool_decide (c = "b"%byte) then Some Byte.x08
  else if bool_decide (c = "f"%byte) then Some Byte.x0c
  else if bool_decide (c = "n"%byte) then Some Byte.x0a
  else if bool_decide (c = "r"%byte) then Some Byte.x0d
  else if bool_decide (c = "t"%byte) then Some Byte.x09
  else None.

(** The rest of a string, after its opening quote; control characters must be
    escaped. Of the escapes by number those below 128 are read. *)
Fixpoint read_string (s : bytes) : option (bytes * bytes) :=
  match s with
  | [] => None
  | c :: r =>
      if bool_decide (c = quote) then Some ([], r)
      else if bool_decide (c = backslash) then
        match r with
        | u :: r =>
            if bool_decide (u = "u"%byte) then
              match r with
              | z1 :: z2 :: h :: l :: r =>
                  if bool_decide (z1 = "0"%byte) && bool_decide (z2 = "0"%byte) && (byte_val h <? 56) then
                    '(t, r) ← read_string r; Some (byte_of (16 * unhex_digit h + unhex_digit l) :: t, r)
                  else None
              | _ => None
              end
            else
              b ← unescape u;
              '(t, r) ← read_string r; Some (b :: t, r)
        | [] => None
        end
      else if byte_val c <? 32 then None
      else '(t, r) ← read_string r; Some (c :: t, r)
  end.

Lemma read_escape_byte b s :
  read_string (escape_byte b ++ s) = ('(t, r) ← read_string s; Some (b :: t, r)).
Proof. by destruct b. Qed.

Lemma read_escaped s rest : read_string (jsonEscape s ++ quote :: rest) = Some (s, rest).
Proof.
  induction s as [|b s IH]; [done|]. unfold jsonEscape. rewrite bind_cons, <-app_assoc, read_escape_byte.
  fold (jsonEscape s). by rewrite IH.
Qed.

(** ** Values *)

Inductive json :=
  | JNum (n : Z)
  | JStr (s : bytes)
  | JBool (b : bool)
  | JArr (l : list json)
  | JObj (l : list (bytes * json)).

Definition print_string (s : bytes) : bytes := quote :: jsonEscape s ++ [quote].
Definition print_bool (b : bool) : bytes := if b then ("true" : bytes) else ("false" : bytes).
Definition print_member (key value : bytes) : bytes := print_string key ++ ":"%byte :: value.

Fixpoint print (j : json) : bytes :=
  match j with
  | JNum n => to_string n
  | JStr s => print_string s
  | JBool b => print_bool b
  | JArr l => "["%byte :: join_with [","%byte] (map print l) ++ ["]"%byte]
  | JObj l => "{"%byte :: join_with [","%byte] (map (λ p, print_member p.1 (print p.2)) l) ++ ["}"%byte]
  end.

(** ** The reader; the fuel bounds the number of values. *)

Definition read_number (s : bytes) : option (json * bytes) :=
  match s with
  | c :: r =>
      if bool_decide (c = "-"%byte) then
        match r with
        | d :: _ => match digit_of d with Some _ => let '(n, r) := scan_digits 0 r in Some (JNum (- n), r) | None => None end
        | [] => None
        end
      else match digit_of c with Some _ => let '(n, r) := scan_digits 0 s in Some (JNum n, r) | None => None end
  | [] => None
  end.

Fixpoint parse_json (fuel : nat) (s : bytes) : option (json * bytes) :=
  match fuel, s with
  | S fuel, c :: r =>
      if bool_decide (c = quote) then '(t, r) ← read_string r; Some (JStr t, r)
      else if bool_decide (c = "["%byte) then
        if starts_with ["]"%byte] r then Some (JArr [], drop 1 r)
        else '(l, r) ← parse_elements fuel r; Some (JArr l, r)
      else if bool_decide (c = "{"%byte) then
        if starts_with ["}"%byte] r then Some (JObj [], drop 1 r)
        else '(l, r) ← parse_members fuel r; Some (JObj l, r)
      else if starts_with ("true" : bytes) s then Some (JBool true, drop 4 s)
      else if starts_with ("false" : bytes) s then Some (JBool false, drop 5 s)
      else read_number s
  | _, _ => None
  end
with parse_elements (fuel : nat) (s : bytes) : option (list json * bytes) :=
  match fuel with
  | O => None
  | S fuel =>
      '(j, r) ← parse_json fuel s;
      if starts_with ["]"%byte] r then Some ([j], drop 1 r)
      else if starts_with [","%byte] r then '(l, r) ← parse_elements fuel (drop 1 r); Some (j :: l, r)
      else None
  end
with parse_members (fuel : nat) (s : bytes) : option (list (bytes * json) * bytes) :=
  match fuel, s with
  | S fuel, c :: s =>
      if bool_decide (c = quote) then
        '(key, s) ← read_string s;
        if starts_with [":"%byte] s then
          '(j, r) ← parse_json fuel (drop 1 s);
          if starts_with ["}"%byte] r then Some ([(key, j)], drop 1 r)
          else if starts_with [","%byte] r then '(l, r) ← parse_members fuel (drop 1 r); Some ((key, j) :: l, r)
          else None
        else None
      else None
  | _, _ => None
  end.

(** A whole text; no value has more parts than its text has bytes. *)
Definition parse (s : bytes) : option json :=
  match parse_json (2 * length s)%nat s with Some (j, []) => Some j | _ => None end.

(** ** The round trip *)

Fixpoint weight (j : json) : nat :=
  match j with
  | JArr l => S (foldr (λ j n, S (weight j) + n)%nat O l)
  | JObj l => S (foldr (λ p n, S (weight p.2) + n)%nat O l)
  | _ => 1%nat
  end.

Section json_induction.
  Context (P : json → Prop).
  Context (Hnum : ∀ n, P (JNum n)) (Hstr : ∀ s, P (JStr s)) (Hbool : ∀ b, P (JBool b)).
  Context (Harr : ∀ l, Forall P l → P (JArr l)) (Hobj : ∀ l, Forall (λ p, P p.2) l → P (JObj l)).

Fixpoint json_strong_ind (j : json) : P j :=
  match j with
  | JNum n => Hnum n
  | JStr s => Hstr s
  | JBool b => Hbool b
  | JArr l =>
      Harr l ((fix go l : Forall P l :=
        match l with [] => Forall_nil_2 _ | j :: l => Forall_cons_2 _ _ _ (json_strong_ind j) (go l) end) l)
  | JObj l =>
      Hobj l ((fix go l : Forall (λ p, P p.2) l :=
        match l with [] => Forall_nil_2 _ | p :: l => Forall_cons_2 _ _ _ (json_strong_ind p.2) (go l) end) l)
  end.
End json_induction.

(** What may follow a number. *)
Definition no_digit (rest : bytes) : Prop := ∀ b r, rest = b :: r → digit_of b = None.

Lemma scan_stop z t : 0 <= z → no_digit t → scan_digits 0 (dec z ++ t) = (z, t).
Proof.
  intros Hz Ht. rewrite scan_dec by done. destruct t as [|b r]; [done|]. cbn. by rewrite (Ht b r).
Qed.

(** A digit opens no other value. *)
Lemma digit_opens d x rest fuel :
  digit_of d = Some x → parse_json (S fuel) (d :: rest) = read_number (d :: rest) ∧ d ≠ "]"%byte ∧ d ≠ "}"%byte.
Proof. by destruct d. Qed.

Lemma parse_number fuel n rest : no_digit rest → parse_json (S fuel) (to_string n ++ rest) = Some (JNum n, rest).
Proof.
  intros Hr. unfold to_string. destruct (Z.ltb_spec n 0).
  - destruct (dec_head (- n)) as (b & r & d & E & Hd). cbn [app].
    change (read_number ("-"%byte :: dec (- n) ++ rest) = Some (JNum n, rest)). unfold read_number.
    rewrite bool_decide_eq_true_2, E by done. cbn [app]. rewrite Hd. change (b :: r ++ rest) with ((b :: r) ++ rest).
    rewrite <-E, scan_stop by (done || lia). do 3 f_equal. lia.
  - destruct (dec_head n) as (b & r & d & E & Hd). rewrite E. cbn [app].
    destruct (digit_opens b d (r ++ rest) fuel Hd) as [-> _]. unfold read_number.
    rewrite bool_decide_eq_false_2 by (by intros ->). rewrite Hd. change (b :: r ++ rest) with ((b :: r) ++ rest).
    by rewrite <-E, scan_stop by done.
Qed.

(** No value begins like the end of an array or an object. *)
Lemma print_head j : ∃ c r, print j = c :: r ∧ c ≠ "]"%byte ∧ c ≠ "}"%byte.
Proof.
  destruct j as [n|s|[]|l|l]; try by eexists _, _.
  cbn. unfold to_string. destruct (n <? 0); [by eexists _, _|]. destruct (dec_head n) as (b & r & d & E & Hd).
  exists b, r. split; [done|]. by apply (digit_opens b d [] 0).
Qed.

Definition round_trips (j : json) : Prop := ∀ fuel rest,
  (2 * weight j <= fuel)%nat → no_digit rest → parse_json fuel (print j ++ rest) = Some (j, rest).

Lemma no_digit_cons c rest : digit_of c = None → no_digit (c :: rest).
Proof. by intros H b r [= <- _]. Qed.

Lemma starts_with_cons c d rest : starts_with [c] (d :: rest) = bool_decide (d = c).
Proof. unfold starts_with. cbn. apply bool_decide_ext. split; [by intros [= ->]|by intros ->]. Qed.

Definition list_weight {A} (w : A → nat) (l : list A) : nat := foldr (λ a n, S (w a) + n)%nat O l.

Lemma elements_round_trip l : Forall round_trips l → l ≠ [] → ∀ fuel rest,
  (2 * list_weight weight l <= fuel)%nat →
  parse_elements fuel (join_with [","%byte] (map print l) ++ "]"%byte :: rest) = Some (l, rest).
Proof.
  induction l as [|j l IH]; intros Hl Hn fuel rest Hf; [done|]. apply Forall_cons in Hl as [Hj Hl].
  cbn [list_weight foldr] in Hf. fold (list_weight weight l) in Hf. destruct fuel as [|fuel]; [lia|]. cbn [parse_elements].
  destruct l as [|j' l].
  - cbn [map join_with]. rewrite (Hj fuel) by (lia || by apply no_digit_cons). cbn [mbind option_bind]. by rewrite starts_with_cons.
  - change (join_with [","%byte] (map print (j :: j' :: l))) with
      (print j ++ [","%byte] ++ join_with [","%byte] (map print (j' :: l))).
    rewrite <-!app_assoc. rewrite (Hj fuel) by (lia || by apply no_digit_cons). cbn [mbind option_bind app].
    rewrite !starts_with_cons. cbn [drop]. change (bool_decide (","%byte = "]"%byte)) with false.
    change (bool_decide (","%byte = ","%byte)) with true. cbn iota. by rewrite drop_0, IH by (done || lia).
Qed.

Lemma members_round_trip l : Forall (λ p, round_trips p.2) l → l ≠ [] → ∀ fuel rest,
  (2 * list_weight (λ p, weight p.2) l <= fuel)%nat →
  parse_members fuel (join_with [","%byte] (map (λ p, print_member p.1 (print p.2)) l) ++ "}"%byte :: rest) = Some (l, rest).
Proof.
  induction l as [|[k j] l IH]; intros Hl Hn fuel rest Hf; [done|]. apply Forall_cons in Hl as [Hj Hl]. cbn [snd] in Hj.
  cbn [list_weight foldr] in Hf. fold (list_weight (λ p : bytes * json, weight p.2) l) in Hf. cbn [snd] in Hf.
  destruct fuel as [|fuel]; [lia|].
  assert (Hm : ∀ s, parse_members (S fuel) (print_member k (print j) ++ s) =
    ('(j, r) ← parse_json fuel (print j ++ s);
     if starts_with ["}"%byte] r then Some ([(k, j)], drop 1 r)
     else if starts_with [","%byte] r then '(l, r) ← parse_members fuel (drop 1 r); Some ((k, j) :: l, r)
     else None)).
  { intros s. unfold print_member, print_string. cbn [app parse_members]. rewrite <-!app_assoc. cbn [app].
    rewrite bool_decide_eq_true_2, read_escaped by done. cbn [mbind option_bind]. by rewrite starts_with_cons. }
  destruct l as [|p l].
  - cbn [map join_with fst snd]. rewrite Hm, (Hj fuel) by (lia || by apply no_digit_cons). cbn [mbind option_bind]. by rewrite starts_with_cons.
  - change (join_with [","%byte] (map (λ p, print_member p.1 (print p.2)) ((k, j) :: p :: l))) with
      (print_member k (print j) ++ [","%byte] ++ join_with [","%byte] (map (λ p, print_member p.1 (print p.2)) (p :: l))).
    rewrite <-!app_assoc. rewrite Hm, (Hj fuel) by (lia || by apply no_digit_cons). cbn [mbind option_bind app].
    rewrite !starts_with_cons. cbn [drop]. change (bool_decide (","%byte = "}"%byte)) with false.
    change (bool_decide (","%byte = ","%byte)) with true. cbn iota. by rewrite drop_0, IH by (done || lia).
Qed.

Lemma print_round_trips j : round_trips j.
Proof.
  induction j as [n|s|b|l IH|l IH] using json_strong_ind; intros fuel rest Hf Hr; (destruct fuel as [|fuel]; [cbn in Hf; lia|]).
  - by apply parse_number.
  - cbn [print]. unfold print_string. cbn [app]. rewrite <-app_assoc. cbn [app parse_json].
    by rewrite bool_decide_eq_true_2, read_escaped by done.
  - by destruct b.
  - cbn [print app]. rewrite <-app_assoc. cbn [app].
    change (parse_json (S fuel) ("["%byte :: ?s)) with
      (if starts_with ["]"%byte] s then Some (JArr [], drop 1 s) else '(l, r) ← parse_elements fuel s; Some (JArr l, r)).
    destruct l as [|j l]; [done|]. destruct (print_head j) as (c & r & E & Hc & _).
    assert (starts_with ["]"%byte] (join_with [","%byte] (map print (j :: l)) ++ "]"%byte :: rest) = false) as ->.
    { cbn [map join_with]. rewrite E. destruct (map print l); cbn [app]; rewrite starts_with_cons; by rewrite bool_decide_eq_false_2. }
    rewrite elements_round_trip; [done|done..|]. cbn [weight] in Hf. unfold list_weight. lia.
  - cbn [print app]. rewrite <-app_assoc. cbn [app].
    change (parse_json (S fuel) ("{"%byte :: ?s)) with
      (if starts_with ["}"%byte] s then Some (JObj [], drop 1 s) else '(l, r) ← parse_members fuel s; Some (JObj l, r)).
    destruct l as [|p l]; [done|].
    assert (starts_with ["}"%byte] (join_with [","%byte] (map (λ p, print_member p.1 (print p.2)) (p :: l)) ++ "}"%byte :: rest) = false) as ->.
    { cbn [map join_with]. unfold print_member, print_string.
      destruct (map _ l); cbn [app]; rewrite starts_with_cons; by rewrite bool_decide_eq_false_2. }
    rewrite members_round_trip; [done|done..|]. cbn [weight] in Hf. unfold list_weight. lia.
Qed.

(** A separator per element but one. *)
Lemma list_weight_join {A} (w : A → nat) (f : A → bytes) c l :
  Forall (λ a, (w a <= length (f a))%nat) l → (list_weight w l <= S (length (join_with [c] (map f l))))%nat.
Proof.
  induction l as [|a l IH]; [cbn; lia|]. intros [Ha Hl]%Forall_cons. specialize (IH Hl).
  cbn [list_weight foldr] in *. fold (list_weight w l) in *. destruct l as [|b l]; [cbn in *; lia|].
  change (join_with [c] (map f (a :: b :: l))) with (f a ++ [c] ++ join_with [c] (map f (b :: l))).
  rewrite !length_app. cbn [length]. lia.
Qed.

Lemma weight_length j : (weight j <= length (print j))%nat.
Proof.
  induction j as [n|s|b|l IH|l IH] using json_strong_ind.
  - destruct (print_head (JNum n)) as (c & r & E & _). rewrite E. cbn. lia.
  - cbn. lia.
  - destruct b; cbn; lia.
  - pose proof (list_weight_join weight print ","%byte l IH). cbn [weight print length]. rewrite length_app. cbn [length].
    unfold list_weight in *. lia.
  - assert (Hl : Forall (λ p : bytes * json, (weight p.2 <= length (print_member p.1 (print p.2)))%nat) l).
    { eapply Forall_impl; [exact IH|]. intros p Hp. unfold print_member. rewrite length_app. cbn [length]. cbv beta in Hp. lia. }
    pose proof (list_weight_join _ _ ","%byte l Hl). cbn [weight print length]. rewrite length_app. cbn [length].
    unfold list_weight in *. lia.
Qed.

(** The text of a value is read back as that value, whatever bytes its strings
    hold. *)
Lemma parse_print j : parse (print j) = Some j.
Proof.
  unfold parse. pose proof (print_round_trips j (2 * length (print j))%nat []) as H. rewrite app_nil_r in H.
  rewrite H; [done| |done]. pose proof (weight_length j). lia.
Qed.
