(* ===== verification/Worker.v ===== *)
(** * Background workers: start, stop and the sliced wait

    [KeepaliveManager] ([src/keepalive.cpp]) and [LeakDetector]
    ([src/leak_detector.cpp]) own a thread in the same way: the flags [running_]
    and [stop_requested_], [Start], [Stop], and a wait in slices of at most 100
    milliseconds. The functions below run one call after the other; the step
    relation interleaves the calls of several threads at every access of a
    shared member. *)

From S2P Require Import Prelude.

(** ** The members *)

(** [joinable] tells whether [worker_thread_] owns a thread, [alive] whether
    that thread is still in its loop; [std::terminate] is recorded. *)
Record worker := mkWorker {
  running_ : bool;
  stop_requested_ : bool;
  joinable : bool;
  alive : bool;
  terminated : bool
}.

#[export] Instance worker_eta : Eta worker :=
  λ w, mkWorker (running_ w) (stop_requested_ w) (joinable w) (alive w) (terminated w).

#[export] Instance worker_eq_dec : EqDecision worker.
Proof. solve_decision. Defined.

Definition new_worker : worker := mkWorker false false false false false.

(** ** One access after the other *)

(** Where a call of [Start] or [Stop] stands: what it does next. *)
Inductive access :=
  | StartExchange   (** [running_.compare_exchange_strong(false, true)] *)
  | StartClear      (** [stop_requested_ = false] *)
  | StartThread     (** [worker_thread_ = std::thread(...)] *)
  | StopExchange    (** [running_.compare_exchange_strong(true, false)] *)
  | StopRequest     (** [stop_requested_ = true] *)
  | StopJoin.       (** [if (joinable()) join()] *)

#[export] Instance access_eq_dec : EqDecision access.
Proof. solve_decision. Defined.

(** The effect of an access and what the call does next, [None] when it returns.
    Assigning to a [std::thread] that is joinable terminates the program. A join
    waits: it has no effect as long as the worker is in its loop. *)
Definition perform (a : access) (w : worker) : option (worker * option access) :=
  match a with
  | StartExchange => Some (if running_ w then (w, None) else (w <| running_ := true |>, Some StartClear))
  | StartClear => Some (w <| stop_requested_ := false |>, Some StartThread)
  | StartThread =>
      Some (if joinable w then (w <| terminated := true |>, None)
            else (w <| joinable := true |> <| alive := true |>, None))
  | StopExchange => Some (if running_ w then (w <| running_ := false |>, Some StopRequest) else (w, None))
  | StopRequest => Some (w <| stop_requested_ := true |>, Some StopJoin)
  | StopJoin =>
      if joinable w then if alive w then None else Some (w <| joinable := false |>, None)
      else Some (w, None)
  end.

(** The worker reads [stop_requested_] and leaves its loop. *)
Definition notice (w : worker) : worker :=
  if alive w && stop_requested_ w then w <| alive := false |> else w.

(** ** Whole calls, one at a time *)

Definition Start (w : worker) : worker :=
  if running_ w then w else
  let w := w <| running_ := true |> <| stop_requested_ := false |> in
  if joinable w then w <| terminated := true |> else w <| joinable := true |> <| alive := true |>.

(** The join returns once the worker has noticed the request. *)
Definition Stop (w : worker) : worker :=
  if running_ w then
    let w := notice (w <| running_ := false |> <| stop_requested_ := true |>) in
    if joinable w then w <| joinable := false |> else w
  else w.

(** ** The wait between two rounds *)

(** The inner loop: the slices slept, [stop] being what successive reads of
    [stop_requested_] give. *)
Fixpoint wait_slices (fuel : nat) (stop : nat → bool) (remaining_ms : Z) : list Z :=
  match fuel with
  | O => []
  | S fuel =>
      if negb (stop 0%nat) && (0 <? remaining_ms) then
        let slice := Z.min remaining_ms 100 in
        slice :: wait_slices fuel (λ n, stop (S n)) (u32 (remaining_ms - slice))
      else []
  end.

(** One slice per 100 milliseconds, and the last. *)
Definition wait_fuel (interval_ms : Z) : nat := S (Z.to_nat (interval_ms / 100 + 1)).

Definition wait (interval_ms : Z) (stop : nat → bool) : list Z :=
  wait_slices (wait_fuel interval_ms) stop interval_ms.

(** ** Interleavings *)

(** The calls in progress, in any order, and the worker. *)
Inductive wstep : worker * list access → worker * list access → Prop :=
  | call_start w l : wstep (w, l) (w, l ++ [StartExchange])
  | call_stop w l : wstep (w, l) (w, l ++ [StopExchange])
  | call_access w w' a next l1 l2 :
      perform a w = Some (w', next) → terminated w = false →
      wstep (w, l1 ++ a :: l2) (w', l1 ++ from_option (λ a, [a]) [] next ++ l2)
  | worker_notices w l :
      alive w = true → stop_requested_ w = true → wstep (w, l) (notice w, l).

(** ** One caller *)

(** What holds between the calls of one thread. *)
Definition settled (w : worker) : Prop :=
  terminated w = false ∧ joinable w = running_ w ∧ alive w = running_ w ∧
  (running_ w = true → stop_requested_ w = false).

Lemma Start_settled w : settled w → settled (Start w).
Proof. destruct w as [r s j a t]. intros (?&?&?&?); cbn in *; subst. by destruct r. Qed.

Lemma Stop_settled w : settled w → settled (Stop w).
Proof. destruct w as [r s j a t]. intros (?&?&?&?); cbn in *; subst. by destruct r. Qed.

Definition run_worker (w : worker) (start : bool) : worker := if start then Start w else Stop w.

Lemma run_worker_settled l w : settled w → settled (foldl run_worker w l).
Proof.
  revert w. induction l as [|[] l IH]; intros w H; cbn; [done|..]; apply IH; [by apply Start_settled|by apply Stop_settled].
Qed.

(** A call of [a] alone runs to its end. *)
Lemma access_alone w a w' next l r :
  perform a w = Some (w', next) → terminated w = false → r = from_option (λ a, [a]) [] next ++ l →
  wstep (w, a :: l) (w', r).
Proof. intros ?? ->. by apply (call_access w w' a next [] l). Qed.

Lemma Start_performs w : terminated w = false → rtc wstep (w, []) (Start w, []).
Proof.
  destruct w as [r s j a t]. cbn. intros ->. eapply rtc_l; [apply call_start|]. cbn.
  destruct r; [by eapply rtc_once, access_alone|].
  eapply rtc_l; [by eapply access_alone|]. eapply rtc_l; [by eapply access_alone|].
  destruct j; by eapply rtc_once, access_alone.
Qed.

Lemma Stop_performs w : settled w → rtc wstep (w, []) (Stop w, []).
Proof.
  destruct w as [r s j a t]. intros (?&?&?&?); cbn in *; subst.
  eapply rtc_l; [apply call_stop|]. cbn. destruct r; [|by eapply rtc_once, access_alone].
  eapply rtc_l; [by eapply access_alone|]. eapply rtc_l; [by eapply access_alone|].
  eapply rtc_l; [by apply worker_notices|]. by eapply rtc_once, access_alone.
Qed.

(** Called from one thread, in any order and any number of times, [Start] and
    [Stop] keep at most one worker: it is alive exactly while [running_] says
    so, every thread started is joined, and each whole call is a run of the
    interleaving relation. *)
Theorem worker_lifecycle l start :
  let w := foldl run_worker new_worker l in
  settled w ∧ rtc wstep (w, []) (run_worker w start, []) ∧
  alive (run_worker w start) = start ∧ joinable (run_worker w start) = start.
Proof.
  intros w. assert (H : settled w) by (apply run_worker_settled; by split_and!). split; [done|]. split.
  - destruct start; [apply Start_performs; by destruct H|by apply Stop_performs].
  - clearbody w. destruct w as [r s j a t]. destruct H as (?&?&?&?); cbn in *; subst. by destruct start, r.
Qed.

(** The exchange of [Start] and its clearing of [stop_requested_] are two
    accesses. A [Stop] of another thread in between finds no thread to join,
    and its request is erased: the worker runs on while [running_] is false, no
    later [Stop] stops it, and the next [Start] terminates the program. *)
Theorem stop_lost_in_start :
  ∃ w, rtc wstep (new_worker, []) (w, []) ∧ running_ w = false ∧ alive w = true ∧ Stop w = w ∧
    ∃ w', rtc wstep (w, []) (w', []) ∧ terminated w' = true.
Proof.
  exists (mkWorker false false true true false). split; [|split_and!; [done..|]].
  - eapply rtc_l; [apply call_start|]. eapply rtc_l; [by eapply (call_access _ _ StartExchange _ [] [])|].
    eapply rtc_l; [apply call_stop|]. cbn.
    eapply rtc_l; [by eapply (call_access _ _ StopExchange _ [StartClear] [])|].
    eapply rtc_l; [by eapply (call_access _ _ StopRequest _ [StartClear] [])|].
    eapply rtc_l; [by eapply (call_access _ _ StopJoin _ [StartClear] [])|].
    eapply rtc_l; [by eapply access_alone|]. by eapply rtc_once, access_alone.
  - eexists. split; [by apply Start_performs|done].
Qed.

(** ** The wait *)

Definition slept : list Z → Z := foldr Z.add 0.

Lemma wait_slices_spec fuel : ∀ stop r, 0 <= r < 2 ^ 32 → (Z.to_nat (r / 100 + 1) < fuel)%nat →
  let l := wait_slices fuel stop r in
  Forall (λ s, 0 < s <= 100) l ∧ slept l <= r ∧
  ((∀ n, stop n = false) → slept l = r) ∧
  (∀ n, stop n = true → (length l <= n)%nat).
Proof.
  induction fuel as [|fuel IH]; intros stop r Hr Hf; [lia|]. cbn -[Z.min].
  destruct (stop 0%nat) eqn:E0; cbn [negb andb].
  { split_and!; [done|cbn; lia| |intros; cbn; lia]. intros H. by rewrite H in E0. }
  destruct (Z.ltb_spec 0 r) as [Hpos|Hz]; cbn -[Z.min].
  2:{ split_and!; [done|lia|intros; lia|intros; lia]. }
  set (s := Z.min r 100). assert (Hs : 0 < s <= 100 ∧ s <= r) by lia.
  assert (Hu : u32 (r - s) = r - s) by (apply Z.mod_small; lia). rewrite Hu.
  destruct (decide (r <= 100)) as [Hle|Hgt].
  - assert (0 <= r / 100) by (apply Z.div_pos; lia). assert (r - s = 0) as -> by lia.
    destruct fuel as [|fuel]; [lia|]. cbn [wait_slices]. rewrite andb_false_r. unfold slept. cbn [foldr length].
    split_and!; [apply Forall_singleton; lia|lia|lia|]. intros [|n] Hn; [congruence|lia].
  - destruct (IH (λ n, stop (S n)) (r - s)) as (H1 & H2 & H3 & H4).
    { lia. }
    { replace s with 100 in * by lia. replace (r - 100) with (r + (-1) * 100) by lia.
      rewrite Z.div_add by lia. assert (1 <= r / 100) by (apply Z.div_le_lower_bound; lia). lia. }
    fold (slept (wait_slices fuel (λ n, stop (S n)) (r - s))).
    split_and!; [constructor; [lia|done]|lia| |].
    + intros H. specialize (H3 (λ n, H (S n))). lia.
    + intros [|n] Hn; [congruence|]. specialize (H4 n Hn). lia.
Qed.

(** Between two rounds the worker sleeps exactly the interval, in slices of at
    most 100 milliseconds, and a request to stop that its [n]-th read sees cuts
    the wait to [n] slices. *)
Theorem wait_spec interval stop :
  in_u32 interval →
  let l := wait interval stop in
  Forall (λ s, 0 < s <= 100) l ∧
  ((∀ n, stop n = false) → slept l = interval) ∧
  (∀ n, stop n = true → (length l <= n)%nat).
Proof.
  intros Hi l. destruct (wait_slices_spec (wait_fuel interval) stop interval) as (H1 & _ & H3 & H4); [done|unfold wait_fuel; lia|].
  done.
Qed.

Lemma wait_spec_witness :
  in_u32 250 ∧ wait 250 (λ _, false) = [100; 100; 50] ∧ Forall (λ s, 0 < s <= 100) (wait 250 (λ _, false)) ∧
  (length (wait 250 (λ n, (1 <=? n)%nat)) <= 1)%nat.
Proof.
  split; [unfold in_u32; lia|]. split; [done|]. split.
  - apply (wait_spec 250); unfold in_u32; lia.
  - apply (wait_spec 250 (λ n, (1 <=? n)%nat)); [unfold in_u32; lia|done].
Defined.
