(* ===== verification/LeakDetector.v ===== *)
(** * Leak detector

    Models [src/leak_detector.cpp] and [include/scratchbird/client/leak_detector.h]:
    the checkouts a detector tracks, the guards that return them, the periodic
    check with its messages, and the functions of the C API, which keep one guard
    per connection. Every function runs under the mutex it takes, as one atomic
    operation. Times are nanoseconds of the steady clock. *)

From S2P Require Import Prelude.
From S2P Require Import Worker.

(** ** Configuration *)

Inductive sb_leak_log_level := SB_LEAK_LOG_DEBUG | SB_LEAK_LOG_WARN | SB_LEAK_LOG_ERROR.

Record sb_leak_detection_config := mkConfig {
  threshold_ms : Z;
  capture_stack_trace : bool;
  check_interval_ms : Z;
  log_level : sb_leak_log_level
}.

Definition sb_leak_detection_config_default : sb_leak_detection_config :=
  mkConfig 30000 false 10000 SB_LEAK_LOG_WARN.

(** ** Checkouts *)

Record CheckoutInfo := mkCheckout {
  checkout_time : Z;
  thread_id : Z;
  stack_trace : bytes;
  metadata : gmap bytes bytes
}.

Definition new_checkout (now thread : Z) (capture : bool) (meta : gmap bytes bytes) : CheckoutInfo :=
  mkCheckout now thread (if capture then "Stack trace captured" else "") meta.

Definition GetHeldDuration (now : Z) (info : CheckoutInfo) : Z := milliseconds_of (now - checkout_time info).

(** ** The detector *)

(** A line of text and the stream it goes to. *)
Inductive line := Cout (text : bytes) | Cerr (text : bytes).

Record LeakDetector := mkDetector {
  config_ : sb_leak_detection_config;
  checkouts_ : gmap bytes CheckoutInfo;
  worker_ : worker;
  printed : list line
}.

#[export] Instance LeakDetector_eta : Eta LeakDetector :=
  λ d, mkDetector (config_ d) (checkouts_ d) (worker_ d) (printed d).

Definition new_detector (config : sb_leak_detection_config) : LeakDetector := mkDetector config ∅ new_worker [].

Definition Start (d : LeakDetector) : LeakDetector := d <| worker_ := Worker.Start (worker_ d) |>.
Definition Stop (d : LeakDetector) : LeakDetector := d <| worker_ := Worker.Stop (worker_ d) |>.

(** A guard remembers the connection and whether it has released it. *)
Record LeakDetectionGuard := mkGuard { connection_id_ : bytes; released_ : bool }.

(** The clock and the thread are read by the constructor of the checkout. *)
Definition Checkout_with (now thread : Z) (connection_id : bytes) (meta : gmap bytes bytes) (d : LeakDetector)
    : LeakDetectionGuard * LeakDetector :=
  (mkGuard connection_id false,
   d <| checkouts_ := <[connection_id := new_checkout now thread (capture_stack_trace (config_ d)) meta]> (checkouts_ d) |>).

Definition Checkout (now thread : Z) (connection_id : bytes) : LeakDetector → LeakDetectionGuard * LeakDetector :=
  Checkout_with now thread connection_id ∅.

Definition returned_text (connection_id : bytes) (held_ms threshold : Z) : bytes :=
  ("Connection " : bytes) ++ connection_id ++ (" held for " : bytes) ++ dec held_ms ++
  (" ms (threshold: " : bytes) ++ dec threshold ++ (" ms) - returned" : bytes).

(** The checkout is forgotten; a long one is reported. *)
Definition Checkin (now : Z) (connection_id : bytes) (d : LeakDetector) : LeakDetector :=
  match checkouts_ d !! connection_id with
  | None => d
  | Some info =>
      let d := d <| checkouts_ := delete connection_id (checkouts_ d) |> in
      let held_ms := u32 (GetHeldDuration now info) in
      if threshold_ms (config_ d) <? held_ms
      then d <| printed := printed d ++ [Cout (returned_text connection_id held_ms (threshold_ms (config_ d)))] |>
      else d
  end.

(** [released_.exchange(true)]; the destructor of the guard does the same. *)
Definition Release (now : Z) (g : LeakDetectionGuard) (d : LeakDetector) : LeakDetectionGuard * LeakDetector :=
  if released_ g then (g, d)
  else (mkGuard (connection_id_ g) true, Checkin now (connection_id_ g) d).

Definition destroy_guard (now : Z) (g : LeakDetectionGuard) (d : LeakDetector) : LeakDetector := (Release now g d).2.

Definition GetActiveCount (d : LeakDetector) : Z := Z.of_nat (size (checkouts_ d)).

(** The duration is compared as a signed 64-bit integer. *)
Definition potential_leak (now : Z) (d : LeakDetector) (info : CheckoutInfo) : bool :=
  threshold_ms (config_ d) <? milliseconds_of (now - checkout_time info).

Definition GetStats (now : Z) (d : LeakDetector) : Z * Z :=
  (GetActiveCount d, blen (filter (λ p, potential_leak now d p.2) (std_map_items (checkouts_ d)))).

(** ** The periodic check *)

Definition leak_text (conn_id : bytes) (held_ms threshold : Z) : bytes :=
  ("POSSIBLE CONNECTION LEAK: conn=" : bytes) ++ conn_id ++ (", held=" : bytes) ++ dec held_ms ++
  (" ms, threshold=" : bytes) ++ dec threshold ++ (" ms" : bytes).

Definition LogLeak (conn_id : bytes) (held_ms : Z) (d : LeakDetector) : LeakDetector :=
  let text := leak_text conn_id held_ms (threshold_ms (config_ d)) in
  match log_level (config_ d) with
  | SB_LEAK_LOG_DEBUG => d
  | SB_LEAK_LOG_WARN => d <| printed := printed d ++ [Cout (("WARNING: " : bytes) ++ text)] |>
  | SB_LEAK_LOG_ERROR => d <| printed := printed d ++ [Cerr (("ERROR: " : bytes) ++ text)] |>
  end.

(** The duration is cut to 32 bits. *)
Definition check_one (now : Z) (d : LeakDetector) (p : bytes * CheckoutInfo) : LeakDetector :=
  let held_ms := u32 (milliseconds_of (now - checkout_time p.2)) in
  if threshold_ms (config_ d) <? held_ms then LogLeak p.1 held_ms d else d.

Definition CheckLeaks (now : Z) (d : LeakDetector) : LeakDetector :=
  foldl (check_one now) d (std_map_items (checkouts_ d)).

(** One round of [MonitorLoop]: [None] when the loop ends, else the slices slept
    and the check, unless it was stopped meanwhile. [stop] gives the successive
    reads of [stop_requested_]: one before the wait, one per turn of the wait and
    its last, one after it. *)
Definition monitor_round (now : Z) (stop : nat → bool) (d : LeakDetector) : option (list Z * LeakDetector) :=
  if stop 0%nat then None else
  let slices := wait (check_interval_ms (config_ d)) (λ n, stop (S n)) in
  Some (slices, if stop (S (S (length slices))) then d else CheckLeaks now d).

(** ** The C API

    [g_c_api_guards] maps each detector to the guards of its connections; the
    entries of different detectors do not meet, so one detector is kept with its
    entry. A null argument is [None]. *)
Record sb_leak_detector := mkHandle {
  detector : LeakDetector;
  g_c_api_guards : gmap bytes LeakDetectionGuard
}.

#[export] Instance sb_leak_detector_eta : Eta sb_leak_detector := λ h, mkHandle (detector h) (g_c_api_guards h).

Definition sb_leak_detector_create (config : option sb_leak_detection_config) : sb_leak_detector :=
  mkHandle (new_detector (default sb_leak_detection_config_default config)) ∅.

(** [g_c_api_guards[typed][conn_id] = std::move(guard)]: the guard that was there
    is destroyed. *)
Definition store_guard (now : Z) (conn_id : bytes) (guard : LeakDetectionGuard) (h : sb_leak_detector) : sb_leak_detector :=
  let d := match g_c_api_guards h !! conn_id with Some old => destroy_guard now old (detector h) | None => detector h end in
  mkHandle d (<[conn_id := guard]> (g_c_api_guards h)).

Definition sb_leak_detector_checkout (now thread : Z) (conn_id : option bytes) (h : sb_leak_detector) : sb_leak_detector :=
  match conn_id with
  | None => h
  | Some conn_id =>
      let '(guard, d) := Checkout now thread conn_id (detector h) in
      store_guard now conn_id guard (h <| detector := d |>)
  end.

(** The pairs without a null pointer, the last value of a key counting. *)
Definition metadata_of (keys values : list (option bytes)) : gmap bytes bytes :=
  foldl (λ m kv, match kv with (Some k, Some v) => <[k := v]> m | _ => m end) ∅ (zip keys values).

Definition sb_leak_detector_checkout_with_metadata (now thread : Z) (conn_id : option bytes)
    (keys values : list (option bytes)) (h : sb_leak_detector) : sb_leak_detector :=
  match conn_id with
  | None => h
  | Some conn_id =>
      let '(guard, d) := Checkout_with now thread conn_id (metadata_of keys values) (detector h) in
      store_guard now conn_id guard (h <| detector := d |>)
  end.

Definition sb_leak_detector_checkin (now : Z) (conn_id : option bytes) (h : sb_leak_detector) : sb_leak_detector :=
  match conn_id with
  | None => h
  | Some conn_id =>
      match g_c_api_guards h !! conn_id with
      | Some guard =>
          let '(_, d) := Release now guard (detector h) in
          mkHandle d (delete conn_id (g_c_api_guards h))
      | None => h <| detector := Checkin now conn_id (detector h) |>
      end
  end.

(** The guards are destroyed in any order before the detector, which stops. *)
Definition sb_leak_detector_destroy (now : Z) (h : sb_leak_detector) : LeakDetector :=
  Stop (foldl (λ d p, destroy_guard now p.2 d) (detector h) (map_to_list (g_c_api_guards h))).

Definition sb_leak_detector_get_active_count (h : option sb_leak_detector) : Z :=
  match h with Some h => GetActiveCount (detector h) | None => 0 end.

(** ** What the C API tracks *)

(** A connection that was checked out and not returned, as the detector sees it:
    a second checkout loses it. *)
Inductive lease := Tracked | Lost.

#[export] Instance lease_eq_dec : EqDecision lease.
Proof. solve_decision. Defined.

Inductive leak_call := CheckoutCall (conn_id : bytes) (thread : Z) | CheckinCall (conn_id : bytes).

Definition lease_step (m : gmap bytes lease) (c : leak_call) : gmap bytes lease :=
  match c with
  | CheckoutCall id _ => <[id := match m !! id with None => Tracked | Some _ => Lost end]> m
  | CheckinCall id => delete id m
  end.

Definition run_leak_call (now : Z) (h : sb_leak_detector) (c : leak_call) : sb_leak_detector :=
  match c with
  | CheckoutCall id thread => sb_leak_detector_checkout now thread (Some id) h
  | CheckinCall id => sb_leak_detector_checkin now (Some id) h
  end.

(** The detector tracks exactly the connections that are [Tracked]; every
    connection that is out has a guard of its own, not yet released. *)
Definition represents (m : gmap bytes lease) (h : sb_leak_detector) : Prop :=
  (∀ id, is_Some (checkouts_ (detector h) !! id) ↔ m !! id = Some Tracked) ∧
  (∀ id, g_c_api_guards h !! id = (λ _, mkGuard id false) <$> m !! id).

Lemma Checkin_checkouts now id d : checkouts_ (Checkin now id d) = delete id (checkouts_ d).
Proof.
  unfold Checkin. destruct (checkouts_ d !! id) eqn:E; [by destruct (_ <? _)|]. by rewrite delete_id.
Qed.

Lemma checkout_represents now thread id m h :
  represents m h → represents (lease_step m (CheckoutCall id thread)) (run_leak_call now h (CheckoutCall id thread)).
Proof.
  intros [Hc Hg]. unfold run_leak_call, sb_leak_detector_checkout, Checkout, Checkout_with, store_guard. cbn -[Checkin].
  rewrite Hg. destruct (m !! id) as [l|] eqn:E; cbn -[Checkin]; (split; cbn -[Checkin]; intros id');
    rewrite ?Checkin_checkouts; cbn; destruct (decide (id' = id)) as [->|Hne];
    rewrite ?lookup_insert_eq, ?lookup_delete_eq, ?lookup_insert_ne, ?lookup_delete_ne, ?lookup_insert_ne by done;
    first [done | apply Hc | apply Hg | idtac].
Qed.

Lemma checkin_represents now id m h :
  represents m h → represents (lease_step m (CheckinCall id)) (run_leak_call now h (CheckinCall id)).
Proof.
  intros [Hc Hg]. unfold run_leak_call, sb_leak_detector_checkin, Release. rewrite Hg.
  destruct (m !! id) as [l|] eqn:E; cbn -[Checkin]; (split; cbn -[Checkin]; intros id');
    rewrite ?Checkin_checkouts; destruct (decide (id' = id)) as [->|Hne];
    rewrite ?lookup_delete_eq, ?lookup_delete_ne by done; try first [done | apply Hc | apply Hg].
  by rewrite Hg, E.
Qed.

Lemma represents_count m h : represents m h → GetActiveCount (detector h) = Z.of_nat (size (filter (λ p, p.2 = Tracked) m)).
Proof.
  intros [Hc _]. unfold GetActiveCount. f_equal. rewrite <-!size_dom. f_equal. apply set_eq. intros id.
  rewrite !elem_of_dom, Hc. unfold is_Some. setoid_rewrite map_lookup_filter_Some. cbn. naive_solver.
Qed.

(** For any calls of the C API a detector tracks exactly the connections that
    were checked out once since their last return. Checking out a connection
    that is out makes the detector lose it: the guard that is replaced returns
    the checkout just made, and the connection is held without being watched
    until it is returned. *)
Theorem leak_api_tracks now config calls :
  let h := foldl (run_leak_call now) (sb_leak_detector_create config) calls in
  let m := foldl lease_step ∅ calls in
  (∀ id, is_Some (checkouts_ (detector h) !! id) ↔ m !! id = Some Tracked) ∧
  (∀ id, is_Some (g_c_api_guards h !! id) ↔ is_Some (m !! id)) ∧
  sb_leak_detector_get_active_count (Some h) = Z.of_nat (size (filter (λ p, p.2 = Tracked) m)).
Proof.
  intros h m. assert (H : represents m h).
  { subst h m. assert (H0 : represents ∅ (sb_leak_detector_create config)).
    { split; intros id; cbn; rewrite !lookup_empty; [by split; [intros []|]|done]. }
    revert H0. generalize (∅ : gmap bytes lease) (sb_leak_detector_create config).
    induction calls as [|[id thread|id] calls IH]; intros m h H; [done|..]; cbn [foldl]; apply IH;
      [by apply checkout_represents|by apply checkin_represents]. }
  split_and!; [apply H| |by apply represents_count].
  intros id. destruct H as [_ ->]. apply fmap_is_Some.
Qed.

(** ** What a check reports *)

(** A round appends, in the order of the connections, one line for each checkout
    whose held time, cut to 32 bits, passes the threshold. *)
Definition warning (config : sb_leak_detection_config) (text : bytes) : list line :=
  match log_level config with
  | SB_LEAK_LOG_DEBUG => []
  | SB_LEAK_LOG_WARN => [Cout (("WARNING: " : bytes) ++ text)]
  | SB_LEAK_LOG_ERROR => [Cerr (("ERROR: " : bytes) ++ text)]
  end.

Definition report (now : Z) (config : sb_leak_detection_config) (p : bytes * CheckoutInfo) : list line :=
  let held_ms := u32 (GetHeldDuration now p.2) in
  if threshold_ms config <? held_ms then warning config (leak_text p.1 held_ms (threshold_ms config)) else [].

Lemma check_one_report now d p :
  check_one now d p = d <| printed := printed d ++ report now (config_ d) p |>.
Proof.
  destruct d as [cfg m w out]. unfold check_one, report, LogLeak, warning, GetHeldDuration. cbn -[Z.quot u32].
  destruct (_ <? _); [destruct (log_level cfg)|]; by rewrite ?app_nil_r.
Qed.

Lemma check_fold now l d :
  foldl (check_one now) d l = d <| printed := printed d ++ (l ≫= report now (config_ d)) |>.
Proof.
  revert d. induction l as [|p l IH]; intros [cfg m w out]; cbn [foldl]; [cbn; by rewrite app_nil_r|].
  rewrite check_one_report, IH. cbn -[report]. by rewrite app_assoc.
Qed.

Lemma length_reports now config l :
  log_level config ≠ SB_LEAK_LOG_DEBUG →
  length (l ≫= report now config) = length (filter (λ p, threshold_ms config <? u32 (GetHeldDuration now p.2)) l).
Proof.
  intros Hl. induction l as [|p l IH]; [done|]. rewrite bind_cons, length_app, IH, filter_cons. unfold report.
  destruct (_ <? _); cbn; [|done]. unfold warning. by destruct (log_level config).
Qed.

(** A check changes nothing but the log, to which it appends one line per
    checkout held longer than the threshold; unless messages are off, these are
    as many as [GetStats] counts, as long as no connection is held for 2^32
    milliseconds. *)
Theorem check_leaks_reports now d :
  let config := config_ d in
  CheckLeaks now d = d <| printed := printed d ++ (std_map_items (checkouts_ d) ≫= report now config) |> ∧
  (log_level config ≠ SB_LEAK_LOG_DEBUG →
   (∀ id info, checkouts_ d !! id = Some info → in_u32 (GetHeldDuration now info)) →
   blen (std_map_items (checkouts_ d) ≫= report now config) = (GetStats now d).2).
Proof.
  intros config. split; [apply check_fold|]. intros Hl Hin. cbn. f_equal. rewrite length_reports by done.
  apply (f_equal length), list_filter_local. intros [id info] Hp%elem_of_std_map_items. cbn -[Z.quot u32].
  unfold potential_leak, u32. fold (GetHeldDuration now info). by rewrite (Z.mod_small _ _ (Hin id info Hp)).
Qed.

(** A detector with one connection, checked out at time 0. *)
Definition held_since_0 : LeakDetector :=
  detector (sb_leak_detector_checkout 0 1 (Some ("c1" : bytes)) (sb_leak_detector_create None)).

Lemma check_leaks_reports_witness :
  let now := 31000 * 10 ^ 6 in
  printed (CheckLeaks now held_since_0) =
    [Cout ("WARNING: POSSIBLE CONNECTION LEAK: conn=c1, held=31000 ms, threshold=30000 ms" : bytes)] ∧
  blen (std_map_items (checkouts_ held_since_0) ≫= report now (config_ held_since_0)) = (GetStats now held_since_0).2.
Proof.
  split; [by vm_compute|]. apply (proj2 (check_leaks_reports (31000 * 10 ^ 6) held_since_0)); [done|].
  intros id info. change (checkouts_ held_since_0) with ({[ ("c1" : bytes) := new_checkout 0 1 false ∅ ]} : gmap bytes CheckoutInfo).
  intros [_ <-]%lookup_singleton_Some. by vm_compute.
Defined.

(** After 2^32 milliseconds a held connection is still counted, and no longer
    reported. *)
Example leak_forgotten_after_49_days :
  let now := 2 ^ 32 * 10 ^ 6 in
  printed (CheckLeaks now held_since_0) = [] ∧ GetStats now held_since_0 = (1, 1).
Proof. by vm_compute. Qed.
