(* ===== verification/Telemetry.v ===== *)
(** * Telemetry

    Models [src/telemetry.cpp] and [include/scratchbird/client/telemetry.h]: spans,
    counters and histogram, the log of slow queries, the exports and the
    functions of the C API. Counters are [uint64_t] and wrap; every function runs
    as one atomic operation. Clocks and random numbers are arguments. *)

From S2P Require Import Prelude.
From S2P Require Import Text.
From S2P Require Import Json.

(** ** Configuration *)

(** The flags as the tests of the code read them. [accepts] is the outcome of
    the comparison of a call of [rand()], over [RAND_MAX], with [sample_rate]. *)
Record sb_telemetry_config := mkConfig {
  enable_tracing : bool;
  enable_metrics : bool;
  enable_slow_query_log : bool;
  slow_query_threshold_ms : Z;
  sanitize_queries : bool;
  accepts : Z → bool
}.

Definition sb_telemetry_config_default : sb_telemetry_config := mkConfig true true true 1000 true (λ _, true).

(** ** Spans *)

Record SpanContext := mkSpan {
  trace_id : bytes;
  span_id : bytes;
  parent_span_id : bytes;
  span_name : bytes;
  start_time : Z;
  attributes : gmap bytes bytes
}.

#[export] Instance SpanContext_eta : Eta SpanContext :=
  λ s, mkSpan (trace_id s) (span_id s) (parent_span_id s) (span_name s) (start_time s) (attributes s).

(** Two lower-case digits for the low byte of each draw. *)
Definition random_hex (draws : list Z) : bytes := hex_text ((λ d, byte_of (Z.land d 0xFF)) <$> draws).

(** The generator's draws: sixteen for the trace, eight for the span. *)
Record draws := mkDraws { trace_draws : list Z; span_draws : list Z }.

Definition new_span (d : draws) (now : Z) (name : bytes) : SpanContext :=
  mkSpan (random_hex (take 16 (trace_draws d))) (random_hex (take 8 (span_draws d))) [] name now ∅.

Definition new_child_span (d : draws) (now : Z) (name : bytes) (parent : SpanContext) : SpanContext :=
  mkSpan (trace_id parent) (random_hex (take 8 (span_draws d))) (span_id parent) name now ∅.

Definition WithAttribute (key value : bytes) (s : SpanContext) : SpanContext :=
  s <| attributes := <[key := value]> (attributes s) |>.

Definition Elapsed (now : Z) (s : SpanContext) : Z := milliseconds_of (now - start_time s).

(** ** Metrics *)

Record LatencyHistogram := mkHistogram {
  ms_0_10 : Z; ms_10_100 : Z; ms_100_1000 : Z; ms_1000_10000 : Z; ms_over_10000 : Z
}.

#[export] Instance LatencyHistogram_eta : Eta LatencyHistogram :=
  λ h, mkHistogram (ms_0_10 h) (ms_10_100 h) (ms_100_1000 h) (ms_1000_10000 h) (ms_over_10000 h).

Definition empty_histogram : LatencyHistogram := mkHistogram 0 0 0 0 0.

Definition record_latency (duration_ms : Z) (h : LatencyHistogram) : LatencyHistogram :=
  if duration_ms <=? 10 then h <| ms_0_10 := u64 (ms_0_10 h + 1) |>
  else if duration_ms <=? 100 then h <| ms_10_100 := u64 (ms_10_100 h + 1) |>
  else if duration_ms <=? 1000 then h <| ms_100_1000 := u64 (ms_100_1000 h + 1) |>
  else if duration_ms <=? 10000 then h <| ms_1000_10000 := u64 (ms_1000_10000 h + 1) |>
  else h <| ms_over_10000 := u64 (ms_over_10000 h + 1) |>.

Record OperationMetrics := mkMetrics {
  count : Z; total_time_ms : Z; avg_time_ms : Z; max_time_ms : Z; error_count : Z
}.

#[export] Instance OperationMetrics_eta : Eta OperationMetrics :=
  λ o, mkMetrics (count o) (total_time_ms o) (avg_time_ms o) (max_time_ms o) (error_count o).

Definition no_metrics : OperationMetrics := mkMetrics 0 0 0 0 0.

(** The average divides by the new count, [None] when that is zero. *)
Definition record_operation (duration_ms : Z) (success : bool) (o : OperationMetrics) : outcome OperationMetrics :=
  let count_val := u64 (count o + 1) in
  let total_val := u64 (total_time_ms o + duration_ms) in
  if count_val =? 0 then UB else
  Ret (mkMetrics count_val total_val (total_val / count_val)
         (if max_time_ms o <? duration_ms then duration_ms else max_time_ms o)
         (if success then error_count o else u64 (error_count o + 1))).

Record SlowQueryLog := mkSlow {
  sl_trace_id : bytes;
  sl_span_name : bytes;
  sl_duration_ms : Z;
  sl_timestamp : Z;
  sl_attributes : gmap bytes bytes
}.

(** ** The collector *)

Record TelemetryCollector := mkCollector {
  config_ : sb_telemetry_config;
  total_queries_ : Z;
  successful_queries_ : Z;
  failed_queries_ : Z;
  total_query_time_ms_ : Z;
  histogram_ : LatencyHistogram;
  operation_metrics_ : gmap bytes OperationMetrics;
  slow_queries_ : list SlowQueryLog
}.

#[export] Instance TelemetryCollector_eta : Eta TelemetryCollector :=
  λ c, mkCollector (config_ c) (total_queries_ c) (successful_queries_ c) (failed_queries_ c)
         (total_query_time_ms_ c) (histogram_ c) (operation_metrics_ c) (slow_queries_ c).

Definition new_collector (config : sb_telemetry_config) : TelemetryCollector :=
  mkCollector config 0 0 0 0 empty_histogram ∅ [].

Definition StartSpan (roll : Z) (d : draws) (now : Z) (name : bytes) (c : TelemetryCollector) : option SpanContext :=
  if negb (enable_tracing (config_ c)) then None
  else if negb (accepts (config_ c) roll) then None
  else Some (new_span d now name).

Definition RecordQueryMetrics (operation : bytes) (duration_ms : Z) (success : bool) (c : TelemetryCollector)
    : outcome TelemetryCollector :=
  if negb (enable_metrics (config_ c)) then Ret c else
  let c := c <| total_queries_ := u64 (total_queries_ c + 1) |> in
  let c :=
    if success then c <| successful_queries_ := u64 (successful_queries_ c + 1) |>
    else c <| failed_queries_ := u64 (failed_queries_ c + 1) |> in
  let c := c <| total_query_time_ms_ := u64 (total_query_time_ms_ c + duration_ms) |> in
  let c := c <| histogram_ := record_latency duration_ms (histogram_ c) |> in
  o ← record_operation duration_ms success (default no_metrics (operation_metrics_ c !! operation));
  Ret (c <| operation_metrics_ := <[operation := o]> (operation_metrics_ c) |>).

(** [push_back], then [erase(begin())] beyond a hundred. *)
Definition RecordSlowQuery (span : SpanContext) (duration_ms wall : Z) (c : TelemetryCollector) : TelemetryCollector :=
  let entry := mkSlow (trace_id span) (span_name span) duration_ms wall (attributes span) in
  let l := slow_queries_ c ++ [entry] in
  c <| slow_queries_ := if 100 <? blen l then drop 1 l else l |>.

(** [wall] is the system clock. *)
Definition EndSpan (now wall : Z) (span : SpanContext) (success : bool) (c : TelemetryCollector)
    : outcome TelemetryCollector :=
  if negb (enable_tracing (config_ c)) then Ret c else
  let duration_ms := u64 (Elapsed now span) in
  c ← RecordQueryMetrics (span_name span) duration_ms success c;
  Ret (if enable_slow_query_log (config_ c) && (slow_query_threshold_ms (config_ c) <? duration_ms)
       then RecordSlowQuery span duration_ms wall c else c).

(** [GetMetrics] reads the members; the operations come in the order of the map. *)
Record Metrics := mkSnapshot {
  total_queries : Z;
  successful_queries : Z;
  failed_queries : Z;
  total_query_time_ms : Z;
  latency_histogram : LatencyHistogram;
  operation_metrics : list (bytes * OperationMetrics)
}.

Definition GetMetrics (c : TelemetryCollector) : Metrics :=
  mkSnapshot (total_queries_ c) (successful_queries_ c) (failed_queries_ c) (total_query_time_ms_ c)
    (histogram_ c) (std_map_items (operation_metrics_ c)).

Definition GetSlowQueries (c : TelemetryCollector) : list SlowQueryLog := slow_queries_ c.

Definition Reset (c : TelemetryCollector) : TelemetryCollector :=
  c <| total_queries_ := 0 |> <| successful_queries_ := 0 |> <| failed_queries_ := 0 |>
    <| total_query_time_ms_ := 0 |> <| histogram_ := empty_histogram |>
    <| operation_metrics_ := ∅ |> <| slow_queries_ := [] |>.

(** ** Exports *)


Definition apostrophe : byte := Byte.x27.

(** ["key":"text"] and ["key":number]. Neither escapes the text. *)
Definition text_field (key text : bytes) : bytes := quote :: key ++ [quote; ":"%byte; quote] ++ text ++ [quote].
Definition number_field (key : bytes) (n : Z) : bytes := quote :: key ++ [quote; ":"%byte] ++ to_string n.

Definition slow_query_json (l : SlowQueryLog) : bytes :=
  ("{" : bytes) ++ text_field "trace_id" (sl_trace_id l) ++ ("," : bytes) ++
  text_field "operation" (sl_span_name l) ++ ("," : bytes) ++
  number_field "duration_ms" (sl_duration_ms l) ++ ("," : bytes) ++
  number_field "captured_unix_ms" (milliseconds_of (sl_timestamp l)) ++ ("}" : bytes).

Definition ExportSlowQueriesJson (c : TelemetryCollector) : bytes :=
  ("[" : bytes) ++ join_with ("," : bytes) (slow_query_json <$> slow_queries_ c) ++ ("]" : bytes).

Definition newline : byte := Byte.x0a.

Definition bucket_line (le : bytes) (n : Z) : bytes :=
  ("scratchbird_query_duration_ms_bucket{le=" : bytes) ++ [quote] ++ le ++ [quote] ++ ("} " : bytes) ++ to_string n ++ [newline].

Definition ExportPrometheusMetrics (c : TelemetryCollector) : bytes :=
  let m := GetMetrics c in
  let h := latency_histogram m in
  ("# HELP scratchbird_queries_total Total number of queries" : bytes) ++ [newline] ++
  ("# TYPE scratchbird_queries_total counter" : bytes) ++ [newline] ++
  ("scratchbird_queries_total " : bytes) ++ to_string (total_queries m) ++ [newline] ++
  ("# HELP scratchbird_query_duration_ms Query duration histogram" : bytes) ++ [newline] ++
  ("# TYPE scratchbird_query_duration_ms histogram" : bytes) ++ [newline] ++
  bucket_line "10" (ms_0_10 h) ++
  bucket_line "100" (u64 (ms_0_10 h + ms_10_100 h)) ++
  bucket_line "1000" (u64 (ms_0_10 h + ms_10_100 h + ms_100_1000 h)).

(** ** Sanitized statements *)

Fixpoint sanitize_loop (in_quote : bool) (sql : bytes) : bytes :=
  match sql with
  | [] => []
  | c :: sql =>
      if bool_decide (c = apostrophe) then
        if in_quote then apostrophe :: "?"%byte :: apostrophe :: sanitize_loop false sql
        else apostrophe :: sanitize_loop true sql
      else if in_quote then sanitize_loop true sql
      else c :: sanitize_loop false sql
  end.

Definition SanitizeQuery (sql : bytes) : bytes :=
  let out := sanitize_loop false sql in if bool_decide (out = []) then sql else out.

(** ** The guard of a span *)

Record TelemetrySpanGuard := mkSpanGuard { span_ : option SpanContext; success_ : bool }.

Definition new_span_guard (span : option SpanContext) : TelemetrySpanGuard := mkSpanGuard span true.
Definition MarkFailed (g : TelemetrySpanGuard) : TelemetrySpanGuard := mkSpanGuard (span_ g) false.
Definition GetSpan (g : TelemetrySpanGuard) : option SpanContext := span_ g.

Definition destroy_span_guard (now wall : Z) (g : TelemetrySpanGuard) (c : TelemetryCollector) : outcome TelemetryCollector :=
  match span_ g with Some span => EndSpan now wall span (success_ g) c | None => Ret c end.

(** ** The C API *)

Record sb_telemetry := mkTelemetry { collector : TelemetryCollector; active : gmap bytes SpanContext }.

#[export] Instance sb_telemetry_eta : Eta sb_telemetry := λ t, mkTelemetry (collector t) (active t).

Definition sb_telemetry_create (config : option sb_telemetry_config) : sb_telemetry :=
  mkTelemetry (new_collector (default sb_telemetry_config_default config)) ∅.

(** What is written to the two output buffers, [None] when the call returns at
    once. [emplace] does nothing when the trace is there already. *)
Definition sb_telemetry_start_span (roll : Z) (d : draws) (now : Z) (name : option bytes) (outputs : bool) (t : sb_telemetry)
    : option (bytes * bytes) * sb_telemetry :=
  match name with
  | Some name =>
      if negb outputs then (None, t) else
      match StartSpan roll d now name (collector t) with
      | None => (Some ([], []), t)
      | Some span =>
          (Some (take 32 (trace_id span), take 16 (span_id span)),
           match active t !! trace_id span with
           | Some _ => t
           | None => t <| active := <[trace_id span := span]> (active t) |>
           end)
      end
  | None => (None, t)
  end.

Definition sb_telemetry_end_span (now wall : Z) (trace : option bytes) (success : bool) (t : sb_telemetry)
    : outcome sb_telemetry :=
  match trace with
  | None => Ret t
  | Some trace =>
      match active t !! trace with
      | None => Ret t
      | Some span =>
          let t := t <| active := delete trace (active t) |> in
          c ← EndSpan now wall span success (collector t);
          Ret (t <| collector := c |>)
      end
  end.

Definition sb_telemetry_add_attribute (trace key value : option bytes) (t : sb_telemetry) : sb_telemetry :=
  match trace, key, value with
  | Some trace, Some key, Some value => t <| active := alter (WithAttribute key value) trace (active t) |>
  | _, _, _ => t
  end.

(** What is written to a buffer of [out_size] bytes, [None] for nothing. *)
Definition sb_telemetry_sanitize_query (sql : option bytes) (out : bool) (out_size : nat) : option bytes :=
  if negb out || (out_size =? 0)%nat then None
  else match sql with None => Some [] | Some sql => Some (take (out_size - 1) (SanitizeQuery sql)) end.

(** ** Metrics as counts of samples *)

Record sample := mkSample { s_operation : bytes; s_duration : Z; s_success : bool }.

Definition record_sample (c : TelemetryCollector) (s : sample) : outcome TelemetryCollector :=
  RecordQueryMetrics (s_operation s) (s_duration s) (s_success s) c.

(** How many samples pass a test. *)
Definition tally (f : sample → bool) (l : list sample) : Z := blen (filter f l).

Definition duration_sum (l : list sample) : Z := foldr (λ s n, s_duration s + n) 0 l.
Definition duration_max (l : list sample) : Z := foldr (λ s n, Z.max (s_duration s) n) 0 l.

Definition of_operation (op : bytes) (l : list sample) : list sample := filter (λ s, s_operation s = op) l.

(** The five ranges do not overlap and leave nothing out. *)
Definition histogram_of (l : list sample) : LatencyHistogram :=
  mkHistogram (tally (λ s, s_duration s <=? 10) l)
    (tally (λ s, (10 <? s_duration s) && (s_duration s <=? 100)) l)
    (tally (λ s, (100 <? s_duration s) && (s_duration s <=? 1000)) l)
    (tally (λ s, (1000 <? s_duration s) && (s_duration s <=? 10000)) l)
    (tally (λ s, 10000 <? s_duration s) l).

(** The sums are kept modulo 2^64; the average is that of the sum as kept. *)
Definition metrics_of (l : list sample) : option OperationMetrics :=
  if bool_decide (l = []) then None
  else Some (mkMetrics (blen l) (u64 (duration_sum l)) (u64 (duration_sum l) / blen l) (duration_max l)
               (tally (λ s, negb (s_success s)) l)).

Record reflects (l : list sample) (c : TelemetryCollector) : Prop := {
  r_total : total_queries_ c = blen l;
  r_ok : successful_queries_ c = tally s_success l;
  r_failed : failed_queries_ c = tally (λ s, negb (s_success s)) l;
  r_time : total_query_time_ms_ c = u64 (duration_sum l);
  r_histogram : histogram_ c = histogram_of l;
  r_operations op : operation_metrics_ c !! op = metrics_of (of_operation op l)
}.

Lemma tally_snoc f l s : tally f (l ++ [s]) = tally f l + (if f s then 1 else 0).
Proof. unfold tally. rewrite filter_app, length_app, filter_cons, filter_nil. case_decide; destruct (f s); cbn in *; try done; lia. Qed.

Lemma tally_bound f l : 0 <= tally f l <= blen l.
Proof. unfold tally. pose proof (length_filter f l). lia. Qed.

Lemma duration_sum_snoc l s : duration_sum (l ++ [s]) = duration_sum l + s_duration s.
Proof. unfold duration_sum. induction l as [|x l IH]; cbn; [lia|]. rewrite IH. lia. Qed.

Lemma duration_max_snoc l s : 0 <= s_duration s → duration_max (l ++ [s]) = Z.max (duration_max l) (s_duration s).
Proof. intros. unfold duration_max. induction l as [|x l IH]; cbn [app foldr]; [lia|]. rewrite IH. lia. Qed.

Lemma duration_max_nonneg l : 0 <= duration_max l.
Proof. unfold duration_max. induction l; cbn [foldr]; lia. Qed.

Lemma u64_add a b : u64 (u64 a + b) = u64 (a + b).
Proof. unfold u64. by rewrite Z.add_mod_idemp_l. Qed.

Lemma of_operation_snoc op l s :
  of_operation op (l ++ [s]) = of_operation op l ++ (if bool_decide (s_operation s = op) then [s] else []).
Proof. unfold of_operation. rewrite filter_app, filter_cons, filter_nil. case_bool_decide; by case_decide. Qed.

Lemma length_of_operation op l : (length (of_operation op l) <= length l)%nat.
Proof. apply length_filter. Qed.

Lemma histogram_snoc l s : blen l < 2 ^ 64 - 1 → record_latency (s_duration s) (histogram_of l) = histogram_of (l ++ [s]).
Proof.
  intros Hl. unfold histogram_of. rewrite !tally_snoc. unfold record_latency.
  assert (Hu : ∀ f, u64 (tally f l + 1) = tally f l + 1).
  { intros f. pose proof (tally_bound f l). unfold u64. apply Z.mod_small. lia. }
  destruct (s_duration s <=? 10) eqn:?; [|destruct (s_duration s <=? 100) eqn:?; [|destruct (s_duration s <=? 1000) eqn:?;
    [|destruct (s_duration s <=? 10000) eqn:?]]]; unfold set_field, LatencyHistogram_eta; cbn -[tally u64 Z.leb Z.ltb]; rewrite Hu;
    f_equal; try lia; match goal with |- context [if ?b then _ else _] => destruct b eqn:? end; lia.
Qed.

(** One more sample of an operation. *)
Lemma record_operation_metrics l s :
  blen l < 2 ^ 64 - 1 → 0 <= s_duration s →
  ∃ o, record_operation (s_duration s) (s_success s) (default no_metrics (metrics_of l)) = Ret o ∧
    metrics_of (l ++ [s]) = Some o.
Proof.
  intros Hl Hd. set (o := default no_metrics (metrics_of l)).
  assert (Ho : o = mkMetrics (blen l) (u64 (duration_sum l)) (avg_time_ms o) (duration_max l) (tally (λ s, negb (s_success s)) l)).
  { subst o. unfold metrics_of. case_bool_decide as E; [by subst|done]. }
  unfold record_operation. rewrite Ho. cbn [count total_time_ms max_time_ms error_count].
  assert (Hc : u64 (blen l + 1) = blen l + 1) by (apply Z.mod_small; lia). rewrite Hc. guard_false.
  eexists. split; [reflexivity|]. unfold metrics_of. rewrite bool_decide_eq_false_2 by (by destruct l).
  rewrite duration_sum_snoc, duration_max_snoc, tally_snoc, length_app by done. cbn [length].
  rewrite Nat2Z.inj_add, u64_add. do 2 f_equal.
  - destruct (Z.ltb_spec (duration_max l) (s_duration s)); lia.
  - pose proof (tally_bound (λ s, negb (s_success s)) l). destruct (s_success s); cbn [negb]; [lia|].
    symmetry. apply Z.mod_small. lia.
Qed.

Lemma record_sample_reflects l s c :
  enable_metrics (config_ c) = true → blen l < 2 ^ 64 - 1 → 0 <= s_duration s → reflects l c →
  ∃ c', record_sample c s = Ret c' ∧ config_ c' = config_ c ∧ slow_queries_ c' = slow_queries_ c ∧ reflects (l ++ [s]) c'.
Proof.
  intros He Hl Hd [H1 H2 H3 H4 H5 H6]. unfold record_sample, RecordQueryMetrics. rewrite He. cbn [negb].
  destruct (record_operation_metrics (of_operation (s_operation s) l) s) as (o & Ho & Hm); [|done|].
  { pose proof (length_of_operation (s_operation s) l). lia. }
  assert (Hu : ∀ f, u64 (tally f l + 1) = tally f l + 1).
  { intros f. pose proof (tally_bound f l). apply Z.mod_small. lia. }
  assert (Hn : blen (l ++ [s]) = u64 (blen l + 1)) by (rewrite length_app; cbn; unfold u64; rewrite Z.mod_small; lia).
  assert (Hops : ∀ op, <[s_operation s := o]> (operation_metrics_ c) !! op = metrics_of (of_operation op (l ++ [s]))).
  { intros op. rewrite of_operation_snoc. destruct (decide (s_operation s = op)) as [<-|Hne].
    - by rewrite bool_decide_eq_true_2, lookup_insert_eq by done.
    - by rewrite bool_decide_eq_false_2, app_nil_r, lookup_insert_ne by done. }
  destruct (s_success s) eqn:Es; cbn [negb]; rewrite <-H6 in Ho; cbn -[record_operation record_latency u64] in *; rewrite Ho; cbn -[record_latency u64];
    eexists; (split; [reflexivity|]); (split; [done|]); (split; [done|]); split; cbn -[record_latency u64 duration_sum histogram_of length app];
    rewrite ?Hn, ?tally_snoc, ?Es, ?duration_sum_snoc, <-?histogram_snoc, ?H1, ?H2, ?H3, ?H4, ?H5, ?Hu, ?u64_add by done;
    cbn [negb]; try done; lia.
Qed.

(** Recording any samples keeps the metrics equal to what they say: the
    totals count the samples by outcome, the histogram by the five ranges of
    their durations, and each operation has its count, errors, greatest
    duration, sum modulo 2^64 and the average of that sum. *)
Theorem metrics_reflect_samples config l :
  enable_metrics config = true → blen l < 2 ^ 64 → Forall (λ s, 0 <= s_duration s) l →
  ∃ c, foldM record_sample (new_collector config) l = Ret c ∧ reflects l c.
Proof.
  intros He Hl Hd. assert (∃ c, foldM record_sample (new_collector config) l = Ret c ∧ config_ c = config ∧ reflects l c)
    as (c & E & _ & Hc); [|by exists c].
  induction l as [|s l IH] using rev_ind.
  - exists (new_collector config). split_and!; [done..|]. by split.
  - rewrite length_app in Hl. cbn in Hl. apply Forall_app in Hd as [Hd [Hs _]%Forall_cons].
    destruct IH as (c & E & Hcfg & Hc); [lia|done|].
    destruct (record_sample_reflects l s c) as (c' & E' & Hcfg' & _ & Hc'); [by rewrite Hcfg|lia|done..|].
    exists c'. rewrite foldM_snoc, E. cbn. rewrite E'. split_and!; [done|congruence|done].
Qed.

Definition two_samples : list sample := [mkSample ("execute" : bytes) 5 true; mkSample ("execute" : bytes) 1500 false].

Lemma metrics_reflect_samples_witness :
  enable_metrics sb_telemetry_config_default = true ∧
  ∃ c, foldM record_sample (new_collector sb_telemetry_config_default) two_samples = Ret c ∧
    operation_metrics_ c !! ("execute" : bytes) = Some (mkMetrics 2 1505 752 1500 1) ∧
    histogram_ c = mkHistogram 1 0 0 1 0.
Proof.
  split; [done|]. destruct (metrics_reflect_samples sb_telemetry_config_default two_samples) as (c & E & Hc); [done..| |].
  - by repeat constructor.
  - exists c. split; [done|]. split; [by rewrite (r_operations _ _ Hc)|by rewrite (r_histogram _ _ Hc)].
Defined.

(** ** The log of slow queries *)

Definition slow_entry (p : SpanContext * Z * Z) : SlowQueryLog :=
  let '(span, duration, wall) := p in mkSlow (trace_id span) (span_name span) duration wall (attributes span).

(** The last [n] elements. *)
Definition lastn {A} (n : nat) (l : list A) : list A := drop (length l - n) l.

Lemma lastn_snoc {A} (n : nat) (l : list A) x :
  (0 < n)%nat → lastn n (l ++ [x]) = let m := lastn n l ++ [x] in if (n <? length m)%nat then drop 1 m else m.
Proof.
  intros Hn. unfold lastn. rewrite !length_app, length_drop. cbn [length].
  destruct (Nat.ltb_spec n (length l - (length l - n) + 1)).
  - rewrite !drop_app_le by (rewrite ?length_drop; lia). rewrite drop_drop. do 2 f_equal. lia.
  - rewrite drop_app_le by lia. do 2 f_equal. lia.
Qed.

Lemma record_slow_queries l : ∀ c,
  slow_queries_ (foldl (λ c p, RecordSlowQuery p.1.1 p.1.2 p.2 c) (c <| slow_queries_ := [] |>) l) =
    lastn 100 (slow_entry <$> l).
Proof.
  intros c. induction l as [|[[span d] w] l IH] using rev_ind; [done|].
  rewrite foldl_app, fmap_app. cbn [foldl fmap list_fmap]. rewrite lastn_snoc, <-IH by lia. cbn zeta.
  generalize (foldl (λ c p, RecordSlowQuery p.1.1 p.1.2 p.2 c) (c <| slow_queries_ := [] |>) l). intros c'.
  change (slow_queries_ (RecordSlowQuery (span, d, w).1.1 (span, d, w).1.2 (span, d, w).2 c')) with
    (let m := slow_queries_ c' ++ [slow_entry (span, d, w)] in if 100 <? blen m then drop 1 m else m).
  cbv zeta. destruct (Nat.ltb_spec 100 (length (slow_queries_ c' ++ [slow_entry (span, d, w)]))); [by guard_true|by guard_false].
Qed.

(** ** What a sanitized statement says *)

(** The statement cut at its apostrophes: every other piece is a literal. Two
    statements with the same pieces outside of literals. *)
Fixpoint same_outside (in_quote : bool) (l1 l2 : list bytes) : Prop :=
  match l1, l2 with
  | [], [] => True
  | a :: l1, b :: l2 => (in_quote = false → a = b) ∧ same_outside (negb in_quote) l1 l2
  | _, _ => False
  end.

(** The sanitizer on the pieces. *)
Fixpoint sanitize_pieces (in_quote : bool) (l : list bytes) : bytes :=
  match l with
  | [] => []
  | [a] => if in_quote then [] else a
  | a :: l =>
      (if in_quote then [apostrophe; "?"%byte; apostrophe] else a ++ [apostrophe]) ++ sanitize_pieces (negb in_quote) l
  end.

Lemma sanitize_loop_pieces q s : sanitize_loop q s = sanitize_pieces q (split_on apostrophe s).
Proof.
  assert (Hn : ∀ s, split_on apostrophe s ≠ []).
  { intros [|b r]; cbn; [done|]. destruct (Byte.eqb _ _); [done|]. by destruct (split_on _ r). }
  revert q. induction s as [|c s IH]; intros q; cbn [sanitize_loop split_on]; [by destruct q|].
  specialize (Hn s). case_bool_decide as Hc.
  - rewrite Hc, (Byte.byte_dec_lb eq_refl). destruct q; rewrite IH; by destruct (split_on apostrophe s).
  - destruct (Byte.eqb c apostrophe) eqn:E; [by apply Byte.byte_dec_bl in E|].
    rewrite !IH. destruct (split_on apostrophe s) as [|p [|p' ps]]; by destruct q.
Qed.

Lemma sanitize_pieces_same l1 : ∀ q l2, same_outside q l1 l2 → sanitize_pieces q l1 = sanitize_pieces q l2.
Proof.
  induction l1 as [|a l1 IH]; intros q [|b l2]; try done. intros [Ha Hl]. specialize (IH (negb q) l2 Hl).
  destruct q; [|rewrite (Ha eq_refl)]; destruct l1, l2; try done; exact (f_equal (app _) IH).
Qed.

Lemma sanitize_loop_nil s : sanitize_loop false s = [] ↔ s = [].
Proof. destruct s as [|c s]; cbn; [done|]. by case_bool_decide. Qed.

Definition apostrophes (s : bytes) : nat := length (filter (λ c, c = apostrophe) s).

Lemma apostrophes_cons c s : apostrophes (c :: s) = ((if bool_decide (c = apostrophe) then 1 else 0) + apostrophes s)%nat.
Proof. unfold apostrophes. rewrite filter_cons. case_bool_decide; by case_decide. Qed.

Lemma sanitize_apostrophes s : ∀ q, let n := apostrophes s in
  (2 * apostrophes (sanitize_loop q s) + (if q then 0 else Nat.b2n (Nat.odd n)) =
   3 * n + (if q then Nat.b2n (Nat.odd n) else 0))%nat.
Proof.
  induction s as [|c s IH]; intros q; [by destruct q|]. cbn [sanitize_loop]. rewrite (apostrophes_cons c s).
  case_bool_decide as Hc.
  - cbn [Nat.add]. rewrite Nat.odd_succ, <-Nat.negb_odd.
    destruct q; [specialize (IH false)|specialize (IH true)]; cbn zeta in IH; rewrite !apostrophes_cons; cbn [bool_decide];
      rewrite !(bool_decide_eq_true_2 (apostrophe = apostrophe)) by done; rewrite ?(bool_decide_eq_false_2 ("?"%byte = apostrophe)) by done;
      destruct (Nat.odd (apostrophes s)); cbn [negb Nat.b2n] in *; lia.
  - destruct q; [exact (IH true)|]. rewrite apostrophes_cons, (bool_decide_eq_false_2 (c = apostrophe)) by done. exact (IH false).
Qed.

(** The sanitized statement depends only on the text outside of apostrophes
    and on the number of literals, so that it tells nothing of their contents. It
    is not a statement with literals any more: each pair of apostrophes has
    become three. *)
Theorem sanitized_query s1 s2 :
  same_outside false (split_on apostrophe s1) (split_on apostrophe s2) →
  SanitizeQuery s1 = SanitizeQuery s2 ∧
  ∀ k, apostrophes s1 = (2 * k)%nat → apostrophes (SanitizeQuery s1) = (3 * k)%nat.
Proof.
  intros Hs. assert (E : sanitize_loop false s1 = sanitize_loop false s2).
  { rewrite !sanitize_loop_pieces. by apply sanitize_pieces_same. }
  assert (Ho : ∀ s, SanitizeQuery s = sanitize_loop false s).
  { intros s. unfold SanitizeQuery. case_bool_decide as Hn; [|done]. rewrite Hn. by apply sanitize_loop_nil. }
  rewrite !Ho, <-E. split; [done|]. intros k Hk. pose proof (sanitize_apostrophes s1 false) as H. cbn zeta in H.
  rewrite Hk, Nat.odd_mul in H. cbn [Nat.odd Nat.even negb andb Nat.b2n] in H. lia.
Qed.

Lemma sanitized_query_witness :
  SanitizeQuery ("SELECT * FROM t WHERE pin = '1234' AND x > 0" : bytes) =
    SanitizeQuery ("SELECT * FROM t WHERE pin = 'zz' AND x > 0" : bytes) ∧
  SanitizeQuery ("pin = '1234'" : bytes) = ("pin = ''?'" : bytes) ∧
  apostrophes (SanitizeQuery ("pin = '1234'" : bytes)) = 3%nat.
Proof.
  split; [|split; [by vm_compute|]].
  - apply sanitized_query. vm_compute. naive_solver.
  - by apply (proj2 (sanitized_query ("pin = '1234'" : bytes) ("pin = '1234'" : bytes) ltac:(vm_compute; naive_solver)) 1%nat).
Defined.

(** A double-quoted identifier with an apostrophe turns literals inside out. *)
Example sanitizer_leaks :
  SanitizeQuery ("SELECT " ++ [quote] ++ "o'c" ++ [quote] ++ " FROM t WHERE pin = '1234'" : bytes) =
    ("SELECT " ++ [quote] ++ "o''?'1234'" : bytes).
Proof. by vm_compute. Qed.
