(* ===== verification/Sqlstate.v ===== *)
(** * Status codes and SQLSTATE mapping

    Models [include/scratchbird/core/status.h], [include/scratchbird/core/sqlstate.h]
    and [src/core/sqlstate.cpp] of the C++ driver: the [Status] enumeration with
    its numeric values, the SQLSTATE constants, [statusToSQLState] and
    [getSQLStateClass]. The [default] branch of the switch serves values that
    are no enumerator; the model's [Status] has enumerators only. *)

From S2P Require Import Prelude.

(** ** [core::Status] *)

Inductive Status : Type :=
  | OK | FILE_NOT_FOUND | FILE_EXISTS | IO_ERROR | INVALID_PATH
  | PERMISSION_DENIED | INVALID_ARGUMENT | PAGE_CORRUPT | CHECKSUM_MISMATCH
  | INDEX_CORRUPTED | DATA_CORRUPTED | DEADLOCK | LOCK_TIMEOUT
  | LOCK_CONFLICT | OOM | CANCELLED | SERIALIZATION_FAILURE
  | INVALID_TRANSACTION_STATE | NO_ACTIVE_TRANSACTION | TRANSACTION_ABORTED
  | READ_ONLY_TRANSACTION | PAGE_FULL | NOT_FOUND | NOT_IMPLEMENTED
  | TYPE_MISMATCH | CONSTRAINT_VIOLATION | OUT_OF_RANGE | NOT_SUPPORTED
  | DIVISION_BY_ZERO | NUMERIC_VALUE_OUT_OF_RANGE
  | STRING_DATA_RIGHT_TRUNCATION | DATETIME_FIELD_OVERFLOW
  | INVALID_DATETIME_FORMAT | INVALID_TEXT_REPRESENTATION
  | NULL_VALUE_NOT_ALLOWED | NOT_NULL_VIOLATION | FOREIGN_KEY_VIOLATION
  | UNIQUE_VIOLATION | CHECK_VIOLATION | EXCLUSION_VIOLATION | SYNTAX_ERROR
  | UNDEFINED_TABLE | UNDEFINED_COLUMN | UNDEFINED_FUNCTION
  | UNDEFINED_OBJECT | DUPLICATE_TABLE | DUPLICATE_COLUMN | DUPLICATE_OBJECT
  | AMBIGUOUS_COLUMN | AMBIGUOUS_FUNCTION | DATATYPE_MISMATCH
  | WRONG_OBJECT_TYPE | INSUFFICIENT_PRIVILEGE | INVALID_CURSOR_STATE
  | INVALID_CURSOR_NAME | CURSOR_NOT_FOUND | CURSOR_ALREADY_OPEN
  | CURSOR_NOT_OPEN | NO_DATA_FOUND | TOO_MANY_ROWS | RAISE_EXCEPTION
  | ASSERT_FAILURE | COMPRESSION_ERROR | INTERNAL_ERROR | INDEX_NOT_FOUND
  | DISK_FULL | TOO_MANY_CONNECTIONS | CONFIGURATION_LIMIT_EXCEEDED
  | STATEMENT_TOO_COMPLEX | TOO_MANY_COLUMNS | CONNECTION_FAILURE
  | CONNECTION_DOES_NOT_EXIST | PROTOCOL_VIOLATION | INVALID_PASSWORD
  | INVALID_AUTHORIZATION | QUERY_CANCELED | ADMIN_SHUTDOWN | CRASH_SHUTDOWN
  | DATABASE_DROPPED | OBJECT_IN_USE | LOCK_NOT_AVAILABLE.

#[export] Instance Status_eq_dec : EqDecision Status.
Proof. solve_decision. Defined.

(** The enumerators in declaration order. *)
Definition all_status : list Status :=
  [OK; FILE_NOT_FOUND; FILE_EXISTS; IO_ERROR; INVALID_PATH;
   PERMISSION_DENIED; INVALID_ARGUMENT; PAGE_CORRUPT; CHECKSUM_MISMATCH;
   INDEX_CORRUPTED; DATA_CORRUPTED; DEADLOCK; LOCK_TIMEOUT; LOCK_CONFLICT;
   OOM; CANCELLED; SERIALIZATION_FAILURE; INVALID_TRANSACTION_STATE;
   NO_ACTIVE_TRANSACTION; TRANSACTION_ABORTED; READ_ONLY_TRANSACTION;
   PAGE_FULL; NOT_FOUND; NOT_IMPLEMENTED; TYPE_MISMATCH;
   CONSTRAINT_VIOLATION; OUT_OF_RANGE; NOT_SUPPORTED; DIVISION_BY_ZERO;
   NUMERIC_VALUE_OUT_OF_RANGE; STRING_DATA_RIGHT_TRUNCATION;
   DATETIME_FIELD_OVERFLOW; INVALID_DATETIME_FORMAT;
   INVALID_TEXT_REPRESENTATION; NULL_VALUE_NOT_ALLOWED; NOT_NULL_VIOLATION;
   FOREIGN_KEY_VIOLATION; UNIQUE_VIOLATION; CHECK_VIOLATION;
   EXCLUSION_VIOLATION; SYNTAX_ERROR; UNDEFINED_TABLE; UNDEFINED_COLUMN;
   UNDEFINED_FUNCTION; UNDEFINED_OBJECT; DUPLICATE_TABLE; DUPLICATE_COLUMN;
   DUPLICATE_OBJECT; AMBIGUOUS_COLUMN; AMBIGUOUS_FUNCTION; DATATYPE_MISMATCH;
   WRONG_OBJECT_TYPE; INSUFFICIENT_PRIVILEGE; INVALID_CURSOR_STATE;
   INVALID_CURSOR_NAME; CURSOR_NOT_FOUND; CURSOR_ALREADY_OPEN;
   CURSOR_NOT_OPEN; NO_DATA_FOUND; TOO_MANY_ROWS; RAISE_EXCEPTION;
   ASSERT_FAILURE; COMPRESSION_ERROR; INTERNAL_ERROR; INDEX_NOT_FOUND;
   DISK_FULL; TOO_MANY_CONNECTIONS; CONFIGURATION_LIMIT_EXCEEDED;
   STATEMENT_TOO_COMPLEX; TOO_MANY_COLUMNS; CONNECTION_FAILURE;
   CONNECTION_DOES_NOT_EXIST; PROTOCOL_VIOLATION; INVALID_PASSWORD;
   INVALID_AUTHORIZATION; QUERY_CANCELED; ADMIN_SHUTDOWN; CRASH_SHUTDOWN;
   DATABASE_DROPPED; OBJECT_IN_USE; LOCK_NOT_AVAILABLE].

(** The numeric value of an enumerator. *)
Definition status_code (s : Status) : Z :=
  match s with
  | OK => 0 | FILE_NOT_FOUND => 1001 | FILE_EXISTS => 1002 | IO_ERROR => 1003
  | INVALID_PATH => 1004 | PERMISSION_DENIED => 1005
  | INVALID_ARGUMENT => 1006 | PAGE_CORRUPT => 2001
  | CHECKSUM_MISMATCH => 2002 | INDEX_CORRUPTED => 2003
  | DATA_CORRUPTED => 2004 | DEADLOCK => 3001 | LOCK_TIMEOUT => 3002
  | LOCK_CONFLICT => 3003 | OOM => 3004 | CANCELLED => 3005
  | SERIALIZATION_FAILURE => 3006 | INVALID_TRANSACTION_STATE => 3007
  | NO_ACTIVE_TRANSACTION => 3008 | TRANSACTION_ABORTED => 3009
  | READ_ONLY_TRANSACTION => 3010 | PAGE_FULL => 4001 | NOT_FOUND => 4002
  | NOT_IMPLEMENTED => 4003 | TYPE_MISMATCH => 4004
  | CONSTRAINT_VIOLATION => 4005 | OUT_OF_RANGE => 4006
  | NOT_SUPPORTED => 4007 | DIVISION_BY_ZERO => 4008
  | NUMERIC_VALUE_OUT_OF_RANGE => 4009 | STRING_DATA_RIGHT_TRUNCATION => 4010
  | DATETIME_FIELD_OVERFLOW => 4011 | INVALID_DATETIME_FORMAT => 4012
  | INVALID_TEXT_REPRESENTATION => 4013 | NULL_VALUE_NOT_ALLOWED => 4014
  | NOT_NULL_VIOLATION => 4101 | FOREIGN_KEY_VIOLATION => 4102
  | UNIQUE_VIOLATION => 4103 | CHECK_VIOLATION => 4104
  | EXCLUSION_VIOLATION => 4105 | SYNTAX_ERROR => 4201
  | UNDEFINED_TABLE => 4202 | UNDEFINED_COLUMN => 4203
  | UNDEFINED_FUNCTION => 4204 | UNDEFINED_OBJECT => 4205
  | DUPLICATE_TABLE => 4206 | DUPLICATE_COLUMN => 4207
  | DUPLICATE_OBJECT => 4208 | AMBIGUOUS_COLUMN => 4209
  | AMBIGUOUS_FUNCTION => 4210 | DATATYPE_MISMATCH => 4211
  | WRONG_OBJECT_TYPE => 4212 | INSUFFICIENT_PRIVILEGE => 4213
  | INVALID_CURSOR_STATE => 4301 | INVALID_CURSOR_NAME => 4302
  | CURSOR_NOT_FOUND => 4303 | CURSOR_ALREADY_OPEN => 4304
  | CURSOR_NOT_OPEN => 4305 | NO_DATA_FOUND => 4401 | TOO_MANY_ROWS => 4402
  | RAISE_EXCEPTION => 4403 | ASSERT_FAILURE => 4404
  | COMPRESSION_ERROR => 5001 | INTERNAL_ERROR => 5002
  | INDEX_NOT_FOUND => 5003 | DISK_FULL => 5004
  | TOO_MANY_CONNECTIONS => 5005 | CONFIGURATION_LIMIT_EXCEEDED => 5006
  | STATEMENT_TOO_COMPLEX => 5007 | TOO_MANY_COLUMNS => 5008
  | CONNECTION_FAILURE => 6001 | CONNECTION_DOES_NOT_EXIST => 6002
  | PROTOCOL_VIOLATION => 6003 | INVALID_PASSWORD => 6004
  | INVALID_AUTHORIZATION => 6005 | QUERY_CANCELED => 7001
  | ADMIN_SHUTDOWN => 7002 | CRASH_SHUTDOWN => 7003
  | DATABASE_DROPPED => 7004 | OBJECT_IN_USE => 7005
  | LOCK_NOT_AVAILABLE => 7006
  end.

(** ** SQLSTATE constants *)

Definition SQLSTATE_SUCCESS : bytes := "00000".
Definition SQLSTATE_WARNING : bytes := "01000".
Definition SQLSTATE_DYNAMIC_RESULT_SETS_RETURNED : bytes := "0100C".
Definition SQLSTATE_IMPLICIT_ZERO_BIT_PADDING : bytes := "01008".
Definition SQLSTATE_NULL_VALUE_ELIMINATED_IN_SET_FUNCTION : bytes := "01003".
Definition SQLSTATE_PRIVILEGE_NOT_GRANTED : bytes := "01007".
Definition SQLSTATE_PRIVILEGE_NOT_REVOKED : bytes := "01006".
Definition SQLSTATE_STRING_DATA_RIGHT_TRUNCATION_WARNING : bytes := "01004".
Definition SQLSTATE_DEPRECATED_FEATURE : bytes := "01P01".
Definition SQLSTATE_NO_DATA : bytes := "02000".
Definition SQLSTATE_NO_ADDITIONAL_DYNAMIC_RESULT_SETS_RETURNED : bytes := "02001".
Definition SQLSTATE_SQL_STATEMENT_NOT_YET_COMPLETE : bytes := "03000".
Definition SQLSTATE_CONNECTION_EXCEPTION : bytes := "08000".
Definition SQLSTATE_CONNECTION_DOES_NOT_EXIST : bytes := "08003".
Definition SQLSTATE_CONNECTION_FAILURE : bytes := "08006".
Definition SQLSTATE_SQLCLIENT_UNABLE_TO_ESTABLISH_SQLCONNECTION : bytes := "08001".
Definition SQLSTATE_SQLSERVER_REJECTED_ESTABLISHMENT_OF_SQLCONNECTION : bytes := "08004".
Definition SQLSTATE_TRANSACTION_RESOLUTION_UNKNOWN : bytes := "08007".
Definition SQLSTATE_PROTOCOL_VIOLATION : bytes := "08P01".
Definition SQLSTATE_TRIGGERED_ACTION_EXCEPTION : bytes := "09000".
Definition SQLSTATE_FEATURE_NOT_SUPPORTED : bytes := "0A000".
Definition SQLSTATE_INVALID_TRANSACTION_INITIATION : bytes := "0B000".
Definition SQLSTATE_LOCATOR_EXCEPTION : bytes := "0F000".
Definition SQLSTATE_INVALID_LOCATOR_SPECIFICATION : bytes := "0F001".
Definition SQLSTATE_INVALID_GRANTOR : bytes := "0L000".
Definition SQLSTATE_INVALID_GRANT_OPERATION : bytes := "0LP01".
Definition SQLSTATE_INVALID_ROLE_SPECIFICATION : bytes := "0P000".
Definition SQLSTATE_DIAGNOSTICS_EXCEPTION : bytes := "0Z000".
Definition SQLSTATE_STACKED_DIAGNOSTICS_ACCESSED_WITHOUT_ACTIVE_HANDLER : bytes := "0Z002".
Definition SQLSTATE_CASE_NOT_FOUND : bytes := "20000".
Definition SQLSTATE_CARDINALITY_VIOLATION : bytes := "21000".
Definition SQLSTATE_DATA_EXCEPTION : bytes := "22000".
Definition SQLSTATE_ARRAY_SUBSCRIPT_ERROR : bytes := "2202E".
Definition SQLSTATE_CHARACTER_NOT_IN_REPERTOIRE : bytes := "22021".
Definition SQLSTATE_DATETIME_FIELD_OVERFLOW : bytes := "22008".
Definition SQLSTATE_DIVISION_BY_ZERO : bytes := "22012".
Definition SQLSTATE_ERROR_IN_ASSIGNMENT : bytes := "22005".
Definition SQLSTATE_ESCAPE_CHARACTER_CONFLICT : bytes := "2200B".
Definition SQLSTATE_INDICATOR_OVERFLOW : bytes := "22022".
Definition SQLSTATE_INTERVAL_FIELD_OVERFLOW : bytes := "22015".
Definition SQLSTATE_INVALID_ARGUMENT_FOR_LOGARITHM : bytes := "2201E".
Definition SQLSTATE_INVALID_ARGUMENT_FOR_NTILE_FUNCTION : bytes := "22014".
Definition SQLSTATE_INVALID_ARGUMENT_FOR_NTH_VALUE_FUNCTION : bytes := "22016".
Definition SQLSTATE_INVALID_ARGUMENT_FOR_POWER_FUNCTION : bytes := "2201F".
Definition SQLSTATE_INVALID_ARGUMENT_FOR_WIDTH_BUCKET_FUNCTION : bytes := "2201G".
Definition SQLSTATE_INVALID_CHARACTER_VALUE_FOR_CAST : bytes := "22018".
Definition SQLSTATE_INVALID_DATETIME_FORMAT : bytes := "22007".
Definition SQLSTATE_INVALID_ESCAPE_CHARACTER : bytes := "22019".
Definition SQLSTATE_INVALID_ESCAPE_OCTET : bytes := "2200D".
Definition SQLSTATE_INVALID_ESCAPE_SEQUENCE : bytes := "22025".
Definition SQLSTATE_NONSTANDARD_USE_OF_ESCAPE_CHARACTER : bytes := "22P06".
Definition SQLSTATE_INVALID_INDICATOR_PARAMETER_VALUE : bytes := "22010".
Definition SQLSTATE_INVALID_PARAMETER_VALUE : bytes := "22023".
Definition SQLSTATE_INVALID_REGULAR_EXPRESSION : bytes := "2201B".
Definition SQLSTATE_INVALID_ROW_COUNT_IN_LIMIT_CLAUSE : bytes := "2201W".
Definition SQLSTATE_INVALID_ROW_COUNT_IN_RESULT_OFFSET_CLAUSE : bytes := "2201X".
Definition SQLSTATE_INVALID_TABLESAMPLE_ARGUMENT : bytes := "2202H".
Definition SQLSTATE_INVALID_TABLESAMPLE_REPEAT : bytes := "2202G".
Definition SQLSTATE_INVALID_TIME_ZONE_DISPLACEMENT_VALUE : bytes := "22009".
Definition SQLSTATE_INVALID_USE_OF_ESCAPE_CHARACTER : bytes := "2200C".
Definition SQLSTATE_MOST_SPECIFIC_TYPE_MISMATCH : bytes := "2200G".
Definition SQLSTATE_NULL_VALUE_NOT_ALLOWED : bytes := "22004".
Definition SQLSTATE_NULL_VALUE_NO_INDICATOR_PARAMETER : bytes := "22002".
Definition SQLSTATE_NUMERIC_VALUE_OUT_OF_RANGE : bytes := "22003".
Definition SQLSTATE_STRING_DATA_LENGTH_MISMATCH : bytes := "22026".
Definition SQLSTATE_STRING_DATA_RIGHT_TRUNCATION : bytes := "22001".
Definition SQLSTATE_SUBSTRING_ERROR : bytes := "22011".
Definition SQLSTATE_TRIM_ERROR : bytes := "22027".
Definition SQLSTATE_UNTERMINATED_C_STRING : bytes := "22024".
Definition SQLSTATE_ZERO_LENGTH_CHARACTER_STRING : bytes := "2200F".
Definition SQLSTATE_FLOATING_POINT_EXCEPTION : bytes := "22P01".
Definition SQLSTATE_INVALID_TEXT_REPRESENTATION : bytes := "22P02".
Definition SQLSTATE_INVALID_BINARY_REPRESENTATION : bytes := "22P03".
Definition SQLSTATE_BAD_COPY_FILE_FORMAT : bytes := "22P04".
Definition SQLSTATE_UNTRANSLATABLE_CHARACTER : bytes := "22P05".
Definition SQLSTATE_NOT_AN_XML_DOCUMENT : bytes := "2200L".
Definition SQLSTATE_INVALID_XML_DOCUMENT : bytes := "2200M".
Definition SQLSTATE_INVALID_XML_CONTENT : bytes := "2200N".
Definition SQLSTATE_INVALID_XML_COMMENT : bytes := "2200S".
Definition SQLSTATE_INVALID_XML_PROCESSING_INSTRUCTION : bytes := "2200T".
Definition SQLSTATE_INTEGRITY_CONSTRAINT_VIOLATION : bytes := "23000".
Definition SQLSTATE_RESTRICT_VIOLATION : bytes := "23001".
Definition SQLSTATE_NOT_NULL_VIOLATION : bytes := "23502".
Definition SQLSTATE_FOREIGN_KEY_VIOLATION : bytes := "23503".
Definition SQLSTATE_UNIQUE_VIOLATION : bytes := "23505".
Definition SQLSTATE_CHECK_VIOLATION : bytes := "23514".
Definition SQLSTATE_EXCLUSION_VIOLATION : bytes := "23P01".
Definition SQLSTATE_INVALID_CURSOR_STATE : bytes := "24000".
Definition SQLSTATE_INVALID_TRANSACTION_STATE : bytes := "25000".
Definition SQLSTATE_ACTIVE_SQL_TRANSACTION : bytes := "25001".
Definition SQLSTATE_BRANCH_TRANSACTION_ALREADY_ACTIVE : bytes := "25002".
Definition SQLSTATE_HELD_CURSOR_REQUIRES_SAME_ISOLATION_LEVEL : bytes := "25008".
Definition SQLSTATE_INAPPROPRIATE_ACCESS_MODE_FOR_BRANCH_TRANSACTION : bytes := "25003".
Definition SQLSTATE_INAPPROPRIATE_ISOLATION_LEVEL_FOR_BRANCH_TRANSACTION : bytes := "25004".
Definition SQLSTATE_NO_ACTIVE_SQL_TRANSACTION_FOR_BRANCH_TRANSACTION : bytes := "25005".
Definition SQLSTATE_READ_ONLY_SQL_TRANSACTION : bytes := "25006".
Definition SQLSTATE_SCHEMA_AND_DATA_STATEMENT_MIXING_NOT_SUPPORTED : bytes := "25007".
Definition SQLSTATE_NO_ACTIVE_SQL_TRANSACTION : bytes := "25P01".
Definition SQLSTATE_IN_FAILED_SQL_TRANSACTION : bytes := "25P02".
Definition SQLSTATE_INVALID_SQL_STATEMENT_NAME : bytes := "26000".
Definition SQLSTATE_TRIGGERED_DATA_CHANGE_VIOLATION : bytes := "27000".
Definition SQLSTATE_INVALID_AUTHORIZATION_SPECIFICATION : bytes := "28000".
Definition SQLSTATE_INVALID_PASSWORD : bytes := "28P01".
Definition SQLSTATE_DEPENDENT_PRIVILEGE_DESCRIPTORS_STILL_EXIST : bytes := "2B000".
Definition SQLSTATE_DEPENDENT_OBJECTS_STILL_EXIST : bytes := "2BP01".
Definition SQLSTATE_INVALID_TRANSACTION_TERMINATION : bytes := "2D000".
Definition SQLSTATE_SQL_ROUTINE_EXCEPTION : bytes := "2F000".
Definition SQLSTATE_FUNCTION_EXECUTED_NO_RETURN_STATEMENT : bytes := "2F005".
Definition SQLSTATE_MODIFYING_SQL_DATA_NOT_PERMITTED : bytes := "2F002".
Definition SQLSTATE_PROHIBITED_SQL_STATEMENT_ATTEMPTED : bytes := "2F003".
Definition SQLSTATE_READING_SQL_DATA_NOT_PERMITTED : bytes := "2F004".
Definition SQLSTATE_INVALID_CURSOR_NAME : bytes := "34000".
Definition SQLSTATE_EXTERNAL_ROUTINE_EXCEPTION : bytes := "38000".
Definition SQLSTATE_CONTAINING_SQL_NOT_PERMITTED : bytes := "38001".
Definition SQLSTATE_MODIFYING_SQL_DATA_NOT_PERMITTED_EXTERNAL : bytes := "38002".
Definition SQLSTATE_PROHIBITED_SQL_STATEMENT_ATTEMPTED_EXTERNAL : bytes := "38003".
Definition SQLSTATE_READING_SQL_DATA_NOT_PERMITTED_EXTERNAL : bytes := "38004".
Definition SQLSTATE_EXTERNAL_ROUTINE_INVOCATION_EXCEPTION : bytes := "39000".
Definition SQLSTATE_INVALID_SQLSTATE_RETURNED : bytes := "39001".
Definition SQLSTATE_NULL_VALUE_NOT_ALLOWED_EXTERNAL : bytes := "39004".
Definition SQLSTATE_TRIGGER_PROTOCOL_VIOLATED : bytes := "39P01".
Definition SQLSTATE_SRF_PROTOCOL_VIOLATED : bytes := "39P02".
Definition SQLSTATE_EVENT_TRIGGER_PROTOCOL_VIOLATED : bytes := "39P03".
Definition SQLSTATE_SAVEPOINT_EXCEPTION : bytes := "3B000".
Definition SQLSTATE_INVALID_SAVEPOINT_SPECIFICATION : bytes := "3B001".
Definition SQLSTATE_INVALID_CATALOG_NAME : bytes := "3D000".
Definition SQLSTATE_INVALID_SCHEMA_NAME : bytes := "3F000".
Definition SQLSTATE_TRANSACTION_ROLLBACK : bytes := "40000".
Definition SQLSTATE_TRANSACTION_INTEGRITY_CONSTRAINT_VIOLATION : bytes := "40002".
Definition SQLSTATE_SERIALIZATION_FAILURE : bytes := "40001".
Definition SQLSTATE_STATEMENT_COMPLETION_UNKNOWN : bytes := "40003".
Definition SQLSTATE_DEADLOCK_DETECTED : bytes := "40P01".
Definition SQLSTATE_SYNTAX_ERROR_OR_ACCESS_RULE_VIOLATION : bytes := "42000".
Definition SQLSTATE_SYNTAX_ERROR : bytes := "42601".
Definition SQLSTATE_INSUFFICIENT_PRIVILEGE : bytes := "42501".
Definition SQLSTATE_CANNOT_COERCE : bytes := "42846".
Definition SQLSTATE_GROUPING_ERROR : bytes := "42803".
Definition SQLSTATE_WINDOWING_ERROR : bytes := "42P20".
Definition SQLSTATE_INVALID_RECURSION : bytes := "42P19".
Definition SQLSTATE_INVALID_FOREIGN_KEY : bytes := "42830".
Definition SQLSTATE_INVALID_NAME : bytes := "42602".
Definition SQLSTATE_NAME_TOO_LONG : bytes := "42622".
Definition SQLSTATE_RESERVED_NAME : bytes := "42939".
Definition SQLSTATE_DATATYPE_MISMATCH : bytes := "42804".
Definition SQLSTATE_INDETERMINATE_DATATYPE : bytes := "42P18".
Definition SQLSTATE_COLLATION_MISMATCH : bytes := "42P21".
Definition SQLSTATE_INDETERMINATE_COLLATION : bytes := "42P22".
Definition SQLSTATE_WRONG_OBJECT_TYPE : bytes := "42809".
Definition SQLSTATE_UNDEFINED_COLUMN : bytes := "42703".
Definition SQLSTATE_UNDEFINED_FUNCTION : bytes := "42883".
Definition SQLSTATE_UNDEFINED_TABLE : bytes := "42P01".
Definition SQLSTATE_UNDEFINED_PARAMETER : bytes := "42P02".
Definition SQLSTATE_UNDEFINED_OBJECT : bytes := "42704".
Definition SQLSTATE_DUPLICATE_COLUMN : bytes := "42701".
Definition SQLSTATE_DUPLICATE_CURSOR : bytes := "42P03".
Definition SQLSTATE_DUPLICATE_DATABASE : bytes := "42P04".
Definition SQLSTATE_DUPLICATE_FUNCTION : bytes := "42723".
Definition SQLSTATE_DUPLICATE_PREPARED_STATEMENT : bytes := "42P05".
Definition SQLSTATE_DUPLICATE_SCHEMA : bytes := "42P06".
Definition SQLSTATE_DUPLICATE_TABLE : bytes := "42P07".
Definition SQLSTATE_DUPLICATE_ALIAS : bytes := "42712".
Definition SQLSTATE_DUPLICATE_OBJECT : bytes := "42710".
Definition SQLSTATE_AMBIGUOUS_COLUMN : bytes := "42702".
Definition SQLSTATE_AMBIGUOUS_FUNCTION : bytes := "42725".
Definition SQLSTATE_AMBIGUOUS_PARAMETER : bytes := "42P08".
Definition SQLSTATE_AMBIGUOUS_ALIAS : bytes := "42P09".
Definition SQLSTATE_INVALID_COLUMN_REFERENCE : bytes := "42P10".
Definition SQLSTATE_INVALID_COLUMN_DEFINITION : bytes := "42611".
Definition SQLSTATE_INVALID_CURSOR_DEFINITION : bytes := "42P11".
Definition SQLSTATE_INVALID_DATABASE_DEFINITION : bytes := "42P12".
Definition SQLSTATE_INVALID_FUNCTION_DEFINITION : bytes := "42P13".
Definition SQLSTATE_INVALID_PREPARED_STATEMENT_DEFINITION : bytes := "42P14".
Definition SQLSTATE_INVALID_SCHEMA_DEFINITION : bytes := "42P15".
Definition SQLSTATE_INVALID_TABLE_DEFINITION : bytes := "42P16".
Definition SQLSTATE_INVALID_OBJECT_DEFINITION : bytes := "42P17".
Definition SQLSTATE_WITH_CHECK_OPTION_VIOLATION : bytes := "44000".
Definition SQLSTATE_INSUFFICIENT_RESOURCES : bytes := "53000".
Definition SQLSTATE_DISK_FULL : bytes := "53100".
Definition SQLSTATE_OUT_OF_MEMORY : bytes := "53200".
Definition SQLSTATE_TOO_MANY_CONNECTIONS : bytes := "53300".
Definition SQLSTATE_CONFIGURATION_LIMIT_EXCEEDED : bytes := "53400".
Definition SQLSTATE_PROGRAM_LIMIT_EXCEEDED : bytes := "54000".
Definition SQLSTATE_STATEMENT_TOO_COMPLEX : bytes := "54001".
Definition SQLSTATE_TOO_MANY_COLUMNS : bytes := "54011".
Definition SQLSTATE_TOO_MANY_ARGUMENTS : bytes := "54023".
Definition SQLSTATE_OBJECT_NOT_IN_PREREQUISITE_STATE : bytes := "55000".
Definition SQLSTATE_OBJECT_IN_USE : bytes := "55006".
Definition SQLSTATE_CANT_CHANGE_RUNTIME_PARAM : bytes := "55P02".
Definition SQLSTATE_LOCK_NOT_AVAILABLE : bytes := "55P03".
Definition SQLSTATE_OPERATOR_INTERVENTION : bytes := "57000".
Definition SQLSTATE_QUERY_CANCELED : bytes := "57014".
Definition SQLSTATE_ADMIN_SHUTDOWN : bytes := "57P01".
Definition SQLSTATE_CRASH_SHUTDOWN : bytes := "57P02".
Definition SQLSTATE_CANNOT_CONNECT_NOW : bytes := "57P03".
Definition SQLSTATE_DATABASE_DROPPED : bytes := "57P04".
Definition SQLSTATE_SYSTEM_ERROR : bytes := "58000".
Definition SQLSTATE_IO_ERROR : bytes := "58030".
Definition SQLSTATE_UNDEFINED_FILE : bytes := "58P01".
Definition SQLSTATE_DUPLICATE_FILE : bytes := "58P02".
Definition SQLSTATE_CONFIG_FILE_ERROR : bytes := "F0000".
Definition SQLSTATE_LOCK_FILE_EXISTS : bytes := "F0001".
Definition SQLSTATE_FDW_ERROR : bytes := "HV000".
Definition SQLSTATE_FDW_COLUMN_NAME_NOT_FOUND : bytes := "HV005".
Definition SQLSTATE_FDW_DYNAMIC_PARAMETER_VALUE_NEEDED : bytes := "HV002".
Definition SQLSTATE_FDW_FUNCTION_SEQUENCE_ERROR : bytes := "HV010".
Definition SQLSTATE_FDW_INCONSISTENT_DESCRIPTOR_INFORMATION : bytes := "HV021".
Definition SQLSTATE_FDW_INVALID_ATTRIBUTE_VALUE : bytes := "HV024".
Definition SQLSTATE_FDW_INVALID_COLUMN_NAME : bytes := "HV007".
Definition SQLSTATE_FDW_INVALID_COLUMN_NUMBER : bytes := "HV008".
Definition SQLSTATE_FDW_INVALID_DATA_TYPE : bytes := "HV004".
Definition SQLSTATE_FDW_INVALID_DATA_TYPE_DESCRIPTORS : bytes := "HV006".
Definition SQLSTATE_FDW_INVALID_DESCRIPTOR_FIELD_IDENTIFIER : bytes := "HV091".
Definition SQLSTATE_FDW_INVALID_HANDLE : bytes := "HV00B".
Definition SQLSTATE_FDW_INVALID_OPTION_INDEX : bytes := "HV00C".
Definition SQLSTATE_FDW_INVALID_OPTION_NAME : bytes := "HV00D".
Definition SQLSTATE_FDW_INVALID_STRING_LENGTH_OR_BUFFER_LENGTH : bytes := "HV090".
Definition SQLSTATE_FDW_INVALID_STRING_FORMAT : bytes := "HV00A".
Definition SQLSTATE_FDW_INVALID_USE_OF_NULL_POINTER : bytes := "HV009".
Definition SQLSTATE_FDW_TOO_MANY_HANDLES : bytes := "HV014".
Definition SQLSTATE_FDW_OUT_OF_MEMORY : bytes := "HV001".
Definition SQLSTATE_FDW_NO_SCHEMAS : bytes := "HV00P".
Definition SQLSTATE_FDW_OPTION_NAME_NOT_FOUND : bytes := "HV00J".
Definition SQLSTATE_FDW_REPLY_HANDLE : bytes := "HV00K".
Definition SQLSTATE_FDW_SCHEMA_NOT_FOUND : bytes := "HV00Q".
Definition SQLSTATE_FDW_TABLE_NOT_FOUND : bytes := "HV00R".
Definition SQLSTATE_FDW_UNABLE_TO_CREATE_EXECUTION : bytes := "HV00L".
Definition SQLSTATE_FDW_UNABLE_TO_CREATE_REPLY : bytes := "HV00M".
Definition SQLSTATE_FDW_UNABLE_TO_ESTABLISH_CONNECTION : bytes := "HV00N".
Definition SQLSTATE_PLPGSQL_ERROR : bytes := "P0000".
Definition SQLSTATE_RAISE_EXCEPTION : bytes := "P0001".
Definition SQLSTATE_NO_DATA_FOUND : bytes := "P0002".
Definition SQLSTATE_TOO_MANY_ROWS : bytes := "P0003".
Definition SQLSTATE_ASSERT_FAILURE : bytes := "P0004".
Definition SQLSTATE_INTERNAL_ERROR : bytes := "XX000".
Definition SQLSTATE_DATA_CORRUPTED : bytes := "XX001".
Definition SQLSTATE_INDEX_CORRUPTED : bytes := "XX002".

Definition all_sqlstates : list bytes :=
  [SQLSTATE_SUCCESS; SQLSTATE_WARNING; SQLSTATE_DYNAMIC_RESULT_SETS_RETURNED;
   SQLSTATE_IMPLICIT_ZERO_BIT_PADDING;
   SQLSTATE_NULL_VALUE_ELIMINATED_IN_SET_FUNCTION;
   SQLSTATE_PRIVILEGE_NOT_GRANTED; SQLSTATE_PRIVILEGE_NOT_REVOKED;
   SQLSTATE_STRING_DATA_RIGHT_TRUNCATION_WARNING;
   SQLSTATE_DEPRECATED_FEATURE; SQLSTATE_NO_DATA;
   SQLSTATE_NO_ADDITIONAL_DYNAMIC_RESULT_SETS_RETURNED;
   SQLSTATE_SQL_STATEMENT_NOT_YET_COMPLETE; SQLSTATE_CONNECTION_EXCEPTION;
   SQLSTATE_CONNECTION_DOES_NOT_EXIST; SQLSTATE_CONNECTION_FAILURE;
   SQLSTATE_SQLCLIENT_UNABLE_TO_ESTABLISH_SQLCONNECTION;
   SQLSTATE_SQLSERVER_REJECTED_ESTABLISHMENT_OF_SQLCONNECTION;
   SQLSTATE_TRANSACTION_RESOLUTION_UNKNOWN; SQLSTATE_PROTOCOL_VIOLATION;
   SQLSTATE_TRIGGERED_ACTION_EXCEPTION; SQLSTATE_FEATURE_NOT_SUPPORTED;
   SQLSTATE_INVALID_TRANSACTION_INITIATION; SQLSTATE_LOCATOR_EXCEPTION;
   SQLSTATE_INVALID_LOCATOR_SPECIFICATION; SQLSTATE_INVALID_GRANTOR;
   SQLSTATE_INVALID_GRANT_OPERATION; SQLSTATE_INVALID_ROLE_SPECIFICATION;
   SQLSTATE_DIAGNOSTICS_EXCEPTION;
   SQLSTATE_STACKED_DIAGNOSTICS_ACCESSED_WITHOUT_ACTIVE_HANDLER;
   SQLSTATE_CASE_NOT_FOUND; SQLSTATE_CARDINALITY_VIOLATION;
   SQLSTATE_DATA_EXCEPTION; SQLSTATE_ARRAY_SUBSCRIPT_ERROR;
   SQLSTATE_CHARACTER_NOT_IN_REPERTOIRE; SQLSTATE_DATETIME_FIELD_OVERFLOW;
   SQLSTATE_DIVISION_BY_ZERO; SQLSTATE_ERROR_IN_ASSIGNMENT;
   SQLSTATE_ESCAPE_CHARACTER_CONFLICT; SQLSTATE_INDICATOR_OVERFLOW;
   SQLSTATE_INTERVAL_FIELD_OVERFLOW; SQLSTATE_INVALID_ARGUMENT_FOR_LOGARITHM;
   SQLSTATE_INVALID_ARGUMENT_FOR_NTILE_FUNCTION;
   SQLSTATE_INVALID_ARGUMENT_FOR_NTH_VALUE_FUNCTION;
   SQLSTATE_INVALID_ARGUMENT_FOR_POWER_FUNCTION;
   SQLSTATE_INVALID_ARGUMENT_FOR_WIDTH_BUCKET_FUNCTION;
   SQLSTATE_INVALID_CHARACTER_VALUE_FOR_CAST;
   SQLSTATE_INVALID_DATETIME_FORMAT; SQLSTATE_INVALID_ESCAPE_CHARACTER;
   SQLSTATE_INVALID_ESCAPE_OCTET; SQLSTATE_INVALID_ESCAPE_SEQUENCE;
   SQLSTATE_NONSTANDARD_USE_OF_ESCAPE_CHARACTER;
   SQLSTATE_INVALID_INDICATOR_PARAMETER_VALUE;
   SQLSTATE_INVALID_PARAMETER_VALUE; SQLSTATE_INVALID_REGULAR_EXPRESSION;
   SQLSTATE_INVALID_ROW_COUNT_IN_LIMIT_CLAUSE;
   SQLSTATE_INVALID_ROW_COUNT_IN_RESULT_OFFSET_CLAUSE;
   SQLSTATE_INVALID_TABLESAMPLE_ARGUMENT;
   SQLSTATE_INVALID_TABLESAMPLE_REPEAT;
   SQLSTATE_INVALID_TIME_ZONE_DISPLACEMENT_VALUE;
   SQLSTATE_INVALID_USE_OF_ESCAPE_CHARACTER;
   SQLSTATE_MOST_SPECIFIC_TYPE_MISMATCH; SQLSTATE_NULL_VALUE_NOT_ALLOWED;
   SQLSTATE_NULL_VALUE_NO_INDICATOR_PARAMETER;
   SQLSTATE_NUMERIC_VALUE_OUT_OF_RANGE; SQLSTATE_STRING_DATA_LENGTH_MISMATCH;
   SQLSTATE_STRING_DATA_RIGHT_TRUNCATION; SQLSTATE_SUBSTRING_ERROR;
   SQLSTATE_TRIM_ERROR; SQLSTATE_UNTERMINATED_C_STRING;
   SQLSTATE_ZERO_LENGTH_CHARACTER_STRING; SQLSTATE_FLOATING_POINT_EXCEPTION;
   SQLSTATE_INVALID_TEXT_REPRESENTATION;
   SQLSTATE_INVALID_BINARY_REPRESENTATION; SQLSTATE_BAD_COPY_FILE_FORMAT;
   SQLSTATE_UNTRANSLATABLE_CHARACTER; SQLSTATE_NOT_AN_XML_DOCUMENT;
   SQLSTATE_INVALID_XML_DOCUMENT; SQLSTATE_INVALID_XML_CONTENT;
   SQLSTATE_INVALID_XML_COMMENT; SQLSTATE_INVALID_XML_PROCESSING_INSTRUCTION;
   SQLSTATE_INTEGRITY_CONSTRAINT_VIOLATION; SQLSTATE_RESTRICT_VIOLATION;
   SQLSTATE_NOT_NULL_VIOLATION; SQLSTATE_FOREIGN_KEY_VIOLATION;
   SQLSTATE_UNIQUE_VIOLATION; SQLSTATE_CHECK_VIOLATION;
   SQLSTATE_EXCLUSION_VIOLATION; SQLSTATE_INVALID_CURSOR_STATE;
   SQLSTATE_INVALID_TRANSACTION_STATE; SQLSTATE_ACTIVE_SQL_TRANSACTION;
   SQLSTATE_BRANCH_TRANSACTION_ALREADY_ACTIVE;
   SQLSTATE_HELD_CURSOR_REQUIRES_SAME_ISOLATION_LEVEL;
   SQLSTATE_INAPPROPRIATE_ACCESS_MODE_FOR_BRANCH_TRANSACTION;
   SQLSTATE_INAPPROPRIATE_ISOLATION_LEVEL_FOR_BRANCH_TRANSACTION;
   SQLSTATE_NO_ACTIVE_SQL_TRANSACTION_FOR_BRANCH_TRANSACTION;
   SQLSTATE_READ_ONLY_SQL_TRANSACTION;
   SQLSTATE_SCHEMA_AND_DATA_STATEMENT_MIXING_NOT_SUPPORTED;
   SQLSTATE_NO_ACTIVE_SQL_TRANSACTION; SQLSTATE_IN_FAILED_SQL_TRANSACTION;
   SQLSTATE_INVALID_SQL_STATEMENT_NAME;
   SQLSTATE_TRIGGERED_DATA_CHANGE_VIOLATION;
   SQLSTATE_INVALID_AUTHORIZATION_SPECIFICATION; SQLSTATE_INVALID_PASSWORD;
   SQLSTATE_DEPENDENT_PRIVILEGE_DESCRIPTORS_STILL_EXIST;
   SQLSTATE_DEPENDENT_OBJECTS_STILL_EXIST;
   SQLSTATE_INVALID_TRANSACTION_TERMINATION; SQLSTATE_SQL_ROUTINE_EXCEPTION;
   SQLSTATE_FUNCTION_EXECUTED_NO_RETURN_STATEMENT;
   SQLSTATE_MODIFYING_SQL_DATA_NOT_PERMITTED;
   SQLSTATE_PROHIBITED_SQL_STATEMENT_ATTEMPTED;
   SQLSTATE_READING_SQL_DATA_NOT_PERMITTED; SQLSTATE_INVALID_CURSOR_NAME;
   SQLSTATE_EXTERNAL_ROUTINE_EXCEPTION;
   SQLSTATE_CONTAINING_SQL_NOT_PERMITTED;
   SQLSTATE_MODIFYING_SQL_DATA_NOT_PERMITTED_EXTERNAL;
   SQLSTATE_PROHIBITED_SQL_STATEMENT_ATTEMPTED_EXTERNAL;
   SQLSTATE_READING_SQL_DATA_NOT_PERMITTED_EXTERNAL;
   SQLSTATE_EXTERNAL_ROUTINE_INVOCATION_EXCEPTION;
   SQLSTATE_INVALID_SQLSTATE_RETURNED;
   SQLSTATE_NULL_VALUE_NOT_ALLOWED_EXTERNAL;
   SQLSTATE_TRIGGER_PROTOCOL_VIOLATED; SQLSTATE_SRF_PROTOCOL_VIOLATED;
   SQLSTATE_EVENT_TRIGGER_PROTOCOL_VIOLATED; SQLSTATE_SAVEPOINT_EXCEPTION;
   SQLSTATE_INVALID_SAVEPOINT_SPECIFICATION; SQLSTATE_INVALID_CATALOG_NAME;
   SQLSTATE_INVALID_SCHEMA_NAME; SQLSTATE_TRANSACTION_ROLLBACK;
   SQLSTATE_TRANSACTION_INTEGRITY_CONSTRAINT_VIOLATION;
   SQLSTATE_SERIALIZATION_FAILURE; SQLSTATE_STATEMENT_COMPLETION_UNKNOWN;
   SQLSTATE_DEADLOCK_DETECTED;
   SQLSTATE_SYNTAX_ERROR_OR_ACCESS_RULE_VIOLATION; SQLSTATE_SYNTAX_ERROR;
   SQLSTATE_INSUFFICIENT_PRIVILEGE; SQLSTATE_CANNOT_COERCE;
   SQLSTATE_GROUPING_ERROR; SQLSTATE_WINDOWING_ERROR;
   SQLSTATE_INVALID_RECURSION; SQLSTATE_INVALID_FOREIGN_KEY;
   SQLSTATE_INVALID_NAME; SQLSTATE_NAME_TOO_LONG; SQLSTATE_RESERVED_NAME;
   SQLSTATE_DATATYPE_MISMATCH; SQLSTATE_INDETERMINATE_DATATYPE;
   SQLSTATE_COLLATION_MISMATCH; SQLSTATE_INDETERMINATE_COLLATION;
   SQLSTATE_WRONG_OBJECT_TYPE; SQLSTATE_UNDEFINED_COLUMN;
   SQLSTATE_UNDEFINED_FUNCTION; SQLSTATE_UNDEFINED_TABLE;
   SQLSTATE_UNDEFINED_PARAMETER; SQLSTATE_UNDEFINED_OBJECT;
   SQLSTATE_DUPLICATE_COLUMN; SQLSTATE_DUPLICATE_CURSOR;
   SQLSTATE_DUPLICATE_DATABASE; SQLSTATE_DUPLICATE_FUNCTION;
   SQLSTATE_DUPLICATE_PREPARED_STATEMENT; SQLSTATE_DUPLICATE_SCHEMA;
   SQLSTATE_DUPLICATE_TABLE; SQLSTATE_DUPLICATE_ALIAS;
   SQLSTATE_DUPLICATE_OBJECT; SQLSTATE_AMBIGUOUS_COLUMN;
   SQLSTATE_AMBIGUOUS_FUNCTION; SQLSTATE_AMBIGUOUS_PARAMETER;
   SQLSTATE_AMBIGUOUS_ALIAS; SQLSTATE_INVALID_COLUMN_REFERENCE;
   SQLSTATE_INVALID_COLUMN_DEFINITION; SQLSTATE_INVALID_CURSOR_DEFINITION;
   SQLSTATE_INVALID_DATABASE_DEFINITION;
   SQLSTATE_INVALID_FUNCTION_DEFINITION;
   SQLSTATE_INVALID_PREPARED_STATEMENT_DEFINITION;
   SQLSTATE_INVALID_SCHEMA_DEFINITION; SQLSTATE_INVALID_TABLE_DEFINITION;
   SQLSTATE_INVALID_OBJECT_DEFINITION; SQLSTATE_WITH_CHECK_OPTION_VIOLATION;
   SQLSTATE_INSUFFICIENT_RESOURCES; SQLSTATE_DISK_FULL;
   SQLSTATE_OUT_OF_MEMORY; SQLSTATE_TOO_MANY_CONNECTIONS;
   SQLSTATE_CONFIGURATION_LIMIT_EXCEEDED; SQLSTATE_PROGRAM_LIMIT_EXCEEDED;
   SQLSTATE_STATEMENT_TOO_COMPLEX; SQLSTATE_TOO_MANY_COLUMNS;
   SQLSTATE_TOO_MANY_ARGUMENTS; SQLSTATE_OBJECT_NOT_IN_PREREQUISITE_STATE;
   SQLSTATE_OBJECT_IN_USE; SQLSTATE_CANT_CHANGE_RUNTIME_PARAM;
   SQLSTATE_LOCK_NOT_AVAILABLE; SQLSTATE_OPERATOR_INTERVENTION;
   SQLSTATE_QUERY_CANCELED; SQLSTATE_ADMIN_SHUTDOWN; SQLSTATE_CRASH_SHUTDOWN;
   SQLSTATE_CANNOT_CONNECT_NOW; SQLSTATE_DATABASE_DROPPED;
   SQLSTATE_SYSTEM_ERROR; SQLSTATE_IO_ERROR; SQLSTATE_UNDEFINED_FILE;
   SQLSTATE_DUPLICATE_FILE; SQLSTATE_CONFIG_FILE_ERROR;
   SQLSTATE_LOCK_FILE_EXISTS; SQLSTATE_FDW_ERROR;
   SQLSTATE_FDW_COLUMN_NAME_NOT_FOUND;
   SQLSTATE_FDW_DYNAMIC_PARAMETER_VALUE_NEEDED;
   SQLSTATE_FDW_FUNCTION_SEQUENCE_ERROR;
   SQLSTATE_FDW_INCONSISTENT_DESCRIPTOR_INFORMATION;
   SQLSTATE_FDW_INVALID_ATTRIBUTE_VALUE; SQLSTATE_FDW_INVALID_COLUMN_NAME;
   SQLSTATE_FDW_INVALID_COLUMN_NUMBER; SQLSTATE_FDW_INVALID_DATA_TYPE;
   SQLSTATE_FDW_INVALID_DATA_TYPE_DESCRIPTORS;
   SQLSTATE_FDW_INVALID_DESCRIPTOR_FIELD_IDENTIFIER;
   SQLSTATE_FDW_INVALID_HANDLE; SQLSTATE_FDW_INVALID_OPTION_INDEX;
   SQLSTATE_FDW_INVALID_OPTION_NAME;
   SQLSTATE_FDW_INVALID_STRING_LENGTH_OR_BUFFER_LENGTH;
   SQLSTATE_FDW_INVALID_STRING_FORMAT;
   SQLSTATE_FDW_INVALID_USE_OF_NULL_POINTER; SQLSTATE_FDW_TOO_MANY_HANDLES;
   SQLSTATE_FDW_OUT_OF_MEMORY; SQLSTATE_FDW_NO_SCHEMAS;
   SQLSTATE_FDW_OPTION_NAME_NOT_FOUND; SQLSTATE_FDW_REPLY_HANDLE;
   SQLSTATE_FDW_SCHEMA_NOT_FOUND; SQLSTATE_FDW_TABLE_NOT_FOUND;
   SQLSTATE_FDW_UNABLE_TO_CREATE_EXECUTION;
   SQLSTATE_FDW_UNABLE_TO_CREATE_REPLY;
   SQLSTATE_FDW_UNABLE_TO_ESTABLISH_CONNECTION; SQLSTATE_PLPGSQL_ERROR;
   SQLSTATE_RAISE_EXCEPTION; SQLSTATE_NO_DATA_FOUND; SQLSTATE_TOO_MANY_ROWS;
   SQLSTATE_ASSERT_FAILURE; SQLSTATE_INTERNAL_ERROR; SQLSTATE_DATA_CORRUPTED;
   SQLSTATE_INDEX_CORRUPTED].

(** ** [statusToSQLState] *)
Definition statusToSQLState (status : Status) : bytes :=
  match status with
  | OK => SQLSTATE_SUCCESS
  | FILE_NOT_FOUND => SQLSTATE_UNDEFINED_FILE
  | FILE_EXISTS => SQLSTATE_DUPLICATE_FILE
  | IO_ERROR => SQLSTATE_IO_ERROR
  | INVALID_PATH => SQLSTATE_SYSTEM_ERROR
  | PERMISSION_DENIED => SQLSTATE_INSUFFICIENT_PRIVILEGE
  | INVALID_ARGUMENT => SQLSTATE_INVALID_PARAMETER_VALUE
  | PAGE_CORRUPT => SQLSTATE_DATA_CORRUPTED
  | CHECKSUM_MISMATCH => SQLSTATE_DATA_CORRUPTED
  | INDEX_CORRUPTED => SQLSTATE_INDEX_CORRUPTED
  | DATA_CORRUPTED => SQLSTATE_DATA_CORRUPTED
  | DEADLOCK => SQLSTATE_DEADLOCK_DETECTED
  | LOCK_TIMEOUT => SQLSTATE_LOCK_NOT_AVAILABLE
  | LOCK_CONFLICT => SQLSTATE_LOCK_NOT_AVAILABLE
  | SERIALIZATION_FAILURE => SQLSTATE_SERIALIZATION_FAILURE
  | INVALID_TRANSACTION_STATE => SQLSTATE_INVALID_TRANSACTION_STATE
  | NO_ACTIVE_TRANSACTION => SQLSTATE_NO_ACTIVE_SQL_TRANSACTION
  | TRANSACTION_ABORTED => SQLSTATE_IN_FAILED_SQL_TRANSACTION
  | READ_ONLY_TRANSACTION => SQLSTATE_READ_ONLY_SQL_TRANSACTION
  | OOM => SQLSTATE_OUT_OF_MEMORY
  | DISK_FULL => SQLSTATE_DISK_FULL
  | TOO_MANY_CONNECTIONS => SQLSTATE_TOO_MANY_CONNECTIONS
  | CONFIGURATION_LIMIT_EXCEEDED => SQLSTATE_CONFIGURATION_LIMIT_EXCEEDED
  | PAGE_FULL => SQLSTATE_DISK_FULL
  | NOT_FOUND => SQLSTATE_NO_DATA
  | NOT_IMPLEMENTED => SQLSTATE_FEATURE_NOT_SUPPORTED
  | NOT_SUPPORTED => SQLSTATE_FEATURE_NOT_SUPPORTED
  | TYPE_MISMATCH => SQLSTATE_DATATYPE_MISMATCH
  | OUT_OF_RANGE => SQLSTATE_NUMERIC_VALUE_OUT_OF_RANGE
  | DIVISION_BY_ZERO => SQLSTATE_DIVISION_BY_ZERO
  | NUMERIC_VALUE_OUT_OF_RANGE => SQLSTATE_NUMERIC_VALUE_OUT_OF_RANGE
  | STRING_DATA_RIGHT_TRUNCATION => SQLSTATE_STRING_DATA_RIGHT_TRUNCATION
  | DATETIME_FIELD_OVERFLOW => SQLSTATE_DATETIME_FIELD_OVERFLOW
  | INVALID_DATETIME_FORMAT => SQLSTATE_INVALID_DATETIME_FORMAT
  | INVALID_TEXT_REPRESENTATION => SQLSTATE_INVALID_TEXT_REPRESENTATION
  | NULL_VALUE_NOT_ALLOWED => SQLSTATE_NULL_VALUE_NOT_ALLOWED
  | CONSTRAINT_VIOLATION => SQLSTATE_INTEGRITY_CONSTRAINT_VIOLATION
  | NOT_NULL_VIOLATION => SQLSTATE_NOT_NULL_VIOLATION
  | FOREIGN_KEY_VIOLATION => SQLSTATE_FOREIGN_KEY_VIOLATION
  | UNIQUE_VIOLATION => SQLSTATE_UNIQUE_VIOLATION
  | CHECK_VIOLATION => SQLSTATE_CHECK_VIOLATION
  | EXCLUSION_VIOLATION => SQLSTATE_EXCLUSION_VIOLATION
  | SYNTAX_ERROR => SQLSTATE_SYNTAX_ERROR
  | UNDEFINED_TABLE => SQLSTATE_UNDEFINED_TABLE
  | UNDEFINED_COLUMN => SQLSTATE_UNDEFINED_COLUMN
  | UNDEFINED_FUNCTION => SQLSTATE_UNDEFINED_FUNCTION
  | UNDEFINED_OBJECT => SQLSTATE_UNDEFINED_OBJECT
  | DUPLICATE_TABLE => SQLSTATE_DUPLICATE_TABLE
  | DUPLICATE_COLUMN => SQLSTATE_DUPLICATE_COLUMN
  | DUPLICATE_OBJECT => SQLSTATE_DUPLICATE_OBJECT
  | AMBIGUOUS_COLUMN => SQLSTATE_AMBIGUOUS_COLUMN
  | AMBIGUOUS_FUNCTION => SQLSTATE_AMBIGUOUS_FUNCTION
  | DATATYPE_MISMATCH => SQLSTATE_DATATYPE_MISMATCH
  | WRONG_OBJECT_TYPE => SQLSTATE_WRONG_OBJECT_TYPE
  | INSUFFICIENT_PRIVILEGE => SQLSTATE_INSUFFICIENT_PRIVILEGE
  | INVALID_CURSOR_STATE => SQLSTATE_INVALID_CURSOR_STATE
  | INVALID_CURSOR_NAME => SQLSTATE_INVALID_CURSOR_NAME
  | CURSOR_NOT_FOUND => SQLSTATE_INVALID_CURSOR_NAME
  | CURSOR_ALREADY_OPEN => SQLSTATE_INVALID_CURSOR_STATE
  | CURSOR_NOT_OPEN => SQLSTATE_INVALID_CURSOR_STATE
  | NO_DATA_FOUND => SQLSTATE_NO_DATA_FOUND
  | TOO_MANY_ROWS => SQLSTATE_TOO_MANY_ROWS
  | RAISE_EXCEPTION => SQLSTATE_RAISE_EXCEPTION
  | ASSERT_FAILURE => SQLSTATE_ASSERT_FAILURE
  | STATEMENT_TOO_COMPLEX => SQLSTATE_STATEMENT_TOO_COMPLEX
  | TOO_MANY_COLUMNS => SQLSTATE_TOO_MANY_COLUMNS
  | CONNECTION_FAILURE => SQLSTATE_CONNECTION_FAILURE
  | CONNECTION_DOES_NOT_EXIST => SQLSTATE_CONNECTION_DOES_NOT_EXIST
  | PROTOCOL_VIOLATION => SQLSTATE_PROTOCOL_VIOLATION
  | INVALID_PASSWORD => SQLSTATE_INVALID_PASSWORD
  | INVALID_AUTHORIZATION => SQLSTATE_INVALID_AUTHORIZATION_SPECIFICATION
  | CANCELLED => SQLSTATE_QUERY_CANCELED
  | QUERY_CANCELED => SQLSTATE_QUERY_CANCELED
  | ADMIN_SHUTDOWN => SQLSTATE_ADMIN_SHUTDOWN
  | CRASH_SHUTDOWN => SQLSTATE_CRASH_SHUTDOWN
  | DATABASE_DROPPED => SQLSTATE_DATABASE_DROPPED
  | OBJECT_IN_USE => SQLSTATE_OBJECT_IN_USE
  | LOCK_NOT_AVAILABLE => SQLSTATE_LOCK_NOT_AVAILABLE
  | COMPRESSION_ERROR => SQLSTATE_INTERNAL_ERROR
  | INTERNAL_ERROR => SQLSTATE_INTERNAL_ERROR
  | INDEX_NOT_FOUND => SQLSTATE_UNDEFINED_OBJECT
  end.

(** ** [getSQLStateClass] *)
Definition class_map : list (bytes * bytes) := [
  (("00" : bytes), ("Successful Completion" : bytes));
  (("01" : bytes), ("Warning" : bytes));
  (("02" : bytes), ("No Data" : bytes));
  (("03" : bytes), ("SQL Statement Not Yet Complete" : bytes));
  (("08" : bytes), ("Connection Exception" : bytes));
  (("09" : bytes), ("Triggered Action Exception" : bytes));
  (("0A" : bytes), ("Feature Not Supported" : bytes));
  (("0B" : bytes), ("Invalid Transaction Initiation" : bytes));
  (("0F" : bytes), ("Locator Exception" : bytes));
  (("0L" : bytes), ("Invalid Grantor" : bytes));
  (("0P" : bytes), ("Invalid Role Specification" : bytes));
  (("0Z" : bytes), ("Diagnostics Exception" : bytes));
  (("20" : bytes), ("Case Not Found" : bytes));
  (("21" : bytes), ("Cardinality Violation" : bytes));
  (("22" : bytes), ("Data Exception" : bytes));
  (("23" : bytes), ("Integrity Constraint Violation" : bytes));
  (("24" : bytes), ("Invalid Cursor State" : bytes));
  (("25" : bytes), ("Invalid Transaction State" : bytes));
  (("26" : bytes), ("Invalid SQL Statement Name" : bytes));
  (("27" : bytes), ("Triggered Data Change Violation" : bytes));
  (("28" : bytes), ("Invalid Authorization Specification" : bytes));
  (("2B" : bytes), ("Dependent Privilege Descriptors Still Exist" : bytes));
  (("2D" : bytes), ("Invalid Transaction Termination" : bytes));
  (("2F" : bytes), ("SQL Routine Exception" : bytes));
  (("34" : bytes), ("Invalid Cursor Name" : bytes));
  (("38" : bytes), ("External Routine Exception" : bytes));
  (("39" : bytes), ("External Routine Invocation Exception" : bytes));
  (("3B" : bytes), ("Savepoint Exception" : bytes));
  (("3D" : bytes), ("Invalid Catalog Name" : bytes));
  (("3F" : bytes), ("Invalid Schema Name" : bytes));
  (("40" : bytes), ("Transaction Rollback" : bytes));
  (("42" : bytes), ("Syntax Error or Access Rule Violation" : bytes));
  (("44" : bytes), ("WITH CHECK OPTION Violation" : bytes));
  (("53" : bytes), ("Insufficient Resources" : bytes));
  (("54" : bytes), ("Program Limit Exceeded" : bytes));
  (("55" : bytes), ("Object Not In Prerequisite State" : bytes));
  (("57" : bytes), ("Operator Intervention" : bytes));
  (("58" : bytes), ("System Error" : bytes));
  (("F0" : bytes), ("Configuration File Error" : bytes));
  (("HV" : bytes), ("Foreign Data Wrapper Error" : bytes));
  (("P0" : bytes), ("PL/pgSQL Error" : bytes));
  (("XX" : bytes), ("Internal Error" : bytes))].

Fixpoint assoc_find (k : bytes) (l : list (bytes * bytes)) : option bytes :=
  match l with
  | [] => None
  | (k', v) :: l => if bool_decide (k = k') then Some v else assoc_find k l
  end.

(** [sqlstate] is a C string: [None] is the null pointer, the bytes are those
    before the terminator. *)
Definition getSQLStateClass (sqlstate : option bytes) : bytes :=
  match sqlstate with
  | Some (c0 :: c1 :: _) =>
      match assoc_find [c0; c1] class_map with
      | Some v => v
      | None => "Unknown Error Class"
      end
  | _ => "Unknown"
  end.
(** ** Properties *)

(** A SQLSTATE is five characters, digits or upper-case letters. *)
Definition sqlstate_char (b : byte) : bool :=
  let v := byte_val b in ((48 <=? v) && (v <=? 57)) || ((65 <=? v) && (v <=? 90)).

Definition wf_sqlstate (s : bytes) : bool :=
  (length s =? 5)%nat && forallb sqlstate_char s.

(** The class of [s] is one of the table's. *)
Definition known_class (s : bytes) : Prop :=
  ∃ desc, (take 2 s, desc) ∈ class_map ∧ getSQLStateClass (Some s) = desc.

Definition known_classb (s : bytes) : bool :=
  existsb (λ p, bool_decide (take 2 s = p.1) && bool_decide (getSQLStateClass (Some s) = p.2))
    class_map.

Lemma known_classb_sound s : known_classb s = true → known_class s.
Proof.
  unfold known_classb, known_class. rewrite existsb_exists.
  intros ([c d] & Hin & [Hc Hd]%andb_true_iff).
  apply bool_decide_eq_true in Hc, Hd. simpl in *.
  exists d. split; [|done]. rewrite Hc. by apply list_elem_of_In.
Qed.

Lemma all_status_complete s : s ∈ all_status.
Proof.
  destruct s; apply (bool_decide_unpack _); vm_compute; exact I.
Qed.

(** A boolean check that passes on every enumerator holds of every status. *)
Lemma all_status_ind (f : Status → bool) :
  forallb f all_status = true → ∀ s, f s = true.
Proof.
  rewrite forallb_forall. intros H s. apply H, list_elem_of_In, all_status_complete.
Qed.

Definition status_report_ok (s : Status) : bool :=
  Bool.eqb (bool_decide (statusToSQLState s = SQLSTATE_SUCCESS)) (bool_decide (s = OK))
  && wf_sqlstate (statusToSQLState s) && known_classb (statusToSQLState s).

(** Error statuses are never reported as success, and every status is
    reported as a well-formed SQLSTATE whose class [getSQLStateClass] names. *)
Theorem statusToSQLState_sound s :
  (statusToSQLState s = SQLSTATE_SUCCESS ↔ s = OK) ∧
  wf_sqlstate (statusToSQLState s) = true ∧
  known_class (statusToSQLState s).
Proof.
  assert (H : status_report_ok s = true)
    by (revert s; apply all_status_ind; vm_compute; reflexivity).
  unfold status_report_ok in H. rewrite !andb_true_iff in H. destruct H as [[H1 H2] H3].
  apply eqb_prop in H1.
  split_and!; [|done|by apply known_classb_sound].
  by rewrite <-(bool_decide_eq_true (s = OK)), <-H1, bool_decide_eq_true.
Qed.

(** The SQLSTATE constants are pairwise distinct, well formed and each of a
    class of the table; status values are pairwise distinct and fit
    [uint32_t]. *)
Theorem sqlstate_table_sound :
  NoDup all_sqlstates ∧
  Forall (λ s, wf_sqlstate s = true ∧ known_class s) all_sqlstates ∧
  NoDup (status_code <$> all_status) ∧
  Forall (λ s, in_u32 (status_code s)) all_status.
Proof.
  split_and!; [apply (bool_decide_unpack _); vm_compute; exact I| |
    apply (bool_decide_unpack _); vm_compute; exact I ..].
  assert (H : forallb (λ s, wf_sqlstate s && known_classb s) all_sqlstates = true)
    by (vm_compute; reflexivity).
  rewrite forallb_forall in H. apply Forall_forall. intros s Hs.
  apply list_elem_of_In, H, andb_true_iff in Hs as [? ?].
  auto using known_classb_sound.
Qed.
