(* ===== verification/Wire.v ===== *)
(** * SBWP wire protocol: message framing

    Models the constants and framing part of
    [tracks/p3/drivers/cpp/include/scratchbird/protocol/sbwp_protocol.h] and
    [src/protocol/sbwp_protocol.cpp]: little-endian stores and loads, the
    parameter list, [encodeMessage] and [decodeHeader]. *)

From S2P Require Import Prelude.
From S2P Require Import Sqlstate.

(** ** Protocol constants *)

Definition kProtocolMagic : Z := 0x50574253.
Definition kProtocolMajor : Z := 1.
Definition kProtocolMinor : Z := 1.
Definition kHeaderSize : Z := 40.
Definition kMaxMessageSize : Z := 1024 * 1024 * 1024.

Module MessageType.

Inductive t : Type :=
  | Startup | AuthResponse | Query | Parse | Bind | Describe | Execute | Close
  | Sync | Flush | Cancel | Terminate | CopyData | CopyDone | CopyFail
  | SblrExecute | Subscribe | Unsubscribe | FederatedQuery | StreamControl
  | TxnBegin | TxnCommit | TxnRollback | TxnSavepoint | TxnRelease
  | TxnRollbackTo | Ping | SetOption | ClusterAuth | AttachCreate
  | AttachDetach | AttachList
  | AuthRequest | AuthOk | AuthContinue | Ready | RowDescription | DataRow
  | CommandComplete | EmptyQuery | Error | Notice | ParseComplete
  | BindComplete | CloseComplete | PortalSuspended | NoData | ParameterStatus
  | ParameterDescription | CopyInResponse | CopyOutResponse
  | CopyBothResponse | Notification | FunctionResult | NegotiateVersion
  | SblrCompiled | QueryPlan | StreamReady | StreamData | StreamEnd
  | TxnStatus | Pong | ClusterAuthOk | FederatedResult | Heartbeat | Extension.

#[export] Instance t_eq_dec : EqDecision t.
Proof. solve_decision. Defined.

(** The underlying [uint8_t] of an enumerator. *)
Definition code (m : t) : Z :=
  match m with
  | Startup => 0x01 | AuthResponse => 0x02 | Query => 0x03 | Parse => 0x04
  | Bind => 0x05 | Describe => 0x06 | Execute => 0x07 | Close => 0x08
  | Sync => 0x09 | Flush => 0x0A | Cancel => 0x0B | Terminate => 0x0C
  | CopyData => 0x0D | CopyDone => 0x0E | CopyFail => 0x0F
  | SblrExecute => 0x10 | Subscribe => 0x11 | Unsubscribe => 0x12
  | FederatedQuery => 0x13 | StreamControl => 0x14 | TxnBegin => 0x15
  | TxnCommit => 0x16 | TxnRollback => 0x17 | TxnSavepoint => 0x18
  | TxnRelease => 0x19 | TxnRollbackTo => 0x1A | Ping => 0x1B
  | SetOption => 0x1C | ClusterAuth => 0x1D | AttachCreate => 0x1E
  | AttachDetach => 0x1F | AttachList => 0x20
  | AuthRequest => 0x40 | AuthOk => 0x41 | AuthContinue => 0x42
  | Ready => 0x43 | RowDescription => 0x44 | DataRow => 0x45
  | CommandComplete => 0x46 | EmptyQuery => 0x47 | Error => 0x48
  | Notice => 0x49 | ParseComplete => 0x4A | BindComplete => 0x4B
  | CloseComplete => 0x4C | PortalSuspended => 0x4D | NoData => 0x4E
  | ParameterStatus => 0x4F | ParameterDescription => 0x50
  | CopyInResponse => 0x51 | CopyOutResponse => 0x52
  | CopyBothResponse => 0x53 | Notification => 0x54 | FunctionResult => 0x55
  | NegotiateVersion => 0x56 | SblrCompiled => 0x57 | QueryPlan => 0x58
  | StreamReady => 0x59 | StreamData => 0x5A | StreamEnd => 0x5B
  | TxnStatus => 0x5C | Pong => 0x5D | ClusterAuthOk => 0x5E
  | FederatedResult => 0x5F | Heartbeat => 0x80 | Extension => 0x81
  end.

Definition all : list t :=
  [Startup; AuthResponse; Query; Parse; Bind; Describe; Execute; Close; Sync;
   Flush; Cancel; Terminate; CopyData; CopyDone; CopyFail; SblrExecute;
   Subscribe; Unsubscribe; FederatedQuery; StreamControl; TxnBegin; TxnCommit;
   TxnRollback; TxnSavepoint; TxnRelease; TxnRollbackTo; Ping; SetOption;
   ClusterAuth; AttachCreate; AttachDetach; AttachList; AuthRequest; AuthOk;
   AuthContinue; Ready; RowDescription; DataRow; CommandComplete; EmptyQuery;
   Error; Notice; ParseComplete; BindComplete; CloseComplete; PortalSuspended;
   NoData; ParameterStatus; ParameterDescription; CopyInResponse;
   CopyOutResponse; CopyBothResponse; Notification; FunctionResult;
   NegotiateVersion; SblrCompiled; QueryPlan; StreamReady; StreamData;
   StreamEnd; TxnStatus; Pong; ClusterAuthOk; FederatedResult; Heartbeat;
   Extension].

End MessageType.

(** [static_cast<MessageType>(b)] keeps any byte, enumerator or not: a message
    type in flight is its underlying byte. *)
Record MessageHeader := mkHeader {
  type : byte;
  flags : byte;
  hlength : Z;
  sequence : Z;
  attachment_id : bytes;
  txn_id : Z
}.

#[export] Instance MessageHeader_eq_dec : EqDecision MessageHeader.
Proof. solve_decision. Defined.

Definition wf_header (h : MessageHeader) : Prop :=
  in_u32 (hlength h) ∧ in_u32 (sequence h) ∧
  length (attachment_id h) = 16%nat ∧ in_u64 (txn_id h).

(** ** [core::ErrorContext*]: [None] is the null pointer; of the pointed-to
    record the protocol layer writes the message only. *)
Abbreviation ErrorCtx := (option bytes).

Definition setError (ctx : ErrorCtx) (msg : bytes) : ErrorCtx :=
  match ctx with
  | None => None
  | Some _ => Some msg
  end.

(** ** Little-endian stores and loads *)

Definition writeU16 (buf : bytes) (offset value : Z) : outcome bytes :=
  buf ← store buf offset (byte_of (Z.land value 0xFF));
  store buf (offset + 1) (byte_of (Z.land (Z.shiftr value 8) 0xFF)).

Definition writeU32 (buf : bytes) (offset value : Z) : outcome bytes :=
  buf ← store buf offset (byte_of (Z.land value 0xFF));
  buf ← store buf (offset + 1) (byte_of (Z.land (Z.shiftr value 8) 0xFF));
  buf ← store buf (offset + 2) (byte_of (Z.land (Z.shiftr value 16) 0xFF));
  store buf (offset + 3) (byte_of (Z.land (Z.shiftr value 24) 0xFF)).

(** [for (i = 0; i < 8; ++i)], [n] iterations left. *)
Fixpoint writeU64_loop (n : nat) (i : Z) (buf : bytes) (offset value : Z) : outcome bytes :=
  match n with
  | O => Ret buf
  | S n =>
      buf ← store buf (offset + i) (byte_of (Z.land (Z.shiftr value (8 * i)) 0xFF));
      writeU64_loop n (i + 1) buf offset value
  end.

Definition writeU64 (buf : bytes) (offset value : Z) : outcome bytes :=
  writeU64_loop 8 0 buf offset value.

Definition readU16 (data : bytes) (off : Z) : outcome Z :=
  b0 ← load data off;
  b1 ← load data (off + 1);
  Ret (Z.lor (byte_val b0) (Z.shiftl (byte_val b1) 8)).

Definition readU32 (data : bytes) (off : Z) : outcome Z :=
  b0 ← load data off;
  b1 ← load data (off + 1);
  b2 ← load data (off + 2);
  b3 ← load data (off + 3);
  Ret (Z.lor (Z.lor (Z.lor (byte_val b0) (Z.shiftl (byte_val b1) 8))
                    (Z.shiftl (byte_val b2) 16))
             (Z.shiftl (byte_val b3) 24)).

Fixpoint readU64_loop (n : nat) (i : Z) (data : bytes) (off value : Z) : outcome Z :=
  match n with
  | O => Ret value
  | S n =>
      b ← load data (off + i);
      readU64_loop n (i + 1) data off (Z.lor value (Z.shiftl (byte_val b) (8 * i)))
  end.

Definition readU64 (data : bytes) (off : Z) : outcome Z :=
  readU64_loop 8 0 data off 0.

(** ** Properties of the stores and loads *)

(** Left-to-right stores into the zeroed tail of a buffer. *)
Ltac store_steps :=
  repeat (rewrite store_app by (autorewrite with bytes; simpl length; lia); simpl mbind).

Ltac finish_app :=
  rewrite <-?app_assoc; cbn [app];
  match goal with
  | |- context [zeros ?a] => match goal with
      | |- _ = ?r => match r with context [zeros ?b] => replace a with b by lia end
      end
  end; reflexivity.

Lemma writeU16_app w n off v :
  off = blen w → 2 <= n →
  writeU16 (w ++ zeros n) off v = Ret ((w ++ le_bytes 2 v) ++ zeros (n - 2)).
Proof.
  intros -> Hn. unfold writeU16. autorewrite with bytes. store_steps.
  cbn [le_bytes]. finish_app.
Qed.

Lemma writeU32_app w n off v :
  off = blen w → 4 <= n →
  writeU32 (w ++ zeros n) off v = Ret ((w ++ le_bytes 4 v) ++ zeros (n - 4)).
Proof.
  intros -> Hn. unfold writeU32. autorewrite with bytes. store_steps.
  cbn [le_bytes]. finish_app.
Qed.

Lemma writeU64_loop_app k i w n off v :
  0 <= i → off + i = blen w → Z.of_nat k <= n →
  writeU64_loop k i (w ++ zeros n) off v =
    Ret ((w ++ le_bytes k (Z.shiftr v (8 * i))) ++ zeros (n - Z.of_nat k)).
Proof.
  revert i w n. induction k as [|k IH]; intros i w n Hi Hoff Hn; simpl.
  { by rewrite app_nil_r, Z.sub_0_r. }
  rewrite store_app by lia. simpl. autorewrite with bytes.
  rewrite IH by (autorewrite with bytes; simpl length; lia).
  replace (8 * (i + 1)) with (8 * i + 8) by lia.
  rewrite shiftr_add_8 by lia. finish_app.
Qed.

Lemma writeU64_app w n off v :
  off = blen w → 8 <= n →
  writeU64 (w ++ zeros n) off v = Ret ((w ++ le_bytes 8 v) ++ zeros (n - 8)).
Proof.
  intros -> Hn. unfold writeU64.
  rewrite writeU64_loop_app by lia. by rewrite Z.mul_0_r, Z.shiftr_0_r.
Qed.

(** A load of [n] bytes is the little-endian value of the range. *)
Definition load_le (data : bytes) (off n : Z) : outcome Z :=
  bs ← slice data off n; Ret (le_val bs).

(** Case analysis on each single-byte load. *)
Ltac load_cases :=
  repeat match goal with
  | |- context [load ?d ?o] => destruct (load d o) as [?b|]; cbn [mbind outcome_bind]; [|done]
  end.

Ltac byte_bounds :=
  repeat match goal with
  | b : Byte.byte |- _ =>
      lazymatch goal with
      | _ : 0 <= byte_val b < 256 |- _ => fail
      | _ => pose proof (byte_val_range b)
      end
  end.

Lemma readU16_slice data off : 0 <= off → readU16 data off = load_le data off 2.
Proof.
  intros. unfold readU16, load_le.
  rewrite (slice_cons _ _ 1), slice_one by lia. load_cases.
  byte_bounds. cbn [le_val]. rewrite lor_shiftl_add by lia. f_equal. lia.
Qed.

Lemma readU32_slice data off : 0 <= off → readU32 data off = load_le data off 4.
Proof.
  intros. unfold readU32, load_le.
  rewrite (slice_cons _ _ 3), (slice_cons _ _ 2), (slice_cons _ _ 1), slice_one by lia.
  replace (off + 1 + 1 + 1) with (off + 3) by lia.
  replace (off + 1 + 1) with (off + 2) by lia.
  load_cases. byte_bounds. cbn [le_val].
  rewrite (lor_shiftl_add _ _ 8), (lor_shiftl_add _ _ 16), (lor_shiftl_add _ _ 24) by lia.
  f_equal. lia.
Qed.

(** The eight-step loop accumulates the value of the bytes read so far. *)
Lemma readU64_loop_slice k i data off acc :
  0 <= off → 0 <= i → 0 <= acc < 2 ^ (8 * i) →
  readU64_loop k i data off acc =
    if decide (k = O) then Ret acc else
    (bs ← slice data (off + i) (Z.of_nat k); Ret (acc + 2 ^ (8 * i) * le_val bs)).
Proof.
  revert i acc. induction k as [|k IH]; intros i acc Ho Hi Hacc; [done|].
  cbn [readU64_loop]. destruct (decide (S k = O)) as [|_]; [done|].
  replace (Z.of_nat (S k)) with (1 + Z.of_nat k) by lia.
  rewrite slice_cons by lia.
  destruct (load data (off + i)) as [b|] eqn:Hload; cbn [mbind outcome_bind]; [|done].
  byte_bounds. rewrite lor_shiftl_add by lia.
  assert (Hpow : 2 ^ (8 * (i + 1)) = 2 ^ (8 * i) * 256).
  { replace (8 * (i + 1)) with (8 * i + 8) by lia. by rewrite Z.pow_add_r by lia. }
  assert (0 < 2 ^ (8 * i)) by (apply Z.pow_pos_nonneg; lia).
  rewrite IH by (rewrite ?Hpow; nia).
  replace (off + (i + 1)) with (off + i + 1) by lia.
  destruct (decide (k = O)) as [->|].
  - simpl Z.of_nat. rewrite slice_zero by lia.
    unfold load in Hload. case_match; [|done]. guard_true. simpl. f_equal. lia.
  - destruct (slice data (off + i + 1) (Z.of_nat k)); cbn [mbind outcome_bind]; [|done].
    cbn [le_val]. rewrite Hpow. f_equal. lia.
Qed.

Lemma readU64_slice data off : 0 <= off → readU64 data off = load_le data off 8.
Proof.
  intros. unfold readU64, load_le. rewrite readU64_loop_slice by lia.
  destruct (decide _); [done|]. rewrite Z.add_0_r.
  destruct (slice _ _ _); cbn [mbind outcome_bind]; [|done]. f_equal. lia.
Qed.

Lemma load_le_app p m r off n :
  off = blen p → n = blen m → load_le (p ++ m ++ r) off n = Ret (le_val m).
Proof. intros. unfold load_le. by rewrite (slice_app p m r) by done. Qed.

Lemma load_le_defined data off n :
  0 <= off → 0 <= n → off + n <= blen data →
  ∃ v, load_le data off n = Ret v ∧ 0 <= v < 256 ^ n.
Proof.
  intros. unfold load_le.
  destruct (slice_defined data off n) as (s & -> & <-); [done..|].
  eexists. split; [done|apply le_val_bounds].
Qed.

Lemma readU16_app p m r off :
  off = blen p → length m = 2%nat → readU16 (p ++ m ++ r) off = Ret (le_val m).
Proof. intros. rewrite readU16_slice, load_le_app by lia. done. Qed.

Lemma readU32_app p m r off :
  off = blen p → length m = 4%nat → readU32 (p ++ m ++ r) off = Ret (le_val m).
Proof. intros. rewrite readU32_slice, load_le_app by lia. done. Qed.

Lemma readU64_app p m r off :
  off = blen p → length m = 8%nat → readU64 (p ++ m ++ r) off = Ret (le_val m).
Proof. intros. rewrite readU64_slice, load_le_app by lia. done. Qed.

Lemma le_val_u16 v : in_u16 v → le_val (le_bytes 2 v) = v.
Proof. unfold in_u16. intros. rewrite le_val_le_bytes. apply Z.mod_small. lia. Qed.
Lemma le_val_u32 v : in_u32 v → le_val (le_bytes 4 v) = v.
Proof. unfold in_u32. intros. rewrite le_val_le_bytes. apply Z.mod_small. lia. Qed.
Lemma le_val_u64 v : in_u64 v → le_val (le_bytes 8 v) = v.
Proof. unfold in_u64. intros. rewrite le_val_le_bytes. apply Z.mod_small. lia. Qed.

#[export] Hint Rewrite le_val_u16 le_val_u32 le_val_u64 using assumption : bytes.

(** Reads inside the buffer succeed and yield a value of the width. *)
Lemma readU16_ok data off :
  0 <= off → off + 2 <= blen data → ∃ v, readU16 data off = Ret v ∧ in_u16 v.
Proof. intros. rewrite readU16_slice by lia. by apply load_le_defined. Qed.
Lemma readU32_ok data off :
  0 <= off → off + 4 <= blen data → ∃ v, readU32 data off = Ret v ∧ in_u32 v.
Proof. intros. rewrite readU32_slice by lia. by apply load_le_defined. Qed.
Lemma readU64_ok data off :
  0 <= off → off + 8 <= blen data → ∃ v, readU64 data off = Ret v ∧ in_u64 v.
Proof. intros. rewrite readU64_slice by lia. by apply load_le_defined. Qed.

(** ** Parameter list, [encodeMessage], [decodeHeader] *)

Definition buildParamList (params : gmap bytes bytes) : bytes :=
  foldl (λ buf entry, (((buf ++ entry.1) ++ [Byte.x00]) ++ entry.2) ++ [Byte.x00])
    [] (std_map_items params) ++ [Byte.x00].

Definition encodeMessage (header : MessageHeader) (payload : bytes) : outcome bytes :=
  let buf := zeros (kHeaderSize + blen payload) in
  buf ← writeU32 buf 0 kProtocolMagic;
  buf ← store buf 4 (byte_of kProtocolMajor);
  buf ← store buf 5 (byte_of kProtocolMinor);
  buf ← store buf 6 (type header);
  buf ← store buf 7 (flags header);
  buf ← writeU32 buf 8 (u32 (blen payload));
  buf ← writeU32 buf 12 (sequence header);
  buf ← copy_into buf 16 (attachment_id header);
  buf ← writeU64 buf 32 (txn_id header);
  if bool_decide (payload = []) then Ret buf
  else copy_into buf kHeaderSize payload.

Definition decodeHeader (header_bytes : bytes) (header : MessageHeader) (ctx : ErrorCtx)
    : outcome (Status * MessageHeader * ErrorCtx) :=
  if negb (blen header_bytes =? kHeaderSize)
  then Ret (PROTOCOL_VIOLATION, header, setError ctx "Invalid header length") else
  magic ← readU32 header_bytes 0;
  if negb (magic =? kProtocolMagic)
  then Ret (PROTOCOL_VIOLATION, header, setError ctx "Invalid protocol magic") else
  major ← load header_bytes 4;
  minor ← load header_bytes 5;
  if negb (byte_val major =? kProtocolMajor) || negb (byte_val minor =? kProtocolMinor)
  then Ret (PROTOCOL_VIOLATION, header, setError ctx "Unsupported protocol version") else
  len ← readU32 header_bytes 8;
  if kMaxMessageSize <? len
  then Ret (PROTOCOL_VIOLATION, header, setError ctx "Payload too large") else
  t ← load header_bytes 6;
  f ← load header_bytes 7;
  seq ← readU32 header_bytes 12;
  att ← slice header_bytes 16 16;
  txn ← readU64 header_bytes 32;
  Ret (OK, mkHeader t f len seq att txn, ctx).

(** The documented 40-byte layout. *)
Definition header_layout (h : MessageHeader) (len : Z) : bytes :=
  le_bytes 4 kProtocolMagic ++ [byte_of kProtocolMajor; byte_of kProtocolMinor] ++
  [type h; flags h] ++ le_bytes 4 len ++ le_bytes 4 (sequence h) ++
  attachment_id h ++ le_bytes 8 (txn_id h).

Lemma length_header_layout h len :
  length (attachment_id h) = 16%nat → length (header_layout h len) = 40%nat.
Proof. intros H. unfold header_layout. rewrite !length_app, !length_le_bytes, H. done. Qed.

Ltac build_step :=
  first
    [ rewrite writeU16_app by solve_off
    | rewrite writeU32_app by solve_off
    | rewrite writeU64_app by solve_off
    | rewrite store_app by solve_off
    | rewrite copy_into_app by solve_off ];
  cbn [mbind outcome_bind].

(** The buffer is full: no zero is left. *)
Ltac build_done :=
  match goal with
  | |- context [zeros ?n] => replace n with 0 by solve_off
  end; rewrite zeros_0, ?app_nil_r; flat_app.

Lemma encodeMessage_layout h payload :
  length (attachment_id h) = 16%nat →
  encodeMessage h payload = Ret (header_layout h (u32 (blen payload)) ++ payload).
Proof.
  intros Hatt. unfold encodeMessage, header_layout, kHeaderSize.
  rewrite <-(app_nil_l (zeros _)).
  do 9 build_step.
  case_bool_decide as Hp.
  - subst payload. build_done. reflexivity.
  - build_step. build_done. reflexivity.
Qed.

(** Evaluate the next access of a parser on a concatenation of fields. *)
Ltac eval_read :=
  lazymatch goal with
  | |- readU16 ?d ?o = _ => rewrite (readU16_slice d o) by lia; unfold load_le; slice_step
  | |- readU32 ?d ?o = _ => rewrite (readU32_slice d o) by lia; unfold load_le; slice_step
  | |- readU64 ?d ?o = _ => rewrite (readU64_slice d o) by lia; unfold load_le; slice_step
  | |- load _ _ = _ => load_step
  | |- slice _ _ _ = _ => slice_step
  end.

Ltac read_head m :=
  let H := fresh in
  eassert (H : m = Ret _) by (eval_read; reflexivity);
  rewrite H; clear H; cbn [mbind outcome_bind]; autorewrite with bytes.

Ltac read_step :=
  lazymatch goal with
  | |- mbind _ ?m = _ => read_head m
  | |- ∃ _, mbind _ ?m = _ => read_head m
  end.

Lemma decodeHeader_layout h len h0 ctx :
  length (attachment_id h) = 16%nat → in_u32 (sequence h) → in_u64 (txn_id h) →
  0 <= len <= kMaxMessageSize →
  decodeHeader (header_layout h len) h0 ctx =
    Ret (OK, mkHeader (type h) (flags h) len (sequence h) (attachment_id h) (txn_id h), ctx).
Proof.
  intros Hatt Hseq Htxn Hlen.
  assert (in_u32 len) by (unfold in_u32, kMaxMessageSize in *; lia).
  assert (in_u32 kProtocolMagic) by done.
  unfold decodeHeader, kHeaderSize. rewrite length_header_layout by done. guard_false.
  unfold header_layout. flat_app.
  read_step. guard_false.
  do 2 read_step. unfold kProtocolMajor, kProtocolMinor, kMaxMessageSize in *. guard_false.
  read_step. guard_false.
  do 5 read_step. done.
Qed.

(** C36: what [encodeMessage] frames, [decodeHeader] reads back: the first forty
    bytes of an encoded message decode to the header with the payload length
    filled in, and the rest is the payload. *)
Theorem encode_decode_roundtrip h payload h0 ctx :
  wf_header h → blen payload <= kMaxMessageSize →
  ∃ msg, encodeMessage h payload = Ret msg ∧
    blen msg = kHeaderSize + blen payload ∧
    drop 40 msg = payload ∧
    decodeHeader (take 40 msg) h0 ctx =
      Ret (OK, mkHeader (type h) (flags h) (blen payload) (sequence h)
                 (attachment_id h) (txn_id h), ctx).
Proof.
  intros (_ & Hseq & Hatt & Htxn) Hlen.
  assert (Hu : u32 (blen payload) = blen payload)
    by (apply Z.mod_small; unfold kMaxMessageSize in *; lia).
  pose proof (length_header_layout h (blen payload) Hatt) as H40.
  rewrite encodeMessage_layout, Hu by done. eexists; split; [done|].
  rewrite length_app, <-H40, drop_app_length, take_app_length.
  split_and!; [unfold kHeaderSize; lia|done|].
  apply decodeHeader_layout; auto; lia.
Qed.

Lemma encode_decode_roundtrip_witness :
  ∃ msg,
    encodeMessage (mkHeader Byte.x03 Byte.x04 0 7 (replicate 16 Byte.x2a) 99) ("SELECT 1" : bytes)
      = Ret msg ∧ blen msg = kHeaderSize + 8 ∧ drop 40 msg = ("SELECT 1" : bytes) ∧
    decodeHeader (take 40 msg) (mkHeader Byte.x00 Byte.x00 0 0 [] 0) None =
      Ret (OK, mkHeader Byte.x03 Byte.x04 8 7 (replicate 16 Byte.x2a) 99, None).
Proof.
  apply (encode_decode_roundtrip (mkHeader Byte.x03 Byte.x04 0 7 (replicate 16 Byte.x2a) 99)
           ("SELECT 1" : bytes) (mkHeader Byte.x00 Byte.x00 0 0 [] 0) None);
  apply (bool_decide_unpack _); vm_compute; exact I.
Defined.

(** Any forty bytes are a header layout up to magic and version. *)
Lemma header_shape hb :
  length hb = 40%nat → ∃ magic major minor h,
    in_u32 magic ∧ wf_header h ∧
    hb = le_bytes 4 magic ++ [major; minor] ++ [type h; flags h] ++
         le_bytes 4 (hlength h) ++ le_bytes 4 (sequence h) ++
         attachment_id h ++ le_bytes 8 (txn_id h).
Proof.
  intros H.
  destruct (cut_list 4 hb 36 H) as (m & r & -> & Hm & Hr).
  destruct (cut_list 4 r 32 Hr) as ([|ma [|mi [|t [|f [|]]]]] & r1 & -> & Hb & Hr1); try done.
  destruct (cut_list 4 r1 28 Hr1) as (l & r2 & -> & Hl & Hr2).
  destruct (cut_list 4 r2 24 Hr2) as (s & r3 & -> & Hs & Hr3).
  destruct (cut_list 16 r3 8 Hr3) as (a & x & -> & Ha & Hx).
  exists (le_val m), ma, mi, (mkHeader t f (le_val l) (le_val s) a (le_val x)).
  unfold wf_header, in_u32, in_u64; cbn [type flags hlength sequence attachment_id txn_id].
  pose proof (le_val_range 4 m Hm). pose proof (le_val_range 4 l Hl).
  pose proof (le_val_range 4 s Hs). pose proof (le_val_range 8 x Hx).
  rewrite <-(le_bytes_of 4 m), <-(le_bytes_of 4 l), <-(le_bytes_of 4 s),
    <-(le_bytes_of 8 x) by done.
  split_and!; first [lia|done].
Qed.

Lemma byte_val_byte_of v b : 0 <= v < 256 → byte_val b = v → b = byte_of v.
Proof. intros ? <-. by rewrite byte_of_val. Qed.

Lemma le_bytes_inj_u32 a b : in_u32 a → in_u32 b → le_bytes 4 a = le_bytes 4 b → a = b.
Proof. intros Ha Hb E. rewrite <-(le_val_u32 a), <-(le_val_u32 b) by done. by rewrite E. Qed.

(** [decodeHeader] is defined on every input; it accepts exactly the
    well-formed layouts of at most [kMaxMessageSize] payload bytes, and leaves
    the header untouched when it refuses. *)
Theorem decodeHeader_spec hb h0 ctx :
  (∃ h, wf_header h ∧ hlength h <= kMaxMessageSize ∧ hb = header_layout h (hlength h) ∧
        decodeHeader hb h0 ctx = Ret (OK, h, ctx)) ∨
  ((∀ h, wf_header h → hlength h <= kMaxMessageSize → hb ≠ header_layout h (hlength h)) ∧
   ∃ msg, decodeHeader hb h0 ctx = Ret (PROTOCOL_VIOLATION, h0, setError ctx msg)).
Proof.
  destruct (decide (length hb = 40%nat)) as [H40|H40]; cycle 1.
  { right. split.
    - intros h (_ & _ & Ha & _) _ ->. by rewrite length_header_layout in H40.
    - unfold decodeHeader, kHeaderSize. guard_true. eauto. }
  destruct (header_shape hb H40) as (magic & ma & mi & h & Hmagic & Hwf & ->).
  pose proof Hwf as (Hlen & Hseq & Hatt & Htxn).
  destruct (decide (magic = kProtocolMagic ∧ ma = byte_of kProtocolMajor ∧
                    mi = byte_of kProtocolMinor ∧ hlength h <= kMaxMessageSize))
    as [(-> & -> & -> & Hmax)|Hbad].
  { left. exists h. split_and!; [done..|].
    change (decodeHeader (header_layout h (hlength h)) h0 ctx = Ret (OK, h, ctx)).
    rewrite decodeHeader_layout by (unfold in_u32 in *; first [done|lia]).
    by destruct h. }
  right. split.
  - intros h' (Hlen' & _) Hmax'. unfold header_layout.
    intros [E1 E]%app_inj_1; [|done]. apply app_inj_1 in E as [[= -> ->] E]; [|done].
    apply app_inj_1 in E as [_ E]; [|done]. apply app_inj_1 in E as [E2 _]; [|done].
    apply le_bytes_inj_u32 in E1; [|done..]. apply le_bytes_inj_u32 in E2; [|done..].
    apply Hbad. split_and!; [done..|lia].
  - unfold decodeHeader, kHeaderSize. rewrite H40. guard_false. flat_app.
    read_step. destruct (Z.eqb_spec magic kProtocolMagic) as [->|]; [cbn [negb]|cbn [negb]; eauto].
    do 2 read_step.
    destruct (negb _ || negb _) eqn:Ev; [eauto|].
    read_step. destruct (Z.ltb_spec kMaxMessageSize (hlength h)); [eauto|].
    destruct Hbad. unfold kProtocolMajor, kProtocolMinor in *.
    split_and!; [done|apply byte_val_byte_of; lia|apply byte_val_byte_of; lia|done].
Qed.
