(* ===== verification/Codec.v ===== *)
(** * Byte codecs: the wire format as an interface

    A [codec A] is an encoder with a decoder that inverts it on the encodable
    values, whatever follows. The message layouts of the protocol are built
    from the combinators below; the builders of the driver are proved to
    produce them, and the parsers of the driver to accept them. *)

From S2P Require Import Prelude.

#[local] Unset Program Cases.

Record codec (A : Type) := mkCodec {
  enc : A → bytes;
  dec_c : bytes → option (A * bytes);
  wf_c : A → Prop;
  wf_c_dec : ∀ x, Decision (wf_c x);
  dec_enc : ∀ x r, wf_c x → dec_c (enc x ++ r) = Some (x, r)
}.
Arguments enc {A} c x.
Arguments dec_c {A} c b.
Arguments wf_c {A} c x.
#[export] Instance wf_c_decision {A} (c : codec A) x : Decision (wf_c c x) := wf_c_dec A c x.
Arguments dec_enc {A} c x r.

(** Take exactly [k] bytes. *)
Definition take_exact (k : nat) (b : bytes) : option (bytes * bytes) :=
  if (length b <? k)%nat then None else Some (take k b, drop k b).

Lemma take_exact_app k m r : length m = k → take_exact k (m ++ r) = Some (m, r).
Proof.
  intros <-. unfold take_exact. rewrite length_app.
  destruct (Nat.ltb_spec (length m + length r) (length m)); [lia|].
  by rewrite take_app_length, drop_app_length.
Qed.

(** Little-endian integers of [k] bytes. *)
Program Definition c_le (k : nat) : codec Z := {|
  enc v := le_bytes k v;
  dec_c b := '(m, r) ← take_exact k b; Some (le_val m, r);
  wf_c v := 0 <= v < 256 ^ Z.of_nat k;
  wf_c_dec v := _
|}.
Next Obligation.
  intros k v r Hv. cbn beta. rewrite take_exact_app by apply length_le_bytes. simpl.
  by rewrite le_val_le_bytes, Z.mod_small.
Qed.

Definition c_u16 : codec Z := c_le 2.
Definition c_u32 : codec Z := c_le 4.
Definition c_u64 : codec Z := c_le 8.

Program Definition c_byte : codec byte := {|
  enc b := [b];
  dec_c b := match b with x :: r => Some (x, r) | [] => None end;
  wf_c _ := True;
  wf_c_dec _ := _
|}.
Next Obligation. done. Qed.

(** Exactly [k] bytes. *)
Program Definition c_fixed (k : nat) : codec bytes := {|
  enc b := b;
  dec_c b := take_exact k b;
  wf_c b := length b = k;
  wf_c_dec b := _
|}.
Next Obligation. intros k b r H. by apply take_exact_app. Qed.

(** [c], then [k] reserved bytes, sent as zero and ignored. *)
Program Definition c_pad {A} (c : codec A) (k : nat) : codec A := {|
  enc x := enc c x ++ zeros (Z.of_nat k);
  dec_c b := '(x, b) ← dec_c c b; '(_, r) ← take_exact k b; Some (x, r);
  wf_c x := wf_c c x;
  wf_c_dec x := _
|}.
Next Obligation.
  intros A c k x r Hx. cbn beta. rewrite <-app_assoc, dec_enc by done. simpl.
  rewrite take_exact_app; [done|]. unfold zeros. rewrite length_replicate. lia.
Qed.

Program Definition c_pair {A B} (c : codec A) (d : codec B) : codec (A * B) := {|
  enc p := enc c p.1 ++ enc d p.2;
  dec_c b := '(x, b) ← dec_c c b; '(y, r) ← dec_c d b; Some ((x, y), r);
  wf_c p := wf_c c p.1 ∧ wf_c d p.2;
  wf_c_dec p := _
|}.
Next Obligation.
  intros A B c d [x y] r [Hx Hy]. cbn beta. rewrite <-app_assoc, dec_enc by done.
  simpl. by rewrite dec_enc.
Qed.

(** A string after its length. *)
Program Definition c_lp : codec bytes := {|
  enc s := le_bytes 4 (u32 (blen s)) ++ s;
  dec_c b := '(n, b) ← dec_c c_u32 b; take_exact (Z.to_nat n) b;
  wf_c s := in_u32 (blen s);
  wf_c_dec s := _
|}.
Next Obligation.
  intros s r Hs. unfold in_u32 in Hs. unfold u32. rewrite Z.mod_small by done.
  rewrite <-app_assoc. change (le_bytes 4 (blen s)) with (enc c_u32 (blen s)).
  rewrite dec_enc by (cbn; lia). simpl. rewrite Nat2Z.id. by apply take_exact_app.
Qed.

(** A nullable value: the length [0xFFFFFFFF] stands for null. *)
Program Definition c_nullable : codec (option bytes) := {|
  enc o := match o with
           | None => le_bytes 4 0xFFFFFFFF
           | Some d => le_bytes 4 (u32 (blen d)) ++ d
           end;
  dec_c b := '(n, b) ← dec_c c_u32 b;
             if n =? 0xFFFFFFFF then Some (None, b)
             else '(d, r) ← take_exact (Z.to_nat n) b; Some (Some d, r);
  wf_c o := match o with None => True | Some d => blen d < 0xFFFFFFFF end;
  wf_c_dec o := match o with None => _ | Some d => _ end
|}.
Next Obligation.
  intros [d|] r Hd; cbn beta iota in Hd |- *.
  - unfold u32. rewrite Z.mod_small by lia.
    rewrite <-app_assoc. change (le_bytes 4 (blen d)) with (enc c_u32 (blen d)).
    rewrite dec_enc by (cbn; lia). cbn [mbind option_bind].
    destruct (Z.eqb_spec (blen d) 4294967295); [lia|].
    rewrite Nat2Z.id, take_exact_app by done. done.
  - change (le_bytes 4 4294967295) with (enc c_u32 4294967295).
    by rewrite dec_enc by (cbn; lia).
Qed.

(** [n] elements in a row. *)
Fixpoint dec_n {A} (c : codec A) (n : nat) (b : bytes) : option (list A * bytes) :=
  match n with
  | O => Some ([], b)
  | S n => '(x, b) ← dec_c c b; '(l, r) ← dec_n c n b; Some (x :: l, r)
  end.

Definition enc_all {A} (c : codec A) (l : list A) : bytes := concat (enc c <$> l).

Lemma enc_all_cons {A} (c : codec A) x l : enc_all c (x :: l) = enc c x ++ enc_all c l.
Proof. done. Qed.

Lemma dec_n_enc_all {A} (c : codec A) l r :
  Forall (wf_c c) l → dec_n c (length l) (enc_all c l ++ r) = Some (l, r).
Proof.
  unfold enc_all. induction 1 as [|x l Hx _ IH]; csimpl; [done|].
  rewrite <-app_assoc, dec_enc by done. simpl. by rewrite IH.
Qed.

(** A list after its element count, the count written by [h]. *)
Program Definition c_list {A} (h : codec Z) (c : codec A) : codec (list A) := {|
  enc l := enc h (blen l) ++ enc_all c l;
  dec_c b := '(n, b) ← dec_c h b; dec_n c (Z.to_nat n) b;
  wf_c l := wf_c h (blen l) ∧ Forall (wf_c c) l;
  wf_c_dec l := _
|}.
Next Obligation.
  intros A h c l r [Hn Hl]. cbn beta. rewrite <-app_assoc, dec_enc by done. simpl.
  rewrite Nat2Z.id. by apply dec_n_enc_all.
Qed.

(** The rest of the message. *)
Definition dec_whole {A} (c : codec A) (b : bytes) : option A :=
  match dec_c c b with Some (x, []) => Some x | _ => None end.

Lemma dec_whole_enc {A} (c : codec A) x : wf_c c x → dec_whole c (enc c x) = Some x.
Proof.
  intros H. unfold dec_whole. rewrite <-(app_nil_r (enc c x)). by rewrite dec_enc.
Qed.

(** Encodings of different values are never prefixes of one another. *)
Lemma enc_inj {A} (c : codec A) x y r s :
  wf_c c x → wf_c c y → enc c x ++ r = enc c y ++ s → x = y ∧ r = s.
Proof.
  intros Hx Hy E. pose proof (dec_enc c x r Hx) as H1.
  rewrite E, dec_enc in H1 by done. by simplify_eq.
Qed.
