(* ===== verification/Scram.v ===== *)
(** * SCRAM-SHA-256, and the texts around it

    Models [base64Encode], [base64Decode], [escapeScram], [generateNonce],
    [scramSaltedPassword], [scramHmac], [scramHash] and [ScramClient] of
    [src/network_client.cpp]. OpenSSL is the interface [Crypto]; what is relied
    on is its [CryptoLaws]. The server of RFC 5802 is the reference the client is
    proved to agree with. *)

From S2P Require Import Prelude.

(** ** OpenSSL

    [encode_block] and [decode_block] are [EVP_EncodeBlock] and
    [EVP_DecodeBlock] ([None]: a negative length); the others return [None] on
    failure. The number of PBKDF2 iterations is passed as an [int]. *)
Class Crypto := {
  encode_block : bytes → bytes;
  decode_block : bytes → option bytes;
  pbkdf2_hmac_sha256 : bytes → bytes → Z → option bytes;
  hmac_sha256 : bytes → bytes → option bytes;
  sha256 : bytes → option bytes
}.

(** ** Base 64 *)

Definition base64Encode `{Crypto} (data : bytes) : bytes :=
  if bool_decide (data = []) then [] else encode_block data.

(** The number of [=] at the end of the input, at most two. *)
Definition padding (input : bytes) : nat :=
  match reverse input with
  | a :: r =>
      if bool_decide (a = "="%byte) then
        match r with b :: _ => if bool_decide (b = "="%byte) then 2 else 1 | [] => 1 end
      else 0
  | [] => 0
  end%nat.

Definition base64Decode `{Crypto} (input : bytes) : bytes :=
  if bool_decide (input = []) then [] else
  match decode_block input with
  | None => []
  | Some out =>
      let final_len := length out in
      take (if (padding input <=? final_len)%nat then final_len - padding input else final_len)%nat out
  end.

(** ** The client *)

Fixpoint escapeScram (value : bytes) : bytes :=
  match value with
  | [] => []
  | c :: r =>
      (if bool_decide (c = "="%byte) then ("=3D" : bytes)
       else if bool_decide (c = ","%byte) then ("=2C" : bytes) else [c]) ++ escapeScram r
  end.

(** [random]: what [RAND_bytes] fills the buffer with, [None] when it fails. *)
Definition generateNonce `{Crypto} (random : option bytes) : bytes :=
  match random with Some buf => base64Encode buf | None => [] end.

Definition scramSaltedPassword `{Crypto} (password salt : bytes) (iterations : Z) : option bytes :=
  pbkdf2_hmac_sha256 password salt (i32 iterations).

Definition scramHmac `{Crypto} (key message : bytes) : option bytes := hmac_sha256 key message.

Definition scramHash `{Crypto} (input : bytes) : option bytes := sha256 input.

Record ScramClient := mkScram {
  client_nonce : bytes;
  client_first_bare : bytes;
  server_signature : bytes
}.

Definition clientFirst `{Crypto} (random : option bytes) (username : bytes) (s : ScramClient)
    : bytes * ScramClient :=
  let nonce := generateNonce random in
  let bare := ("n=" : bytes) ++ escapeScram username ++ (",r=" : bytes) ++ nonce in
  (("n,," : bytes) ++ bare, mkScram nonce bare (server_signature s)).

(** [s.substr(pos, count)]; a count that wrapped is the rest of the text. *)
Definition substr (s : bytes) (pos count : Z) : bytes :=
  take (Z.to_nat (u64 count)) (drop (Z.to_nat pos) s).

Definition xor_byte (a b : byte) : byte := byte_of (Z.lxor (byte_val a) (byte_val b)).

Definition xor_bytes (a b : bytes) : bytes := zip_with xor_byte a b.

(** A value, or the error text. *)
Inductive attempt (A : Type) := Good (a : A) | Bad (error : bytes).
Arguments Good {A}.
Arguments Bad {A}.

#[export] Instance attempt_bind : MBind attempt := λ A B f m,
  match m with Good a => f a | Bad e => Bad e end.

Definition or_error {A} (x : option A) (error : bytes) : attempt A :=
  match x with Some a => Good a | None => Bad error end.

(** What the client reads in the server's first message: nonce, salt and
    iteration count, as texts. *)
Definition split_server_first (server_first : bytes) : option (bytes * bytes * bytes) :=
  if negb (bool_decide (find_sub "r=" server_first = Some O)) then None else
  match find_sub ",s=" server_first, find_sub ",i=" server_first with
  | Some s_pos, Some i_pos =>
      let s_pos := Z.of_nat s_pos in
      let i_pos := Z.of_nat i_pos in
      Some (substr server_first 2 (s_pos - 2),
            substr server_first (s_pos + 3) (i_pos - (s_pos + 3)),
            drop (Z.to_nat (i_pos + 3)) server_first)
  | _, _ => None
  end.

Definition client_key_label : bytes := "Client Key".
Definition server_key_label : bytes := "Server Key".
Arguments client_key_label : simpl never.
Arguments server_key_label : simpl never.

(** The client's final message, and the signature the server must show. *)
Definition handleServerFirst `{Crypto} (password server_first : bytes) (s : ScramClient)
    : attempt (bytes * ScramClient) :=
  '(nonce, salt_b64, iter_str) ← or_error (split_server_first server_first) "Invalid SCRAM server-first";
  if negb (starts_with (client_nonce s) nonce) then Bad "SCRAM nonce mismatch" else
  '(iterations, _) ← or_error (stoul iter_str) "SCRAM invalid iteration count";
  let salt := base64Decode salt_b64 in
  if bool_decide (salt = []) then Bad "SCRAM invalid salt" else
  salted ← or_error (scramSaltedPassword password salt (u32 iterations)) "SCRAM salted password failed";
  client_key ← or_error (scramHmac salted client_key_label) "SCRAM client key failed";
  stored_key ← or_error (scramHash client_key) "SCRAM stored key failed";
  let client_final_without_proof := ("c=biws,r=" : bytes) ++ nonce in
  let auth_message := client_first_bare s ++ ("," : bytes) ++ server_first ++ ("," : bytes) ++
                      client_final_without_proof in
  client_signature ← or_error (scramHmac stored_key auth_message) "SCRAM client signature failed";
  let client_proof := xor_bytes client_key client_signature in
  server_key ← or_error (scramHmac salted server_key_label) "SCRAM server key failed";
  signature ← or_error (scramHmac server_key auth_message) "SCRAM server signature failed";
  Good (client_final_without_proof ++ (",p=" : bytes) ++ base64Encode client_proof,
       mkScram (client_nonce s) (client_first_bare s) signature).

Definition verifyServerFinal `{Crypto} (server_final : bytes) (s : ScramClient) : bool :=
  starts_with "v=" server_final &&
  bool_decide (drop 2 server_final = base64Encode (server_signature s)).

(** ** The server of RFC 5802 *)

(** What it stores for a user. *)
Record Verifier := mkVerifier { v_salt : bytes; v_iterations : Z; v_stored_key : bytes; v_server_key : bytes }.

(** The verifier of a password. *)
Definition enrol `{Crypto} (password salt : bytes) (iterations : Z) : option Verifier :=
  salted ← pbkdf2_hmac_sha256 password salt (i32 iterations);
  client_key ← hmac_sha256 salted client_key_label;
  stored_key ← sha256 client_key;
  server_key ← hmac_sha256 salted server_key_label;
  Some (mkVerifier salt iterations stored_key server_key).

(** Its first message continues the client's nonce. *)
Definition server_first_message `{Crypto} (v : Verifier) (client_nonce server_nonce : bytes) : bytes :=
  ("r=" : bytes) ++ (client_nonce ++ server_nonce) ++ (",s=" : bytes) ++ base64Encode (v_salt v) ++
  (",i=" : bytes) ++ dec (v_iterations v).

(** It recovers the client key from the proof and compares its hash. *)
Definition accept_client_final `{Crypto} (v : Verifier) (bare server_first nonce final : bytes) : bool :=
  let without_proof := ("c=biws,r=" : bytes) ++ nonce in
  let auth_message := bare ++ ("," : bytes) ++ server_first ++ ("," : bytes) ++ without_proof in
  let proof := base64Decode (drop (length without_proof + 3) final) in
  bool_decide (take (length without_proof + 3) final = without_proof ++ (",p=" : bytes)) &&
  match hmac_sha256 (v_stored_key v) auth_message with
  | Some signature => bool_decide (sha256 (xor_bytes proof signature) = Some (v_stored_key v))
  | None => false
  end.

Definition server_final_message `{Crypto} (v : Verifier) (bare server_first nonce : bytes) : option bytes :=
  signature ← hmac_sha256 (v_server_key v)
    (bare ++ ("," : bytes) ++ server_first ++ ("," : bytes) ++ ("c=biws,r=" : bytes) ++ nonce);
  Some (("v=" : bytes) ++ base64Encode signature).

(** ** What is relied on *)

Class CryptoLaws `{Crypto} : Prop := {
  decode_encode_block d : d ≠ [] →
    decode_block (encode_block d) = Some (d ++ zeros (Z.of_nat (padding (encode_block d))));
  encode_block_nonempty d : d ≠ [] → encode_block d ≠ [];
  encode_block_alphabet d : ","%byte ∉ encode_block d;
  length_hmac k m d : hmac_sha256 k m = Some d → length d = 32%nat
}.

Lemma xor_byte_involutive a b : xor_byte (xor_byte a b) b = a.
Proof.
  unfold xor_byte. apply byte_val_inj. rewrite !byte_val_of.
  pose proof (byte_val_range a). pose proof (byte_val_range b).
  rewrite (Z.mod_small (Z.lxor (byte_val a) (byte_val b)) 256).
  - rewrite Z.lxor_assoc, Z.lxor_nilpotent, Z.lxor_0_r. apply Z.mod_small. lia.
  - split; [apply Z.lxor_nonneg; lia|].
    destruct (decide (Z.lxor (byte_val a) (byte_val b) = 0)) as [->|]; [lia|].
    apply Z.log2_lt_cancel. change (Z.log2 256) with 8.
    pose proof (Z.log2_lxor (byte_val a) (byte_val b) ltac:(lia) ltac:(lia)).
    assert (∀ x, 0 <= x < 256 → Z.log2 x < 8) as Hlog.
    { intros x Hx. destruct (decide (x = 0)) as [->|]; [done|]. apply Z.log2_lt_pow2; lia. }
    pose proof (Hlog (byte_val a) ltac:(lia)). pose proof (Hlog (byte_val b) ltac:(lia)). lia.
Qed.

Lemma xor_bytes_involutive a b : length a = length b → xor_bytes (xor_bytes a b) b = a.
Proof.
  revert b. induction a as [|x a IH]; intros [|y b]; cbn; [done..|]. intros [= Hl].
  f_equal; [apply xor_byte_involutive|by apply IH].
Qed.

#[local] Arguments starts_with : simpl never.
#[local] Arguments stoul : simpl never.
#[local] Arguments u32 : simpl never.
#[local] Arguments i32 : simpl never.
#[local] Arguments base64Decode : simpl never.
#[local] Arguments base64Encode : simpl never.
#[local] Arguments xor_bytes : simpl never.
#[local] Arguments split_server_first : simpl never.

Section scram.
Context `{CryptoLaws}.

(** Base 64 text is decoded to what was encoded. *)
Lemma base64_roundtrip d : base64Decode (base64Encode d) = d.
Proof.
  unfold base64Encode. case_bool_decide as Hd; [by subst|]. unfold base64Decode.
  rewrite bool_decide_eq_false_2 by (by apply encode_block_nonempty).
  rewrite decode_encode_block by done. rewrite length_app.
  assert (Hz : length (zeros (Z.of_nat (padding (encode_block d)))) = padding (encode_block d)).
  { unfold zeros. rewrite length_replicate. lia. }
  rewrite Hz. replace (_ <=? _)%nat with true by (symmetry; apply Nat.leb_le; lia).
  replace (length d + _ - _)%nat with (length d) by lia. by rewrite take_app_length.
Qed.

Lemma base64_alphabet d : ","%byte ∉ base64Encode d.
Proof. unfold base64Encode. case_bool_decide; [apply not_elem_of_nil|apply encode_block_alphabet]. Qed.

Lemma client_nonce_alphabet random : ","%byte ∉ generateNonce random.
Proof. destruct random; [apply base64_alphabet|apply not_elem_of_nil]. Qed.

Lemma dec_no_comma z : ","%byte ∉ dec z.
Proof.
  intros Hin. pose proof (dec_digits z) as Hd. rewrite Forall_forall in Hd.
  destruct (Hd _ Hin) as [d Hc]. discriminate Hc.
Qed.

Lemma substr_app (p m r : bytes) pos count :
  pos = blen p → count = blen m → blen m < 2 ^ 64 → substr (p ++ m ++ r) pos count = m.
Proof.
  intros -> -> Hm. unfold substr, u64. rewrite Z.mod_small by lia.
  by rewrite !Nat2Z.id, drop_app_length, take_app_length.
Qed.

(** What the client reads in a well-formed first message. *)
Lemma split_server_first_message v cn sn :
  ","%byte ∉ cn → ","%byte ∉ sn → blen (server_first_message v cn sn) < 2 ^ 64 →
  split_server_first (server_first_message v cn sn) =
    Some (cn ++ sn, base64Encode (v_salt v), dec (v_iterations v)).
Proof.
  intros Hcn Hsn Hlen. set (nonce := cn ++ sn). set (salt := base64Encode (v_salt v)).
  assert (Hn : ","%byte ∉ ("r=" : bytes) ++ nonce).
  { subst nonce. rewrite !not_elem_of_app. split_and!; [by apply (bool_decide_unpack _)|done..]. }
  assert (Hs : ","%byte ∉ (["s"; "="]%byte ++ salt)).
  { rewrite not_elem_of_app. split; [by apply (bool_decide_unpack _)|apply base64_alphabet]. }
  unfold server_first_message in Hlen. rewrite !length_app in Hlen.
  unfold split_server_first, server_first_message. fold nonce salt.
  rewrite (find_sub_here ("r=" : bytes)). rewrite bool_decide_eq_true_2 by done. cbn [negb].
  set (text := ("r=" : bytes) ++ _).
  assert (E1 : find_sub ",s=" text = Some (2 + length nonce)%nat).
  { subst text. rewrite (app_assoc ("r=" : bytes)).
    rewrite (find_sub_app ","%byte ["s"; "="]%byte (("r=" : bytes) ++ nonce)) by done. by rewrite length_app. }
  assert (E2 : find_sub ",i=" text = Some (2 + length nonce + (3 + length salt))%nat).
  { subst text. rewrite (app_assoc ("r=" : bytes)).
    rewrite (find_sub_skip ","%byte ["i"; "="]%byte (("r=" : bytes) ++ nonce)) by done.
    assert (Hskip : ∀ R, find_sub [","; "i"; "="]%byte ([","; "s"; "="]%byte ++ R) =
      S <$> find_sub [","; "i"; "="]%byte (["s"; "="]%byte ++ R)) by reflexivity.
    rewrite Hskip, app_assoc.
    rewrite (find_sub_app ","%byte ["i"; "="]%byte (["s"; "="]%byte ++ salt)) by done.
    cbn [fmap option_fmap option_map]. by rewrite !length_app. }
  rewrite E1, E2. subst text. fold nonce salt in Hlen. rewrite <-length_app in Hlen. fold nonce in Hlen.
  do 3 f_equal.
  - apply (substr_app ("r=" : bytes)); [done|lia|lia].
  - rewrite !(app_assoc _ nonce), (app_assoc _ (",s=" : bytes)).
    apply substr_app; [rewrite !length_app; cbn; lia|lia|lia].
  - rewrite !(app_assoc _ nonce), (app_assoc _ (",s=" : bytes)), (app_assoc _ salt), (app_assoc _ (",i=" : bytes)).
    apply drop_app_length'. rewrite !length_app. cbn. lia.
Qed.
(** The reading of a whole first message, up to the cryptography. *)
Definition keys (password : bytes) (salt : bytes) (iterations : Z) : option (bytes * bytes * bytes) :=
  salted ← pbkdf2_hmac_sha256 password salt (i32 iterations);
  client_key ← hmac_sha256 salted client_key_label;
  stored_key ← sha256 client_key;
  server_key ← hmac_sha256 salted server_key_label;
  Some (client_key, stored_key, server_key).

Lemma enrol_keys password salt iterations :
  enrol password salt iterations =
    '(_, stored_key, server_key) ← keys password salt iterations;
    Some (mkVerifier salt iterations stored_key server_key).
Proof.
  unfold enrol, keys. destruct (pbkdf2_hmac_sha256 _ _ _) as [salted|]; cbn; [|done].
  destruct (hmac_sha256 salted client_key_label) as [ck|]; cbn; [|done]. destruct (sha256 ck); cbn; [|done].
  by destruct (hmac_sha256 salted server_key_label).
Qed.

Definition auth_text (bare server_first nonce : bytes) : bytes :=
  bare ++ ("," : bytes) ++ server_first ++ ("," : bytes) ++ ("c=biws,r=" : bytes) ++ nonce.

(** A first message the client accepts, and what it answers. *)
Lemma handleServerFirst_spec password sf s final s' :
  handleServerFirst password sf s = Good (final, s') ↔
  ∃ nonce salt_b64 iter_str iterations junk ck stored server_key sig1 sig2,
    split_server_first sf = Some (nonce, salt_b64, iter_str) ∧
    starts_with (client_nonce s) nonce = true ∧
    stoul iter_str = Some (iterations, junk) ∧
    base64Decode salt_b64 ≠ [] ∧
    keys password (base64Decode salt_b64) (u32 iterations) = Some (ck, stored, server_key) ∧
    hmac_sha256 stored (auth_text (client_first_bare s) sf nonce) = Some sig1 ∧
    hmac_sha256 server_key (auth_text (client_first_bare s) sf nonce) = Some sig2 ∧
    final = (("c=biws,r=" : bytes) ++ nonce) ++ (",p=" : bytes) ++ base64Encode (xor_bytes ck sig1) ∧
    s' = mkScram (client_nonce s) (client_first_bare s) sig2.
Proof.
  unfold handleServerFirst, keys, or_error, scramSaltedPassword, scramHmac, scramHash, auth_text. split.
  - destruct (split_server_first sf) as [[[nonce salt_b64] iter_str]|]; cbn; [|done].
    destruct (starts_with _ _) eqn:Hn; cbn; [|done].
    destruct (stoul iter_str) as [[it junk]|] eqn:Hit; cbn; [|done].
    case_bool_decide as Hsalt; [done|].
    destruct (pbkdf2_hmac_sha256 _ _ _) as [salted|] eqn:E1; cbn; [|done].
    destruct (hmac_sha256 salted client_key_label) as [ck|] eqn:E2; cbn; [|done].
    destruct (sha256 ck) as [stored|] eqn:E3; cbn; [|done].
    destruct (hmac_sha256 stored _) as [sig1|] eqn:E4; cbn; [|done].
    destruct (hmac_sha256 salted server_key_label) as [sk|] eqn:E5; cbn; [|done].
    destruct (hmac_sha256 sk _) as [sig2|] eqn:E6; cbn; [|done].
    intros [= <- <-]. exists nonce, salt_b64, iter_str, it, junk, ck, stored, sk, sig1, sig2.
    split_and!; try done. rewrite E1. cbn. rewrite E2. cbn. rewrite E3. cbn. by rewrite E5.
  - intros (nonce & salt_b64 & iter_str & it & junk & ck & stored & sk & sig1 & sig2 & Hs & Hn & Hit & Hsalt &
      Hk & H1 & H2 & -> & ->).
    rewrite Hs. cbn. rewrite Hn. cbn. rewrite Hit. cbn. rewrite bool_decide_eq_false_2 by done.
    destruct (pbkdf2_hmac_sha256 _ _ _) as [salted|]; cbn in *; [|done].
    destruct (hmac_sha256 salted client_key_label) as [ck'|]; cbn in *; [|done].
    destruct (sha256 ck') as [stored'|]; cbn in *; [|done].
    destruct (hmac_sha256 salted server_key_label) as [sk'|]; cbn in *; [|done].
    injection Hk as -> -> ->. rewrite H1. cbn. by rewrite H2.
Qed.

Lemma verify_final_true f s :
  verifyServerFinal f s = true ↔ f = ("v=" : bytes) ++ base64Encode (server_signature s).
Proof.
  unfold verifyServerFinal. rewrite andb_true_iff, starts_with_true, bool_decide_eq_true. split.
  - by intros [[r ->] <-].
  - intros ->. split; [by eexists|done].
Qed.

Lemma scram_completes random username password salt iterations v server_nonce s0 :
  (∀ k m, is_Some (hmac_sha256 k m)) →
  enrol password salt iterations = Some v →
  salt ≠ [] → in_u32 iterations → ","%byte ∉ server_nonce →
  let '(_, s1) := clientFirst random username s0 in
  let sf := server_first_message v (client_nonce s1) server_nonce in
  let nonce := client_nonce s1 ++ server_nonce in
  blen sf < 2 ^ 64 →
  ∃ final s2 server_final,
    handleServerFirst password sf s1 = Good (final, s2) ∧
    accept_client_final v (client_first_bare s1) sf nonce final = true ∧
    server_final_message v (client_first_bare s1) sf nonce = Some server_final ∧
    verifyServerFinal server_final s2 = true.
Proof.
  intros Htotal Hv Hsalt Hit Hsn. cbn [clientFirst]. cbn zeta. cbn [client_nonce client_first_bare].
  set (cn := generateNonce random). set (bare := ("n=" : bytes) ++ _). intros Hlen.
  set (sf := server_first_message v cn server_nonce) in *.
  rewrite enrol_keys in Hv.
  destruct (keys password salt iterations) as [[[ck stored] sk]|] eqn:Hk; [|done]. injection Hv as <-.
  destruct (Htotal stored (auth_text bare sf (cn ++ server_nonce))) as [sig1 H1].
  destruct (Htotal sk (auth_text bare sf (cn ++ server_nonce))) as [sig2 H2].
  eexists. exists (mkScram cn bare sig2), (("v=" : bytes) ++ base64Encode sig2). split_and!.
  - apply handleServerFirst_spec.
    exists (cn ++ server_nonce), (base64Encode salt), (dec iterations), iterations, [], ck, stored, sk, sig1, sig2.
    cbn [client_nonce client_first_bare]. rewrite base64_roundtrip. split_and!; try done.
    + apply split_server_first_message; [apply client_nonce_alphabet|done|done].
    + apply starts_with_app.
    + rewrite <-(app_nil_r (dec iterations)). apply stoul_dec; [unfold in_u32 in Hit; lia|done].
    + unfold u32. rewrite Z.mod_small by (unfold in_u32 in Hit; lia). done.
  - unfold accept_client_final. cbn [v_stored_key]. fold (auth_text bare sf (cn ++ server_nonce)). rewrite H1.
    set (wp := ("c=biws,r=" : bytes) ++ cn ++ server_nonce).
    rewrite (app_assoc wp). replace (length wp + 3)%nat with (length (wp ++ (",p=" : bytes))) by (rewrite length_app; done).
    rewrite take_app_length, drop_app_length, base64_roundtrip.
    rewrite bool_decide_eq_true_2 by done. cbn [andb]. apply bool_decide_eq_true.
    unfold keys in Hk. destruct (pbkdf2_hmac_sha256 _ _ _) as [salted|]; cbn in *; [|done].
    destruct (hmac_sha256 salted client_key_label) as [ck'|] eqn:E2; cbn in *; [|done].
    destruct (sha256 ck') as [stored'|] eqn:E3; cbn in *; [|done].
    destruct (hmac_sha256 salted server_key_label); cbn in *; [|done]. injection Hk as -> -> ->.
    rewrite xor_bytes_involutive; [done|].
    by rewrite (length_hmac _ _ _ E2), (length_hmac _ _ _ H1).
  - unfold server_final_message. cbn [v_server_key]. fold (auth_text bare sf (cn ++ server_nonce)). by rewrite H2.
  - by apply verify_final_true.
Qed.

(** SCRAM completes with an honest server: for a user enrolled with this
    password, the client accepts the server's first message, the server accepts
    the client's proof, and the client accepts the server's signature. *)
Theorem scram_mutual_authentication random username password salt iterations v server_nonce s0 :
  (∀ k m, is_Some (hmac_sha256 k m)) →
  enrol password salt iterations = Some v →
  salt ≠ [] → in_u32 iterations → ","%byte ∉ server_nonce →
  let '(_, s1) := clientFirst random username s0 in
  let sf := server_first_message v (client_nonce s1) server_nonce in
  let nonce := client_nonce s1 ++ server_nonce in
  blen sf < 2 ^ 64 →
  ∃ final s2 server_final,
    handleServerFirst password sf s1 = Good (final, s2) ∧
    accept_client_final v (client_first_bare s1) sf nonce final = true ∧
    server_final_message v (client_first_bare s1) sf nonce = Some server_final ∧
    verifyServerFinal server_final s2 = true.
Proof. apply scram_completes. Qed.

End scram.

(** ** An instance: two letters per byte, and transparent keys *)

Definition letter (n : Z) : byte := byte_of (97 + n).

Fixpoint letters (d : bytes) : bytes :=
  match d with
  | [] => []
  | b :: d => letter (byte_val b / 16) :: letter (byte_val b mod 16) :: letters d
  end.

Fixpoint unletters (t : bytes) : bytes :=
  match t with
  | a :: b :: t => byte_of ((byte_val a - 97) * 16 + (byte_val b - 97)) :: unletters t
  | _ => []
  end.

Definition letter_crypto : Crypto := {|
  encode_block := letters;
  decode_block t := Some (unletters t);
  pbkdf2_hmac_sha256 p s i := Some (p ++ s);
  hmac_sha256 k m := Some (take 32 (k ++ m ++ zeros 32));
  sha256 d := Some (reverse d)
|}.

Lemma letter_val n : 0 <= n < 16 → byte_val (letter n) = 97 + n.
Proof. intros. unfold letter. rewrite byte_val_of. apply Z.mod_small. lia. Qed.

Lemma nibbles b : 0 <= byte_val b / 16 < 16 ∧ 0 <= byte_val b mod 16 < 16.
Proof. pose proof (byte_val_range b). Z.div_mod_to_equations; lia. Qed.

Lemma unletters_letters d : unletters (letters d) = d.
Proof.
  induction d as [|b d IH]; [done|]. cbn [letters unletters]. rewrite IH. f_equal.
  destruct (nibbles b). rewrite !letter_val by done. rewrite <-(byte_of_val b) at 3. f_equal.
  pose proof (Z.div_mod (byte_val b) 16). lia.
Qed.

Lemma letters_range d : Forall (λ c, 97 <= byte_val c < 113) (letters d).
Proof.
  induction d as [|b d IH]; [done|]. cbn [letters]. destruct (nibbles b).
  repeat constructor; try done; rewrite letter_val by done; lia.
Qed.

Lemma letters_padding d : padding (letters d) = O.
Proof.
  unfold padding. pose proof (letters_range d) as H. rewrite <-Forall_reverse in H.
  destruct (reverse (letters d)) as [|a r]; [done|]. apply Forall_cons in H as [Ha _].
  rewrite bool_decide_eq_false_2; [done|]. intros ->. cbn in Ha. lia.
Qed.

Lemma letter_crypto_laws : @CryptoLaws letter_crypto.
Proof.
  split.
  - intros d _. cbn. rewrite letters_padding, unletters_letters. cbn. by rewrite app_nil_r.
  - intros [|b d] Hd; done.
  - intros d Hin. pose proof (letters_range d) as H. rewrite Forall_forall in H. apply H in Hin. cbn in Hin. lia.
  - intros k m d [= <-]. rewrite length_take, !length_app. unfold zeros. rewrite length_replicate. lia.
Qed.

Lemma scram_mutual_authentication_witness :
  let v := @mkVerifier "salt" 4096 (reverse (take 32 (("pw" ++ "salt" : bytes) ++ client_key_label ++ zeros 32)))
             (take 32 (("pw" ++ "salt" : bytes) ++ server_key_label ++ zeros 32)) in
  @enrol letter_crypto "pw" "salt" 4096 = Some v ∧
  let '(_, s1) := @clientFirst letter_crypto (Some ("nonce-bytes-123456" : bytes)) "a,b=c" (mkScram [] [] []) in
  let sf := @server_first_message letter_crypto v (client_nonce s1) "more" in
  ∃ final s2 server_final,
    @handleServerFirst letter_crypto "pw" sf s1 = Good (final, s2) ∧
    @accept_client_final letter_crypto v (client_first_bare s1) sf (client_nonce s1 ++ "more") final = true ∧
    @server_final_message letter_crypto v (client_first_bare s1) sf (client_nonce s1 ++ "more") = Some server_final ∧
    @verifyServerFinal letter_crypto server_final s2 = true.
Proof.
  intros v. assert (Hv : @enrol letter_crypto "pw" "salt" 4096 = Some v) by (vm_compute; reflexivity).
  split; [exact Hv|].
  apply (@scram_mutual_authentication letter_crypto letter_crypto_laws (Some ("nonce-bytes-123456" : bytes)) "a,b=c"
    "pw" "salt" 4096 v "more" (mkScram [] [] [])).
  - intros k m. eexists. reflexivity.
  - exact Hv.
  - discriminate.
  - by_evaluation.
  - by_evaluation.
  - vm_compute. reflexivity.
Defined.

