(* ===== verification/Identifiers.v ===== *)
(** * Identifier quoting and the bulk-insert statement

    Models [trim_ascii], [quote_identifier_component],
    [append_quoted_identifier_path] and [build_bulk_insert_sql] of
    [src/pool.cpp], and proves that the SQL they build reads back as the
    identifiers given: no name, whatever it contains, changes the statement. *)

From S2P Require Import Prelude.

(** ** Quoting by doubling, and its reader *)

Definition dquote : byte := Byte.x22.
Definition squote : byte := Byte.x27.

(** Copy a text, doubling every [q]. *)
Fixpoint double_char (q : byte) (s : bytes) : bytes :=
  match s with
  | [] => []
  | ch :: r =>
      if bool_decide (ch = q) then q :: ch :: double_char q r else ch :: double_char q r
  end.

Definition quote_with (q : byte) (s : bytes) : bytes := q :: double_char q s ++ [q].

(** The SQL reading of a quoted text, after its opening quote: the contents
    and what follows. *)
Fixpoint read_body (q : byte) (s : bytes) : option (bytes * bytes) :=
  match s with
  | [] => None
  | b :: r =>
      if bool_decide (b = q) then
        match r with
        | b' :: r' =>
            if bool_decide (b' = q)
            then '(t, rest) ← read_body q r'; Some (q :: t, rest)
            else Some ([], r)
        | [] => Some ([], [])
        end
      else '(t, rest) ← read_body q r; Some (b :: t, rest)
  end.

Definition read_quoted (q : byte) (s : bytes) : option (bytes * bytes) :=
  match s with
  | b :: r => if bool_decide (b = q) then read_body q r else None
  | [] => None
  end.

Definition starts_not (q : byte) (s : bytes) : Prop := head s ≠ Some q.

Lemma read_body_double q s rest :
  starts_not q rest → read_body q (double_char q s ++ q :: rest) = Some (s, rest).
Proof.
  intros Hr. induction s as [|b s IH]; cbn [double_char app read_body].
  - rewrite bool_decide_eq_true_2 by done. destruct rest as [|b r]; [done|].
    rewrite bool_decide_eq_false_2; [done|]. unfold starts_not in Hr. cbn in Hr. congruence.
  - destruct (decide (b = q)) as [->|Hb].
    + rewrite (bool_decide_eq_true_2 (q = q)) by done. cbn [app read_body].
      rewrite (bool_decide_eq_true_2 (q = q)) by done. by rewrite IH.
    + rewrite (bool_decide_eq_false_2 (b = q)) by done. cbn [app read_body].
      rewrite (bool_decide_eq_false_2 (b = q)) by done. by rewrite IH.
Qed.

Lemma read_quote_with q s rest :
  starts_not q rest → read_quoted q (quote_with q s ++ rest) = Some (s, rest).
Proof.
  intros Hr. unfold quote_with, read_quoted. cbn [app]. rewrite bool_decide_eq_true_2 by done.
  rewrite <-app_assoc. by apply read_body_double.
Qed.

(** ** The source *)

Definition trim_ascii (value : bytes) : bytes := trim_with isspace value.

Definition quote_identifier_component (component : bytes) : bytes := quote_with dquote component.

(** The tokens [std::getline] extracts from a string stream: a delimiter at the
    very end does not start another token. *)
Definition getline_tokens (c : byte) (s : bytes) : list bytes :=
  let ps := split_on c s in
  if bool_decide (last ps = Some []) then removelast ps else ps.

(** The [while] loop over the tokens; the result, [*out], and the error. *)
Fixpoint quoted_path_loop (tokens : list bytes) (first : bool) (out : bytes)
    : bool * bytes * option bytes :=
  match tokens with
  | [] =>
      if first then (false, out, Some ("Identifier is empty" : bytes)) else (true, out, None)
  | token :: tokens =>
      let token := trim_ascii token in
      if bool_decide (token = [])
      then (false, out, Some ("Identifier contains empty path segment" : bytes))
      else
        let out := if first then out else out ++ ["."%byte] in
        quoted_path_loop tokens false (out ++ quote_identifier_component token)
  end.

Definition append_quoted_identifier_path (identifier out : bytes) : bool * bytes * option bytes :=
  quoted_path_loop (getline_tokens "."%byte identifier) true out.

(** The loop over the columns: the quoted columns, or the error. *)
Fixpoint quoted_columns_loop (columns : list (option bytes)) : list bytes + bytes :=
  match columns with
  | [] => inl []
  | None :: _ => inr ("Column name is required" : bytes)
  | Some c :: columns =>
      let column := trim_ascii c in
      if bool_decide (column = []) then inr ("Column name is required" : bytes)
      else
        match append_quoted_identifier_path column [] with
        | (true, q, _) =>
            match quoted_columns_loop columns with
            | inl qs => inl (q :: qs)
            | inr e => inr e
            end
        | (false, _, e) => inr (default [] e)
        end
  end.

(** Elements after the first are preceded by a comma and a space. *)
Definition comma_list (ps : list bytes) : bytes := join_with ", " ps.

Definition placeholders (n : nat) : list bytes :=
  (λ i, "$"%byte :: dec (Z.of_nat i + 1)) <$> seq 0 n.

(** [columns] of length [column_count]; a null array is [None]. *)
Definition build_bulk_insert_sql (table_name : option bytes)
    (columns : option (list (option bytes))) : bytes + bytes :=
  match table_name with
  | None => inr ("table_name is required" : bytes)
  | Some t =>
      let table := trim_ascii t in
      if bool_decide (table = []) then inr ("table_name is required" : bytes) else
      match columns with
      | None | Some [] => inr ("At least one column is required" : bytes)
      | Some columns =>
          match append_quoted_identifier_path table [] with
          | (false, _, e) => inr (default [] e)
          | (true, quoted_table, _) =>
              match quoted_columns_loop columns with
              | inr e => inr e
              | inl quoted_columns =>
                  inl (("INSERT INTO " : bytes) ++ quoted_table ++ (" (" : bytes) ++
                       comma_list quoted_columns ++ (") VALUES (" : bytes) ++
                       comma_list (placeholders (length columns)) ++ (")" : bytes))
              end
          end
      end
  end.

(** ** A reader of the statement *)

Definition strip_prefix (p s : bytes) : option bytes :=
  if starts_with p s then Some (drop (length p) s) else None.

(** Quoted components separated by dots. *)
Fixpoint read_path (fuel : nat) (s : bytes) : option (list bytes * bytes) :=
  match fuel with
  | O => None
  | S fuel =>
      '(t, rest) ← read_quoted dquote s;
      match rest with
      | "."%byte :: rest => '(ts, rest) ← read_path fuel rest; Some (t :: ts, rest)
      | _ => Some ([t], rest)
      end
  end.

(** Paths separated by commas. *)
Fixpoint read_paths (fuel : nat) (s : bytes) : option (list (list bytes) * bytes) :=
  match fuel with
  | O => None
  | S fuel =>
      '(p, rest) ← read_path (length s) s;
      match strip_prefix ", " rest with
      | Some rest => '(ps, rest) ← read_paths fuel rest; Some (p :: ps, rest)
      | None => Some ([p], rest)
      end
  end.

(** Table, columns, and the text of the values. *)
Definition read_insert (s : bytes) : option (list bytes * list (list bytes) * bytes) :=
  s ← strip_prefix "INSERT INTO " s;
  '(table, s) ← read_path (length s) s;
  s ← strip_prefix " (" s;
  '(columns, s) ← read_paths (length s) s;
  s ← strip_prefix ") VALUES (" s;
  Some (table, columns, s).

(** ** Reading back *)

Definition path_text (ts : list bytes) : bytes := join_with "." (quote_identifier_component <$> ts).

(** A list of trimmed, non-empty components. *)
Definition path_of (identifier : bytes) : list bytes :=
  trim_ascii <$> getline_tokens "."%byte identifier.

Lemma length_join sep l :
  Forall (λ p, p ≠ []) l → (length l <= length (join_with sep l))%nat.
Proof.
  induction 1 as [|p l Hp _ IH]; [cbn; lia|]. destruct p as [|b p]; [done|].
  destruct l as [|q l]; [cbn; lia|]. rewrite join_cons by done.
  rewrite !length_app. cbn [length] in *. lia.
Qed.

Lemma quoted_path_loop_false tokens : ∀ out out' e,
  quoted_path_loop tokens false out = (true, out', e) →
  Forall (λ t, trim_ascii t ≠ []) tokens ∧
  out' = out ++ concat ((λ t, "."%byte :: quote_identifier_component t) <$> (trim_ascii <$> tokens)).
Proof.
  induction tokens as [|t ts IH]; intros out out' e; cbn [quoted_path_loop].
  { intros [= <-]. split; [constructor|]. cbn. by rewrite app_nil_r. }
  case_bool_decide as Ht; [done|]. intros (Hall & ->)%IH. split; [by constructor|].
  rewrite !fmap_cons, concat_cons. by rewrite <-!app_assoc.
Qed.

Lemma path_text_concat t ts :
  path_text (t :: ts) =
    quote_identifier_component t ++ concat ((λ t, "."%byte :: quote_identifier_component t) <$> ts).
Proof.
  unfold path_text. revert t. induction ts as [|u ts IH]; intros t.
  { cbn [fmap list_fmap join_with concat]. by rewrite app_nil_r. }
  rewrite fmap_cons, join_cons, IH by done. by rewrite fmap_cons, concat_cons.
Qed.

Lemma path_text_cons t ts :
  ts ≠ [] → path_text (t :: ts) = quote_identifier_component t ++ "."%byte :: path_text ts.
Proof. intros H. unfold path_text. rewrite fmap_cons, join_cons; [done|by destruct ts]. Qed.

Lemma append_path_ok identifier out e :
  append_quoted_identifier_path identifier [] = (true, out, e) →
  path_of identifier ≠ [] ∧ Forall (λ t, t ≠ []) (path_of identifier) ∧
  out = path_text (path_of identifier).
Proof.
  unfold append_quoted_identifier_path, path_of.
  destruct (getline_tokens _ identifier) as [|t ts]; cbn [quoted_path_loop]; [done|].
  case_bool_decide as Ht; [done|]. intros (Hall & ->)%quoted_path_loop_false.
  split; [done|]. split; [|by rewrite fmap_cons, path_text_concat].
  constructor; [done|]. by apply Forall_fmap.
Qed.

Lemma quote_nonempty t : quote_identifier_component t ≠ [].
Proof. done. Qed.

Lemma read_path_stop t rest fuel :
  starts_not "."%byte rest →
  match rest with
  | "."%byte :: rest => '(ts, rest) ← read_path fuel rest; Some (t :: ts, rest)
  | _ => Some ([t], rest)
  end = Some ([t], rest).
Proof. intros H. destruct rest as [|b r]; [done|]. by destruct b. Qed.

Lemma read_path_text ts : ∀ fuel rest,
  ts ≠ [] → (length ts <= fuel)%nat → starts_not dquote rest → starts_not "."%byte rest →
  read_path fuel (path_text ts ++ rest) = Some (ts, rest).
Proof.
  induction ts as [|t ts IH]; intros fuel rest Hne Hf Hq Hd; [done|].
  destruct fuel as [|fuel]; [cbn in Hf; lia|]. cbn [read_path].
  destruct ts as [|u ts].
  - unfold path_text. cbn [fmap list_fmap join_with]. unfold quote_identifier_component.
    rewrite read_quote_with by done. cbn [mbind option_bind]. by apply read_path_stop.
  - rewrite path_text_cons, <-app_assoc by done.
    unfold quote_identifier_component. rewrite read_quote_with by done.
    cbn [mbind option_bind app]. rewrite IH by (first [done | cbn in *; lia]). done.
Qed.

Lemma strip_prefix_app p s : strip_prefix p (p ++ s) = Some s.
Proof.
  unfold strip_prefix, starts_with. rewrite take_app_length, bool_decide_eq_true_2 by done.
  by rewrite drop_app_length.
Qed.

Lemma length_path_text ts : (length ts <= length (path_text ts))%nat.
Proof.
  unfold path_text. rewrite <-(length_fmap quote_identifier_component ts).
  apply length_join, Forall_fmap, Forall_true. intros t. apply quote_nonempty.
Qed.

Lemma path_text_nonempty ts : ts ≠ [] → path_text ts ≠ [].
Proof. destruct ts; [done|]. by rewrite path_text_concat. Qed.

(** A text after which a list of paths ends. *)
Definition stops (rest : bytes) : Prop :=
  starts_not dquote rest ∧ starts_not "."%byte rest ∧ starts_not ","%byte rest.

Lemma stops_strip rest : stops rest → strip_prefix ", " rest = None.
Proof.
  intros (_ & _ & H). unfold strip_prefix, starts_with. rewrite bool_decide_eq_false_2; [done|].
  destruct rest as [|b rest]; [done|]. cbn. intros [= -> _]. by apply H.
Qed.

Lemma read_paths_text ps : ∀ fuel rest,
  ps ≠ [] → Forall (λ p, p ≠ []) ps → (length ps <= fuel)%nat → stops rest →
  read_paths fuel (comma_list (path_text <$> ps) ++ rest) = Some (ps, rest).
Proof.
  unfold comma_list. induction ps as [|p ps IH]; intros fuel rest Hne Hall Hf Hr; [done|].
  apply Forall_cons in Hall as [Hp Hall].
  destruct fuel as [|fuel]; [cbn in Hf; lia|]. cbn [read_paths].
  pose proof (length_path_text p) as Hlp.
  destruct ps as [|q ps].
  - cbn [fmap list_fmap join_with].
    rewrite read_path_text; [|done|rewrite length_app; lia|apply Hr|apply Hr].
    cbn [mbind option_bind]. by rewrite stops_strip.
  - rewrite fmap_cons, join_cons, <-!app_assoc by done.
    rewrite read_path_text; [|done| |done|done].
    + cbn [mbind option_bind]. rewrite strip_prefix_app, IH by (first [done | cbn in *; lia]). done.
    + rewrite length_app. lia.
Qed.

Lemma quoted_columns_ok columns : ∀ qs,
  quoted_columns_loop columns = inl qs →
  ∃ cs, columns = Some <$> cs ∧ qs = path_text <$> (path_of ∘ trim_ascii <$> cs) ∧
    Forall (λ p, p ≠ []) (path_of ∘ trim_ascii <$> cs).
Proof.
  induction columns as [|[c|] columns IH]; intros qs; cbn [quoted_columns_loop]; [|..|done].
  { intros [= <-]. by exists []. }
  case_bool_decide as Hc; [done|].
  destruct (append_quoted_identifier_path _ _) as [[[] q] e] eqn:Ea; [|done].
  destruct (quoted_columns_loop columns) as [qs'|] eqn:Eq; [|done]. intros [= <-].
  destruct (IH qs' eq_refl) as (cs & -> & -> & Hall).
  apply append_path_ok in Ea as (Hne & _ & ->).
  exists (c :: cs). split_and!; [done|done|]. by constructor.
Qed.

(** C38: the bulk-insert statement is injection-proof: when the builder succeeds
    its text, read by the SQL rules for quoted identifiers, is an insertion
    into exactly the given table path and columns with one numbered
    placeholder per column. *)
Theorem bulk_insert_sql_reads_back t columns sql :
  build_bulk_insert_sql (Some t) (Some columns) = inl sql →
  ∃ cs, columns = Some <$> cs ∧
    read_insert sql =
      Some (path_of (trim_ascii t), path_of ∘ trim_ascii <$> cs,
            comma_list (placeholders (length columns)) ++ (")" : bytes)) ∧
    Forall (λ c, c ≠ []) (path_of (trim_ascii t)).
Proof.
  unfold build_bulk_insert_sql. case_bool_decide as Ht; [done|].
  destruct columns as [|c0 columns']; [done|]. set (columns := c0 :: columns').
  destruct (append_quoted_identifier_path _ _) as [[[] q] e] eqn:Ea; [|done].
  destruct (quoted_columns_loop columns) as [qs|] eqn:Eq; [|done].
  intros Hsql. apply (inj inl) in Hsql. subst sql.
  apply append_path_ok in Ea as (Hne & Hall & ->).
  apply quoted_columns_ok in Eq as (cs & Hcs & -> & Hps). exists cs. split; [done|].
  split; [|done]. unfold read_insert.
  rewrite strip_prefix_app. cbn [mbind option_bind].
  rewrite read_path_text; [|done|pose proof (length_path_text (path_of (trim_ascii t)));
    rewrite length_app; lia|done|done].
  cbn [mbind option_bind]. rewrite strip_prefix_app. cbn [mbind option_bind].
  rewrite read_paths_text; [|by destruct cs|done| |done].
  - cbn [mbind option_bind]. by rewrite strip_prefix_app.
  - rewrite length_app. unfold comma_list.
    rewrite <-(length_fmap path_text (path_of ∘ trim_ascii <$> cs)).
    pose proof (length_join ", " (path_text <$> (path_of ∘ trim_ascii <$> cs))) as Hl.
    enough (Forall (λ p, p ≠ []) (path_text <$> (path_of ∘ trim_ascii <$> cs))) by (specialize (Hl H); lia).
    apply Forall_fmap. eapply Forall_impl; [exact Hps|]. intros p. apply path_text_nonempty.
Qed.

Lemma bulk_insert_sql_reads_back_witness :
  let cols := [Some ("id" : bytes); Some ([Byte.x22; "x"%byte] : bytes)] in
  ∃ sql, build_bulk_insert_sql (Some (" app.users " : bytes)) (Some cols) = inl sql ∧
    ∃ cs, cols = Some <$> cs ∧ read_insert sql = Some ([("app" : bytes); ("users" : bytes)],
      [[("id" : bytes)]; [[Byte.x22; "x"%byte]]], ("$1, $2)" : bytes)).
Proof.
  intros cols. eexists. split; [reflexivity|].
  destruct (bulk_insert_sql_reads_back (" app.users " : bytes) cols _ eq_refl) as (cs & H & Hr & _).
  exists cs. split; [exact H|]. rewrite Hr.
  replace cs with [("id" : bytes); [Byte.x22; "x"%byte]].
  - vm_compute. reflexivity.
  - apply (inj (fmap Some)). exact H.
Defined.
