(* ===== verification/WireBuild.v ===== *)
(** * SBWP wire protocol: payload builders

    Models the request builders of [src/protocol/sbwp_protocol.cpp]. Every
    builder sizes a zeroed buffer and fills it through offsets; a store outside
    the buffer is undefined behaviour. The theorems show that no builder
    does one, and give the byte layout each of them produces. *)

From S2P Require Import Prelude.
From S2P Require Import Wire.
From S2P Require Import Codec.

(** ** Payloads *)

Record ParamValue := mkParam {
  pformat : Z;
  pdata : bytes;
  is_null : bool;
  ptype_oid : Z
}.

Definition buildStartupPayload (features : Z) (params : gmap bytes bytes) : outcome bytes :=
  let param_bytes := buildParamList params in
  let payload := zeros (2 + 2 + 8 + blen param_bytes) in
  payload ← store payload 0 (byte_of kProtocolMajor);
  payload ← store payload 1 (byte_of kProtocolMinor);
  payload ← writeU16 payload 2 0;
  payload ← writeU64 payload 4 features;
  if bool_decide (param_bytes = []) then Ret payload
  else copy_into payload 12 param_bytes.

Definition buildQueryPayload (query : bytes) (flags max_rows timeout_ms : Z) : outcome bytes :=
  let query_bytes := query ++ [Byte.x00] in
  let payload := zeros (4 + 4 + 4 + blen query_bytes) in
  payload ← writeU32 payload 0 flags;
  payload ← writeU32 payload 4 max_rows;
  payload ← writeU32 payload 8 timeout_ms;
  copy_into payload 12 query_bytes.

(** [if (!src.empty()) { memcpy(payload.data() + offset, ...); offset += src.size(); }] *)
Definition copy_advance (st : bytes * Z) (src : bytes) : outcome (bytes * Z) :=
  let '(payload, offset) := st in
  if bool_decide (src = []) then Ret (payload, offset)
  else payload ← copy_into payload offset src; Ret (payload, offset + blen src).

(** [writeU32(payload, offset, v); offset += 4;] *)
Definition u32_advance (st : bytes * Z) (v : Z) : outcome (bytes * Z) :=
  let '(payload, offset) := st in
  payload ← writeU32 payload offset v; Ret (payload, offset + 4).

(** [writeU16(payload, offset, v); offset += 2;] *)
Definition u16_advance (st : bytes * Z) (v : Z) : outcome (bytes * Z) :=
  let '(payload, offset) := st in
  payload ← writeU16 payload offset v; Ret (payload, offset + 2).

Definition buildParsePayload (statement_name query : bytes) (param_types : list Z)
    : outcome bytes :=
  let payload_len :=
    4 + blen statement_name + 4 + blen query + 2 + 2 + blen param_types * 4 in
  let payload := zeros payload_len in
  st ← u32_advance (payload, 0) (u32 (blen statement_name));
  st ← copy_advance st statement_name;
  st ← u32_advance st (u32 (blen query));
  st ← copy_advance st query;
  st ← u16_advance st (u16 (blen param_types));
  st ← u16_advance st 0;
  st ← foldM u32_advance st param_types;
  Ret (fst st).

(** One parameter of the bind and SBLR loops. *)
Definition param_advance (st : bytes * Z) (param : ParamValue) : outcome (bytes * Z) :=
  if is_null param then u32_advance st 0xFFFFFFFF
  else
    st ← u32_advance st (u32 (blen (pdata param)));
    copy_advance st (pdata param).

(** The length loop: [payload_len += 4], plus the data of a non-null value. *)
Definition params_len (params : list ParamValue) : Z :=
  foldl (λ len p, (len + 4) + (if is_null p then 0 else blen (pdata p))) 0 params.

Definition buildBindPayload (portal_name statement_name : bytes)
    (params : list ParamValue) (result_formats : list Z) : outcome bytes :=
  let param_formats := pformat <$> params in
  let payload_len := 4 + blen portal_name + 4 + blen statement_name in
  let payload_len := payload_len + (2 + blen param_formats * 2) in
  let payload_len := payload_len + (2 + 2) in
  let payload_len := payload_len + params_len params in
  let payload_len := payload_len + (2 + blen result_formats * 2) in
  let payload := zeros payload_len in
  st ← u32_advance (payload, 0) (u32 (blen portal_name));
  st ← copy_advance st portal_name;
  st ← u32_advance st (u32 (blen statement_name));
  st ← copy_advance st statement_name;
  st ← u16_advance st (u16 (blen param_formats));
  st ← foldM u16_advance st param_formats;
  st ← u16_advance st (u16 (blen params));
  st ← u16_advance st 0;
  st ← foldM param_advance st params;
  st ← u16_advance st (u16 (blen result_formats));
  st ← foldM u16_advance st result_formats;
  Ret (fst st).

Definition buildDescribePayload (describe_type : byte) (name : bytes) : outcome bytes :=
  let payload := zeros (4 + 4 + blen name) in
  payload ← store payload 0 describe_type;
  payload ← writeU32 payload 4 (u32 (blen name));
  if bool_decide (name = []) then Ret payload else copy_into payload 8 name.

Definition buildExecutePayload (portal_name : bytes) (max_rows : Z) : outcome bytes :=
  let payload := zeros (4 + blen portal_name + 4) in
  payload ← writeU32 payload 0 (u32 (blen portal_name));
  payload ← (if bool_decide (portal_name = []) then Ret payload
             else copy_into payload 4 portal_name);
  writeU32 payload (4 + blen portal_name) max_rows.

Definition buildSblrExecutePayload (sblr_hash : Z) (bytecode : bytes)
    (params : list ParamValue) : outcome bytes :=
  let payload_len := 8 + 4 + 2 + 2 + blen bytecode + params_len params in
  let payload := zeros payload_len in
  payload ← writeU64 payload 0 sblr_hash;
  st ← u32_advance (payload, 8) (u32 (blen bytecode));
  st ← u16_advance st (u16 (blen params));
  st ← u16_advance st 0;
  st ← copy_advance st bytecode;
  st ← foldM param_advance st params;
  Ret (fst st).

Definition buildSubscribePayload (subscribe_type : byte) (channel filter : bytes)
    : outcome bytes :=
  let payload := zeros (4 + 4 + blen channel + 4 + blen filter) in
  payload ← store payload 0 subscribe_type;
  st ← u32_advance (payload, 4) (u32 (blen channel));
  st ← copy_advance st channel;
  st ← u32_advance st (u32 (blen filter));
  let '(payload, offset) := st in
  if bool_decide (filter = []) then Ret payload else copy_into payload offset filter.

Definition buildUnsubscribePayload (channel : bytes) : outcome bytes :=
  let payload := zeros (4 + blen channel) in
  payload ← writeU32 payload 0 (u32 (blen channel));
  if bool_decide (channel = []) then Ret payload else copy_into payload 4 channel.

Definition kTxnFlagHasReadCommittedMode : Z := 0x0100.

Definition buildTxnBeginPayload (flags : Z)
    (conflict_action autocommit_mode isolation_level access_mode deferrable wait_mode : byte)
    (timeout_ms : Z) (read_committed_mode : byte) : outcome bytes :=
  let has_read_committed_mode := negb (Z.land flags kTxnFlagHasReadCommittedMode =? 0) in
  let payload := zeros (if has_read_committed_mode then 16 else 12) in
  payload ← writeU16 payload 0 flags;
  payload ← store payload 2 conflict_action;
  payload ← store payload 3 autocommit_mode;
  payload ← store payload 4 isolation_level;
  payload ← store payload 5 access_mode;
  payload ← store payload 6 deferrable;
  payload ← store payload 7 wait_mode;
  payload ← writeU32 payload 8 timeout_ms;
  if has_read_committed_mode then store payload 12 read_committed_mode else Ret payload.

Definition buildTxnCommitPayload (flags : byte) : outcome bytes := store (zeros 4) 0 flags.

Definition buildTxnRollbackPayload (flags : byte) : outcome bytes := store (zeros 4) 0 flags.

Definition buildTxnSavepointPayload (name : bytes) : outcome bytes :=
  let payload := zeros (4 + blen name) in
  payload ← writeU32 payload 0 (u32 (blen name));
  if bool_decide (name = []) then Ret payload else copy_into payload 4 name.

Definition buildTxnReleasePayload (name : bytes) : outcome bytes :=
  buildTxnSavepointPayload name.

Definition buildTxnRollbackToPayload (name : bytes) : outcome bytes :=
  buildTxnSavepointPayload name.

(** The two-string payload of [buildSetOptionPayload] and
    [buildAttachCreatePayload]: the same statements in both functions. *)
Definition buildSetOptionPayload (name value : bytes) : outcome bytes :=
  let payload := zeros (4 + blen name + 4 + blen value) in
  payload ← writeU32 payload 0 (u32 (blen name));
  payload ← (if bool_decide (name = []) then Ret payload else copy_into payload 4 name);
  let offset := 4 + blen name in
  payload ← writeU32 payload offset (u32 (blen value));
  let offset := offset + 4 in
  if bool_decide (value = []) then Ret payload else copy_into payload offset value.

Definition buildStreamControlPayload (control_type : byte) (window_size timeout_ms : Z)
    : outcome bytes :=
  let payload := zeros 12 in
  payload ← store payload 0 control_type;
  payload ← writeU32 payload 4 window_size;
  writeU32 payload 8 timeout_ms.

Definition buildAttachCreatePayload (mode db_name : bytes) : outcome bytes :=
  let payload := zeros (4 + blen mode + 4 + blen db_name) in
  payload ← writeU32 payload 0 (u32 (blen mode));
  payload ← (if bool_decide (mode = []) then Ret payload else copy_into payload 4 mode);
  let offset := 4 + blen mode in
  payload ← writeU32 payload offset (u32 (blen db_name));
  let offset := offset + 4 in
  if bool_decide (db_name = []) then Ret payload else copy_into payload offset db_name.

Definition buildAttachDetachPayload : bytes := [].
Definition buildAttachListPayload : bytes := [].

Definition buildClosePayload (close_type : byte) (name : bytes) : outcome bytes :=
  let payload := zeros (4 + 4 + blen name) in
  payload ← store payload 0 close_type;
  payload ← writeU32 payload 4 (u32 (blen name));
  if bool_decide (name = []) then Ret payload else copy_into payload 8 name.

Definition buildCancelPayload (cancel_type target_seq : Z) : outcome bytes :=
  let payload := zeros 8 in
  payload ← writeU32 payload 0 cancel_type;
  writeU32 payload 4 target_seq.

(** ** The layouts, as codecs *)

(** What a parameter becomes on the wire. *)
Definition wire_value (p : ParamValue) : option bytes :=
  if is_null p then None else Some (pdata p).

(** Element counts are followed by two reserved bytes, except for the two
    format lists of a bind. *)
Definition c_count : codec Z := c_pad c_u16 2.

Definition parse_codec : codec (bytes * (bytes * list Z)) :=
  c_pair c_lp (c_pair c_lp (c_list c_count c_u32)).

Definition bind_codec
    : codec (bytes * (bytes * (list Z * (list (option bytes) * list Z)))) :=
  c_pair c_lp (c_pair c_lp (c_pair (c_list c_u16 c_u16)
    (c_pair (c_list c_count c_nullable) (c_list c_u16 c_u16)))).

(** A one-byte selector padded to four, then a string. *)
Definition tagged_name_codec : codec (byte * bytes) := c_pair (c_pad c_byte 3) c_lp.

Definition execute_codec : codec (bytes * Z) := c_pair c_lp c_u32.

Definition subscribe_codec : codec (byte * (bytes * bytes)) :=
  c_pair (c_pad c_byte 3) (c_pair c_lp c_lp).

Definition two_names_codec : codec (bytes * bytes) := c_pair c_lp c_lp.

Definition stream_codec : codec (byte * (Z * Z)) :=
  c_pair (c_pad c_byte 3) (c_pair c_u32 c_u32).

Definition cancel_codec : codec (Z * Z) := c_pair c_u32 c_u32.

(** ** Filling steps *)

Lemma u32_advance_app w n off v :
  off = blen w → 4 <= n →
  u32_advance (w ++ zeros n, off) v = Ret ((w ++ le_bytes 4 v) ++ zeros (n - 4), off + 4).
Proof. intros. unfold u32_advance. by rewrite writeU32_app. Qed.

Lemma u16_advance_app w n off v :
  off = blen w → 2 <= n →
  u16_advance (w ++ zeros n, off) v = Ret ((w ++ le_bytes 2 v) ++ zeros (n - 2), off + 2).
Proof. intros. unfold u16_advance. by rewrite writeU16_app. Qed.

Lemma copy_advance_app w n off src :
  off = blen w → blen src <= n →
  copy_advance (w ++ zeros n, off) src =
    Ret ((w ++ src) ++ zeros (n - blen src), off + blen src).
Proof.
  intros. unfold copy_advance. case_bool_decide as E.
  - subst src. by rewrite app_nil_r, Z.sub_0_r, Z.add_0_r.
  - by rewrite copy_into_app.
Qed.

(** [if (!src.empty()) memcpy(...)] at an offset the code computed. *)
Lemma guarded_copy_app w n off src :
  off = blen w → blen src <= n →
  (if bool_decide (src = []) then Ret (w ++ zeros n) else copy_into (w ++ zeros n) off src) =
    Ret ((w ++ src) ++ zeros (n - blen src)).
Proof.
  intros. case_bool_decide as E.
  - subst src. by rewrite app_nil_r, Z.sub_0_r.
  - by rewrite copy_into_app.
Qed.

Lemma param_advance_app w n off p :
  off = blen w → blen (enc c_nullable (wire_value p)) <= n →
  param_advance (w ++ zeros n, off) p =
    Ret ((w ++ enc c_nullable (wire_value p)) ++ zeros (n - blen (enc c_nullable (wire_value p))),
         off + blen (enc c_nullable (wire_value p))).
Proof.
  intros Hoff. unfold param_advance, wire_value. destruct (is_null p); cbn [enc c_nullable].
  - rewrite length_le_bytes. intros. by rewrite u32_advance_app.
  - rewrite length_app, length_le_bytes. intros.
    rewrite u32_advance_app by lia. cbn [mbind outcome_bind].
    rewrite copy_advance_app by solve_off.
    rewrite (app_assoc w), Nat2Z.inj_add, Z.sub_add_distr, Z.add_assoc. done.
Qed.

Lemma length_enc_wire_value p :
  blen (enc c_nullable (wire_value p)) = 4 + (if is_null p then 0 else blen (pdata p)).
Proof. unfold wire_value. destruct (is_null p); cbn [enc c_nullable]; solve_off. Qed.

Lemma params_len_enc params acc :
  foldl (λ len p, (len + 4) + (if is_null p then 0 else blen (pdata p))) acc params =
    acc + blen (enc_all c_nullable (wire_value <$> params)).
Proof.
  revert acc. induction params as [|p ps IH]; intros acc; cbn [foldl]; [simpl; lia|].
  rewrite IH, fmap_cons, enc_all_cons, length_app, Nat2Z.inj_add, length_enc_wire_value. lia.
Qed.

Lemma foldM_params params w n off :
  off = blen w → blen (enc_all c_nullable (wire_value <$> params)) <= n →
  foldM param_advance (w ++ zeros n, off) params =
    Ret ((w ++ enc_all c_nullable (wire_value <$> params)) ++
           zeros (n - blen (enc_all c_nullable (wire_value <$> params))),
         off + blen (enc_all c_nullable (wire_value <$> params))).
Proof.
  unfold enc_all. rewrite <-list_fmap_compose.
  apply (foldM_append param_advance (enc c_nullable ∘ wire_value)).
  intros. by apply param_advance_app.
Qed.

Lemma foldM_u16 l w n off :
  off = blen w → blen (enc_all c_u16 l) <= n →
  foldM u16_advance (w ++ zeros n, off) l =
    Ret ((w ++ enc_all c_u16 l) ++ zeros (n - blen (enc_all c_u16 l)),
         off + blen (enc_all c_u16 l)).
Proof.
  apply (foldM_append u16_advance (enc c_u16)). intros ? ? ? x ? H.
  cbn [enc c_u16 c_le] in *. rewrite length_le_bytes in *. by apply u16_advance_app.
Qed.

Lemma foldM_u32 l w n off :
  off = blen w → blen (enc_all c_u32 l) <= n →
  foldM u32_advance (w ++ zeros n, off) l =
    Ret ((w ++ enc_all c_u32 l) ++ zeros (n - blen (enc_all c_u32 l)),
         off + blen (enc_all c_u32 l)).
Proof.
  apply (foldM_append u32_advance (enc c_u32)). intros ? ? ? x ? H.
  cbn [enc c_u32 c_le] in *. rewrite length_le_bytes in *. by apply u32_advance_app.
Qed.

Lemma length_enc_all_u16 l : blen (enc_all c_u16 l) = 2 * blen l.
Proof. apply (length_concat_const (enc c_u16) 2). intros x. apply length_le_bytes. Qed.

Lemma length_enc_all_u32 l : blen (enc_all c_u32 l) = 4 * blen l.
Proof. apply (length_concat_const (enc c_u32) 4). intros x. apply length_le_bytes. Qed.

#[export] Hint Rewrite length_enc_all_u16 length_enc_all_u32 @length_fmap : bytes.

(** A count that fits its field is written unchanged. *)
Lemma le_bytes_u16 v : le_bytes 2 (u16 v) = le_bytes 2 v.
Proof.
  unfold u16. cbn [le_bytes]. f_equal; [|f_equal].
  - rewrite <-(byte_of_mod (v mod _)), <-(byte_of_mod v). f_equal. Z.div_mod_to_equations; lia.
  - rewrite <-(byte_of_mod (_ / _)), <-(byte_of_mod (v / _)). f_equal. Z.div_mod_to_equations; lia.
Qed.

Ltac advance_step :=
  first
    [ rewrite u32_advance_app by solve_off
    | rewrite u16_advance_app by solve_off
    | rewrite copy_advance_app by solve_off
    | rewrite foldM_params by solve_off
    | rewrite foldM_u16 by solve_off
    | rewrite foldM_u32 by solve_off
    | rewrite guarded_copy_app by solve_off
    | build_step ];
  cbn [mbind outcome_bind].

Ltac build_all := repeat advance_step.

(** Unfold a codec's encoding and compare it with a filled buffer. *)
Ltac codec_done :=
  cbn [fst]; build_done;
  unfold c_count; cbn [enc c_pair c_lp c_list c_pad c_byte c_fixed fst snd];
  change (enc c_u16) with (le_bytes 2); change (enc c_u32) with (le_bytes 4);
  change (enc c_u64) with (le_bytes 8);
  rewrite ?length_fmap, ?le_bytes_u16; flat_app; reflexivity.

Lemma bind_layout portal stmt params formats :
  buildBindPayload portal stmt params formats =
    Ret (enc bind_codec (portal, (stmt, (pformat <$> params, (wire_value <$> params, formats))))).
Proof.
  unfold buildBindPayload, params_len, bind_codec. rewrite params_len_enc.
  rewrite <-(app_nil_l (zeros _)), !length_fmap.
  build_all. codec_done.
Qed.

Lemma parse_layout name query types :
  buildParsePayload name query types = Ret (enc parse_codec (name, (query, types))).
Proof.
  unfold buildParsePayload, parse_codec. rewrite <-(app_nil_l (zeros _)).
  build_all. codec_done.
Qed.

Lemma describe_layout t name :
  buildDescribePayload t name = Ret (enc tagged_name_codec (t, name)).
Proof.
  unfold buildDescribePayload, tagged_name_codec. rewrite <-(app_nil_l (zeros _)).
  build_step. rewrite (skip_app _ 3) by lia. build_all. codec_done.
Qed.

Lemma execute_layout portal max_rows :
  buildExecutePayload portal max_rows = Ret (enc execute_codec (portal, max_rows)).
Proof.
  unfold buildExecutePayload, execute_codec. rewrite <-(app_nil_l (zeros _)).
  build_all. codec_done.
Qed.

(** ** All requests *)

(** One constructor per builder, with the builder's arguments. *)
Inductive Request :=
  | RStartup (features : Z) (params : gmap bytes bytes)
  | RQuery (query : bytes) (flags max_rows timeout_ms : Z)
  | RParse (statement_name query : bytes) (param_types : list Z)
  | RBind (portal_name statement_name : bytes) (params : list ParamValue)
      (result_formats : list Z)
  | RDescribe (describe_type : byte) (name : bytes)
  | RExecute (portal_name : bytes) (max_rows : Z)
  | RSblrExecute (sblr_hash : Z) (bytecode : bytes) (params : list ParamValue)
  | RSubscribe (subscribe_type : byte) (channel filter : bytes)
  | RUnsubscribe (channel : bytes)
  | RTxnBegin (flags : Z)
      (conflict_action autocommit_mode isolation_level access_mode deferrable wait_mode : byte)
      (timeout_ms : Z) (read_committed_mode : byte)
  | RTxnCommit (flags : byte)
  | RTxnRollback (flags : byte)
  | RTxnSavepoint (name : bytes)
  | RTxnRelease (name : bytes)
  | RTxnRollbackTo (name : bytes)
  | RSetOption (name value : bytes)
  | RStreamControl (control_type : byte) (window_size timeout_ms : Z)
  | RAttachCreate (mode db_name : bytes)
  | RAttachDetach
  | RAttachList
  | RClose (close_type : byte) (name : bytes)
  | RCancel (cancel_type target_seq : Z).

Definition build (r : Request) : outcome bytes :=
  match r with
  | RStartup f p => buildStartupPayload f p
  | RQuery q f m t => buildQueryPayload q f m t
  | RParse n q ts => buildParsePayload n q ts
  | RBind p s ps fs => buildBindPayload p s ps fs
  | RDescribe t n => buildDescribePayload t n
  | RExecute p m => buildExecutePayload p m
  | RSblrExecute h b ps => buildSblrExecutePayload h b ps
  | RSubscribe t c f => buildSubscribePayload t c f
  | RUnsubscribe c => buildUnsubscribePayload c
  | RTxnBegin f ca am il ac d w t rc => buildTxnBeginPayload f ca am il ac d w t rc
  | RTxnCommit f => buildTxnCommitPayload f
  | RTxnRollback f => buildTxnRollbackPayload f
  | RTxnSavepoint n => buildTxnSavepointPayload n
  | RTxnRelease n => buildTxnReleasePayload n
  | RTxnRollbackTo n => buildTxnRollbackToPayload n
  | RSetOption n v => buildSetOptionPayload n v
  | RStreamControl c w t => buildStreamControlPayload c w t
  | RAttachCreate m d => buildAttachCreatePayload m d
  | RAttachDetach => Ret buildAttachDetachPayload
  | RAttachList => Ret buildAttachListPayload
  | RClose t n => buildClosePayload t n
  | RCancel c s => buildCancelPayload c s
  end.

(** The documented layout of every request. *)
Definition layout (r : Request) : bytes :=
  match r with
  | RStartup f p =>
      [byte_of kProtocolMajor; byte_of kProtocolMinor] ++ zeros 2 ++ le_bytes 8 f ++
      concat ((λ e, e.1 ++ [Byte.x00] ++ e.2 ++ [Byte.x00]) <$> std_map_items p) ++ [Byte.x00]
  | RQuery q f m t => le_bytes 4 f ++ le_bytes 4 m ++ le_bytes 4 t ++ q ++ [Byte.x00]
  | RParse n q ts => enc parse_codec (n, (q, ts))
  | RBind p s ps fs =>
      enc bind_codec (p, (s, (pformat <$> ps, (wire_value <$> ps, fs))))
  | RDescribe t n | RClose t n => enc tagged_name_codec (t, n)
  | RExecute p m => enc execute_codec (p, m)
  | RSblrExecute h b ps =>
      le_bytes 8 h ++ le_bytes 4 (u32 (blen b)) ++ le_bytes 2 (blen ps) ++ zeros 2 ++
      b ++ enc_all c_nullable (wire_value <$> ps)
  | RSubscribe t c f => enc subscribe_codec (t, (c, f))
  | RUnsubscribe n | RTxnSavepoint n | RTxnRelease n | RTxnRollbackTo n => enc c_lp n
  | RTxnBegin f ca am il ac d w t rc =>
      le_bytes 2 f ++ [ca; am; il; ac; d; w] ++ le_bytes 4 t ++
      (if Z.testbit f 8 then [rc] ++ zeros 3 else [])
  | RTxnCommit f | RTxnRollback f => [f] ++ zeros 3
  | RSetOption a b | RAttachCreate a b => enc two_names_codec (a, b)
  | RStreamControl c w t => enc stream_codec (c, (w, t))
  | RAttachDetach | RAttachList => []
  | RCancel c s => enc cancel_codec (c, s)
  end.

Lemma foldl_app_concat {A} (f : A → bytes) (step : bytes → A → bytes) l acc :
  (∀ b x, step b x = b ++ f x) → foldl step acc l = acc ++ concat (f <$> l).
Proof.
  intros H. revert acc. induction l as [|x l IH]; intros acc; csimpl.
  { by rewrite app_nil_r. }
  by rewrite IH, H, app_assoc.
Qed.

Lemma buildParamList_concat params :
  buildParamList params =
    concat ((λ e, e.1 ++ [Byte.x00] ++ e.2 ++ [Byte.x00]) <$> std_map_items params) ++ [Byte.x00].
Proof.
  unfold buildParamList. f_equal. apply (foldl_app_concat _ _ _ []).
  intros b e. by flat_app.
Qed.

Lemma startup_layout f p : buildStartupPayload f p = Ret (layout (RStartup f p)).
Proof.
  unfold buildStartupPayload. cbn [layout]. rewrite <-buildParamList_concat.
  rewrite <-(app_nil_l (zeros _)). build_all. build_done. done.
Qed.

Lemma query_layout q f m t : buildQueryPayload q f m t = Ret (layout (RQuery q f m t)).
Proof.
  unfold buildQueryPayload. cbn [layout]. rewrite <-(app_nil_l (zeros _)).
  build_all. build_done. done.
Qed.

Lemma txn_flag_bit f : negb (Z.land f kTxnFlagHasReadCommittedMode =? 0) = Z.testbit f 8.
Proof. by apply (land_bit f 8). Qed.

Lemma txn_begin_layout f ca am il ac d w t rc :
  buildTxnBeginPayload f ca am il ac d w t rc = Ret (layout (RTxnBegin f ca am il ac d w t rc)).
Proof.
  unfold buildTxnBeginPayload. cbn [layout]. rewrite txn_flag_bit.
  rewrite <-(app_nil_l (zeros _)). destruct (Z.testbit f 8).
  - build_all. flat_app. done.
  - build_all. build_done. done.
Qed.

Lemma sblr_layout h b ps :
  buildSblrExecutePayload h b ps = Ret (layout (RSblrExecute h b ps)).
Proof.
  unfold buildSblrExecutePayload. cbn [layout].
  pose proof (params_len_enc ps 0) as Hlen. fold (params_len ps) in Hlen. rewrite Hlen.
  rewrite <-(app_nil_l (zeros _)). build_all. cbn [fst]. build_done.
  by rewrite le_bytes_u16.
Qed.

Lemma subscribe_layout t c f :
  buildSubscribePayload t c f = Ret (layout (RSubscribe t c f)).
Proof.
  unfold buildSubscribePayload. cbn [layout]. unfold subscribe_codec.
  rewrite <-(app_nil_l (zeros _)). build_step. rewrite (skip_app _ 3) by lia.
  build_all. codec_done.
Qed.

Lemma lp_layout (s : bytes) :
  buildTxnSavepointPayload s = Ret (enc c_lp s).
Proof.
  unfold buildTxnSavepointPayload. rewrite <-(app_nil_l (zeros _)). build_all. codec_done.
Qed.

Lemma two_names_layout a b : buildSetOptionPayload a b = Ret (enc two_names_codec (a, b)).
Proof.
  unfold buildSetOptionPayload, two_names_codec. rewrite <-(app_nil_l (zeros _)).
  build_all. codec_done.
Qed.

Lemma stream_layout c w t :
  buildStreamControlPayload c w t = Ret (enc stream_codec (c, (w, t))).
Proof.
  unfold buildStreamControlPayload, stream_codec. rewrite <-(app_nil_l (zeros _)).
  build_step. rewrite (skip_app _ 3) by lia. build_all. codec_done.
Qed.

Lemma cancel_layout c s : buildCancelPayload c s = Ret (enc cancel_codec (c, s)).
Proof.
  unfold buildCancelPayload, cancel_codec. rewrite <-(app_nil_l (zeros _)).
  build_all. codec_done.
Qed.

(** Every request builder is free of out-of-bounds stores for all arguments
    and produces exactly the documented layout of its request. *)
Theorem build_layout r : build r = Ret (layout r).
Proof.
  destruct r; cbn [build].
  - apply startup_layout.
  - apply query_layout.
  - apply parse_layout.
  - apply bind_layout.
  - apply describe_layout.
  - apply execute_layout.
  - apply sblr_layout.
  - apply subscribe_layout.
  - apply lp_layout.
  - apply txn_begin_layout.
  - reflexivity.
  - reflexivity.
  - apply lp_layout.
  - apply lp_layout.
  - apply lp_layout.
  - apply two_names_layout.
  - apply stream_layout.
  - apply two_names_layout.
  - reflexivity.
  - reflexivity.
  - apply describe_layout.
  - apply cancel_layout.
Qed.

(** A bind request can be read back in one way only: decoding the payload
    returns the names, the formats, each value or null, and the result formats,
    when every length fits its field. *)
Theorem bind_roundtrip portal stmt params formats :
  let msg := (portal, (stmt, (pformat <$> params, (wire_value <$> params, formats)))) in
  wf_c bind_codec msg →
  ∃ payload, buildBindPayload portal stmt params formats = Ret payload ∧
             dec_whole bind_codec payload = Some msg.
Proof.
  intros msg H. exists (enc bind_codec msg). split; [apply bind_layout|].
  by apply dec_whole_enc.
Qed.

Lemma bind_roundtrip_witness :
  let params := [mkParam 1 ("42" : bytes) false 23; mkParam 1 [] true 25] in
  ∃ payload, buildBindPayload ("p" : bytes) ("s1" : bytes) params [1] = Ret payload ∧
    dec_whole bind_codec payload =
      Some (("p" : bytes), (("s1" : bytes), ([1; 1], ([Some ("42" : bytes); None], [1])))).
Proof.
  intros params.
  apply (bind_roundtrip ("p" : bytes) ("s1" : bytes) params [1]).
  apply (bool_decide_unpack _). vm_compute. exact I.
Defined.
