(* ===== verification/WireParse.v ===== *)
(** * SBWP wire protocol: response parsers

    Models the parsers of [src/protocol/sbwp_protocol.cpp]. A parser returns a
    status and writes its out-parameters; an early return keeps what was
    written before it. Reads outside the payload are undefined behaviour, so
    every read goes through [load] or [slice]. [size_t] offsets do not wrap (a
    payload has at most [kMaxMessageSize] bytes), but sums of two [uint32_t]
    operands do and are reduced with [u32]. *)

From S2P Require Import Prelude.
From S2P Require Import Sqlstate.
From S2P Require Import Wire.
From S2P Require Import Codec.

Definition parseAuthRequest (payload : bytes) (method : byte) (data : bytes) (ctx : ErrorCtx)
    : outcome (Status * byte * bytes * ErrorCtx) :=
  if blen payload <? 4
  then Ret (PROTOCOL_VIOLATION, method, data, setError ctx "Auth request truncated") else
  method ← load payload 0;
  data ← slice payload 4 (blen payload - 4);
  Ret (OK, method, data, ctx).

Definition parseAuthContinue (payload : bytes) (method stage : byte) (data : bytes)
    (ctx : ErrorCtx) : outcome (Status * byte * byte * bytes * ErrorCtx) :=
  if blen payload <? 8
  then Ret (PROTOCOL_VIOLATION, method, stage, data, setError ctx "Auth continue truncated") else
  method ← load payload 0;
  stage ← load payload 1;
  data_len ← readU32 payload 4;
  if blen payload <? u32 (8 + data_len)
  then Ret (PROTOCOL_VIOLATION, method, stage, data, setError ctx "Auth continue truncated") else
  data ← slice payload 8 data_len;
  Ret (OK, method, stage, data, ctx).

Definition parseAuthOk (payload session_id info : bytes) (ctx : ErrorCtx)
    : outcome (Status * bytes * bytes * ErrorCtx) :=
  if blen payload <? 20
  then Ret (PROTOCOL_VIOLATION, session_id, info, setError ctx "Auth ok truncated") else
  session_id ← slice payload 0 16;
  info_len ← readU32 payload 16;
  if blen payload <? u32 (20 + info_len)
  then Ret (PROTOCOL_VIOLATION, session_id, info, setError ctx "Auth ok truncated") else
  info ← slice payload 20 info_len;
  Ret (OK, session_id, info, ctx).

Definition parseReady (payload : bytes) (status : byte) (txn epoch : Z) (ctx : ErrorCtx)
    : outcome (Status * byte * Z * Z * ErrorCtx) :=
  if blen payload <? 20
  then Ret (PROTOCOL_VIOLATION, status, txn, epoch, setError ctx "Ready truncated") else
  status ← load payload 0;
  txn ← readU64 payload 4;
  epoch ← readU64 payload 12;
  Ret (OK, status, txn, epoch, ctx).

Definition parseParameterStatus (payload name value : bytes) (ctx : ErrorCtx)
    : outcome (Status * bytes * bytes * ErrorCtx) :=
  if blen payload <? 8
  then Ret (PROTOCOL_VIOLATION, name, value, setError ctx "Parameter status truncated") else
  let offset := 0 in
  name_len ← readU32 payload offset;
  let offset := offset + 4 in
  if blen payload <? offset + name_len + 4
  then Ret (PROTOCOL_VIOLATION, name, value, setError ctx "Parameter status truncated") else
  name ← slice payload offset name_len;
  let offset := offset + name_len in
  value_len ← readU32 payload offset;
  let offset := offset + 4 in
  if blen payload <? offset + value_len
  then Ret (PROTOCOL_VIOLATION, name, value, setError ctx "Parameter status truncated") else
  value ← slice payload offset value_len;
  Ret (OK, name, value, ctx).

(** [for (i = 0; i < count; ++i)], [n] iterations left. *)
Fixpoint param_types_loop (n : nat) (payload : bytes) (offset : Z) (param_types : list Z)
    (ctx : ErrorCtx) : outcome (Status * list Z * ErrorCtx) :=
  match n with
  | O => Ret (OK, param_types, ctx)
  | S n =>
      if blen payload <? offset + 4
      then Ret (PROTOCOL_VIOLATION, param_types, setError ctx "Parameter description truncated")
      else
        oid ← readU32 payload offset;
        param_types_loop n payload (offset + 4) (param_types ++ [oid]) ctx
  end.

Definition parseParameterDescription (payload : bytes) (param_types : list Z) (ctx : ErrorCtx)
    : outcome (Status * list Z * ErrorCtx) :=
  if blen payload <? 4
  then Ret (PROTOCOL_VIOLATION, param_types, setError ctx "Parameter description truncated") else
  count ← readU16 payload 0;
  param_types_loop (Z.to_nat count) payload 4 [] ctx.

Record ColumnInfo := mkColumn {
  name : bytes;
  table_oid : Z;
  column_index : Z;
  type_oid : Z;
  type_size : Z;
  type_modifier : Z;
  format : byte;
  nullable : bool
}.

Fixpoint row_description_loop (n : nat) (payload : bytes) (offset : Z)
    (columns : list ColumnInfo) (ctx : ErrorCtx)
    : outcome (Status * list ColumnInfo * ErrorCtx) :=
  match n with
  | O => Ret (OK, columns, ctx)
  | S n =>
      if blen payload <? offset + 4
      then Ret (PROTOCOL_VIOLATION, columns, setError ctx "Row description truncated") else
      name_len ← readU32 payload offset;
      let offset := offset + 4 in
      if blen payload <? offset + name_len + 4 + 2 + 4 + 2 + 4 + 1 + 1 + 2
      then Ret (PROTOCOL_VIOLATION, columns, setError ctx "Row description truncated") else
      cname ← slice payload offset name_len;
      let offset := offset + name_len in
      table ← readU32 payload offset;
      let offset := offset + 4 in
      index ← readU16 payload offset;
      let offset := offset + 2 in
      toid ← readU32 payload offset;
      let offset := offset + 4 in
      tsize ← readU16 payload offset;
      let offset := offset + 2 in
      tmod ← readU32 payload offset;
      let offset := offset + 4 in
      fmt ← load payload offset;
      let offset := offset + 1 in
      null ← load payload offset;
      let offset := offset + 1 in
      let offset := offset + 2 in
      let info := mkColumn cname table index toid (i16 tsize) (i32 tmod) fmt
                    (byte_val null =? 1) in
      row_description_loop n payload offset (columns ++ [info]) ctx
  end.

Definition parseRowDescription (payload : bytes) (columns : list ColumnInfo) (ctx : ErrorCtx)
    : outcome (Status * list ColumnInfo * ErrorCtx) :=
  if blen payload <? 4
  then Ret (PROTOCOL_VIOLATION, columns, setError ctx "Row description truncated") else
  count ← readU16 payload 0;
  row_description_loop (Z.to_nat count) payload 4 [] ctx.

Record ColumnValue := mkValue { data : bytes; is_null : bool }.

(** Iteration [i] of the value loop; the null bitmap starts at [bitmap]. *)
Fixpoint data_row_loop (n : nat) (i : Z) (payload : bytes) (bitmap null_bytes offset : Z)
    (values : list ColumnValue) (ctx : ErrorCtx)
    : outcome (Status * list ColumnValue * ErrorCtx) :=
  match n with
  | O => Ret (OK, values, ctx)
  | S n =>
      let byte_index := i / 8 in
      let bit_index := i mod 8 in
      null ← (if byte_index <? null_bytes
              then b ← load payload (bitmap + byte_index);
                   Ret (negb (Z.land (byte_val b) (Z.shiftl 1 bit_index) =? 0))
              else Ret false);
      if null : bool then
        data_row_loop n (i + 1) payload bitmap null_bytes offset
          (values ++ [mkValue [] true]) ctx
      else if blen payload <? offset + 4
      then Ret (PROTOCOL_VIOLATION, values, setError ctx "Row data truncated") else
      length ← readU32 payload offset;
      let offset := offset + 4 in
      if length =? 0xFFFFFFFF then
        data_row_loop n (i + 1) payload bitmap null_bytes offset
          (values ++ [mkValue [] true]) ctx
      else if blen payload <? offset + length
      then Ret (PROTOCOL_VIOLATION, values, setError ctx "Row data truncated") else
      d ← slice payload offset length;
      data_row_loop n (i + 1) payload bitmap null_bytes (offset + length)
        (values ++ [mkValue d false]) ctx
  end.

Definition parseDataRow (payload : bytes) (column_count : Z) (values : list ColumnValue)
    (ctx : ErrorCtx) : outcome (Status * list ColumnValue * ErrorCtx) :=
  if blen payload <? 4
  then Ret (PROTOCOL_VIOLATION, values, setError ctx "Row data truncated") else
  count ← readU16 payload 0;
  null_bytes ← readU16 payload 2;
  if negb (count =? column_count)
  then Ret (PROTOCOL_VIOLATION, values, setError ctx "Row data column count mismatch") else
  if blen payload <? 4 + null_bytes
  then Ret (PROTOCOL_VIOLATION, values, setError ctx "Row data truncated") else
  data_row_loop (Z.to_nat count) 0 payload 4 null_bytes (4 + null_bytes) [] ctx.

(** [tag.resize(i)] at the first NUL. *)
Definition cut_at_nul (tag : bytes) : bytes :=
  match find_byte Byte.x00 tag with
  | Some i => take i tag
  | None => tag
  end.

Definition parseCommandComplete (payload : bytes) (command_type : byte) (rows last_id : Z)
    (tag : bytes) (ctx : ErrorCtx) : outcome (Status * byte * Z * Z * bytes * ErrorCtx) :=
  if blen payload <? 20
  then Ret (PROTOCOL_VIOLATION, command_type, rows, last_id, tag,
            setError ctx "Command complete truncated") else
  command_type ← load payload 0;
  rows ← readU64 payload 4;
  last_id ← readU64 payload 12;
  tag ← slice payload 20 (blen payload - 20);
  Ret (OK, command_type, rows, last_id, cut_at_nul tag, ctx).

Record Notification := mkNotification {
  process_id : Z;
  channel : bytes;
  npayload : bytes;
  change_type : byte;
  row_id : Z;
  has_row : bool
}.

Definition parseNotification (payload : bytes) (notice : Notification) (ctx : ErrorCtx)
    : outcome (Status * Notification * ErrorCtx) :=
  let truncated n := Ret (PROTOCOL_VIOLATION, n, setError ctx "Notification truncated") in
  if blen payload <? 12 then truncated notice else
  let offset := 0 in
  pid ← readU32 payload 0;
  let notice := mkNotification pid (channel notice) (npayload notice) (change_type notice)
                  (row_id notice) (has_row notice) in
  let offset := offset + 4 in
  channel_len ← readU32 payload offset;
  let offset := offset + 4 in
  if blen payload <? offset + channel_len + 4 then truncated notice else
  ch ← slice payload offset channel_len;
  let notice := mkNotification pid ch (npayload notice) (change_type notice)
                  (row_id notice) (has_row notice) in
  let offset := offset + channel_len in
  payload_len ← readU32 payload offset;
  let offset := offset + 4 in
  if blen payload <? offset + payload_len then truncated notice else
  pl ← slice payload offset payload_len;
  let offset := offset + payload_len in
  if offset <? blen payload then
    ct ← load payload offset;
    let offset := offset + 1 in
    if offset + 8 <=? blen payload then
      row ← readU64 payload offset;
      Ret (OK, mkNotification pid ch pl ct row true, ctx)
    else Ret (OK, mkNotification pid ch pl ct 0 false, ctx)
  else Ret (OK, mkNotification pid ch pl Byte.x00 0 false, ctx).

Record QueryPlan := mkPlan {
  plan_format : Z;
  planning_time : Z;
  estimated_rows : Z;
  estimated_cost : Z;
  plan : bytes
}.

Definition parseQueryPlan (payload : bytes) (p : QueryPlan) (ctx : ErrorCtx)
    : outcome (Status * QueryPlan * ErrorCtx) :=
  if blen payload <? 32
  then Ret (PROTOCOL_VIOLATION, p, setError ctx "Query plan truncated") else
  fmt ← readU32 payload 0;
  plan_len ← readU32 payload 4;
  time ← readU64 payload 8;
  rows ← readU64 payload 16;
  cost ← readU64 payload 24;
  let p := mkPlan fmt time rows cost (plan p) in
  if blen payload <? u32 (32 + plan_len)
  then Ret (PROTOCOL_VIOLATION, p, setError ctx "Query plan truncated") else
  bs ← slice payload 32 plan_len;
  Ret (OK, mkPlan fmt time rows cost bs, ctx).

Record SblrCompiled := mkSblr {
  hash : Z;
  version : Z;
  bytecode : bytes
}.

Definition parseSblrCompiled (payload : bytes) (c : SblrCompiled) (ctx : ErrorCtx)
    : outcome (Status * SblrCompiled * ErrorCtx) :=
  if blen payload <? 16
  then Ret (PROTOCOL_VIOLATION, c, setError ctx "SBLR compiled truncated") else
  h ← readU64 payload 0;
  v ← readU32 payload 8;
  len ← readU32 payload 12;
  let c := mkSblr h v (bytecode c) in
  if blen payload <? u32 (16 + len)
  then Ret (PROTOCOL_VIOLATION, c, setError ctx "SBLR compiled truncated") else
  bs ← slice payload 16 len;
  Ret (OK, mkSblr h v bs, ctx).

Record ErrorFields := mkErrorFields {
  severity : bytes;
  sqlstate : bytes;
  message : bytes;
  detail : bytes;
  hint : bytes
}.

Definition empty_fields : ErrorFields := mkErrorFields [] [] [] [] [].

(** [switch (field)]: the letters S, C, M, D and H; any other is skipped. *)
Definition set_field (f : ErrorFields) (field : byte) (value : bytes) : ErrorFields :=
  match field with
  | "S"%byte => mkErrorFields value (sqlstate f) (message f) (detail f) (hint f)
  | "C"%byte => mkErrorFields (severity f) value (message f) (detail f) (hint f)
  | "M"%byte => mkErrorFields (severity f) (sqlstate f) value (detail f) (hint f)
  | "D"%byte => mkErrorFields (severity f) (sqlstate f) (message f) value (hint f)
  | "H"%byte => mkErrorFields (severity f) (sqlstate f) (message f) (detail f) value
  | _ => f
  end.

(** [while (offset < payload.size() && payload[offset] != 0) ++offset;]
    [fuel] bounds the iterations. *)
Fixpoint scan_nul (fuel : nat) (payload : bytes) (offset : Z) : outcome Z :=
  match fuel with
  | O => UB
  | S fuel =>
      if offset <? blen payload then
        b ← load payload offset;
        if bool_decide (b = Byte.x00) then Ret offset else scan_nul fuel payload (offset + 1)
      else Ret offset
  end.

Fixpoint error_message_loop (fuel : nat) (payload : bytes) (offset : Z) (f : ErrorFields)
    (ctx : ErrorCtx) : outcome (Status * ErrorFields * ErrorCtx) :=
  match fuel with
  | O => UB
  | S fuel =>
      if offset <? blen payload then
        field ← load payload offset;
        let offset := offset + 1 in
        if bool_decide (field = Byte.x00) then Ret (OK, f, ctx) else
        let start := offset in
        offset ← scan_nul (S (length payload)) payload offset;
        if blen payload <=? offset
        then Ret (PROTOCOL_VIOLATION, f, setError ctx "Error message truncated") else
        value ← slice payload start (offset - start);
        let offset := offset + 1 in
        error_message_loop fuel payload offset (set_field f field value) ctx
      else Ret (OK, f, ctx)
  end.

(** Each iteration consumes at least two bytes, so [length payload + 1]
    iterations are enough: see [parseErrorMessage_defined]. *)
Definition parseErrorMessage (payload : bytes) (ctx : ErrorCtx)
    : outcome (Status * ErrorFields * ErrorCtx) :=
  error_message_loop (S (length payload)) payload 0 empty_fields ctx.

(** ** Memory safety *)

(** Walk through a parser: split on its guards, and show that each access lies
    inside the payload. *)
Ltac in_range := unfold in_u16, in_u32, in_u64 in *; lia.

Ltac safe_step :=
  lazymatch goal with
  | |- defined (Ret _) => exact I
  | |- defined (if ?b then _ else _) => destruct b eqn:?
  | |- defined (mbind _ (readU16 ?d ?o)) =>
      destruct (readU16_ok d o) as (? & -> & ?); [in_range|in_range|]; cbn [mbind outcome_bind]
  | |- defined (mbind _ (readU32 ?d ?o)) =>
      destruct (readU32_ok d o) as (? & -> & ?); [in_range|in_range|]; cbn [mbind outcome_bind]
  | |- defined (mbind _ (readU64 ?d ?o)) =>
      destruct (readU64_ok d o) as (? & -> & ?); [in_range|in_range|]; cbn [mbind outcome_bind]
  | |- defined (mbind _ (load ?d ?o)) =>
      destruct (load_defined d o) as (? & ->); [in_range|]; cbn [mbind outcome_bind]
  | |- defined (mbind _ (slice ?d ?o ?n)) =>
      destruct (slice_defined d o n) as (? & -> & ?); [in_range..|]; cbn [mbind outcome_bind]
  end.

Ltac safe := repeat safe_step.

Lemma parseParameterStatus_defined payload n v ctx :
  defined (parseParameterStatus payload n v ctx).
Proof. unfold parseParameterStatus. safe. Qed.

Lemma parseNotification_defined payload n ctx : defined (parseNotification payload n ctx).
Proof. unfold parseNotification. safe. Qed.

Lemma param_types_loop_defined n payload offset ts ctx :
  0 <= offset → defined (param_types_loop n payload offset ts ctx).
Proof.
  revert offset ts. induction n as [|n IH]; intros offset ts H; cbn [param_types_loop]; safe.
  apply IH. lia.
Qed.

Lemma row_description_loop_defined n payload offset cs ctx :
  0 <= offset → defined (row_description_loop n payload offset cs ctx).
Proof.
  revert offset cs. induction n as [|n IH]; intros offset cs H; cbn [row_description_loop]; safe.
  apply IH. in_range.
Qed.

Lemma data_row_loop_defined n i payload bitmap nb offset vs ctx :
  0 <= i → 0 <= bitmap → bitmap + nb <= blen payload → 0 <= offset →
  defined (data_row_loop n i payload bitmap nb offset vs ctx).
Proof.
  intros Hi Hb Hnb. revert i offset vs Hi.
  induction n as [|n IH]; intros i offset vs Hi Ho; cbn [data_row_loop]; [exact I|].
  assert (0 <= i / 8) by (apply Z.div_pos; lia).
  destruct (i / 8 <? nb) eqn:E.
  - destruct (load_defined payload (bitmap + i / 8)) as (b & ->); [lia|].
    cbn [mbind outcome_bind]. safe; apply IH; in_range.
  - cbn [mbind outcome_bind]. safe; apply IH; in_range.
Qed.

Lemma scan_nul_range fuel payload offset :
  0 <= offset <= blen payload → blen payload < offset + Z.of_nat fuel →
  ∃ o, scan_nul fuel payload offset = Ret o ∧ offset <= o <= blen payload.
Proof.
  revert offset. induction fuel as [|fuel IH]; intros offset Ho Hf; [lia|]. cbn [scan_nul].
  destruct (offset <? blen payload) eqn:E; [|eexists; split; [done|lia]].
  destruct (load_defined payload offset) as (b & ->); [lia|]. cbn [mbind outcome_bind].
  case_bool_decide; [eexists; split; [done|lia]|].
  destruct (IH (offset + 1)) as (o & -> & ?); [lia..|]. eexists; split; [done|lia].
Qed.

Lemma error_message_loop_defined fuel payload offset f ctx :
  0 <= offset <= blen payload → blen payload < offset + Z.of_nat fuel →
  defined (error_message_loop fuel payload offset f ctx).
Proof.
  revert offset f. induction fuel as [|fuel IH]; intros offset f Ho Hf.
  { lia. }
  cbn [error_message_loop]. safe_step; [|exact I].
  destruct (load_defined payload offset) as (b & ->); [lia|]. cbn [mbind outcome_bind].
  case_bool_decide; [exact I|].
  destruct (scan_nul_range (S (length payload)) payload (offset + 1)) as (o & -> & ?); [lia..|].
  cbn [mbind outcome_bind]. safe. apply IH; lia.
Qed.

Lemma parseErrorMessage_defined payload ctx : defined (parseErrorMessage payload ctx).
Proof. apply error_message_loop_defined; lia. Qed.

Lemma parseDataRow_defined payload n vs ctx : defined (parseDataRow payload n vs ctx).
Proof.
  unfold parseDataRow. safe. apply data_row_loop_defined; in_range.
Qed.

(** C37: whatever bytes the server sends, the parsers whose guards are computed
    in [size_t] never read outside the payload. *)
Theorem parsers_memory_safe payload ctx :
  (∀ m d, defined (parseAuthRequest payload m d ctx)) ∧
  (∀ s t e, defined (parseReady payload s t e ctx)) ∧
  (∀ n v, defined (parseParameterStatus payload n v ctx)) ∧
  (∀ ts, defined (parseParameterDescription payload ts ctx)) ∧
  (∀ cs, defined (parseRowDescription payload cs ctx)) ∧
  (∀ n vs, defined (parseDataRow payload n vs ctx)) ∧
  (∀ c r l t, defined (parseCommandComplete payload c r l t ctx)) ∧
  (∀ n, defined (parseNotification payload n ctx)) ∧
  defined (parseErrorMessage payload ctx).
Proof.
  split_and!; intros;
    auto using parseParameterStatus_defined, parseNotification_defined, parseDataRow_defined,
      parseErrorMessage_defined.
  - unfold parseAuthRequest. safe.
  - unfold parseReady. safe.
  - unfold parseParameterDescription. safe. apply param_types_loop_defined. lia.
  - unfold parseRowDescription. safe. apply row_description_loop_defined. lia.
  - unfold parseCommandComplete. safe.
Qed.

(** The guard [hdr + len > size] evaluated in 32 bits passes although the range
    leaves the payload. *)
Definition guard_wraps (hdr off : Z) (payload : bytes) : Prop :=
  hdr <= blen payload ∧
  ∃ len, readU32 payload off = Ret len ∧ u32 (hdr + len) <= blen payload < hdr + len.

Lemma not_defined_UB {A} (o : outcome A) : ¬ defined o → o = UB.
Proof. by destruct o. Qed.

(** The tail common to the four parsers with a 32-bit guard. *)
Lemma guarded_slice_UB {A} payload hdr off len (bad : outcome A) (k : bytes → outcome A) :
  0 <= hdr <= blen payload → readU32 payload off = Ret len → in_u32 len →
  bad ≠ UB → (∀ d, k d ≠ UB) →
  (if blen payload <? u32 (hdr + len) then bad else d ← slice payload hdr len; k d) = UB ↔
    guard_wraps hdr off payload.
Proof.
  intros Hh Hr Hl Hbad Hk. unfold guard_wraps. rewrite Hr. split.
  - destruct (Z.ltb_spec (blen payload) (u32 (hdr + len))) as [|Hle]; [done|].
    intros H. split; [lia|]. exists len. split; [done|]. split; [done|].
    destruct (decide (blen payload < hdr + len)); [done|].
    destruct (slice_defined payload hdr len) as (s & E & _); [in_range..|].
    rewrite E in H. cbn [mbind outcome_bind] in H. by apply Hk in H.
  - intros (_ & len' & [= <-] & Hle & Hgt). guard_false.
    by rewrite slice_UB.
Qed.

Lemma auth_continue_UB payload m s d ctx : parseAuthContinue payload m s d ctx = UB ↔ guard_wraps 8 4 payload.
Proof.
  unfold parseAuthContinue. destruct (Z.ltb_spec (blen payload) 8).
  { split; [done|]. intros [? _]. lia. }
  destruct (load_defined payload 0) as (b0 & ->); [lia|]. cbn [mbind outcome_bind].
  destruct (load_defined payload 1) as (b1 & ->); [lia|]. cbn [mbind outcome_bind].
  destruct (readU32_ok payload 4) as (len & E & ?); [lia..|]. rewrite E. cbn [mbind outcome_bind].
  by apply guarded_slice_UB.
Qed.

Lemma auth_ok_UB payload s i ctx : parseAuthOk payload s i ctx = UB ↔ guard_wraps 20 16 payload.
Proof.
  unfold parseAuthOk. destruct (Z.ltb_spec (blen payload) 20).
  { split; [done|]. intros [? _]. lia. }
  destruct (slice_defined payload 0 16) as (b0 & -> & _); [lia..|]. cbn [mbind outcome_bind].
  destruct (readU32_ok payload 16) as (len & E & ?); [lia..|]. rewrite E. cbn [mbind outcome_bind].
  by apply guarded_slice_UB.
Qed.

Lemma plan_guard_UB payload p ctx : parseQueryPlan payload p ctx = UB ↔ guard_wraps 32 4 payload.
Proof.
  unfold parseQueryPlan. destruct (Z.ltb_spec (blen payload) 32).
  { split; [done|]. intros [? _]. lia. }
  destruct (readU32_ok payload 0) as (f & -> & _); [lia..|]. cbn [mbind outcome_bind].
  destruct (readU32_ok payload 4) as (len & E & ?); [lia..|]. rewrite E. cbn [mbind outcome_bind].
  destruct (readU64_ok payload 8) as (t & -> & _); [lia..|]. cbn [mbind outcome_bind].
  destruct (readU64_ok payload 16) as (r & -> & _); [lia..|]. cbn [mbind outcome_bind].
  destruct (readU64_ok payload 24) as (c & -> & _); [lia..|]. cbn [mbind outcome_bind].
  by apply guarded_slice_UB.
Qed.

Lemma sblr_guard_UB payload c ctx : parseSblrCompiled payload c ctx = UB ↔ guard_wraps 16 12 payload.
Proof.
  unfold parseSblrCompiled. destruct (Z.ltb_spec (blen payload) 16).
  { split; [done|]. intros [? _]. lia. }
  destruct (readU64_ok payload 0) as (h & -> & _); [lia..|]. cbn [mbind outcome_bind].
  destruct (readU32_ok payload 8) as (v & -> & _); [lia..|]. cbn [mbind outcome_bind].
  destruct (readU32_ok payload 12) as (len & E & ?); [lia..|]. rewrite E. cbn [mbind outcome_bind].
  by apply guarded_slice_UB.
Qed.

(** The parsers that add a [uint32_t] length to a literal compute their
    bounds check modulo [2^32]: they read outside the payload exactly when the
    sum wraps below the payload size. *)
Theorem u32_guard_parsers_UB payload ctx :
  (∀ m s d, parseAuthContinue payload m s d ctx = UB ↔ guard_wraps 8 4 payload) ∧
  (∀ s i, parseAuthOk payload s i ctx = UB ↔ guard_wraps 20 16 payload) ∧
  (∀ p, parseQueryPlan payload p ctx = UB ↔ guard_wraps 32 4 payload) ∧
  (∀ c, parseSblrCompiled payload c ctx = UB ↔ guard_wraps 16 12 payload).
Proof.
  split_and!; intros; [apply auth_continue_UB|apply auth_ok_UB|apply plan_guard_UB|apply sblr_guard_UB].
Qed.

(** Twelve bytes announcing [2^32 - 8] bytes of data crash the client. *)
Example parseAuthContinue_crash :
  parseAuthContinue ([Byte.x03; Byte.x01; Byte.x00; Byte.x00;
                      Byte.xf8; Byte.xff; Byte.xff; Byte.xff;
                      Byte.x00; Byte.x00; Byte.x00; Byte.x00]) Byte.x00 Byte.x00 [] None = UB.
Proof. vm_compute. reflexivity. Qed.
