(* ===== verification/WireServer.v ===== *)
(** * SBWP wire protocol: what the server sends

    The layouts of the server's messages, as codecs and encoders, and the
    round trips: the parsers of [WireParse] recover what a server that follows
    the layout has sent, whatever bytes follow. *)

From S2P Require Import Prelude.
From S2P Require Import Sqlstate.
From S2P Require Import Wire.
From S2P Require Import Codec.
From S2P Require Import WireParse.

(** Evaluate the read at the head of a parser, the payload being known by
    [HP]. *)
Ltac read_at HP :=
  lazymatch goal with
  | |- mbind _ ?m = _ =>
      let H := fresh in
      eassert (H : m = Ret _) by (rewrite HP; flat_app; eval_read; reflexivity);
      rewrite H; clear H; cbn [mbind outcome_bind]; autorewrite with bytes
  end.

Ltac reads HP := repeat first [ guard_false | read_at HP ].

(** A size guard on a concatenation of fields. *)
Ltac guard_off :=
  match goal with
  | |- context [if ?b then _ else _] =>
      replace b with false by (symmetry; first [apply Z.ltb_ge | apply Z.leb_gt]; solve_off)
  end.

(** ** Columns of a row description *)

Definition wf_column (c : ColumnInfo) : Prop :=
  blen (name c) < 2 ^ 32 ∧ in_u32 (table_oid c) ∧ in_u16 (column_index c) ∧
  in_u32 (type_oid c) ∧ - 2 ^ 15 <= type_size c < 2 ^ 15 ∧
  - 2 ^ 31 <= type_modifier c < 2 ^ 31.

Definition encode_column (c : ColumnInfo) : bytes :=
  le_bytes 4 (blen (name c)) ++ name c ++ le_bytes 4 (table_oid c) ++
  le_bytes 2 (column_index c) ++ le_bytes 4 (type_oid c) ++
  le_bytes 2 (u16 (type_size c)) ++ le_bytes 4 (u32 (type_modifier c)) ++
  [format c; if nullable c then Byte.x01 else Byte.x00; Byte.x00; Byte.x00].

Definition encode_row_description (cs : list ColumnInfo) : bytes :=
  le_bytes 2 (blen cs) ++ [Byte.x00; Byte.x00] ++ concat (encode_column <$> cs).

Lemma length_encode_column c : blen (encode_column c) = 24 + blen (name c).
Proof. unfold encode_column. solve_off. Qed.

Lemma row_description_loop_roundtrip cs :
  Forall wf_column cs → ∀ P pre rest acc offset ctx,
  P = pre ++ concat (encode_column <$> cs) ++ rest → offset = blen pre →
  row_description_loop (length cs) P offset acc ctx = Ret (OK, acc ++ cs, ctx).
Proof.
  induction 1 as [|c cs (Hn & Ht & Hi & Ho & Hs & Hm) _ IH];
    intros P pre rest acc offset ctx HP ->; cbn [row_description_loop length].
  { by rewrite app_nil_r. }
  rewrite fmap_cons, concat_cons in HP.
  assert (HL : blen P = blen pre + (24 + blen (name c))
                 + blen (concat (encode_column <$> cs)) + blen rest).
  { rewrite HP. generalize (length_encode_column c). generalize (encode_column c). intros. solve_off. }
  assert (HI : row_description_loop (length cs) P (blen pre + (24 + blen (name c))) (acc ++ [c]) ctx
               = Ret (OK, (acc ++ [c]) ++ cs, ctx)).
  { apply (IH _ (pre ++ encode_column c) rest).
    - by rewrite HP, <-!app_assoc.
    - generalize (length_encode_column c). generalize (encode_column c). intros. solve_off. }
  unfold encode_column in HP.
  assert (Hl : in_u32 (blen (name c))) by (unfold in_u32; lia).
  assert (Hs' : in_u16 (u16 (type_size c))) by (apply Z.mod_pos_bound; done).
  assert (Hm' : in_u32 (u32 (type_modifier c))) by (apply Z.mod_pos_bound; done).
  reads HP.
  unfold i16, i32. unfold u16, u32. rewrite !to_signed_mod by lia.
  replace (byte_val (if nullable c then Byte.x01 else Byte.x00) =? 1) with (nullable c)
    by (by destruct (nullable c)).
  rewrite <-app_assoc in HI. etrans; [|exact HI]. f_equal; [lia|by destruct c].
Qed.

Lemma row_description_parse cs rest cs0 ctx :
  Forall wf_column cs → blen cs < 2 ^ 16 →
  parseRowDescription (encode_row_description cs ++ rest) cs0 ctx = Ret (OK, cs, ctx).
Proof.
  intros Hcs Hn. unfold parseRowDescription, encode_row_description.
  rewrite <-!app_assoc. guard_off. assert (in_u16 (blen cs)) by (unfold in_u16; lia).
  read_step. rewrite Nat2Z.id.
  by apply (row_description_loop_roundtrip cs Hcs _ (le_bytes 2 (blen cs) ++ [Byte.x00; Byte.x00]) rest).
Qed.

(** The column descriptions a server sends are the ones the client reports. *)
Theorem row_description_roundtrip cs rest cs0 ctx :
  Forall wf_column cs → blen cs < 2 ^ 16 →
  parseRowDescription (encode_row_description cs ++ rest) cs0 ctx = Ret (OK, cs, ctx).
Proof. exact (row_description_parse cs rest cs0 ctx). Qed.

(** ** Values of a data row *)

(** Bit [i] of the null bitmap. *)
Definition null_bit (bm : bytes) (i : Z) : bool :=
  Z.testbit (byte_val (nth (Z.to_nat (i / 8)) bm Byte.x00)) (i mod 8).

Definition row_value (v : ColumnValue) : option bytes :=
  if is_null v then None else Some (data v).

(** A value whose bit is set takes no space. *)
Fixpoint encode_values (bm : bytes) (i : Z) (vs : list ColumnValue) : bytes :=
  match vs with
  | [] => []
  | v :: vs =>
      (if null_bit bm i then [] else enc c_nullable (row_value v)) ++ encode_values bm (i + 1) vs
  end.

Definition wf_value (v : ColumnValue) : Prop :=
  if is_null v then data v = [] else blen (data v) < 0xFFFFFFFF.

#[export] Instance wf_value_dec v : Decision (wf_value v).
Proof. unfold wf_value. destruct (is_null v); apply _. Defined.

(** The bitmap marks only nulls; a null may also be sent as the length -1. *)
Fixpoint bitmap_ok (bm : bytes) (i : Z) (vs : list ColumnValue) : Prop :=
  match vs with
  | [] => True
  | v :: vs => (null_bit bm i = true → is_null v = true) ∧ bitmap_ok bm (i + 1) vs
  end.

Definition encode_row (bm : bytes) (vs : list ColumnValue) : bytes :=
  le_bytes 2 (blen vs) ++ le_bytes 2 (blen bm) ++ bm ++ encode_values bm 0 vs.

(** The test of the null bit at the head of an iteration. *)
Lemma null_test P pre bm post i :
  P = pre ++ bm ++ post → 0 <= i →
  (if i / 8 <? blen bm
   then b ← load P (blen pre + i / 8);
        Ret (negb (Z.land (byte_val b) (Z.shiftl 1 (i mod 8)) =? 0))
   else Ret false) = Ret (null_bit bm i).
Proof.
  intros -> Hi. assert (0 <= i / 8) by (apply Z.div_pos; lia). unfold null_bit.
  destruct (Z.ltb_spec (i / 8) (blen bm)) as [Hlt|Hge].
  - rewrite load_skip by lia. unfold load. rewrite length_app. guard_true.
    replace (blen pre + i / 8 - blen pre) with (i / 8) by lia.
    rewrite app_nth1 by lia. cbn [mbind outcome_bind].
    rewrite land_bit; [done|]. by apply Z.mod_pos_bound.
  - rewrite nth_overflow by lia. by rewrite byte_val_x00, Z.bits_0.
Qed.

Lemma null_value v : wf_value v → is_null v = true → v = mkValue [] true.
Proof. destruct v as [d []]; unfold wf_value; simpl; intros; simplify_eq; done. Qed.

Lemma data_row_loop_roundtrip bm pre rest vs ctx :
  Forall wf_value vs → ∀ P mid i acc offset,
  bitmap_ok bm i vs → 0 <= i →
  P = pre ++ bm ++ mid ++ encode_values bm i vs ++ rest →
  offset = blen pre + blen bm + blen mid →
  data_row_loop (length vs) i P (blen pre) (blen bm) offset acc ctx = Ret (OK, acc ++ vs, ctx).
Proof.
  induction 1 as [|v vs Hv _ IH]; intros P mid i acc offset Hbm Hi HP ->;
    cbn [data_row_loop length encode_values bitmap_ok] in *.
  { by rewrite app_nil_r. }
  rewrite (null_test P pre bm (mid ++ encode_values bm i (v :: vs) ++ rest)) by done.
  cbn [mbind outcome_bind]. destruct Hbm as [Hb Hbm]. rewrite (cons_middle v acc vs).
  rewrite (app_assoc acc). destruct (null_bit bm i).
  { rewrite <-(null_value v) by auto. apply (IH P mid); [done|lia|done|done]. }
  cbn iota.
  unfold row_value in HP. destruct (is_null v) eqn:En; cbn [enc c_nullable] in HP.
  - assert (HL : blen P = blen pre + blen bm + blen mid + 4
                   + blen (encode_values bm (i + 1) vs) + blen rest) by (rewrite HP; solve_off).
    guard_false. assert (in_u32 4294967295) by done.
    read_at HP. rewrite <-(null_value v) by auto.
    apply (IH P (mid ++ le_bytes 4 4294967295)); [done|lia| |solve_off].
    rewrite HP. flat_app. done.
  - unfold wf_value in Hv. rewrite En in Hv.
    assert (HL : blen P = blen pre + blen bm + blen mid + (4 + blen (data v))
                   + blen (encode_values bm (i + 1) vs) + blen rest) by (rewrite HP; solve_off).
    assert (in_u32 (u32 (blen (data v)))) by (apply Z.mod_pos_bound; done).
    guard_false. read_at HP. unfold u32 in *. rewrite Z.mod_small in * by lia.
    guard_false. guard_false. read_at HP. rewrite <-En. destruct v as [d nl]. simpl in *.
    apply (IH P (mid ++ le_bytes 4 (blen d) ++ d)); [done|lia| |solve_off].
    rewrite HP. flat_app. done.
Qed.

Lemma data_row_parse bm vs rest vs0 ctx :
  Forall wf_value vs → bitmap_ok bm 0 vs → blen vs < 2 ^ 16 → blen bm < 2 ^ 16 →
  parseDataRow (encode_row bm vs ++ rest) (blen vs) vs0 ctx = Ret (OK, vs, ctx).
Proof.
  intros Hvs Hbm Hn Hm. unfold parseDataRow, encode_row.
  rewrite <-!app_assoc. guard_off.
  assert (in_u16 (blen vs) ∧ in_u16 (blen bm)) as [? ?] by (unfold in_u16; lia).
  read_step. read_step. rewrite Z.eqb_refl. cbn [negb]. guard_off. rewrite Nat2Z.id.
  apply (data_row_loop_roundtrip bm (le_bytes 2 (blen vs) ++ le_bytes 2 (blen bm)) rest
    vs ctx Hvs _ [] 0 []); [done|lia| |solve_off]. by flat_app.
Qed.

(** The row values a server sends, nulls marked in the bitmap or by length,
    are the ones the client reports. *)
Theorem data_row_roundtrip bm vs rest vs0 ctx :
  Forall wf_value vs → bitmap_ok bm 0 vs → blen vs < 2 ^ 16 → blen bm < 2 ^ 16 →
  parseDataRow (encode_row bm vs ++ rest) (blen vs) vs0 ctx = Ret (OK, vs, ctx).
Proof. exact (data_row_parse bm vs rest vs0 ctx). Qed.

(** ** Fields of an error message *)

Definition nul_free (s : bytes) : Prop := Byte.x00 ∉ s.

#[export] Instance nul_free_dec s : Decision (nul_free s).
Proof. unfold nul_free. apply _. Defined.

Definition wf_field (e : byte * bytes) : Prop := e.1 ≠ Byte.x00 ∧ nul_free e.2.

Definition encode_field (e : byte * bytes) : bytes := e.1 :: e.2 ++ [Byte.x00].

Definition encode_error (fs : list (byte * bytes)) : bytes :=
  concat (encode_field <$> fs) ++ [Byte.x00].

(** Later fields replace earlier ones with the same letter. *)
Definition error_fields (fs : list (byte * bytes)) : ErrorFields :=
  foldl (λ f e, set_field f e.1 e.2) empty_fields fs.

Lemma scan_nul_app s : nul_free s → ∀ fuel P pre rest offset,
  P = pre ++ s ++ Byte.x00 :: rest → offset = blen pre → (length s < fuel)%nat →
  scan_nul fuel P offset = Ret (offset + blen s).
Proof.
  induction s as [|b s IH]; intros Hs fuel P pre rest offset HP -> Hf;
    (destruct fuel as [|fuel]; [simpl in Hf; lia|]); cbn [scan_nul].
  - assert (blen P = blen pre + (1 + blen rest)) by (rewrite HP; solve_off).
    guard_true. rewrite HP. cbn [app]. rewrite load_app by done. cbn [mbind outcome_bind].
    rewrite bool_decide_eq_true_2 by done. f_equal. simpl. lia.
  - assert (blen P = blen pre + (1 + blen s + (1 + blen rest))) by (rewrite HP; solve_off).
    guard_true. unfold nul_free in *. apply not_elem_of_cons in Hs as [Hb Hs].
    rewrite HP at 1. cbn [app]. rewrite load_app by done. cbn [mbind outcome_bind].
    rewrite bool_decide_eq_false_2 by done.
    rewrite (IH Hs fuel P (pre ++ [b]) rest).
    + f_equal. simpl. lia.
    + rewrite HP. by flat_app.
    + solve_off.
    + simpl in Hf. lia.
Qed.

Lemma error_message_loop_roundtrip fs rest ctx :
  Forall wf_field fs → ∀ fuel P pre f offset,
  P = pre ++ concat (encode_field <$> fs) ++ Byte.x00 :: rest → offset = blen pre →
  (length fs < fuel)%nat →
  error_message_loop fuel P offset f ctx =
    Ret (OK, foldl (λ f e, set_field f e.1 e.2) f fs, ctx).
Proof.
  induction 1 as [|[t v] fs [Ht Hv] _ IH]; intros fuel P pre f offset HP -> Hf;
    (destruct fuel as [|fuel]; [simpl in Hf; lia|]); cbn [error_message_loop foldl].
  - assert (blen P = blen pre + (1 + blen rest)) by (rewrite HP; solve_off).
    guard_true. rewrite HP. cbn [fmap list_fmap concat app]. rewrite load_app by done. done.
  - rewrite fmap_cons, concat_cons in HP. unfold encode_field at 1 in HP.
    revert HP. flat_app. intros HP. simpl in Ht, Hv.
    assert (HL : blen P = blen pre + (2 + blen v) + blen (concat (encode_field <$> fs))
                   + (1 + blen rest)) by (rewrite HP; solve_off).
    guard_true. rewrite HP at 1. rewrite load_app by done. cbn [mbind outcome_bind].
    rewrite bool_decide_eq_false_2 by done.
    rewrite (scan_nul_app v Hv (S (length P)) P (pre ++ [t])
      (concat (encode_field <$> fs) ++ Byte.x00 :: rest));
      [|rewrite HP; by flat_app|solve_off|lia].
    cbn [mbind outcome_bind]. guard_false.
    replace (slice P (blen pre + 1) (blen pre + 1 + blen v - (blen pre + 1))) with (Ret v).
    2: { symmetry. rewrite HP. slice_step. done. }
    cbn [mbind outcome_bind]. apply (IH fuel P (pre ++ t :: v ++ [Byte.x00])).
    + rewrite HP. by flat_app.
    + solve_off.
    + simpl in Hf. lia.
Qed.

Lemma length_encode_fields fs : (length fs <= length (concat (encode_field <$> fs)))%nat.
Proof. induction fs as [|[t v] fs IH]; csimpl; [lia|]. rewrite length_app. lia. Qed.

Lemma error_message_parse fs rest ctx :
  Forall wf_field fs →
  parseErrorMessage (encode_error fs ++ rest) ctx = Ret (OK, error_fields fs, ctx).
Proof.
  intros Hfs. apply (error_message_loop_roundtrip fs rest ctx Hfs _ _ []); [|done|].
  - unfold encode_error. by flat_app.
  - unfold encode_error. pose proof (length_encode_fields fs). rewrite !length_app. lia.
Qed.

(** The tagged fields of an error message are all recovered. *)
Theorem error_message_roundtrip fs rest ctx :
  Forall wf_field fs →
  parseErrorMessage (encode_error fs ++ rest) ctx = Ret (OK, error_fields fs, ctx).
Proof. exact (error_message_parse fs rest ctx). Qed.

Lemma error_message_roundtrip_witness :
  let fs := [("S"%byte, "ERROR" : bytes); ("C"%byte, "42P01" : bytes);
             ("M"%byte, "no such table" : bytes)] in
  Forall wf_field fs ∧
  parseErrorMessage (encode_error fs ++ []) None =
    Ret (OK, mkErrorFields "ERROR" "42P01" "no such table" [] [], None).
Proof.
  intros fs.
  assert (H : Forall wf_field fs).
  { unfold fs, wf_field. repeat constructor; simpl; try done; by apply (bool_decide_unpack _). }
  split; [exact H|]. exact (error_message_roundtrip fs [] None H).
Defined.

#[export] Instance wf_column_dec c : Decision (wf_column c).
Proof. unfold wf_column. apply _. Defined.

#[export] Instance bitmap_ok_dec bm i vs : Decision (bitmap_ok bm i vs).
Proof. revert i; induction vs; intros i; simpl; apply _. Defined.

Lemma row_description_roundtrip_witness :
  let cs := [mkColumn "id" 16384 1 20 8 (-1) Byte.x01 false;
             mkColumn "name" 16384 2 25 (-1) (-1) Byte.x00 true] in
  (Forall wf_column cs ∧ blen cs < 2 ^ 16) ∧
  parseRowDescription (encode_row_description cs ++ [Byte.x01]) [] None = Ret (OK, cs, None).
Proof.
  intros cs.
  assert (H : Forall wf_column cs) by (apply (bool_decide_unpack _); vm_compute; exact I).
  split; [split; [exact H|done]|].
  exact (row_description_roundtrip cs [Byte.x01] [] None H eq_refl).
Defined.

Lemma data_row_roundtrip_witness :
  let vs := [mkValue "42" false; mkValue [] true; mkValue [] true; mkValue "x" false] in
  let bm := [Byte.x02] in
  (Forall wf_value vs ∧ bitmap_ok bm 0 vs) ∧
  parseDataRow (encode_row bm vs ++ []) 4 [] None = Ret (OK, vs, None).
Proof.
  intros vs bm.
  assert (H : Forall wf_value vs) by (apply (bool_decide_unpack _); vm_compute; exact I).
  assert (Hb : bitmap_ok bm 0 vs) by (apply (bool_decide_unpack _); vm_compute; exact I).
  split; [split; [exact H|exact Hb]|].
  exact (data_row_roundtrip bm vs [] [] None H Hb eq_refl eq_refl).
Defined.

(** ** Messages of fixed shape *)

(** A notification, with the optional change record at its end. *)
Definition encode_notification (n : Notification) : bytes :=
  le_bytes 4 (process_id n) ++ le_bytes 4 (blen (channel n)) ++ channel n ++
  le_bytes 4 (blen (npayload n)) ++ npayload n ++
  (if has_row n then change_type n :: le_bytes 8 (row_id n) else []).

Definition wf_notification (n : Notification) : Prop :=
  in_u32 (process_id n) ∧ in_u32 (blen (channel n)) ∧ in_u32 (blen (npayload n)) ∧
  in_u64 (row_id n) ∧ (has_row n = false → change_type n = Byte.x00 ∧ row_id n = 0).

#[export] Instance wf_notification_dec n : Decision (wf_notification n).
Proof. unfold wf_notification. apply _. Defined.

(** The status report, transaction id and policy epoch of a ready message. *)
Definition encode_ready (status : byte) (txn epoch : Z) : bytes :=
  [status; Byte.x00; Byte.x00; Byte.x00] ++ le_bytes 8 txn ++ le_bytes 8 epoch.

Definition encode_command_complete (ct : byte) (rows last_id : Z) (tag : bytes) : bytes :=
  [ct; Byte.x00; Byte.x00; Byte.x00] ++ le_bytes 8 rows ++ le_bytes 8 last_id ++ tag ++ [Byte.x00].

Definition encode_parameter_status (n v : bytes) : bytes :=
  le_bytes 4 (blen n) ++ n ++ le_bytes 4 (blen v) ++ v.

Lemma notification_parse n n0 ctx :
  wf_notification n → parseNotification (encode_notification n) n0 ctx = Ret (OK, n, ctx).
Proof.
  intros (Hp & Hc & Hl & Hr & Hn). unfold parseNotification, encode_notification.
  guard_off. read_step. read_step. guard_off. read_step. read_step. guard_off. read_step.
  destruct n as [pid ch pl ct row []];
    cbn [process_id channel npayload change_type row_id has_row] in *.
  - replace (_ <? _) with true by (symmetry; apply Z.ltb_lt; solve_off).
    read_step. replace (_ <=? _) with true by (symmetry; apply Z.leb_le; solve_off).
    read_step. done.
  - replace (_ <? _) with false by (symmetry; apply Z.ltb_ge; solve_off).
    by destruct Hn as [-> ->].
Qed.

Lemma find_byte_nul tag r : nul_free tag → find_byte Byte.x00 (tag ++ Byte.x00 :: r) = Some (length tag).
Proof.
  unfold nul_free. induction tag as [|b tag IH]; intros H; [done|].
  apply not_elem_of_cons in H as [Hb H]. cbn [find_byte app length].
  rewrite IH by done. destruct (Byte.eqb b Byte.x00) eqn:E; [|done].
  apply Byte.byte_dec_bl in E. congruence.
Qed.

Lemma command_complete_parse ct rows last_id tag ct0 r0 l0 t0 ctx :
  in_u64 rows → in_u64 last_id → nul_free tag →
  parseCommandComplete (encode_command_complete ct rows last_id tag) ct0 r0 l0 t0 ctx =
    Ret (OK, ct, rows, last_id, tag, ctx).
Proof.
  intros Hr Hl Ht. unfold parseCommandComplete, encode_command_complete. flat_app.
  guard_off. do 3 read_step.
  assert (H : slice (ct :: Byte.x00 :: Byte.x00 :: Byte.x00 :: le_bytes 8 rows ++
      le_bytes 8 last_id ++ tag ++ [Byte.x00]) 20 (blen (ct :: Byte.x00 :: Byte.x00 :: Byte.x00 ::
      le_bytes 8 rows ++ le_bytes 8 last_id ++ tag ++ [Byte.x00]) - 20) = Ret (tag ++ [Byte.x00]))
    by (slice_step; reflexivity).
  rewrite H. cbn [mbind outcome_bind]. unfold cut_at_nul.
  by rewrite find_byte_nul, take_app_length.
Qed.

Lemma parameter_status_parse n v n0 v0 ctx :
  in_u32 (blen n) → in_u32 (blen v) →
  parseParameterStatus (encode_parameter_status n v) n0 v0 ctx = Ret (OK, n, v, ctx).
Proof.
  intros Hn Hv. unfold parseParameterStatus, encode_parameter_status.
  guard_off. read_step. guard_off. read_step. read_step. guard_off. read_step. done.
Qed.

Lemma ready_parse status txn epoch b z1 z2 ctx :
  in_u64 txn → in_u64 epoch →
  parseReady (encode_ready status txn epoch) b z1 z2 ctx = Ret (OK, status, txn, epoch, ctx).
Proof.
  intros Ht He. unfold parseReady, encode_ready. flat_app. guard_off. do 3 read_step. done.
Qed.

(** Notifications, ready and completion reports and parameter reports are
    recovered field by field. *)
Theorem responses_roundtrip n status txn epoch ct tag pname pvalue :
  wf_notification n → in_u64 txn → in_u64 epoch → nul_free tag →
  in_u32 (blen pname) → in_u32 (blen pvalue) → ∀ n0 b z bs ctx,
  parseNotification (encode_notification n) n0 ctx = Ret (OK, n, ctx) ∧
  parseReady (encode_ready status txn epoch) b z z ctx = Ret (OK, status, txn, epoch, ctx) ∧
  parseCommandComplete (encode_command_complete ct txn epoch tag) b z z bs ctx =
    Ret (OK, ct, txn, epoch, tag, ctx) ∧
  parseParameterStatus (encode_parameter_status pname pvalue) bs bs ctx =
    Ret (OK, pname, pvalue, ctx).
Proof.
  intros Hn Ht He Htag Hpn Hpv n0 b z bs ctx. split_and!.
  - by apply notification_parse.
  - by apply ready_parse.
  - by apply command_complete_parse.
  - by apply parameter_status_parse.
Qed.

Lemma responses_roundtrip_witness :
  let n := mkNotification 7 "jobs" "done" Byte.x49 12 true in
  parseNotification (encode_notification n) n None = Ret (OK, n, None) ∧
  parseReady (encode_ready Byte.x01 5 6) Byte.x00 0 0 None = Ret (OK, Byte.x01, 5, 6, None) ∧
  parseCommandComplete (encode_command_complete Byte.x02 5 6 "INSERT") Byte.x00 0 0 [] None =
    Ret (OK, Byte.x02, 5, 6, "INSERT" : bytes, None) ∧
  parseParameterStatus (encode_parameter_status "k" "v") [] [] None =
    Ret (OK, "k" : bytes, "v" : bytes, None).
Proof.
  intros n.
  apply (responses_roundtrip n Byte.x01 5 6 Byte.x02 "INSERT" "k" "v");
    apply (bool_decide_unpack _); vm_compute; exact I.
Defined.
