(* ===== verification/ErrorContext.v ===== *)
(** * Error contexts

    [core::ErrorContext] of [include/scratchbird/core/error_context.h]: the
    fields the client library reads and writes. A null pointer is [None]. The
    parsers of the wire protocol write the message only, so they are run on it
    alone ([parse_with]). *)

From S2P Require Import Prelude.
From S2P Require Import Sqlstate.

Record ErrorContext := mkContext {
  c_code : Status;
  c_sqlstate : bytes;
  c_message : bytes;
  c_hint : bytes
}.

#[export] Instance ErrorContext_eta : Eta ErrorContext :=
  λ c, mkContext (c_code c) (c_sqlstate c) (c_message c) (c_hint c).

(** [core::ErrorContext ctx;] *)
Definition fresh_context : ErrorContext := mkContext OK SQLSTATE_SUCCESS [] [].

(** [ErrorContext::set], by way of [SET_ERROR_CONTEXT]. *)
Definition set_context (ctx : option ErrorContext) (status : Status) (msg : bytes)
    : option ErrorContext :=
  (λ c, c <| c_code := status |> <| c_sqlstate := statusToSQLState status |> <| c_message := msg |>)
    <$> ctx.

(** [ErrorContext::setSQLState] with a text. *)
Definition setSQLState (ctx : option ErrorContext) (custom_sqlstate : bytes) : option ErrorContext :=
  (λ c, c <| c_sqlstate := custom_sqlstate |>) <$> ctx.

Definition put_message (ctx : option ErrorContext) (m : option bytes) : option ErrorContext :=
  match ctx, m with
  | Some c, Some m => Some (c <| c_message := m |>)
  | _, _ => ctx
  end.

(** Run a parser that is given the context. *)
Definition parse_with {A} (parse : option bytes → outcome (A * option bytes))
    (ctx : option ErrorContext) : outcome (A * option ErrorContext) :=
  '(a, m) ← parse (c_message <$> ctx);
  Ret (a, put_message ctx m).

Lemma put_message_same ctx : put_message ctx (c_message <$> ctx) = ctx.
Proof. by destruct ctx as [[]|]. Qed.

(** A parser that leaves the context alone. *)
Lemma parse_with_ret {A} (parse : option bytes → outcome (A * option bytes)) a ctx :
  (∀ m, parse m = Ret (a, m)) → parse_with parse ctx = Ret (a, ctx).
Proof.
  intros H. unfold parse_with. rewrite H. cbn [mbind outcome_bind]. by rewrite put_message_same.
Qed.
