(* ===== verification/Transport.v ===== *)
(** * Transport: exact reads, message framing over a socket or TLS

    Models [readExactWithTimeout], the byte-level [sendMessage] and
    [receiveMessage] of [src/network_client.cpp]. The socket and the TLS
    connection are seen as what has still to arrive and what was written: the
    peer's bytes come in arbitrary fragments, a read can fail, and a write can
    fail after part of the buffer. *)

From S2P Require Import Prelude.
From S2P Require Import Sqlstate.
From S2P Require Import Wire.
From S2P Require Import ErrorContext.

(** What one [read] call finds: a fragment (an empty one is a read that would
    have blocked), or the failure of the call with the message it leaves. The
    stream ends with the list. *)
Inductive arrival :=
  | Data (b : bytes)
  | Fault (status : Status) (msg : bytes).

Record transport := mkTransport {
  tls_active : bool;
  incoming : list arrival;
  outgoing : bytes;
  write_faults : list (option nat)  (** the coming writes; [Some n] fails after [n] bytes *)
}.

#[export] Instance transport_eta : Eta transport :=
  λ t, mkTransport (tls_active t) (incoming t) (outgoing t) (write_faults t).

(** [setError] of [network_client.cpp]: sets the context and returns the status. *)
Definition setError (ctx : option ErrorContext) (status : Status) (message : bytes)
    : Status * option ErrorContext :=
  (status, set_context ctx status message).

(** The loop of [readExactWithTimeout]: [need] bytes are missing. A read returns
    at most the bytes asked for; the rest of the fragment stays. The end of the
    stream is a failure of [Socket::read] that leaves the context alone. *)
Fixpoint read_arrivals (tls : bool) (need : Z) (arrivals : list arrival) (ctx : option ErrorContext)
    : Status * bytes * option ErrorContext * list arrival :=
  if need <=? 0 then (OK, [], ctx, arrivals) else
  let closed rest :=
    let '(st, ctx) :=
      setError ctx CONNECTION_FAILURE (if tls then "TLS read failed" else "Connection closed") in
    (st, [], ctx, rest) in
  match arrivals with
  | [] => if tls then closed [] else (CONNECTION_FAILURE, [], ctx, [])
  | Fault st msg :: rest =>
      if tls || bool_decide (st = OK) then closed rest
      else (st, [], set_context ctx st msg, rest)
  | Data [] :: rest => closed rest
  | Data d :: rest =>
      if blen d <=? need then
        let '(st, got, ctx, rest) := read_arrivals tls (need - blen d) rest ctx in
        (st, d ++ got, ctx, rest)
      else (OK, take (Z.to_nat need) d, ctx, Data (drop (Z.to_nat need) d) :: rest)
  end.

Definition readExactWithTimeout (size : Z) (ctx : option ErrorContext) (t : transport)
    : Status * bytes * option ErrorContext * transport :=
  let '(st, got, ctx, rest) := read_arrivals (tls_active t) size (incoming t) ctx in
  (st, got, ctx, t <| incoming := rest |>).

(** The write loop over TLS, respectively [Socket::writeExact]. *)
Definition write_all (buf : bytes) (t : transport) : bool * transport :=
  match write_faults t with
  | [] => (true, t <| outgoing := outgoing t ++ buf |>)
  | None :: fs => (true, t <| outgoing := outgoing t ++ buf |> <| write_faults := fs |>)
  | Some n :: fs => (false, t <| outgoing := outgoing t ++ take n buf |> <| write_faults := fs |>)
  end.

Record ProtocolMessage := mkMessage { header : MessageHeader; body : bytes }.

(** [sendMessage] on a complete message. *)
Definition write_message (msg : ProtocolMessage) (ctx : option ErrorContext) (t : transport)
    : outcome (Status * option ErrorContext * transport) :=
  buf ← encodeMessage (header msg) (body msg);
  let '(ok, t) := write_all buf t in
  if ok : bool then Ret (OK, ctx, t)
  else
    let '(st, ctx) := setError ctx CONNECTION_FAILURE
      (if tls_active t then "TLS write failed" else "Socket write failed") in
    Ret (st, ctx, t).

(** [MessageHeader{}]: the type is [Query], everything else zero. *)
Definition default_header : MessageHeader :=
  mkHeader Byte.x03 Byte.x00 0 0 (replicate 16 Byte.x00) 0.

Definition receiveMessage (msg : ProtocolMessage) (ctx : option ErrorContext) (t : transport)
    : outcome (Status * ProtocolMessage * option ErrorContext * transport) :=
  let '(st, header_bytes, ctx, t) := readExactWithTimeout kHeaderSize ctx t in
  if bool_decide (st ≠ OK) then Ret (st, msg, ctx, t) else
  '(st, h, ctx) ← parse_with (decodeHeader header_bytes default_header) ctx;
  if bool_decide (st ≠ OK) then Ret (st, msg, ctx, t) else
  if 0 <? hlength h then
    let '(st, b, ctx, t) := readExactWithTimeout (hlength h) ctx t in
    Ret (st, mkMessage h b, ctx, t)
  else Ret (OK, mkMessage h [], ctx, t).

(** ** Streams

    [stream inc bs]: the fragments of [inc] hold the bytes [bs], without an
    end or a failure before them. *)

Definition stream (inc : list arrival) (bs : bytes) : Prop :=
  ∃ chunks, inc = Data <$> chunks ∧ Forall (λ d, d ≠ []) chunks ∧ concat chunks = bs.

Lemma stream_nil : stream [] [].
Proof. by exists []. Qed.

Lemma stream_one bs : bs ≠ [] → stream [Data bs] bs.
Proof. intros. exists [bs]. split; [done|]. split; [by constructor|]. cbn. by rewrite app_nil_r. Qed.

Lemma nil_length_inv_drop {A} k (l : list A) : drop k l = [] → (length l <= k)%nat.
Proof. intros E. apply (f_equal length) in E. rewrite length_drop in E. cbn in E. lia. Qed.

(** Two fragments. *)
Lemma stream_split n bs : (0 < n < length bs)%nat → stream [Data (take n bs); Data (drop n bs)] bs.
Proof.
  intros Hn. exists [take n bs; drop n bs]. split; [done|]. split.
  - repeat constructor; intros E; apply (f_equal length) in E;
      rewrite ?length_take, ?length_drop in E; cbn in E; lia.
  - cbn [concat]. by rewrite app_nil_r, take_drop.
Qed.

(** Exact reads do not depend on the fragmentation. *)
Lemma read_stream tls inc : ∀ need bs ctx,
  stream inc bs → 0 <= need <= blen bs →
  ∃ inc', read_arrivals tls need inc ctx = (OK, take (Z.to_nat need) bs, ctx, inc') ∧
    stream inc' (drop (Z.to_nat need) bs).
Proof.
  induction inc as [|a inc IH]; intros need bs ctx (chunks & E & Hne & Hc) Hneed.
  - symmetry in E. apply fmap_nil_inv in E as ->. cbn in Hc. subst bs. cbn in Hneed.
    cbn [read_arrivals]. replace (need <=? 0) with true by lia. exists [].
    rewrite take_nil, drop_nil. split; [done|]. apply stream_nil.
  - destruct chunks as [|d chunks]; [done|]. rewrite fmap_cons in E. injection E as -> E.
    apply Forall_cons in Hne as [Hd Hne]. rewrite concat_cons in Hc. subst bs.
    rewrite length_app in Hneed. cbn [read_arrivals].
    destruct (Z.leb_spec need 0).
    { exists (Data d :: inc). replace (Z.to_nat need) with O by lia. split; [done|].
      exists (d :: chunks). rewrite fmap_cons, E. split; [done|]. split; [by constructor|done]. }
    destruct d as [|b d']; [done|]. set (d := b :: d') in *. destruct (Z.leb_spec (blen d) need).
    + destruct (IH (need - blen d) (concat chunks) ctx) as (inc' & -> & Hs); [by exists chunks|rewrite Nat2Z.inj_add in Hneed; lia|].
      exists inc'. replace (Z.to_nat need) with (length d + Z.to_nat (need - blen d))%nat by lia.
      rewrite take_app_add, drop_app_add. done.
    + exists (Data (drop (Z.to_nat need) d) :: inc). rewrite take_app_le, drop_app_le by lia.
      split; [done|]. exists (drop (Z.to_nat need) d :: chunks). rewrite fmap_cons, E.
      split; [done|]. split; [|done]. constructor; [|done].
      intros Hnil%nil_length_inv_drop. lia.
Qed.

Lemma readExact_stream size bs ctx t :
  stream (incoming t) bs → 0 <= size <= blen bs →
  ∃ inc', readExactWithTimeout size ctx t =
      (OK, take (Z.to_nat size) bs, ctx, t <| incoming := inc' |>) ∧
    stream inc' (drop (Z.to_nat size) bs).
Proof.
  intros Hs Hsize. destruct (read_stream (tls_active t) _ size bs ctx Hs Hsize) as (inc' & E & Hs').
  exists inc'. unfold readExactWithTimeout. by rewrite E.
Qed.

(** ** Frames *)

Definition frame (h : MessageHeader) (b : bytes) : bytes := header_layout h (blen b) ++ b.

(** The header as it is received. *)
Definition stamped (h : MessageHeader) (b : bytes) : MessageHeader :=
  mkHeader (type h) (flags h) (blen b) (sequence h) (attachment_id h) (txn_id h).

Lemma length_frame h b : length (attachment_id h) = 16%nat → length (frame h b) = (40 + length b)%nat.
Proof. intros Ha. unfold frame. by rewrite length_app, length_header_layout. Qed.

Lemma write_frame h b ctx t :
  wf_header h → blen b <= kMaxMessageSize → write_faults t = [] →
  write_message (mkMessage h b) ctx t =
    Ret (OK, ctx, t <| outgoing := outgoing t ++ frame h b |>).
Proof.
  intros (_ & Hs & Ha & Hx) Hb Hf. unfold write_message, write_all. cbn [header body].
  rewrite encodeMessage_layout by done. cbn [mbind outcome_bind]. rewrite Hf.
  replace (u32 (blen b)) with (blen b); [done|].
  symmetry. apply Z.mod_small. unfold kMaxMessageSize in Hb. lia.
Qed.

Lemma receive_frame msg0 h b rest ctx t :
  wf_header h → blen b <= kMaxMessageSize → stream (incoming t) (frame h b ++ rest) →
  ∃ inc', receiveMessage msg0 ctx t =
      Ret (OK, mkMessage (stamped h b) b, ctx, t <| incoming := inc' |>) ∧
    stream inc' rest.
Proof.
  intros (_ & Hs & Ha & Hx) Hb Hin. unfold receiveMessage.
  pose proof (length_header_layout h (blen b) Ha) as H40.
  unfold frame in Hin. rewrite <-app_assoc in Hin.
  destruct (readExact_stream kHeaderSize _ ctx t Hin) as (inc1 & -> & Hin1).
  { rewrite length_app, H40. unfold kHeaderSize. lia. }
  change (Z.to_nat kHeaderSize) with 40%nat in *. rewrite <-H40 in Hin1 |- *.
  rewrite take_app_length. rewrite drop_app_length in Hin1.
  rewrite bool_decide_eq_false_2 by (by intros []).
  rewrite (parse_with_ret _ (OK, stamped h b)); [|intros m; apply decodeHeader_layout; auto; lia].
  cbn [mbind outcome_bind]. rewrite bool_decide_eq_false_2 by (by intros []).
  cbn [hlength stamped]. destruct (Z.ltb_spec 0 (blen b)).
  - destruct (readExact_stream (blen b) (b ++ rest) ctx (t <| incoming := inc1 |>)) as (inc2 & -> & Hin2);
      [done|rewrite length_app; lia|].
    exists inc2. rewrite Nat2Z.id in *. rewrite take_app_length. rewrite drop_app_length in Hin2. done.
  - exists inc1. destruct b; [done|cbn in *; lia].
Qed.

(** A message written by one side and delivered in whatever fragments is the
    message the other side receives, and exactly its bytes are consumed. *)
Theorem transport_roundtrip h b ctx1 t1 :
  wf_header h → blen b <= kMaxMessageSize → write_faults t1 = [] →
  ∃ wire, write_message (mkMessage h b) ctx1 t1 =
      Ret (OK, ctx1, t1 <| outgoing := outgoing t1 ++ wire |>) ∧
    ∀ msg0 ctx2 t2 rest, stream (incoming t2) (wire ++ rest) →
    ∃ inc', receiveMessage msg0 ctx2 t2 =
        Ret (OK, mkMessage (stamped h b) b, ctx2, t2 <| incoming := inc' |>) ∧
      stream inc' rest.
Proof.
  intros Hh Hb Hf. exists (frame h b). split; [by apply write_frame|].
  intros. by apply receive_frame.
Qed.

Lemma transport_roundtrip_witness :
  let h := mkHeader Byte.x43 Byte.x00 0 9 (replicate 16 Byte.x2a) 5 in
  ∃ wire, write_message (mkMessage h "ok") None (mkTransport false [] [] []) =
      Ret (OK, None, mkTransport false [] [] [] <| outgoing := wire |>) ∧
    ∃ inc', receiveMessage (mkMessage default_header []) None
        (mkTransport true [Data (take 3 wire); Data (drop 3 wire ++ "tail")] [] []) =
      Ret (OK, mkMessage (stamped h "ok") "ok", None, mkTransport true inc' [] []) ∧
      stream inc' "tail".
Proof.
  intros h.
  destruct (transport_roundtrip h "ok" None (mkTransport false [] [] [])) as (wire & E & H).
  { apply (bool_decide_unpack _). vm_compute. exact I. }
  { done. }
  { reflexivity. }
  exists wire. split; [exact E|].
  assert (Hlen : length wire = 42%nat).
  { vm_compute in E. injection E as <-. reflexivity. }
  apply (H (mkMessage default_header []) None
    (mkTransport true [Data (take 3 wire); Data (drop 3 wire ++ "tail")] [] []) "tail").
  exists [take 3 wire; drop 3 wire ++ "tail"]. split; [reflexivity|]. split.
  - constructor; [|constructor; [|constructor]].
    + intros E'. apply (f_equal length) in E'. rewrite length_take, Hlen in E'. discriminate E'.
    + intros [E' _]%app_eq_nil. apply nil_length_inv_drop in E'. lia.
  - cbn [concat]. rewrite app_nil_r, app_assoc, take_drop. done.
Defined.

(** ** Progress *)

(** The bytes that have still to arrive. *)
Definition pending (arrivals : list arrival) : Z :=
  foldr (λ a n, match a with Data d => blen d + n | Fault _ _ => n end) 0 arrivals.

Lemma pending_nonneg arrivals : 0 <= pending arrivals.
Proof. induction arrivals as [|[] l IH]; unfold pending in *; cbn [foldr]; lia. Qed.

Lemma read_arrivals_pending tls arrivals : ∀ need ctx st got ctx' rest,
  read_arrivals tls need arrivals ctx = (st, got, ctx', rest) →
  pending rest <= pending arrivals ∧
  (st = OK → pending rest + Z.max 0 need <= pending arrivals ∧ blen got = Z.max 0 need).
Proof.
  induction arrivals as [|[[|b d']|st0 m0] arrivals IH]; intros need ctx st got ctx' rest;
    cbn [read_arrivals]; destruct (Z.leb_spec need 0);
    try (intros [= <- <- <- <-]; split; [done|intros _; cbn [length]; lia]).
  - destruct tls; unfold setError; intros [= <- <- <- <-]; split; done.
  - unfold setError. intros [= <- <- <- <-]. unfold pending. cbn [foldr length]. split; [lia|done].
  - set (d := b :: d'). clearbody d. destruct (Z.leb_spec (blen d) need).
    + destruct (read_arrivals tls (need - blen d) arrivals ctx) as [[[st1 got1] ctx1] rest1] eqn:E.
      intros [= <- <- <- <-]. apply IH in E as [H1 H2]. cbn [pending foldr]. fold (pending arrivals).
      split; [lia|]. intros [H3 H4]%H2. rewrite length_app, Nat2Z.inj_add. lia.
    + intros [= <- <- <- <-]. cbn [pending foldr]. fold (pending arrivals).
      rewrite length_drop, length_take. split; [lia|intros _; lia].
  - destruct (tls || bool_decide (st0 = OK)) eqn:E.
    + unfold setError. intros [= <- <- <- <-]. by split.
    + apply orb_false_iff in E as [_ E%bool_decide_eq_false]. intros [= <- <- <- <-].
      by split.
Qed.

(** A message received takes at least its header from the stream. *)
Lemma receive_pending msg ctx t st m ctx' t' :
  receiveMessage msg ctx t = Ret (st, m, ctx', t') →
  pending (incoming t') <= pending (incoming t) ∧
  (st = OK → pending (incoming t') + 40 <= pending (incoming t)).
Proof.
  unfold receiveMessage, readExactWithTimeout.
  destruct (read_arrivals _ kHeaderSize _ _) as [[[st1 hb] ctx1] rest1] eqn:E1.
  apply read_arrivals_pending in E1 as [H1 H2]. change (Z.max 0 kHeaderSize) with 40 in H2.
  case_bool_decide as Hst1; [intros [= <- <- <- <-]; split; [exact H1|done]|].
  destruct (H2 Hst1) as [H3 _].
  destruct (parse_with _ ctx1) as [[[st2 h] ctx2]|]; [|done]. cbn [mbind outcome_bind].
  case_bool_decide; [intros [= <- <- <- <-]; split; [exact H1|done]|].
  destruct (0 <? hlength h); [|intros [= <- <- <- <-]; split; [exact H1|intros _; exact H3]].
  destruct (read_arrivals _ (hlength h) _ _) as [[[st3 b] ctx3] rest3] eqn:E3.
  apply read_arrivals_pending in E3 as [H4 _]. cbn [incoming set_field] in H4.
  intros [= <- <- <- <-]. cbn [incoming set_field]. split; [lia|intros _; lia].
Qed.
