(* ===== verification/NetworkConfig.v ===== *)
(** * The client's configuration

    Models [NetworkClientConfig] of [network_client.h] and the helpers of
    [src/network_client.cpp] that read it: protocol, front door and transport
    names, authentication method lists, the address to dial, and the statement
    that selects the schema. *)

From S2P Require Import Prelude.
From S2P Require Import Sqlstate.
From S2P Require Import ErrorContext.
From S2P Require Import Transport.

(** [network::SSLMode] *)
Inductive SSLMode := DISABLED | ALLOW | PREFER | REQUIRE | VERIFY_CA | VERIFY_FULL.

#[export] Instance SSLMode_eq_dec : EqDecision SSLMode.
Proof. solve_decision. Defined.

Record NetworkClientConfig := mkConfig {
  transport_mode : bytes;
  host : bytes;
  port : Z;
  protocol : bytes;
  front_door_mode : bytes;
  database : bytes;
  username : bytes;
  password : bytes;
  role : bytes;
  schema : bytes;
  application_name : bytes;
  manager_auth_token : bytes;
  manager_username : bytes;
  manager_database : bytes;
  manager_connection_profile : bytes;
  manager_client_intent : bytes;
  manager_client_flags : Z;
  manager_auth_fast_path : bool;
  connect_timeout_ms : Z;
  read_timeout_ms : Z;
  write_timeout_ms : Z;
  copy_window_bytes : Z;
  copy_chunk_bytes : Z;
  ssl_mode : SSLMode;
  ssl_cert : bytes;
  ssl_key : bytes;
  ssl_root_cert : bytes;
  connect_client_flags : Z;
  auth_method : Z;
  auth_method_id : bytes;
  auth_method_payload : bytes;
  auth_payload_json : bytes;
  auth_payload_b64 : bytes;
  auth_provider_profile : bytes;
  auth_required_methods : list bytes;
  auth_forbidden_methods : list bytes;
  auth_require_channel_binding : bool;
  workload_identity_token : bytes;
  proxy_principal_assertion : bytes;
  allow_password_fallback : bool;
  binary_transfer : bool;
  enable_compression : bool
}.

#[export] Instance NetworkClientConfig_eta : Eta NetworkClientConfig := λ c,
  mkConfig (transport_mode c) (host c) (port c) (protocol c) (front_door_mode c) (database c)
    (username c) (password c) (role c) (schema c) (application_name c) (manager_auth_token c)
    (manager_username c) (manager_database c) (manager_connection_profile c)
    (manager_client_intent c) (manager_client_flags c) (manager_auth_fast_path c)
    (connect_timeout_ms c) (read_timeout_ms c) (write_timeout_ms c) (copy_window_bytes c)
    (copy_chunk_bytes c) (ssl_mode c) (ssl_cert c) (ssl_key c) (ssl_root_cert c)
    (connect_client_flags c) (auth_method c) (auth_method_id c) (auth_method_payload c)
    (auth_payload_json c) (auth_payload_b64 c) (auth_provider_profile c)
    (auth_required_methods c) (auth_forbidden_methods c) (auth_require_channel_binding c)
    (workload_identity_token c) (proxy_principal_assertion c) (allow_password_fallback c)
    (binary_transfer c) (enable_compression c).

(** [NetworkClientConfig{}] *)
Definition default_config : NetworkClientConfig :=
  mkConfig "inet_listener" "127.0.0.1" 3092 "native" "direct" [] [] [] [] [] "scratchbird_odbc"
    [] [] [] "native_v3" "native_v3" 0 true 30000 300000 300000 65536 16384
    REQUIRE [] [] [] 0x0100 3 [] [] [] [] [] [] [] false [] [] false true false.

(** ** Names *)

(** [lower == name] *)
Definition names (ns : list bytes) (value : bytes) : bool := bool_decide (toLower value ∈ ns).

Definition isNativeProtocol (value : bytes) : bool := names [[]; "native" : bytes] value.

Definition isManagerProxyMode (value : bytes) : bool :=
  names ["manager_proxy" : bytes; "manager-proxy" : bytes; "managed" : bytes] value.

Definition isManagedTransport (value : bytes) : bool :=
  names ["managed" : bytes; "manager" : bytes; "manager_proxy" : bytes; "manager-proxy" : bytes] value.

Definition isInetTransport (value : bytes) : bool :=
  names [[]; "inet_listener" : bytes; "inet" : bytes; "listener" : bytes; "tcp" : bytes;
         "tcp_listener" : bytes; "network" : bytes] value.

Definition isValidAuthMethodId (method_id : bytes) : bool :=
  bool_decide (method_id = []) || starts_with "scratchbird.auth." method_id.

(** ** Authentication methods *)

(** Empty names are left out. *)
Definition joinMethodList (methods : list bytes) : bytes :=
  join_with [","%byte] (filter (λ m, m ≠ []) methods).

Fixpoint find_forbidden (req_norm : bytes) (forbidden : list bytes) : bool :=
  match forbidden with
  | [] => false
  | f :: fs => bool_decide (req_norm = toLower f) || find_forbidden req_norm fs
  end.

(** The first required method, in lower case, that is forbidden. *)
Fixpoint hasPinningOverlap (required forbidden : list bytes) : option bytes :=
  match required with
  | [] => None
  | req :: rs =>
      let req_norm := toLower req in
      if bool_decide (req_norm = []) then hasPinningOverlap rs forbidden
      else if find_forbidden req_norm forbidden then Some req_norm
      else hasPinningOverlap rs forbidden
  end.

(** [protocol::AuthMethod], as the codes it has on the wire. *)
Definition AuthMethod_Ok : Z := 0.
Definition AuthMethod_Password : Z := 1.
Definition AuthMethod_ScramSha256 : Z := 3.

(** Md5, Certificate, Gssapi, Sspi, Ldap, Saml, Oidc, MfaTotp, ClusterPki. *)
Definition isGenericAuthMethod (method : Z) : bool :=
  bool_decide (method ∈ [2; 4; 5; 6; 7; 8; 9; 10; 11]).

(** ** The address *)

Record NetworkAddress := mkAddress { a_host : bytes; a_port : Z }.

Definition resolveConnectionAddress (config : NetworkClientConfig) : option NetworkAddress :=
  let transport := toLower (transport_mode config) in
  let transport := if bool_decide (transport = []) then ("inet_listener" : bytes) else transport in
  if isManagedTransport transport || isInetTransport transport then
    Some (mkAddress (if bool_decide (host config = []) then ("127.0.0.1" : bytes) else host config)
            (port config))
  else None.

(** ** The schema statement *)

Definition is_schema_space (b : byte) : bool :=
  bool_decide (b ∈ [" "%byte; Byte.x09; Byte.x0a; Byte.x0d]).

Definition trim_schema (s : bytes) : bytes := trim_with is_schema_space s.

Definition quoted (s : bytes) : bytes := [Byte.x22] ++ s ++ [Byte.x22].

(** The pieces between commas that are not blank. *)
Definition schema_parts (trimmed : bytes) : list bytes :=
  filter (λ p, p ≠ []) (trim_schema <$> split_on ","%byte trimmed).

Definition buildSchemaStatement (schema : bytes) : bytes :=
  let trimmed := trim_schema schema in
  if bool_decide (trimmed = []) then []
  else match find_byte ","%byte trimmed with
  | None => ("SET SCHEMA " : bytes) ++ quoted trimmed
  | Some _ =>
      ("SET SEARCH_PATH TO " : bytes) ++ join_with [","; " "]%byte (quoted <$> schema_parts trimmed)
  end.
