(* ===== verification/DriverConfig.v ===== *)
(** * Connection strings, URLs and environment

    Models [src/driver_config.cpp]: the parsers of single options,
    [parseKeyValueConnectionString], [parseScratchbirdUrl],
    [applyConnectionParams], [applyDriverDefaults] with the environment, and
    [parseDriverConnectionString] over them. Of the error context these
    functions write the message only. *)

From S2P Require Import Prelude.
From S2P Require Import Sqlstate.
From S2P Require Import Identifiers.
From S2P Require Import ErrorContext.
From S2P Require Import Transport.
From S2P Require Import NetworkConfig.

(** ** Options *)

(** [trim]: blanks, tabs and line ends. *)
Definition trim (value : bytes) : bytes := trim_schema value.

(** [None] when the text is not a number; the value of an [unsigned long] is
    cut to 32 bits. *)
Definition parseUint32 (value : bytes) : option Z :=
  match stoul value with
  | Some (parsed, []) => Some (u32 parsed)
  | _ => None
  end.

(** [lower == n1 || lower == n2 || ...] *)
Definition one_of (lower : bytes) (ns : list bytes) : bool := bool_decide (lower ∈ ns).

Definition parseBool (value : bytes) : option bool :=
  let lower := toLower (trim value) in
  if one_of lower ["true" : bytes; "1" : bytes; "yes" : bytes; "on" : bytes] then Some true
  else if one_of lower ["false" : bytes; "0" : bytes; "no" : bytes; "off" : bytes] then Some false
  else None.

Definition parseCompressionMode (value : bytes) : option bool :=
  let lower := toLower (trim value) in
  if one_of lower [[]; "off" : bytes; "none" : bytes; "false" : bytes; "0" : bytes; "disable" : bytes;
                   "disabled" : bytes] then Some false
  else if one_of lower ["zstd" : bytes; "true" : bytes; "1" : bytes; "on" : bytes; "enable" : bytes;
                        "enabled" : bytes] then Some true
  else None.

Definition parseProtocol (value : bytes) : option bytes :=
  let lower := toLower (trim value) in
  if one_of lower ["native" : bytes; "scratchbird" : bytes; "scratchbird-native" : bytes;
                   "scratchbird_native" : bytes]
  then Some ("native" : bytes) else None.

Definition parseFrontDoorMode (value : bytes) : option bytes :=
  let lower := toLower (trim value) in
  if one_of lower [[]; "direct" : bytes] then Some ("direct" : bytes)
  else if one_of lower ["manager_proxy" : bytes; "manager-proxy" : bytes; "managed" : bytes]
  then Some ("manager_proxy" : bytes) else None.

Definition parseTransportMode (value : bytes) : option bytes :=
  let lower := toLower (trim value) in
  if one_of lower [[]; "inet" : bytes; "inet_listener" : bytes; "listener" : bytes; "tcp" : bytes;
                   "tcp_listener" : bytes; "network" : bytes] then Some ("inet_listener" : bytes)
  else if one_of lower ["managed" : bytes; "manager" : bytes; "manager_proxy" : bytes;
                        "manager-proxy" : bytes; "mcp" : bytes] then Some ("managed" : bytes)
  else None.

Definition parseMethodList (value : bytes) : list bytes :=
  filter (λ m, m ≠ []) ((λ token, toLower (trim token)) <$> getline_tokens ","%byte value).

(** The first forbidden method that is required. *)
Fixpoint hasOverlappingMethods (required forbidden : list bytes) : option bytes :=
  match forbidden with
  | [] => None
  | method :: fs =>
      if bool_decide (method ∈ required) then Some method else hasOverlappingMethods required fs
  end.

Definition normalizeTimeoutMs (key value : bytes) : Z :=
  match parseUint32 value with
  | None => 0
  | Some parsed =>
      let lower := toLower key in
      if contains "_ms" lower || contains "ms" lower then parsed else u32 (parsed * 1000)
  end.

Definition parseSslMode (value : bytes) : SSLMode :=
  let mode := toLower value in
  if one_of mode ["disable" : bytes; "disabled" : bytes] then DISABLED
  else if one_of mode ["allow" : bytes] then ALLOW
  else if one_of mode ["prefer" : bytes] then PREFER
  else if one_of mode ["require" : bytes] then REQUIRE
  else if one_of mode ["verify-ca" : bytes; "verify_ca" : bytes] then VERIFY_CA
  else if one_of mode ["verify-full" : bytes; "verify_full" : bytes] then VERIFY_FULL
  else REQUIRE.

(** The method, and [ok]. *)
Definition parseAuthMethod (value : bytes) : Z * bool :=
  let lower := toLower value in
  if one_of lower ["scram-sha-256" : bytes; "scram_sha_256" : bytes; "scram256" : bytes]
  then (AuthMethod_ScramSha256, true)
  else if one_of lower ["scram-sha-512" : bytes; "scram_sha_512" : bytes; "scram512" : bytes]
  then (AuthMethod_ScramSha256, false)
  else if one_of lower ["password" : bytes; "plain" : bytes] then (AuthMethod_Password, true)
  else if one_of lower ["md5" : bytes] then (2, true)
  else (AuthMethod_ScramSha256, false).

(** ** Errors *)

(** A configuration, and the message of the error that stopped the work. *)
Definition applied := (NetworkClientConfig * option bytes)%type.

Definition ok (c : NetworkClientConfig) : applied := (c, None).
Definition refuse (c : NetworkClientConfig) (message : bytes) : applied := (c, Some message).

(** A parsed value, or the refusal. *)
Definition or_refuse {A} (x : option A) (c : NetworkClientConfig) (message : bytes)
    (k : A → applied) : applied :=
  match x with Some a => k a | None => refuse c message end.

Definition if_some {A} (x : option A) (f : A → NetworkClientConfig → NetworkClientConfig)
    (c : NetworkClientConfig) : NetworkClientConfig :=
  match x with Some a => f a c | None => c end.

(** A 16-bit option. *)
Definition parseUint16 (value : bytes) : option Z :=
  parsed ← parseUint32 value; if 65535 <? parsed then None else Some parsed.

(** [if (ms > 0) { ... }] *)
Definition if_positive (ms : Z) (f : Z → NetworkClientConfig → NetworkClientConfig)
    (c : NetworkClientConfig) : NetworkClientConfig :=
  if 0 <? ms then f ms c else c.

(** ** [applyConnectionParams] *)

(** Address, names and transport. *)
Definition apply_transport (value : bytes) (c : NetworkClientConfig) : applied :=
  or_refuse (parseTransportMode value) c
    "transport_mode must be inet_listener or managed (C/C++ driver is IP-only; IPC/embedded modes are not supported)"
    (λ normalized,
      let c := c <| transport_mode := normalized |> in
      if bool_decide (normalized = ("managed" : bytes))
      then ok (c <| front_door_mode := ("manager_proxy" : bytes) |>)
      else if bool_decide (front_door_mode c = [])
      then ok (c <| front_door_mode := ("direct" : bytes) |>) else ok c).

Definition apply_front_door (value : bytes) (c : NetworkClientConfig) : applied :=
  or_refuse (parseFrontDoorMode value) c "front_door_mode must be direct or manager_proxy"
    (λ normalized,
      let c := c <| front_door_mode := normalized |> in
      if bool_decide (normalized = ("manager_proxy" : bytes))
      then ok (c <| transport_mode := ("managed" : bytes) |>) else ok c).

Definition apply_host (value : bytes) (c : NetworkClientConfig) : applied :=
  if starts_with "unix:" value then
    refuse c "IPC/unix socket endpoints are not supported by the C/C++ driver; use host:port over IP."
  else ok (c <| host := value |>).

Definition apply_auth_method (value : bytes) (c : NetworkClientConfig) : applied :=
  let '(method, valid) := parseAuthMethod value in
  let c := c <| auth_method := method |> in
  if valid : bool then ok c else refuse c "Unsupported auth_method".

(** One entry of the map. *)
Definition apply_entry (key value : bytes) (c : NetworkClientConfig) : applied :=
  let key_is := one_of key in
  if key_is ["server" : bytes; "host" : bytes] then apply_host value c
  else if key_is ["port" : bytes] then
    or_refuse (parseUint16 value) c "Invalid port" (λ n, ok (c <| port := n |>))
  else if key_is ["database" : bytes; "db" : bytes; "dbname" : bytes] then ok (c <| database := value |>)
  else if key_is ["uid" : bytes; "user" : bytes; "username" : bytes] then ok (c <| username := value |>)
  else if key_is ["pwd" : bytes; "password" : bytes] then ok (c <| password := value |>)
  else if key_is ["role" : bytes] then ok (c <| role := value |>)
  else if key_is ["schema" : bytes; "current_schema" : bytes; "currentschema" : bytes;
              "search_path" : bytes; "searchpath" : bytes] then ok (c <| schema := value |>)
  else if key_is ["transport" : bytes; "transport_mode" : bytes; "mode" : bytes] then apply_transport value c
  else if key_is ["ipc_method" : bytes] then
    if bool_decide (trim value = []) then ok c
    else refuse c "ipc_method is not supported by the C/C++ driver (IP transport only)"
  else if key_is ["ipc_path" : bytes; "socket_path" : bytes; "pipe_name" : bytes] then
    if bool_decide (value = []) then ok c
    else refuse c "ipc_path/socket_path/pipe_name are not supported by the C/C++ driver"
  else if key_is ["protocol" : bytes; "parser" : bytes; "dialect" : bytes] then
    or_refuse (parseProtocol value) c
      "Only protocol=native is supported; connect to the native parser listener/port."
      (λ normalized, ok (c <| protocol := normalized |>))
  else if key_is ["front_door_mode" : bytes; "frontdoormode" : bytes; "connection_mode" : bytes;
              "ingress_mode" : bytes] then apply_front_door value c
  else if key_is ["manager_auth_token" : bytes; "mcp_auth_token" : bytes; "managerauthtoken" : bytes]
  then ok (c <| manager_auth_token := value |>)
  else if key_is ["manager_username" : bytes; "mcp_username" : bytes] then ok (c <| manager_username := value |>)
  else if key_is ["manager_database" : bytes; "mcp_database" : bytes] then ok (c <| manager_database := value |>)
  else if key_is ["manager_connection_profile" : bytes; "mcp_connection_profile" : bytes]
  then ok (c <| manager_connection_profile := value |>)
  else if key_is ["manager_client_intent" : bytes; "mcp_client_intent" : bytes]
  then ok (c <| manager_client_intent := value |>)
  else if key_is ["manager_client_flags" : bytes; "mcp_client_flags" : bytes] then
    or_refuse (parseUint16 value) c "Invalid manager_client_flags" (λ n, ok (c <| manager_client_flags := n |>))
  else if key_is ["manager_auth_fast_path" : bytes; "mcp_auth_fast_path" : bytes] then
    ok (if_some (parseBool value) (λ b c, c <| manager_auth_fast_path := b |>) c)
  else if key_is ["client_flags" : bytes; "connect_client_flags" : bytes] then
    or_refuse (parseUint16 value) c "Invalid connect_client_flags" (λ n, ok (c <| connect_client_flags := n |>))
  else if key_is ["auth_method_id" : bytes; "authmethodid" : bytes] then ok (c <| auth_method_id := trim value |>)
  else if key_is ["auth_method_payload" : bytes; "authmethodpayload" : bytes]
  then ok (c <| auth_method_payload := value |>)
  else if key_is ["auth_payload_json" : bytes; "authpayloadjson" : bytes] then ok (c <| auth_payload_json := value |>)
  else if key_is ["auth_payload_b64" : bytes; "authpayloadb64" : bytes] then ok (c <| auth_payload_b64 := value |>)
  else if key_is ["auth_provider_profile" : bytes; "authproviderprofile" : bytes]
  then ok (c <| auth_provider_profile := trim value |>)
  else if key_is ["auth_required_methods" : bytes; "authrequiredmethods" : bytes]
  then ok (c <| auth_required_methods := parseMethodList value |>)
  else if key_is ["auth_forbidden_methods" : bytes; "authforbiddenmethods" : bytes]
  then ok (c <| auth_forbidden_methods := parseMethodList value |>)
  else if key_is ["auth_require_channel_binding" : bytes; "authrequirechannelbinding" : bytes] then
    or_refuse (parseBool value) c "Invalid auth_require_channel_binding (expected true/false)"
      (λ b, ok (c <| auth_require_channel_binding := b |>))
  else if key_is ["workload_identity_token" : bytes; "workloadidentitytoken" : bytes]
  then ok (c <| workload_identity_token := value |>)
  else if key_is ["proxy_principal_assertion" : bytes; "proxyprincipalassertion" : bytes; "proxy_assertion" : bytes]
  then ok (c <| proxy_principal_assertion := value |>)
  else if key_is ["applicationname" : bytes; "application_name" : bytes; "app" : bytes]
  then ok (c <| application_name := value |>)
  else if key_is ["ssl" : bytes; "sslmode" : bytes] then ok (c <| ssl_mode := parseSslMode value |>)
  else if key_is ["sslcert" : bytes] then ok (c <| ssl_cert := value |>)
  else if key_is ["sslkey" : bytes] then ok (c <| ssl_key := value |>)
  else if key_is ["sslrootcert" : bytes] then ok (c <| ssl_root_cert := value |>)
  else if key_is ["binary_transfer" : bytes; "binarytransfer" : bytes] then
    or_refuse (parseBool value) c "Invalid binary_transfer (expected true/false)"
      (λ b, ok (c <| binary_transfer := b |>))
  else if key_is ["compression" : bytes] then
    or_refuse (parseCompressionMode value) c "compression must be off or zstd"
      (λ b, ok (c <| enable_compression := b |>))
  else if key_is ["connecttimeout" : bytes; "connect_timeout" : bytes; "timeout" : bytes] then
    ok (if_positive (normalizeTimeoutMs key value) (λ ms c, c <| connect_timeout_ms := ms |>) c)
  else if key_is ["readtimeout" : bytes; "read_timeout" : bytes] then
    ok (if_positive (normalizeTimeoutMs key value) (λ ms c, c <| read_timeout_ms := ms |>) c)
  else if key_is ["writetimeout" : bytes; "write_timeout" : bytes] then
    ok (if_positive (normalizeTimeoutMs key value) (λ ms c, c <| write_timeout_ms := ms |>) c)
  else if key_is ["querytimeout" : bytes; "query_timeout" : bytes] then
    ok (if_positive (normalizeTimeoutMs key value)
          (λ ms c, c <| read_timeout_ms := ms |> <| write_timeout_ms := ms |>) c)
  else if key_is ["authmethod" : bytes; "auth_method" : bytes] then apply_auth_method value c
  else if key_is ["allowpasswordfallback" : bytes] then
    ok (if_some (parseBool value) (λ b c, c <| allow_password_fallback := b |>) c)
  else if key_is ["dsn" : bytes] && bool_decide (host c = []) then ok (c <| host := value |>)
  else ok c.

(** The entries in the order of the map, up to the first refusal. *)
Fixpoint apply_entries (entries : list (bytes * bytes)) (c : NetworkClientConfig) : applied :=
  match entries with
  | [] => ok c
  | (key, value) :: entries =>
      match apply_entry key value c with
      | (c, None) => apply_entries entries c
      | refused => refused
      end
  end.

Definition overlap_message (overlap : bytes) : bytes :=
  ("Auth pinning profile is invalid: method appears in both required and forbidden sets (" : bytes) ++
  overlap ++ (")" : bytes).

(** The check of the method sets that ends both functions. *)
Definition check_overlap (c : NetworkClientConfig) : applied :=
  match hasOverlappingMethods (auth_required_methods c) (auth_forbidden_methods c) with
  | Some overlap => refuse c (overlap_message overlap)
  | None => ok c
  end.

(** [k] unless refused. *)
Definition and_then (r : applied) (k : NetworkClientConfig → applied) : applied :=
  match r with (c, None) => k c | refused => refused end.

Definition applyConnectionParams (params : gmap bytes bytes) (c : NetworkClientConfig) : applied :=
  and_then (apply_entries (std_map_items params) c) check_overlap.

(** ** [parseKeyValueConnectionString] *)

(** The pieces between semicolons; the loop ends with the text, so a trailing
    semicolon does not start another piece. *)
Definition key_value_tokens (conn_str : bytes) : list bytes := getline_tokens ";"%byte conn_str.

(** [{value}] stands for [value]. *)
Definition strip_braces (value : bytes) : bytes :=
  if (2 <=? blen value) && bool_decide (head value = Some "{"%byte) && bool_decide (last value = Some "}"%byte)
  then take (length value - 2) (drop 1 value) else value.

(** The text before the first occurrence of [c] and the text after it. *)
Definition cut_at (c : byte) (s : bytes) : option (bytes * bytes) :=
  i ← find_byte c s; Some (take i s, drop (S i) s).

(** One token: a key and its value, if it has both. *)
Definition key_value_entry (token : bytes) : option (bytes * bytes) :=
  let token := trim token in
  '(key, value) ← cut_at "="%byte token;
  let key := trim key in
  if bool_decide (key = []) then None else Some (toLower key, strip_braces (trim value)).

(** [params[key] = value] *)
Definition put_entry (params : gmap bytes bytes) (entry : option (bytes * bytes)) : gmap bytes bytes :=
  match entry with Some (key, value) => <[key := value]> params | None => params end.

(** The parameters, and the message that is written although the status is OK. *)
Definition parseKeyValueConnectionString (conn_str : bytes) : gmap bytes bytes * option bytes :=
  let params := foldl put_entry ∅ (key_value_entry <$> key_value_tokens conn_str) in
  (params, if bool_decide (params = ∅) then Some ("Empty connection string" : bytes) else None).

(** ** [parseScratchbirdUrl] *)

(** [rfind] *)
Definition cut_at_last (c : byte) (s : bytes) : option (bytes * bytes) :=
  match cut_at c (reverse s) with
  | Some (after, before) => Some (reverse before, reverse after)
  | None => None
  end.

(** [if (!text.empty()) { ... }] *)
Definition if_some_text (text : bytes) (f : bytes → NetworkClientConfig → NetworkClientConfig)
    (c : NetworkClientConfig) : NetworkClientConfig :=
  if bool_decide (text = []) then c else f text c.

(** The user and the password of the text before the [@]. *)
Definition apply_userinfo (text : bytes) : NetworkClientConfig → NetworkClientConfig :=
  if_some_text text (λ text c,
    match cut_at ":"%byte text with
    | None => c <| username := text |>
    | Some (user, pass) => c <| username := user |> <| password := pass |>
    end).

(** The host and the digits of the port; a colon that ends the text is part of the host. *)
Definition split_port (hostport : bytes) : bytes * bytes :=
  match cut_at_last ":"%byte hostport with
  | Some (host, port) => if bool_decide (port = []) then (hostport, []) else (host, port)
  | None => (hostport, [])
  end.

(** One pair of the query. *)
Definition query_entry (pair : bytes) : option (bytes * bytes) :=
  '(key, value) ← cut_at "="%byte pair;
  let key := toLower (trim key) in
  if bool_decide (key = []) then None else Some (key, trim value).

Definition query_params (query : bytes) : gmap bytes bytes :=
  foldl put_entry ∅ (query_entry <$> getline_tokens "&"%byte query).

Definition kPrefix : bytes := "scratchbird://".

(** The pieces of a URL after its scheme. *)
Record url_parts := mkUrl {
  userinfo : bytes;
  url_host : bytes;
  port_str : bytes;
  url_database : bytes;
  url_query : bytes
}.

Definition split_url (remainder : bytes) : url_parts :=
  let '(remainder, query) := default (remainder, []) (cut_at "?"%byte remainder) in
  let '(user, hostport) := default ([], remainder) (cut_at "@"%byte remainder) in
  let '(hostport, db) := default (hostport, []) (cut_at "/"%byte hostport) in
  let '(hostname, digits) := split_port hostport in
  mkUrl user hostname digits db query.

Definition apply_url (u : url_parts) (c : NetworkClientConfig) : applied :=
  let c := apply_userinfo (userinfo u) c in
  let c := if_some_text (url_host u) (λ h c, c <| host := h |>) c in
  and_then
    (if bool_decide (port_str u = []) then ok c
     else or_refuse (parseUint16 (port_str u)) c "Invalid port in URL" (λ n, ok (c <| port := n |>)))
    (λ c,
      let c := if_some_text (url_database u) (λ d c, c <| database := d |>) c in
      if bool_decide (url_query u = []) then ok c else applyConnectionParams (query_params (url_query u)) c).

Definition parseScratchbirdUrl (url : bytes) (c : NetworkClientConfig) : applied :=
  if negb (starts_with kPrefix url) then refuse c "Unsupported URL scheme"
  else apply_url (split_url (drop (length kPrefix) url)) c.

(** ** The environment *)

(** [parseU32]: a number in base 10 that fills the text; [strtoul] reads an
    empty text as 0 and saturates. *)
Definition parseU32 (value : bytes) : option Z :=
  match strtoull value with
  | Some (v, _, []) => Some (u32 v)
  | Some _ => None
  | None => if bool_decide (value = []) then Some 0 else None
  end.

Definition parseU16 (value : bytes) : option Z :=
  tmp ← parseU32 value; if 65535 <? tmp then None else Some tmp.

(** [value == "1" || value == "true" || value == "TRUE"] *)
Definition is_on (value : bytes) : bool := one_of value ["1" : bytes; "true" : bytes; "TRUE" : bytes].

(** A variable, and what its value changes. *)
Definition env_var := (bytes * (bytes → NetworkClientConfig → NetworkClientConfig))%type.

Definition env_table : list env_var :=
  [("SCRATCHBIRD_HOST" : bytes, λ v c, c <| host := v |>);
   ("SCRATCHBIRD_PORT" : bytes, λ v, if_some (parseU16 v) (λ n c, c <| port := n |>));
   ("SCRATCHBIRD_DB" : bytes, λ v c, c <| database := v |>);
   ("SCRATCHBIRD_USER" : bytes, λ v c, c <| username := v |>);
   ("SCRATCHBIRD_PASSWORD" : bytes, λ v c, c <| password := v |>);
   ("SCRATCHBIRD_PROTOCOL" : bytes, λ v c, c <| protocol := default ("native" : bytes) (parseProtocol v) |>);
   ("SCRATCHBIRD_PARSER" : bytes, λ v c, c <| protocol := default ("native" : bytes) (parseProtocol v) |>);
   ("SCRATCHBIRD_TRANSPORT_MODE" : bytes, λ v, if_some (parseTransportMode v) (λ t c, c <| transport_mode := t |>));
   ("SCRATCHBIRD_MODE" : bytes, λ v, if_some (parseTransportMode v) (λ t c, c <| transport_mode := t |>));
   ("SCRATCHBIRD_ROLE" : bytes, λ v c, c <| role := v |>);
   ("SCRATCHBIRD_FRONT_DOOR_MODE" : bytes, λ v, if_some (parseFrontDoorMode v) (λ t c, c <| front_door_mode := t |>));
   ("SCRATCHBIRD_MANAGER_AUTH_TOKEN" : bytes, λ v c, c <| manager_auth_token := v |>);
   ("SCRATCHBIRD_MANAGER_USERNAME" : bytes, λ v c, c <| manager_username := v |>);
   ("SCRATCHBIRD_MANAGER_DATABASE" : bytes, λ v c, c <| manager_database := v |>);
   ("SCRATCHBIRD_MANAGER_CONNECTION_PROFILE" : bytes, λ v c, c <| manager_connection_profile := v |>);
   ("SCRATCHBIRD_MANAGER_CLIENT_INTENT" : bytes, λ v c, c <| manager_client_intent := v |>);
   ("SCRATCHBIRD_MANAGER_CLIENT_FLAGS" : bytes, λ v, if_some (parseU16 v) (λ n c, c <| manager_client_flags := n |>));
   ("SCRATCHBIRD_MANAGER_AUTH_FAST_PATH" : bytes, λ v c, c <| manager_auth_fast_path := is_on v |>);
   ("SCRATCHBIRD_SCHEMA" : bytes, λ v c, c <| schema := v |>);
   ("SCRATCHBIRD_APP_NAME" : bytes, λ v c, c <| application_name := v |>);
   ("SCRATCHBIRD_SSLMODE" : bytes, λ v c, c <| ssl_mode := parseSslMode v |>);
   ("SCRATCHBIRD_SSL_CERT" : bytes, λ v c, c <| ssl_cert := v |>);
   ("SCRATCHBIRD_SSL_KEY" : bytes, λ v c, c <| ssl_key := v |>);
   ("SCRATCHBIRD_SSL_ROOT_CERT" : bytes, λ v c, c <| ssl_root_cert := v |>);
   ("SCRATCHBIRD_AUTH_METHOD" : bytes, λ v c,
      let '(method, valid) := parseAuthMethod v in if valid : bool then c <| auth_method := method |> else c);
   ("SCRATCHBIRD_CONNECT_CLIENT_FLAGS" : bytes, λ v, if_some (parseU16 v) (λ n c, c <| connect_client_flags := n |>));
   ("SCRATCHBIRD_AUTH_METHOD_ID" : bytes, λ v c, c <| auth_method_id := trim v |>);
   ("SCRATCHBIRD_AUTH_METHOD_PAYLOAD" : bytes, λ v c, c <| auth_method_payload := v |>);
   ("SCRATCHBIRD_AUTH_PAYLOAD_JSON" : bytes, λ v c, c <| auth_payload_json := v |>);
   ("SCRATCHBIRD_AUTH_PAYLOAD_B64" : bytes, λ v c, c <| auth_payload_b64 := v |>);
   ("SCRATCHBIRD_AUTH_PROVIDER_PROFILE" : bytes, λ v c, c <| auth_provider_profile := trim v |>);
   ("SCRATCHBIRD_AUTH_REQUIRED_METHODS" : bytes, λ v c, c <| auth_required_methods := parseMethodList v |>);
   ("SCRATCHBIRD_AUTH_FORBIDDEN_METHODS" : bytes, λ v c, c <| auth_forbidden_methods := parseMethodList v |>);
   ("SCRATCHBIRD_AUTH_REQUIRE_CHANNEL_BINDING" : bytes, λ v,
      if_some (parseBool v) (λ b c, c <| auth_require_channel_binding := b |>));
   ("SCRATCHBIRD_WORKLOAD_IDENTITY_TOKEN" : bytes, λ v c, c <| workload_identity_token := v |>);
   ("SCRATCHBIRD_PROXY_PRINCIPAL_ASSERTION" : bytes, λ v c, c <| proxy_principal_assertion := v |>);
   ("SCRATCHBIRD_ALLOW_PASSWORD_FALLBACK" : bytes, λ v c, c <| allow_password_fallback := is_on v |>);
   ("SCRATCHBIRD_BINARY_TRANSFER" : bytes, λ v, if_some (parseBool v) (λ b c, c <| binary_transfer := b |>));
   ("SCRATCHBIRD_COMPRESSION" : bytes, λ v, if_some (parseCompressionMode v) (λ b c, c <| enable_compression := b |>));
   ("SCRATCHBIRD_ENABLE_COMPRESSION" : bytes, λ v c, c <| enable_compression := is_on v |>);
   ("SCRATCHBIRD_CONNECT_TIMEOUT_MS" : bytes, λ v, if_some (parseU32 v) (λ n c, c <| connect_timeout_ms := n |>));
   ("SCRATCHBIRD_READ_TIMEOUT_MS" : bytes, λ v, if_some (parseU32 v) (λ n c, c <| read_timeout_ms := n |>));
   ("SCRATCHBIRD_WRITE_TIMEOUT_MS" : bytes, λ v, if_some (parseU32 v) (λ n c, c <| write_timeout_ms := n |>));
   ("SCRATCHBIRD_COPY_WINDOW_BYTES" : bytes, λ v, if_some (parseU32 v) (λ n c, c <| copy_window_bytes := n |>));
   ("SCRATCHBIRD_COPY_CHUNK_BYTES" : bytes, λ v, if_some (parseU32 v) (λ n c, c <| copy_chunk_bytes := n |>))].

Definition kDefaultSessionSchema : bytes := "users.public".

(** [network::DEFAULT_NATIVE_PORT] *)
Definition DEFAULT_NATIVE_PORT : Z := 3092.

(** The driver-prefixed names; only four of them give way to what is set. *)
Definition driver_env_table : list env_var :=
  [("SCRATCHBIRD_DRIVER_HOST" : bytes, λ v c,
      if one_of (host c) [[]; "127.0.0.1" : bytes] then c <| host := v |> else c);
   ("SCRATCHBIRD_DRIVER_PORT" : bytes, λ v c,
      if port c =? DEFAULT_NATIVE_PORT then if_some (parseU16 v) (λ n c, c <| port := n |>) c else c);
   ("SCRATCHBIRD_DRIVER_DATABASE" : bytes, λ v c,
      if bool_decide (database c = []) then c <| database := v |> else c);
   ("SCRATCHBIRD_DRIVER_APPLICATION_NAME" : bytes, λ v c,
      if one_of (application_name c) [[]; "scratchbird_odbc" : bytes; "scratchbird_driver" : bytes]
      then c <| application_name := v |> else c);
   ("SCRATCHBIRD_DRIVER_SSLMODE" : bytes, λ v c, c <| ssl_mode := parseSslMode v |>);
   ("SCRATCHBIRD_DRIVER_CONNECT_TIMEOUT_MS" : bytes, λ v, if_some (parseU32 v) (λ n c, c <| connect_timeout_ms := n |>));
   ("SCRATCHBIRD_DRIVER_SSL_CERT" : bytes, λ v c, c <| ssl_cert := v |>);
   ("SCRATCHBIRD_DRIVER_SSL_KEY" : bytes, λ v c, c <| ssl_key := v |>);
   ("SCRATCHBIRD_DRIVER_SSL_ROOT_CERT" : bytes, λ v c, c <| ssl_root_cert := v |>)].

(** [getenv] *)
Definition variables := bytes → option bytes.

Definition apply_env (getEnv : variables) (table : list env_var) (c : NetworkClientConfig)
    : NetworkClientConfig :=
  foldl (λ c '(key, change), match getEnv key with Some v => change v c | None => c end) c table.

(** [if (field.empty()) { field = value; }] *)
Definition if_empty (field : bytes) (change : NetworkClientConfig → NetworkClientConfig)
    (c : NetworkClientConfig) : NetworkClientConfig :=
  if bool_decide (field = []) then change c else c.

Definition applyDriverDefaultsFromEnv (getEnv : variables) (c : NetworkClientConfig) : NetworkClientConfig :=
  let c := apply_env getEnv env_table c in
  let c := if_empty (schema c) (λ c, c <| schema := kDefaultSessionSchema |>) c in
  apply_env getEnv driver_env_table c.

(** ** Defaults *)

(** The names of the transport and of the front door, normalized and coupled. *)
Definition normalize_modes (c : NetworkClientConfig) : NetworkClientConfig :=
  let c := c <| transport_mode := default ("inet_listener" : bytes) (parseTransportMode (transport_mode c)) |> in
  let c := c <| front_door_mode := default ("direct" : bytes) (parseFrontDoorMode (front_door_mode c)) |> in
  let c :=
    if bool_decide (front_door_mode c = ("manager_proxy" : bytes))
    then c <| transport_mode := ("managed" : bytes) |> else c in
  if bool_decide (transport_mode c = ("managed" : bytes))
  then c <| front_door_mode := ("manager_proxy" : bytes) |> else c.

(** What the manager is told, when nothing else is said. *)
Definition manager_defaults (c : NetworkClientConfig) : NetworkClientConfig :=
  let c := if_empty (manager_username c)
    (λ c, c <| manager_username := if bool_decide (username c = []) then ("admin" : bytes) else username c |>) c in
  let c := if_empty (manager_database c) (λ c, c <| manager_database := database c |>) c in
  let c := if_empty (manager_connection_profile c)
    (λ c, c <| manager_connection_profile := ("native_v3" : bytes) |>) c in
  if_empty (manager_client_intent c) (λ c, c <| manager_client_intent := ("native_v3" : bytes) |>) c.

Definition applyDriverDefaults (getEnv : variables) (c : NetworkClientConfig) : NetworkClientConfig :=
  let c := if_empty (transport_mode c) (λ c, c <| transport_mode := ("inet_listener" : bytes) |>) c in
  let c := if_empty (host c) (λ c, c <| host := ("127.0.0.1" : bytes) |>) c in
  let c := if_empty (application_name c) (λ c, c <| application_name := ("scratchbird_driver" : bytes) |>) c in
  let c := if_empty (front_door_mode c)
    (λ c, c <| front_door_mode :=
       if bool_decide (toLower (transport_mode c) = ("managed" : bytes))
       then ("manager_proxy" : bytes) else ("direct" : bytes) |>) c in
  manager_defaults (normalize_modes (applyDriverDefaultsFromEnv getEnv c)).

(** ** [parseDriverConnectionString] *)

(** The message of the error context is kept unless one is written. *)
Definition parse_connection_text (trimmed : bytes) (c : NetworkClientConfig) (message : bytes) : applied * bytes :=
  if starts_with kPrefix trimmed then (parseScratchbirdUrl trimmed c, message)
  else
    let '(params, warning) := parseKeyValueConnectionString trimmed in
    (applyConnectionParams params c, default message warning).

(** The configuration, the status and the message afterwards. *)
Definition report (message : bytes) (r : applied) : NetworkClientConfig * Status * bytes :=
  match r with
  | (c, None) => (c, OK, message)
  | (c, Some error) => (c, INVALID_ARGUMENT, error)
  end.

Definition parseDriverConnectionString (getEnv : variables) (conn_str : bytes)
    (c : NetworkClientConfig) (message : bytes) : NetworkClientConfig * Status * bytes :=
  let '(r, message) := parse_connection_text (trim conn_str) c message in
  report message (and_then r (λ c, check_overlap (applyDriverDefaults getEnv c))).
