(* ===== verification/NetworkClient.v ===== *)
(** * The network client: sessions, requests and replies

    Models [NetworkClient] of [src/network_client.cpp] and [network_client.h]
    after the handshake ([Handshake] has it): the session state, the message
    loops of the requests, asynchronous messages, error replies and transaction
    tracking. A request runs in the monad [M] over the session and the caller's
    error context; [Crash] is undefined behaviour and [NoFuel] the end of the
    fuel of a loop, which counts messages. *)

From S2P Require Import Prelude.
From S2P Require Import Sqlstate.
From S2P Require Import Wire.
From S2P Require Import WireBuild.
From S2P Require Import WireParse.
From S2P Require Import ErrorContext.
From S2P Require Import Transport.
From S2P Require Import NetworkConfig.

(** ** Data *)

Record NetworkColumn := mkNetworkColumn {
  nc_name : bytes;
  nc_type_oid : Z;
  nc_type_modifier : Z;
  nc_format : byte;
  nc_nullable : bool
}.

Record NetworkResultSet := mkResults {
  columns : list NetworkColumn;
  rows : list (list ColumnValue);
  rows_affected : Z;
  command_tag : bytes
}.

#[export] Instance NetworkResultSet_eta : Eta NetworkResultSet :=
  λ r, mkResults (columns r) (rows r) (rows_affected r) (command_tag r).

Definition no_results : NetworkResultSet := mkResults [] [] 0 [].

Record NetworkPreparedStatement := mkStatement {
  sql_ : bytes;
  statement_name_ : bytes;
  param_count_ : Z;
  params_ : list ParamValue;
  param_type_oids_ : list Z;
  valid_ : bool
}.

#[export] Instance NetworkPreparedStatement_eta : Eta NetworkPreparedStatement :=
  λ s, mkStatement (sql_ s) (statement_name_ s) (param_count_ s) (params_ s)
         (param_type_oids_ s) (valid_ s).

Definition no_statement : NetworkPreparedStatement := mkStatement [] [] 0 [] [] false.

(** [NetworkClient::Notification]. *)
Record ClientNotification := mkClientNotification {
  cn_process_id : Z;
  cn_channel : bytes;
  cn_payload : bytes;
  cn_change_type : byte;
  cn_row_id : Z
}.

(** The private fields; [socket_] and [tls_conn_] tell whether the pointers are
    set, [wire] is what is behind them, and [next_id] is the [static] counter of
    [prepareServerStatement]. *)
Record NetworkClient := mkClient {
  config_ : NetworkClientConfig;
  socket_ : bool;
  tls_conn_ : bool;
  wire : transport;
  session_id_ : bytes;
  notifications_ : list ClientNotification;
  parameter_status_ : gmap bytes bytes;
  last_plan_ : option QueryPlan;
  last_sblr_ : option SblrCompiled;
  connected_ : bool;
  in_transaction_ : bool;
  current_txn_id_ : Z;
  next_sequence_ : Z;
  last_query_sequence_ : Z;
  prepared_statements_ : gmap Z NetworkPreparedStatement;
  next_id : Z
}.

#[export] Instance NetworkClient_eta : Eta NetworkClient :=
  λ c, mkClient (config_ c) (socket_ c) (tls_conn_ c) (wire c) (session_id_ c) (notifications_ c) (parameter_status_ c) (last_plan_ c)
         (last_sblr_ c) (connected_ c) (in_transaction_ c) (current_txn_id_ c) (next_sequence_ c)
         (last_query_sequence_ c) (prepared_statements_ c) (next_id c).

(** [NetworkClient{}] *)
Definition new_client : NetworkClient :=
  mkClient default_config false false (mkTransport false [] [] []) (replicate 16 Byte.x00) [] ∅ None None false false 0 0 0 ∅ 1.

(** [last_error_] of the client: it is cleared, and never written. *)
Definition lastError : bytes := [].

(** ** The monad *)

Inductive exec (A : Type) :=
  | Done (a : A) (c : NetworkClient) (ctx : option ErrorContext)
  | Crash
  | NoFuel.
Arguments Done {A}.
Arguments Crash {A}.
Arguments NoFuel {A}.

Definition M (A : Type) : Type := NetworkClient → option ErrorContext → exec A.

#[export] Instance M_ret : MRet M := λ A a c ctx, Done a c ctx.
#[export] Instance M_bind : MBind M := λ A B f m c ctx,
  match m c ctx with
  | Done a c ctx => f a c ctx
  | Crash => Crash
  | NoFuel => NoFuel
  end.

Definition get {A} (f : NetworkClient → A) : M A := λ c ctx, Done (f c) c ctx.
Definition modify (f : NetworkClient → NetworkClient) : M unit := λ c ctx, Done tt (f c) ctx.
Definition out_of_fuel {A} : M A := λ _ _, NoFuel.

Definition lift {A} (o : outcome A) : M A := λ c ctx,
  match o with Ret a => Done a c ctx | UB => Crash end.

Definition set_error (f : option ErrorContext → option ErrorContext) : M unit := λ c ctx,
  Done tt c (f ctx).

(** [return setError(ctx, status, message);] *)
Definition fail (status : Status) (message : bytes) : M Status := λ c ctx,
  let '(st, ctx) := setError ctx status message in Done st c ctx.

(** A parser run on the caller's context. *)
Definition parse {A} (p : option bytes → outcome (A * option bytes)) : M A := λ c ctx,
  match parse_with p ctx with Ret (a, ctx) => Done a c ctx | UB => Crash end.

(** [core::ErrorContext local;] passed instead of the caller's. *)
Definition with_local_context {A} (m : M A) : M A := λ c ctx,
  match m c (Some fresh_context) with
  | Done a c _ => Done a c ctx
  | Crash => Crash
  | NoFuel => NoFuel
  end.

(** [if (status != OK) return status;] *)
Definition checked (status : Status) (k : M Status) : M Status :=
  if bool_decide (status = OK) then k else mret status.

(** ** Messages *)

Definition tag (m : MessageType.t) : byte := byte_of (MessageType.code m).

Definition is_type (m : MessageType.t) (msg : ProtocolMessage) : bool :=
  bool_decide (type (header msg) = tag m).

Definition isAsyncMessageType (msg : ProtocolMessage) : bool :=
  is_type MessageType.ParameterStatus msg || is_type MessageType.Notification msg ||
  is_type MessageType.QueryPlan msg || is_type MessageType.SblrCompiled msg.

(** The pointer that a send dereferences is set. Nothing is received that was
    not preceded by a send, so that receives need no such test. *)
Definition live (c : NetworkClient) : bool :=
  if tls_active (wire c) then tls_conn_ c else socket_ c.

(** [sendMessage] with a type and a payload; yields the sequence number too. *)
Definition sendMessage (t : MessageType.t) (payload : bytes) (flags : byte) (force_zero : bool)
    : M (Status * Z) := λ c ctx,
  if negb (live c) then Crash else
  let '(seq, c) :=
    if force_zero then (0, c)
    else (next_sequence_ c, c <| next_sequence_ := u32 (next_sequence_ c + 1) |>) in
  let h := mkHeader (tag t) flags 0 seq (session_id_ c) 0 in
  match write_message (mkMessage h payload) ctx (wire c) with
  | Ret (st, ctx, w) => Done (st, seq) (c <| wire := w |>) ctx
  | UB => Crash
  end.

Definition send (t : MessageType.t) (payload : bytes) : M Status :=
  '(st, _) ← sendMessage t payload Byte.x00 false; mret st.

Definition no_message : ProtocolMessage := mkMessage default_header [].

Definition receive : M (Status * ProtocolMessage) := λ c ctx,
  match receiveMessage no_message ctx (wire c) with
  | Ret (st, msg, ctx, w) => Done (st, msg) (c <| wire := w |>) ctx
  | UB => Crash
  end.

(** ** Asynchronous messages *)

(** The lambda [hexToNibble], on a lower-case digit. *)
Definition hex_nibble (b : byte) : option Z :=
  let v := byte_val b in
  if (48 <=? v) && (v <=? 57) then Some (v - 48)
  else if (97 <=? v) && (v <=? 102) then Some (v - 97 + 10)
  else None.

Fixpoint hex_pairs (s : bytes) : option bytes :=
  match s with
  | hi :: lo :: r =>
      high ← hex_nibble hi;
      low ← hex_nibble lo;
      out ← hex_pairs r;
      Some (byte_of (Z.lor (Z.shiftl high 4) low) :: out)
  | _ => Some []
  end.

(** The empty vector stands for a malformed text. *)
Definition parseUuidHex (value : bytes) : bytes :=
  let trimmed := toLower (filter (λ c, c ≠ "-"%byte) value) in
  if negb (length trimmed =? 32)%nat then [] else default [] (hex_pairs trimmed).

Definition client_notification (n : Notification) : ClientNotification :=
  mkClientNotification (process_id n) (channel n) (npayload n) (change_type n) (row_id n).

Definition empty_notification : Notification := mkNotification 0 [] [] Byte.x00 0 false.
Definition empty_plan : QueryPlan := mkPlan 0 0 0 0 [].
Definition empty_sblr : SblrCompiled := mkSblr 0 0 [].

(** What a parameter report changes. *)
Definition note_parameter (name value : bytes) (c : NetworkClient) : NetworkClient :=
  let c := c <| parameter_status_ := <[name := value]> (parameter_status_ c) |> in
  if bool_decide (name = ("attachment_id" : bytes)) then
    let uuid := parseUuidHex value in
    if (length uuid =? 16)%nat then c <| session_id_ := uuid |> else c
  else if bool_decide (name = ("current_txn_id" : bytes)) then
    c <| current_txn_id_ := match strtoull value with Some (v, _, _) => v | None => 0 end |>
  else c.

Definition handleAsyncMessage (msg : ProtocolMessage) : M Status :=
  if is_type MessageType.ParameterStatus msg then
    '(status, name, value) ← parse (parseParameterStatus (body msg) [] []);
    if bool_decide (status = OK) then _ ← modify (note_parameter name value); mret status
    else mret status
  else if is_type MessageType.Notification msg then
    '(status, note) ← parse (parseNotification (body msg) empty_notification);
    if bool_decide (status = OK) then
      _ ← modify (λ c, c <| notifications_ := notifications_ c ++ [client_notification note] |>);
      mret status
    else mret status
  else if is_type MessageType.QueryPlan msg then
    '(status, plan) ← parse (parseQueryPlan (body msg) empty_plan);
    if bool_decide (status = OK) then
      _ ← modify (λ c, c <| last_plan_ := Some plan |>); mret status
    else mret status
  else if is_type MessageType.SblrCompiled msg then
    '(status, compiled) ← parse (parseSblrCompiled (body msg) empty_sblr);
    if bool_decide (status = OK) then
      _ ← modify (λ c, c <| last_sblr_ := Some compiled |>); mret status
    else mret status
  else mret OK.

(** The test that opens every message loop: was the message asynchronous and
    understood? *)
Definition absorbed (msg : ProtocolMessage) : M bool :=
  status ← handleAsyncMessage msg;
  mret (bool_decide (status = OK) && isAsyncMessageType msg).

Definition parseReadyAndTrackTransaction (payload : bytes) : M Status :=
  '(status, status_byte, txn_id, epoch) ← parse (parseReady payload Byte.x00 0 0);
  if bool_decide (status = OK) then
    _ ← modify (λ c, c <| in_transaction_ := negb (bool_decide (status_byte = Byte.x00)) |>
                       <| current_txn_id_ := txn_id |>);
    mret status
  else mret status.

(** ** Error replies *)

Definition mapped_status (sqlstate message : bytes) : Status :=
  if contains "AUTH_CLIENT_PINNING_VIOLATION" message || contains "AUTH_METHOD_NOT_ALLOWED" message ||
     contains "AUTH_NO_LOGIN_DIRECT" message then INVALID_AUTHORIZATION
  else if starts_with "08" sqlstate then CONNECTION_FAILURE
  else if bool_decide (sqlstate = ("28P01" : bytes)) || bool_decide (sqlstate = ("28000" : bytes))
  then INVALID_PASSWORD
  else if bool_decide (sqlstate = ("25P01" : bytes)) then NO_ACTIVE_TRANSACTION
  else if bool_decide (sqlstate = ("25P02" : bytes)) then TRANSACTION_ABORTED
  else if bool_decide (sqlstate = ("25006" : bytes)) then READ_ONLY_TRANSACTION
  else if starts_with "25" sqlstate || bool_decide (sqlstate = ("2D000" : bytes)) ||
          bool_decide (sqlstate = ("0B000" : bytes)) then INVALID_TRANSACTION_STATE
  else if starts_with "42" sqlstate then SYNTAX_ERROR
  else if starts_with "23" sqlstate then CONSTRAINT_VIOLATION
  else if bool_decide (sqlstate = ("40001" : bytes)) then SERIALIZATION_FAILURE
  else if bool_decide (sqlstate = ("40P01" : bytes)) then DEADLOCK
  else if bool_decide (sqlstate = ("57014" : bytes)) then QUERY_CANCELED
  else if bool_decide (sqlstate = ("0A000" : bytes)) then NOT_SUPPORTED
  else INTERNAL_ERROR.

(** The context after an error message with these fields. *)
Definition report_error (f : ErrorFields) (ctx : option ErrorContext) : option ErrorContext :=
  let msg :=
    if bool_decide (detail f = []) then message f
    else message f ++ (" (" : bytes) ++ detail f ++ (")" : bytes) in
  let ctx :=
    (λ c, c <| c_code := mapped_status (sqlstate f) (message f) |> <| c_message := msg |>
            <| c_hint := hint f |>) <$> ctx in
  if bool_decide (sqlstate f = []) then ctx else setSQLState ctx (sqlstate f).

Definition mapProtocolError (msg : ProtocolMessage) : M Status :=
  '(status, f) ← parse (parseErrorMessage (body msg));
  checked status (
    _ ← set_error (report_error f);
    mret (mapped_status (sqlstate f) (message f))).

Definition end_query : M unit := modify (λ c, c <| last_query_sequence_ := 0 |>).

(** The loop of [handleErrorResponse]: skip to the end of the reply, with
    contexts of its own. *)
Fixpoint error_drain_loop (fuel : nat) (mapped : Status) : M Status :=
  match fuel with
  | O => out_of_fuel
  | S fuel =>
      '(status, trailing) ← with_local_context receive;
      if bool_decide (status ≠ OK) then _ ← end_query; mret mapped else
      done ← with_local_context (absorbed trailing);
      if done : bool then error_drain_loop fuel mapped
      else if is_type MessageType.Error trailing then error_drain_loop fuel mapped
      else if is_type MessageType.Ready trailing then
        ready_status ← with_local_context (parseReadyAndTrackTransaction (body trailing));
        _ ← end_query;
        mret (if bool_decide (ready_status = OK) then mapped else ready_status)
      else error_drain_loop fuel mapped
  end.

Definition handleErrorResponse (fuel : nat) (msg : ProtocolMessage) : M Status :=
  mapped ← mapProtocolError msg;
  error_drain_loop fuel mapped.

(** [drainUntilReady]: the status, and the tag, row count and last id of the
    completion report, which are stored only on success. *)
Fixpoint drain_loop (fuel : nat) (tag : bytes) (local_rows local_last : Z)
    : M (Status * option (bytes * Z * Z)) :=
  match fuel with
  | O => out_of_fuel
  | S fuel =>
      '(status, msg) ← receive;
      if bool_decide (status ≠ OK) then mret (status, None) else
      done ← absorbed msg;
      if done : bool then drain_loop fuel tag local_rows local_last
      else if is_type MessageType.CommandComplete msg then
        '(status, _, local_rows, local_last, tag) ←
          parse (parseCommandComplete (body msg) Byte.x00 local_rows local_last tag);
        if bool_decide (status = OK) then drain_loop fuel tag local_rows local_last
        else mret (status, None)
      else if is_type MessageType.Error msg then
        status ← handleErrorResponse fuel msg; mret (status, None)
      else if is_type MessageType.Ready msg then
        ready_status ← parseReadyAndTrackTransaction (body msg);
        if bool_decide (ready_status = OK) then
          _ ← end_query; mret (OK, Some (tag, local_rows, local_last))
        else mret (ready_status, None)
      else drain_loop fuel tag local_rows local_last
  end.

Definition drainUntilReady (fuel : nat) : M Status :=
  '(status, _) ← drain_loop fuel [] 0 0; mret status.

(** ** Queries *)

(** The conversion loop over the column descriptions. *)
Definition network_column (c : ColumnInfo) : NetworkColumn :=
  mkNetworkColumn (name c) (type_oid c) (type_modifier c) (format c) (nullable c).

(** The loops of the five requests that return rows differ in two points:
    whether a suspended portal is expected, and whether [Ready] clears
    [last_query_sequence_]. *)
Record loop_kind := mkKind { suspends : bool; resets_sequence : bool }.

(** The message loop: the status, the result set and [portal_suspended]. *)
Fixpoint result_loop (fuel : nat) (k : loop_kind) (cols : list ColumnInfo)
    (results : NetworkResultSet) : M (Status * NetworkResultSet * bool) :=
  match fuel with
  | O => out_of_fuel
  | S fuel =>
      '(status, msg) ← receive;
      if bool_decide (status ≠ OK) then mret (status, results, false) else
      done ← absorbed msg;
      if done : bool then result_loop fuel k cols results
      else if is_type MessageType.RowDescription msg then
        '(status, cols) ← parse (parseRowDescription (body msg) []);
        if bool_decide (status = OK)
        then result_loop fuel k cols (results <| columns := network_column <$> cols |>)
        else mret (status, results, false)
      else if is_type MessageType.DataRow msg then
        '(status, values) ← parse (parseDataRow (body msg) (blen cols) []);
        if bool_decide (status = OK)
        then result_loop fuel k cols (results <| rows := rows results ++ [values] |>)
        else mret (status, results, false)
      else if is_type MessageType.CommandComplete msg then
        '(status, _, n, _, tag) ← parse (parseCommandComplete (body msg) Byte.x00 0 0 []);
        if bool_decide (status = OK)
        then result_loop fuel k cols (results <| rows_affected := i64 n |> <| command_tag := tag |>)
        else mret (status, results, false)
      else if suspends k && is_type MessageType.PortalSuspended msg then
        _ ← end_query;
        status ← send MessageType.Sync [];
        if bool_decide (status = OK) then
          status ← drainUntilReady fuel; mret (status, results, true)
        else mret (status, results, true)
      else if is_type MessageType.Error msg then
        status ← handleErrorResponse fuel msg; mret (status, results, false)
      else if is_type MessageType.Ready msg then
        _ ← (if resets_sequence k then end_query else mret tt);
        status ← parseReadyAndTrackTransaction (body msg); mret (status, results, false)
      else result_loop fuel k cols results
  end.

Definition query_kind : loop_kind := mkKind false true.
Definition portal_kind : loop_kind := mkKind true true.
Definition attach_kind : loop_kind := mkKind false false.

Definition kQueryFlagBinaryResult : Z := 4.
Definition kFormatBinary : Z := 1.
Definition kDescribeStatement : byte := "S"%byte.
Definition kCloseStatement : byte := "S"%byte.
Definition kCancelTypeStatement : Z := 0.
Definition kFlagUrgent : byte := Byte.x08.

(** Send a request that starts a query, and remember its number. *)
Definition start_query (t : MessageType.t) (payload : bytes) : M Status :=
  '(status, seq) ← sendMessage t payload Byte.x00 false;
  checked status (_ ← modify (λ c, c <| last_query_sequence_ := seq |>); mret OK).

(** A request that failed before its loop: no results (with an unknown
    statement the caller's object is not even reset). *)
Definition no_reply (status : Status) : M (Status * NetworkResultSet) := mret (status, no_results).

Definition executeQuery (fuel : nat) (sql : bytes) : M (Status * NetworkResultSet) :=
  payload ← lift (buildQueryPayload sql kQueryFlagBinaryResult 0 0);
  status ← start_query MessageType.Query payload;
  if bool_decide (status ≠ OK) then no_reply status else
  '(status, results, _) ← result_loop fuel query_kind [] no_results;
  mret (status, results).

(** The message loop of [prepare]. *)
Fixpoint prepare_loop (fuel : nat) (stmt : NetworkPreparedStatement)
    : M (Status * NetworkPreparedStatement) :=
  match fuel with
  | O => out_of_fuel
  | S fuel =>
      '(status, msg) ← receive;
      if bool_decide (status ≠ OK) then mret (status, stmt) else
      done ← absorbed msg;
      if done : bool then prepare_loop fuel stmt
      else if is_type MessageType.ParameterDescription msg then
        '(status, types) ← parse (parseParameterDescription (body msg) []);
        if bool_decide (status = OK)
        then prepare_loop fuel (stmt <| param_count_ := blen types |>)
        else mret (status, stmt)
      else if is_type MessageType.Error msg then
        status ← handleErrorResponse fuel msg; mret (status, stmt)
      else if is_type MessageType.Ready msg then
        status ← parseReadyAndTrackTransaction (body msg);
        mret (status, stmt <| valid_ := bool_decide (status = OK) |>)
      else prepare_loop fuel stmt
  end.

(** [now] is the clock reading that names the statement. *)
Definition prepare (fuel : nat) (now : Z) (sql : bytes) : M (Status * NetworkPreparedStatement) :=
  let stmt :=
    no_statement <| sql_ := sql |> <| statement_name_ := ("stmt_" : bytes) ++ dec now |> in
  parse_payload ← lift (buildParsePayload (statement_name_ stmt) sql []);
  status ← send MessageType.Parse parse_payload;
  if bool_decide (status ≠ OK) then mret (status, stmt) else
  describe_payload ← lift (buildDescribePayload kDescribeStatement (statement_name_ stmt));
  status ← send MessageType.Describe describe_payload;
  if bool_decide (status ≠ OK) then mret (status, stmt) else
  status ← send MessageType.Sync [];
  if bool_decide (status ≠ OK) then mret (status, stmt) else
  prepare_loop fuel stmt.

(** Bind and execute, common to [executePrepared] and
    [executeServerStatement]. *)
Definition bind_and_execute (statement_name : bytes) (params : list ParamValue) (max_rows : Z)
    : M Status :=
  n ← get next_sequence_;
  let portal_name := ("portal_" : bytes) ++ dec n in
  bind_payload ← lift (buildBindPayload portal_name statement_name params [kFormatBinary]);
  status ← send MessageType.Bind bind_payload;
  checked status (
    exec_payload ← lift (buildExecutePayload portal_name max_rows);
    start_query MessageType.Execute exec_payload).

Definition executePrepared (fuel : nat) (stmt : NetworkPreparedStatement)
    : M (Status * NetworkResultSet) :=
  if negb (valid_ stmt) then
    status ← fail INVALID_ARGUMENT "Prepared statement is not valid"; no_reply status
  else
    status ← bind_and_execute (statement_name_ stmt) (params_ stmt) 0;
    if bool_decide (status ≠ OK) then no_reply status else
    '(status, results, _) ← result_loop fuel query_kind [] no_results;
    mret (status, results).

Definition prepareServerStatement (fuel : nat) (now : Z) (sql : bytes) : M (Status * Z) :=
  '(status, stmt) ← prepare fuel now sql;
  if bool_decide (status ≠ OK) then mret (status, 0) else
  stmt_id ← get next_id;
  _ ← modify (λ c, c <| next_id := u32 (next_id c + 1) |>
                     <| prepared_statements_ := <[stmt_id := stmt]> (prepared_statements_ c) |>);
  mret (OK, stmt_id).

Definition executeServerStatement (fuel : nat) (stmt_id : Z) (params : list ParamValue)
    (max_rows : Z) : M (Status * NetworkResultSet * bool) :=
  stmts ← get prepared_statements_;
  match stmts !! stmt_id with
  | None =>
      status ← fail INVALID_ARGUMENT "Statement not found"; mret (status, no_results, false)
  | Some stmt =>
      status ← bind_and_execute (statement_name_ stmt) params max_rows;
      if bool_decide (status ≠ OK) then mret (status, no_results, false) else
      result_loop fuel portal_kind [] no_results
  end.

Definition closeServerStatement (fuel : nat) (stmt_id : Z) : M Status :=
  stmts ← get prepared_statements_;
  match stmts !! stmt_id with
  | None => fail INVALID_ARGUMENT "Statement not found"
  | Some stmt =>
      close_payload ← lift (buildClosePayload kCloseStatement (statement_name_ stmt));
      status ← send MessageType.Close close_payload;
      checked status (
        status ← send MessageType.Sync [];
        checked status (
          _ ← modify (λ c, c <| prepared_statements_ := delete stmt_id (prepared_statements_ c) |>);
          drainUntilReady fuel))
  end.

Definition executeSblr (fuel : nat) (sblr_hash : Z) (bytecode : bytes) (params : list ParamValue)
    : M (Status * NetworkResultSet) :=
  payload ← lift (buildSblrExecutePayload sblr_hash bytecode params);
  status ← start_query MessageType.SblrExecute payload;
  if bool_decide (status ≠ OK) then no_reply status else
  '(status, results, _) ← result_loop fuel query_kind [] no_results;
  mret (status, results).

Definition attachList (fuel : nat) : M (Status * NetworkResultSet) :=
  status ← send MessageType.AttachList buildAttachListPayload;
  if bool_decide (status ≠ OK) then no_reply status else
  status ← send MessageType.Sync [];
  if bool_decide (status ≠ OK) then no_reply status else
  '(status, results, _) ← result_loop fuel attach_kind [] no_results;
  mret (status, results).

(** ** Other requests *)

(** Send one message and wait for the end of the reply. *)
Definition request (fuel : nat) (t : MessageType.t) (payload : outcome bytes) : M Status :=
  payload ← lift payload;
  status ← send t payload;
  checked status (drainUntilReady fuel).

Definition sendQueryCancel : M Status :=
  connected ← get connected_;
  if negb connected then fail CONNECTION_DOES_NOT_EXIST "Connection not open" else
  seq ← get last_query_sequence_;
  if seq =? 0 then fail INVALID_ARGUMENT "No in-flight query to cancel" else
  payload ← lift (buildCancelPayload kCancelTypeStatement seq);
  '(status, _) ← sendMessage MessageType.Cancel payload kFlagUrgent false;
  mret status.

Definition subscribeNotifications (fuel : nat) (subscribe_type : byte) (channel filter : bytes)
    : M Status :=
  request fuel MessageType.Subscribe (buildSubscribePayload subscribe_type channel filter).

Definition unsubscribeNotifications (fuel : nat) (channel : bytes) : M Status :=
  request fuel MessageType.Unsubscribe (buildUnsubscribePayload channel).

Definition streamControl (control_type : byte) (window_size timeout_ms : Z) : M Status :=
  payload ← lift (buildStreamControlPayload control_type window_size timeout_ms);
  send MessageType.StreamControl payload.

Definition attachCreate (fuel : nat) (mode db_name : bytes) : M Status :=
  request fuel MessageType.AttachCreate (buildAttachCreatePayload mode db_name).

Definition attachDetach (fuel : nat) : M Status :=
  request fuel MessageType.AttachDetach (Ret buildAttachDetachPayload).

Definition setOption (fuel : nat) (name value : bytes) : M Status :=
  request fuel MessageType.SetOption (buildSetOptionPayload name value).

(** The loop of [ping]. *)
Fixpoint ping_loop (fuel : nat) : M Status :=
  match fuel with
  | O => out_of_fuel
  | S fuel =>
      '(status, msg) ← receive;
      checked status (
        done ← absorbed msg;
        if done : bool then ping_loop fuel
        else if is_type MessageType.Pong msg then mret OK
        else if is_type MessageType.Ready msg then parseReadyAndTrackTransaction (body msg)
        else if is_type MessageType.Error msg then handleErrorResponse fuel msg
        else ping_loop fuel)
  end.

Definition ping (fuel : nat) : M Status :=
  status ← send MessageType.Ping [];
  checked status (ping_loop fuel).

Definition drainNotifications : M (list ClientNotification) :=
  out ← get notifications_;
  _ ← modify (λ c, c <| notifications_ := [] |>);
  mret out.

Definition takeLastQueryPlan : M (option QueryPlan) :=
  out ← get last_plan_;
  _ ← modify (λ c, c <| last_plan_ := None |>);
  mret out.

Definition takeLastSblrCompiled : M (option SblrCompiled) :=
  out ← get last_sblr_;
  _ ← modify (λ c, c <| last_sblr_ := None |>);
  mret out.

(** ** Transactions *)

Record TransactionOptions := mkTransactionOptions {
  o_flags : Z;
  o_conflict_action : byte;
  o_autocommit_mode : byte;
  o_isolation_level : byte;
  o_read_committed_mode : byte;
  o_access_mode : byte;
  o_deferrable : byte;
  o_wait_mode : byte;
  o_timeout_ms : Z
}.

#[export] Instance TransactionOptions_eq_dec : EqDecision TransactionOptions.
Proof. solve_decision. Defined.

(** [TransactionOptions{}] *)
Definition default_options : TransactionOptions :=
  mkTransactionOptions 0 Byte.x00 Byte.x00 Byte.x00 Byte.x00 Byte.x00 Byte.x00 Byte.x00 0.

(** Every field is zero. *)
Definition canAdoptFreshNativeBoundary (options : TransactionOptions) : bool :=
  bool_decide (options = default_options).

Definition fail_with_state (status : Status) (message sqlstate : bytes) : M Status :=
  _ ← set_error (λ ctx, setSQLState (set_context ctx status message) sqlstate);
  mret status.

(** The flags and isolation level that are sent. *)
Definition begin_flags (options : TransactionOptions) : Z * byte :=
  if bool_decide (o_read_committed_mode options = Byte.x00)
  then (o_flags options, o_isolation_level options)
  else
    let flags := Z.lor (o_flags options) 0x0100 in
    if Z.land flags 0x0001 =? 0 then (Z.lor flags 0x0001, Byte.x01)
    else (flags, o_isolation_level options).

Definition beginTransaction (fuel : nat) (options : TransactionOptions) : M Status :=
  in_transaction ← get in_transaction_;
  txn ← get current_txn_id_;
  if in_transaction : bool then
    if txn =? 0 then
      if canAdoptFreshNativeBoundary options then mret OK
      else fail_with_state NOT_SUPPORTED
             "fresh native transaction boundaries only support default READ COMMITTED adoption in the C/C++ lane"
             SQLSTATE_FEATURE_NOT_SUPPORTED
    else fail_with_state INVALID_TRANSACTION_STATE "transaction already active"
           SQLSTATE_ACTIVE_SQL_TRANSACTION
  else
    let '(flags, isolation_level) := begin_flags options in
    request fuel MessageType.TxnBegin
      (buildTxnBeginPayload flags (o_conflict_action options) (o_autocommit_mode options)
         isolation_level (o_access_mode options) (o_deferrable options) (o_wait_mode options)
         (o_timeout_ms options) (o_read_committed_mode options)).

Definition commit (fuel : nat) : M Status :=
  request fuel MessageType.TxnCommit (buildTxnCommitPayload Byte.x00).

Definition rollback (fuel : nat) : M Status :=
  request fuel MessageType.TxnRollback (buildTxnRollbackPayload Byte.x00).

(** The three savepoint requests. *)
Definition named_request (fuel : nat) (t : MessageType.t) (build : bytes → outcome bytes) (name : bytes)
    : M Status :=
  if bool_decide (name = []) then fail INVALID_ARGUMENT "Savepoint name is required"
  else request fuel t (build name).

Definition savepoint (fuel : nat) (name : bytes) : M Status :=
  named_request fuel MessageType.TxnSavepoint buildTxnSavepointPayload name.

Definition releaseSavepoint (fuel : nat) (name : bytes) : M Status :=
  named_request fuel MessageType.TxnRelease buildTxnReleasePayload name.

Definition rollbackToSavepoint (fuel : nat) (name : bytes) : M Status :=
  named_request fuel MessageType.TxnRollbackTo buildTxnRollbackToPayload name.

(** [disconnect]: close the transport and forget the session. *)
Definition disconnect (c : NetworkClient) : NetworkClient :=
  c <| tls_conn_ := false |> <| socket_ := false |>
    <| wire := mkTransport (tls_active (wire c)) [] (outgoing (wire c)) [] |>
    <| session_id_ := replicate 16 Byte.x00 |> <| notifications_ := [] |>
    <| parameter_status_ := ∅ |> <| last_plan_ := None |> <| last_sblr_ := None |>
    <| connected_ := false |> <| in_transaction_ := false |> <| current_txn_id_ := 0 |>
    <| next_sequence_ := 0 |> <| last_query_sequence_ := 0 |> <| prepared_statements_ := ∅ |>.
