(* ===== verification/Oids.v ===== *)
(** * Type identifiers of the protocol

    The object identifiers of [include/scratchbird/protocol/sbwp_protocol.h]
    that parameters and columns carry, with the wire formats. *)

From S2P Require Import Prelude.

Definition kFormatText : Z := 0.
Definition kOidBool : Z := 16.
Definition kOidBytea : Z := 17.
Definition kOidChar : Z := 18.
Definition kOidInt8 : Z := 20.
Definition kOidInt2 : Z := 21.
Definition kOidInt4 : Z := 23.
Definition kOidText : Z := 25.
Definition kOidInt4Array : Z := 1007.
Definition kOidTextArray : Z := 1009.
Definition kOidJson : Z := 114.
Definition kOidXml : Z := 142.
Definition kOidPoint : Z := 600.
Definition kOidLseg : Z := 601.
Definition kOidPath : Z := 602.
Definition kOidBox : Z := 603.
Definition kOidPolygon : Z := 604.
Definition kOidLine : Z := 628.
Definition kOidFloat4 : Z := 700.
Definition kOidFloat8 : Z := 701.
Definition kOidCircle : Z := 718.
Definition kOidMoney : Z := 790.
Definition kOidMacaddr : Z := 829.
Definition kOidCidr : Z := 650.
Definition kOidInet : Z := 869.
Definition kOidMacaddr8 : Z := 774.
Definition kOidBpChar : Z := 1042.
Definition kOidVarchar : Z := 1043.
Definition kOidDate : Z := 1082.
Definition kOidTime : Z := 1083.
Definition kOidTimestamp : Z := 1114.
Definition kOidTimestamptz : Z := 1184.
Definition kOidInterval : Z := 1186.
Definition kOidTimetz : Z := 1266.
Definition kOidNumeric : Z := 1700.
Definition kOidUuid : Z := 2950.
Definition kOidJsonb : Z := 3802.
Definition kOidRecord : Z := 2249.
Definition kOidInt4Range : Z := 3904.
Definition kOidNumRange : Z := 3906.
Definition kOidTsRange : Z := 3908.
Definition kOidTstzRange : Z := 3910.
Definition kOidDateRange : Z := 3912.
Definition kOidInt8Range : Z := 3926.
Definition kOidTsVector : Z := 3614.
Definition kOidTsQuery : Z := 3615.
Definition kOidSbVector : Z := 16386.
