(* ===== verification/NetworkParams.v ===== *)
(** * Binding the parameters of a prepared statement

    Models the setters of [NetworkPreparedStatement] ([src/network_client.cpp]):
    the two vectors they grow and write, the encoding of each type, and what a
    Bind message makes of any sequence of them. Indices start at one; a
    [float] or [double] is given by its bits. *)

From S2P Require Import Prelude.
From S2P Require Import Codec.
From S2P Require Import WireBuild.
From S2P Require Import Oids.
From S2P Require Import NetworkClient.

(** ** Constants *)

Definition kMicrosPerSecond : Z := 1000000.
Definition kMicrosPerDay : Z := 86400 * kMicrosPerSecond.
Definition kDaysFrom1970To2000 : Z := 10957.

#[export] Instance ParamValue_eta : Eta ParamValue :=
  λ p, mkParam (pformat p) (pdata p) (is_null p) (ptype_oid p).

(** [ParamValue{}] *)
Definition default_param : ParamValue := mkParam kFormatBinary [] false 0.

(** ** Growing and writing *)

(** Only [params_] is measured. *)
Definition grow (index : nat) (s : NetworkPreparedStatement) : NetworkPreparedStatement :=
  if (length (params_ s) <? index)%nat
  then s <| params_ := resize index default_param (params_ s) |>
         <| param_type_oids_ := resize index 0 (param_type_oids_ s) |>
  else s.

(** [params_[index - 1] = change(params_[index - 1])] *)
Definition write_param (index : nat) (change : ParamValue → ParamValue) (s : NetworkPreparedStatement)
    : outcome NetworkPreparedStatement :=
  match params_ s !! (index - 1)%nat with
  | Some p => Ret (s <| params_ := <[(index - 1)%nat := change p]> (params_ s) |>)
  | None => UB
  end.

(** [param_type_oids_[index - 1] = oid] *)
Definition write_oid (index : nat) (oid : Z) (s : NetworkPreparedStatement) : outcome NetworkPreparedStatement :=
  match param_type_oids_ s !! (index - 1)%nat with
  | Some _ => Ret (s <| param_type_oids_ := <[(index - 1)%nat := oid]> (param_type_oids_ s) |>)
  | None => UB
  end.

(** What the setters share; index 0 is ignored. *)
Definition set_param (index : nat) (change : ParamValue → ParamValue) (oid : option Z)
    (s : NetworkPreparedStatement) : outcome NetworkPreparedStatement :=
  if (index =? 0)%nat then Ret s else
  s ← write_param index change (grow index s);
  match oid with Some oid => write_oid index oid s | None => Ret s end.

(** A value in binary format. *)
Definition binary_value (oid : Z) (data : bytes) (p : ParamValue) : ParamValue :=
  p <| is_null := false |> <| pformat := kFormatBinary |> <| ptype_oid := oid |> <| pdata := data |>.

Definition set_value (index : nat) (oid : Z) (data : bytes) : NetworkPreparedStatement → outcome NetworkPreparedStatement :=
  set_param index (binary_value oid data) (Some oid).

(** ** The encodings *)

(** [static_cast<uint8_t>((value >> shift) & 0xFF)] *)
Definition byte_at (value shift : Z) : byte := byte_of (Z.land (Z.shiftr value shift) 0xFF).

Definition bytes2 (value : Z) : bytes := [byte_of (Z.land value 0xFF); byte_at value 8].
Definition bytes4 (value : Z) : bytes :=
  [byte_of (Z.land value 0xFF); byte_at value 8; byte_at value 16; byte_at value 24].

(** The loop over [i < 8] on [static_cast<uint64_t>(value)]. *)
Definition bytes8 (value : Z) : bytes := (λ i, byte_at (u64 value) (8 * i)) <$> [0; 1; 2; 3; 4; 5; 6; 7].

(** ** The setters *)

Definition clearParameters (s : NetworkPreparedStatement) : NetworkPreparedStatement :=
  s <| params_ := (λ p, p <| pdata := [] |> <| is_null := true |>) <$> params_ s |>.

Definition setNull (index : nat) := set_param index (λ p, p <| is_null := true |>) None.

Definition setNull_typed (index : nat) (type_oid : Z) :=
  set_param index (λ p, p <| is_null := true |> <| ptype_oid := type_oid |>) (Some type_oid).

Definition setBool (index : nat) (value : bool) :=
  set_value index kOidBool [byte_of (if value then 1 else 0)].

Definition setInt16 (index : nat) (value : Z) := set_value index kOidInt2 (bytes2 value).
Definition setInt32 (index : nat) (value : Z) := set_value index kOidInt4 (bytes4 value).
Definition setInt64 (index : nat) (value : Z) := set_value index kOidInt8 (bytes8 value).
Definition setFloat (index : nat) (bits : Z) := set_value index kOidFloat4 (bytes4 bits).
Definition setDouble (index : nat) (bits : Z) := set_value index kOidFloat8 (bytes8 bits).

Definition setString_typed (index : nat) (value : bytes) (type_oid : Z) := set_value index type_oid value.
Definition setString (index : nat) (value : bytes) := setString_typed index value kOidText.

(** A pointer and a length; nothing is read through the null pointer. *)
Definition setBinary (index : nat) (data : option bytes) (type_oid : Z) :=
  set_value index type_oid (default [] data).
Definition setBytes (index : nat) (data : option bytes) := set_value index kOidBytea (default [] data).

(** The difference is computed in [int64_t]: overflow is undefined. *)
Definition setTimestamp (index : nat) (microseconds : Z) (s : NetworkPreparedStatement)
    : outcome NetworkPreparedStatement :=
  if (index =? 0)%nat then Ret s else
  let micros_since_2000 := microseconds - kDaysFrom1970To2000 * kMicrosPerDay in
  if micros_since_2000 <? - 2 ^ 63 then UB
  else set_value index kOidTimestamptz (bytes8 micros_since_2000) s.

Definition setDate (index : nat) (days : Z) := set_value index kOidDate (bytes4 days).
Definition setTime (index : nat) (microseconds : Z) := set_value index kOidTime (bytes8 microseconds).

Definition setUUID (index : nat) (value : bytes) := set_value index kOidUuid value.

(** A text that is not a UUID binds null. *)
Definition setUUID_text (index : nat) (value : bytes) :=
  let uuid := parseUuidHex value in
  if bool_decide (uuid = []) then setNull_typed index kOidUuid else setUUID index uuid.

(** ** Sequences of calls *)

Inductive value :=
  | VNull | VNullTyped (oid : Z) | VBool (b : bool) | VInt16 (v : Z) | VInt32 (v : Z) | VInt64 (v : Z)
  | VFloat (bits : Z) | VDouble (bits : Z) | VString (s : bytes) | VStringTyped (s : bytes) (oid : Z)
  | VBytes (s : option bytes) | VBinary (s : option bytes) (oid : Z)
  | VTimestamp (micros : Z) | VDate (days : Z) | VTime (micros : Z) | VUuid (s : bytes) | VUuidText (s : bytes).

Inductive call := Set_ (index : nat) (v : value) | Clear.

Definition set (index : nat) (v : value) : NetworkPreparedStatement → outcome NetworkPreparedStatement :=
  match v with
  | VNull => setNull index
  | VNullTyped oid => setNull_typed index oid
  | VBool b => setBool index b
  | VInt16 v => setInt16 index v
  | VInt32 v => setInt32 index v
  | VInt64 v => setInt64 index v
  | VFloat bits => setFloat index bits
  | VDouble bits => setDouble index bits
  | VString s => setString index s
  | VStringTyped s oid => setString_typed index s oid
  | VBytes s => setBytes index s
  | VBinary s oid => setBinary index s oid
  | VTimestamp micros => setTimestamp index micros
  | VDate days => setDate index days
  | VTime micros => setTime index micros
  | VUuid s => setUUID index s
  | VUuidText s => setUUID_text index s
  end.

Definition run_call (s : NetworkPreparedStatement) (c : call) : outcome NetworkPreparedStatement :=
  match c with Set_ index v => set index v s | Clear => Ret (clearParameters s) end.

Definition run_calls : NetworkPreparedStatement → list call → outcome NetworkPreparedStatement := foldM run_call.

(** ** What a value means *)

(** A signed integer in [n] bytes, least significant first. *)
Definition int_bytes (n : nat) (v : Z) : bytes := le_bytes n v.

(** The bytes of a value on the wire, [None] for null: the reference for the
    encodings above. A timestamp counts from 2000. *)
Definition meaning (v : value) : option bytes :=
  match v with
  | VNull | VNullTyped _ => None
  | VBool b => Some [if b then Byte.x01 else Byte.x00]
  | VInt16 v => Some (int_bytes 2 v)
  | VInt32 v | VFloat v | VDate v => Some (int_bytes 4 v)
  | VInt64 v | VDouble v | VTime v => Some (int_bytes 8 v)
  | VTimestamp v => Some (int_bytes 8 (v - 946684800 * 1000000))
  | VString s | VStringTyped s _ | VUuid s => Some s
  | VBytes s | VBinary s _ => Some (default [] s)
  | VUuidText s => if bool_decide (parseUuidHex s = []) then None else Some (parseUuidHex s)
  end.

(** A timestamp that 2000 can be subtracted from. *)
Definition representable (c : call) : Prop :=
  match c with Set_ _ (VTimestamp v) => - 2 ^ 63 + 946684800 * 1000000 <= v | _ => True end.

Lemma byte_at_div v n : 0 <= n → byte_at v n = byte_of (v / 2 ^ n).
Proof. intros. unfold byte_at. rewrite byte_of_land_ff. by rewrite Z.shiftr_div_pow2. Qed.

Lemma bytes2_spec v : bytes2 v = int_bytes 2 v.
Proof. unfold bytes2. by rewrite byte_at_div, byte_of_land_ff. Qed.

Lemma bytes4_spec v : bytes4 v = int_bytes 4 v.
Proof.
  unfold bytes4, int_bytes. rewrite !byte_at_div, byte_of_land_ff by done. cbn [le_bytes].
  by rewrite !Z.div_div by done.
Qed.

Lemma byte_of_div_u64 v n : 0 <= n <= 56 → byte_of (u64 v / 2 ^ n) = byte_of (v / 2 ^ n).
Proof.
  intros Hn. rewrite <-(byte_of_mod (u64 v / _)), <-(byte_of_mod (v / _)). f_equal. unfold u64.
  change 256 with (2 ^ 8). rewrite <-!Z.land_ones, <-!Z.shiftr_div_pow2 by lia.
  apply Z.bits_inj'. intros k Hk. rewrite !Z.land_spec, !Z.shiftr_spec, Z.land_spec by lia.
  rewrite !Z.testbit_ones by lia. destruct (Z.ltb_spec k 8); [|by rewrite !andb_false_r].
  replace ((0 <=? k + n) && (k + n <? 64)) with true by lia. by rewrite andb_true_r.
Qed.

Lemma bytes8_spec v : bytes8 v = int_bytes 8 v.
Proof.
  unfold bytes8, int_bytes. cbn [fmap list_fmap]. rewrite !byte_at_div, !byte_of_div_u64 by lia.
  cbn [le_bytes]. rewrite !Z.div_div by done. by rewrite Z.div_1_r.
Qed.

(** Every setter is one write of a value with that meaning. *)
Lemma set_as_write i v :
  representable (Set_ i v) →
  ∃ change oid, (∀ s, set i v s = set_param i change oid s) ∧
    ∀ p, wire_value (change p) = meaning v ∧ (pformat p = kFormatBinary → pformat (change p) = kFormatBinary).
Proof.
  assert (Hb : ∀ oid data, ∃ change o, (∀ s, set_value i oid data s = set_param i change o s) ∧
    ∀ p, wire_value (change p) = Some data ∧ (pformat p = kFormatBinary → pformat (change p) = kFormatBinary)).
  { intros oid data. exists (binary_value oid data), (Some oid). done. }
  assert (Hn : ∀ oid, ∃ change o, (∀ s, setNull_typed i oid s = set_param i change o s) ∧
    ∀ p, wire_value (change p) = None ∧ (pformat p = kFormatBinary → pformat (change p) = kFormatBinary)).
  { intros oid. eexists _, _. by split. }
  intros Hr. destruct v; cbn [set meaning] in *;
    rewrite <-?bytes2_spec, <-?bytes4_spec, <-?bytes8_spec; try solve [apply Hb | apply Hn].
  - eexists _, _. by split.
  - unfold setBool. destruct b; apply Hb.
  - cbn in Hr. destruct (Hb kOidTimestamptz (bytes8 (micros - 946684800 * 1000000))) as (f & o & Hs & Hf).
    exists f, o. split; [|done]. intros s. rewrite <-Hs. unfold setTimestamp.
    destruct (i =? 0)%nat eqn:Hi; [by unfold set_value, set_param; rewrite Hi|].
    change (kDaysFrom1970To2000 * kMicrosPerDay) with (946684800 * 1000000). by guard_false.
  - unfold setUUID_text. case_bool_decide; [apply Hn|apply Hb].
Qed.

(** ** The two vectors *)

(** They grow together. *)
Definition aligned (s : NetworkPreparedStatement) : Prop :=
  length (params_ s) = length (param_type_oids_ s).

(** What a statement is apart from its parameters. *)
Definition identity (s : NetworkPreparedStatement) : bytes * bytes * Z * bool :=
  (sql_ s, statement_name_ s, param_count_ s, valid_ s).

Lemma grow_spec i s :
  aligned s → aligned (grow i s) ∧ identity (grow i s) = identity s ∧ (i <= length (params_ (grow i s)))%nat ∧
  ∀ j, params_ (grow i s) !! j =
       match params_ s !! j with Some p => Some p | None => if (j <? i)%nat then Some default_param else None end.
Proof.
  intros Ha. unfold grow, aligned in *. destruct (length (params_ s) <? i)%nat eqn:E.
  - cbn [params_ param_type_oids_]. change (params_ (_ <| param_type_oids_ := _ |>)) with (resize i default_param (params_ s)).
    change (param_type_oids_ (_ <| param_type_oids_ := _ |>)) with (resize i 0 (param_type_oids_ s)).
    rewrite !length_resize. split_and!; [done|done|done|]. intros j.
    destruct (params_ s !! j) eqn:Hj.
    + pose proof (lookup_lt_Some _ _ _ Hj). by rewrite lookup_resize by lia.
    + apply lookup_ge_None in Hj. destruct (j <? i)%nat eqn:Hji; [rewrite lookup_resize_new by lia|rewrite lookup_resize_old by lia]; done.
  - split_and!; [done|done|lia|]. intros j. destruct (params_ s !! j) eqn:Hj; [done|].
    apply lookup_ge_None in Hj. destruct (j <? i)%nat eqn:?; [lia|done].
Qed.

(** The effect of a write on one slot, [None] while the vector is shorter. *)
Definition slot_write (i : nat) (change : ParamValue → ParamValue) (j : nat) (slot : option ParamValue)
    : option ParamValue :=
  if (S j =? i)%nat then Some (change (default default_param slot))
  else if (S j <? i)%nat then Some (default default_param slot) else slot.

Lemma set_param_spec i change oid s :
  aligned s → ∃ s', set_param i change oid s = Ret s' ∧ aligned s' ∧ identity s' = identity s ∧
    ∀ j, params_ s' !! j = slot_write i change j (params_ s !! j).
Proof.
  intros Ha. unfold set_param, slot_write. destruct i as [|i]; cbn [Nat.eqb].
  { exists s. by split_and!. }
  destruct (grow_spec (S i) s Ha) as (Hg & Hid & Hlen & Hl). generalize dependent (grow (S i) s). intros g Hg Hid Hlen Hl.
  unfold write_param, write_oid. rewrite !Nat.sub_succ, !Nat.sub_0_r.
  destruct (lookup_lt_is_Some_2 (params_ g) i ltac:(lia)) as [p Hp]. rewrite Hp. cbn [mbind outcome_bind].
  assert (Hpd : p = default default_param (params_ s !! i)).
  { rewrite Hl in Hp. destruct (params_ s !! i); [by injection Hp|]. rewrite (proj2 (Nat.ltb_lt i (S i))) in Hp by lia. by injection Hp. }
  set (s1 := g <| params_ := <[i := change p]> (params_ g) |>).
  assert (H1 : aligned s1) by (unfold aligned; change (params_ s1) with (<[i := change p]> (params_ g)); by rewrite length_insert).
  assert (Hs1 : ∀ j, params_ s1 !! j =
    (if (S j =? S i)%nat then Some (change (default default_param (params_ s !! j)))
     else if (S j <? S i)%nat then Some (default default_param (params_ s !! j)) else params_ s !! j)).
  { intros j. change (params_ s1) with (<[i := change p]> (params_ g)).
    destruct (S j =? S i)%nat eqn:Hj.
    - apply Nat.eqb_eq in Hj as [= ->]. rewrite list_lookup_insert_eq by lia. by rewrite Hpd.
    - rewrite list_lookup_insert_ne by lia. rewrite Hl. destruct (params_ s !! j), (j <? S i)%nat eqn:?, (S j <? S i)%nat eqn:?; lia || done. }
  destruct oid as [oid|]; [|by exists s1].
  destruct (lookup_lt_is_Some_2 (param_type_oids_ s1) i) as [o Ho].
  { unfold aligned in Hg. change (param_type_oids_ s1) with (param_type_oids_ g). lia. }
  rewrite Ho. eexists. split; [done|]. split_and!; [|done|done].
  unfold aligned. change (params_ (s1 <| param_type_oids_ := _ |>)) with (params_ s1).
  change (param_type_oids_ (s1 <| param_type_oids_ := ?x |>)) with x. rewrite length_insert. done.
Qed.

(** ** Slot by slot *)

(** The wire value of a slot after a call, [None] while the vector is shorter. *)
Definition slot_call (j : nat) (slot : option (option bytes)) (c : call) : option (option bytes) :=
  match c with
  | Clear => (λ _, None) <$> slot
  | Set_ i v =>
      if (S j =? i)%nat then Some (meaning v)
      else if (S j <? i)%nat then Some (default (Some []) slot) else slot
  end.

Definition wire_slots (s : NetworkPreparedStatement) (j : nat) : option (option bytes) :=
  wire_value <$> params_ s !! j.

Definition all_binary (s : NetworkPreparedStatement) : Prop := ∀ j p, params_ s !! j = Some p → pformat p = kFormatBinary.

Lemma run_call_spec s c :
  aligned s → all_binary s → representable c →
  ∃ s', run_call s c = Ret s' ∧ aligned s' ∧ identity s' = identity s ∧ all_binary s' ∧
    ∀ j, wire_slots s' j = slot_call j (wire_slots s j) c.
Proof.
  intros Ha Hb Hr. unfold wire_slots. destruct c as [i v|]; cbn [run_call slot_call].
  - destruct (set_as_write i v Hr) as (change & oid & Hset & Hch). rewrite Hset.
    destruct (set_param_spec i change oid s Ha) as (s' & Hs' & Ha' & Hid & Hl). exists s'. split_and!; try done.
    + intros j p. rewrite Hl. unfold slot_write.
      assert (Hd : pformat (default default_param (params_ s !! j)) = kFormatBinary).
      { destruct (params_ s !! j) eqn:E; [by apply (Hb j)|done]. }
      destruct (S j =? i)%nat; [intros [= <-]; by apply Hch|].
      destruct (S j <? i)%nat; [by intros [= <-]|apply Hb].
    + intros j. rewrite Hl. unfold slot_write. destruct (S j =? i)%nat.
      { cbn [fmap option_fmap option_map]. f_equal. apply Hch. }
      destruct (S j <? i)%nat; [|done]. by destruct (params_ s !! j).
  - eexists. split; [done|]. unfold aligned in *.
    change (params_ (clearParameters s)) with ((λ p, p <| pdata := [] |> <| is_null := true |>) <$> params_ s).
    rewrite length_fmap. split_and!; [done|done| |].
    + intros j p. change (params_ (clearParameters s)) with ((λ p, p <| pdata := [] |> <| is_null := true |>) <$> params_ s).
      rewrite list_lookup_fmap. intros (q & Hq & ->)%fmap_Some. by apply (Hb j q).
    + intros j. rewrite list_lookup_fmap. by destruct (params_ s !! j).
Qed.

Lemma run_calls_spec calls : ∀ s,
  aligned s → all_binary s → Forall representable calls →
  ∃ s', run_calls s calls = Ret s' ∧ aligned s' ∧ identity s' = identity s ∧ all_binary s' ∧
    ∀ j, wire_slots s' j = foldl (slot_call j) (wire_slots s j) calls.
Proof.
  induction calls as [|c calls IH]; intros s Ha Hb Hr; [by exists s|].
  apply Forall_cons in Hr as [Hc Hr].
  destruct (run_call_spec s c Ha Hb Hc) as (s1 & H1 & Ha1 & Hid1 & Hb1 & Hl1).
  destruct (IH s1 Ha1 Hb1 Hr) as (s2 & H2 & Ha2 & Hid2 & Hb2 & Hl2). exists s2.
  unfold run_calls in *. cbn [foldM]. rewrite H1. cbn [mbind outcome_bind]. split_and!; [done|done|congruence|done|].
  intros j. by rewrite Hl2, Hl1.
Qed.

(** The call does not write the slot, nor clear it. *)
Definition leaves (j : nat) (c : call) : Prop := match c with Set_ i _ => i ≠ S j | Clear => False end.

Lemma leaves_keeps j calls w : Forall (leaves j) calls → is_Some w → foldl (slot_call j) w calls = w.
Proof.
  intros Hl [x ->]. induction Hl as [|[i v|] calls Hi _ IH]; [done| |done]. cbn [foldl slot_call leaves] in *.
  rewrite (proj2 (Nat.eqb_neq (S j) i)) by done. by destruct (S j <? i)%nat.
Qed.

Lemma slot_last j before v after :
  Forall (leaves j) after → foldl (slot_call j) None (before ++ Set_ (S j) v :: after) = Some (meaning v).
Proof.
  intros Ha. rewrite foldl_app. cbn [foldl slot_call]. rewrite Nat.eqb_refl. by apply leaves_keeps.
Qed.

Lemma slot_gap j calls i v :
  Forall (leaves j) calls → Set_ i v ∈ calls → (S j < i)%nat → foldl (slot_call j) None calls = Some (Some []).
Proof.
  intros Hl Hin Hi. induction Hl as [|c calls Hc Hcs IH]; [by apply elem_of_nil in Hin|]. cbn [foldl].
  destruct c as [k u|]; [|done]. cbn [slot_call leaves] in *. rewrite (proj2 (Nat.eqb_neq (S j) k)) by done.
  destruct (S j <? k)%nat eqn:Hk.
  - by apply leaves_keeps.
  - apply IH. apply elem_of_cons in Hin as [[= -> ->]|Hin]; [lia|done].
Qed.

(** A statement as [prepare] leaves it. *)
Definition unbound (s : NetworkPreparedStatement) : Prop := params_ s = [] ∧ param_type_oids_ s = [].

(** C10: after any calls of the setters on a prepared statement the Bind message
    tells the server, for each parameter, the value set last (a signed integer
    in two's complement, a timestamp counted from 2000, null where null was
    set); a parameter below the highest one set that was never set goes out as
    an empty value, which is neither null nor an error. *)
Theorem parameters_reach_server s calls portal :
  unbound s → Forall representable calls →
  ∃ s', run_calls s calls = Ret s' ∧ identity s' = identity s ∧
    let values := wire_value <$> params_ s' in
    (∀ j before v after, calls = before ++ Set_ (S j) v :: after → Forall (leaves j) after →
       values !! j = Some (meaning v)) ∧
    (∀ j i v, Forall (leaves j) calls → Set_ i v ∈ calls → (S j < i)%nat → values !! j = Some (Some [])) ∧
    let msg := (portal, (statement_name_ s, (replicate (length values) kFormatBinary, (values, [kFormatBinary])))) in
    (wf_c bind_codec msg →
     ∃ payload, buildBindPayload portal (statement_name_ s') (params_ s') [kFormatBinary] = Ret payload ∧
       dec_whole bind_codec payload = Some msg).
Proof.
  intros [Hp Ho] Hr.
  destruct (run_calls_spec calls s) as (s' & Hs & _ & Hid & Hb & Hl); [unfold aligned; by rewrite Hp, Ho| |done|].
  { intros j p. by rewrite Hp. }
  exists s'. split; [done|]. split; [done|]. cbv zeta.
  assert (Hv : ∀ j, (wire_value <$> params_ s') !! j = foldl (slot_call j) None calls).
  { intros j. rewrite list_lookup_fmap. change (wire_value <$> params_ s' !! j) with (wire_slots s' j).
    rewrite Hl. unfold wire_slots. by rewrite Hp. }
  split; [|split].
  - intros j before v after -> Ha. rewrite Hv. by apply slot_last.
  - intros j i v Hlv Hin Hi. rewrite Hv. by apply (slot_gap j calls i v).
  - intros Hwf. injection Hid as _ Hname _ _. rewrite Hname.
    assert (Hf : replicate (length (wire_value <$> params_ s')) kFormatBinary = pformat <$> params_ s').
    { rewrite length_fmap. clear -Hb. apply list_eq. intros j. rewrite list_lookup_fmap.
      destruct (params_ s' !! j) eqn:E.
      - pose proof (lookup_lt_Some _ _ _ E). rewrite lookup_replicate_2 by done. by rewrite <-(Hb j p E).
      - apply lookup_ge_None in E. by rewrite lookup_ge_None_2 by (by rewrite length_replicate). }
    rewrite Hf in *. eexists. split; [apply bind_layout|]. by apply dec_whole_enc.
Qed.

Definition sample_statement : NetworkPreparedStatement :=
  mkStatement "INSERT INTO t VALUES ($1, $2, $3)" "stmt_7" 3 [] [] true.

Definition sample_calls : list call := [Set_ 3 (VInt32 5); Set_ 1 (VString "x"); Set_ 3 (VInt32 (-2))].

Lemma parameters_reach_server_witness :
  ∃ s', run_calls sample_statement sample_calls = Ret s' ∧
    (wire_value <$> params_ s') !! 2%nat = Some (Some [Byte.xfe; Byte.xff; Byte.xff; Byte.xff]) ∧
    (wire_value <$> params_ s') !! 1%nat = Some (Some []) ∧
    ∃ payload, buildBindPayload "portal_1" (statement_name_ s') (params_ s') [1] = Ret payload ∧
      dec_whole bind_codec payload =
        Some ("portal_1" : bytes, ("stmt_7" : bytes, ([1; 1; 1],
          ([Some ("x" : bytes); Some []; Some [Byte.xfe; Byte.xff; Byte.xff; Byte.xff]], [1])))).
Proof.
  destruct (parameters_reach_server sample_statement sample_calls "portal_1") as (s' & Hs & Hid & Hlast & Hgap & Hbind).
  - done.
  - repeat constructor.
  - exists s'. split; [done|]. injection Hs as <-.
    split; [|split].
    + apply (Hlast 2%nat [Set_ 3 (VInt32 5); Set_ 1 (VString "x")] (VInt32 (-2)) []); [done|constructor].
    + apply (Hgap 1%nat 3%nat (VInt32 5)); [repeat constructor; done|by left|lia].
    + apply Hbind. by_evaluation.
Defined.
