(* ===== verification/NetworkClientSpec.v ===== *)
(** * The network client against a server that follows the protocol

    What a reply means: the server's messages as data, with their encodings,
    and their effect on the result set and on the session. The theorems run the
    requests of [NetworkClient] on the bytes of a reply, in any fragmentation:
    the request returns what the reply says and leaves the stream exactly after
    it. Then the ends: termination, and what an unreadable or hostile reply
    does. *)

From S2P Require Import Prelude.
From S2P Require Import Sqlstate.
From S2P Require Import Wire.
From S2P Require Import WireBuild.
From S2P Require Import WireParse.
From S2P Require Import WireServer.
From S2P Require Import ErrorContext.
From S2P Require Import Transport.
From S2P Require Import NetworkConfig.
From S2P Require Import NetworkClient.

(** ** Running requests *)

Lemma bind_done {A B} (m : M A) (f : A → M B) c ctx a c' ctx' :
  m c ctx = Done a c' ctx' → (m ≫= f) c ctx = f a c' ctx'.
Proof. intros H. unfold mbind, M_bind. by rewrite H. Qed.

Lemma parse_done {A} (p : option bytes → outcome (A * option bytes)) a c ctx :
  (∀ m, p m = Ret (a, m)) → parse p c ctx = Done a c ctx.
Proof. intros H. unfold parse. by rewrite (parse_with_ret _ a). Qed.

(** The session after its transport has moved on. *)
Definition arrived (inc : list arrival) (c : NetworkClient) : NetworkClient :=
  c <| wire := wire c <| incoming := inc |> |>.

Lemma receive_done c ctx h b rest :
  wf_header h → blen b <= kMaxMessageSize → stream (incoming (wire c)) (frame h b ++ rest) →
  ∃ inc, stream inc rest ∧ receive c ctx = Done (OK, mkMessage (stamped h b) b) (arrived inc c) ctx.
Proof.
  intros Hh Hb Hs. destruct (receive_frame no_message h b rest ctx (wire c) Hh Hb Hs) as (inc & E & Hr).
  exists inc. split; [done|]. unfold receive. by rewrite E.
Qed.

(** ** Asynchronous messages *)

Definition encode_plan (p : QueryPlan) : bytes :=
  le_bytes 4 (plan_format p) ++ le_bytes 4 (blen (plan p)) ++ le_bytes 8 (planning_time p) ++
  le_bytes 8 (estimated_rows p) ++ le_bytes 8 (estimated_cost p) ++ plan p.

Definition encode_sblr (s : SblrCompiled) : bytes :=
  le_bytes 8 (hash s) ++ le_bytes 4 (version s) ++ le_bytes 4 (blen (bytecode s)) ++ bytecode s.

Definition wf_plan (p : QueryPlan) : Prop :=
  in_u32 (plan_format p) ∧ in_u64 (planning_time p) ∧ in_u64 (estimated_rows p) ∧
  in_u64 (estimated_cost p).

Definition wf_sblr (s : SblrCompiled) : Prop := in_u64 (hash s) ∧ in_u32 (version s).

Lemma plan_parse p p0 ctx :
  wf_plan p → blen (encode_plan p) <= kMaxMessageSize →
  parseQueryPlan (encode_plan p) p0 ctx = Ret (OK, p, ctx).
Proof.
  intros (Hf & Ht & Hr & Hc) Hlen. unfold kMaxMessageSize in Hlen.
  assert (Hp : blen (plan p) <= 1024 * 1024 * 1024 - 32).
  { revert Hlen. unfold encode_plan. rewrite !length_app, !length_le_bytes. lia. }
  assert (in_u32 (blen (plan p))) by (unfold in_u32; lia).
  unfold parseQueryPlan, encode_plan. guard_off. do 5 read_step.
  replace (u32 (32 + blen (plan p))) with (32 + blen (plan p)) by (symmetry; apply Z.mod_small; lia).
  guard_off. read_step. by destruct p.
Qed.

Lemma sblr_parse s s0 ctx :
  wf_sblr s → blen (encode_sblr s) <= kMaxMessageSize →
  parseSblrCompiled (encode_sblr s) s0 ctx = Ret (OK, s, ctx).
Proof.
  intros (Hh & Hv) Hlen. unfold kMaxMessageSize in Hlen.
  assert (Hp : blen (bytecode s) <= 1024 * 1024 * 1024 - 16).
  { revert Hlen. unfold encode_sblr. rewrite !length_app, !length_le_bytes. lia. }
  assert (in_u32 (blen (bytecode s))) by (unfold in_u32; lia).
  unfold parseSblrCompiled, encode_sblr. guard_off. do 3 read_step.
  replace (u32 (16 + blen (bytecode s))) with (16 + blen (bytecode s)) by (symmetry; apply Z.mod_small; lia).
  guard_off. read_step. by destruct s.
Qed.

Inductive async :=
  | AParameter (n v : bytes)
  | ANotification (n : Notification)
  | APlan (p : QueryPlan)
  | ASblr (s : SblrCompiled).

Definition async_type (a : async) : MessageType.t :=
  match a with
  | AParameter _ _ => MessageType.ParameterStatus
  | ANotification _ => MessageType.Notification
  | APlan _ => MessageType.QueryPlan
  | ASblr _ => MessageType.SblrCompiled
  end.

Definition async_body (a : async) : bytes :=
  match a with
  | AParameter n v => encode_parameter_status n v
  | ANotification n => encode_notification n
  | APlan p => encode_plan p
  | ASblr s => encode_sblr s
  end.

Definition wf_async (a : async) : Prop :=
  match a with
  | AParameter n v => in_u32 (blen n) ∧ in_u32 (blen v)
  | ANotification n => wf_notification n
  | APlan p => wf_plan p
  | ASblr s => wf_sblr s
  end.

(** What the session remembers of it. *)
Definition apply_async (a : async) (c : NetworkClient) : NetworkClient :=
  match a with
  | AParameter n v => note_parameter n v c
  | ANotification n => c <| notifications_ := notifications_ c ++ [client_notification n] |>
  | APlan p => c <| last_plan_ := Some p |>
  | ASblr s => c <| last_sblr_ := Some s |>
  end.

Lemma absorbed_async a h c ctx :
  wf_async a → blen (async_body a) <= kMaxMessageSize → type h = tag (async_type a) →
  absorbed (mkMessage (stamped h (async_body a)) (async_body a)) c ctx = Done true (apply_async a c) ctx.
Proof.
  intros Hwf Hlen Ht. unfold absorbed, handleAsyncMessage, isAsyncMessageType, is_type.
  cbn [header body stamped type]. rewrite Ht.
  destruct a as [n v|n|p|s]; cbn [async_type async_body wf_async apply_async] in *.
  - rewrite (bind_done _ _ _ _ OK (note_parameter n v c) ctx); [done|].
    rewrite bool_decide_eq_true_2 by done.
    by rewrite (bind_done _ _ _ _ (OK, n, v) c ctx)
      by (apply parse_done; intros m; apply parameter_status_parse; apply Hwf).
  - rewrite (bind_done _ _ _ _ OK (apply_async (ANotification n) c) ctx); [done|].
    rewrite bool_decide_eq_false_2 by done. rewrite bool_decide_eq_true_2 by done.
    by rewrite (bind_done _ _ _ _ (OK, n) c ctx)
      by (apply parse_done; intros m; by apply notification_parse).
  - rewrite (bind_done _ _ _ _ OK (apply_async (APlan p) c) ctx); [done|].
    do 2 rewrite bool_decide_eq_false_2 by done. rewrite bool_decide_eq_true_2 by done.
    by rewrite (bind_done _ _ _ _ (OK, p) c ctx)
      by (apply parse_done; intros m; by apply plan_parse).
  - rewrite (bind_done _ _ _ _ OK (apply_async (ASblr s) c) ctx); [done|].
    do 3 rewrite bool_decide_eq_false_2 by done. rewrite bool_decide_eq_true_2 by done.
    by rewrite (bind_done _ _ _ _ (OK, s) c ctx)
      by (apply parse_done; intros m; by apply sblr_parse).
Qed.

(** Any other message is left to the loop. *)
Definition async_types : list MessageType.t :=
  [MessageType.ParameterStatus; MessageType.Notification; MessageType.QueryPlan; MessageType.SblrCompiled].

Lemma absorbed_other msg c ctx :
  type (header msg) ∉ tag <$> async_types → absorbed msg c ctx = Done false c ctx.
Proof.
  cbn. rewrite !not_elem_of_cons. intros (H1 & H2 & H3 & H4 & _).
  unfold absorbed, handleAsyncMessage, isAsyncMessageType, is_type.
  by rewrite !bool_decide_eq_false_2 by done.
Qed.

(** ** Replies *)

(** A message before the end of a reply. *)
Inductive item :=
  | IAsync (a : async)
  | IColumns (cs : list ColumnInfo)
  | IRow (bm : bytes) (vs : list ColumnValue)
  | IComplete (ct : byte) (n last_id : Z) (tag : bytes)
  | IOther (t : byte) (b : bytes).

Definition item_body (i : item) : bytes :=
  match i with
  | IAsync a => async_body a
  | IColumns cs => encode_row_description cs
  | IRow bm vs => encode_row bm vs
  | IComplete ct n last_id tag => encode_command_complete ct n last_id tag
  | IOther _ b => b
  end.

(** The types the message loops act on. *)
Definition loop_types : list MessageType.t :=
  [MessageType.RowDescription; MessageType.DataRow; MessageType.CommandComplete;
   MessageType.PortalSuspended; MessageType.Error; MessageType.Ready].

Definition handled_types : list MessageType.t := async_types ++ loop_types.

Definition item_type (i : item) : byte :=
  match i with
  | IAsync a => tag (async_type a)
  | IColumns _ => tag MessageType.RowDescription
  | IRow _ _ => tag MessageType.DataRow
  | IComplete _ _ _ _ => tag MessageType.CommandComplete
  | IOther t _ => t
  end.

(** [cols]: the columns described last. *)
Definition wf_item (cols : list ColumnInfo) (i : item) : Prop :=
  blen (item_body i) <= kMaxMessageSize ∧
  match i with
  | IAsync a => wf_async a
  | IColumns cs => Forall wf_column cs ∧ blen cs < 2 ^ 16
  | IRow bm vs =>
      Forall wf_value vs ∧ bitmap_ok bm 0 vs ∧ blen vs = blen cols ∧ blen vs < 2 ^ 16 ∧ blen bm < 2 ^ 16
  | IComplete _ n last_id tag => in_u64 n ∧ in_u64 last_id ∧ nul_free tag
  | IOther t _ => t ∉ tag <$> handled_types
  end.

Definition wf_message (cols : list ColumnInfo) (m : MessageHeader * item) : Prop :=
  wf_header m.1 ∧ type m.1 = item_type m.2 ∧ wf_item cols m.2.

Definition columns_after (cols : list ColumnInfo) (i : item) : list ColumnInfo :=
  match i with IColumns cs => cs | _ => cols end.

Fixpoint wf_messages (cols : list ColumnInfo) (ms : list (MessageHeader * item)) : Prop :=
  match ms with
  | [] => True
  | m :: ms => wf_message cols m ∧ wf_messages (columns_after cols m.2) ms
  end.

Definition encode_messages (ms : list (MessageHeader * item)) : bytes :=
  concat ((λ m, frame m.1 (item_body m.2)) <$> ms).

(** What a message adds to the result set, and to the session. *)
Definition apply_result (i : item) (r : NetworkResultSet) : NetworkResultSet :=
  match i with
  | IColumns cs => r <| columns := network_column <$> cs |>
  | IRow _ vs => r <| rows := rows r ++ [vs] |>
  | IComplete _ n _ tag => r <| rows_affected := i64 n |> <| command_tag := tag |>
  | _ => r
  end.

Definition apply_session (i : item) (c : NetworkClient) : NetworkClient :=
  match i with IAsync a => apply_async a c | _ => c end.

Definition reply_results (ms : list (MessageHeader * item)) (r : NetworkResultSet) : NetworkResultSet :=
  foldl (λ r m, apply_result m.2 r) r ms.

Definition reply_session (ms : list (MessageHeader * item)) (c : NetworkClient) : NetworkClient :=
  foldl (λ c m, apply_session m.2 c) c ms.

(** The end of a reply: whether a transaction is open, and which. *)
Record ready := mkReady { r_header : MessageHeader; r_status : byte; r_txn : Z; r_epoch : Z }.

Definition wf_ready (r : ready) : Prop :=
  wf_header (r_header r) ∧ type (r_header r) = tag MessageType.Ready ∧
  in_u64 (r_txn r) ∧ in_u64 (r_epoch r).

Definition encode_ready_message (r : ready) : bytes :=
  frame (r_header r) (encode_ready (r_status r) (r_txn r) (r_epoch r)).

Definition apply_ready (r : ready) (c : NetworkClient) : NetworkClient :=
  c <| in_transaction_ := negb (bool_decide (r_status r = Byte.x00)) |> <| current_txn_id_ := r_txn r |>.

(** ** The messages leave the transport alone *)

Lemma note_parameter_arrived n v inc c :
  note_parameter n v (arrived inc c) = arrived inc (note_parameter n v c).
Proof.
  unfold note_parameter, arrived. repeat case_bool_decide; try destruct (_ =? _)%nat; done.
Qed.

Lemma apply_session_arrived i inc c :
  apply_session i (arrived inc c) = arrived inc (apply_session i c).
Proof. destruct i as [[]| | | |]; try done. apply note_parameter_arrived. Qed.

Lemma note_parameter_wire n v c : wire (note_parameter n v c) = wire c.
Proof. unfold note_parameter. repeat case_bool_decide; try destruct (_ =? _)%nat; done. Qed.

Lemma apply_session_wire i c : wire (apply_session i c) = wire c.
Proof. destruct i as [[]| | | |]; try done. apply note_parameter_wire. Qed.

Lemma arrived_arrived inc1 inc2 c : arrived inc1 (arrived inc2 c) = arrived inc1 c.
Proof. done. Qed.

Lemma reply_session_arrived ms inc : ∀ c, reply_session ms (arrived inc c) = arrived inc (reply_session ms c).
Proof.
  unfold reply_session. induction ms as [|m ms IH]; intros c; [done|]. cbn [foldl].
  by rewrite apply_session_arrived, IH.
Qed.

(** ** One message of a loop *)

(** Decide the tests on the type of a message, [Ht] giving it. *)
Ltac type_tests Ht :=
  unfold is_type; cbn [header stamped type]; rewrite ?Ht;
  repeat first [ rewrite bool_decide_eq_true_2 by done | rewrite bool_decide_eq_false_2 by done ];
  rewrite ?andb_false_r, ?andb_true_r.

(** A message that is framed as its type demands; an asynchronous one is also
    well formed, and one of a type of its own ([IOther]) is none of [excluded]. *)
Definition wf_frame (excluded : list MessageType.t) (m : MessageHeader * item) : Prop :=
  wf_header m.1 ∧ type m.1 = item_type m.2 ∧ blen (item_body m.2) <= kMaxMessageSize ∧
  match m.2 with
  | IAsync a => wf_async a
  | IOther t _ => t ∉ tag <$> (async_types ++ excluded)
  | _ => True
  end.

Lemma wf_message_frame cols m : wf_message cols m → wf_frame loop_types m.
Proof.
  intros (Hh & Ht & Hlen & Hi). split; [done|]. split; [done|]. split; [done|].
  by destruct (m.2).
Qed.

Lemma receive_item c ctx ex h i rest :
  wf_frame ex (h, i) → stream (incoming (wire c)) (frame h (item_body i) ++ rest) →
  ∃ inc, stream inc rest ∧
    receive c ctx = Done (OK, mkMessage (stamped h (item_body i)) (item_body i)) (arrived inc c) ctx.
Proof. intros (Hh & _ & Hlen & _). by apply receive_done. Qed.

(** Which messages the loop has to look at itself. *)
Lemma absorbed_item ex h i c ctx : wf_frame ex (h, i) →
  absorbed (mkMessage (stamped h (item_body i)) (item_body i)) c ctx =
    Done (match i with IAsync _ => true | _ => false end) (apply_session i c) ctx.
Proof.
  intros (_ & Ht & Hlen & Hi). cbn [fst snd] in *. destruct i as [a|cs|bm vs|ct n l t|t b].
  - by apply absorbed_async.
  - apply absorbed_other. cbn [header stamped type]. rewrite Ht. by apply (bool_decide_unpack _).
  - apply absorbed_other. cbn [header stamped type]. rewrite Ht. by apply (bool_decide_unpack _).
  - apply absorbed_other. cbn [header stamped type]. rewrite Ht. by apply (bool_decide_unpack _).
  - apply absorbed_other. cbn [header stamped type]. rewrite Ht. cbn [item_type].
    rewrite fmap_app, not_elem_of_app in Hi. apply Hi.
Qed.

(** A type the loops do not act on. *)
Lemma other_type t m : t ∉ tag <$> handled_types → m ∈ handled_types → bool_decide (t = tag m) = false.
Proof.
  intros Ht Hm. apply bool_decide_eq_false. intros ->. apply Ht. by apply list_elem_of_fmap_2.
Qed.

Lemma other_tests t : t ∉ tag <$> handled_types →
  Forall (λ m, bool_decide (t = tag m) = false) handled_types.
Proof. intros Ht. apply Forall_forall. intros m. by apply other_type. Qed.

Lemma result_loop_item fuel k cols r c ctx h i rest :
  wf_message cols (h, i) → stream (incoming (wire c)) (frame h (item_body i) ++ rest) →
  ∃ inc, stream inc rest ∧
    result_loop (S fuel) k cols r c ctx =
      result_loop fuel k (columns_after cols i) (apply_result i r) (arrived inc (apply_session i c)) ctx.
Proof.
  intros Hwf Hs. pose proof (wf_message_frame _ _ Hwf) as Hf.
  destruct (receive_item c ctx _ h i rest Hf Hs) as (inc & Hr & E).
  exists inc. split; [done|]. cbn [result_loop]. rewrite (bind_done _ _ _ _ _ _ _ E).
  rewrite bool_decide_eq_false_2 by (by intros []).
  rewrite (bind_done _ _ _ _ _ _ _ (absorbed_item _ _ _ _ _ Hf)), apply_session_arrived.
  destruct Hwf as (_ & Ht & _ & Hi). cbn [fst snd] in *.
  destruct i as [a|cs|bm vs|ct n l t|t b]; cbn [item_type item_body columns_after apply_result apply_session] in *.
  - done.
  - destruct Hi as [Hcs Hn]. type_tests Ht.
    rewrite (bind_done _ _ _ _ (OK, cs) (arrived inc c) ctx); [done|].
    apply parse_done. intros m. cbn [body]. rewrite <-(app_nil_r (encode_row_description cs)).
    by apply row_description_parse.
  - destruct Hi as (Hvs & Hbm & Hcols & Hn & Hb). type_tests Ht.
    rewrite (bind_done _ _ _ _ (OK, vs) (arrived inc c) ctx); [done|].
    apply parse_done. intros m. cbn [body]. rewrite <-Hcols, <-(app_nil_r (encode_row bm vs)).
    by apply data_row_parse.
  - destruct Hi as (Hn & Hl & Htag). type_tests Ht.
    rewrite (bind_done _ _ _ _ (OK, ct, n, l, t) (arrived inc c) ctx); [done|].
    apply parse_done. intros m. cbn [body]. by apply command_complete_parse.
  - pose proof (other_tests _ Hi) as Ho. unfold handled_types, async_types, loop_types in Ho. cbn [app] in Ho.
    rewrite !Forall_cons in Ho. destruct Ho as (_ & _ & _ & _ & E1 & E2 & E3 & E4 & E5 & E6 & _).
    unfold is_type. cbn [header stamped type]. rewrite Ht, E1, E2, E3, E4, E5, E6, andb_false_r. done.
Qed.

(** All messages before the end. *)
Lemma result_loop_items k ms : ∀ fuel cols r c ctx rest,
  wf_messages cols ms → stream (incoming (wire c)) (encode_messages ms ++ rest) →
  ∃ inc cols', stream inc rest ∧
    result_loop (length ms + fuel) k cols r c ctx =
      result_loop fuel k cols' (reply_results ms r) (arrived inc (reply_session ms c)) ctx.
Proof.
  induction ms as [|[h i] ms IH]; intros fuel cols r c ctx rest Hwf Hs.
  { exists (incoming (wire c)), cols. split; [done|]. by destruct c as [? ? ? [] ? ? ? ? ? ? ? ? ? ? ? ?]. }
  destruct Hwf as [Hm Hwf]. unfold encode_messages in Hs. rewrite fmap_cons, concat_cons, <-app_assoc in Hs.
  destruct (result_loop_item (length ms + fuel) k cols r c ctx h i _ Hm Hs) as (inc & Hs' & E).
  destruct (IH fuel (columns_after cols i) (apply_result i r) (arrived inc (apply_session i c)) ctx rest)
    as (inc' & cols' & Hs'' & E'); [done|done|].
  exists inc', cols'. split; [done|]. cbn [length Nat.add]. rewrite E, E'.
  by rewrite reply_session_arrived.
Qed.

(** ** The end of a reply *)

Lemma absorbed_typed h b t c ctx : type h = tag t → tag t ∉ tag <$> async_types →
  absorbed (mkMessage (stamped h b) b) c ctx = Done false c ctx.
Proof. intros Ht Hn. apply absorbed_other. cbn [header stamped type]. by rewrite Ht. Qed.

Lemma ready_size s x e : blen (encode_ready s x e) <= kMaxMessageSize.
Proof.
  unfold encode_ready, kMaxMessageSize. cbn [app length]. rewrite !length_app, !length_le_bytes.
  cbn [length]. lia.
Qed.

(** [Ready], received and tracked. *)
Lemma receive_ready c ctx r rest :
  wf_ready r → stream (incoming (wire c)) (encode_ready_message r ++ rest) →
  ∃ inc msg, stream inc rest ∧ receive c ctx = Done (OK, msg) (arrived inc c) ctx ∧
    type (header msg) = tag MessageType.Ready ∧
    (∀ c ctx, absorbed msg c ctx = Done false c ctx) ∧
    (∀ c ctx, parseReadyAndTrackTransaction (body msg) c ctx = Done OK (apply_ready r c) ctx).
Proof.
  intros (Hh & Ht & Hx & He) Hs.
  destruct (receive_done c ctx _ _ rest Hh (ready_size _ _ _) Hs) as (inc & Hr & E).
  exists inc, (mkMessage (stamped (r_header r) (encode_ready (r_status r) (r_txn r) (r_epoch r)))
                 (encode_ready (r_status r) (r_txn r) (r_epoch r))).
  split; [done|]. split; [exact E|]. split; [exact Ht|]. split.
  - intros. apply (absorbed_typed _ _ MessageType.Ready); [done|]. by apply (bool_decide_unpack _).
  - intros c0 ctx0. unfold parseReadyAndTrackTransaction. cbn [body].
    by rewrite (bind_done _ _ _ _ (OK, r_status r, r_txn r, r_epoch r) c0 ctx0)
      by (apply parse_done; intros m; by apply ready_parse).
Qed.

(** The session after a whole reply. *)
Definition after_reply (k : loop_kind) (ms : list (MessageHeader * item)) (r : ready)
    (inc : list arrival) (c : NetworkClient) : NetworkClient :=
  let c := reply_session ms c in
  apply_ready r (arrived inc (if resets_sequence k then c <| last_query_sequence_ := 0 |> else c)).

Lemma result_loop_reply fuel k ms r cols res c ctx rest :
  wf_messages cols ms → wf_ready r → (length ms < fuel)%nat →
  stream (incoming (wire c)) (encode_messages ms ++ encode_ready_message r ++ rest) →
  ∃ inc, stream inc rest ∧
    result_loop fuel k cols res c ctx = Done (OK, reply_results ms res, false) (after_reply k ms r inc c) ctx.
Proof.
  intros Hms Hr Hfuel Hs. replace fuel with (length ms + S (fuel - length ms - 1))%nat by lia.
  destruct (result_loop_items k ms (S (fuel - length ms - 1)) cols res c ctx _ Hms Hs) as (inc & cols' & Hs' & ->).
  destruct (receive_ready (arrived inc (reply_session ms c)) ctx r rest Hr Hs')
    as (inc' & msg & Hs'' & E & Ht & Ha & Hp).
  exists inc'. split; [done|]. cbn [result_loop]. rewrite (bind_done _ _ _ _ _ _ _ E).
  rewrite bool_decide_eq_false_2 by (by intros []).
  rewrite (bind_done _ _ _ _ _ _ _ (Ha _ _)), arrived_arrived.
  unfold is_type. rewrite Ht. repeat rewrite bool_decide_eq_false_2 by done.
  rewrite bool_decide_eq_true_2 by done. rewrite andb_false_r.
  unfold after_reply. destruct (resets_sequence k).
  - rewrite (bind_done _ _ _ _ tt ((arrived inc' (reply_session ms c)) <| last_query_sequence_ := 0 |>) ctx) by done.
    by rewrite (bind_done _ _ _ _ _ _ _ (Hp _ _)).
  - rewrite (bind_done _ _ _ _ tt (arrived inc' (reply_session ms c)) ctx) by done.
    by rewrite (bind_done _ _ _ _ _ _ _ (Hp _ _)).
Qed.

(** ** Requests *)

Definition wf_session (c : NetworkClient) : Prop :=
  in_u32 (next_sequence_ c) ∧ length (session_id_ c) = 16%nat ∧ live c = true ∧ write_faults (wire c) = [].

(** The frame a request of the session is sent in. *)
Definition request_frame (t : MessageType.t) (payload : bytes) (c : NetworkClient) : bytes :=
  frame (mkHeader (tag t) Byte.x00 0 (next_sequence_ c) (session_id_ c) 0) payload.

(** The session that has sent it, and the one that also waits for rows. *)
Definition sent (t : MessageType.t) (payload : bytes) (c : NetworkClient) : NetworkClient :=
  c <| next_sequence_ := u32 (next_sequence_ c + 1) |>
    <| wire := wire c <| outgoing := outgoing (wire c) ++ request_frame t payload c |> |>.

Definition started (t : MessageType.t) (payload : bytes) (c : NetworkClient) : NetworkClient :=
  sent t payload c <| last_query_sequence_ := next_sequence_ c |>.

Lemma sendMessage_done t payload c ctx :
  wf_session c → blen payload <= kMaxMessageSize →
  sendMessage t payload Byte.x00 false c ctx = Done (OK, next_sequence_ c) (sent t payload c) ctx.
Proof.
  intros (Hs & Hid & Hlive & Hf) Hlen. unfold sendMessage. rewrite Hlive. cbn [negb next_sequence_ session_id_ wire set_field].
  rewrite (write_frame _ payload); [done| |done|done].
  repeat split; cbn; unfold in_u32, in_u64 in *; try done; lia.
Qed.

Lemma send_done t payload c ctx :
  wf_session c → blen payload <= kMaxMessageSize →
  send t payload c ctx = Done OK (sent t payload c) ctx.
Proof. intros Hc Hlen. unfold send. by rewrite (bind_done _ _ _ _ _ _ _ (sendMessage_done t payload c ctx Hc Hlen)). Qed.

Lemma start_query_done t payload c ctx :
  wf_session c → blen payload <= kMaxMessageSize →
  start_query t payload c ctx = Done OK (started t payload c) ctx.
Proof.
  intros Hc Hlen. unfold start_query.
  by rewrite (bind_done _ _ _ _ _ _ _ (sendMessage_done t payload c ctx Hc Hlen)).
Qed.

Lemma sent_wf t payload c : wf_session c → wf_session (sent t payload c).
Proof.
  intros (Hs & Hid & Hlive & Hf). split; [|by split]. unfold in_u32, sent. cbn. apply Z.mod_pos_bound. lia.
Qed.

(** The layout of the query message. *)
Definition query_payload (sql : bytes) : bytes := layout (RQuery sql kQueryFlagBinaryResult 0 0).

Lemma length_query_payload sql : blen (query_payload sql) = 13 + blen sql.
Proof. unfold query_payload. cbn [layout]. rewrite !length_app, !length_le_bytes. cbn [length]. lia. Qed.

Lemma execute_query_unfold fuel sql c ctx :
  wf_session c → 13 + blen sql <= kMaxMessageSize →
  executeQuery fuel sql c ctx =
    ('(status, results, _) ← result_loop fuel query_kind [] no_results; mret (status, results))
      (started MessageType.Query (query_payload sql) c) ctx.
Proof.
  intros Hc Hlen. unfold executeQuery, lift. rewrite query_layout. fold (query_payload sql).
  rewrite (bind_done _ _ _ _ (query_payload sql) c ctx) by done.
  rewrite (bind_done _ _ _ _ OK (started MessageType.Query (query_payload sql) c) ctx)
    by (apply start_query_done; [done|rewrite length_query_payload; done]).
  by rewrite bool_decide_eq_false_2 by (by intros []).
Qed.

Lemma execute_query_done fuel sql ms r c ctx rest :
  wf_session c → 13 + blen sql <= kMaxMessageSize →
  wf_messages [] ms → wf_ready r → (length ms < fuel)%nat →
  stream (incoming (wire c)) (encode_messages ms ++ encode_ready_message r ++ rest) →
  ∃ inc, stream inc rest ∧
    executeQuery fuel sql c ctx =
      Done (OK, reply_results ms no_results)
        (after_reply query_kind ms r inc (started MessageType.Query (query_payload sql) c)) ctx.
Proof.
  intros Hc Hlen Hms Hr Hfuel Hs. rewrite execute_query_unfold by done.
  destruct (result_loop_reply fuel query_kind ms r [] no_results
    (started MessageType.Query (query_payload sql) c) ctx rest) as (inc & Hrest & E); try done.
  exists inc. split; [done|]. by rewrite (bind_done _ _ _ _ _ _ _ E).
Qed.

(** C2: a query whose reply follows the protocol returns exactly the rows, columns
    and completion report of the reply, whatever asynchronous messages are
    interleaved and however the bytes are fragmented; it remembers what those
    messages say and the transaction state of [Ready], and leaves the stream
    at the first byte after the reply. *)
Theorem execute_query_reply fuel sql ms r c ctx rest :
  wf_session c → 13 + blen sql <= kMaxMessageSize →
  wf_messages [] ms → wf_ready r → (length ms < fuel)%nat →
  stream (incoming (wire c)) (encode_messages ms ++ encode_ready_message r ++ rest) →
  ∃ inc, stream inc rest ∧
    executeQuery fuel sql c ctx =
      Done (OK, reply_results ms no_results)
        (after_reply query_kind ms r inc (started MessageType.Query (query_payload sql) c)) ctx.
Proof. apply execute_query_done. Qed.

(** ** Conversations *)

Lemma note_parameter_wf n v c : wf_session c → wf_session (note_parameter n v c).
Proof.
  intros (Hs & Hid & Hlive & Hf). unfold note_parameter. case_bool_decide.
  - destruct (Nat.eqb_spec (length (parseUuidHex v)) 16); by repeat split; try apply Hs.
  - case_bool_decide; by repeat split; try apply Hs.
Qed.

Lemma apply_session_wf i c : wf_session c → wf_session (apply_session i c).
Proof. destruct i as [[]| | | |]; try done. apply note_parameter_wf. Qed.

Lemma reply_session_wf ms : ∀ c, wf_session c → wf_session (reply_session ms c).
Proof.
  unfold reply_session. induction ms as [|m ms IH]; intros c Hc; [done|].
  apply IH. by apply apply_session_wf.
Qed.

Lemma after_reply_wf k ms r inc c : wf_session c → wf_session (after_reply k ms r inc c).
Proof.
  intros (Hs & Hid & Hlive & Hf)%(reply_session_wf ms). unfold after_reply.
  destruct (resets_sequence k); by repeat split; try apply Hs.
Qed.

(** A query and the reply it gets. *)
Record exchange := mkExchange {
  x_sql : bytes;
  x_reply : list (MessageHeader * item);
  x_ready : ready
}.

Definition wf_exchange (fuel : nat) (x : exchange) : Prop :=
  13 + blen (x_sql x) <= kMaxMessageSize ∧ wf_messages [] (x_reply x) ∧ wf_ready (x_ready x) ∧
  (length (x_reply x) < fuel)%nat.

Definition encode_exchange (x : exchange) : bytes :=
  encode_messages (x_reply x) ++ encode_ready_message (x_ready x).

(** The client's side: one query after the other. *)
Fixpoint execute_all (fuel : nat) (sqls : list bytes) : M (list (Status * NetworkResultSet)) :=
  match sqls with
  | [] => mret []
  | sql :: sqls =>
      r ← executeQuery fuel sql;
      rs ← execute_all fuel sqls;
      mret (r :: rs)
  end.

(** C1: in a conversation each query gets its own reply: whatever the server has
    already sent ahead, the results are those of the replies, in order, and
    nothing of the stream is lost or left over. *)
Theorem conversation_in_step fuel xs : ∀ c ctx rest,
  wf_session c → Forall (wf_exchange fuel) xs →
  stream (incoming (wire c)) (concat (encode_exchange <$> xs) ++ rest) →
  ∃ c', stream (incoming (wire c')) rest ∧ wf_session c' ∧
    execute_all fuel (x_sql <$> xs) c ctx =
      Done ((λ x, (OK, reply_results (x_reply x) no_results)) <$> xs) c' ctx.
Proof.
  induction xs as [|x xs IH]; intros c ctx rest Hc Hx Hs; [by exists c|].
  apply Forall_cons in Hx as [(Hlen & Hms & Hr & Hfuel) Hx].
  rewrite fmap_cons, concat_cons in Hs. unfold encode_exchange in Hs at 1. rewrite <-!app_assoc in Hs.
  destruct (execute_query_done fuel (x_sql x) (x_reply x) (x_ready x) c ctx _ Hc Hlen Hms Hr Hfuel Hs)
    as (inc & Hs' & E).
  set (c1 := after_reply _ _ _ _ _) in E.
  destruct (IH c1 ctx rest) as (c' & Hs'' & Hc' & E').
  { by apply after_reply_wf, sent_wf. }
  { done. }
  { exact Hs'. }
  exists c'. split; [done|]. split; [done|]. rewrite !fmap_cons. cbn [execute_all].
  rewrite (bind_done _ _ _ _ _ _ _ E). by rewrite (bind_done _ _ _ _ _ _ _ E').
Qed.

(** ** Error replies *)

Definition encode_error_message (h : MessageHeader) (fs : list (byte * bytes)) : bytes :=
  frame h (encode_error fs).

Definition wf_error (h : MessageHeader) (fs : list (byte * bytes)) : Prop :=
  wf_header h ∧ type h = tag MessageType.Error ∧ Forall wf_field fs ∧
  blen (encode_error fs) <= kMaxMessageSize.

(** What may follow the error: anything but [Ready], further errors included. *)
Definition wf_trailing (m : MessageHeader * item) : Prop := wf_frame [MessageType.Ready] m.

Lemma error_drain_item fuel mapped h i c ctx rest :
  wf_trailing (h, i) → stream (incoming (wire c)) (frame h (item_body i) ++ rest) →
  ∃ inc, stream inc rest ∧
    error_drain_loop (S fuel) mapped c ctx =
      error_drain_loop fuel mapped (arrived inc (apply_session i c)) ctx.
Proof.
  intros Hf Hs. destruct (receive_item c (Some fresh_context) _ h i rest Hf Hs) as (inc & Hr & E).
  exists inc. split; [done|]. cbn [error_drain_loop].
  rewrite (bind_done _ _ _ _ (OK, mkMessage (stamped h (item_body i)) (item_body i)) (arrived inc c) ctx)
    by (unfold with_local_context; by rewrite E).
  rewrite bool_decide_eq_false_2 by (by intros []).
  rewrite (bind_done _ _ _ _ (match i with IAsync _ => true | _ => false end)
    (apply_session i (arrived inc c)) ctx) by (unfold with_local_context; by rewrite (absorbed_item _ _ _ _ _ Hf)).
  rewrite apply_session_arrived. destruct Hf as (_ & Ht & _ & Hi). cbn [fst snd] in *.
  destruct i as [a|cs|bm vs|ct n l t|t b]; cbn [item_type item_body apply_session] in *; [done|..].
  1-3: type_tests Ht; done.
  unfold is_type. cbn [header stamped type]. rewrite Ht. case_bool_decide; [done|].
  rewrite bool_decide_eq_false_2; [done|]. intros ->. apply Hi. cbn. set_solver.
Qed.

Lemma error_drain_items ts : ∀ fuel mapped c ctx rest,
  Forall wf_trailing ts → stream (incoming (wire c)) (encode_messages ts ++ rest) →
  ∃ inc, stream inc rest ∧
    error_drain_loop (length ts + fuel) mapped c ctx =
      error_drain_loop fuel mapped (arrived inc (reply_session ts c)) ctx.
Proof.
  induction ts as [|[h i] ts IH]; intros fuel mapped c ctx rest Hts Hs.
  { exists (incoming (wire c)). split; [done|]. by destruct c as [? ? ? [] ? ? ? ? ? ? ? ? ? ? ? ?]. }
  apply Forall_cons in Hts as [Ht Hts]. unfold encode_messages in Hs.
  rewrite fmap_cons, concat_cons, <-app_assoc in Hs.
  destruct (error_drain_item (length ts + fuel) mapped h i c ctx _ Ht Hs) as (inc & Hs' & E).
  destruct (IH fuel mapped (arrived inc (apply_session i c)) ctx rest Hts) as (inc' & Hs'' & E'); [done|].
  exists inc'. split; [done|]. cbn [length Nat.add]. rewrite E, E'. by rewrite reply_session_arrived.
Qed.

Lemma error_drain_reply ts r fuel mapped c ctx rest :
  Forall wf_trailing ts → wf_ready r → (length ts < fuel)%nat →
  stream (incoming (wire c)) (encode_messages ts ++ encode_ready_message r ++ rest) →
  ∃ inc, stream inc rest ∧
    error_drain_loop fuel mapped c ctx = Done mapped (after_reply query_kind ts r inc c) ctx.
Proof.
  intros Hts Hr Hfuel Hs. replace fuel with (length ts + S (fuel - length ts - 1))%nat by lia.
  destruct (error_drain_items ts (S (fuel - length ts - 1)) mapped c ctx _ Hts Hs) as (inc & Hs' & ->).
  destruct (receive_ready (arrived inc (reply_session ts c)) (Some fresh_context) r rest Hr Hs')
    as (inc' & msg & Hs'' & E & Ht & Ha & Hp).
  exists inc'. split; [done|]. cbn [error_drain_loop].
  rewrite (bind_done _ _ _ _ (OK, msg) (arrived inc' (reply_session ts c)) ctx)
    by (unfold with_local_context; by rewrite E).
  rewrite bool_decide_eq_false_2 by (by intros []).
  rewrite (bind_done _ _ _ _ false (arrived inc' (reply_session ts c)) ctx)
    by (unfold with_local_context; by rewrite Ha).
  unfold is_type. rewrite Ht. rewrite bool_decide_eq_false_2 by done. rewrite bool_decide_eq_true_2 by done.
  rewrite (bind_done _ _ _ _ OK (apply_ready r (arrived inc' (reply_session ts c))) ctx)
    by (unfold with_local_context; by rewrite Hp).
  done.
Qed.

Lemma handle_error_reply h fs ts r fuel c ctx rest :
  wf_error h fs → Forall wf_trailing ts → wf_ready r → (length ts < fuel)%nat →
  stream (incoming (wire c)) (encode_messages ts ++ encode_ready_message r ++ rest) →
  ∃ inc, stream inc rest ∧
    handleErrorResponse fuel (mkMessage (stamped h (encode_error fs)) (encode_error fs)) c ctx =
      Done (mapped_status (sqlstate (error_fields fs)) (message (error_fields fs)))
        (after_reply query_kind ts r inc c) (report_error (error_fields fs) ctx).
Proof.
  intros (_ & _ & Hfs & _) Hts Hr Hfuel Hs.
  destruct (error_drain_reply ts r fuel
    (mapped_status (sqlstate (error_fields fs)) (message (error_fields fs))) c
    (report_error (error_fields fs) ctx) rest Hts Hr Hfuel Hs) as (inc & Hrest & E).
  exists inc. split; [done|]. unfold handleErrorResponse.
  rewrite (bind_done _ _ _ _ (mapped_status (sqlstate (error_fields fs)) (message (error_fields fs))) c
    (report_error (error_fields fs) ctx)); [done|].
  unfold mapProtocolError. cbn [body].
  rewrite (bind_done _ _ _ _ (OK, error_fields fs) c ctx); [done|].
  apply parse_done. intros m. rewrite <-(app_nil_r (encode_error fs)). by apply error_message_parse.
Qed.

Lemma execute_query_error fuel sql ms h fs ts r c ctx rest :
  wf_session c → 13 + blen sql <= kMaxMessageSize →
  wf_messages [] ms → wf_error h fs → Forall wf_trailing ts → wf_ready r →
  (length ms + length ts + 1 < fuel)%nat →
  stream (incoming (wire c))
    (encode_messages ms ++ encode_error_message h fs ++ encode_messages ts ++
     encode_ready_message r ++ rest) →
  ∃ inc, stream inc rest ∧
    executeQuery fuel sql c ctx =
      Done (mapped_status (sqlstate (error_fields fs)) (message (error_fields fs)),
            reply_results ms no_results)
        (after_reply query_kind ts r inc
           (reply_session ms (started MessageType.Query (query_payload sql) c)))
        (report_error (error_fields fs) ctx).
Proof.
  intros Hc Hlen Hms He Hts Hr Hfuel Hs. rewrite execute_query_unfold by done.
  set (c0 := started _ _ c).
  replace fuel with (length ms + S (fuel - length ms - 1))%nat by lia.
  destruct (result_loop_items query_kind ms (S (fuel - length ms - 1)) [] no_results c0 ctx _ Hms Hs)
    as (inc & cols' & Hs' & E1).
  destruct He as (Hh & Ht & Hfs & Hsize). unfold encode_error_message in Hs'.
  destruct (receive_done (arrived inc (reply_session ms c0)) ctx h (encode_error fs) _ Hh Hsize Hs')
    as (inc1 & Hs1 & E2).
  rewrite arrived_arrived in E2.
  destruct (handle_error_reply h fs ts r (fuel - length ms - 1) (arrived inc1 (reply_session ms c0)) ctx rest)
    as (inc2 & Hrest & E3); [done|done|done|lia|exact Hs1|].
  exists inc2. split; [done|]. unfold mbind, M_bind at 1. rewrite E1. cbn [result_loop].
  rewrite (bind_done _ _ _ _ _ _ _ E2). rewrite bool_decide_eq_false_2 by (by intros []).
  rewrite (bind_done _ _ _ _ false (arrived inc1 (reply_session ms c0)) ctx)
    by (apply (absorbed_typed _ _ MessageType.Error); [done|by apply (bool_decide_unpack _)]).
  type_tests Ht. rewrite (bind_done _ _ _ _ _ _ _ E3).
  unfold after_reply. cbn [query_kind resets_sequence]. by rewrite reply_session_arrived.
Qed.

(** C3: an error reply resynchronises the session: the query returns the mapped
    status, the caller's context has the message, hint and SQLSTATE the server
    sent, and what the server sends up to [Ready] is skipped, further errors
    included, so that the stream is at rest after it. *)
Theorem error_reply_resynchronises fuel sql ms h fs ts r c ctx rest :
  wf_session c → 13 + blen sql <= kMaxMessageSize →
  wf_messages [] ms → wf_error h fs → Forall wf_trailing ts → wf_ready r →
  (length ms + length ts + 1 < fuel)%nat →
  stream (incoming (wire c))
    (encode_messages ms ++ encode_error_message h fs ++ encode_messages ts ++
     encode_ready_message r ++ rest) →
  ∃ inc, stream inc rest ∧
    executeQuery fuel sql c ctx =
      Done (mapped_status (sqlstate (error_fields fs)) (message (error_fields fs)),
            reply_results ms no_results)
        (after_reply query_kind ts r inc
           (reply_session ms (started MessageType.Query (query_payload sql) c)))
        (report_error (error_fields fs) ctx).
Proof. apply execute_query_error. Qed.

(** ** Requests without rows *)

(** The items before [Ready] whose completion reports can be read. *)
Definition wf_drained (m : MessageHeader * item) : Prop :=
  wf_frame [MessageType.CommandComplete; MessageType.Error; MessageType.Ready] m ∧
  match m.2 with
  | IComplete _ n last_id tag => in_u64 n ∧ in_u64 last_id ∧ nul_free tag
  | _ => True
  end.

Definition drained_report (i : item) (old : bytes * Z * Z) : bytes * Z * Z :=
  match i with IComplete _ n last_id tag => (tag, n, last_id) | _ => old end.

Definition last_report (ms : list (MessageHeader * item)) (old : bytes * Z * Z) : bytes * Z * Z :=
  foldl (λ old m, drained_report m.2 old) old ms.

Lemma drain_item fuel old h i c ctx rest :
  wf_drained (h, i) → stream (incoming (wire c)) (frame h (item_body i) ++ rest) →
  ∃ inc, stream inc rest ∧
    drain_loop (S fuel) old.1.1 old.1.2 old.2 c ctx =
      let new := drained_report i old in
      drain_loop fuel new.1.1 new.1.2 new.2 (arrived inc (apply_session i c)) ctx.
Proof.
  intros [Hf Hi] Hs. destruct (receive_item c ctx _ h i rest Hf Hs) as (inc & Hr & E).
  exists inc. split; [done|]. cbn [drain_loop]. rewrite (bind_done _ _ _ _ _ _ _ E).
  rewrite bool_decide_eq_false_2 by (by intros []).
  rewrite (bind_done _ _ _ _ _ _ _ (absorbed_item _ _ _ _ _ Hf)), apply_session_arrived.
  destruct Hf as (_ & Ht & _ & Ho). cbn [fst snd] in *.
  destruct i as [a|cs|bm vs|ct n l t|t b]; cbn [item_type item_body apply_session drained_report] in *; [done|..].
  1-2: type_tests Ht; done.
  - destruct Hi as (Hn & Hl & Htag). type_tests Ht.
    rewrite (bind_done _ _ _ _ (OK, ct, n, l, t) (arrived inc c) ctx); [done|].
    apply parse_done. intros m. cbn [body]. by apply command_complete_parse.
  - unfold is_type. cbn [header stamped type]. rewrite Ht.
    rewrite !bool_decide_eq_false_2; [done|..]; intros ->; apply Ho; cbn; set_solver.
Qed.

Lemma drain_reply ms r : ∀ fuel old c ctx rest,
  Forall wf_drained ms → wf_ready r → (length ms < fuel)%nat →
  stream (incoming (wire c)) (encode_messages ms ++ encode_ready_message r ++ rest) →
  ∃ inc, stream inc rest ∧
    drain_loop fuel old.1.1 old.1.2 old.2 c ctx =
      Done (OK, Some (last_report ms old)) (after_reply query_kind ms r inc c) ctx.
Proof.
  induction ms as [|[h i] ms IH]; intros fuel old c ctx rest Hms Hr Hfuel Hs;
    (destruct fuel as [|fuel]; [cbn in Hfuel; lia|]).
  - destruct (receive_ready c ctx r rest Hr Hs) as (inc & msg & Hs' & E & Ht & Ha & Hp).
    exists inc. split; [done|]. cbn [drain_loop]. rewrite (bind_done _ _ _ _ _ _ _ E).
    rewrite bool_decide_eq_false_2 by (by intros []).
    rewrite (bind_done _ _ _ _ _ _ _ (Ha _ _)). unfold is_type. rewrite Ht.
    repeat rewrite bool_decide_eq_false_2 by done. rewrite bool_decide_eq_true_2 by done.
    rewrite (bind_done _ _ _ _ _ _ _ (Hp _ _)). by destruct old as [[]].
  - apply Forall_cons in Hms as [Hm Hms]. unfold encode_messages in Hs.
    rewrite fmap_cons, concat_cons, <-app_assoc in Hs.
    destruct (drain_item fuel old h i c ctx _ Hm Hs) as (inc & Hs' & E). cbn zeta in E.
    destruct (IH fuel (drained_report i old) (arrived inc (apply_session i c)) ctx rest)
      as (inc' & Hs'' & E'); [done|done|cbn in Hfuel; lia|done|].
    exists inc'. split; [done|]. rewrite E, E'. unfold after_reply. cbn [query_kind resets_sequence].
    by rewrite reply_session_arrived.
Qed.

(** A request without rows (transactions, savepoints, subscriptions,
    attachments, options) sends exactly one message, waits for the end of its
    reply and succeeds; whether a transaction is open, and which, is then what
    [Ready] says. *)
Theorem request_reply fuel t payload p ms r c ctx rest :
  wf_session c → payload = Ret p → blen p <= kMaxMessageSize →
  Forall wf_drained ms → wf_ready r → (length ms < fuel)%nat →
  stream (incoming (wire c)) (encode_messages ms ++ encode_ready_message r ++ rest) →
  ∃ inc, stream inc rest ∧
    request fuel t payload c ctx = Done OK (after_reply query_kind ms r inc (sent t p c)) ctx ∧
    in_transaction_ (after_reply query_kind ms r inc (sent t p c)) = negb (bool_decide (r_status r = Byte.x00)) ∧
    current_txn_id_ (after_reply query_kind ms r inc (sent t p c)) = r_txn r ∧
    outgoing (wire (after_reply query_kind ms r inc (sent t p c))) =
      outgoing (wire c) ++ request_frame t p c.
Proof.
  intros Hc -> Hp Hms Hr Hfuel Hs.
  destruct (drain_reply ms r fuel ([], 0, 0) (sent t p c) ctx rest Hms Hr Hfuel Hs) as (inc & Hrest & E).
  exists inc. split; [done|]. split; [|split; [done|split; [done|]]].
  - unfold request. rewrite (bind_done (lift (Ret p)) _ c ctx p c ctx) by done.
    rewrite (bind_done _ _ _ _ _ _ _ (send_done t p c ctx Hc Hp)). unfold checked.
    rewrite bool_decide_eq_true_2 by done. unfold drainUntilReady.
    by rewrite (bind_done _ _ _ _ _ _ _ E).
  - unfold after_reply. cbn [query_kind resets_sequence apply_ready arrived].
    assert (H : ∀ c0, outgoing (wire (reply_session ms c0)) = outgoing (wire c0)).
    { clear. unfold reply_session. induction ms as [|m ms IH]; intros c0; [done|]. cbn [foldl].
      by rewrite IH, apply_session_wire. }
    exact (H (sent t p c)).
Qed.

(** ** An unreadable reply *)

(** A row description that cannot be read ends the query with the parser's error, but
    the rest of its reply is not skipped and replies carry no check of the
    request they answer: the next query is answered, successfully, with what
    was left, and its own reply waits for the one after. *)
Theorem unreadable_reply_desynchronises fuel sql1 sql2 ms h b st ms2 r c ctx rest :
  wf_session c → 13 + blen sql1 <= kMaxMessageSize → 13 + blen sql2 <= kMaxMessageSize →
  wf_messages [] ms →
  wf_header h → type h = tag MessageType.RowDescription → blen b <= kMaxMessageSize →
  (∀ m, ∃ cs m', parseRowDescription b [] m = Ret (st, cs, m')) → st ≠ OK →
  wf_messages [] ms2 → wf_ready r → (length ms + length ms2 + 1 < fuel)%nat →
  stream (incoming (wire c))
    (encode_messages ms ++ frame h b ++ encode_messages ms2 ++ encode_ready_message r ++ rest) →
  ∃ results c1 ctx1 inc c2,
    executeQuery fuel sql1 c ctx = Done (st, results) c1 ctx1 ∧
    executeQuery fuel sql2 c1 ctx1 = Done (OK, reply_results ms2 no_results) c2 ctx1 ∧
    incoming (wire c2) = inc ∧ stream inc rest.
Proof.
  intros Hc Hl1 Hl2 Hms Hh Ht Hb Hbad Hst Hms2 Hr Hfuel Hs.
  set (c0 := started MessageType.Query (query_payload sql1) c).
  destruct (result_loop_items query_kind ms (S (fuel - length ms - 1)) [] no_results c0 ctx _ Hms Hs)
    as (inc & cols' & Hs' & E1).
  destruct (receive_done (arrived inc (reply_session ms c0)) ctx h b _ Hh Hb Hs') as (inc1 & Hs1 & E2).
  rewrite arrived_arrived in E2. set (c1 := arrived inc1 (reply_session ms c0)) in E2.
  destruct (Hbad (c_message <$> ctx)) as (cs & m' & Hp).
  assert (Hc1 : wf_session c1) by (unfold c1; by apply (reply_session_wf ms), sent_wf).
  destruct (execute_query_done fuel sql2 ms2 r c1 (put_message ctx m') rest) as (inc2 & Hrest & E3);
    [done|done|done|done|lia|exact Hs1|].
  exists (reply_results ms no_results), c1, (put_message ctx m'), inc2. eexists. split; [|split; [exact E3|done]].
  rewrite execute_query_unfold by done. fold c0.
  replace fuel with (length ms + S (fuel - length ms - 1))%nat at 1 by lia.
  unfold mbind, M_bind at 1. rewrite E1. cbn [result_loop].
  rewrite (bind_done _ _ _ _ _ _ _ E2). rewrite bool_decide_eq_false_2 by (by intros []).
  rewrite (bind_done _ _ _ _ false c1 ctx)
    by (apply (absorbed_typed _ _ MessageType.RowDescription); [done|by apply (bool_decide_unpack _)]).
  type_tests Ht. rewrite (bind_done _ _ _ _ (st, cs) c1 (put_message ctx m'))
    by (unfold parse, parse_with; cbn [body]; by rewrite Hp).
  by rewrite bool_decide_eq_false_2 by done.
Qed.

(** A query plan whose length field wraps the 32-bit bounds check makes any
    query undefined behaviour: the message is handled before the query looks at
    it, asked for or not. *)
Theorem hostile_plan_crashes fuel sql ms h b c ctx rest :
  wf_session c → 13 + blen sql <= kMaxMessageSize → wf_messages [] ms →
  wf_header h → type h = tag MessageType.QueryPlan → blen b <= kMaxMessageSize →
  guard_wraps 32 4 b → (length ms < fuel)%nat →
  stream (incoming (wire c)) (encode_messages ms ++ frame h b ++ rest) →
  executeQuery fuel sql c ctx = Crash.
Proof.
  intros Hc Hlen Hms Hh Ht Hb Hw Hfuel Hs. rewrite execute_query_unfold by done.
  set (c0 := started _ _ c).
  replace fuel with (length ms + S (fuel - length ms - 1))%nat by lia.
  destruct (result_loop_items query_kind ms (S (fuel - length ms - 1)) [] no_results c0 ctx _ Hms Hs)
    as (inc & cols' & Hs' & E1).
  destruct (receive_done (arrived inc (reply_session ms c0)) ctx h b _ Hh Hb Hs') as (inc1 & Hs1 & E2).
  unfold mbind, M_bind at 1. rewrite E1. cbn [result_loop].
  rewrite (bind_done _ _ _ _ _ _ _ E2). rewrite bool_decide_eq_false_2 by (by intros []).
  unfold mbind at 1, M_bind at 1. unfold absorbed, mbind at 1, M_bind at 1, handleAsyncMessage, is_type.
  cbn [header stamped type]. rewrite Ht.
  do 2 rewrite bool_decide_eq_false_2 by done. rewrite bool_decide_eq_true_2 by done.
  unfold mbind at 1, M_bind at 1, parse, parse_with. cbn [body].
  by rewrite (proj2 (plan_guard_UB b empty_plan _) Hw).
Qed.

(** ** A sample session *)

#[export] Instance wf_async_dec a : Decision (wf_async a).
Proof. destruct a; unfold wf_async, wf_plan, wf_sblr; apply _. Defined.

#[export] Instance wf_item_dec cols i : Decision (wf_item cols i).
Proof. unfold wf_item. destruct i; apply _. Defined.

#[export] Instance wf_message_dec cols m : Decision (wf_message cols m).
Proof. unfold wf_message, wf_header. apply _. Defined.

#[export] Instance wf_messages_dec ms : ∀ cols, Decision (wf_messages cols ms).
Proof. induction ms; intros cols; cbn [wf_messages]; apply _. Defined.

#[export] Instance wf_frame_dec ex m : Decision (wf_frame ex m).
Proof. unfold wf_frame, wf_header. destruct (m.2); apply _. Defined.

#[export] Instance wf_drained_dec m : Decision (wf_drained m).
Proof. unfold wf_drained. destruct (m.2); apply _. Defined.

#[export] Instance wf_ready_dec r : Decision (wf_ready r).
Proof. unfold wf_ready, wf_header. apply _. Defined.

#[export] Instance wf_error_dec h fs : Decision (wf_error h fs).
Proof. unfold wf_error, wf_header, wf_field. apply _. Defined.

#[export] Instance wf_session_dec c : Decision (wf_session c).
Proof. unfold wf_session. destruct (write_faults (wire c)); [|right; naive_solver]; apply _. Defined.

(** A server's header, and the messages of a small reply. *)
Definition sample_header (t : byte) : MessageHeader := mkHeader t Byte.x00 0 7 (replicate 16 Byte.x2a) 3.

Definition sample_column : ColumnInfo := mkColumn "n" 100 1 23 4 (-1) Byte.x01 true.

Definition sample_reply : list (MessageHeader * item) :=
  (λ i, (sample_header (item_type i), i)) <$>
    [IAsync (AParameter "TimeZone" "UTC"); IColumns [sample_column];
     IRow [] [mkValue "41" false]; IOther "N"%byte "notice"; IRow [Byte.x01] [mkValue [] true];
     IComplete Byte.x01 2 0 "SELECT 2"].

Definition sample_ready : ready := mkReady (sample_header (tag MessageType.Ready)) Byte.x01 12 1.

Definition sample_results : NetworkResultSet :=
  mkResults [network_column sample_column] [[mkValue "41" false]; [mkValue [] true]] 2 "SELECT 2".

Definition sample_session (stream_bytes : bytes) : NetworkClient :=
  mkClient default_config true true (mkTransport true [Data (take 50 stream_bytes); Data (drop 50 stream_bytes)] [] [])
    (replicate 16 Byte.x2a) [] ∅ None None true false 0 5 0 ∅ 1.

Lemma sample_stream bs : (50 < length bs)%nat → stream (incoming (wire (sample_session bs))) bs.
Proof. intros. apply stream_split. lia. Qed.

Lemma execute_query_reply_witness :
  let bs := encode_messages sample_reply ++ encode_ready_message sample_ready ++ "next" in
  ∃ c', executeQuery 10 "SELECT n" (sample_session bs) None = Done (OK, sample_results) c' None ∧
    in_transaction_ c' = true ∧ parameter_status_ c' !! ("TimeZone" : bytes) = Some ("UTC" : bytes).
Proof.
  intros bs.
  assert (Hlen : (50 < length bs)%nat) by by_evaluation.
  assert (Hms : wf_messages [] sample_reply) by by_evaluation.
  assert (Hr : wf_ready sample_ready) by by_evaluation.
  assert (Hsize : 13 + blen ("SELECT n" : bytes) <= kMaxMessageSize) by by_evaluation.
  assert (Hc : wf_session (sample_session bs)) by (repeat split; done).
  destruct (execute_query_reply 10 "SELECT n" sample_reply sample_ready (sample_session bs) None "next")
    as (inc & _ & E); [exact Hc|exact Hsize|exact Hms|exact Hr|by_evaluation|by apply sample_stream|].
  eexists. split; [exact E|]. split; reflexivity.
Defined.

Definition sample_exchange (sql : bytes) : exchange := mkExchange sql sample_reply sample_ready.

Lemma conversation_in_step_witness :
  let xs := [sample_exchange "a"; sample_exchange "b"] in
  let bs := concat (encode_exchange <$> xs) ++ "next" in
  ∃ c', stream (incoming (wire c')) "next" ∧
    execute_all 10 (x_sql <$> xs) (sample_session bs) None =
      Done [(OK, sample_results); (OK, sample_results)] c' None.
Proof.
  intros xs bs.
  assert (Hlen : (50 < length bs)%nat) by by_evaluation.
  assert (Hc : wf_session (sample_session bs)) by (repeat split; done).
  assert (Hx : Forall (wf_exchange 10) xs) by (unfold wf_exchange; by_evaluation).
  destruct (conversation_in_step 10 xs (sample_session bs) None "next" Hc Hx (sample_stream bs Hlen))
    as (c' & Hs & _ & E).
  exists c'. split; [exact Hs|exact E].
Defined.

Definition sample_error_header : MessageHeader := sample_header (tag MessageType.Error).

Definition sample_fields : list (byte * bytes) :=
  [("C"%byte, "42P01" : bytes); ("M"%byte, "no such table" : bytes); ("H"%byte, "look again" : bytes)].

Lemma error_reply_resynchronises_witness :
  let ts := [(sample_header "E"%byte, IOther "E"%byte "junk"); (sample_header "N"%byte, IOther "N"%byte "n")] in
  let bs := encode_messages (take 3 sample_reply) ++ encode_error_message sample_error_header sample_fields ++
    encode_messages ts ++ encode_ready_message sample_ready ++ "next" in
  ∃ inc c' ctx', stream inc "next" ∧ incoming (wire c') = inc ∧
    executeQuery 20 "x" (sample_session bs) (Some fresh_context) =
      Done (SYNTAX_ERROR, sample_results <| rows := [[mkValue "41" false]] |> <| rows_affected := 0 |>
                            <| command_tag := [] |>) c' (Some ctx') ∧
    c_message ctx' = "no such table" ∧ c_hint ctx' = "look again" ∧ c_sqlstate ctx' = "42P01".
Proof.
  intros ts bs.
  assert (Hlen : (50 < length bs)%nat) by by_evaluation.
  assert (Hc : wf_session (sample_session bs)) by (repeat split; done).
  assert (Hms : wf_messages [] (take 3 sample_reply)) by by_evaluation.
  assert (He : wf_error sample_error_header sample_fields) by by_evaluation.
  assert (Hts : Forall wf_trailing ts) by (unfold wf_trailing; by_evaluation).
  assert (Hr : wf_ready sample_ready) by by_evaluation.
  assert (Hsize : 13 + blen ("x" : bytes) <= kMaxMessageSize) by by_evaluation.
  destruct (error_reply_resynchronises 20 "x" (take 3 sample_reply) sample_error_header sample_fields ts
    sample_ready (sample_session bs) (Some fresh_context) "next")
    as (inc & Hs & E); [exact Hc|exact Hsize|exact Hms|exact He|exact Hts|exact Hr|by_evaluation|by apply sample_stream|].
  exists inc. eexists. eexists. split; [exact Hs|]. split; [|split; [exact E|]]; [reflexivity|].
  split_and!; vm_compute; reflexivity.
Defined.

Lemma request_reply_witness :
  let ms := [(sample_header (tag MessageType.CommandComplete), IComplete Byte.x01 0 0 "COMMIT")] in
  let bs := encode_messages ms ++ encode_ready_message sample_ready ++ "next" in
  ∃ c', commit 10 (sample_session bs) None = Done OK c' None ∧
    in_transaction_ c' = true ∧ current_txn_id_ c' = 12.
Proof.
  intros ms bs.
  assert (Hlen : (50 < length bs)%nat) by by_evaluation.
  assert (Hc : wf_session (sample_session bs)) by (repeat split; done).
  assert (Hms : Forall wf_drained ms) by by_evaluation.
  assert (Hr : wf_ready sample_ready) by by_evaluation.
  destruct (buildTxnCommitPayload Byte.x00) as [p|] eqn:Hp; [|vm_compute in Hp; discriminate Hp].
  assert (Hsize : blen p <= kMaxMessageSize).
  { vm_compute in Hp. injection Hp as <-. by_evaluation. }
  destruct (request_reply 10 MessageType.TxnCommit (buildTxnCommitPayload Byte.x00) p ms sample_ready
    (sample_session bs) None "next" Hc Hp Hsize Hms Hr) as (inc & _ & E & Hin & Htxn & _);
    [by_evaluation|by apply sample_stream|].
  eexists. split; [exact E|]. split; [exact Hin|exact Htxn].
Defined.

Lemma unreadable_reply_desynchronises_witness :
  let ms2 := drop 5 sample_reply in
  let bs := encode_messages [] ++ frame (sample_header (tag MessageType.RowDescription)) "?" ++
    encode_messages ms2 ++ encode_ready_message sample_ready ++ "next" in
  ∃ results c1 ctx1 c2,
    executeQuery 10 "first" (sample_session bs) None = Done (PROTOCOL_VIOLATION, results) c1 ctx1 ∧
    executeQuery 10 "second" c1 ctx1 = Done (OK, mkResults [] [] 2 "SELECT 2") c2 ctx1.
Proof.
  intros ms2 bs.
  assert (Hlen : (50 < length bs)%nat) by by_evaluation.
  assert (Hc : wf_session (sample_session bs)) by (repeat split; done).
  assert (Hms : wf_messages [] ms2) by by_evaluation.
  assert (Hr : wf_ready sample_ready) by by_evaluation.
  assert (Hh : wf_header (sample_header (tag MessageType.RowDescription))) by (unfold wf_header; by_evaluation).
  destruct (unreadable_reply_desynchronises 10 "first" "second" [] (sample_header (tag MessageType.RowDescription)) "?"
    PROTOCOL_VIOLATION ms2 sample_ready (sample_session bs) None "next")
    as (results & c1 & ctx1 & inc & c2 & E1 & E2 & _);
    [exact Hc|by_evaluation|by_evaluation|exact I|exact Hh|reflexivity|by_evaluation| |discriminate|exact Hms|exact Hr
    |by_evaluation|by apply sample_stream|].
  { intros m. eexists. eexists. reflexivity. }
  exists results, c1, ctx1, c2. split; [exact E1|exact E2].
Defined.

Lemma hostile_plan_crashes_witness :
  let b := le_bytes 4 0 ++ le_bytes 4 (2 ^ 32 - 32) ++ zeros 24 in
  let bs := encode_messages sample_reply ++ frame (sample_header (tag MessageType.QueryPlan)) b ++ "next" in
  executeQuery 10 "x" (sample_session bs) None = Crash.
Proof.
  intros b bs.
  assert (Hlen : (50 < length bs)%nat) by by_evaluation.
  assert (Hc : wf_session (sample_session bs)) by (repeat split; done).
  assert (Hms : wf_messages [] sample_reply) by by_evaluation.
  assert (Hh : wf_header (sample_header (tag MessageType.QueryPlan))) by (unfold wf_header; by_evaluation).
  assert (Hw : guard_wraps 32 4 b).
  { split; [by_evaluation|]. exists (2 ^ 32 - 32). split; [reflexivity|]. by_evaluation. }
  apply (hostile_plan_crashes 10 "x" sample_reply (sample_header (tag MessageType.QueryPlan)) b
    (sample_session bs) None "next" Hc); [by_evaluation|exact Hms|exact Hh|reflexivity|by_evaluation|exact Hw
    |by_evaluation|by apply sample_stream].
Defined.
