(* ===== verification/NetworkProgress.v ===== *)
(** * The requests of the network client end

    A small logic of postconditions on [NetworkClient.M]: with fuel for one
    message per forty bytes still to come, no loop runs out of fuel. One rule
    per operation, one for sequencing, and one for [receive], which pays. *)

From S2P Require Import Prelude.
From S2P Require Import Sqlstate.
From S2P Require Import Wire.
From S2P Require Import WireBuild.
From S2P Require Import WireParse.
From S2P Require Import ErrorContext.
From S2P Require Import Transport.
From S2P Require Import NetworkConfig.
From S2P Require Import NetworkClient.
From S2P Require Import NetworkClientSpec.

(** ** Termination

    [halts n m]: with fewer than [40 n] bytes still to come, [m] does not run
    out of fuel and takes nothing back. The fuel of a loop counts messages, and
    a message received takes at least the forty bytes of its header. *)

Definition halts {A} (n : nat) (m : M A) : Prop := ∀ c ctx,
  pending (incoming (wire c)) < 40 * Z.of_nat n →
  match m c ctx with
  | Done _ c' _ => pending (incoming (wire c')) <= pending (incoming (wire c))
  | Crash => True
  | NoFuel => False
  end.

Create HintDb halts.

Lemma halts_bind {A B} n (m : M A) (f : A → M B) :
  halts n m → (∀ a, halts n (f a)) → halts n (m ≫= f).
Proof.
  intros Hm Hf c ctx Hp. unfold mbind, M_bind. specialize (Hm c ctx Hp).
  destruct (m c ctx) as [a c' ctx'| |]; [|done|done]. specialize (Hf a c' ctx').
  destruct (f a c' ctx'); [|done|]; [specialize (Hf ltac:(lia)); lia|]. apply Hf. lia.
Qed.

Lemma halts_ret {A} n (a : A) : halts n (mret a).
Proof. intros c ctx _. unfold mret, M_ret. lia. Qed.

Lemma halts_pure {A} n (m : M A) :
  (∀ c ctx, match m c ctx with Done _ c' _ => wire c' = wire c | Crash => True | NoFuel => False end) →
  halts n m.
Proof. intros H c ctx _. specialize (H c ctx). destruct (m c ctx); [rewrite H; lia|done..]. Qed.

Lemma halts_parse {A} n (p : option bytes → outcome (A * option bytes)) : halts n (parse p).
Proof. apply halts_pure. intros c ctx. unfold parse. by destruct (parse_with p ctx) as [[]|]. Qed.

Lemma halts_modify n f : (∀ c, wire (f c) = wire c) → halts n (modify f).
Proof. intros H. apply halts_pure. intros c ctx. apply H. Qed.

Lemma halts_get {A} n (f : NetworkClient → A) : halts n (get f).
Proof. by apply halts_pure. Qed.

Lemma halts_set_error n f : halts n (set_error f).
Proof. by apply halts_pure. Qed.

Lemma halts_fail n st msg : halts n (fail st msg).
Proof. by apply halts_pure. Qed.

Lemma halts_lift {A} n (o : outcome A) : halts n (lift o).
Proof. apply halts_pure. intros. unfold lift. by destruct o. Qed.

Lemma halts_local {A} n (m : M A) : halts n m → halts n (with_local_context m).
Proof.
  intros H c ctx Hp. unfold with_local_context. specialize (H c (Some fresh_context) Hp).
  by destruct (m c (Some fresh_context)).
Qed.

Lemma halts_checked n st k : halts n k → halts n (checked st k).
Proof. intros. unfold checked. case_bool_decide; [done|apply halts_ret]. Qed.

(** Receiving pays for one unit of fuel. *)
Lemma receive_pays c ctx : match receive c ctx with
  | Done (st, _) c' _ =>
      pending (incoming (wire c')) <= pending (incoming (wire c)) ∧
      (st = OK → pending (incoming (wire c')) + 40 <= pending (incoming (wire c)))
  | Crash => True
  | NoFuel => False
  end.
Proof.
  unfold receive. destruct (receiveMessage no_message ctx (wire c)) as [[[[st m] ctx'] w]|] eqn:E; [|done].
  exact (receive_pending _ _ _ _ _ _ _ E).
Qed.

Lemma halts_receive {B} n (f : Status * ProtocolMessage → M B) :
  (∀ st m, st ≠ OK → halts (S n) (f (st, m))) → (∀ m, halts n (f (OK, m))) →
  halts (S n) (receive ≫= f).
Proof.
  intros Hbad Hok c ctx Hp. unfold mbind, M_bind. pose proof (receive_pays c ctx) as H.
  destruct (receive c ctx) as [[st m] c' ctx'| |]; [|done|done]. destruct H as [H1 H2].
  destruct (decide (st = OK)) as [->|Hst].
  - specialize (H2 eq_refl). specialize (Hok m c' ctx' ltac:(lia)).
    destruct (f (OK, m) c' ctx'); [lia|done|done].
  - specialize (Hbad st m Hst c' ctx' ltac:(lia)).
    destruct (f (st, m) c' ctx'); [lia|done|done].
Qed.

Lemma halts_receive_local {B} n (f : Status * ProtocolMessage → M B) :
  (∀ st m, st ≠ OK → halts (S n) (f (st, m))) → (∀ m, halts n (f (OK, m))) →
  halts (S n) (with_local_context receive ≫= f).
Proof.
  intros Hbad Hok c ctx Hp. unfold mbind, M_bind, with_local_context.
  pose proof (receive_pays c (Some fresh_context)) as H.
  destruct (receive c (Some fresh_context)) as [[st m] c' ctx'| |]; [|done|done]. destruct H as [H1 H2].
  destruct (decide (st = OK)) as [->|Hst].
  - specialize (H2 eq_refl). specialize (Hok m c' ctx ltac:(lia)).
    destruct (f (OK, m) c' ctx); [lia|done|done].
  - specialize (Hbad st m Hst c' ctx ltac:(lia)).
    destruct (f (st, m) c' ctx); [lia|done|done].
Qed.

Lemma write_message_incoming msg ctx t :
  match write_message msg ctx t with Ret (_, _, t') => incoming t' = incoming t | UB => True end.
Proof.
  unfold write_message, write_all. destruct (encodeMessage _ _); [|done]. cbn [mbind outcome_bind].
  by destruct (write_faults t) as [|[] ?].
Qed.

Lemma halts_sendMessage n t p f z : halts n (sendMessage t p f z).
Proof.
  intros c ctx _. unfold sendMessage. destruct (live c); cbn [negb]; [|done].
  destruct z;
    match goal with |- context [ write_message ?m ?x ?w ] =>
      pose proof (write_message_incoming m x w) as H;
      destruct (write_message m x w) as [[[st ctx'] w']|]; [|done]
    end; apply Z.eq_le_incl; exact (f_equal pending H).
Qed.

#[export] Hint Resolve halts_bind halts_ret halts_parse halts_modify halts_get halts_set_error halts_fail
  halts_lift halts_local halts_checked halts_sendMessage : halts.

(** Walk through a request. *)
Ltac halts :=
  repeat first
    [ progress intros
    | done
    | match goal with
      | |- halts _ (match ?x with _ => _ end) => destruct x
      end
    | solve [ eauto with halts ]
    | apply halts_bind | apply halts_ret | apply halts_checked | apply halts_local ].

Lemma halts_handleAsyncMessage n msg : halts n (handleAsyncMessage msg).
Proof.
  unfold handleAsyncMessage. halts. apply halts_modify. intros c. apply note_parameter_wire.
Qed.

Lemma halts_absorbed n msg : halts n (absorbed msg).
Proof. unfold absorbed. apply halts_bind; [apply halts_handleAsyncMessage|]. halts. Qed.

Lemma halts_ready n b : halts n (parseReadyAndTrackTransaction b).
Proof. unfold parseReadyAndTrackTransaction. halts. Qed.

Lemma halts_end_query n : halts n end_query.
Proof. by apply halts_modify. Qed.

#[export] Hint Resolve halts_absorbed halts_ready halts_end_query : halts.

Lemma halts_error_drain mapped n : halts n (error_drain_loop n mapped).
Proof.
  induction n as [|n IH]; [intros c ctx H; pose proof (pending_nonneg (incoming (wire c))); lia|].
  cbn [error_drain_loop]. apply halts_receive_local.
  - intros st m Hst. rewrite bool_decide_eq_true_2 by done. halts.
  - intros m. rewrite bool_decide_eq_false_2 by (by intros []). halts.
Qed.

Lemma halts_handleErrorResponse n msg : halts n (handleErrorResponse n msg).
Proof.
  unfold handleErrorResponse, mapProtocolError. apply halts_bind; [halts|]. intros mapped.
  apply halts_error_drain.
Qed.

#[export] Hint Resolve halts_handleErrorResponse : halts.

(** Less fuel than the bound allows is enough for the inner loops. *)
Lemma halts_lower {A} n (m : M A) : halts (S n) m → halts n m.
Proof. intros H c ctx Hp. apply H. lia. Qed.

(** A loop that receives first. *)
Ltac halts_loop n IH :=
  induction n as [|n IH]; intros;
  [ intros c ctx Hp; pose proof (pending_nonneg (incoming (wire c))); lia
  | apply halts_receive;
    [ intros ? ? ?; first [rewrite bool_decide_eq_true_2 by done | unfold checked; rewrite bool_decide_eq_false_2 by done];
      apply halts_ret
    | intros ?; first [rewrite bool_decide_eq_false_2 by (by intros []) | unfold checked at 1; rewrite bool_decide_eq_true_2 by done];
      halts ] ].

Lemma halts_drain_loop n : ∀ tag rows last, halts n (drain_loop n tag rows last).
Proof. halts_loop n IH. Qed.

Lemma halts_drainUntilReady n : halts n (drainUntilReady n).
Proof. unfold drainUntilReady. apply halts_bind; [apply halts_drain_loop|]. halts. Qed.

#[export] Hint Resolve halts_drainUntilReady : halts.

Lemma halts_result_loop n : ∀ k cols r, halts n (result_loop n k cols r).
Proof. halts_loop n IH. Qed.

Lemma halts_prepare_loop n : ∀ stmt, halts n (prepare_loop n stmt).
Proof. halts_loop n IH. Qed.

Lemma halts_ping_loop n : halts n (ping_loop n).
Proof. halts_loop n IH. Qed.

#[export] Hint Resolve halts_result_loop halts_prepare_loop halts_ping_loop : halts.

Lemma halts_send n t p : halts n (send t p).
Proof. unfold send. halts. Qed.

Lemma halts_start_query n t p : halts n (start_query t p).
Proof. unfold start_query. halts. Qed.

Lemma halts_request n t p : halts n (request n t p).
Proof. unfold request. halts. Qed.

#[export] Hint Resolve halts_send halts_start_query halts_request : halts.

Lemma halts_prepare n now sql : halts n (prepare n now sql).
Proof. unfold prepare. halts. Qed.

Lemma halts_bind_and_execute n s ps m : halts n (bind_and_execute s ps m).
Proof. unfold bind_and_execute. halts. Qed.

#[export] Hint Resolve halts_prepare halts_bind_and_execute : halts.

(** C11: every request ends: with fuel for one message per forty bytes still to
    come it never runs out, whatever those bytes are, however they are
    fragmented and whether reads or writes fail. *)
Theorem requests_terminate n :
  (∀ sql, halts n (executeQuery n sql)) ∧
  (∀ now sql, halts n (prepare n now sql)) ∧
  (∀ stmt, halts n (executePrepared n stmt)) ∧
  (∀ now sql, halts n (prepareServerStatement n now sql)) ∧
  (∀ id ps m, halts n (executeServerStatement n id ps m)) ∧
  (∀ id, halts n (closeServerStatement n id)) ∧
  (∀ h b ps, halts n (executeSblr n h b ps)) ∧
  halts n (attachList n) ∧
  (∀ t p, halts n (request n t p)) ∧
  (∀ o, halts n (beginTransaction n o)) ∧
  halts n (ping n).
Proof.
  split_and!; intros.
  - unfold executeQuery, no_reply. halts.
  - halts.
  - unfold executePrepared, no_reply. halts.
  - unfold prepareServerStatement. halts.
  - unfold executeServerStatement. halts.
  - unfold closeServerStatement. halts.
  - unfold executeSblr, no_reply. halts.
  - unfold attachList, no_reply. halts.
  - halts.
  - unfold beginTransaction, fail_with_state. halts.
  - unfold ping. halts.
Qed.
