(* ===== verification/NetworkInvariant.v ===== *)
(** * The session is well formed, whatever the server sends

    A type invariant of [NetworkClient]: the integers of the session are in the
    range of their C++ types, the session identifier has sixteen bytes and every
    prepared statement of the table is valid. Each request preserves it, on
    every stream, with reads and writes failing anywhere. *)

From S2P Require Import Prelude.
From S2P Require Import Sqlstate.
From S2P Require Import Wire.
From S2P Require Import WireBuild.
From S2P Require Import WireParse.
From S2P Require Import ErrorContext.
From S2P Require Import Transport.
From S2P Require Import NetworkConfig.
From S2P Require Import NetworkClient.

Record wf_client (c : NetworkClient) : Prop := {
  wf_next_sequence : in_u32 (next_sequence_ c);
  wf_last_query : in_u32 (last_query_sequence_ c);
  wf_session_id : length (session_id_ c) = 16%nat;
  wf_txn : in_u64 (current_txn_id_ c);
  wf_next_id : in_u32 (next_id c);
  wf_statements : map_Forall (λ id stmt, in_u32 id ∧ valid_ stmt = true) (prepared_statements_ c)
}.

(** [keeps m Q]: [m] preserves the invariant, and its result satisfies [Q]. *)
Definition keeps {A} (m : M A) (Q : A → Prop) : Prop := ∀ c ctx, wf_client c →
  match m c ctx with Done a c' _ => wf_client c' ∧ Q a | _ => True end.

Definition keeps_all {A} (m : M A) : Prop := keeps m (λ _, True).

Create HintDb keeps.

Lemma keeps_weaken {A} (m : M A) (Q R : A → Prop) : keeps m Q → (∀ a, Q a → R a) → keeps m R.
Proof.
  intros H HQ c ctx Hc. specialize (H c ctx Hc). destruct (m c ctx); [|done..]. naive_solver.
Qed.

Lemma keeps_any {A} (m : M A) Q : keeps m Q → keeps_all m.
Proof. intros H. by apply (keeps_weaken m Q). Qed.

Lemma keeps_bind {A B} (m : M A) (f : A → M B) Q R :
  keeps m Q → (∀ a, Q a → keeps (f a) R) → keeps (m ≫= f) R.
Proof.
  intros Hm Hf c ctx Hc. unfold mbind, M_bind. specialize (Hm c ctx Hc).
  destruct (m c ctx) as [a c' ctx'| |]; [|done..]. destruct Hm as [Hc' Ha]. by apply Hf.
Qed.

Lemma keeps_bind_all {A B} (m : M A) (f : A → M B) R :
  keeps_all m → (∀ a, keeps (f a) R) → keeps (m ≫= f) R.
Proof. intros Hm Hf. apply (keeps_bind m f (λ _, True)); auto. Qed.

Lemma keeps_seq {A B} (m : M A) (f : A → M B) :
  keeps_all m → (∀ a, keeps_all (f a)) → keeps_all (m ≫= f).
Proof. apply keeps_bind_all. Qed.

Lemma keeps_ret {A} (a : A) (Q : A → Prop) : Q a → keeps (mret a) Q.
Proof. intros Ha c ctx Hc. done. Qed.

Lemma keeps_read {A} (m : M A) (Q : A → Prop) :
  (∀ c ctx, wf_client c → match m c ctx with Done a c' _ => c' = c ∧ Q a | _ => True end) → keeps m Q.
Proof.
  intros H c ctx Hc. specialize (H c ctx Hc). destruct (m c ctx); [|done..]. by destruct H as [-> H].
Qed.

Lemma keeps_parse {A} (p : option bytes → outcome (A * option bytes)) (Q : A → Prop) :
  (∀ m a m', p m = Ret (a, m') → Q a) → keeps (parse p) Q.
Proof.
  intros H. apply keeps_read. intros c ctx _. unfold parse, parse_with.
  destruct (p _) as [[a m]|] eqn:E; [|done]. cbn [mbind outcome_bind]. by apply H in E.
Qed.

Lemma keeps_parse_all {A} (p : option bytes → outcome (A * option bytes)) : keeps_all (parse p).
Proof. by apply keeps_parse. Qed.

Lemma keeps_get {A} (f : NetworkClient → A) (Q : A → Prop) : (∀ c, wf_client c → Q (f c)) → keeps (get f) Q.
Proof. intros H. apply keeps_read. intros c ctx Hc. split; [done|by apply H]. Qed.

Lemma keeps_get_all {A} (f : NetworkClient → A) : keeps_all (get f).
Proof. by apply keeps_get. Qed.

Lemma keeps_modify f : (∀ c, wf_client c → wf_client (f c)) → keeps_all (modify f).
Proof. intros H c ctx Hc. split; [by apply H|done]. Qed.

Lemma keeps_set_error f : keeps_all (set_error f).
Proof. by apply keeps_read. Qed.

Lemma keeps_fail st msg (Q : Status → Prop) : Q st → keeps (fail st msg) Q.
Proof. intros H. by apply keeps_read. Qed.

Lemma keeps_lift {A} (o : outcome A) : keeps_all (lift o).
Proof. apply keeps_read. intros c ctx _. unfold lift. by destruct o. Qed.

Lemma keeps_local {A} (m : M A) Q : keeps m Q → keeps (with_local_context m) Q.
Proof.
  intros H c ctx Hc. unfold with_local_context. specialize (H c (Some fresh_context) Hc).
  by destruct (m c (Some fresh_context)).
Qed.

Lemma keeps_local_all {A} (m : M A) : keeps_all m → keeps_all (with_local_context m).
Proof. apply keeps_local. Qed.

Lemma keeps_fuel {A} (Q : A → Prop) : keeps out_of_fuel Q.
Proof. by intros c ctx Hc. Qed.

Lemma keeps_fuel_all {A} : keeps_all (out_of_fuel (A := A)).
Proof. by intros c ctx Hc. Qed.

Lemma keeps_receive : keeps_all receive.
Proof.
  intros c ctx Hc. unfold receive. destruct (receiveMessage _ _ _) as [[[[st m] ctx'] w]|]; [|done].
  split; [|done]. destruct Hc. by split.
Qed.

Lemma keeps_sendMessage t p f z : keeps (sendMessage t p f z) (λ r, in_u32 r.2).
Proof.
  intros c ctx [Hn Hl Hs Ht Hi Hm]. unfold sendMessage. destruct (live c); cbn [negb]; [|done].
  destruct z; (destruct (write_message _ _ _) as [[[st ctx'] w]|]; [|done]); (split; [split; try done|done]).
  apply Z.mod_pos_bound. lia.
Qed.

Lemma keeps_sendMessage_all t p f z : keeps_all (sendMessage t p f z).
Proof. eapply keeps_any, keeps_sendMessage. Qed.

#[export] Hint Resolve keeps_parse_all keeps_get_all keeps_set_error keeps_lift keeps_receive
  keeps_sendMessage_all keeps_fuel_all : keeps.

(** Walk through a request whose result does not matter. *)
Ltac keeps :=
  unfold checked; try match goal with |- keeps ?m (λ _, True) => change (keeps_all m) end;
  repeat first
    [ match goal with |- ∀ _, _ => intro end
    | solve [ eauto with keeps ]
    | match goal with
      | |- keeps_all (match ?x with _ => _ end) => destruct x
      | |- keeps_all (mret _) => by apply keeps_ret
      | |- keeps_all (fail _ _) => by apply keeps_fail
      | |- keeps_all (with_local_context _) => apply keeps_local_all
      | |- keeps_all (_ ≫= _) => apply keeps_seq
      end ].

(** ** Asynchronous messages *)

Lemma note_parameter_keeps n v c : wf_client c → wf_client (note_parameter n v c).
Proof.
  intros [Hn Hl Hs Ht Hi Hm]. unfold note_parameter. case_bool_decide.
  - destruct (Nat.eqb_spec (length (parseUuidHex v)) 16); by split.
  - case_bool_decide; split; try done. cbn [current_txn_id_ set_field].
    destruct (strtoull v) as [[[w o] r]|] eqn:E; [by apply strtoull_range in E|done].
Qed.

Lemma keeps_handleAsyncMessage msg : keeps_all (handleAsyncMessage msg).
Proof.
  unfold handleAsyncMessage. keeps; apply keeps_modify; intros; [by apply note_parameter_keeps|..];
    match goal with H : wf_client _ |- _ => by destruct H end.
Qed.

Lemma keeps_absorbed msg : keeps_all (absorbed msg).
Proof. unfold absorbed. apply keeps_seq; [apply keeps_handleAsyncMessage|]. keeps. Qed.

Lemma parse_ready_range payload b x e m r m' :
  in_u64 x → parseReady payload b x e m = Ret (r, m') → in_u64 r.1.2.
Proof.
  intros Hx. unfold parseReady. destruct (Z.ltb_spec (blen payload) 20); [by intros [= <- <-]|].
  destruct (load_defined payload 0) as (s & ->); [lia|]. cbn [mbind outcome_bind].
  destruct (readU64_ok payload 4) as (t & -> & Ht); [lia..|]. cbn [mbind outcome_bind].
  destruct (readU64_ok payload 12) as (e' & -> & _); [lia..|]. cbn [mbind outcome_bind].
  by intros [= <- <-].
Qed.

Lemma keeps_ready b : keeps_all (parseReadyAndTrackTransaction b).
Proof.
  unfold parseReadyAndTrackTransaction. eapply keeps_bind.
  - apply keeps_parse. intros m a m' E. apply (parse_ready_range b Byte.x00 0 0 m a m'); [done|exact E].
  - intros [[[st s] txn] e] Htxn. keeps. apply keeps_modify. intros c [Hn Hl Hs Ht Hi Hm]. by split.
Qed.

Lemma keeps_end_query : keeps_all end_query.
Proof. apply keeps_modify. intros c [Hn Hl Hs Ht Hi Hm]. by split. Qed.

#[export] Hint Resolve keeps_absorbed keeps_ready keeps_end_query : keeps.

(** ** Error replies: never reported as success *)

Lemma mapped_status_error s m : mapped_status s m ≠ OK.
Proof. unfold mapped_status. repeat (case_match; try done). Qed.

Lemma keeps_mapProtocolError msg : keeps (mapProtocolError msg) (λ st, st ≠ OK).
Proof.
  unfold mapProtocolError. apply keeps_bind_all; [keeps|]. intros [st f]. unfold checked.
  case_bool_decide; [|by apply keeps_ret].
  apply keeps_bind_all; [keeps|]. intros []. apply keeps_ret, mapped_status_error.
Qed.

Lemma keeps_error_drain n mapped : mapped ≠ OK → keeps (error_drain_loop n mapped) (λ st, st ≠ OK).
Proof.
  intros Hm. induction n as [|n IH]; [apply keeps_fuel|]. cbn [error_drain_loop].
  apply keeps_bind_all; [keeps|]. intros [st msg]. case_bool_decide.
  { apply keeps_bind_all; [keeps|]. intros. by apply keeps_ret. }
  apply keeps_bind_all; [keeps|]. intros []; [done|]. case_match; [done|]. case_match; [|done].
  apply keeps_bind_all; [keeps|]. intros rs. apply keeps_bind_all; [keeps|]. intros [].
  apply keeps_ret. by case_bool_decide.
Qed.

Lemma keeps_handleErrorResponse n msg : keeps (handleErrorResponse n msg) (λ st, st ≠ OK).
Proof. unfold handleErrorResponse. eapply keeps_bind; [apply keeps_mapProtocolError|]. apply keeps_error_drain. Qed.

Lemma keeps_handleErrorResponse_all n msg : keeps_all (handleErrorResponse n msg).
Proof. eapply keeps_any, keeps_handleErrorResponse. Qed.

#[export] Hint Resolve keeps_handleErrorResponse_all : keeps.

(** ** The loops *)

Lemma keeps_drain_loop n : ∀ tag rows last, keeps_all (drain_loop n tag rows last).
Proof. induction n as [|n IH]; intros; cbn [drain_loop]; keeps. Qed.

Lemma keeps_drainUntilReady n : keeps_all (drainUntilReady n).
Proof. unfold drainUntilReady. apply keeps_seq; [apply keeps_drain_loop|]. keeps. Qed.

Lemma keeps_send t p : keeps_all (send t p).
Proof. unfold send. keeps. Qed.

#[export] Hint Resolve keeps_drainUntilReady keeps_send : keeps.

Lemma keeps_result_loop n : ∀ k cols r, keeps_all (result_loop n k cols r).
Proof. induction n as [|n IH]; intros; cbn [result_loop]; keeps. Qed.

Lemma keeps_ping_loop n : keeps_all (ping_loop n).
Proof. induction n as [|n IH]; cbn [ping_loop]; keeps. Qed.

Lemma keeps_prepare_loop n : ∀ stmt,
  keeps (prepare_loop n stmt) (λ r, r.1 = OK → valid_ r.2 = true).
Proof.
  induction n as [|n IH]; intros stmt; [apply keeps_fuel|]. cbn [prepare_loop].
  apply keeps_bind_all; [keeps|]. intros [st msg]. case_bool_decide; [by apply keeps_ret|].
  apply keeps_bind_all; [keeps|]. intros []; [done|]. case_match.
  { apply keeps_bind_all; [keeps|]. intros [st' types]. case_bool_decide; [done|]. by apply keeps_ret. }
  case_match.
  { eapply keeps_bind; [apply keeps_handleErrorResponse|]. intros st' Hst. by apply keeps_ret. }
  case_match; [|done].
  apply keeps_bind_all; [keeps|]. intros st'. apply keeps_ret. cbn [fst snd]. intros ->. done.
Qed.

Lemma keeps_prepare n now sql : keeps (prepare n now sql) (λ r, r.1 = OK → valid_ r.2 = true).
Proof.
  unfold prepare.
  repeat (apply keeps_bind_all; [solve [keeps]|]; intros; try (case_bool_decide; [by apply keeps_ret|])).
  apply keeps_prepare_loop.
Qed.

Lemma keeps_start_query t p : keeps_all (start_query t p).
Proof.
  unfold start_query. eapply keeps_bind; [apply keeps_sendMessage|]. intros [st seq] Hseq. keeps.
  apply keeps_modify. intros c [Hn Hl Hs Ht Hi Hm]. by split.
Qed.

#[export] Hint Resolve keeps_result_loop keeps_ping_loop keeps_start_query : keeps.

Lemma keeps_request n t p : keeps_all (request n t p).
Proof. unfold request. keeps. Qed.

Lemma keeps_bind_and_execute s ps m : keeps_all (bind_and_execute s ps m).
Proof. unfold bind_and_execute. keeps. Qed.

#[export] Hint Resolve keeps_request keeps_bind_and_execute : keeps.

Lemma keeps_fail_with_state st msg state : keeps_all (fail_with_state st msg state).
Proof. unfold fail_with_state. keeps. Qed.

Lemma keeps_beginTransaction n o : keeps_all (beginTransaction n o).
Proof.
  unfold beginTransaction. apply keeps_seq; [keeps|]. intros b. apply keeps_seq; [keeps|]. intros txn.
  destruct b.
  - destruct (txn =? 0); [destruct (canAdoptFreshNativeBoundary o)|];
      [by apply keeps_ret|apply keeps_fail_with_state..].
  - destruct (begin_flags o). apply keeps_request.
Qed.

(** C12: every request preserves the session's well-formedness whatever the server
    sends and whichever read or write fails; in particular every statement of
    the table is one the server has described and declared ready. *)
Theorem session_invariant n :
  (∀ sql, keeps_all (executeQuery n sql)) ∧
  (∀ now sql, keeps_all (prepareServerStatement n now sql)) ∧
  (∀ stmt, keeps_all (executePrepared n stmt)) ∧
  (∀ id ps m, keeps_all (executeServerStatement n id ps m)) ∧
  (∀ id, keeps_all (closeServerStatement n id)) ∧
  (∀ h b ps, keeps_all (executeSblr n h b ps)) ∧
  keeps_all (attachList n) ∧
  (∀ t p, keeps_all (request n t p)) ∧
  (∀ o, keeps_all (beginTransaction n o)) ∧
  keeps_all (ping n) ∧
  keeps_all sendQueryCancel ∧
  keeps_all drainNotifications ∧
  (∀ c, wf_client c → wf_client (disconnect c)).
Proof.
  split_and!; intros.
  - unfold executeQuery, no_reply. keeps.
  - unfold prepareServerStatement. eapply keeps_bind; [apply keeps_prepare|]. intros [st stmt] Hst.
    case_bool_decide as E; [by apply keeps_ret|].
    eapply keeps_bind; [apply keeps_get, wf_next_id|]. intros id Hid.
    apply keeps_bind_all; [|intros; by apply keeps_ret].
    apply keeps_modify. intros c [Hn Hl Hs Ht Hi Hm]. split; try done.
    + apply Z.mod_pos_bound. lia.
    + cbn. apply map_Forall_insert_2; [|done]. split; [done|by apply Hst].
  - unfold executePrepared, no_reply. keeps.
  - unfold executeServerStatement. keeps.
  - unfold closeServerStatement. keeps. apply keeps_modify. intros c [Hn Hl Hs Ht Hi Hm]. split; try done.
    by apply map_Forall_delete.
  - unfold executeSblr, no_reply. keeps.
  - unfold attachList, no_reply. keeps.
  - keeps.
  - apply keeps_beginTransaction.
  - unfold ping. keeps.
  - unfold sendQueryCancel. apply keeps_seq; [keeps|]. intros []; cbn [negb]; [|by apply keeps_fail].
    apply keeps_seq; [keeps|]. intros seq. case_match; [by apply keeps_fail|].
    apply keeps_seq; [keeps|]. intros payload. apply keeps_seq; [apply keeps_sendMessage_all|].
    intros [st n']. by apply keeps_ret.
  - unfold drainNotifications. keeps. apply keeps_modify. intros c [Hn Hl Hs Ht Hi Hm]. by split.
  - destruct H as [Hn Hl Hs Ht Hi Hm]. split; try done.
Qed.
