(* ===== verification/Handshake.v ===== *)
(** * Connecting: manager front door, authentication, session start

    Models the frames of the manager and [performManagerConnect],
    [buildGenericAuthPayload], [handshake] and [connect] of
    [src/network_client.cpp]. Dialling, the TLS handshake and random numbers are
    an environment; cryptography is the interface of [Scram]. *)

From S2P Require Import Prelude.
From S2P Require Import Sqlstate.
From S2P Require Import Wire.
From S2P Require Import Scram.
From S2P Require Import WireBuild.
From S2P Require Import WireParse.
From S2P Require Import ErrorContext.
From S2P Require Import Transport.
From S2P Require Import NetworkConfig.
From S2P Require Import NetworkClient.

(** ** The manager's frames *)

Definition kManagerProtocolMagic : Z := 0x42444253.
Definition kManagerProtocolVersion : Z := 0x0101.
Definition kManagerHeaderSize : Z := 12.
Definition kManagerMaxPayloadSize : Z := 16 * 1024 * 1024.
Definition kMcpProtocolVersion : Z := 0x0100.

Definition kMsgConnectResponse : byte := Byte.x02.
Definition kMsgAuthChallenge : byte := Byte.x12.
Definition kMsgAuthResponse : byte := Byte.x11.
Definition kMsgStatusResponse : byte := Byte.x64.
Definition kMsgMcpHello : byte := Byte.x65.
Definition kMsgMcpAuthStart : byte := Byte.x66.
Definition kMsgMcpAuthContinue : byte := Byte.x67.
Definition kMsgMcpDbConnect : byte := Byte.x69.
Definition kMcpAuthMethodToken : byte := Byte.x04.

(** [appendU16], [appendU32]: the low bytes of the value. *)
Definition appendU16 (value : Z) : bytes := le_bytes 2 value.
Definition appendU32 (value : Z) : bytes := le_bytes 4 value.

Definition appendLengthPrefixedString (value : bytes) : bytes := appendU32 (blen value) ++ value.

(** The integer of [n] bytes at [off] of a header that is long enough. *)
Definition field_at (n off : nat) (h : bytes) : Z := le_val (take n (drop off h)).

Definition manager_frame (type : byte) (payload : bytes) : bytes :=
  appendU32 kManagerProtocolMagic ++ appendU16 kManagerProtocolVersion ++ [type; Byte.x00] ++
  appendU32 (blen payload) ++ payload.

Definition sendManagerFrame (type : byte) (payload : bytes) : M Status := λ c ctx,
  if negb (live c) then Crash else
  let '(ok, w) := write_all (manager_frame type payload) (wire c) in
  let c := c <| wire := w |> in
  if ok : bool then Done OK c ctx
  else fail CONNECTION_FAILURE "Manager frame write failed" c ctx.

(** [readExactWithTimeout] on the client's transport. *)
Definition read_exact (size : Z) : M (Status * bytes) := λ c ctx,
  let '(st, got, ctx, w) := readExactWithTimeout size ctx (wire c) in
  Done (st, got) (c <| wire := w |>) ctx.

(** Fail, with nothing to return. *)
Definition no_frame (status : Status) (message : bytes) : M (Status * byte * bytes) :=
  st ← fail status message; mret (st, Byte.x00, []).

Definition receiveManagerFrame : M (Status * byte * bytes) :=
  '(status, header) ← read_exact kManagerHeaderSize;
  if bool_decide (status ≠ OK) then mret (status, Byte.x00, []) else
  if negb (field_at 4 0 header =? kManagerProtocolMagic)
  then no_frame PROTOCOL_VIOLATION "Manager frame magic mismatch" else
  if negb (field_at 2 4 header =? kManagerProtocolVersion)
  then no_frame PROTOCOL_VIOLATION "Manager frame version mismatch" else
  let type := nth 6 header Byte.x00 in
  let payload_len := field_at 4 8 header in
  if kManagerMaxPayloadSize <? payload_len
  then no_frame PROTOCOL_VIOLATION "Manager payload too large" else
  if payload_len =? 0 then mret (OK, type, []) else
  '(status, payload) ← read_exact payload_len;
  mret (status, type, payload).

(** [or_default a b]: [a.empty() ? b : a] *)
Definition or_default (a b : bytes) : bytes := if bool_decide (a = []) then b else a.

(** The lambda [parseAuthResponseStatus]: the status and the error text. *)
Definition parseAuthResponseStatus (payload : bytes) : M (Status * bytes) :=
  if blen payload <? 1 + 4 + 256 then
    st ← fail PROTOCOL_VIOLATION "Truncated MCP auth response"; mret (st, [])
  else if bool_decide (head payload = Some Byte.x00) then mret (OK, [])
  else mret (INVALID_AUTHORIZATION, cut_at_nul (take 256 (drop 5 payload))).

(** The offset of the error text of a connect response. *)
Definition connect_err_offset : Z := 1 + 2 + 2 + 16 + 64 + 32.

Definition connect_error (payload : bytes) : bytes :=
  let off := connect_err_offset in
  if off + 4 <=? blen payload then
    let err_len := field_at 4 (Z.to_nat off) payload in
    if off + 4 + err_len <=? blen payload
    then take (Z.to_nat err_len) (drop (Z.to_nat (off + 4)) payload)
    else "MCP database connect failed"
  else "MCP database connect failed".

(** [send] a frame, then [receive] the answer. *)
Definition manager_exchange (type : byte) (payload : bytes) : M (Status * byte * bytes) :=
  status ← sendManagerFrame type payload;
  if bool_decide (status ≠ OK) then mret (status, Byte.x00, []) else receiveManagerFrame.

Definition manager_user (config : NetworkClientConfig) : bytes :=
  or_default (manager_username config) (or_default (username config) "admin").

Definition hello_payload (config : NetworkClientConfig) : bytes :=
  appendU16 kMcpProtocolVersion ++ appendU16 (manager_client_flags config).

Definition auth_start (config : NetworkClientConfig) : bytes :=
  appendLengthPrefixedString (manager_user config) ++ [kMcpAuthMethodToken] ++
  (if manager_auth_fast_path config then appendLengthPrefixedString (manager_auth_token config)
   else appendU32 0).

Definition db_connect (config : NetworkClientConfig) (nonce : bytes) : bytes :=
  ("MCP1" : bytes) ++
  appendLengthPrefixedString (or_default (manager_database config) (database config)) ++
  appendLengthPrefixedString (or_default (manager_connection_profile config) "native_v3") ++
  appendLengthPrefixedString (or_default (manager_client_intent config) "native_v3") ++
  appendU16 (blen nonce) ++ nonce.

(** The last exchange: ask for the database, and read the verdict. *)
Definition manager_open_database (config : NetworkClientConfig) (random : option bytes) : M Status :=
  match random with
  | None => fail INTERNAL_ERROR "Failed to generate MCP nonce"
  | Some nonce =>
      '(status, msg_type, payload) ← manager_exchange kMsgMcpDbConnect (db_connect config nonce);
      if bool_decide (status ≠ OK) then mret status else
      if bool_decide (msg_type ≠ kMsgConnectResponse)
      then fail PROTOCOL_VIOLATION "Expected MCP connect response" else
      if blen payload <? connect_err_offset
      then fail PROTOCOL_VIOLATION "Truncated MCP connect response" else
      if bool_decide (head payload = Some Byte.x00) then mret OK
      else fail INVALID_AUTHORIZATION (cut_at_nul (connect_error payload))
  end.

(** [random]: the sixteen bytes of the nonce. *)
Definition performManagerConnect (random : option bytes) : M Status :=
  config ← get config_;
  if bool_decide (manager_auth_token config = [])
  then fail INVALID_ARGUMENT "manager_proxy mode requires manager_auth_token" else
  '(status, msg_type, _) ← manager_exchange kMsgMcpHello (hello_payload config);
  if bool_decide (status ≠ OK) then mret status else
  if bool_decide (msg_type ≠ kMsgStatusResponse)
  then fail PROTOCOL_VIOLATION "Expected MCP hello status response" else
  '(status, msg_type, payload) ← manager_exchange kMsgMcpAuthStart (auth_start config);
  if bool_decide (status ≠ OK) then mret status else
  '(status, msg_type, payload) ←
    (if bool_decide (msg_type = kMsgAuthChallenge)
     then manager_exchange kMsgMcpAuthContinue (appendLengthPrefixedString (manager_auth_token config))
     else mret (OK, msg_type, payload));
  if bool_decide (status ≠ OK) then mret status else
  if bool_decide (msg_type ≠ kMsgAuthResponse)
  then fail PROTOCOL_VIOLATION "Expected MCP auth response" else
  '(status, auth_error) ← parseAuthResponseStatus payload;
  if bool_decide (status ≠ OK)
  then fail INVALID_AUTHORIZATION (or_default auth_error "MCP authentication failed") else
  manager_open_database config random.

(** ** Authentication *)

(** [trimWhitespace]: spaces, tabs and line ends. *)
Definition trimWhitespace (value : bytes) : bytes := trim_schema value.

Definition buildGenericAuthPayload `{Crypto} (config : NetworkClientConfig) (challenge : bytes) : bytes :=
  let decoded := base64Decode (trimWhitespace (auth_payload_b64 config)) in
  if negb (bool_decide (decoded = [])) then decoded
  else if negb (bool_decide (auth_payload_json config = [])) then auth_payload_json config
  else if negb (bool_decide (password config = [])) then password config
  else challenge.

Definition kFeatureCompression : Z := 1.
Definition kFeatureSblr : Z := 4.
Definition kFeatureNotifications : Z := 16.
Definition kFeatureQueryPlan : Z := 32.

Definition startup_features (config : NetworkClientConfig) : Z :=
  let features := Z.lor (Z.lor kFeatureSblr kFeatureNotifications) kFeatureQueryPlan in
  if enable_compression config then Z.lor features kFeatureCompression else features.

(** [if (!value.empty()) { params[key] = value; }] *)
Definition add_param (key value : bytes) (params : gmap bytes bytes) : gmap bytes bytes :=
  if bool_decide (value = []) then params else <[key := value]> params.

Definition startup_params (config : NetworkClientConfig) : gmap bytes bytes :=
  let params : gmap bytes bytes := ∅ in
  let params := <[("database" : bytes) := database config]> params in
  let params := <[("user" : bytes) := username config]> params in
  let params := add_param "role" (role config) params in
  let params := add_param "application_name" (application_name config) params in
  let params := <[("client_flags" : bytes) := dec (connect_client_flags config)]> params in
  let params := add_param "auth_method_id" (auth_method_id config) params in
  let params := add_param "auth_method_payload" (auth_method_payload config) params in
  let params := add_param "auth_payload_json" (auth_payload_json config) params in
  let params := add_param "auth_payload_b64" (auth_payload_b64 config) params in
  let params := add_param "auth_provider_profile" (auth_provider_profile config) params in
  let params := add_param "auth_required_methods" (joinMethodList (auth_required_methods config)) params in
  let params := add_param "auth_forbidden_methods" (joinMethodList (auth_forbidden_methods config)) params in
  let params :=
    if auth_require_channel_binding config
    then <[("auth_require_channel_binding" : bytes) := ("1" : bytes)]> params else params in
  let params := add_param "workload_identity_token" (workload_identity_token config) params in
  add_param "proxy_principal_assertion" (proxy_principal_assertion config) params.

(** An authentication answer; its sequence number is zero. *)
Definition respond (payload : bytes) : M Status :=
  '(status, _) ← sendMessage MessageType.AuthResponse payload Byte.x00 true; mret status.

(** The loop of [handshake]: [draws] counts the calls of [RAND_bytes], [scram] is
    the client created by the first SCRAM request. *)
Fixpoint handshake_loop `{Crypto} (fuel : nat) (random : nat → option bytes) (draws : nat)
    (scram : option ScramClient) : M Status :=
  match fuel with
  | O => out_of_fuel
  | S fuel =>
      config ← get config_;
      '(status, msg) ← receive;
      if bool_decide (status ≠ OK) then mret status else
      done ← absorbed msg;
      if done : bool then handshake_loop fuel random draws scram
      else if is_type MessageType.NegotiateVersion msg then handshake_loop fuel random draws scram
      else if is_type MessageType.AuthRequest msg then
        '(status, method, data) ← parse (parseAuthRequest (body msg) Byte.x00 []);
        if bool_decide (status ≠ OK) then mret status else
        let method := byte_val method in
        if method =? AuthMethod_Ok then handshake_loop fuel random draws scram
        else if method =? AuthMethod_Password then
          status ← respond (password config);
          if bool_decide (status = OK) then handshake_loop fuel random draws scram else mret status
        else if method =? AuthMethod_ScramSha256 then
          let s := default (mkScram [] [] []) scram in
          let '(first, s) := clientFirst (random draws) (username config) s in
          status ← respond first;
          if bool_decide (status = OK) then handshake_loop fuel random (S draws) (Some s) else mret status
        else if isGenericAuthMethod method then
          status ← respond (buildGenericAuthPayload config data);
          if bool_decide (status = OK) then handshake_loop fuel random draws scram else mret status
        else fail INVALID_AUTHORIZATION "Unsupported auth method"
      else if is_type MessageType.AuthContinue msg then
        '(status, method, _, data) ← parse (parseAuthContinue (body msg) Byte.x00 Byte.x00 []);
        if bool_decide (status ≠ OK) then mret status else
        let method := byte_val method in
        if method =? AuthMethod_ScramSha256 then
          match scram with
          | None => fail INVALID_AUTHORIZATION "SCRAM state missing"
          | Some s =>
              match handleServerFirst (password config) data s with
              | Bad error => fail INVALID_AUTHORIZATION error
              | Good (client_final, s) =>
                  status ← respond client_final;
                  if bool_decide (status = OK) then handshake_loop fuel random draws (Some s)
                  else mret status
              end
          end
        else if isGenericAuthMethod method then
          status ← respond (buildGenericAuthPayload config data);
          if bool_decide (status = OK) then handshake_loop fuel random draws scram else mret status
        else fail INVALID_AUTHORIZATION "Unsupported auth continue method"
      else if is_type MessageType.AuthOk msg then
        '(status, _, info) ← parse (parseAuthOk (body msg) [] []);
        if bool_decide (status ≠ OK) then mret status else
        _ ← modify (λ c, c <| session_id_ := attachment_id (header msg) |>);
        match scram with
        | Some s =>
            if negb (bool_decide (info = [])) && negb (verifyServerFinal info s)
            then fail INVALID_AUTHORIZATION "SCRAM verification failed"
            else handshake_loop fuel random draws scram
        | None => handshake_loop fuel random draws scram
        end
      else if is_type MessageType.Ready msg then parseReadyAndTrackTransaction (body msg)
      else if is_type MessageType.Error msg then mapProtocolError msg
      else handshake_loop fuel random draws scram
  end.

(** The start of [handshake]: a fresh session. *)
Definition fresh_session (c : NetworkClient) : NetworkClient :=
  c <| next_sequence_ := 1 |> <| parameter_status_ := ∅ |> <| session_id_ := replicate 16 Byte.x00 |>.

Definition handshake `{Crypto} (fuel : nat) (random : nat → option bytes) : M Status :=
  _ ← modify fresh_session;
  config ← get config_;
  match hasPinningOverlap (auth_required_methods config) (auth_forbidden_methods config) with
  | Some overlap =>
      fail INVALID_ARGUMENT
        (("Invalid auth pinning profile: method appears in both required and forbidden sets (" : bytes) ++
         overlap ++ (")" : bytes))
  | None =>
      payload ← lift (buildStartupPayload (startup_features config) (startup_params config));
      '(status, _) ← sendMessage MessageType.Startup payload Byte.x00 true;
      if bool_decide (status ≠ OK) then mret status else
      handshake_loop fuel random 0 None
  end.

(** ** [connect] *)

Inductive tls_result := TlsContextFailed | TlsAttachFailed | TlsHandshakeFailed | TlsEstablished.

(** What the operating system, the peer and the TLS library do. *)
Record environment := mkEnvironment {
  net_initialized : bool;
  dial : NetworkAddress → option (list arrival * list (option nat));
  tls : tls_result;
  manager_random : option bytes;
  random_bytes : nat → option bytes
}.

(** The checks of the configuration, in the order of the code; the
    configuration that is kept. *)
Definition validate_config (config : NetworkClientConfig) : attempt unit :=
  if negb (isNativeProtocol (protocol config)) then
    Bad "Only protocol=native is supported; configure the native parser listener."
  else if negb (bool_decide (front_door_mode config = [])) &&
          negb (isManagerProxyMode (front_door_mode config)) &&
          negb (bool_decide (toLower (front_door_mode config) = ("direct" : bytes)))
  then Bad "front_door_mode must be direct or manager_proxy"
  else Good tt.

Definition couple_front_door (config : NetworkClientConfig) : NetworkClientConfig :=
  let config :=
    if isManagedTransport (transport_mode config) && negb (isManagerProxyMode (front_door_mode config))
    then config <| front_door_mode := ("manager_proxy" : bytes) |> else config in
  if isManagerProxyMode (front_door_mode config) && negb (isManagedTransport (transport_mode config))
  then config <| transport_mode := ("managed" : bytes) |> else config.

Definition check_credentials (config : NetworkClientConfig) : attempt unit :=
  if isManagerProxyMode (front_door_mode config) && bool_decide (manager_auth_token config = [])
  then Bad "manager_proxy mode requires manager_auth_token"
  else if negb (bool_decide (auth_method_id config = [])) && negb (isValidAuthMethodId (auth_method_id config))
  then Bad "auth_method_id must start with scratchbird.auth."
  else Good tt.

(** [if (status != OK) { disconnect(); return status; }] *)
Definition or_disconnect (status : Status) (k : M Status) : M Status :=
  if bool_decide (status = OK) then k else _ ← modify disconnect; mret status.

(** From the established transport on. *)
Definition start_session `{Crypto} (fuel : nat) (env : environment) : M Status :=
  config ← get config_;
  status ← (if isManagerProxyMode (front_door_mode config)
            then performManagerConnect (manager_random env) else mret OK);
  or_disconnect status (
    status ← handshake fuel (random_bytes env);
    or_disconnect status (
      let schema_stmt := buildSchemaStatement (schema config) in
      status ← (if bool_decide (schema_stmt = []) then mret OK
                else '(status, _) ← executeQuery fuel schema_stmt; mret status);
      or_disconnect status (
        _ ← modify (λ c, c <| connected_ := true |>);
        mret OK))).

(** The TLS part: the session goes on, or the error is returned with the
    socket left as it is. *)
Definition establish_tls `{Crypto} (fuel : nat) (env : environment) : M Status :=
  config ← get config_;
  if bool_decide (ssl_mode config = DISABLED) then
    _ ← modify (λ c, c <| wire := wire c <| tls_active := false |> |>);
    start_session fuel env
  else match tls env with
  | TlsContextFailed => fail CONNECTION_FAILURE "TLS context init failed"
  | TlsAttachFailed =>
      _ ← modify (λ c, c <| tls_conn_ := true |>); fail CONNECTION_FAILURE "TLS socket attach failed"
  | TlsHandshakeFailed =>
      _ ← modify (λ c, c <| tls_conn_ := true |>); fail CONNECTION_FAILURE "TLS handshake failed"
  | TlsEstablished =>
      _ ← modify (λ c, c <| tls_conn_ := true |> <| wire := wire c <| tls_active := true |> |>);
      start_session fuel env
  end.

Definition connect `{Crypto} (fuel : nat) (env : environment) (config : NetworkClientConfig) : M Status :=
  connected ← get connected_;
  if connected : bool then fail INVALID_ARGUMENT "Already connected" else
  match validate_config config with
  | Bad message => fail INVALID_ARGUMENT message
  | Good _ =>
      let config := couple_front_door config in
      _ ← modify (λ c, c <| config_ := config |>);
      match check_credentials config with
      | Bad message => fail INVALID_ARGUMENT message
      | Good _ =>
          if negb (net_initialized env) then fail CONNECTION_FAILURE "Network init failed" else
          match resolveConnectionAddress config with
          | None =>
              fail INVALID_ARGUMENT
                "transport_mode must be inet_listener or managed (C/C++ driver is IP-only)"
          | Some address =>
              match dial env address with
              | None =>
                  _ ← modify (λ c, c <| socket_ := false |>);
                  fail CONNECTION_FAILURE "Connection failed"
              | Some (incoming, faults) =>
                  _ ← modify (λ c, c <| socket_ := true |>
                                     <| wire := mkTransport (tls_active (wire c)) incoming [] faults |>);
                  establish_tls fuel env
              end
          end
      end
  end.
