(* ===== verification/HandshakeSpec.v ===== *)
(** * The handshake as an authentication machine

    What the client does between [Startup] and [Ready], without bytes or
    sockets: a machine over the server's messages. The handshake on the bytes of
    any script of messages, in any fragmentation, performs the run of the
    machine; what follows is proved of the machine: the honest SCRAM exchange
    completes, and what the client accepts without authentication. *)

From S2P Require Import Prelude.
From S2P Require Import Sqlstate.
From S2P Require Import Wire.
From S2P Require Import Scram.
From S2P Require Import WireBuild.
From S2P Require Import WireParse.
From S2P Require Import WireServer.
From S2P Require Import ErrorContext.
From S2P Require Import Transport.
From S2P Require Import NetworkConfig.
From S2P Require Import NetworkClient.
From S2P Require Import NetworkClientSpec.
From S2P Require Import Handshake.

(** ** The machine *)

(** What a server may send before [Ready]. *)
Inductive server_message :=
  | MAsync (a : async)
  | MNegotiate (b : bytes)
  | MAuthRequest (method : byte) (data : bytes)
  | MAuthContinue (method stage : byte) (data : bytes)
  | MAuthOk (session info : bytes).

Record auth := mkAuth { a_scram : option ScramClient; a_draws : nat }.

(** The next state and the answer, or the error that ends the handshake. *)
Definition auth_step `{Crypto} (config : NetworkClientConfig) (random : nat → option bytes)
    (m : server_message) (a : auth) : attempt (auth * option bytes) :=
  match m with
  | MAsync _ | MNegotiate _ => Good (a, None)
  | MAuthRequest method data =>
      let method := byte_val method in
      if method =? AuthMethod_Ok then Good (a, None)
      else if method =? AuthMethod_Password then Good (a, Some (password config))
      else if method =? AuthMethod_ScramSha256 then
        let '(first, s) := clientFirst (random (a_draws a)) (username config)
                             (default (mkScram [] [] []) (a_scram a)) in
        Good (mkAuth (Some s) (S (a_draws a)), Some first)
      else if isGenericAuthMethod method then Good (a, Some (buildGenericAuthPayload config data))
      else Bad "Unsupported auth method"
  | MAuthContinue method _ data =>
      let method := byte_val method in
      if method =? AuthMethod_ScramSha256 then
        match a_scram a with
        | None => Bad "SCRAM state missing"
        | Some s =>
            match handleServerFirst (password config) data s with
            | Bad e => Bad e
            | Good (final, s) => Good (mkAuth (Some s) (a_draws a), Some final)
            end
        end
      else if isGenericAuthMethod method then Good (a, Some (buildGenericAuthPayload config data))
      else Bad "Unsupported auth continue method"
  | MAuthOk _ info =>
      match a_scram a with
      | Some s =>
          if negb (bool_decide (info = [])) && negb (verifyServerFinal info s)
          then Bad "SCRAM verification failed" else Good (a, None)
      | None => Good (a, None)
      end
  end.

(** ** The messages on the wire *)

Definition message_type (m : server_message) : MessageType.t :=
  match m with
  | MAsync a => async_type a
  | MNegotiate _ => MessageType.NegotiateVersion
  | MAuthRequest _ _ => MessageType.AuthRequest
  | MAuthContinue _ _ _ => MessageType.AuthContinue
  | MAuthOk _ _ => MessageType.AuthOk
  end.

Definition message_body (m : server_message) : bytes :=
  match m with
  | MAsync a => async_body a
  | MNegotiate b => b
  | MAuthRequest method data => [method; Byte.x00; Byte.x00; Byte.x00] ++ data
  | MAuthContinue method stage data => [method; stage; Byte.x00; Byte.x00] ++ le_bytes 4 (blen data) ++ data
  | MAuthOk session info => session ++ le_bytes 4 (blen info) ++ info
  end.

Definition wf_server_message (x : MessageHeader * server_message) : Prop :=
  wf_header x.1 ∧ type x.1 = tag (message_type x.2) ∧ blen (message_body x.2) <= kMaxMessageSize ∧
  match x.2 with
  | MAsync a => wf_async a
  | MAuthOk session _ => length session = 16%nat
  | _ => True
  end.

Definition script := list (MessageHeader * server_message).

Definition encode_script (ms : script) : bytes := concat ((λ x, frame x.1 (message_body x.2)) <$> ms).

(** ** The session along the script *)

(** The effect of a message, before the answer. *)
Definition server_effect (h : MessageHeader) (m : server_message) (c : NetworkClient) : NetworkClient :=
  match m with
  | MAsync a => apply_async a c
  | MAuthOk _ _ => c <| session_id_ := attachment_id h |>
  | _ => c
  end.

Definition raw_frame (h : MessageHeader) (b : bytes) : bytes := header_layout h (u32 (blen b)) ++ b.

(** The frame of a message outside the numbered sequence. *)
Definition unnumbered_frame (t : MessageType.t) (payload : bytes) (c : NetworkClient) : bytes :=
  raw_frame (mkHeader (tag t) Byte.x00 0 0 (session_id_ c) 0) payload.

Definition answer (response : option bytes) (c : NetworkClient) : NetworkClient :=
  match response with
  | Some r => c <| wire := wire c <| outgoing := outgoing (wire c) ++
                     unnumbered_frame MessageType.AuthResponse r c |> |>
  | None => c
  end.

Fixpoint run `{Crypto} (config : NetworkClientConfig) (random : nat → option bytes) (ms : script)
    (a : auth) (c : NetworkClient) : attempt (auth * NetworkClient) :=
  match ms with
  | [] => Good (a, c)
  | (h, m) :: ms =>
      match auth_step config random m a with
      | Bad e => Bad e
      | Good (a, response) => run config random ms a (answer response (server_effect h m c))
      end
  end.

(** ** The handshake performs the run *)

Lemma write_raw_frame h b ctx t :
  wf_header h → write_faults t = [] →
  write_message (mkMessage h b) ctx t = Ret (OK, ctx, t <| outgoing := outgoing t ++ raw_frame h b |>).
Proof.
  intros (_ & Hs & Ha & Hx) Hf. unfold write_message, write_all. cbn [header body].
  rewrite encodeMessage_layout by done. cbn [mbind outcome_bind]. by rewrite Hf.
Qed.

Lemma send_unnumbered t payload c ctx :
  length (session_id_ c) = 16%nat → live c = true → write_faults (wire c) = [] →
  sendMessage t payload Byte.x00 true c ctx =
    Done (OK, 0) (c <| wire := wire c <| outgoing := outgoing (wire c) ++ unnumbered_frame t payload c |> |>) ctx.
Proof.
  intros Hid Hlive Hf. unfold sendMessage. rewrite Hlive. cbn [negb].
  rewrite write_raw_frame; [done| |done]. by repeat split.
Qed.

Lemma auth_request_parse method data m d ctx :
  parseAuthRequest ([method; Byte.x00; Byte.x00; Byte.x00] ++ data) m d ctx = Ret (OK, method, data, ctx).
Proof.
  unfold parseAuthRequest. flat_app. guard_off. read_step.
  pose proof (slice_app [method; Byte.x00; Byte.x00; Byte.x00] data [] 4 (blen data)) as E.
  rewrite app_nil_r in E. cbn [app] in E. cbn [length].
  replace (_ - 4) with (blen data) by lia. by rewrite E.
Qed.

Lemma auth_continue_parse method stage data m s d ctx :
  blen data <= kMaxMessageSize - 8 →
  parseAuthContinue ([method; stage; Byte.x00; Byte.x00] ++ le_bytes 4 (blen data) ++ data) m s d ctx =
    Ret (OK, method, stage, data, ctx).
Proof.
  intros Hlen. unfold kMaxMessageSize in Hlen. unfold parseAuthContinue.
  assert (in_u32 (blen data)) by (unfold in_u32; lia). flat_app. guard_off. do 3 read_step.
  replace (u32 (8 + blen data)) with (8 + blen data) by (symmetry; apply Z.mod_small; lia).
  guard_off. read_step. done.
Qed.

Lemma auth_ok_parse session info s i ctx :
  length session = 16%nat → blen info <= kMaxMessageSize - 20 →
  parseAuthOk (session ++ le_bytes 4 (blen info) ++ info) s i ctx = Ret (OK, session, info, ctx).
Proof.
  intros Hs Hlen. unfold kMaxMessageSize in Hlen. unfold parseAuthOk.
  assert (in_u32 (blen info)) by (unfold in_u32; lia). guard_off. do 2 read_step.
  replace (u32 (20 + blen info)) with (20 + blen info) by (symmetry; apply Z.mod_small; lia).
  guard_off. read_step. done.
Qed.

Section handshake.
Context `{Crypto} (config : NetworkClientConfig) (random : nat → option bytes).

(** A session in which answers can be sent. *)
Definition sendable (c : NetworkClient) : Prop :=
  config_ c = config ∧ length (session_id_ c) = 16%nat ∧ live c = true ∧ write_faults (wire c) = [].

Lemma respond_done payload c ctx : sendable c →
  respond payload c ctx = Done OK (answer (Some payload) c) ctx.
Proof.
  intros (_ & Hid & Hlive & Hf). unfold respond.
  by rewrite (bind_done _ _ _ _ _ _ _ (send_unnumbered MessageType.AuthResponse payload c ctx Hid Hlive Hf)).
Qed.

Lemma note_parameter_sendable n v c : sendable c → sendable (note_parameter n v c).
Proof.
  intros (Hc & Hid & Hlive & Hf). unfold note_parameter. case_bool_decide.
  - destruct (Nat.eqb_spec (length (parseUuidHex v)) 16); by repeat split.
  - case_bool_decide; by repeat split.
Qed.

Lemma server_effect_sendable h m c : wf_header h → sendable c → sendable (server_effect h m c).
Proof.
  intros (_ & _ & Ha & _) Hc. destruct m as [[]| | | |]; try done.
  - by apply note_parameter_sendable.
  - destruct Hc as (? & ? & ? & ?). by repeat split.
Qed.

Lemma answer_sendable r c : sendable c → sendable (answer r c).
Proof. destruct r; [|done]. intros (? & ? & ? & ?). by repeat split. Qed.

Lemma arrived_sendable inc c : sendable c → sendable (arrived inc c).
Proof. intros (? & ? & ? & ?). by repeat split. Qed.

Lemma answer_arrived r inc c : answer r (arrived inc c) = arrived inc (answer r c).
Proof. by destruct r. Qed.

(** Whether the message is absorbed, and what is then left to the loop. *)
Lemma absorbed_server_message h m c ctx : wf_server_message (h, m) →
  absorbed (mkMessage (stamped h (message_body m)) (message_body m)) c ctx =
    Done (match m with MAsync _ => true | _ => false end)
      (match m with MAsync a => apply_async a c | _ => c end) ctx.
Proof.
  intros (_ & Ht & Hlen & Hm). cbn [fst snd] in *. destruct m as [a|b|me d|me st d|se i].
  - by apply absorbed_async.
  - apply (absorbed_typed _ _ MessageType.NegotiateVersion); [done|by apply (bool_decide_unpack _)].
  - apply (absorbed_typed _ _ MessageType.AuthRequest); [done|by apply (bool_decide_unpack _)].
  - apply (absorbed_typed _ _ MessageType.AuthContinue); [done|by apply (bool_decide_unpack _)].
  - apply (absorbed_typed _ _ MessageType.AuthOk); [done|by apply (bool_decide_unpack _)].
Qed.

Lemma handshake_step fuel h m a c ctx rest :
  wf_server_message (h, m) → sendable c →
  stream (incoming (wire c)) (frame h (message_body m) ++ rest) →
  ∃ inc, stream inc rest ∧
    handshake_loop (S fuel) random (a_draws a) (a_scram a) c ctx =
    match auth_step config random m a with
    | Good (a', r) =>
        handshake_loop fuel random (a_draws a') (a_scram a') (arrived inc (answer r (server_effect h m c))) ctx
    | Bad e => Done INVALID_AUTHORIZATION (arrived inc (server_effect h m c)) (set_context ctx INVALID_AUTHORIZATION e)
    end.
Proof.
  intros Hwf Hc Hs. destruct (Hwf) as (Hh & Ht & Hlen & Hm). cbn [fst snd] in *.
  destruct (receive_done c ctx h (message_body m) rest Hh Hlen Hs) as (inc & Hr & E).
  exists inc. split; [done|]. cbn [handshake_loop].
  rewrite (bind_done _ _ _ _ (config_ c) c ctx) by done.
  rewrite (bind_done _ _ _ _ _ _ _ E). rewrite bool_decide_eq_false_2 by (by intros []).
  rewrite (bind_done _ _ _ _ _ _ _ (absorbed_server_message _ _ _ _ Hwf)).
  pose proof (arrived_sendable inc c Hc) as Hc'. rewrite (proj1 Hc).
  destruct m as [x|b|me d|me st d|se i]; cbn [message_type message_body auth_step server_effect] in *.
  - destruct x; try done. cbn [apply_async answer]. by rewrite note_parameter_arrived.
  - type_tests Ht. done.
  - type_tests Ht. rewrite (bind_done _ _ _ _ (OK, me, d) (arrived inc c) ctx)
      by (apply parse_done; intros; apply auth_request_parse).
    rewrite bool_decide_eq_false_2 by (by intros []).
    destruct (_ =? AuthMethod_Ok); [done|]. destruct (_ =? AuthMethod_Password).
    { rewrite (bind_done _ _ _ _ _ _ _ (respond_done _ _ ctx Hc')). by rewrite answer_arrived. }
    destruct (_ =? AuthMethod_ScramSha256).
    { destruct (clientFirst _ _ _) as [first s]. rewrite (bind_done _ _ _ _ _ _ _ (respond_done _ _ ctx Hc')).
      by rewrite answer_arrived. }
    destruct (isGenericAuthMethod _); [|done].
    rewrite (bind_done _ _ _ _ _ _ _ (respond_done _ _ ctx Hc')). by rewrite answer_arrived.
  - type_tests Ht. rewrite (bind_done _ _ _ _ (OK, me, st, d) (arrived inc c) ctx).
    2: { apply parse_done. intros. apply auth_continue_parse. cbn [app length] in Hlen.
         rewrite !length_app, length_le_bytes in Hlen. lia. }
    rewrite bool_decide_eq_false_2 by (by intros []). destruct (_ =? AuthMethod_ScramSha256).
    { destruct (a_scram a) as [s|]; [|done]. destruct (handleServerFirst _ _ _) as [[final s']|e]; [|done].
      rewrite (bind_done _ _ _ _ _ _ _ (respond_done _ _ ctx Hc')). by rewrite answer_arrived. }
    destruct (isGenericAuthMethod _); [|done].
    rewrite (bind_done _ _ _ _ _ _ _ (respond_done _ _ ctx Hc')). by rewrite answer_arrived.
  - type_tests Ht. rewrite (bind_done _ _ _ _ (OK, se, i) (arrived inc c) ctx).
    2: { apply parse_done. intros. apply auth_ok_parse; [done|].
         rewrite !length_app, length_le_bytes in Hlen. lia. }
    rewrite bool_decide_eq_false_2 by (by intros []).
    rewrite (bind_done _ _ _ _ tt (arrived inc (c <| session_id_ := attachment_id h |>)) ctx) by done.
    destruct (a_scram a) as [s|] eqn:Ha; [|by rewrite Ha].
    destruct (negb (bool_decide (i = [])) && negb (verifyServerFinal i s)); [done|by rewrite Ha].
Qed.

Lemma run_arrived ms inc : ∀ a c,
  run config random ms a (arrived inc c) =
    match run config random ms a c with Good (a', c') => Good (a', arrived inc c') | Bad e => Bad e end.
Proof.
  induction ms as [|[h m] ms IH]; intros a c; [done|]. cbn [run].
  destruct (auth_step config random m a) as [[a' r]|e]; [|done].
  replace (answer r (server_effect h m (arrived inc c))) with (arrived inc (answer r (server_effect h m c)))
    by (rewrite <-answer_arrived; destruct m as [[]| | | |]; cbn [server_effect apply_async];
        rewrite ?note_parameter_arrived; done).
  apply IH.
Qed.

(** The loop over a whole script. *)
Lemma handshake_run ms : ∀ fuel a c ctx rest,
  Forall wf_server_message ms → sendable c →
  stream (incoming (wire c)) (encode_script ms ++ rest) →
  match run config random ms a c with
  | Good (a', c') =>
      sendable c' ∧ ∃ inc, stream inc rest ∧
        handshake_loop (length ms + fuel) random (a_draws a) (a_scram a) c ctx =
        handshake_loop fuel random (a_draws a') (a_scram a') (arrived inc c') ctx
  | Bad e => ∃ c', handshake_loop (length ms + fuel) random (a_draws a) (a_scram a) c ctx =
               Done INVALID_AUTHORIZATION c' (set_context ctx INVALID_AUTHORIZATION e)
  end.
Proof.
  induction ms as [|[h m] ms IH]; intros fuel a c ctx rest Hms Hc Hs.
  { split; [done|]. exists (incoming (wire c)). split; [done|]. cbn [length Nat.add].
    by destruct c as [? ? ? [] ? ? ? ? ? ? ? ? ? ? ? ?]. }
  apply Forall_cons in Hms as [Hm Hms]. unfold encode_script in Hs.
  rewrite fmap_cons, concat_cons, <-app_assoc in Hs.
  destruct (handshake_step (length ms + fuel) h m a c ctx _ Hm Hc Hs) as (inc & Hs' & E).
  cbn [run length Nat.add]. rewrite E.
  destruct (auth_step config random m a) as [[a' r]|e]; [|by eexists].
  set (c1 := answer r (server_effect h m c)).
  assert (Hc1 : sendable c1) by (apply answer_sendable, server_effect_sendable; [apply Hm|done]).
  specialize (IH fuel a' (arrived inc c1) ctx rest Hms (arrived_sendable inc c1 Hc1) Hs').
  rewrite run_arrived in IH. destruct (run config random ms a' c1) as [[a2 c2]|e]; [|done].
  destruct IH as (Hc2 & inc2 & Hs2 & E2). split.
  { destruct Hc2 as (? & ? & ? & ?). by repeat split. }
  exists inc2. by rewrite E2, arrived_arrived.
Qed.
End handshake.

(** ** The whole handshake *)

Definition startup_payload (config : NetworkClientConfig) : bytes :=
  layout (RStartup (startup_features config) (startup_params config)).

(** The session after the startup message. *)
Definition greeted (c : NetworkClient) : NetworkClient :=
  let c := fresh_session c in
  c <| wire := wire c <| outgoing := outgoing (wire c) ++
         unnumbered_frame MessageType.Startup (startup_payload (config_ c)) c |> |>.

Definition can_start (c : NetworkClient) : Prop :=
  live c = true ∧ write_faults (wire c) = [] ∧
  hasPinningOverlap (auth_required_methods (config_ c)) (auth_forbidden_methods (config_ c)) = None.

Lemma greeted_sendable c : can_start c → sendable (config_ c) (greeted c).
Proof. intros (Hl & Hf & _). by repeat split. Qed.

Lemma handshake_done `{Crypto} fuel random c ctx :
  can_start c →
  handshake fuel random c ctx = handshake_loop fuel random 0 None (greeted c) ctx.
Proof.
  intros (Hl & Hf & Hp). unfold handshake.
  rewrite (bind_done _ _ _ _ tt (fresh_session c) ctx) by done.
  rewrite (bind_done _ _ _ _ (config_ c) (fresh_session c) ctx) by done. rewrite Hp, startup_layout.
  rewrite (bind_done (lift (Ret (startup_payload (config_ c)))) _ (fresh_session c) ctx
    (startup_payload (config_ c)) (fresh_session c) ctx) by done.
  rewrite (bind_done _ _ _ _ (OK, 0) (greeted c) ctx) by (by apply send_unnumbered).
  by rewrite bool_decide_eq_false_2 by (by intros []).
Qed.

Lemma handshake_loop_ready `{Crypto} fuel random draws scram r c ctx rest :
  wf_ready r → stream (incoming (wire c)) (encode_ready_message r ++ rest) →
  ∃ inc, stream inc rest ∧
    handshake_loop (S fuel) random draws scram c ctx = Done OK (apply_ready r (arrived inc c)) ctx.
Proof.
  intros Hr Hs. destruct (receive_ready c ctx r rest Hr Hs) as (inc & msg & Hs' & E & Ht & Ha & Hp).
  exists inc. split; [done|]. cbn [handshake_loop].
  rewrite (bind_done _ _ _ _ (config_ c) c ctx) by done. rewrite (bind_done _ _ _ _ _ _ _ E).
  rewrite bool_decide_eq_false_2 by (by intros []). rewrite (bind_done _ _ _ _ _ _ _ (Ha _ _)).
  unfold is_type. rewrite Ht. repeat rewrite bool_decide_eq_false_2 by done.
  rewrite bool_decide_eq_true_2 by done. apply Hp.
Qed.

Lemma handshake_script `{Crypto} fuel random c ctx ms r rest :
  can_start c → Forall wf_server_message ms → wf_ready r → (length ms < fuel)%nat →
  stream (incoming (wire c)) (encode_script ms ++ encode_ready_message r ++ rest) →
  match run (config_ c) random ms (mkAuth None 0) (greeted c) with
  | Good (_, c1) => ∃ inc, stream inc rest ∧
      handshake fuel random c ctx = Done OK (apply_ready r (arrived inc c1)) ctx
  | Bad e => ∃ c', handshake fuel random c ctx =
      Done INVALID_AUTHORIZATION c' (set_context ctx INVALID_AUTHORIZATION e)
  end.
Proof.
  intros Hc Hms Hr Hfuel Hs. rewrite handshake_done by done.
  pose proof (handshake_run (config_ c) random ms (fuel - length ms) (mkAuth None 0) (greeted c) ctx
    (encode_ready_message r ++ rest) Hms (greeted_sendable c Hc) Hs) as E.
  replace (length ms + (fuel - length ms))%nat with fuel in E by lia. cbn [a_draws a_scram] in E.
  destruct (run _ _ _ _ _) as [[a' c1]|e]; [|exact E].
  destruct E as (_ & inc & Hs' & E).
  destruct (fuel - length ms)%nat as [|k] eqn:Hk; [lia|].
  destruct (handshake_loop_ready k random (a_draws a') (a_scram a') r (arrived inc c1) ctx rest Hr Hs')
    as (inc' & Hrest & E'). exists inc'. split; [done|]. by rewrite E, E', arrived_arrived.
Qed.

(** C22: the handshake is the authentication machine: on the bytes of any script
    of server messages that ends with [Ready], in any fragmentation, it sends
    the machine's answers and nothing else, succeeds exactly when the machine
    does not fail, reports the machine's error otherwise, and leaves the stream
    after [Ready]. *)
Theorem handshake_refines_machine `{Crypto} fuel random c ctx ms r rest :
  can_start c → Forall wf_server_message ms → wf_ready r → (length ms < fuel)%nat →
  stream (incoming (wire c)) (encode_script ms ++ encode_ready_message r ++ rest) →
  match run (config_ c) random ms (mkAuth None 0) (greeted c) with
  | Good (_, c1) => ∃ inc, stream inc rest ∧
      handshake fuel random c ctx = Done OK (apply_ready r (arrived inc c1)) ctx
  | Bad e => ∃ c', handshake fuel random c ctx =
      Done INVALID_AUTHORIZATION c' (set_context ctx INVALID_AUTHORIZATION e)
  end.
Proof. apply handshake_script. Qed.

(** ** Scripts *)

Definition scram_request (h1 : MessageHeader) (d : bytes) : MessageHeader * server_message :=
  (h1, MAuthRequest Byte.x03 d).

(** C23: an honest SCRAM exchange establishes the session: with a server that holds
    the verifier of the user's password, the handshake succeeds, the server
    accepts the proof it is sent, and the session has the identifier and the
    transaction state the server announced. *)
Theorem scram_handshake_completes `{CryptoLaws} fuel random c ctx h1 d h2 st h3 se r rest
    salt iterations v server_nonce :
  can_start c → wf_ready r → (3 < fuel)%nat →
  (∀ k m, is_Some (hmac_sha256 k m)) →
  enrol (password (config_ c)) salt iterations = Some v →
  salt ≠ [] → in_u32 iterations → ","%byte ∉ server_nonce →
  let '(first, s1) := clientFirst (random 0%nat) (username (config_ c)) (mkScram [] [] []) in
  let sf := server_first_message v (client_nonce s1) server_nonce in
  let nonce := client_nonce s1 ++ server_nonce in
  ∀ server_final,
  server_final_message v (client_first_bare s1) sf nonce = Some server_final →
  let ms := [(h1, MAuthRequest Byte.x03 d); (h2, MAuthContinue Byte.x03 st sf); (h3, MAuthOk se server_final)] in
  Forall wf_server_message ms →
  stream (incoming (wire c)) (encode_script ms ++ encode_ready_message r ++ rest) →
  ∃ final inc, let c1 := greeted c in
    accept_client_final v (client_first_bare s1) sf nonce final = true ∧ stream inc rest ∧
    handshake fuel random c ctx =
      Done OK (apply_ready r (arrived inc
        (answer (Some final) (answer (Some first) c1) <| session_id_ := attachment_id h3 |>))) ctx.
Proof.
  intros Hc Hr Hfuel Htotal Hv Hsalt Hit Hsn.
  destruct (clientFirst _ _ _) as [first s1] eqn:Hfirst. cbn zeta. intros server_final Hfinal Hms Hs.
  assert (Hlen : blen (server_first_message v (client_nonce s1) server_nonce) < 2 ^ 64).
  { apply Forall_cons in Hms as [_ Hms]. apply Forall_cons in Hms as [(_ & _ & Hl & _) _].
    cbn [snd message_body app length] in Hl. rewrite !length_app in Hl. unfold kMaxMessageSize in Hl. lia. }
  pose proof (scram_completes (random 0%nat) (username (config_ c)) (password (config_ c)) salt iterations v
    server_nonce (mkScram [] [] []) Htotal Hv Hsalt Hit Hsn) as Hscram.
  rewrite Hfirst in Hscram. cbn zeta in Hscram.
  destruct (Hscram Hlen) as (final & s2 & sfin & Hfirst' & Hacc & Hsf & Hver).
  rewrite Hfinal in Hsf. injection Hsf as <-.
  set (ms := [_; _; _]) in *.
  pose proof (handshake_script fuel random c ctx ms r rest Hc Hms Hr ltac:(done) Hs) as E.
  unfold ms in E at 1. cbn [run auth_step a_scram a_draws] in E.
  change (byte_val Byte.x03 =? AuthMethod_Ok) with false in E.
  change (byte_val Byte.x03 =? AuthMethod_Password) with false in E.
  change (byte_val Byte.x03 =? AuthMethod_ScramSha256) with true in E.
  cbn [from_option default id] in E. rewrite Hfirst in E. cbn [a_scram a_draws] in E. rewrite Hfirst' in E.
  cbn [a_scram] in E. rewrite Hver, andb_false_r in E. cbn [server_effect] in E.
  destruct E as (inc & Hrest & E). exists final, inc. split; [done|]. split; [done|]. exact E.
Qed.

(** ** What is accepted without authentication *)

(** A session that has started, with these bytes sent after the greeting. *)
Definition started_with (c c' : NetworkClient) (sent_bytes : bytes) : Prop :=
  outgoing (wire c') = outgoing (wire (greeted c)) ++ sent_bytes.

(** The three scripts: [Ready] alone, a request for the password, and a SCRAM
    request that is cut short by [AuthOk]. *)
Lemma unauthenticated_scripts `{Crypto} c random h1 d h3 se :
  can_start c →
  run (config_ c) random [] (mkAuth None 0) (greeted c) = Good (mkAuth None 0, greeted c) ∧
  run (config_ c) random [(h1, MAuthRequest Byte.x01 d)] (mkAuth None 0) (greeted c) =
    Good (mkAuth None 0, answer (Some (password (config_ c))) (greeted c)) ∧
  ∃ a c', run (config_ c) random [(h1, MAuthRequest Byte.x03 d); (h3, MAuthOk se [])] (mkAuth None 0) (greeted c) =
    Good (a, c').
Proof.
  intros _. split; [done|]. split; [done|]. cbn [run auth_step a_scram a_draws].
  change (byte_val Byte.x03 =? AuthMethod_Ok) with false.
  change (byte_val Byte.x03 =? AuthMethod_Password) with false.
  change (byte_val Byte.x03 =? AuthMethod_ScramSha256) with true. cbv iota.
  destruct (clientFirst _ _ _) as [first s1]. cbn [a_scram]. rewrite bool_decide_eq_true_2 by done.
  cbn [negb andb]. eauto.
Qed.

(** Authentication is the server's choice alone. Whatever the configuration
    says of [auth_method], [allow_password_fallback] and required or forbidden
    methods, the handshake succeeds when the server asks for nothing, it sends
    the password in clear when the server asks for it, and a server that never
    proved its knowledge of the password ends a SCRAM exchange with an empty
    [AuthOk]. *)
Theorem server_chooses_authentication `{Crypto} fuel random c ctx r rest h1 d h3 se ms :
  can_start c → wf_ready r → (3 < fuel)%nat →
  ms ∈ [[]; [(h1, MAuthRequest Byte.x01 d)]; [(h1, MAuthRequest Byte.x03 d); (h3, MAuthOk se [])]] →
  Forall wf_server_message ms →
  stream (incoming (wire c)) (encode_script ms ++ encode_ready_message r ++ rest) →
  ∃ c', handshake fuel random c ctx = Done OK c' ctx ∧
    (ms = [] → started_with c c' []) ∧
    (ms = [(h1, MAuthRequest Byte.x01 d)] →
       started_with c c' (unnumbered_frame MessageType.AuthResponse (password (config_ c)) (greeted c))).
Proof.
  intros Hc Hr Hfuel Hin Hms Hs.
  destruct (unauthenticated_scripts c random h1 d h3 se Hc) as (E1 & E2 & a & c3 & E3).
  assert (Hlen : (length ms < fuel)%nat).
  { repeat (apply elem_of_cons in Hin as [->|Hin]; [cbn; lia|]). by apply elem_of_nil in Hin. }
  pose proof (handshake_script fuel random c ctx ms r rest Hc Hms Hr Hlen Hs) as E.
  repeat (apply elem_of_cons in Hin as [->|Hin]); [rewrite E1 in E|rewrite E2 in E|rewrite E3 in E|by apply elem_of_nil in Hin];
    destruct E as (inc & _ & E); (eexists; split; [exact E|]); (split; [intros Hm|intros Hm]); try discriminate Hm;
    unfold started_with; cbn; by rewrite ?app_nil_r.
Qed.

(** ** Samples *)

#[export] Instance wf_server_message_dec x : Decision (wf_server_message x).
Proof. unfold wf_server_message, wf_header. destruct (x.2); apply _. Defined.

#[export] Instance can_start_dec c : Decision (can_start c).
Proof. unfold can_start. destruct (write_faults (wire c)); [|right; naive_solver]; apply _. Defined.

Definition login : NetworkClientConfig :=
  default_config <| username := ("ada" : bytes) |> <| password := ("pw" : bytes) |>
    <| auth_forbidden_methods := [("password" : bytes)] |>.

Definition login_session (bs : bytes) : NetworkClient := sample_session bs <| config_ := login |>.

Definition no_random (n : nat) : option bytes := Some ("nonce-bytes-123456" : bytes).

Lemma login_stream bs : (50 < length bs)%nat → stream (incoming (wire (login_session bs))) bs.
Proof. apply sample_stream. Qed.

Lemma server_chooses_authentication_witness :
  let h := sample_header (tag MessageType.AuthRequest) in
  let ms := [(h, MAuthRequest Byte.x01 [])] in
  let bs := encode_script ms ++ encode_ready_message sample_ready ++ "next" in
  ∃ c', @handshake letter_crypto 10 no_random (login_session bs) None = Done OK c' None ∧
    started_with (login_session bs) c'
      (unnumbered_frame MessageType.AuthResponse "pw" (greeted (login_session bs))).
Proof.
  intros h ms bs.
  assert (Hlen : (50 < length bs)%nat) by by_evaluation.
  assert (Hc : can_start (login_session bs)) by (repeat split; done).
  assert (Hr : wf_ready sample_ready) by by_evaluation.
  assert (Hms : Forall wf_server_message ms) by by_evaluation.
  destruct (@server_chooses_authentication letter_crypto 10 no_random (login_session bs) None sample_ready "next"
    h [] h (replicate 16 Byte.x00) ms) as (c' & E & _ & Hsent);
    [exact Hc|exact Hr|by_evaluation|right; left|exact Hms|by apply login_stream|].
  exists c'. split; [exact E|]. apply Hsent. reflexivity.
Defined.

Lemma handshake_refines_machine_witness :
  let ms := [(sample_header (tag MessageType.AuthRequest), MAuthRequest Byte.x0c [])] in
  let bs := encode_script ms ++ encode_ready_message sample_ready ++ "next" in
  ∃ c', @handshake letter_crypto 10 no_random (login_session bs) (Some fresh_context) =
    Done INVALID_AUTHORIZATION c' (set_context (Some fresh_context) INVALID_AUTHORIZATION "Unsupported auth method").
Proof.
  intros ms bs.
  assert (Hlen : (50 < length bs)%nat) by by_evaluation.
  assert (Hc : can_start (login_session bs)) by (repeat split; done).
  assert (Hr : wf_ready sample_ready) by by_evaluation.
  assert (Hms : Forall wf_server_message ms) by by_evaluation.
  exact (@handshake_refines_machine letter_crypto 10 no_random (login_session bs) (Some fresh_context) ms
    sample_ready "next" Hc Hms Hr ltac:(by_evaluation) (login_stream bs Hlen)).
Defined.

(** The verifier of the password, and its answer to this client. *)
Definition letter_verifier : Verifier :=
  @mkVerifier "salt" 4096 (reverse (take 32 (("pw" ++ "salt" : bytes) ++ client_key_label ++ zeros 32)))
    (take 32 (("pw" ++ "salt" : bytes) ++ server_key_label ++ zeros 32)).

Definition letter_client : ScramClient :=
  snd (@clientFirst letter_crypto (no_random 0) (username login) (mkScram [] [] [])).

Definition letter_first : bytes :=
  @server_first_message letter_crypto letter_verifier (client_nonce letter_client) "more".

Definition letter_final : bytes :=
  default [] (@server_final_message letter_crypto letter_verifier (client_first_bare letter_client) letter_first
    (client_nonce letter_client ++ "more")).

Lemma scram_handshake_completes_witness :
  let h1 := sample_header (tag MessageType.AuthRequest) in
  let h2 := sample_header (tag MessageType.AuthContinue) in
  let h3 := sample_header (tag MessageType.AuthOk) in
  let se := replicate 16 Byte.x00 in
  let ms := [(h1, MAuthRequest Byte.x03 []); (h2, MAuthContinue Byte.x03 Byte.x01 letter_first);
             (h3, MAuthOk se letter_final)] in
  let bs := encode_script ms ++ encode_ready_message sample_ready ++ "next" in
  ∃ final c', @accept_client_final letter_crypto letter_verifier (client_first_bare letter_client) letter_first
      (client_nonce letter_client ++ "more") final = true ∧
    @handshake letter_crypto 10 no_random (login_session bs) None = Done OK c' None ∧
    session_id_ c' = replicate 16 Byte.x2a ∧ in_transaction_ c' = true.
Proof.
  intros h1 h2 h3 se ms bs.
  assert (Hlen : (50 < length bs)%nat) by by_evaluation.
  assert (Hc : can_start (login_session bs)) by (repeat split; done).
  assert (Hr : wf_ready sample_ready) by by_evaluation.
  assert (Hms : Forall wf_server_message ms) by by_evaluation.
  assert (Hv : @enrol letter_crypto "pw" "salt" 4096 = Some letter_verifier) by (vm_compute; reflexivity).
  assert (Hf : @server_final_message letter_crypto letter_verifier (client_first_bare letter_client) letter_first
    (client_nonce letter_client ++ "more") = Some letter_final) by (vm_compute; reflexivity).
  destruct (@scram_handshake_completes letter_crypto letter_crypto_laws 10 no_random (login_session bs) None
    h1 [] h2 Byte.x01 h3 se sample_ready "next" "salt" 4096 letter_verifier "more" Hc Hr
    ltac:(by_evaluation) ltac:(intros k m; eexists; reflexivity) Hv ltac:(discriminate) ltac:(by_evaluation)
    ltac:(by_evaluation) letter_final Hf Hms (login_stream bs Hlen)) as (final & inc & Hacc & _ & E).
  exists final. eexists. split; [exact Hacc|]. split; [exact E|]. split; reflexivity.
Defined.
