(* ===== verification/ConnectSpec.v ===== *)
(** * Connecting: the outcome of [connect]

    The manager's frames are read back and an accepting manager lets the client
    through; a connection attempt ends, leaves no session behind when it fails
    after the transport was up, and keeps transport and front door consistent;
    the schema statement reads back as the schemas that were asked for. *)

From S2P Require Import Prelude.
From S2P Require Import Sqlstate.
From S2P Require Import Wire.
From S2P Require Import Scram.
From S2P Require Import WireBuild.
From S2P Require Import WireParse.
From S2P Require Import WireServer.
From S2P Require Import Identifiers.
From S2P Require Import ErrorContext.
From S2P Require Import Transport.
From S2P Require Import NetworkConfig.
From S2P Require Import NetworkClient.
From S2P Require Import NetworkClientSpec.
From S2P Require Import NetworkProgress.
From S2P Require Import Handshake.

(** ** The manager's frames *)

Lemma read_exact_done size bs c ctx :
  stream (incoming (wire c)) bs → 0 <= size <= blen bs →
  ∃ inc, stream inc (drop (Z.to_nat size) bs) ∧
    read_exact size c ctx = Done (OK, take (Z.to_nat size) bs) (arrived inc c) ctx.
Proof.
  intros Hs Hsize. destruct (readExact_stream size bs ctx (wire c) Hs Hsize) as (inc & E & Hs').
  exists inc. split; [done|]. unfold read_exact. by rewrite E.
Qed.

Lemma field_at_app (n : nat) p v r : 0 <= v < 256 ^ Z.of_nat n →
  field_at n (length p) (p ++ le_bytes n v ++ r) = v.
Proof.
  intros Hv. unfold field_at. rewrite drop_app_length.
  rewrite <-(length_le_bytes n v) at 1. rewrite take_app_length, le_val_le_bytes. by apply Z.mod_small.
Qed.

Definition frame_header (t : byte) (len : Z) : bytes :=
  appendU32 kManagerProtocolMagic ++ appendU16 kManagerProtocolVersion ++ [t; Byte.x00] ++ appendU32 len.

Lemma manager_frame_split t p : manager_frame t p = frame_header t (blen p) ++ p.
Proof. unfold manager_frame, frame_header. by rewrite <-!app_assoc. Qed.

Lemma frame_header_fields t len : 0 <= len <= kManagerMaxPayloadSize →
  length (frame_header t len) = 12%nat ∧
  field_at 4 0 (frame_header t len) = kManagerProtocolMagic ∧
  field_at 2 4 (frame_header t len) = kManagerProtocolVersion ∧
  nth 6 (frame_header t len) Byte.x00 = t ∧ field_at 4 8 (frame_header t len) = len.
Proof.
  intros Hlen. unfold kManagerMaxPayloadSize in Hlen. split_and!; [done..|].
  unfold frame_header. rewrite !(app_assoc _ _ (appendU32 len)), <-(app_nil_r (_ ++ appendU32 len)), <-app_assoc.
  apply (field_at_app 4 (appendU32 kManagerProtocolMagic ++ appendU16 kManagerProtocolVersion ++ [t; Byte.x00])).
  change (256 ^ Z.of_nat 4) with (2 ^ 32). lia.
Qed.

(** A manager's frame is received as it was sent. *)
Lemma receive_manager_frame t p rest c ctx :
  blen p <= kManagerMaxPayloadSize → stream (incoming (wire c)) (manager_frame t p ++ rest) →
  ∃ inc, stream inc rest ∧ receiveManagerFrame c ctx = Done (OK, t, p) (arrived inc c) ctx.
Proof.
  intros Hp Hs. rewrite manager_frame_split, <-app_assoc in Hs.
  destruct (frame_header_fields t (blen p)) as (H12 & Hm & Hv & Ht & Hl); [lia|].
  destruct (read_exact_done kManagerHeaderSize _ c ctx Hs) as (inc & Hs1 & E1).
  { rewrite length_app, H12. unfold kManagerHeaderSize. lia. }
  change (Z.to_nat kManagerHeaderSize) with 12%nat in *. rewrite <-H12 in Hs1, E1.
  rewrite take_app_length in E1. rewrite drop_app_length in Hs1.
  unfold receiveManagerFrame. rewrite (bind_done _ _ _ _ _ _ _ E1).
  rewrite bool_decide_eq_false_2 by (by intros []). rewrite Hm, Hv, Ht, Hl, !Z.eqb_refl. cbn [negb].
  guard_off. destruct (Z.eqb_spec (blen p) 0) as [H0|H0].
  - exists inc. destruct p; [done|cbn in H0; lia].
  - destruct (read_exact_done (blen p) (p ++ rest) (arrived inc c) ctx Hs1) as (inc2 & Hs2 & E2).
    { rewrite length_app. lia. }
    exists inc2. rewrite Nat2Z.id in *. rewrite drop_app_length in Hs2. split; [done|].
    rewrite take_app_length in E2. by rewrite (bind_done _ _ _ _ _ _ _ E2).
Qed.

(** The session that has sent a frame to the manager. *)
Definition framed (t : byte) (p : bytes) (c : NetworkClient) : NetworkClient :=
  c <| wire := wire c <| outgoing := outgoing (wire c) ++ manager_frame t p |> |>.

Definition can_frame (c : NetworkClient) : Prop := live c = true ∧ write_faults (wire c) = [].

Lemma manager_exchange_done t p t' p' rest c ctx :
  can_frame c → blen p' <= kManagerMaxPayloadSize →
  stream (incoming (wire c)) (manager_frame t' p' ++ rest) →
  ∃ inc, stream inc rest ∧ can_frame (arrived inc (framed t p c)) ∧
    manager_exchange t p c ctx = Done (OK, t', p') (arrived inc (framed t p c)) ctx.
Proof.
  intros [Hl Hf] Hp Hs. destruct (receive_manager_frame t' p' rest (framed t p c) ctx Hp Hs) as (inc & Hr & E).
  exists inc. split; [done|]. split; [by split|]. unfold manager_exchange.
  rewrite (bind_done _ _ _ _ OK (framed t p c) ctx).
  - rewrite bool_decide_eq_false_2 by (by intros []). exact E.
  - unfold sendManagerFrame, write_all. by rewrite Hl, Hf.
Qed.

(** The answers of a manager that lets the client in. *)
Record manager_script := mkManager {
  m_hello : bytes;
  m_challenge : option bytes;
  m_auth : bytes;
  m_connect : bytes
}.

Definition wf_manager (m : manager_script) : Prop :=
  blen (m_hello m) <= kManagerMaxPayloadSize ∧
  match m_challenge m with Some p => blen p <= kManagerMaxPayloadSize | None => True end ∧
  261 <= blen (m_auth m) <= kManagerMaxPayloadSize ∧ head (m_auth m) = Some Byte.x00 ∧
  connect_err_offset <= blen (m_connect m) <= kManagerMaxPayloadSize ∧ head (m_connect m) = Some Byte.x00.

Definition encode_manager (m : manager_script) : bytes :=
  manager_frame kMsgStatusResponse (m_hello m) ++
  match m_challenge m with Some p => manager_frame kMsgAuthChallenge p | None => [] end ++
  manager_frame kMsgAuthResponse (m_auth m) ++ manager_frame kMsgConnectResponse (m_connect m).

(** What the client sends: the token is sent again only to a challenge. *)
Definition auth_requests (config : NetworkClientConfig) (m : manager_script) : bytes :=
  manager_frame kMsgMcpHello (hello_payload config) ++
  manager_frame kMsgMcpAuthStart (auth_start config) ++
  match m_challenge m with
  | Some _ => manager_frame kMsgMcpAuthContinue (appendLengthPrefixedString (manager_auth_token config))
  | None => []
  end.

Lemma framed_outgoing inc t p c :
  outgoing (wire (arrived inc (framed t p c))) = outgoing (wire c) ++ manager_frame t p.
Proof. done. Qed.

Lemma parse_auth_accepted p c ctx : 261 <= blen p → head p = Some Byte.x00 →
  parseAuthResponseStatus p c ctx = Done (OK, []) c ctx.
Proof. intros Hp Hh. unfold parseAuthResponseStatus. guard_off. by rewrite bool_decide_eq_true_2. Qed.

(** The first half, up to the answer that decides the authentication. *)
Lemma manager_auth_answers m c ctx rest :
  can_frame c → wf_manager m → stream (incoming (wire c)) (encode_manager m ++ rest) →
  manager_auth_token (config_ c) ≠ [] →
  ∃ c', can_frame c' ∧ config_ c' = config_ c ∧
    stream (incoming (wire c')) (manager_frame kMsgConnectResponse (m_connect m) ++ rest) ∧
    outgoing (wire c') = outgoing (wire c) ++ auth_requests (config_ c) m ∧
    ∀ random, performManagerConnect random c ctx = manager_open_database (config_ c) random c' ctx.
Proof.
  intros Hc (Hh & Hch & Ha & Ha0 & _) Hs Htok. unfold encode_manager in Hs. rewrite <-!app_assoc in Hs.
  destruct (manager_exchange_done kMsgMcpHello (hello_payload (config_ c)) _ _ _ c ctx Hc Hh Hs)
    as (inc1 & Hs1 & Hc1 & E1). set (c1 := arrived inc1 _) in *.
  destruct (m_challenge m) as [p|] eqn:Em.
  - rewrite <-app_assoc in Hs1 || idtac.
    destruct (manager_exchange_done kMsgMcpAuthStart (auth_start (config_ c)) _ _ _ c1 ctx Hc1 Hch Hs1)
      as (inc2 & Hs2 & Hc2 & E2). set (c2 := arrived inc2 _) in *.
    destruct (manager_exchange_done kMsgMcpAuthContinue
      (appendLengthPrefixedString (manager_auth_token (config_ c))) _ _ _ c2 ctx Hc2 (proj2 Ha) Hs2)
      as (inc3 & Hs3 & Hc3 & E3). set (c3 := arrived inc3 _) in *.
    exists c3. split; [done|]. split; [done|]. split; [done|]. split.
    { unfold auth_requests. rewrite Em. subst c3 c2 c1. rewrite !framed_outgoing. by rewrite <-!app_assoc. }
    intros random. unfold performManagerConnect. rewrite (bind_done _ _ _ _ (config_ c) c ctx) by done.
    rewrite bool_decide_eq_false_2 by done. rewrite (bind_done _ _ _ _ _ _ _ E1).
    rewrite !bool_decide_eq_false_2 by (by intros []). rewrite (bind_done _ _ _ _ _ _ _ E2).
    rewrite bool_decide_eq_false_2 by (by intros []). rewrite bool_decide_eq_true_2 by done.
    rewrite (bind_done _ _ _ _ _ _ _ E3). rewrite !bool_decide_eq_false_2 by (by intros []).
    rewrite (bind_done _ _ _ _ _ _ _ (parse_auth_accepted _ c3 ctx (proj1 Ha) Ha0)).
    by rewrite bool_decide_eq_false_2 by (by intros []).
  - cbn [app] in Hs1.
    destruct (manager_exchange_done kMsgMcpAuthStart (auth_start (config_ c)) _ _ _ c1 ctx Hc1 (proj2 Ha) Hs1)
      as (inc2 & Hs2 & Hc2 & E2). set (c2 := arrived inc2 _) in *.
    exists c2. split; [done|]. split; [done|]. split; [done|]. split.
    { unfold auth_requests. rewrite Em. subst c2 c1. rewrite !framed_outgoing. by rewrite app_nil_r, <-!app_assoc. }
    intros random. unfold performManagerConnect. rewrite (bind_done _ _ _ _ (config_ c) c ctx) by done.
    rewrite bool_decide_eq_false_2 by done. rewrite (bind_done _ _ _ _ _ _ _ E1).
    rewrite !bool_decide_eq_false_2 by (by intros []). rewrite (bind_done _ _ _ _ _ _ _ E2).
    rewrite bool_decide_eq_false_2 by (by intros []). rewrite (bool_decide_eq_false_2 (_ = kMsgAuthChallenge)) by done.
    rewrite (bind_done (mret (OK, kMsgAuthResponse, m_auth m)) _ c2 ctx (OK, kMsgAuthResponse, m_auth m) c2 ctx) by done.
    rewrite !bool_decide_eq_false_2 by (by intros []).
    rewrite (bind_done _ _ _ _ _ _ _ (parse_auth_accepted _ c2 ctx (proj1 Ha) Ha0)).
    by rewrite bool_decide_eq_false_2 by (by intros []).
Qed.

(** An accepting manager lets the client through: on its four answers, the
    challenge included or not, [performManagerConnect] succeeds, having sent
    exactly the greeting, the token (again, to a challenge) and the request for
    the database, and leaves the stream where the database server takes over. *)
Theorem manager_connect_completes m nonce c ctx rest :
  can_frame c → wf_manager m → manager_auth_token (config_ c) ≠ [] →
  stream (incoming (wire c)) (encode_manager m ++ rest) →
  ∃ c', stream (incoming (wire c')) rest ∧
    outgoing (wire c') = outgoing (wire c) ++ auth_requests (config_ c) m ++
      manager_frame kMsgMcpDbConnect (db_connect (config_ c) nonce) ∧
    performManagerConnect (Some nonce) c ctx = Done OK c' ctx.
Proof.
  intros Hc Hm Htok Hs.
  destruct (manager_auth_answers m c ctx rest Hc Hm Hs Htok) as (c1 & Hc1 & _ & Hs1 & Hout & E).
  destruct Hm as (_ & _ & _ & _ & Hcon & Hcon0).
  destruct (manager_exchange_done kMsgMcpDbConnect (db_connect (config_ c) nonce) kMsgConnectResponse
    (m_connect m) rest c1 ctx Hc1 (proj2 Hcon) Hs1) as (inc & Hrest & _ & E1).
  exists (arrived inc (framed kMsgMcpDbConnect (db_connect (config_ c) nonce) c1)). split; [exact Hrest|]. split.
  - rewrite framed_outgoing, Hout. by rewrite <-!app_assoc.
  - rewrite E. unfold manager_open_database. rewrite (bind_done _ _ _ _ _ _ _ E1).
    rewrite !bool_decide_eq_false_2 by (by intros []). guard_off. by rewrite bool_decide_eq_true_2.
Qed.

(** ** The outcome of [connect] *)

(** Nothing of the session is left. *)
Definition closed (c : NetworkClient) : Prop :=
  connected_ c = false ∧ socket_ c = false ∧ tls_conn_ c = false ∧ in_transaction_ c = false ∧
  session_id_ c = replicate 16 Byte.x00 ∧ parameter_status_ c = ∅ ∧ prepared_statements_ c = ∅ ∧
  notifications_ c = [].

(** The outcome of a request that connects or closes. *)
Definition all_or_nothing (m : M Status) : Prop := ∀ c ctx,
  match m c ctx with
  | Done st c' _ => (st = OK → connected_ c' = true) ∧ (st ≠ OK → closed c')
  | _ => True
  end.

Lemma or_disconnect_outcome st k : all_or_nothing k → all_or_nothing (or_disconnect st k).
Proof.
  intros Hk c ctx. unfold or_disconnect. case_bool_decide; [apply Hk|]. cbn. done.
Qed.

Lemma bind_outcome {A} (m : M A) (f : A → M Status) :
  (∀ a, all_or_nothing (f a)) → all_or_nothing (m ≫= f).
Proof.
  intros Hf c ctx. unfold mbind, M_bind. destruct (m c ctx) as [a c' ctx'| |]; [apply Hf|done..].
Qed.

Lemma start_session_outcome `{Crypto} fuel env : all_or_nothing (start_session fuel env).
Proof.
  unfold start_session. apply bind_outcome. intros config. apply bind_outcome. intros st.
  apply or_disconnect_outcome, bind_outcome. intros st'.
  apply or_disconnect_outcome, bind_outcome. intros st''.
  apply or_disconnect_outcome. intros c ctx. cbn. done.
Qed.

(** Setting up TLS failed. *)
Definition tls_failed (env : environment) (config : NetworkClientConfig) : Prop :=
  ssl_mode config ≠ DISABLED ∧ tls env ≠ TlsEstablished.

Lemma establish_tls_outcome `{Crypto} fuel env c ctx :
  match establish_tls fuel env c ctx with
  | Done st c' _ =>
      (st = OK → connected_ c' = true) ∧
      (st ≠ OK → closed c' ∨ tls_failed env (config_ c) ∧ connected_ c' = connected_ c ∧ socket_ c' = socket_ c)
  | _ => True
  end.
Proof.
  unfold establish_tls. unfold mbind at 1, M_bind at 1, get at 1. case_bool_decide as Hssl.
  - unfold mbind at 1, M_bind at 1, modify.
    pose proof (start_session_outcome fuel env (c <| wire := wire c <| tls_active := false |> |>) ctx) as Ho.
    destruct (start_session _ _ _ _); [|done..]. naive_solver.
  - destruct (tls env) eqn:Htls; [by split; [|right; repeat split; rewrite ?Htls]..|].
    unfold mbind at 1, M_bind at 1, modify.
    pose proof (start_session_outcome fuel env
      (c <| tls_conn_ := true |> <| wire := wire c <| tls_active := true |> |>) ctx) as Ho.
    destruct (start_session _ _ _ _); [|done..]. naive_solver.
Qed.

(** What [connect] may return in a session that was not connected. *)
Definition connect_outcome_ok (env : environment) (config : NetworkClientConfig) (c : NetworkClient)
    (r : exec Status) : Prop :=
  match r with
  | Done st c' _ =>
      (st = OK → connected_ c' = true) ∧
      (st ≠ OK → connected_ c' = false ∧ (socket_ c' = true → socket_ c = true ∨ tls_failed env config))
  | _ => True
  end.

Lemma connect_refusal env config c st msg ctx c' :
  st ≠ OK → connected_ c' = false → (socket_ c' = true → socket_ c = true) →
  connect_outcome_ok env config c (fail st msg c' ctx).
Proof. intros Hst Hc Hs. split; [done|]. intros _. split; [done|]. intros H. left. auto. Qed.

(** A session that was not connected. *)
Lemma connect_ends `{Crypto} fuel env config c ctx :
  connected_ c = false →
  connect_outcome_ok env (couple_front_door config) c (connect fuel env config c ctx).
Proof.
  intros Hc. unfold connect. unfold mbind at 1, M_bind at 1, get at 1. rewrite Hc.
  destruct (validate_config config); [|by apply connect_refusal].
  unfold mbind at 1, M_bind at 1, modify at 1.
  destruct (check_credentials _); [|by apply connect_refusal].
  destruct (net_initialized env); cbn [negb]; [|by apply connect_refusal].
  destruct (resolveConnectionAddress _) as [address|]; [|by apply connect_refusal].
  destruct (dial env address) as [[incoming faults]|].
  - unfold mbind at 1, M_bind at 1, modify at 1.
    match goal with |- connect_outcome_ok _ _ _ (establish_tls _ _ ?c1 _) =>
      pose proof (establish_tls_outcome fuel env c1 ctx) as Ho; destruct (establish_tls fuel env c1 ctx) as [st c' ctx'| |] end;
      [|done..].
    destruct Ho as [Ho1 Ho2]. split; [done|]. intros Hst.
    destruct (Ho2 Hst) as [(H1 & H2 & _)|(Htls & H1 & _)].
    + split; [done|]. rewrite H2. done.
    + split; [by rewrite H1|]. intros _. by right.
  - unfold mbind at 1, M_bind at 1, modify at 1. by apply connect_refusal.
Qed.

(** [connect] either succeeds with a connected session, or fails and the
    session is not connected; and when it fails no socket is left open that was
    not open before, unless the TLS handshake is what failed. *)
Theorem connect_outcome `{Crypto} fuel env config c ctx :
  connected_ c = false →
  connect_outcome_ok env (couple_front_door config) c (connect fuel env config c ctx).
Proof.
  apply connect_ends.
Qed.

(** A failed TLS handshake leaves the socket open. *)
Lemma tls_failure_keeps_socket `{Crypto} fuel env c ctx :
  ssl_mode (config_ c) ≠ DISABLED → tls env = TlsHandshakeFailed → socket_ c = true →
  ∃ c' ctx', establish_tls fuel env c ctx = Done CONNECTION_FAILURE c' ctx' ∧ socket_ c' = true.
Proof.
  intros Hssl Htls Hs. unfold establish_tls. rewrite (bind_done _ _ _ _ (config_ c) c ctx) by done.
  rewrite bool_decide_eq_false_2, Htls by done. eexists. eexists. by split.
Qed.

(** ** Termination *)

Lemma halts_read_exact n size : halts n (read_exact size).
Proof.
  intros c ctx _. unfold read_exact, readExactWithTimeout.
  destruct (read_arrivals _ _ _ _) as [[[st got] ctx'] rest] eqn:E. apply read_arrivals_pending in E. apply E.
Qed.

Lemma halts_sendManagerFrame n t p : halts n (sendManagerFrame t p).
Proof.
  intros c ctx _. unfold sendManagerFrame, write_all. destruct (live c); cbn [negb]; [|done].
  destruct (write_faults (wire c)) as [|[] ?]; apply Z.le_refl.
Qed.

#[export] Hint Resolve halts_read_exact halts_sendManagerFrame : halts.

Lemma halts_no_frame n st msg : halts n (no_frame st msg).
Proof. unfold no_frame. halts. Qed.

#[export] Hint Resolve halts_no_frame : halts.

Lemma halts_receiveManagerFrame n : halts n receiveManagerFrame.
Proof. unfold receiveManagerFrame. halts. Qed.

#[export] Hint Resolve halts_receiveManagerFrame : halts.

Lemma halts_manager_exchange n t p : halts n (manager_exchange t p).
Proof. unfold manager_exchange. halts. Qed.

#[export] Hint Resolve halts_manager_exchange : halts.

(** [fail] without a search. *)
Ltac halts_cases :=
  repeat first
    [ match goal with |- ∀ _, _ => intro end
    | apply halts_fail | apply halts_ret | apply halts_get
    | match goal with |- halts _ (if ?b then _ else _) => destruct b end ].

Lemma halts_manager_open_database n config random : halts n (manager_open_database config random).
Proof.
  unfold manager_open_database. destruct random as [nonce|]; [|apply halts_fail].
  apply halts_bind; [apply halts_manager_exchange|]. intros [[st t] p]. halts_cases.
Qed.

Lemma halts_performManagerConnect n random : halts n (performManagerConnect random).
Proof.
  unfold performManagerConnect. apply halts_bind; [apply halts_get|]. intros config. halts_cases.
  apply halts_bind; [apply halts_manager_exchange|]. intros [[st t] p]. halts_cases.
  apply halts_bind; [apply halts_manager_exchange|]. intros [[st' t'] p']. halts_cases.
  apply halts_bind.
  { case_bool_decide; [apply halts_manager_exchange|apply halts_ret]. }
  intros [[st2 t2] p2]. halts_cases. apply halts_bind.
  { unfold parseAuthResponseStatus. halts_cases. apply halts_bind; halts_cases. }
  intros [st3 e]. halts_cases. apply halts_manager_open_database.
Qed.

Lemma halts_respond n p : halts n (respond p).
Proof. unfold respond. halts. Qed.

Lemma halts_modify_session n a : halts n (modify (λ c, c <| session_id_ := a |>)).
Proof. by apply halts_modify. Qed.

(** An answer, then the loop goes on. *)
Lemma halts_answer n p (k : M Status) : halts n k →
  halts n (status ← respond p; if bool_decide (status = OK) then k else mret status).
Proof. intros Hk. apply halts_bind; [apply halts_respond|]. intros st. by case_bool_decide; [|apply halts_ret]. Qed.

Lemma halts_mapProtocolError n msg : halts n (mapProtocolError msg).
Proof. unfold mapProtocolError. halts. Qed.

Lemma halts_handshake_loop `{Crypto} random n : ∀ draws scram, halts n (handshake_loop n random draws scram).
Proof.
  induction n as [|n IH]; intros draws scram.
  { intros c ctx Hp. pose proof (pending_nonneg (incoming (wire c))). lia. }
  cbn [handshake_loop].
  intros c ctx Hp. unfold mbind at 1, M_bind at 1, get at 1. revert c ctx Hp.
  intros c ctx Hp. generalize (config_ c). intros config. revert c ctx Hp.
  match goal with |- ∀ c ctx, _ → match ?m c ctx with _ => _ end => change (halts (S n) m) end.
  apply halts_receive.
  { intros st m Hst. rewrite bool_decide_eq_true_2 by done. apply halts_ret. }
  intros msg. rewrite bool_decide_eq_false_2 by (by intros []).
  apply halts_bind; [apply halts_absorbed|]. intros []; [done|].
  destruct (is_type MessageType.NegotiateVersion msg); [done|].
  destruct (is_type MessageType.AuthRequest msg).
  { apply halts_bind; [apply halts_parse|]. intros [[st method] data]. halts_cases; try done.
    - by apply halts_answer.
    - destruct (clientFirst _ _ _). by apply halts_answer.
    - by apply halts_answer. }
  destruct (is_type MessageType.AuthContinue msg).
  { apply halts_bind; [apply halts_parse|]. intros [[[st method] stage] data]. halts_cases; try done.
    - destruct scram as [s|]; [|apply halts_fail]. destruct (handleServerFirst _ _ _) as [[f s']|e];
        [by apply halts_answer|apply halts_fail].
    - by apply halts_answer. }
  destruct (is_type MessageType.AuthOk msg).
  { apply halts_bind; [apply halts_parse|]. intros [[st se] info]. halts_cases.
    apply halts_bind; [apply halts_modify_session|]. intros []. destruct scram; halts_cases; done. }
  destruct (is_type MessageType.Ready msg); [apply halts_ready|].
  destruct (is_type MessageType.Error msg); [apply halts_mapProtocolError|done].
Qed.

Lemma halts_handshake `{Crypto} n random : halts n (handshake n random).
Proof.
  unfold handshake. apply halts_bind; [by apply halts_modify|]. intros [].
  apply halts_bind; [apply halts_get|]. intros config. destruct (hasPinningOverlap _ _); [apply halts_fail|].
  apply halts_bind; [apply halts_lift|]. intros p. apply halts_bind; [apply halts_sendMessage|].
  intros [st seq]. halts_cases. apply halts_handshake_loop.
Qed.

Lemma halts_executeQuery n sql : halts n (executeQuery n sql).
Proof. unfold executeQuery, no_reply. halts. Qed.

(** After a failure nothing is received any more. *)
Lemma halts_or_disconnect n st k : halts n k → halts n (or_disconnect st k).
Proof.
  intros Hk. unfold or_disconnect. case_bool_decide; [done|].
  intros c ctx _. exact (pending_nonneg (incoming (wire c))).
Qed.

Lemma halts_start_session `{Crypto} n env : halts n (start_session n env).
Proof.
  unfold start_session. apply halts_bind; [apply halts_get|]. intros config. apply halts_bind.
  { destruct (isManagerProxyMode _); [apply halts_performManagerConnect|apply halts_ret]. }
  intros st. apply halts_or_disconnect, halts_bind; [apply halts_handshake|].
  intros st'. apply halts_or_disconnect, halts_bind.
  { case_bool_decide; [apply halts_ret|]. apply halts_bind; [apply halts_executeQuery|]. intros []. apply halts_ret. }
  intros st''. apply halts_or_disconnect, halts_bind; [by apply halts_modify|]. intros []. apply halts_ret.
Qed.

(** Changes of the session that leave what has still to arrive. *)
Lemma halts_modify_incoming n f : (∀ c, incoming (wire (f c)) = incoming (wire c)) → halts n (modify f).
Proof. intros H c ctx _. unfold modify. apply Z.eq_le_incl. exact (f_equal pending (H c)). Qed.

Lemma halts_establish_tls `{Crypto} n env : halts n (establish_tls n env).
Proof.
  unfold establish_tls. apply halts_bind; [apply halts_get|]. intros config. case_bool_decide.
  - apply halts_bind; [by apply halts_modify_incoming|]. intros []. apply halts_start_session.
  - destruct (tls env); [apply halts_fail|..];
      (apply halts_bind; [by apply halts_modify_incoming|]); intros [];
      [apply halts_fail..|apply halts_start_session].
Qed.

(** A connection attempt ends: with fuel for the bytes the dialled peer will
    send, whatever they are, it returns. *)
Theorem connect_terminates `{Crypto} fuel env config c ctx :
  (∀ address incoming faults, dial env address = Some (incoming, faults) →
     pending incoming < 40 * Z.of_nat fuel) →
  connect fuel env config c ctx ≠ NoFuel.
Proof.
  intros Hdial. unfold connect. unfold mbind at 1, M_bind at 1, get at 1. destruct (connected_ c); [done|].
  destruct (validate_config config); [|done]. unfold mbind at 1, M_bind at 1, modify at 1.
  destruct (check_credentials _); [|done]. destruct (net_initialized env); cbn [negb]; [|done].
  destruct (resolveConnectionAddress _) as [address|]; [|done].
  destruct (dial env address) as [[incoming faults]|] eqn:Hd; [|done].
  unfold mbind at 1, M_bind at 1, modify at 1.
  match goal with |- establish_tls _ _ ?c1 _ ≠ _ =>
    pose proof (halts_establish_tls fuel env c1 ctx (Hdial _ _ _ Hd)) as Hh;
    destruct (establish_tls fuel env c1 ctx) end; done.
Qed.

(** ** The configuration that is kept *)

(** The four cases. *)
Lemma couple_cases config :
  couple_front_door config =
    match isManagedTransport (transport_mode config), isManagerProxyMode (front_door_mode config) with
    | true, false => config <| front_door_mode := ("manager_proxy" : bytes) |>
    | false, true => config <| transport_mode := ("managed" : bytes) |>
    | _, _ => config
    end.
Proof.
  unfold couple_front_door. destruct (isManagedTransport (transport_mode config)) eqn:Ht,
    (isManagerProxyMode (front_door_mode config)) eqn:Hf; cbn [negb andb].
  - by rewrite Ht, Hf.
  - change (transport_mode (config <| front_door_mode := ("manager_proxy" : bytes) |>)) with (transport_mode config).
    by rewrite Ht, andb_false_r.
  - by rewrite Ht, Hf.
  - by rewrite Hf.
Qed.

(** The configuration a connection is made with is consistent: the manager's
    front door exactly with the managed transport, whichever of the two was
    asked for; coupling changes nothing else and nothing twice. *)
Theorem front_door_coupled config :
  let config' := couple_front_door config in
  isManagerProxyMode (front_door_mode config') = isManagedTransport (transport_mode config') ∧
  isManagerProxyMode (front_door_mode config') =
    isManagerProxyMode (front_door_mode config) || isManagedTransport (transport_mode config) ∧
  config' = config <| front_door_mode := front_door_mode config' |> <| transport_mode := transport_mode config' |> ∧
  couple_front_door config' = config'.
Proof.
  set (m := ("manager_proxy" : bytes)). set (t := ("managed" : bytes)).
  assert (Em : isManagerProxyMode m = true) by reflexivity.
  assert (Et : isManagedTransport t = true) by reflexivity.
  pose proof (couple_cases config) as E. pose proof (couple_cases (couple_front_door config)) as E'. cbn zeta.
  rewrite E in E' |- *.
  destruct (isManagedTransport (transport_mode config)) eqn:Ht, (isManagerProxyMode (front_door_mode config)) eqn:Hf;
    rewrite ?Ht, ?Hf in E'; rewrite ?Ht, ?Hf.
  - split_and!; try done; by destruct config.
  - change (transport_mode (config <| front_door_mode := _ |>)) with (transport_mode config) in *.
    change (front_door_mode (config <| front_door_mode := _ |>)) with m in *.
    rewrite Ht, Em in *. split_and!; try done; by destruct config.
  - change (transport_mode (config <| transport_mode := _ |>)) with t in *.
    change (front_door_mode (config <| transport_mode := _ |>)) with (front_door_mode config) in *.
    rewrite Hf, Et in *. split_and!; try done; by destruct config.
  - split_and!; try done; by destruct config.
Qed.

(** ** The schema statement *)

(** The schemas that are asked for. *)
Definition requested_schemas (schema : bytes) : list bytes :=
  let trimmed := trim_schema schema in
  if bool_decide (trimmed = []) then []
  else match find_byte ","%byte trimmed with
  | None => [trimmed]
  | Some _ => schema_parts trimmed
  end.

(** A reader of the statement: the quoted names it selects, and what follows. *)
Definition read_schema_statement (s : bytes) : option (list (list bytes) * bytes) :=
  match strip_prefix "SET SCHEMA " s with
  | Some r => read_paths (length s) r
  | None => r ← strip_prefix "SET SEARCH_PATH TO " s; read_paths (length s) r
  end.

Lemma double_char_free q s : q ∉ s → double_char q s = s.
Proof.
  induction s as [|b s IH]; [done|]. intros [Hb Hs]%not_elem_of_cons. cbn [double_char].
  rewrite bool_decide_eq_false_2 by done. by rewrite IH.
Qed.

Lemma quoted_path s : dquote ∉ s → quoted s = path_text [s].
Proof.
  intros H. unfold path_text, quote_identifier_component, quote_with, quoted. cbn [fmap list_fmap join_with].
  by rewrite double_char_free.
Qed.

Lemma quoted_paths ps : Forall (λ p, dquote ∉ p) ps → quoted <$> ps = path_text <$> ((λ p, [p]) <$> ps).
Proof.
  induction 1 as [|p ps Hp _ IH]; [done|]. rewrite !fmap_cons. by rewrite quoted_path, IH by done.
Qed.

Lemma read_quoted_list ps n : ps ≠ [] → Forall (λ p, dquote ∉ p) ps → (length ps <= n)%nat →
  read_paths n (join_with [","; " "]%byte (quoted <$> ps)) = Some ((λ p, [p]) <$> ps, []).
Proof.
  intros Hne Hq Hn. rewrite quoted_paths by done.
  rewrite <-(app_nil_r (join_with _ _)).
  apply (read_paths_text ((λ p, [p]) <$> ps) n []).
  - by destruct ps.
  - apply Forall_fmap, Forall_true. done.
  - by rewrite length_fmap.
  - by repeat split.
Qed.

Lemma requested_schemas_free schema : dquote ∉ schema → Forall (λ p, dquote ∉ p) (requested_schemas schema).
Proof.
  intros H. assert (Ht : dquote ∉ trim_schema schema) by (intros Hin; apply H; by apply trim_with_elem in Hin).
  unfold requested_schemas. case_bool_decide; [constructor|]. destruct (find_byte _ _); [|by repeat constructor].
  unfold schema_parts. apply Forall_forall. intros p (_ & Hp)%list_elem_of_filter Hin.
  apply list_elem_of_fmap in Hp as (q & -> & Hq). apply trim_with_elem in Hin.
  apply Ht. by apply (split_on_subset ","%byte _ q).
Qed.

Lemma length_join_quoted ps : (length ps <= length (join_with [","; " "]%byte (quoted <$> ps)))%nat.
Proof. rewrite <-(length_fmap quoted ps). apply length_join, Forall_fmap, Forall_true. done. Qed.

(** For a schema text without double quotes, the statement is empty or selects
    exactly the schemas that were asked for, in order, and says nothing more. *)
Theorem schema_statement_reads_back schema :
  dquote ∉ schema → requested_schemas schema ≠ [] →
  read_schema_statement (buildSchemaStatement schema) = Some ((λ p, [p]) <$> requested_schemas schema, []).
Proof.
  intros Hq Hne. pose proof (requested_schemas_free schema Hq) as Hfree. revert Hne Hfree.
  unfold requested_schemas, buildSchemaStatement. case_bool_decide; [done|]. intros Hne Hfree.
  unfold read_schema_statement. destruct (find_byte _ _).
  - assert (E : ∀ r, strip_prefix "SET SCHEMA " (("SET SEARCH_PATH TO " : bytes) ++ r) = None) by reflexivity.
    rewrite E, strip_prefix_app. cbn [mbind option_bind]. apply read_quoted_list; [done|done|].
    rewrite length_app. pose proof (length_join_quoted (schema_parts (trim_schema schema))). lia.
  - rewrite strip_prefix_app.
    change (quoted (trim_schema schema)) with (join_with [","; " "]%byte (quoted <$> [trim_schema schema])).
    apply read_quoted_list; [done|done|]. rewrite length_app. cbn. lia.
Qed.

Lemma schema_statement_reads_back_witness :
  read_schema_statement (buildSchemaStatement " app, , audit ") = Some ([[("app" : bytes)]; [("audit" : bytes)]], []).
Proof.
  apply (schema_statement_reads_back " app, , audit "); [by_evaluation|discriminate].
Defined.

(** A double quote is not doubled: it ends the name, and the rest of the schema
    is SQL. *)
Example schema_statement_injection :
  read_schema_statement (buildSchemaStatement (("a" : bytes) ++ [dquote] ++ ("; DROP SCHEMA b" : bytes))) =
    Some ([[("a" : bytes)]], ("; DROP SCHEMA b" : bytes) ++ [dquote]).
Proof. vm_compute. reflexivity. Qed.

(** ** Samples *)

Definition sample_manager : manager_script :=
  mkManager [] (Some ("?" : bytes)) (zeros 261) (zeros 117).

Definition managed_login : NetworkClientConfig :=
  default_config <| front_door_mode := ("manager_proxy" : bytes) |> <| manager_auth_token := ("token" : bytes) |>.

Lemma manager_connect_completes_witness :
  let bs := encode_manager sample_manager ++ "next" in
  let c := sample_session bs <| config_ := managed_login |> in
  ∃ c', stream (incoming (wire c')) "next" ∧
    performManagerConnect (Some (zeros 16)) c None = Done OK c' None.
Proof.
  intros bs c.
  assert (Hlen : (50 < length bs)%nat) by by_evaluation.
  assert (Hm : wf_manager sample_manager) by (unfold wf_manager; by_evaluation).
  destruct (manager_connect_completes sample_manager (zeros 16) c None "next") as (c' & Hs & _ & E);
    [by split|exact Hm|discriminate|exact (sample_stream bs Hlen)|].
  exists c'. split; [exact Hs|exact E].
Defined.

Definition sample_environment : environment :=
  mkEnvironment true (λ _, Some ([], [])) TlsHandshakeFailed None (λ _, None).

Lemma connect_outcome_witness :
  let c := sample_session [] <| connected_ := false |> <| socket_ := false |> in
  connect_outcome_ok sample_environment (couple_front_door default_config) c
    (@connect letter_crypto 5 sample_environment default_config c None) ∧
  ∃ c', @connect letter_crypto 5 sample_environment default_config c None = Done CONNECTION_FAILURE c' None ∧
    socket_ c' = true.
Proof.
  intros c. split.
  - apply (@connect_outcome letter_crypto 5 sample_environment default_config c None). reflexivity.
  - assert (H : match @connect letter_crypto 5 sample_environment default_config c None with
                | Done st c' None => st = CONNECTION_FAILURE ∧ socket_ c' = true
                | _ => False
                end) by (vm_compute; split; reflexivity).
    destruct (@connect letter_crypto 5 sample_environment default_config c None) as [st c' [ctx|]| |];
      [destruct H| |destruct H|destruct H].
    destruct H as [-> Hs]. exists c'. split; [reflexivity|exact Hs].
Defined.

Lemma connect_terminates_witness :
  @connect letter_crypto 1 sample_environment default_config (sample_session []) None ≠ NoFuel.
Proof.
  apply (@connect_terminates letter_crypto 1 sample_environment default_config (sample_session []) None).
  intros address incoming faults [= <- <-]. reflexivity.
Defined.
