(* ===== verification/Client.v ===== *)
(** * Client API: error codes and the error out-parameter

    The part of [include/scratchbird/client/scratchbird_client.h] shared by the
    components built on the C API, and the [set_error] and [copy_error] helpers
    of [src/pool.cpp]. A pointer that may be null is an [option]. *)

From S2P Require Import Prelude.

Inductive sb_error_code :=
  | SB_OK
  | SB_ERR_CONNECTION_FAILED
  | SB_ERR_AUTH_FAILED
  | SB_ERR_SSL_FAILED
  | SB_ERR_TIMEOUT
  | SB_ERR_DISCONNECTED
  | SB_ERR_PROTOCOL
  | SB_ERR_SYNTAX
  | SB_ERR_CONSTRAINT
  | SB_ERR_TYPE_MISMATCH
  | SB_ERR_TXN_CONFLICT
  | SB_ERR_DEADLOCK
  | SB_ERR_SERIALIZATION
  | SB_ERR_TXN_ABORTED
  | SB_ERR_NO_ACTIVE_TXN
  | SB_ERR_OUT_OF_MEMORY
  | SB_ERR_DISK_FULL
  | SB_ERR_TOO_MANY_CONNECTIONS
  | SB_ERR_RESOURCE_BUSY
  | SB_ERR_INVALID_HANDLE
  | SB_ERR_INVALID_PARAM
  | SB_ERR_PARAM_COUNT
  | SB_ERR_NULL_POINTER
  | SB_ERR_INVALID_STATE
  | SB_ERR_ALREADY_CONNECTED
  | SB_ERR_NOT_CONNECTED
  | SB_ERR_RESULT_EXHAUSTED
  | SB_ERR_STATEMENT_CLOSED
  | SB_ERR_NOT_IMPLEMENTED
  | SB_ERR_UNKNOWN.

#[export] Instance sb_error_code_eq_dec : EqDecision sb_error_code.
Proof. solve_decision. Defined.

(** The message is a [char[256]]. *)
Record sb_error := mkError { code : sb_error_code; message : bytes }.

(** [sb_error err{};] *)
Definition no_error : sb_error := mkError SB_OK [].

(** [snprintf] into the message truncates at 255 bytes. *)
Definition set_error (err : option sb_error) (c : sb_error_code) (msg : bytes) : option sb_error :=
  (λ _, mkError c (take 255 msg)) <$> err.

Definition copy_error (dst : option sb_error) (src : sb_error) : option sb_error :=
  (λ _, src) <$> dst.

(** A non-null pointer to an object of the client library, standing for the
    allocation itself: two allocations never have the same handle. *)
Definition handle := Z.
