(* ===== verification/Keepalive.v ===== *)
(** * Keepalive manager

    Models [src/keepalive.cpp] and [include/scratchbird/client/keepalive.h]: the
    trackers of the monitored connections, kept at addresses of a heap since
    callers and the worker hold raw pointers to them, and the rounds of the
    worker, which validates connections that were idle for too long. The mutex
    protects the two maps only: a round copies them and goes on without it. *)

From S2P Require Import Prelude.
From S2P Require Import Client.
From S2P Require Import Worker.

(** ** Data *)

Record sb_keepalive_config := mkConfig {
  interval_ms : Z;
  max_idle_before_check_ms : Z;
  validation_timeout_ms : Z
}.

Definition sb_keepalive_config_default : sb_keepalive_config := mkConfig 120000 600000 5000.

(** An address names an allocation: it is never used again. *)
Abbreviation address := Z.

(** [heap] has [last_activity_] of every tracker that is allocated; the
    trackers refer to the configuration of their manager. *)
Record KeepaliveManager := mkManager {
  config_ : sb_keepalive_config;
  trackers_ : gmap bytes address;
  connections_ : gmap bytes handle;
  worker_ : worker;
  heap : gmap address Z;
  next_address : address
}.

#[export] Instance KeepaliveManager_eta : Eta KeepaliveManager :=
  λ m, mkManager (config_ m) (trackers_ m) (connections_ m) (worker_ m) (heap m) (next_address m).

Definition new_manager (config : sb_keepalive_config) : KeepaliveManager := mkManager config ∅ ∅ new_worker ∅ 1.

(** ** Trackers *)

(** A member of a tracker that was destroyed is read or written. *)
Definition last_activity (a : address) (m : KeepaliveManager) : outcome Z :=
  match heap m !! a with Some t => Ret t | None => UB end.

Definition MarkActive (now : Z) (a : address) (m : KeepaliveManager) : outcome KeepaliveManager :=
  _ ← last_activity a m; Ret (m <| heap := <[a := now]> (heap m) |>).

(** The milliseconds are compared as signed 64-bit integers. *)
Definition NeedsValidation (now : Z) (a : address) (m : KeepaliveManager) : outcome bool :=
  t ← last_activity a m; Ret (max_idle_before_check_ms (config_ m) <? milliseconds_of (now - t)).

Definition GetIdleDuration (now : Z) (a : address) (m : KeepaliveManager) : outcome Z :=
  t ← last_activity a m; Ret (milliseconds_of (now - t)).

(** ** The manager *)

Definition Start (m : KeepaliveManager) : KeepaliveManager := m <| worker_ := Worker.Start (worker_ m) |>.
Definition Stop (m : KeepaliveManager) : KeepaliveManager := m <| worker_ := Worker.Stop (worker_ m) |>.

(** The tracker that a [unique_ptr] of the map owned is destroyed. *)
Definition destroy_tracker (a : option address) (h : gmap address Z) : gmap address Z :=
  match a with Some a => delete a h | None => h end.

Definition Register (now : Z) (connection_id : bytes) (conn : handle) (m : KeepaliveManager) : address * KeepaliveManager :=
  let ptr := next_address m in
  (ptr,
   m <| heap := destroy_tracker (trackers_ m !! connection_id) (<[ptr := now]> (heap m)) |>
     <| next_address := ptr + 1 |>
     <| trackers_ := <[connection_id := ptr]> (trackers_ m) |>
     <| connections_ := <[connection_id := conn]> (connections_ m) |>).

Definition Unregister (connection_id : bytes) (m : KeepaliveManager) : KeepaliveManager :=
  m <| heap := destroy_tracker (trackers_ m !! connection_id) (heap m) |>
    <| trackers_ := delete connection_id (trackers_ m) |>
    <| connections_ := delete connection_id (connections_ m) |>.

Definition GetMonitoredCount (m : KeepaliveManager) : Z := Z.of_nat (size (trackers_ m)).

(** ** A round of the worker

    [ValidateConnection] is [sb_is_healthy]; [clock] gives the readings of the
    clock around the validation of each connection. *)
Section Round.
  Context (is_healthy : handle → bool) (clock : bytes → Z * Z).

Definition check_tracker (conns : gmap bytes handle) (m : KeepaliveManager) (p : bytes * address) : outcome KeepaliveManager :=
  needs ← NeedsValidation (clock p.1).1 p.2 m;
  if needs : bool then
    match conns !! p.1 with
    | Some conn => if is_healthy conn then MarkActive (clock p.1).2 p.2 m else Ret m
    | None => Ret m
    end
  else Ret m.

(** The copies, then the loop over them. *)
Definition check_connections (m : KeepaliveManager) : outcome KeepaliveManager :=
  foldM (check_tracker (connections_ m)) m (std_map_items (trackers_ m)).

(** One turn of [CheckLoop]; [stop] as for the leak detector. *)
Definition check_round (stop : nat → bool) (m : KeepaliveManager) : option (list Z * outcome KeepaliveManager) :=
  if stop 0%nat then None else
  let slices := wait (interval_ms (config_ m)) (λ n, stop (S n)) in
  if stop (S (S (length slices))) then None else Some (slices, check_connections m).
End Round.

(** ** The C API: null pointers are ignored *)

Definition sb_keepalive_manager_create (config : option sb_keepalive_config) : KeepaliveManager :=
  new_manager (default sb_keepalive_config_default config).

(** The worker is stopped before the members are destroyed. *)
Definition sb_keepalive_manager_destroy (m : option KeepaliveManager) : option KeepaliveManager := Stop <$> m.

Definition sb_keepalive_manager_start (m : option KeepaliveManager) : option KeepaliveManager := Start <$> m.
Definition sb_keepalive_manager_stop (m : option KeepaliveManager) : option KeepaliveManager := Stop <$> m.

Definition sb_keepalive_register (now : Z) (m : option KeepaliveManager) (conn_id : option bytes) (conn : option handle)
    : option KeepaliveManager :=
  match m, conn_id, conn with
  | Some m, Some conn_id, Some conn => Some (Register now conn_id conn m).2
  | _, _, _ => m
  end.

Definition sb_keepalive_unregister (m : option KeepaliveManager) (conn_id : option bytes) : option KeepaliveManager :=
  match m, conn_id with Some m, Some conn_id => Some (Unregister conn_id m) | _, _ => m end.

Definition sb_keepalive_get_count (m : option KeepaliveManager) : Z :=
  match m with Some m => GetMonitoredCount m | None => 0 end.

(** ** Rounds and other threads

    Where the worker stands: between rounds, about to check the next of its
    copies, or about to mark the tracker of a connection that it validated. *)
Inductive position :=
  | Idle
  | Checking (rest : list (bytes * address)) (conns : gmap bytes handle)
  | Validated (a : address) (rest : list (bytes * address)) (conns : gmap bytes handle).

(** What the worker does next with the first of its copies: [ok] is the answer of
    the validation. *)
Definition after_check (needs : bool) (conn : option handle) (ok : bool) (a : address) (rest : list (bytes * address))
    (conns : gmap bytes handle) : position :=
  if needs && bool_decide (is_Some conn) && ok then Validated a rest conns else Checking rest conns.

(** [None] is undefined behaviour. *)
Inductive kstep : option (KeepaliveManager * position) → option (KeepaliveManager * position) → Prop :=
  | kregister now id conn m p : kstep (Some (m, p)) (Some ((Register now id conn m).2, p))
  | kunregister id m p : kstep (Some (m, p)) (Some (Unregister id m, p))
  | kcopy m : kstep (Some (m, Idle)) (Some (m, Checking (std_map_items (trackers_ m)) (connections_ m)))
  | kcheck now id a rest conns needs ok m :
      NeedsValidation now a m = Ret needs →
      kstep (Some (m, Checking ((id, a) :: rest) conns)) (Some (m, after_check needs (conns !! id) ok a rest conns))
  | kcheck_UB now id a rest conns m :
      NeedsValidation now a m = UB → kstep (Some (m, Checking ((id, a) :: rest) conns)) None
  | kmark now a rest conns m m' :
      MarkActive now a m = Ret m' → kstep (Some (m, Validated a rest conns)) (Some (m', Checking rest conns))
  | kmark_UB now a rest conns m : MarkActive now a m = UB → kstep (Some (m, Validated a rest conns)) None
  | kend conns m : kstep (Some (m, Checking [] conns)) (Some (m, Idle)).

(** The calls that destroy a tracker while a round is open. *)
Definition calm (s s' : option (KeepaliveManager * position)) : Prop :=
  match s, s' with
  | Some (m, p), Some (m', _) => p = Idle ∨ (∀ id a, trackers_ m !! id = Some a → trackers_ m' !! id = Some a)
  | _, _ => True
  end.

(** ** Well-formed managers *)

(** The trackers of the map are the allocated ones, each with one connection. *)
Record kwf (m : KeepaliveManager) : Prop := {
  kwf_live id a : trackers_ m !! id = Some a → is_Some (heap m !! a);
  kwf_inj id id' a : trackers_ m !! id = Some a → trackers_ m !! id' = Some a → id = id';
  kwf_owned a : is_Some (heap m !! a) → a < next_address m ∧ ∃ id, trackers_ m !! id = Some a;
  kwf_dom id : is_Some (trackers_ m !! id) ↔ is_Some (connections_ m !! id)
}.

Lemma new_manager_wf config : kwf (new_manager config).
Proof. split; cbn; intros *; rewrite ?lookup_empty; [done|done|by intros []|done]. Qed.

Lemma Unregister_wf id m : kwf m → kwf (Unregister id m).
Proof.
  intros [H1 H2 H3 H4]. unfold Unregister. split; cbn.
  - intros i a [Hne Hi]%lookup_delete_Some. destruct (trackers_ m !! id) as [b|] eqn:E; cbn; [|by eapply H1].
    rewrite lookup_delete_ne; [by eapply H1|]. intros ->. by destruct Hne; apply (H2 id i a).
  - intros i j a [_ Hi]%lookup_delete_Some [_ Hj]%lookup_delete_Some. by apply (H2 i j a).
  - intros a. destruct (trackers_ m !! id) as [b|] eqn:E; cbn.
    + intros [t [Hne Ht]%lookup_delete_Some]. destruct (H3 a) as (Ha & i & Hi); [by eexists|].
      split; [done|]. exists i. apply lookup_delete_Some. split; [|done]. intros ->. congruence.
    + intros (Ha & i & Hi)%H3. split; [done|]. exists i. apply lookup_delete_Some. split; [|done]. intros ->. congruence.
  - intros i. destruct (decide (i = id)) as [->|Hne]; [by rewrite !lookup_delete_eq|].
    rewrite !lookup_delete_ne by done. apply H4.
Qed.

Lemma Register_wf now id conn m : kwf m → kwf (Register now id conn m).2.
Proof.
  intros [H1 H2 H3 H4]. assert (Hfresh : ∀ i, trackers_ m !! i ≠ Some (next_address m)).
  { intros i Hi. destruct (H3 _ (H1 _ _ Hi)). lia. }
  assert (Hold : ∀ a, is_Some (destroy_tracker (trackers_ m !! id) (<[next_address m := now]> (heap m)) !! a) ↔
    a = next_address m ∨ (is_Some (heap m !! a) ∧ trackers_ m !! id ≠ Some a)).
  { intros a. assert (is_Some (<[next_address m := now]> (heap m) !! a) ↔ a = next_address m ∨ is_Some (heap m !! a)) as Hi.
    { rewrite lookup_insert_is_Some. destruct (decide (next_address m = a)); naive_solver. }
    destruct (trackers_ m !! id) as [b|] eqn:E; cbn; [|rewrite Hi; naive_solver].
    rewrite lookup_delete_is_Some, Hi. pose proof (Hfresh id). naive_solver. }
  unfold Register. split; cbn.
  - intros i a. rewrite Hold. intros [[-> <-]|[Hne Hi]]%lookup_insert_Some; [by left|]. right.
    split; [by eapply H1|]. intros E. by destruct Hne; apply (H2 id i a).
  - intros i j a. rewrite !lookup_insert_Some. pose proof (Hfresh i). pose proof (Hfresh j). pose proof (H2 i j a). naive_solver.
  - intros a [->|[(Ha & i & Hi)%H3 Hne]]%Hold; (split; [lia|]); [exists id; apply lookup_insert_eq|].
    exists i. rewrite lookup_insert_ne; [done|]. congruence.
  - intros i. rewrite !lookup_insert_is_Some. specialize (H4 i). naive_solver.
Qed.

(** ** A round alone *)

Section RoundSpec.
  Context (is_healthy : handle → bool) (clock : bytes → Z * Z).

(** What a round does to a tracker whose last activity was at [t]. *)
Definition after_round (m : KeepaliveManager) (id : bytes) (t : Z) : Z :=
  if (max_idle_before_check_ms (config_ m) <? milliseconds_of ((clock id).1 - t)) &&
     from_option is_healthy false (connections_ m !! id)
  then (clock id).2 else t.

Lemma check_tracker_done conns m id a t :
  heap m !! a = Some t → conns = connections_ m →
  check_tracker is_healthy clock conns m (id, a) = Ret (m <| heap := <[a := after_round m id t]> (heap m) |>).
Proof.
  intros Ht ->. unfold check_tracker, NeedsValidation, MarkActive, last_activity, after_round. cbn -[milliseconds_of].
  rewrite Ht. cbn -[milliseconds_of].
  assert (Hsame : m = m <| heap := <[a := t]> (heap m) |>) by (rewrite insert_id by done; by destruct m).
  destruct (_ <? _); [|exact (f_equal Ret Hsame)]. destruct (connections_ m !! id) as [c|]; cbn; [|exact (f_equal Ret Hsame)].
  destruct (is_healthy c); [done|exact (f_equal Ret Hsame)].
Qed.

Lemma check_loop_spec l : ∀ m, NoDup l.*2 → (∀ id a, (id, a) ∈ l → is_Some (heap m !! a)) →
  ∃ h, foldM (check_tracker is_healthy clock (connections_ m)) m l = Ret (m <| heap := h |>) ∧
    rtc kstep (Some (m, Checking l (connections_ m))) (Some (m <| heap := h |>, Checking [] (connections_ m))) ∧
    (∀ a, a ∉ l.*2 → h !! a = heap m !! a) ∧
    (∀ id a t, (id, a) ∈ l → heap m !! a = Some t → h !! a = Some (after_round m id t)).
Proof.
  induction l as [|[id a] l IH]; intros m Hnd Hlive.
  - exists (heap m). destruct m. split_and!; [done|apply rtc_refl|done|]. intros ??? []%not_elem_of_nil.
  - apply NoDup_cons in Hnd as [Hna Hnd]. destruct (Hlive id a) as [t Ht]; [by left|].
    set (m1 := m <| heap := <[a := after_round m id t]> (heap m) |>).
    assert (Ha : ∀ b, b ∈ l.*2 → heap m1 !! b = heap m !! b).
    { intros b Hb. cbn. rewrite lookup_insert_ne; [done|]. by intros ->. }
    destruct (IH m1) as (h & E & Hr & H1 & H2); [done| |].
    { intros i b Hb. rewrite Ha by (apply list_elem_of_fmap; by exists (i, b)). apply (Hlive i). by right. }
    exists h. split_and!.
    + cbn [foldM]. rewrite (check_tracker_done _ m id a t) by done. exact E.
    + etrans; [|exact Hr].
      eapply rtc_l.
      { eapply (kcheck (clock id).1 id a _ _ _ (from_option is_healthy false (connections_ m !! id))).
        unfold NeedsValidation, last_activity. by rewrite Ht. }
      unfold after_check. subst m1. cbn [connections_]. unfold after_round.
      destruct (_ <? _); cbn; [destruct (connections_ m !! id) as [c|]; cbn; [destruct (is_healthy c); cbn|]|];
        try (rewrite insert_id by done; destruct m; apply rtc_refl).
      eapply rtc_once, (kmark (clock id).2). unfold MarkActive, last_activity. by rewrite Ht.
    + intros b [Hne Hb]%not_elem_of_cons. rewrite H1 by done. cbn. by rewrite lookup_insert_ne by done.
    + intros i b u [[= -> ->]|Hin]%elem_of_cons Hu.
      * rewrite H1 by done. cbn. rewrite lookup_insert_eq. congruence.
      * assert (b ∈ l.*2) by (apply list_elem_of_fmap; by exists (i, b)). rewrite (H2 i b u Hin); [done|]. by rewrite Ha.
Qed.
End RoundSpec.

Lemma items_live m : kwf m → ∀ id a, (id, a) ∈ std_map_items (trackers_ m) → is_Some (heap m !! a).
Proof. intros Hm id a Hp%elem_of_std_map_items. by eapply kwf_live. Qed.

Lemma items_nodup m : kwf m → NoDup (std_map_items (trackers_ m)).*2.
Proof.
  intros Hm. rewrite std_map_items_perm. apply NoDup_fmap_2_strong; [|apply NoDup_map_to_list].
  intros [i a] [j b] Hi%elem_of_map_to_list Hj%elem_of_map_to_list E. cbn in E. subst b.
  by rewrite (kwf_inj m Hm i j a).
Qed.

(** A round of the worker that no other call disturbs returns, and is a run of
    the interleaving relation; it marks exactly the connections that were idle
    for more than the limit and that the server still answers, each at the time
    its validation ended, and changes nothing else. *)
Theorem check_round_spec is_healthy clock m :
  kwf m →
  ∃ h, check_connections is_healthy clock m = Ret (m <| heap := h |>) ∧
    rtc kstep (Some (m, Idle)) (Some (m <| heap := h |>, Idle)) ∧ kwf (m <| heap := h |>) ∧
    ∀ id a t, trackers_ m !! id = Some a → heap m !! a = Some t →
      h !! a = Some (after_round is_healthy clock m id t).
Proof.
  intros Hm. destruct (check_loop_spec is_healthy clock (std_map_items (trackers_ m)) m) as (h & E & Hr & H1 & H2);
    [by apply items_nodup|by apply items_live|].
  assert (H3 : ∀ id a t, trackers_ m !! id = Some a → heap m !! a = Some t → h !! a = Some (after_round is_healthy clock m id t)).
  { intros id a t Hi Ht. eapply H2; [by apply elem_of_std_map_items|done]. }
  exists h. split_and!; [done| |split; cbn|done].
  - eapply rtc_l; [apply kcopy|]. eapply rtc_r; [exact Hr|apply kend].
  - intros id a Hi. destruct (kwf_live m Hm id a Hi) as [t Ht]. by rewrite (H3 id a t).
  - apply (kwf_inj m Hm).
  - intros a Ha. destruct (decide (a ∈ (std_map_items (trackers_ m)).*2)) as [Hin|Hout].
    + apply list_elem_of_fmap in Hin as ([id b] & -> & Hin). apply elem_of_std_map_items in Hin.
      apply (kwf_owned m Hm). by apply (kwf_live m Hm id).
    + rewrite H1 in Ha by done. by apply (kwf_owned m Hm).
  - apply (kwf_dom m Hm).
Qed.

(** ** Rounds among other calls *)

(** The trackers that the round has still to visit are in the map. *)
Definition open_trackers (p : position) : list address :=
  match p with
  | Idle => []
  | Checking rest _ => rest.*2
  | Validated a rest _ => a :: rest.*2
  end.

Definition kgood (s : option (KeepaliveManager * position)) : Prop :=
  match s with
  | None => False
  | Some (m, p) => kwf m ∧ ∀ a, a ∈ open_trackers p → ∃ id, trackers_ m !! id = Some a
  end.

Lemma mark_wf a t m : kwf m → is_Some (heap m !! a) → kwf (m <| heap := <[a := t]> (heap m) |>).
Proof.
  intros [H1 H2 H3 H4] Ha. split; cbn; [|done| |done].
  - intros id b Hb. rewrite lookup_insert_is_Some. destruct (decide (a = b)); [by left|right]. split; [done|]. by eapply H1.
  - intros b [<-|[_ Hb]]%lookup_insert_is_Some; by apply H3.
Qed.

Lemma kstep_good s s' : kstep s s' → calm s s' → kgood s → kgood s'.
Proof.
  intros Hs Hc. destruct Hs; cbn in Hc |- *.
  - intros [Hm Hp]. split; [by apply Register_wf|]. intros a Ha. destruct (Hp a Ha) as [i Hi].
    exists i. destruct Hc as [->|Hc]; [by apply not_elem_of_nil in Ha|]. by apply (Hc i a).
  - intros [Hm Hp]. split; [by apply Unregister_wf|]. intros a Ha. destruct (Hp a Ha) as [i Hi].
    exists i. destruct Hc as [->|Hc]; [by apply not_elem_of_nil in Ha|]. by apply (Hc i a).
  - intros [Hm _]. split; [done|]. intros a ([i b] & -> & Hi%elem_of_std_map_items)%list_elem_of_fmap. by exists i.
  - intros [Hm Hp]. split; [done|]. intros b Hb. apply Hp. unfold after_check in Hb. destruct (_ && _); cbn in *; [done|by right].
  - intros [Hm Hp]. destruct (Hp a) as [i Hi]; [by left|]. destruct (kwf_live m Hm i a Hi) as [t Ht].
    unfold NeedsValidation, last_activity in H. by rewrite Ht in H.
  - intros [Hm Hp]. destruct (Hp a) as [i Hi]; [by left|]. destruct (kwf_live m Hm i a Hi) as [t Ht].
    unfold MarkActive, last_activity in H. rewrite Ht in H. injection H as <-. split; [by apply mark_wf|].
    intros b Hb. apply Hp. by right.
  - intros [Hm Hp]. destruct (Hp a) as [i Hi]; [by left|]. destruct (kwf_live m Hm i a Hi) as [t Ht].
    unfold MarkActive, last_activity in H. by rewrite Ht in H.
  - intros [Hm _]. split; [done|]. by intros a ?%not_elem_of_nil.
Qed.

(** Rounds are memory safe, whatever is registered meanwhile, as long as no
    call destroys a tracker while a round is open. The manager stays well formed:
    a tracker per connection, none leaked, none dangling. *)
Theorem calm_rounds_safe config s :
  rtc (λ s s', kstep s s' ∧ calm s s') (Some (new_manager config, Idle)) s → ∃ m p, s = Some (m, p) ∧ kwf m.
Proof.
  intros Hr. assert (H : kgood s).
  { assert (H0 : kgood (Some (new_manager config, Idle))).
    { split; [apply new_manager_wf|]. by intros a ?%not_elem_of_nil. }
    revert H0. induction Hr as [|s1 s2 s3 [Hs Hc] _ IH]; [done|]. intros H. by apply IH, (kstep_good s1). }
  destruct s as [[m p]|]; [|done]. exists m, p. by destruct H.
Qed.

Definition one_registered : KeepaliveManager :=
  (Register 0 ("conn-1" : bytes) 7 (new_manager sb_keepalive_config_default)).2.

Lemma calm_rounds_safe_witness :
  ∃ m p, Some (one_registered, Checking [(("conn-1" : bytes), 1)] {[ ("conn-1" : bytes) := 7 ]}) = Some (m, p) ∧ kwf m.
Proof.
  apply (calm_rounds_safe sb_keepalive_config_default).
  eapply rtc_l; [split; [apply (kregister 0 ("conn-1" : bytes) 7)|by left]|].
  eapply rtc_l; [split; [apply kcopy|by left]|]. apply rtc_refl.
Defined.

Lemma check_round_spec_witness :
  kwf one_registered ∧
  ∃ h, check_connections (λ _, true) (λ _, (700 * 10 ^ 9, 701 * 10 ^ 9)) one_registered = Ret (one_registered <| heap := h |>) ∧
    h !! 1 = Some (701 * 10 ^ 9).
Proof.
  assert (H : kwf one_registered) by apply Register_wf, new_manager_wf. split; [done|].
  destruct (check_round_spec (λ _, true) (λ _, (700 * 10 ^ 9, 701 * 10 ^ 9)) one_registered H) as (h & E & _ & _ & Hh).
  exists h. split; [done|]. by rewrite (Hh ("conn-1" : bytes) 1 0).
Defined.

(** A call that unregisters a connection while a round is open, as
    [sb_disconnect] does before it stops the worker, leaves the round with a
    dangling pointer: the worker goes on to read a destroyed tracker. *)
Theorem unregister_during_round m id :
  kwf m → is_Some (trackers_ m !! id) →
  ∃ rest, rtc kstep (Some (m, Idle)) (Some (m, Checking rest (connections_ m))) ∧
    rtc kstep (Some (Unregister id m, Checking rest (connections_ m))) None.
Proof.
  intros Hm [a Ha]. assert (Hp : (id, a) ∈ std_map_items (trackers_ m)) by by apply elem_of_std_map_items.
  apply list_elem_of_split in Hp as (l1 & l2 & El). exists ((id, a) :: l2). split.
  - eapply rtc_l; [apply kcopy|]. rewrite El.
    assert (Hl : ∀ i b, (i, b) ∈ l1 → is_Some (heap m !! b)).
    { intros i b Hb. apply (items_live m Hm i). rewrite El. apply elem_of_app. by left. }
    clear El. induction l1 as [|[i b] l1 IH]; [apply rtc_refl|]. destruct (Hl i b) as [t Ht]; [by left|].
    eapply rtc_l; [eapply (kcheck 0 i b _ _ _ false); unfold NeedsValidation, last_activity; by rewrite Ht|].
    unfold after_check. rewrite andb_false_r. apply IH. intros j c Hj. apply (Hl j). by right.
  - apply rtc_once, (kcheck_UB 0). unfold NeedsValidation, last_activity, Unregister. cbn. rewrite Ha. cbn.
    by rewrite lookup_delete_eq.
Qed.

Lemma unregister_during_round_witness :
  kwf one_registered ∧ is_Some (trackers_ one_registered !! ("conn-1" : bytes)) ∧
  ∃ rest, rtc kstep (Some (Unregister ("conn-1" : bytes) one_registered, Checking rest (connections_ one_registered))) None.
Proof.
  assert (H : kwf one_registered) by apply Register_wf, new_manager_wf. split; [done|]. split; [by eexists|].
  destruct (unregister_during_round one_registered ("conn-1" : bytes) H) as (rest & _ & Hr); [by eexists|]. by exists rest.
Defined.
