(* ===== verification/StatementCache.v ===== *)
(** * Prepared-statement cache

    Models [src/statement_cache.cpp]: a map from SQL text to prepared statement
    with a least-recently-used list. [sb_prepare] and [sb_prepared_free] belong
    to the client library: the first supplies the handle a call receives, the
    second is recorded in the list of freed handles. A call of
    [sb_stmt_cache_get] takes the cache's mutex twice, around the two critical
    sections [get_lookup] and [get_insert]; calls of several threads interleave
    at that granularity ([cstep]). *)

From S2P Require Import Prelude.
From S2P Require Import Client.

Record CacheEntry := mkEntry { stmt : option handle; last_used : Z }.

Record sb_statement_cache := mkCache {
  max_size : nat;
  entries : gmap bytes CacheEntry;
  lru : list bytes
}.

(** The cache and the handles passed to [sb_prepared_free] so far. *)
Record world := mkWorld { cache : sb_statement_cache; freed : list handle }.

Definition set_cache (c : sb_statement_cache) (w : world) : world := mkWorld c (freed w).

Definition sb_prepared_free (h : handle) (w : world) : world :=
  mkWorld (cache w) (freed w ++ [h]).

(** [if (stmt) sb_prepared_free(stmt);] *)
Definition free_opt (s : option handle) (w : world) : world :=
  match s with Some h => sb_prepared_free h w | None => w end.

(** [std::list::remove] *)
Definition list_remove (k : bytes) (l : list bytes) : list bytes := filter (λ x, x ≠ k) l.
Arguments list_remove : simpl never.

Definition touch_lru (c : sb_statement_cache) (key : bytes) : sb_statement_cache :=
  mkCache (max_size c) (entries c) (key :: list_remove key (lru c)).

(** The [while] loop; each iteration removes the last element of [lru], so its
    length bounds the iterations ([evict_unfold]). *)
Fixpoint evict_loop (fuel : nat) (w : world) : world :=
  match fuel with
  | O => w
  | S fuel =>
      let c := cache w in
      if (max_size c <? size (entries c))%nat then
        match last (lru c) with
        | None => w
        | Some key =>
            let l := removelast (lru c) in
            match entries c !! key with
            | Some e =>
                evict_loop fuel
                  (set_cache (mkCache (max_size c) (delete key (entries c)) l)
                     (free_opt (stmt e) w))
            | None => evict_loop fuel (set_cache (mkCache (max_size c) (entries c) l) w)
            end
        end
      else w
  end.

Definition evict_if_needed (w : world) : world := evict_loop (length (lru (cache w))) w.

Definition sb_stmt_cache_create (max_size : nat) : sb_statement_cache := mkCache max_size ∅ [].

(** First critical section: the hit, or [None]. *)
Definition get_lookup (key : bytes) (now : Z) (w : world) : option handle * world :=
  let c := cache w in
  match entries c !! key with
  | Some (mkEntry (Some h) _) =>
      (Some h,
       set_cache
         (touch_lru (mkCache (max_size c) (<[key := mkEntry (Some h) now]> (entries c)) (lru c)) key) w)
  | _ => (None, w)
  end.

(** Second critical section, with the statement just prepared. *)
Definition get_insert (key : bytes) (prepared : handle) (now : Z) (w : world)
    : handle * world :=
  let c := cache w in
  match entries c !! key with
  | Some (mkEntry (Some h) _) =>
      (h,
       set_cache
         (touch_lru (mkCache (max_size c) (<[key := mkEntry (Some h) now]> (entries c)) (lru c)) key)
         (sb_prepared_free prepared w))
  | Some (mkEntry None _) =>
      (prepared,
       set_cache
         (touch_lru (mkCache (max_size c) (<[key := mkEntry (Some prepared) now]> (entries c))
            (lru c)) key) w)
  | None =>
      (prepared,
       evict_if_needed
         (set_cache
            (touch_lru (mkCache (max_size c) (<[key := mkEntry (Some prepared) now]> (entries c))
               (lru c)) key) w))
  end.

(** The whole call. [prepare] is [sb_prepare(conn, sql, err)], [None] standing
    for the null pointer; a null cache is [None]. *)
Definition sb_stmt_cache_get {conn_t : Type} (prepare : conn_t → bytes → option sb_error → option handle * option sb_error)
    (cached : bool) (conn : option conn_t) (sql : option bytes) (err : option sb_error)
    (now1 now2 : Z) (w : world) : option handle * option sb_error * world :=
  match conn, sql with
  | Some conn, Some key =>
      if negb cached || (max_size (cache w) =? 0)%nat then
        let '(p, err) := prepare conn key err in (p, err, w)
      else
        match get_lookup key now1 w with
        | (Some h, w) => (Some h, err, w)
        | (None, w) =>
            match prepare conn key err with
            | (None, err) => (None, err, w)
            | (Some p, err) =>
                let '(h, w) := get_insert key p now2 w in (Some h, err, w)
            end
        end
  | _, _ => (None, set_error err SB_ERR_INVALID_PARAM "Invalid connection or SQL", w)
  end.

(** The remaining entry points do nothing on a null cache ([cached = false]). *)
Definition sb_stmt_cache_invalidate (cached : bool) (sql : option bytes) (w : world) : world :=
  match cached, sql with
  | true, Some key =>
      let c := cache w in
      match entries c !! key with
      | Some e =>
          set_cache (mkCache (max_size c) (delete key (entries c)) (list_remove key (lru c)))
            (free_opt (stmt e) w)
      | None => w
      end
  | _, _ => w
  end.

(** Frees every entry, in the map's (unspecified) order. *)
Definition sb_stmt_cache_clear (cached : bool) (w : world) : world :=
  if cached then
    let c := cache w in
    set_cache (mkCache (max_size c) ∅ [])
      (foldl (λ w kv, free_opt (stmt kv.2) w) w (map_to_list (entries c)))
  else w.

(** [sb_stmt_cache_destroy]: what is left is the list of freed handles. *)
Definition sb_stmt_cache_destroy (cached : bool) (w : world) : list handle :=
  freed (sb_stmt_cache_clear cached w).

(** ** Ownership of handles *)

Definition handles_of (m : gmap bytes CacheEntry) : list handle :=
  omap (λ kv, stmt kv.2) (map_to_list m).

(** Every handle given to the cache: freed or held by an entry. *)
Definition owned (w : world) : list handle := freed w ++ handles_of (entries (cache w)).

#[local] Instance omap_perm {A B} (f : A → option B) :
  Proper ((≡ₚ) ==> (≡ₚ)) (omap (M := list) f).
Proof. intros l1 l2 H. by rewrite H. Qed.

Lemma handles_of_insert m k e :
  m !! k = None → handles_of (<[k := e]> m) ≡ₚ option_list (stmt e) ++ handles_of m.
Proof.
  intros H. unfold handles_of. rewrite map_to_list_insert by done. csimpl.
  by destruct (stmt e).
Qed.

Lemma handles_of_delete m k e :
  m !! k = Some e → handles_of m ≡ₚ option_list (stmt e) ++ handles_of (delete k m).
Proof.
  intros H. rewrite <-(insert_delete_id m k e) at 1 by done.
  apply handles_of_insert, lookup_delete_eq.
Qed.

Lemma handles_of_replace m k e e' :
  m !! k = Some e →
  option_list (stmt e) ++ handles_of (<[k := e']> m) ≡ₚ option_list (stmt e') ++ handles_of m.
Proof.
  intros H. rewrite <-insert_delete_eq, handles_of_insert by apply lookup_delete_eq.
  rewrite (handles_of_delete m k e) by done. solve_Permutation.
Qed.

Lemma freed_free_opt s w : freed (free_opt s w) = freed w ++ option_list s.
Proof. destruct s; simpl; [done|by rewrite app_nil_r]. Qed.

Lemma cache_free_opt s w : cache (free_opt s w) = cache w.
Proof. by destruct s. Qed.

Lemma evict_loop_owned n w : owned (evict_loop n w) ≡ₚ owned w.
Proof.
  revert w. induction n as [|n IH]; intros w; cbn [evict_loop]; [done|].
  destruct (_ <? _)%nat; [|done]. destruct (last (lru (cache w))) as [key|]; [|done].
  destruct (entries (cache w) !! key) as [e|] eqn:E; rewrite IH; unfold owned; cbn.
  - rewrite freed_free_opt, (handles_of_delete _ _ _ E). solve_Permutation.
  - done.
Qed.

Lemma get_lookup_owned key now w : owned (get_lookup key now w).2 ≡ₚ owned w.
Proof.
  unfold get_lookup. destruct (entries (cache w) !! key) as [[[h|] t]|] eqn:E; [|done..].
  unfold owned. cbn. pose proof (handles_of_replace _ _ _ (mkEntry (Some h) now) E) as H.
  cbn in H. apply (inj (cons h)) in H. by rewrite H.
Qed.

Lemma get_insert_owned key p now w : owned (get_insert key p now w).2 ≡ₚ p :: owned w.
Proof.
  unfold get_insert. destruct (entries (cache w) !! key) as [[[h|] t]|] eqn:E; cbn [snd].
  - unfold owned. cbn. pose proof (handles_of_replace _ _ _ (mkEntry (Some h) now) E) as H.
    cbn in H. apply (inj (cons h)) in H. rewrite H. solve_Permutation.
  - unfold owned. cbn. pose proof (handles_of_replace _ _ _ (mkEntry (Some p) now) E) as H.
    cbn in H. rewrite H. solve_Permutation.
  - unfold evict_if_needed. rewrite evict_loop_owned. unfold owned. cbn.
    rewrite handles_of_insert by done. cbn. solve_Permutation.
Qed.

Lemma invalidate_owned b sql w : owned (sb_stmt_cache_invalidate b sql w) ≡ₚ owned w.
Proof.
  unfold sb_stmt_cache_invalidate. destruct b, sql as [key|]; try done.
  destruct (entries (cache w) !! key) as [e|] eqn:E; [|done]. unfold owned. cbn.
  rewrite freed_free_opt, (handles_of_delete _ _ _ E). solve_Permutation.
Qed.

Lemma freed_fold l w :
  freed (foldl (λ w kv, free_opt (stmt kv.2) w) w l) = freed w ++ omap (λ kv : bytes * _, stmt kv.2) l.
Proof.
  revert w. induction l as [|[k e] l IH]; intros w; csimpl; [by rewrite app_nil_r|].
  rewrite IH, freed_free_opt. destruct (stmt e); csimpl; by rewrite <-?app_assoc.
Qed.

Lemma clear_owned b w : owned (sb_stmt_cache_clear b w) ≡ₚ owned w.
Proof.
  destruct b; [|done]. unfold owned, sb_stmt_cache_clear, handles_of. cbn.
  rewrite freed_fold, map_to_list_empty. csimpl. by rewrite app_nil_r.
Qed.

(** ** Invariant of the cache *)

Record cache_inv (c : sb_statement_cache) : Prop := {
  lru_nodup : NoDup (lru c);
  lru_dom k : k ∈ lru c ↔ is_Some (entries c !! k);
  no_null k e : entries c !! k = Some e → is_Some (stmt e)
}.

Definition within_capacity (c : sb_statement_cache) : Prop :=
  (size (entries c) <= max_size c)%nat.

Lemma elem_of_list_remove k x l : x ∈ list_remove k l ↔ x ≠ k ∧ x ∈ l.
Proof. unfold list_remove. by rewrite list_elem_of_filter. Qed.

Lemma list_remove_notin k l : k ∉ l → list_remove k l = l.
Proof.
  intros H. induction l as [|x l IH]; [done|]. apply not_elem_of_cons in H as [? ?].
  unfold list_remove. rewrite filter_cons_True by done. f_equal. by apply IH.
Qed.

Lemma touched_nodup k l : NoDup l → NoDup (k :: list_remove k l).
Proof.
  intros H. constructor; [|by apply NoDup_filter].
  rewrite elem_of_list_remove. by intros [? _].
Qed.

(** Inserting a live entry and touching its key. *)
Lemma cache_inv_touch c k h now :
  cache_inv c →
  cache_inv (touch_lru (mkCache (max_size c) (<[k := mkEntry (Some h) now]> (entries c)) (lru c)) k).
Proof.
  intros [Hn Hd Hs]. constructor; cbn.
  - by apply touched_nodup.
  - intros x. rewrite elem_of_cons, elem_of_list_remove, Hd, lookup_insert_is_Some.
    destruct (decide (x = k)); naive_solver.
  - intros x e. rewrite lookup_insert_Some. intros [[_ <-]|[_ ?]]; [by eexists|eauto].
Qed.

Lemma cache_inv_delete c k l :
  cache_inv c → NoDup l → (∀ x, x ∈ l ↔ x ≠ k ∧ x ∈ lru c) →
  cache_inv (mkCache (max_size c) (delete k (entries c)) l).
Proof.
  intros [Hn Hd Hs] Hl Hx. constructor; cbn; [done| |].
  - intros x. rewrite Hx, lookup_delete_is_Some, Hd. naive_solver.
  - intros x e. rewrite lookup_delete_Some. naive_solver.
Qed.

Lemma size_lru c : cache_inv c → size (entries c) = length (lru c).
Proof.
  intros [Hn Hd _]. rewrite <-size_dom.
  replace (dom (entries c)) with (list_to_set (lru c) : gset bytes).
  - by apply size_list_to_set.
  - apply set_eq. intros k. by rewrite elem_of_list_to_set, Hd, elem_of_dom.
Qed.

Lemma removelast_snoc {A} (l : list A) x : removelast (l ++ [x]) = l.
Proof. apply removelast_last. Qed.

Lemma last_inv {A} (l : list A) x : last l = Some x → l = removelast l ++ [x].
Proof.
  induction l as [|y l IH] using rev_ind; [done|].
  rewrite last_snoc. intros [= ->]. by rewrite removelast_snoc.
Qed.

(** Eviction keeps the most recently used keys that fit. *)
Lemma evict_loop_spec n w :
  cache_inv (cache w) → n = length (lru (cache w)) →
  let c := cache w in let c' := cache (evict_loop n w) in
  cache_inv c' ∧ max_size c' = max_size c ∧
  lru c' = take (max_size c) (lru c) ∧
  (∀ k, k ∈ lru c' → entries c' !! k = entries c !! k).
Proof.
  revert w. induction n as [|n IH]; intros w Hi Hn; cbn zeta; cbn [evict_loop].
  { destruct (lru (cache w)) eqn:E; [|done]. rewrite take_nil. by split_and!. }
  pose proof (size_lru _ Hi) as Hsz.
  destruct (Nat.ltb_spec (max_size (cache w)) (size (entries (cache w)))) as [Hlt|Hge].
  2: { rewrite take_ge by lia. by split_and!. }
  destruct (last (lru (cache w))) as [key|] eqn:El.
  2: { apply last_None in El. rewrite El in Hn. done. }
  pose proof (last_inv _ _ El) as Hl. set (l := removelast (lru (cache w))) in *.
  pose proof (lru_nodup _ Hi) as Hnd. rewrite Hl in Hnd. apply NoDup_app in Hnd as (Hnl & Hkl & _).
  assert (is_Some (entries (cache w) !! key)) as [e He].
  { apply (lru_dom _ Hi). rewrite Hl. set_solver. }
  rewrite He. rewrite Hl, length_app in Hn, Hsz. cbn in Hn, Hsz.
  edestruct (IH (set_cache (mkCache (max_size (cache w)) (delete key (entries (cache w))) l)
                   (free_opt (stmt e) w))) as (Hi' & Hm & Hlr & Hk).
  { cbn. apply cache_inv_delete; [done..|]. intros x. rewrite Hl, elem_of_app.
    split; [intros Hx|set_solver]. split; [|set_solver]. intros ->. set_solver. }
  { cbn. lia. }
  cbn in Hm, Hlr, Hk. split_and!; [done..| |].
  - rewrite Hlr, Hl, take_app_le by lia. done.
  - intros k Hk'. rewrite Hk by done. apply lookup_delete_ne. intros <-.
    rewrite Hlr in Hk'. apply (Hkl key); [|set_solver].
    apply elem_of_take in Hk' as (i & Hi1 & _). by eapply list_elem_of_lookup_2.
Qed.

Lemma evict_spec w :
  cache_inv (cache w) →
  let c := cache w in let c' := cache (evict_if_needed w) in
  cache_inv c' ∧ within_capacity c' ∧ max_size c' = max_size c ∧
  lru c' = take (max_size c) (lru c) ∧
  (∀ k, k ∈ lru c' → entries c' !! k = entries c !! k).
Proof.
  intros Hi. cbn zeta. unfold evict_if_needed.
  destruct (evict_loop_spec _ w Hi eq_refl) as (Hi' & Hm & Hl & Hk).
  split_and!; [done| |done..]. unfold within_capacity.
  rewrite (size_lru _ Hi'), Hm, Hl, length_take. lia.
Qed.

(** [evict_loop] with this much fuel is the loop: it satisfies its unfolding. *)
Lemma evict_unfold w :
  evict_if_needed w =
    let c := cache w in
    if (max_size c <? size (entries c))%nat then
      match last (lru c) with
      | None => w
      | Some key =>
          let l := removelast (lru c) in
          match entries c !! key with
          | Some e =>
              evict_if_needed
                (set_cache (mkCache (max_size c) (delete key (entries c)) l)
                   (free_opt (stmt e) w))
          | None => evict_if_needed (set_cache (mkCache (max_size c) (entries c) l) w)
          end
      end
    else w.
Proof.
  unfold evict_if_needed. destruct (length (lru (cache w))) as [|n] eqn:El.
  { apply length_zero_iff_nil in El. cbn. rewrite El. by case_match. }
  cbn zeta. cbn [evict_loop]. destruct (_ <? _)%nat; [|done].
  destruct (last (lru (cache w))) as [key|] eqn:E; [|done].
  apply last_inv in E. cbn [cache set_cache lru].
  assert (n = length (removelast (lru (cache w)))) as ->; [|done].
  rewrite E, length_app in El. cbn in El. lia.
Qed.

(** ** Abstract specification: a bounded list of statements, most recent first *)

Abbreviation lru_state := (list (bytes * handle)).

Definition lru_remove (k : bytes) (s : lru_state) : lru_state := filter (λ p, p.1 ≠ k) s.
Arguments lru_remove : simpl never.

Fixpoint lru_lookup (k : bytes) (s : lru_state) : option handle :=
  match s with
  | [] => None
  | (k', h) :: s => if bool_decide (k' = k) then Some h else lru_lookup k s
  end.

(** A request for [k]; [prepared] is what preparing it would yield. *)
Definition lru_get (n : nat) (k : bytes) (prepared : option handle) (s : lru_state)
    : option handle * lru_state :=
  match lru_lookup k s, prepared with
  | Some h, _ => (Some h, (k, h) :: lru_remove k s)
  | None, Some p => (Some p, take n ((k, p) :: s))
  | None, None => (None, s)
  end.

(** The abstract state of a cache. *)
Definition entry_handle (m : gmap bytes CacheEntry) (k : bytes) : option (bytes * handle) :=
  e ← m !! k; h ← stmt e; Some (k, h).
Arguments entry_handle : simpl never.

Definition abs_of (m : gmap bytes CacheEntry) (l : list bytes) : lru_state :=
  omap (entry_handle m) l.

Definition abs (c : sb_statement_cache) : lru_state := abs_of (entries c) (lru c).

Lemma abs_of_ext m m' l :
  (∀ k, k ∈ l → entry_handle m k = entry_handle m' k) → abs_of m l = abs_of m' l.
Proof.
  intros H. unfold abs_of. induction l as [|k l IH]; csimpl; [done|].
  rewrite (H k), IH by set_solver. done.
Qed.

Lemma entry_handle_key m k p : entry_handle m k = Some p → p.1 = k.
Proof.
  unfold entry_handle. destruct (m !! k) as [[[h|] t]|]; simpl; intros; by simplify_eq.
Qed.

Lemma list_remove_cons k x l :
  list_remove k (x :: l) = if decide (x = k) then list_remove k l else x :: list_remove k l.
Proof.
  unfold list_remove. destruct (decide (x = k)) as [Hx|Hx].
  - rewrite filter_cons_False by naive_solver. done.
  - by rewrite filter_cons_True by done.
Qed.

Lemma lru_remove_cons k p s :
  lru_remove k (p :: s) = if decide (p.1 = k) then lru_remove k s else p :: lru_remove k s.
Proof.
  unfold lru_remove. destruct (decide (p.1 = k)) as [Hx|Hx].
  - rewrite filter_cons_False by naive_solver. done.
  - by rewrite filter_cons_True by done.
Qed.

Lemma abs_of_remove m k l : abs_of m (list_remove k l) = lru_remove k (abs_of m l).
Proof.
  unfold abs_of. induction l as [|x l IH]; [done|]. rewrite list_remove_cons. csimpl.
  destruct (entry_handle m x) as [p|] eqn:E.
  - rewrite lru_remove_cons, (entry_handle_key _ _ _ E).
    case_decide; [done|]. csimpl. by rewrite E, IH.
  - case_decide; [done|]. csimpl. by rewrite E.
Qed.

Lemma abs_of_cons m x l : abs_of m (x :: l) = option_list (entry_handle m x) ++ abs_of m l.
Proof. unfold abs_of. csimpl. by destruct (entry_handle m x). Qed.

Lemma lru_lookup_abs m k l :
  lru_lookup k (abs_of m l) = if decide (k ∈ l) then (m !! k ≫= stmt) else None.
Proof.
  induction l as [|x l IH]; [done|]. rewrite abs_of_cons.
  destruct (decide (x = k)) as [->|Hx].
  - rewrite decide_True by set_solver. unfold entry_handle.
    destruct (m !! k) as [[[h|] t]|]; cbn; [by rewrite bool_decide_eq_true_2|..];
      rewrite IH; by case_decide.
  - transitivity (lru_lookup k (abs_of m l)).
    + destruct (entry_handle m x) as [[k' h]|] eqn:E; [|done].
      apply entry_handle_key in E. simpl in *. subst. by rewrite bool_decide_eq_false_2.
    + rewrite IH. destruct (decide (k ∈ l)), (decide (k ∈ x :: l)); set_solver.
Qed.

Lemma abs_lookup c k : cache_inv c → lru_lookup k (abs c) = entries c !! k ≫= stmt.
Proof.
  intros Hi. unfold abs. rewrite lru_lookup_abs. case_decide as Hk; [done|].
  rewrite (lru_dom _ Hi), <-eq_None_not_Some in Hk. by rewrite Hk.
Qed.

Lemma abs_of_take m n l :
  (∀ k, k ∈ l → is_Some (entry_handle m k)) → abs_of m (take n l) = take n (abs_of m l).
Proof.
  revert n. induction l as [|k l IH]; intros n H; [by destruct n|].
  destruct n as [|n]; [done|]. cbn [take]. rewrite !abs_of_cons.
  destruct (H k) as [p ->]; [by constructor|]. cbn. rewrite IH; [done|].
  intros x Hx. apply H. by constructor.
Qed.

Lemma inv_entry_handle c k : cache_inv c → k ∈ lru c → is_Some (entry_handle (entries c) k).
Proof.
  intros Hi Hk. apply (lru_dom _ Hi) in Hk as [e He]. destruct (no_null _ Hi _ _ He) as [h Hh].
  unfold entry_handle. rewrite He. simpl. rewrite Hh. simpl. by eexists.
Qed.

Lemma entry_handle_insert_ne m k x e : x ≠ k → entry_handle (<[k := e]> m) x = entry_handle m x.
Proof. intros. unfold entry_handle. by rewrite lookup_insert_ne. Qed.

Lemma abs_touch c k h now :
  cache_inv c →
  abs (touch_lru (mkCache (max_size c) (<[k := mkEntry (Some h) now]> (entries c)) (lru c)) k) =
    (k, h) :: lru_remove k (abs c).
Proof.
  intros Hi. unfold abs, abs_of. csimpl. unfold entry_handle at 1.
  rewrite lookup_insert_eq. csimpl. f_equal.
  change (abs_of (<[k := mkEntry (Some h) now]> (entries c)) (list_remove k (lru c)) =
    lru_remove k (abs c)).
  unfold abs. rewrite <-abs_of_remove. apply abs_of_ext. intros x Hx.
  apply elem_of_list_remove in Hx as [? _]. by apply entry_handle_insert_ne.
Qed.

Lemma abs_evict w :
  cache_inv (cache w) →
  abs (cache (evict_if_needed w)) = take (max_size (cache w)) (abs (cache w)).
Proof.
  intros Hi. destruct (evict_spec w Hi) as (Hi' & _ & Hm & Hl & Hk). unfold abs.
  rewrite <-abs_of_take by (intros; by apply inv_entry_handle). rewrite <-Hl.
  apply abs_of_ext. intros k Hk'. unfold entry_handle. by rewrite Hk.
Qed.

Lemma lru_remove_notin c k : cache_inv c → entries c !! k = None → lru_remove k (abs c) = abs c.
Proof.
  intros Hi Hk. unfold abs. rewrite <-abs_of_remove, list_remove_notin; [done|].
  rewrite (lru_dom _ Hi), Hk. by intros [??].
Qed.

(** ** Each critical section keeps the invariant *)

Definition good (w : world) : Prop := cache_inv (cache w) ∧ within_capacity (cache w).

Lemma size_replace (m : gmap bytes CacheEntry) k e e' :
  m !! k = Some e' → size (<[k := e]> m) = size m.
Proof. intros H. rewrite map_size_insert, H. done. Qed.

Lemma get_lookup_good key now w : good w → good (get_lookup key now w).2.
Proof.
  intros [Hi Hc]. unfold get_lookup.
  destruct (entries (cache w) !! key) as [[[h|] t]|] eqn:E; [|done..].
  split; cbn; [by apply cache_inv_touch|]. unfold within_capacity in *. cbn.
  by rewrite (size_replace _ _ _ _ E).
Qed.

Lemma get_insert_good key p now w : good w → good (get_insert key p now w).2.
Proof.
  intros [Hi Hc]. unfold get_insert.
  destruct (entries (cache w) !! key) as [[[h|] t]|] eqn:E; cbn [snd].
  1-2: split; cbn; [by apply cache_inv_touch|]; unfold within_capacity in *; cbn;
    by rewrite (size_replace _ _ _ _ E).
  match goal with |- good (evict_if_needed ?w') => destruct (evict_spec w') as (? & ? & _) end.
  - cbn. by apply cache_inv_touch.
  - by split.
Qed.

Lemma invalidate_good b sql w : good w → good (sb_stmt_cache_invalidate b sql w).
Proof.
  intros [Hi Hc]. unfold sb_stmt_cache_invalidate. destruct b, sql as [key|]; try done.
  destruct (entries (cache w) !! key) as [e|] eqn:E; [|done]. split; cbn.
  - apply cache_inv_delete; [done|by apply NoDup_filter, lru_nodup|].
    intros x. apply elem_of_list_remove.
  - unfold within_capacity in *. cbn. rewrite map_size_delete, E. lia.
Qed.

Lemma clear_good b w : good w → good (sb_stmt_cache_clear b w).
Proof.
  destruct b; [|done]. intros _. split; cbn.
  - constructor; cbn; [constructor| |done]. intros k. rewrite lookup_empty.
    split; [by intros ?%elem_of_nil|by intros [??]].
  - unfold within_capacity. cbn. rewrite map_size_empty. lia.
Qed.

Lemma get_lookup_refines key now w :
  cache_inv (cache w) →
  let '(r, w') := get_lookup key now w in
  r = lru_lookup key (abs (cache w)) ∧ max_size (cache w') = max_size (cache w) ∧
  abs (cache w') = match r with
                   | Some h => (key, h) :: lru_remove key (abs (cache w))
                   | None => abs (cache w)
                   end.
Proof.
  intros Hi. rewrite abs_lookup by done. unfold get_lookup.
  destruct (entries (cache w) !! key) as [[[h|] t]|]; [|done..].
  split_and!; [done..|]. by apply abs_touch.
Qed.

Lemma get_insert_max key p now w :
  cache_inv (cache w) → max_size (cache (get_insert key p now w).2) = max_size (cache w).
Proof.
  intros Hi. unfold get_insert.
  destruct (entries (cache w) !! key) as [[[h|] t]|]; cbn [snd]; [done..|].
  match goal with |- context [evict_if_needed ?w'] => destruct (evict_spec w') as (? & ? & -> & _) end;
    [by apply cache_inv_touch|done].
Qed.

Lemma get_insert_refines key p now w :
  cache_inv (cache w) → (0 < max_size (cache w))%nat →
  let '(h, w') := get_insert key p now w in
  (Some h, abs (cache w')) = lru_get (max_size (cache w)) key (Some p) (abs (cache w)).
Proof.
  intros Hi Hm. unfold get_insert, lru_get. rewrite abs_lookup by done.
  destruct (entries (cache w) !! key) as [[[h|] t]|] eqn:E; cbn [mbind option_bind stmt].
  - f_equal. by apply abs_touch.
  - by destruct (no_null _ Hi _ _ E).
  - f_equal. rewrite abs_evict; cbn [cache set_cache max_size touch_lru].
    + by rewrite abs_touch, lru_remove_notin.
    + by apply cache_inv_touch.
Qed.

Lemma get_refines {conn_t} prepare (conn : conn_t) key err now1 now2 w :
  good w → (0 < max_size (cache w))%nat →
  let '(r, _, w') := sb_stmt_cache_get prepare true (Some conn) (Some key) err now1 now2 w in
  (r, abs (cache w')) =
    lru_get (max_size (cache w)) key (prepare conn key err).1 (abs (cache w)) ∧
  max_size (cache w') = max_size (cache w) ∧ good w'.
Proof.
  intros Hg Hm. unfold sb_stmt_cache_get. cbn [negb orb].
  rewrite (proj2 (Nat.eqb_neq _ _)) by lia.
  pose proof (get_lookup_refines key now1 w (proj1 Hg)) as Hl.
  pose proof (get_lookup_good key now1 w Hg) as Hg1.
  destruct (get_lookup key now1 w) as [[h|] w1]; cbn [snd] in Hg1; destruct Hl as (Hh & Hm1 & Ha).
  { unfold lru_get. rewrite <-Hh, Ha. done. }
  destruct (prepare conn key err) as [[p|] err']; cbn [fst].
  - pose proof (get_insert_refines key p now2 w1 (proj1 Hg1)) as Hr.
    pose proof (get_insert_good key p now2 w1 Hg1) as Hg2.
    pose proof (get_insert_max key p now2 w1 (proj1 Hg1)) as Hm2. rewrite Hm1, Ha in Hr.
    destruct (get_insert key p now2 w1) as [h w2]. cbn in Hm2.
    split; [by apply Hr|]. split; [congruence|done].
  - unfold lru_get. rewrite <-Hh, Ha. done.
Qed.

Lemma invalidate_refines key w :
  cache_inv (cache w) →
  abs (cache (sb_stmt_cache_invalidate true (Some key) w)) = lru_remove key (abs (cache w)).
Proof.
  intros Hi. cbn. destruct (entries (cache w) !! key) as [e|] eqn:E.
  - unfold abs. cbn. rewrite <-abs_of_remove. apply abs_of_ext. intros x Hx.
    apply elem_of_list_remove in Hx as [? _]. unfold entry_handle. by rewrite lookup_delete_ne.
  - symmetry. by apply lru_remove_notin.
Qed.

(** C28: the cache refines a bounded most-recently-used list: a request returns
    the cached statement and moves it to the front, or prepares one and drops
    the statements that no longer fit; invalidation removes one key. *)
Theorem cache_refines_lru {conn_t} prepare (conn : conn_t) key err now1 now2 w :
  good w → (0 < max_size (cache w))%nat →
  let p := (prepare conn key err).1 in
  let '(r, _, w') := sb_stmt_cache_get prepare true (Some conn) (Some key) err now1 now2 w in
  (r, abs (cache w')) = lru_get (max_size (cache w)) key p (abs (cache w)) ∧
  good w' ∧
  abs (cache (sb_stmt_cache_invalidate true (Some key) w)) = lru_remove key (abs (cache w)) ∧
  abs (cache (sb_stmt_cache_clear true w)) = [].
Proof.
  intros Hg Hm. cbn zeta. pose proof (get_refines prepare conn key err now1 now2 w Hg Hm) as H.
  destruct (sb_stmt_cache_get _ _ _ _ _ _ _ _) as [[r e] w'].
  destruct H as (? & _ & ?). split; [done|]. split; [done|].
  split; [by apply invalidate_refines; destruct Hg|done].
Qed.

Lemma create_good n : good (mkWorld (sb_stmt_cache_create n) []).
Proof.
  apply (clear_good true (mkWorld (mkCache n ∅ []) [])).
  split; cbn; [|unfold within_capacity; cbn; rewrite map_size_empty; lia].
  constructor; cbn; [constructor| |done]. intros k. rewrite lookup_empty.
  split; [by intros ?%elem_of_nil|by intros [??]].
Qed.

(** ** Interleaved calls

    A handle names one allocation: [sb_prepare] never returns it twice. A call
    that missed holds its new statement ([pending]) until its second critical
    section. *)

Record cstate := mkState {
  cworld : world;
  pending : list (bytes * handle);
  issued : list handle
}.

Inductive cstep : cstate → cstate → Prop :=
  | step_hit key now h w' s :
      get_lookup key now (cworld s) = (Some h, w') →
      cstep s (mkState w' (pending s) (issued s))
  | step_miss key now w' p s :
      get_lookup key now (cworld s) = (None, w') → p ∉ issued s →
      cstep s (mkState w' ((key, p) :: pending s) (p :: issued s))
  | step_prepare_failed key now w' s :
      get_lookup key now (cworld s) = (None, w') →
      cstep s (mkState w' (pending s) (issued s))
  | step_insert ps1 ps2 key p now h w' s :
      pending s = ps1 ++ (key, p) :: ps2 →
      get_insert key p now (cworld s) = (h, w') →
      cstep s (mkState w' (ps1 ++ ps2) (issued s))
  | step_invalidate key s :
      cstep s (mkState (sb_stmt_cache_invalidate true (Some key) (cworld s)) (pending s) (issued s))
  | step_clear s :
      cstep s (mkState (sb_stmt_cache_clear true (cworld s)) (pending s) (issued s)).

Definition cinit (n : nat) : cstate := mkState (mkWorld (sb_stmt_cache_create n) []) [] [].

Definition creachable (n : nat) : cstate → Prop := rtc cstep (cinit n).

Record cinv (s : cstate) : Prop := {
  cinv_good : good (cworld s);
  cinv_fresh : NoDup (issued s);
  cinv_owned : issued s ≡ₚ owned (cworld s) ++ (pending s).*2
}.

Lemma cinv_step s s' : cinv s → cstep s s' → cinv s'.
Proof.
  intros [Hg Hn Ho] Hs. destruct Hs as [key now h w' s E|key now w' p s E Hp|key now w' s E
    |ps1 ps2 key p now h w' s E1 E2|key s|s]; constructor;
    cbn [cworld pending issued].
  - pose proof (get_lookup_good key now _ Hg) as H. by rewrite E in H.
  - done.
  - pose proof (get_lookup_owned key now (cworld s)) as H. rewrite E in H. cbn in H. by rewrite H.
  - pose proof (get_lookup_good key now _ Hg) as H. by rewrite E in H.
  - by constructor.
  - pose proof (get_lookup_owned key now (cworld s)) as H. rewrite E in H. cbn in H.
    rewrite H, Ho. solve_Permutation.
  - pose proof (get_lookup_good key now _ Hg) as H. by rewrite E in H.
  - done.
  - pose proof (get_lookup_owned key now (cworld s)) as H. rewrite E in H. cbn in H. by rewrite H.
  - pose proof (get_insert_good key p now _ Hg) as H. by rewrite E2 in H.
  - done.
  - pose proof (get_insert_owned key p now (cworld s)) as H. rewrite E2 in H. cbn in H.
    rewrite H, Ho, E1, !fmap_app. csimpl. solve_Permutation.
  - by apply invalidate_good.
  - done.
  - by rewrite invalidate_owned.
  - by apply clear_good.
  - done.
  - by rewrite clear_owned.
Qed.

Lemma cinv_reachable n s : creachable n s → cinv s.
Proof.
  intros H. apply (rtc_ind_r (λ s, cinv s) (cinit n)) in H; [done| |].
  - constructor; [apply create_good|constructor|done].
  - intros x y _ Hxy Hx. by eapply cinv_step.
Qed.

(** However calls interleave, every statement ever prepared is in exactly
    one place (cached, held by a call in flight, or freed once), the cache is
    within its capacity, and destroying the quiescent cache frees them all. *)
Theorem cache_frees_exactly_once n s :
  creachable n s →
  NoDup (freed (cworld s)) ∧
  (∀ h, h ∈ handles_of (entries (cache (cworld s))) → h ∉ freed (cworld s)) ∧
  (∀ h, h ∈ (pending s).*2 → h ∉ freed (cworld s)) ∧
  within_capacity (cache (cworld s)) ∧
  (pending s = [] → sb_stmt_cache_destroy true (cworld s) ≡ₚ issued s).
Proof.
  intros [Hg Hn Ho]%cinv_reachable.
  assert (Hp : ∀ h, h ∈ freed (cworld s) → ¬ (h ∈ handles_of (entries (cache (cworld s))) ∨ h ∈ (pending s).*2)).
  { rewrite Ho in Hn. unfold owned in Hn. rewrite <-app_assoc in Hn.
    apply NoDup_app in Hn as (_ & Hd & _). intros h Hh. rewrite <-elem_of_app. by apply Hd. }
  split_and!; [|naive_solver..|apply Hg|].
  - rewrite Ho in Hn. unfold owned in Hn. rewrite <-app_assoc in Hn. by apply NoDup_app in Hn as [? _].
  - intros Hpe. rewrite Ho, Hpe. csimpl. rewrite app_nil_r.
    rewrite <-(clear_owned true). unfold owned, sb_stmt_cache_destroy. cbn.
    unfold handles_of. rewrite map_to_list_empty. csimpl. by rewrite app_nil_r.
Qed.

Lemma cache_frees_exactly_once_witness :
  ∃ s, creachable 1 s ∧ freed (cworld s) = [10; 11] ∧ NoDup (freed (cworld s)).
Proof.
  set (s := mkState (mkWorld (mkCache 1 {[ ("a" : bytes) := mkEntry (Some 12) 3 ]} [("a" : bytes)]) [10; 11])
              [] [12; 11; 10]).
  assert (H : creachable 1 s).
  { eapply rtc_l; [eapply (step_miss "a" 0 _ 10); [reflexivity|by apply (bool_decide_unpack _)]|].
    eapply rtc_l; [eapply (step_miss "a" 0 _ 11); [reflexivity|by apply (bool_decide_unpack _)]|].
    eapply rtc_l; [eapply (step_insert [] _ "a" 11 1); reflexivity|].
    eapply rtc_l; [eapply (step_insert [] _ "a" 10 2); reflexivity|].
    eapply rtc_l; [eapply (step_invalidate "a")|].
    eapply rtc_l; [eapply (step_miss "a" 2 _ 12); [reflexivity|by apply (bool_decide_unpack _)]|].
    eapply rtc_l; [eapply (step_insert [] _ "a" 12 3); reflexivity|].
    match goal with |- rtc _ ?x _ => replace x with s by (vm_compute; reflexivity) end.
    apply rtc_refl. }
  exists s. split; [exact H|]. split; [reflexivity|]. exact (proj1 (cache_frees_exactly_once 1 s H)).
Defined.

Lemma lru_get_again n k p q s h s' :
  (0 < n)%nat → lru_get n k p s = (Some h, s') → (lru_get n k q s').1 = Some h.
Proof.
  unfold lru_get. intros Hn. destruct (lru_lookup k s), p; intros [= <- <-].
  1-2: cbn; by rewrite bool_decide_eq_true_2.
  destruct n; [lia|]. cbn. by rewrite bool_decide_eq_true_2.
Qed.

(** A hit does not look at the connection: the statement returned to a
    second connection is the one prepared on the first. *)
Theorem cached_statement_crosses_connections {conn_t} prepare (c1 c2 : conn_t) key err
    t1 t2 t3 t4 h err' w w1 :
  good w → (0 < max_size (cache w))%nat →
  sb_stmt_cache_get prepare true (Some c1) (Some key) err t1 t2 w = (Some h, err', w1) →
  (sb_stmt_cache_get prepare true (Some c2) (Some key) err t3 t4 w1).1.1 = Some h.
Proof.
  intros Hg Hm E. pose proof (get_refines prepare c1 key err t1 t2 w Hg Hm) as H.
  rewrite E in H. destruct H as (H1 & Hm1 & Hg1). symmetry in H1.
  pose proof (get_refines prepare c2 key err t3 t4 w1 Hg1) as H2. rewrite Hm1 in H2.
  specialize (H2 Hm). destruct (sb_stmt_cache_get _ _ (Some c2) _ _ _ _ _) as [[r e] w2].
  destruct H2 as (H2 & _). apply (lru_get_again _ _ _ (prepare c2 key err).1) in H1; [|done].
  by rewrite <-H2 in H1.
Qed.

(** [sb_prepare] that names the connection in the handle. *)
Definition example_prepare (conn : Z) (sql : bytes) (err : option sb_error)
    : option handle * option sb_error :=
  (Some (100 * conn), err).

Lemma cached_statement_crosses_connections_witness :
  let w := mkWorld (sb_stmt_cache_create 4) [] in
  let w1 := (sb_stmt_cache_get example_prepare true (Some 1) (Some ("Q" : bytes)) None 0 1 w).2 in
  (sb_stmt_cache_get example_prepare true (Some 2) (Some ("Q" : bytes)) None 2 3 w1).1.1 = Some 100.
Proof.
  intros w w1.
  exact (cached_statement_crosses_connections example_prepare 1 2 "Q" None 0 1 2 3 100 None w w1
    (create_good 4) (le_n_S _ _ (le_0_n _)) eq_refl).
Defined.

Lemma cache_refines_lru_witness :
  let w := mkWorld (sb_stmt_cache_create 4) [] in
  abs (cache (sb_stmt_cache_get example_prepare true (Some 1) (Some ("Q" : bytes)) None 0 1 w).2)
    = [("Q" : bytes, 100)].
Proof.
  intros w.
  pose proof (cache_refines_lru example_prepare 1 "Q" None 0 1 w (create_good 4)
    (le_n_S _ _ (le_0_n _))) as H.
  exact (f_equal snd (proj1 H)).
Defined.
