(* ===== verification/Pool.v ===== *)
(** * Connection pool

    Models the pool, the connection tracking and the RAII leases of
    [src/pool.cpp]. Each critical section (the code under [pool->mutex]) is one
    definition; [sb_pool_acquire] composes them with the unlocked parts between
    them. [sb_connect], [sb_is_healthy] and the clock are arguments of the
    definitions that call them. Times are nanoseconds of the steady clock. *)

From S2P Require Import Prelude.
From S2P Require Import Client.

Record PooledConnection := mkPooled {
  conn : option handle;
  created_at : Z;
  last_used_at : Z;
  in_use : bool
}.

Record sb_pool_config := mkPoolConfig {
  min_connections : nat;
  max_connections : nat;
  max_lifetime_seconds : Z;
  idle_timeout_seconds : Z;
  acquire_timeout_seconds : Z;
  test_on_checkout : bool
}.

Definition sb_pool_config_default : sb_pool_config := mkPoolConfig 1 10 3600 600 30 true.

(** ** Connection tracking *)

Record ConnTracking := mkTracking { t_created_at : Z; t_last_used_at : Z }.

Abbreviation tracking := (gmap handle ConnTracking).

Definition ensure_tracking (conn : option handle) (now : Z) (g : tracking) : tracking :=
  match conn with
  | None => g
  | Some c =>
      match g !! c with
      | None => <[c := mkTracking now now]> g
      | Some t => <[c := mkTracking (t_created_at t) now]> g
      end
  end.

Definition register_connection (conn : option handle) (now : Z) (g : tracking) : tracking :=
  match conn with None => g | Some c => <[c := mkTracking now now]> g end.

Definition unregister_connection (conn : option handle) (g : tracking) : tracking :=
  match conn with None => g | Some c => delete c g end.

(** [duration_cast<seconds>] truncates toward zero. *)
Definition seconds_of (ns : Z) : Z := Z.quot ns (10 ^ 9).

Definition sb_connection_get_age_seconds (conn : option handle) (now : Z) (g : tracking) : Z :=
  match conn with
  | None => 0
  | Some c =>
      match g !! c with
      | None => 0
      | Some t => u32 (Z.max 0 (seconds_of (now - t_created_at t)))
      end
  end.

Definition sb_connection_get_idle_seconds (conn : option handle) (now : Z) (g : tracking) : Z :=
  match conn with
  | None => 0
  | Some c =>
      match g !! c with
      | None => 0
      | Some t => u32 (Z.max 0 (seconds_of (now - t_last_used_at t)))
      end
  end.

(** ** Critical sections *)

(** The first entry with an idle connection is marked used; its index stands
    for the pointer [selected]. *)
Fixpoint select_idle (now : Z) (cs : list PooledConnection)
    : option (nat * handle * list PooledConnection) :=
  match cs with
  | [] => None
  | e :: r =>
      match conn e, in_use e with
      | Some c, false => Some (O, c, mkPooled (Some c) (created_at e) now true :: r)
      | _, _ =>
          match select_idle now r with
          | Some (i, c, r) => Some (S i, c, e :: r)
          | None => None
          end
      end
  end.

Definition can_create (cfg : sb_pool_config) (cs : list PooledConnection) : bool :=
  (length cs <? max_connections cfg)%nat.

Definition push_new (c : handle) (now : Z) (cs : list PooledConnection) : list PooledConnection :=
  cs ++ [mkPooled (Some c) now now true].

(** The loop of [sb_pool_release]; the boolean tells whether an entry matched. *)
Fixpoint release_entry (c : handle) (now : Z) (cs : list PooledConnection)
    : bool * list PooledConnection :=
  match cs with
  | [] => (false, [])
  | e :: r =>
      if bool_decide (conn e = Some c)
      then (true, mkPooled (conn e) (created_at e) now false :: r)
      else let '(b, r) := release_entry c now r in (b, e :: r)
  end.

(** ** The pool and its environment *)

Record sb_connection_pool := mkPool {
  conn_str : bytes;
  config : sb_pool_config;
  connections : list PooledConnection
}.

(** Pool, tracking table, the connections opened and closed so far, the number
    of external events, and the time spent in [sleep_for]. *)
Record world := mkWorld {
  pool : sb_connection_pool;
  g_tracking : tracking;
  opened : list handle;
  closed : list handle;
  ticks : nat;
  slept : Z
}.

Definition set_connections (cs : list PooledConnection) (w : world) : world :=
  mkWorld (mkPool (conn_str (pool w)) (config (pool w)) cs) (g_tracking w) (opened w) (closed w)
    (ticks w) (slept w).

Definition track (f : tracking → tracking) (w : world) : world :=
  mkWorld (pool w) (f (g_tracking w)) (opened w) (closed w) (ticks w) (slept w).

Definition sb_disconnect (c : handle) (w : world) : world :=
  mkWorld (pool w) (g_tracking w) (opened w) (closed w ++ [c]) (ticks w) (slept w).

Section environment.
(** A connection attempt, the health of a connection and the clock, at the
    [n]-th external event. The clock counts the time outside [sleep_for]. *)
Variable connect : nat → handle + sb_error.
Variable sb_is_healthy : handle → nat → bool.
Variable clock : nat → Z.

Definition now (w : world) : Z * world :=
  (clock (ticks w) + slept w,
   mkWorld (pool w) (g_tracking w) (opened w) (closed w) (S (ticks w)) (slept w)).

Definition sleep_for (ns : Z) (w : world) : world :=
  mkWorld (pool w) (g_tracking w) (opened w) (closed w) (ticks w) (slept w + ns).

Definition sb_connect (w : world) : (handle + sb_error) * world :=
  match connect (ticks w) with
  | inl c =>
      (inl c, mkWorld (pool w) (g_tracking w) (opened w ++ [c]) (closed w) (S (ticks w)) (slept w))
  | inr e => (inr e, mkWorld (pool w) (g_tracking w) (opened w) (closed w) (S (ticks w)) (slept w))
  end.

(** The unlocked part of a checkout, on the entry [i]. *)
Definition check_out (i : nat) (c : handle) (err : option sb_error) (w : world)
    : option handle * option sb_error * world :=
  if test_on_checkout (config (pool w)) && negb (sb_is_healthy c (ticks w)) then
    let w := track (unregister_connection (Some c)) w in
    let w := sb_disconnect c w in
    match sb_connect w with
    | (inr e, w) =>
        let cs := alter (λ x, mkPooled None (created_at x) (last_used_at x) false) i
                    (connections (pool w)) in
        (None, set_error err (code e) (message e), set_connections cs w)
    | (inl c, w) =>
        let '(t, w) := now w in
        let cs := alter (λ x, mkPooled (Some c) t t (in_use x)) i (connections (pool w)) in
        let w := set_connections cs w in
        let '(t, w) := now w in
        let w := track (register_connection (Some c) t) w in
        let '(t, w) := now w in
        let w := track (ensure_tracking (Some c) t) w in
        (Some c, set_error err SB_OK [], w)
    end
  else
    let '(t, w) := now w in
    let w := track (ensure_tracking (Some c) t) w in
    (Some c, set_error err SB_OK [], w).

(** The branch that opens a connection. *)
Definition create_one (err : option sb_error) (w : world)
    : option handle * option sb_error * world :=
  match sb_connect w with
  | (inr e, w) => (None, set_error err (code e) (message e), w)
  | (inl c, w) =>
      let '(t, w) := now w in
      let w := set_connections (push_new c t (connections (pool w))) w in
      let '(t, w) := now w in
      let w := track (register_connection (Some c) t) w in
      (Some c, set_error err SB_OK [], w)
  end.

(** [while (true)], [fuel] iterations at most; [None] when they run out. *)
Fixpoint acquire_loop (fuel : nat) (start timeout : Z) (err : option sb_error) (w : world)
    : option (option handle * option sb_error * world) :=
  match fuel with
  | O => None
  | S fuel =>
      let '(t, w1) := now w in
      match select_idle t (connections (pool w)) with
      | Some (i, c, cs) => Some (check_out i c err (set_connections cs w1))
      | None =>
          if can_create (config (pool w)) (connections (pool w)) then Some (create_one err w)
          else
            let '(t, w) := now w in
            if timeout <=? t - start
            then Some (None, set_error err SB_ERR_TIMEOUT "Timed out acquiring pooled connection", w)
            else acquire_loop fuel start timeout err (sleep_for (10 * 10 ^ 6) w)
      end
  end.

Definition sb_pool_acquire (fuel : nat) (is_null : bool) (err : option sb_error) (w : world)
    : option (option handle * option sb_error * world) :=
  if is_null then Some (None, set_error err SB_ERR_INVALID_HANDLE "Pool is null", w) else
  let '(start, w) := now w in
  let timeout := acquire_timeout_seconds (config (pool w)) * 10 ^ 9 in
  acquire_loop fuel start timeout err w.

Definition sb_pool_release (is_null : bool) (c : option handle) (w : world) : world :=
  match is_null, c with
  | false, Some c =>
      let '(t, w1) := now w in
      let '(found, cs) := release_entry c t (connections (pool w)) in
      if found : bool then
        let w := set_connections cs w1 in
        let '(t, w) := now w in
        track (ensure_tracking (Some c) t) w
      else w
  | _, _ => w
  end.

(** The failure path of [sb_pool_create]: close what was opened. *)
Definition close_all (cs : list PooledConnection) (w : world) : world :=
  foldl (λ w e, match conn e with
                | Some c => sb_disconnect c (track (unregister_connection (Some c)) w)
                | None => w
                end) w cs.

(** [n] connections left to open. *)
Fixpoint create_loop (n : nat) (err : option sb_error) (w : world)
    : bool * option sb_error * world :=
  match n with
  | O => (true, set_error err SB_OK [], w)
  | S n =>
      match sb_connect w with
      | (inr e, w) =>
          (false, set_error err (code e) (message e), close_all (connections (pool w)) w)
      | (inl c, w) =>
          let '(t, w) := now w in
          let w := set_connections (connections (pool w) ++ [mkPooled (Some c) t t false]) w in
          let '(t, w) := now w in
          let w := track (register_connection (Some c) t) w in
          create_loop n err w
      end
  end.

(** The new pool is the world's; [false] stands for the null pool. *)
Definition sb_pool_create (cstr : option bytes) (cfg : option sb_pool_config)
    (err : option sb_error) (w : world) : bool * option sb_error * world :=
  match cstr with
  | None | Some [] => (false, set_error err SB_ERR_NULL_POINTER "Connection string is required", w)
  | Some s =>
      let pool_cfg := default sb_pool_config_default cfg in
      if (max_connections pool_cfg =? 0)%nat ||
         (max_connections pool_cfg <? min_connections pool_cfg)%nat
      then (false, set_error err SB_ERR_INVALID_PARAM "Invalid pool bounds", w)
      else
        create_loop (min_connections pool_cfg) err
          (mkWorld (mkPool s pool_cfg []) (g_tracking w) (opened w) (closed w) (ticks w) (slept w))
  end.

Definition sb_pool_destroy (is_null : bool) (w : world) : world :=
  if is_null then w else close_all (connections (pool w)) (set_connections [] w).
End environment.

Record sb_pool_stats := mkStats {
  available_connections : nat;
  total_connections : nat;
  stats_max_connections : nat
}.

Definition sb_pool_get_stats (is_null : bool) (p : sb_connection_pool) : sb_pool_stats :=
  if is_null then mkStats 0 0 0 else
  foldl (λ s e,
      match conn e with
      | Some _ =>
          mkStats (if in_use e then available_connections s else S (available_connections s))
            (S (total_connections s)) (stats_max_connections s)
      | None => s
      end)
    (mkStats 0 0 (max_connections (config p))) (connections p).

(** ** Where the connections are *)

Definition handles_of (cs : list PooledConnection) : list handle := omap conn cs.
Arguments handles_of : simpl never.

(** Every connection opened is closed or in the pool. *)
Definition conserved (w : world) : Prop :=
  opened w ≡ₚ closed w ++ handles_of (connections (pool w)).

Lemma handles_of_app cs ds : handles_of (cs ++ ds) = handles_of cs ++ handles_of ds.
Proof. apply omap_app. Qed.

Lemma handles_of_cons e cs : handles_of (e :: cs) = option_list (conn e) ++ handles_of cs.
Proof. unfold handles_of. csimpl. by destruct (conn e). Qed.

(** What [select_idle] finds: the first idle entry. *)
Lemma select_idle_spec t cs i c cs' :
  select_idle t cs = Some (i, c, cs') →
  ∃ pre e post, cs = pre ++ e :: post ∧ length pre = i ∧ conn e = Some c ∧ in_use e = false ∧
    cs' = pre ++ mkPooled (Some c) (created_at e) t true :: post ∧
    Forall (λ x, conn x = None ∨ in_use x = true) pre.
Proof.
  revert i c cs'. induction cs as [|e r IH]; intros i c cs' H; [done|].
  cbn [select_idle] in H.
  assert (Hrest : (conn e = None ∨ in_use e = true) →
    match select_idle t r with Some (i, c, r) => Some (S i, c, e :: r) | None => None end
      = Some (i, c, cs') →
    ∃ pre e0 post, e :: r = pre ++ e0 :: post ∧ length pre = i ∧ conn e0 = Some c ∧
      in_use e0 = false ∧ cs' = pre ++ mkPooled (Some c) (created_at e0) t true :: post ∧
      Forall (λ x, conn x = None ∨ in_use x = true) pre).
  { intros He Hs. destruct (select_idle t r) as [[[j d] r']|]; [|done]. simplify_eq.
    destruct (IH j c r' eq_refl) as (pre & e0 & post & -> & <- & ? & ? & -> & ?).
    exists (e :: pre), e0, post. split_and!; try done. by constructor. }
  destruct (conn e) as [d|] eqn:Ec; [destruct (in_use e) eqn:Eu|]; [apply Hrest; auto| |apply Hrest; auto].
  simplify_eq. exists [], e, r. split_and!; done.
Qed.

Lemma select_idle_None t cs :
  select_idle t cs = None ↔ Forall (λ x, conn x = None ∨ in_use x = true) cs.
Proof.
  induction cs as [|e r IH]; [by split|]. cbn [select_idle]. rewrite Forall_cons, <-IH.
  destruct (conn e) as [d|]; [destruct (in_use e)|]; (destruct (select_idle t r) as [[[??]?]|]; naive_solver).
Qed.

Lemma select_idle_handles t cs i c cs' :
  select_idle t cs = Some (i, c, cs') → handles_of cs' = handles_of cs.
Proof.
  intros (pre & e & post & -> & _ & He & _ & -> & _)%select_idle_spec.
  by rewrite !handles_of_app, !handles_of_cons, He.
Qed.

Lemma release_entry_handles c t cs : handles_of (release_entry c t cs).2 = handles_of cs.
Proof.
  induction cs as [|e r IH]; [done|]. cbn [release_entry]. case_bool_decide.
  - cbn [snd]. by rewrite !handles_of_cons.
  - destruct (release_entry c t r) as [b r']. cbn [snd] in *. by rewrite !handles_of_cons, IH.
Qed.

Lemma alter_middle {A} (f : A → A) pre x post :
  alter f (length pre) (pre ++ x :: post) = pre ++ f x :: post.
Proof. rewrite alter_app_r_alt, Nat.sub_diag by lia. done. Qed.

Lemma omap_conn_split pre x post c :
  conn x = Some c → handles_of (pre ++ x :: post) = handles_of pre ++ c :: handles_of post.
Proof. intros H. by rewrite handles_of_app, handles_of_cons, H. Qed.

(** The entry [i] is in use and holds [c]. *)
Definition selected (i : nat) (c : handle) (w : world) : Prop :=
  ∃ e, connections (pool w) !! i = Some e ∧ conn e = Some c ∧ in_use e = true.

Section conservation.
Context (connect : nat → handle + sb_error) (healthy : handle → nat → bool) (clock : nat → Z).

Lemma check_out_conserved i c err w :
  conserved w → selected i c w → conserved (check_out connect healthy clock i c err w).2.
Proof.
  intros Hw (e & Hi & Hc & _). unfold check_out. destruct (_ && _); [|done].
  unfold conserved, sb_connect in *. cbn.
  apply list_elem_of_split_length in Hi as (pre & post & E & ->).
  rewrite E, (omap_conn_split pre e post c Hc) in Hw.
  destruct (connect (ticks w)) as [c'|e']; cbn; rewrite E, alter_middle.
  - rewrite (omap_conn_split _ _ _ c'), Hw by done. solve_Permutation.
  - rewrite handles_of_app, handles_of_cons, Hw. cbn. solve_Permutation.
Qed.

Lemma create_one_conserved err w : conserved w → conserved (create_one connect clock err w).2.
Proof.
  unfold create_one, conserved, sb_connect. intros Hw.
  destruct (connect (ticks w)) as [c|e]; cbn; [|done]. unfold push_new.
  rewrite handles_of_app, Hw. cbn. solve_Permutation.
Qed.

Lemma acquire_loop_conserved fuel start timeout err w r :
  conserved w → acquire_loop connect healthy clock fuel start timeout err w = Some r →
  conserved r.2.
Proof.
  revert w. induction fuel as [|fuel IH]; intros w Hw; [done|]. cbn [acquire_loop now].
  destruct (select_idle _ _) as [[[i c] cs]|] eqn:E.
  - intros [= <-]. apply check_out_conserved.
    + unfold conserved in *. cbn. by rewrite (select_idle_handles _ _ _ _ _ E).
    + apply select_idle_spec in E as (pre & e & post & _ & <- & _ & _ & -> & _).
      eexists. cbn. by rewrite list_lookup_middle.
  - destruct (can_create _ _).
    + intros [= <-]. by apply create_one_conserved.
    + destruct (_ <=? _); [by intros [= <-]|]. by apply IH.
Qed.

Lemma close_all_fields cs w :
  opened (close_all cs w) = opened w ∧ pool (close_all cs w) = pool w ∧
  closed (close_all cs w) = closed w ++ handles_of cs.
Proof.
  unfold close_all. revert w. induction cs as [|e cs IH]; intros w; cbn [foldl].
  { cbn. by rewrite app_nil_r. }
  rewrite handles_of_cons. destruct (conn e) as [c|].
  - destruct (IH (sb_disconnect c (track (unregister_connection (Some c)) w))) as (-> & -> & ->).
    cbn. by rewrite <-app_assoc.
  - apply IH.
Qed.

Lemma create_loop_spec n err w :
  conserved w → let '(ok, _, w') := create_loop connect clock n err w in
  if ok : bool then
    conserved w' ∧ config (pool w') = config (pool w) ∧ conn_str (pool w') = conn_str (pool w) ∧
    ∃ es, connections (pool w') = connections (pool w) ++ es ∧ length es = n ∧
          Forall (λ e, is_Some (conn e) ∧ in_use e = false) es
  else opened w' ≡ₚ closed w'.
Proof.
  revert w. induction n as [|n IH]; intros w Hw; cbn [create_loop].
  { split; [done|]. split; [done|]. split; [done|]. exists []. by rewrite app_nil_r. }
  unfold sb_connect. destruct (connect (ticks w)) as [c|e]; cbn [now].
  - match goal with |- let '(_, _) := create_loop _ _ _ _ ?w1 in _ => specialize (IH w1) end.
    destruct (create_loop _ _ _ _ _) as [[ok err'] w']. cbn in IH.
    destruct ok.
    + destruct IH as (? & ? & ? & es & Hes & Hn & Hall).
      { unfold conserved in *. cbn. rewrite handles_of_app, Hw. cbn. solve_Permutation. }
      do 3 (split; [done|]). eexists. rewrite Hes, <-app_assoc. split; [done|]. cbn.
      split; [lia|]. by constructor.
    + apply IH. unfold conserved in *. cbn. rewrite handles_of_app, Hw. cbn. solve_Permutation.
  - unfold conserved in Hw.
    match goal with |- opened (close_all ?cs ?w1) ≡ₚ _ =>
      destruct (close_all_fields cs w1) as (-> & _ & ->) end.
    cbn. done.
Qed.
End conservation.

(** C26: no connection leaks: creating, acquiring, releasing and destroying keep
    every opened connection either in the pool or closed; a failed creation and
    a destruction close everything. *)
Theorem pool_conserves_connections connect healthy clock w cstr cfg err fuel c r :
  let '(ok, _, w0) := sb_pool_create connect clock cstr cfg err w in
  let w' := sb_pool_destroy false w in
  (opened w ≡ₚ closed w → if ok : bool then conserved w0 else opened w0 ≡ₚ closed w0) ∧
  (conserved w →
   (sb_pool_acquire connect healthy clock fuel false err w = Some r → conserved r.2) ∧
   conserved (sb_pool_release clock false c w) ∧
   opened w' ≡ₚ closed w' ∧ connections (pool w') = []).
Proof.
  destruct (sb_pool_create connect clock cstr cfg err w) as [[ok err'] w0] eqn:E. cbn zeta. split.
  - intros Hw. unfold sb_pool_create in E.
    destruct cstr as [[|b s]|]; [by simplify_eq| |by simplify_eq].
    destruct (_ || _)%bool; [by simplify_eq|].
    match type of E with create_loop _ _ ?n ?e ?w1 = _ =>
      pose proof (create_loop_spec connect clock n e w1) as H end.
    rewrite E in H. specialize (H ltac:(unfold conserved; cbn; by rewrite app_nil_r)).
    destruct ok; [by destruct H|done].
  - intros Hw. split_and!.
    + intros Ha. unfold sb_pool_acquire in Ha. cbn [now] in Ha.
      by apply acquire_loop_conserved in Ha.
    + unfold sb_pool_release. destruct c as [c|]; [|done]. cbn [now].
      pose proof (release_entry_handles c (clock (ticks w) + slept w) (connections (pool w))) as H.
      destruct (release_entry _ _ _) as [b cs]. cbn [snd] in H.
      destruct b; [|done]. unfold conserved in *. cbn. by rewrite H.
    + unfold sb_pool_destroy.
      destruct (close_all_fields (connections (pool w)) (set_connections [] w)) as (-> & _ & ->).
      done.
    + unfold sb_pool_destroy.
      by destruct (close_all_fields (connections (pool w)) (set_connections [] w)) as (_ & -> & _).
Qed.

Section liveness.
Context (connect : nat → handle + sb_error) (healthy : handle → nat → bool) (clock : nat → Z).
Hypothesis clock_mono : ∀ n, clock n <= clock (S n).

(** The clock reading of iteration [k] is at least [k] sleeps after [start]. *)
Lemma acquire_loop_returns fuel start timeout err w :
  start <= clock (ticks w) + slept w →
  timeout - (clock (ticks w) + slept w - start) <= (Z.of_nat fuel - 1) * 10 ^ 7 →
  (0 < fuel)%nat →
  is_Some (acquire_loop connect healthy clock fuel start timeout err w).
Proof.
  revert w. induction fuel as [|fuel IH]; intros w Hs Ht Hf; [lia|]. cbn [acquire_loop now].
  destruct (select_idle _ _) as [[[i c] cs]|]; [by eexists|].
  destruct (can_create _ _); [by eexists|].
  destruct (Z.leb_spec timeout (clock (ticks w) + slept w - start)); [by eexists|].
  pose proof (clock_mono (ticks w)). apply IH; cbn [ticks slept sleep_for]; lia.
Qed.
End liveness.



(** A slot whose reconnection failed: it has no connection but still counts
    against [max_connections]. *)
Definition exhausted (w : world) : Prop :=
  Forall (λ e, conn e = None ∨ in_use e = true) (connections (pool w)) ∧
  (max_connections (config (pool w)) <= length (connections (pool w)))%nat.

Lemma acquire_loop_exhausted connect healthy clock fuel start timeout err w r :
  exhausted w → acquire_loop connect healthy clock fuel start timeout err w = Some r →
  r.1 = (None, set_error err SB_ERR_TIMEOUT "Timed out acquiring pooled connection").
Proof.
  revert w. induction fuel as [|fuel IH]; intros w [Hs Hl]; [done|]. cbn [acquire_loop now].
  rewrite (proj2 (select_idle_None _ _) Hs). unfold can_create.
  destruct (Nat.ltb_spec (length (connections (pool w))) (max_connections (config (pool w)))); [lia|].
  destruct (_ <=? _); [by intros [= <-]|]. by apply IH.
Qed.

(** After a failed reconnection the slot is lost: a pool with one slot
    refuses every later acquisition with a timeout, although the server is
    back, until it is destroyed. *)
Theorem failed_reconnect_loses_slot connect healthy clock fuel fuel' err s e0 c w e :
  connections (pool w) = [mkPooled (Some c) 0 0 false] →
  config (pool w) = mkPoolConfig 1 1 0 0 (Z.of_nat s) true →
  healthy c (S (S (ticks w))) = false → connect (S (S (ticks w))) = inr e →
  ∀ r, sb_pool_acquire connect healthy clock (S fuel) false err w = Some (None, e0, r) →
  ∀ connect' healthy' r',
    sb_pool_acquire connect' healthy' clock fuel' false err r = Some r' →
    r'.1 = (None, set_error err SB_ERR_TIMEOUT "Timed out acquiring pooled connection").
Proof.
  intros Hc Hcfg Hh Hk r. unfold sb_pool_acquire. cbn -[select_idle check_out].
  rewrite Hc. cbn. unfold check_out, sb_connect. cbn. rewrite Hcfg, Hh. cbn.
  rewrite Hk. intros [= _ <-] connect' healthy' r' Hr.
  apply acquire_loop_exhausted in Hr; [done|]. split; cbn; [|by rewrite ?Hcfg].
  constructor; [by left|constructor].
Qed.

Lemma failed_reconnect_loses_slot_witness :
  let w := mkWorld (mkPool "x" (mkPoolConfig 1 1 0 0 1 true) [mkPooled (Some 7) 0 0 false])
             ∅ [7] [] 0 0 in
  ∃ e0 r, sb_pool_acquire (λ _, inr no_error) (λ _ _, false) (λ _, 0) 1 false (Some no_error) w
            = Some (None, e0, r) ∧
    (sb_pool_acquire (λ n, inl (Z.of_nat n)) (λ _ _, true) (λ _, 0) 101 false (Some no_error) r
      ≫= λ r', Some r'.1) =
      Some (None, Some (mkError SB_ERR_TIMEOUT "Timed out acquiring pooled connection")).
Proof.
  intros w. eexists _, _. split; [reflexivity|].
  match goal with |- (?a ≫= _) = _ => destruct a as [r'|] eqn:E end.
  - cbn [mbind option_bind]. f_equal.
    exact (failed_reconnect_loses_slot (λ _, inr no_error) (λ _ _, false) (λ _, 0) 0 101
      (Some no_error) 1 _ 7 w no_error eq_refl eq_refl eq_refl eq_refl _ eq_refl
      (λ n, inl (Z.of_nat n)) (λ _ _, true) r' E).
  - vm_compute in E. discriminate E.
Defined.
