(* ===== verification/PoolThreads.v ===== *)
(** * Connection pool: interleaved acquisitions and releases

    The critical sections of [Pool] as atomic steps of many threads. An
    acquisition in progress is at one of the points between its critical
    sections ([acq]). A handle names an allocation, so a new connection is
    always a fresh handle. *)

From S2P Require Import Prelude.
From S2P Require Import Client.
From S2P Require Import Pool.

(** Where a call of [sb_pool_acquire] stands. *)
Inductive acq :=
  | Missed                          (** no idle entry was found *)
  | Checking (i : nat) (c : handle) (** entry [i] was selected *)
  | MayCreate                       (** [can_create] held *)
  | Connected (c : handle).         (** connected, not yet in the pool *)

Record pstate := mkP {
  cfg : sb_pool_config;
  entries : list PooledConnection;
  inflight : list acq;
  held : list handle;
  issued : list handle
}.

Inductive pstep : pstate → pstate → Prop :=
  | p_select s t i c cs :
      select_idle t (entries s) = Some (i, c, cs) →
      pstep s (mkP (cfg s) cs (Checking i c :: inflight s) (held s) (issued s))
  | p_miss s t :
      select_idle t (entries s) = None →
      pstep s (mkP (cfg s) (entries s) (Missed :: inflight s) (held s) (issued s))
  | p_may_create s a b :
      inflight s = a ++ Missed :: b → can_create (cfg s) (entries s) = true →
      pstep s (mkP (cfg s) (entries s) (a ++ MayCreate :: b) (held s) (issued s))
  | p_retry s a b :
      inflight s = a ++ Missed :: b → can_create (cfg s) (entries s) = false →
      pstep s (mkP (cfg s) (entries s) (a ++ b) (held s) (issued s))
  | p_healthy s a b i c :
      inflight s = a ++ Checking i c :: b →
      pstep s (mkP (cfg s) (entries s) (a ++ b) (c :: held s) (issued s))
  | p_reconnect s a b i c c' t :
      inflight s = a ++ Checking i c :: b → c' ∉ issued s →
      pstep s (mkP (cfg s) (alter (λ x, mkPooled (Some c') t t (in_use x)) i (entries s))
                 (a ++ b) (c' :: held s) (c' :: issued s))
  | p_reconnect_failed s a b i c :
      inflight s = a ++ Checking i c :: b →
      pstep s (mkP (cfg s)
                 (alter (λ x, mkPooled None (created_at x) (last_used_at x) false) i (entries s))
                 (a ++ b) (held s) (issued s))
  | p_connect s a b c :
      inflight s = a ++ MayCreate :: b → c ∉ issued s →
      pstep s (mkP (cfg s) (entries s) (a ++ Connected c :: b) (held s) (c :: issued s))
  | p_connect_failed s a b :
      inflight s = a ++ MayCreate :: b →
      pstep s (mkP (cfg s) (entries s) (a ++ b) (held s) (issued s))
  | p_push s a b c t :
      inflight s = a ++ Connected c :: b →
      pstep s (mkP (cfg s) (push_new c t (entries s)) (a ++ b) (c :: held s) (issued s))
  | p_release s a b c t :
      held s = a ++ c :: b →
      pstep s (mkP (cfg s) (release_entry c t (entries s)).2 (inflight s) (a ++ b) (issued s)).

(** A pool just created: idle connections only. *)
Definition pinit (s : pstate) : Prop :=
  Forall (λ e, is_Some (conn e) ∧ in_use e = false) (entries s) ∧
  (length (entries s) <= max_connections (cfg s))%nat ∧
  inflight s = [] ∧ held s = [] ∧ NoDup (issued s) ∧ handles_of (entries s) = issued s.

Definition preachable (s : pstate) : Prop := ∃ s0, pinit s0 ∧ rtc pstep s0 s.

(** The connections marked used, and those of the calls in progress. *)
Definition used_of (cs : list PooledConnection) : list handle :=
  omap (λ e, if in_use e then conn e else None) cs.

Definition checking_of (l : list acq) : list handle :=
  omap (λ a, match a with Checking _ c => Some c | _ => None end) l.

Definition connected_of (l : list acq) : list handle :=
  omap (λ a, match a with Connected c => Some c | _ => None end) l.

Arguments used_of : simpl never.
Arguments checking_of : simpl never.
Arguments connected_of : simpl never.

Record pinv (s : pstate) : Prop := {
  inv_nodup : NoDup (handles_of (entries s) ++ connected_of (inflight s));
  inv_issued h : h ∈ handles_of (entries s) ++ connected_of (inflight s) → h ∈ issued s;
  inv_used : used_of (entries s) ≡ₚ held s ++ checking_of (inflight s);
  inv_checking i c : Checking i c ∈ inflight s → ∃ e, entries s !! i = Some e ∧
    conn e = Some c ∧ in_use e = true
}.

Lemma used_of_app cs ds : used_of (cs ++ ds) = used_of cs ++ used_of ds.
Proof. apply omap_app. Qed.
Lemma used_of_cons e cs :
  used_of (e :: cs) = (if in_use e then option_list (conn e) else []) ++ used_of cs.
Proof. unfold used_of. csimpl. by destruct (in_use e), (conn e). Qed.
Lemma checking_of_app a b : checking_of (a ++ b) = checking_of a ++ checking_of b.
Proof. apply omap_app. Qed.
Lemma checking_of_cons x b :
  checking_of (x :: b) = (match x with Checking _ c => [c] | _ => [] end) ++ checking_of b.
Proof. by destruct x. Qed.
Lemma connected_of_app a b : connected_of (a ++ b) = connected_of a ++ connected_of b.
Proof. apply omap_app. Qed.
Lemma connected_of_cons x b :
  connected_of (x :: b) = (match x with Connected c => [c] | _ => [] end) ++ connected_of b.
Proof. by destruct x. Qed.

Lemma handles_of_nil : handles_of [] = [].
Proof. done. Qed.
Lemma used_of_nil : used_of [] = [].
Proof. done. Qed.

Create Rewrite HintDb pool.
#[local] Hint Rewrite used_of_app used_of_cons checking_of_app checking_of_cons connected_of_app
  connected_of_cons handles_of_app handles_of_cons handles_of_nil used_of_nil : pool.

Lemma used_subset cs : used_of cs ⊆+ handles_of cs.
Proof.
  induction cs as [|e cs IH]; [done|]. rewrite used_of_cons, handles_of_cons.
  destruct (in_use e); [by apply submseteq_skips_l|]. by apply submseteq_inserts_l.
Qed.

Lemma submseteq_NoDup {A} (l k : list A) : l ⊆+ k → NoDup k → NoDup l.
Proof.
  intros [r ->]%submseteq_Permutation. by intros [? _]%NoDup_app.
Qed.

Lemma used_nodup s : pinv s → NoDup (held s ++ checking_of (inflight s)).
Proof.
  intros H. rewrite <-(inv_used s H). eapply submseteq_NoDup; [apply used_subset|].
  pose proof (inv_nodup s H) as Hn. by apply NoDup_app in Hn as [? _].
Qed.

(** Entries of other calls are not the one a call is working on. *)
Lemma checking_unique s a b i c j d :
  pinv s → inflight s = a ++ Checking i c :: b → Checking j d ∈ a ++ b → j ≠ i.
Proof.
  intros Hi Hs Hj ->.
  destruct (inv_checking s Hi i c) as (e & He & Hc & _); [rewrite Hs; set_solver|].
  destruct (inv_checking s Hi i d) as (e' & He' & Hd & _); [rewrite Hs; set_solver|].
  assert (d = c) as -> by congruence.
  pose proof (used_nodup s Hi) as Hn. rewrite Hs in Hn. autorewrite with pool in Hn.
  apply NoDup_app in Hn as (_ & _ & Hn).
  cbn [app] in Hn. rewrite <-Permutation_middle in Hn. apply NoDup_cons in Hn as [Hn _]. apply Hn.
  rewrite <-checking_of_app. unfold checking_of. apply list_elem_of_omap. by exists (Checking i c).
Qed.

(** Working on entry [i], which the call owns. *)
Lemma checking_entry s a b i c :
  pinv s → inflight s = a ++ Checking i c :: b →
  ∃ pre e post, entries s = pre ++ e :: post ∧ length pre = i ∧ conn e = Some c ∧ in_use e = true.
Proof.
  intros Hi Hs. destruct (inv_checking s Hi i c) as (e & He & Hc & Hu); [rewrite Hs; set_solver|].
  apply list_elem_of_split_length in He as (pre & post & ? & ->). by exists pre, e, post.
Qed.

Lemma lookup_middle_ne {A} (pre : list A) x y post j :
  j ≠ length pre → (pre ++ x :: post) !! j = (pre ++ y :: post) !! j.
Proof.
  intros Hj. destruct (decide (j < length pre)%nat).
  - by rewrite !lookup_app_l by done.
  - rewrite !lookup_app_r by lia. destruct (j - length pre)%nat eqn:E; [lia|done].
Qed.

(** Releasing a connection the pool knows marks its only entry idle. *)
Lemma release_entry_split c t cs :
  c ∈ handles_of cs → ∃ pre e post, cs = pre ++ e :: post ∧ conn e = Some c ∧ c ∉ handles_of pre ∧
    (release_entry c t cs).2 = pre ++ mkPooled (conn e) (created_at e) t false :: post.
Proof.
  induction cs as [|e cs IH]; [by intros ?%elem_of_nil|]. rewrite handles_of_cons. intros Hc.
  cbn [release_entry]. case_bool_decide as He.
  - exists [], e, cs. split_and!; try done. apply not_elem_of_nil.
  - destruct IH as (pre & e0 & post & -> & He0 & Hp & Heq).
    { apply elem_of_app in Hc as [Hc|]; [|done]. destruct (conn e); [|by apply elem_of_nil in Hc].
      apply list_elem_of_singleton in Hc. congruence. }
    destruct (release_entry c t (pre ++ e0 :: post)) as [b r]. cbn [snd] in *.
    exists (e :: pre), e0, post. rewrite Heq. split_and!; try done.
    rewrite handles_of_cons, not_elem_of_app. split; [|done].
    destruct (conn e); [|apply not_elem_of_nil]. intros ?%list_elem_of_singleton. congruence.
Qed.

Ltac elems := rewrite ?elem_of_app, ?elem_of_cons in *; naive_solver.

(** A call that leaves without touching the pool. *)
Lemma pinv_drop s a x b :
  pinv s → inflight s = a ++ x :: b → (∀ i c, x ≠ Checking i c) →
  pinv (mkP (cfg s) (entries s) (a ++ b) (held s) (issued s)).
Proof.
  intros [Hn Hs Hu Hc] E Hx. rewrite E in *. autorewrite with pool in *.
  constructor; cbn [entries inflight held issued]; autorewrite with pool.
  - eapply submseteq_NoDup; [|exact Hn]. destruct x; solve_submseteq.
  - intros h Hh. apply Hs. elems.
  - rewrite Hu. destruct x; [done| |done..]. by destruct (Hx i c).
  - intros i c Hi. apply Hc. elems.
Qed.

Lemma pinv_select s t i c cs :
  pinv s → select_idle t (entries s) = Some (i, c, cs) →
  pinv (mkP (cfg s) cs (Checking i c :: inflight s) (held s) (issued s)).
Proof.
  intros Hi E. pose proof (select_idle_handles _ _ _ _ _ E) as Hh.
  apply select_idle_spec in E as (pre & e & post & E & Hpre & He & Hu & -> & _).
  destruct Hi as [Hn Hs Hus Hc]. constructor; cbn [entries inflight held issued].
  - rewrite Hh. autorewrite with pool. exact Hn.
  - intros h Hx. apply Hs. rewrite Hh in Hx. autorewrite with pool in Hx. exact Hx.
  - rewrite E in Hus. autorewrite with pool in *. cbn. rewrite Hu in Hus. cbn in Hus.
    rewrite <-Permutation_middle, Hus, <-Permutation_middle. done.
  - intros j d [Hj|Hj]%elem_of_cons.
    + simplify_eq. eexists. rewrite list_lookup_middle; [|done]. done.
    + destruct (Hc j d Hj) as (e' & He' & Hd & Hu'). exists e'. split; [|done].
      rewrite E in He'. rewrite <-(lookup_middle_ne _ e); [done|]. intros ->.
      rewrite list_lookup_middle in He'; [|done]. congruence.
Qed.

Lemma pinv_healthy s a b i c :
  pinv s → inflight s = a ++ Checking i c :: b →
  pinv (mkP (cfg s) (entries s) (a ++ b) (c :: held s) (issued s)).
Proof.
  intros [Hn Hs Hu Hc] E. rewrite E in *. autorewrite with pool in *.
  constructor; cbn [entries inflight held issued]; autorewrite with pool.
  - exact Hn.
  - exact Hs.
  - rewrite Hu. cbn. solve_Permutation.
  - intros j d Hj. apply Hc. elems.
Qed.

(** The other calls keep their entries when entry [i] changes. *)
Lemma checking_alter s a b i c f :
  pinv s → inflight s = a ++ Checking i c :: b →
  ∀ j d, Checking j d ∈ a ++ b →
    ∃ e, alter f i (entries s) !! j = Some e ∧ conn e = Some d ∧ in_use e = true.
Proof.
  intros Hi E j d Hj. pose proof (checking_unique s a b i c j d Hi E Hj).
  destruct (inv_checking s Hi j d) as (e & He & ?); [rewrite E; elems|].
  exists e. by rewrite list_lookup_alter_ne.
Qed.

Lemma pinv_reconnect s a b i c c' t :
  pinv s → inflight s = a ++ Checking i c :: b → c' ∉ issued s →
  pinv (mkP (cfg s) (alter (λ x, mkPooled (Some c') t t (in_use x)) i (entries s))
         (a ++ b) (c' :: held s) (c' :: issued s)).
Proof.
  intros Hi E Hc'. pose proof (checking_alter s a b i c (λ x, mkPooled (Some c') t t (in_use x)) Hi E) as Hch.
  destruct (checking_entry s a b i c Hi E) as (pre & e & post & Ee & <- & He & Hue).
  destruct Hi as [Hn Hs Hu Hc]. rewrite Ee, alter_middle in *. rewrite E in *.
  autorewrite with pool in *. rewrite He, ?Hue in *. cbn [option_list app] in *.
  constructor; cbn [entries inflight held issued]; [| | |done]; autorewrite with pool; cbn; rewrite ?Hue.
  - rewrite <-!app_assoc in *. cbn [app]. rewrite <-Permutation_middle. apply NoDup_cons. split.
    + intros Hin. apply Hc', Hs. elems.
    + eapply submseteq_NoDup; [|exact Hn]. solve_submseteq.
  - intros h Hh. apply elem_of_cons. destruct (decide (h = c')) as [->|]; [by left|right].
    apply Hs. elems.
  - apply (Permutation_cons_inv (a := c)).
    transitivity (c' :: used_of pre ++ c :: used_of post); [solve_Permutation|].
    rewrite Hu. solve_Permutation.
Qed.

Lemma pinv_reconnect_failed s a b i c :
  pinv s → inflight s = a ++ Checking i c :: b →
  pinv (mkP (cfg s)
         (alter (λ x, mkPooled None (created_at x) (last_used_at x) false) i (entries s))
         (a ++ b) (held s) (issued s)).
Proof.
  intros Hi E.
  pose proof (checking_alter s a b i c (λ x, mkPooled None (created_at x) (last_used_at x) false) Hi E) as Hch.
  destruct (checking_entry s a b i c Hi E) as (pre & e & post & Ee & <- & He & Hue).
  destruct Hi as [Hn Hs Hu Hc]. rewrite Ee, alter_middle in *. rewrite E in *.
  autorewrite with pool in *. rewrite He, ?Hue in *. cbn [option_list app] in *.
  constructor; cbn [entries inflight held issued]; [| | |done]; autorewrite with pool; cbn.
  - eapply submseteq_NoDup; [|exact Hn]. solve_submseteq.
  - intros h Hh. apply Hs. elems.
  - apply (Permutation_cons_inv (a := c)). etrans; [|etrans; [exact Hu|]]; solve_Permutation.
Qed.

Lemma pinv_connect s a b c :
  pinv s → inflight s = a ++ MayCreate :: b → c ∉ issued s →
  pinv (mkP (cfg s) (entries s) (a ++ Connected c :: b) (held s) (c :: issued s)).
Proof.
  intros [Hn Hs Hu Hc] E Hci. rewrite E in *. autorewrite with pool in *.
  constructor; cbn [entries inflight held issued]; autorewrite with pool; cbn.
  - rewrite (app_assoc (handles_of _)), <-Permutation_middle. apply NoDup_cons. split.
    + intros Hin. apply Hci, Hs. elems.
    + by rewrite <-app_assoc.
  - intros h Hh. apply elem_of_cons. destruct (decide (h = c)) as [->|]; [by left|right].
    apply Hs. elems.
  - exact Hu.
  - intros j d Hj. apply Hc. elems.
Qed.

Lemma pinv_push s a b c t :
  pinv s → inflight s = a ++ Connected c :: b →
  pinv (mkP (cfg s) (push_new c t (entries s)) (a ++ b) (c :: held s) (issued s)).
Proof.
  intros [Hn Hs Hu Hc] E. rewrite E in *. unfold push_new.
  constructor; cbn [entries inflight held issued]; autorewrite with pool in *; cbn.
  - eapply submseteq_NoDup; [|exact Hn]. cbn. solve_submseteq.
  - intros h Hh. apply Hs. cbn. clear -Hh; set_solver.
  - rewrite Hu. cbn. solve_Permutation.
  - intros j d Hj. destruct (Hc j d) as (e & He & ?); [elems|]. exists e.
    by rewrite lookup_app_l by (by eapply lookup_lt_Some).
Qed.

Lemma pinv_release s a b c t :
  pinv s → held s = a ++ c :: b →
  pinv (mkP (cfg s) (release_entry c t (entries s)).2 (inflight s) (a ++ b) (issued s)).
Proof.
  intros Hi E. pose proof (used_nodup s Hi) as Hd. destruct Hi as [Hn Hs Hu Hc].
  assert (Hcu : c ∈ used_of (entries s)) by (rewrite Hu, E; elems).
  pose proof (release_entry_handles c t (entries s)) as Hh.
  destruct (release_entry_split c t (entries s)) as (pre & e & post & Ee & He & Hp & Hr).
  { eapply elem_of_submseteq; [exact Hcu|apply used_subset]. }
  assert (Hue : in_use e = true).
  { rewrite Ee in Hcu. autorewrite with pool in Hcu. destruct (in_use e); [done|]. cbn in Hcu.
    rewrite Ee in Hn. autorewrite with pool in Hn. rewrite He in Hn. cbn in Hn.
    rewrite <-app_assoc in Hn. cbn in Hn. rewrite <-Permutation_middle in Hn.
    apply NoDup_cons in Hn as [Hn _]. destruct Hn. rewrite elem_of_app in Hcu.
    rewrite !elem_of_app. destruct Hcu as [Hcu|Hcu]; [left|right; left];
      (eapply elem_of_submseteq; [exact Hcu|apply used_subset]). }
  constructor; cbn [entries inflight held issued]; rewrite ?Hh; [done|done| |].
  - rewrite Hr. rewrite Ee, E in Hu. autorewrite with pool in *. rewrite He, Hue in Hu. cbn in *.
    apply (Permutation_cons_inv (a := c)). etrans; [|etrans; [exact Hu|]]; solve_Permutation.
  - intros j d Hj. destruct (Hc j d Hj) as (e' & He' & Hd' & Hu'). exists e'. split; [|done].
    rewrite Hr. rewrite Ee in He'. rewrite <-(lookup_middle_ne _ e); [done|]. intros ->.
    rewrite list_lookup_middle in He' by done. simplify_eq.
    rewrite E in Hd. rewrite <-app_assoc in Hd. cbn in Hd. rewrite <-Permutation_middle in Hd.
    apply NoDup_cons in Hd as [Hd _]. apply Hd. rewrite app_assoc. apply elem_of_app. right.
    unfold checking_of. apply list_elem_of_omap. by exists (Checking (length pre) c).
Qed.

Lemma pinv_missed s a b :
  pinv s → inflight s = a ++ Missed :: b →
  pinv (mkP (cfg s) (entries s) (a ++ MayCreate :: b) (held s) (issued s)).
Proof.
  intros [Hn Hs Hu Hc] E. rewrite E in *.
  constructor; cbn [entries inflight held issued]; autorewrite with pool in *; [done..|].
  intros j d Hj. apply Hc. elems.
Qed.

Lemma pinv_miss s :
  pinv s → pinv (mkP (cfg s) (entries s) (Missed :: inflight s) (held s) (issued s)).
Proof.
  intros [Hn Hs Hu Hc].
  constructor; cbn [entries inflight held issued]; autorewrite with pool in *; [done..|].
  intros j d Hj. apply Hc. elems.
Qed.

Lemma pinv_step s s' : pinv s → pstep s s' → pinv s'.
Proof.
  intros Hi Hs. revert Hi. destruct Hs; intros Hi;
    eauto using pinv_select, pinv_miss, pinv_missed, pinv_healthy, pinv_reconnect,
      pinv_reconnect_failed, pinv_connect, pinv_push, pinv_release.
  all: by eapply pinv_drop.
Qed.

Lemma used_of_idle cs : Forall (λ e, is_Some (conn e) ∧ in_use e = false) cs → used_of cs = [].
Proof.
  induction 1 as [|e cs [_ He] _ IH]; [done|]. by rewrite used_of_cons, He, IH.
Qed.

Lemma pinv_init s : pinit s → pinv s.
Proof.
  intros (Ha & _ & Hf & Hh & Hn & Hi). constructor; rewrite ?Hf, ?Hh, ?Hi.
  - by rewrite app_nil_r.
  - intros h. by rewrite app_nil_r.
  - by rewrite used_of_idle.
  - intros i c ?%elem_of_nil. done.
Qed.

Lemma pinv_reachable s : preachable s → pinv s.
Proof.
  intros (s0 & Hi & Hs). apply pinv_init in Hi.
  apply (rtc_ind_r (λ s, pinv s) s0) in Hs; [done..|].
  intros x y _ Hxy Hx. by eapply pinv_step.
Qed.


(** Two threads on an empty pool with one slot: both pass [can_create] before
    either pushes. *)
Definition race_start : pstate := mkP (mkPoolConfig 0 1 0 0 0 false) [] [] [] [].

Definition race_end : pstate :=
  mkP (cfg race_start)
    [mkPooled (Some 1) 0 0 true; mkPooled (Some 2) 0 0 true] [] [2; 1] [2; 1].

Lemma race_start_init : pinit race_start.
Proof. split_and!; cbn; [by constructor|lia|done|done|constructor|done]. Qed.

Lemma race_run : rtc pstep race_start race_end.
Proof.
  eapply rtc_l; [by apply (p_miss _ 0)|].
  eapply rtc_l; [by apply (p_miss _ 0)|].
  eapply rtc_l; [by apply (p_may_create _ [] [Missed])|].
  eapply rtc_l; [by apply (p_may_create _ [MayCreate] [])|].
  eapply rtc_l; [apply (p_connect _ [] [MayCreate] 1); [done|by apply (bool_decide_unpack _)]|].
  eapply rtc_l; [apply (p_connect _ [Connected 1] [] 2); [done|by apply (bool_decide_unpack _)]|].
  eapply rtc_l; [by apply (p_push _ [] [Connected 2] 1 0)|].
  eapply rtc_l; [by apply (p_push _ [] [] 2 0)|].
  apply rtc_refl.
Qed.

(** The check against [max_connections] and the insertion are separate
    critical sections: two concurrent acquisitions overfill the pool. *)
Theorem pool_overfills :
  ∃ s, preachable s ∧ (max_connections (cfg s) < length (entries s))%nat ∧ NoDup (held s) ∧
       length (held s) = 2%nat.
Proof.
  exists race_end. split_and!; [|cbn; lia|by apply (bool_decide_unpack _)|done].
  exists race_start. split; [apply race_start_init|apply race_run].
Qed.


(** ** The sequential code performs these steps *)

Definition state_of (w : world) (l : list acq) (hs iss : list handle) : pstate :=
  mkP (config (pool w)) (connections (pool w)) l hs iss.

Section refinement.
Context (connect : nat → handle + sb_error) (healthy : handle → nat → bool) (clock : nat → Z).
Context (l : list acq) (hs iss : list handle).
Hypothesis fresh : ∀ n c, connect n = inl c → c ∉ iss.

(** A completed call: steps from [w] that hand [r] to the caller. *)
Definition performs (w : world) (l0 : list acq) (res : option handle * option sb_error * world)
    : Prop :=
  ∃ iss', rtc pstep (state_of w l0 hs iss) (state_of res.2 l (option_list res.1.1 ++ hs) iss').

Lemma check_out_performs i c err w :
  performs w (Checking i c :: l) (check_out connect healthy clock i c err w).
Proof.
  unfold check_out, performs. destruct (_ && _).
  - unfold sb_connect. cbn [ticks sb_disconnect track].
    destruct (connect (ticks w)) as [c'|e] eqn:E; cbn [now].
    + eexists. eapply rtc_l; [|apply rtc_refl]. cbn.
      refine (p_reconnect (state_of w (Checking i c :: l) hs iss) [] l i c c' _ eq_refl _).
      by eapply fresh.
    + eexists. eapply rtc_l; [|apply rtc_refl]. cbn.
      exact (p_reconnect_failed (state_of w (Checking i c :: l) hs iss) [] l i c eq_refl).
  - eexists. eapply rtc_l; [|apply rtc_refl]. cbn.
    exact (p_healthy (state_of w (Checking i c :: l) hs iss) [] l i c eq_refl).
Qed.

Lemma create_one_performs err w : performs w (MayCreate :: l) (create_one connect clock err w).
Proof.
  unfold create_one, performs, sb_connect.
  destruct (connect (ticks w)) as [c|e] eqn:E; cbn [now].
  - eexists. eapply rtc_l.
    { apply (p_connect _ [] l c); [done|by eapply fresh]. }
    eapply rtc_l; [|apply rtc_refl]. cbn.
    exact (p_push (mkP (config (pool w)) (connections (pool w)) (Connected c :: l) hs (c :: iss))
      [] l c _ eq_refl).
  - eexists. eapply rtc_l; [|apply rtc_refl]. cbn.
    exact (p_connect_failed (state_of w (MayCreate :: l) hs iss) [] l eq_refl).
Qed.

Lemma acquire_loop_performs fuel start timeout err w r :
  acquire_loop connect healthy clock fuel start timeout err w = Some r → performs w l r.
Proof.
  revert w. induction fuel as [|fuel IH]; intros w; [done|]. cbn [acquire_loop now].
  destruct (select_idle _ _) as [[[i c] cs]|] eqn:E.
  { intros [= <-]. match goal with |- performs _ _ (check_out _ _ _ _ _ _ ?w1) =>
      destruct (check_out_performs i c err w1) as (iss' & H) end.
    exists iss'. eapply rtc_l; [|exact H]. by apply (p_select (state_of w l hs iss) _ _ _ _ E). }
  assert (Hm : pstep (state_of w l hs iss) (state_of w (Missed :: l) hs iss))
    by exact (p_miss (state_of w l hs iss) _ E).
  destruct (can_create _ _) eqn:Ec.
  - intros [= <-]. destruct (create_one_performs err w) as (iss' & H). exists iss'.
    eapply rtc_l; [exact Hm|]. eapply rtc_l; [|exact H].
    by apply (p_may_create (state_of w (Missed :: l) hs iss) [] l).
  - destruct (_ <=? _).
    + intros [= <-]. by exists iss.
    + intros H. apply IH in H as (iss' & H). exists iss'. eapply rtc_l; [exact Hm|].
      eapply rtc_l; [|exact H]. by apply (p_retry (state_of w (Missed :: l) hs iss) [] l).
Qed.
End refinement.

(** [sb_pool_acquire], whatever other calls are in progress, performs steps
    of the interleaved pool: it ends with exactly the returned connection added
    to those in callers' hands. *)
Theorem acquire_refines_steps connect healthy clock l hs iss fuel err w c e w' :
  (∀ n c, connect n = inl c → c ∉ iss) →
  sb_pool_acquire connect healthy clock fuel false err w = Some (c, e, w') →
  ∃ iss', rtc pstep (state_of w l hs iss) (state_of w' l (option_list c ++ hs) iss').
Proof.
  intros Hf Ha. unfold sb_pool_acquire in Ha. cbn [now] in Ha.
  by apply (acquire_loop_performs connect healthy clock l hs iss Hf) in Ha.
Qed.

Lemma acquire_refines_steps_witness :
  let w := mkWorld (mkPool "x" (mkPoolConfig 0 2 0 0 0 true) [mkPooled (Some 7) 0 0 false]) ∅ [7] [] 0 0 in
  ∃ e w' iss',
    sb_pool_acquire (λ n, inl (100 + Z.of_nat n)) (λ _ _, false) (λ _, 0) 1 false None w
      = Some (Some 102, e, w') ∧
    rtc pstep (state_of w [] [] [7]) (state_of w' [] [102] iss').
Proof.
  intros w. eexists _, _.
  assert (Hf : ∀ n c, inl (100 + Z.of_nat n) = (inl c : handle + sb_error) → c ∉ [7]).
  { intros n c [= <-] ?%list_elem_of_singleton. lia. }
  assert (Ha : sb_pool_acquire (λ n, inl (100 + Z.of_nat n)) (λ _ _, false) (λ _, 0) 1 false None w
      = Some (Some 102, None, _)) by reflexivity.
  destruct (acquire_refines_steps _ _ _ [] [] [7] _ _ _ _ _ _ Hf Ha) as [iss' H].
  exists iss'. split; [exact Ha|exact H].
Defined.
