(* ===== verification/Leases.v ===== *)
(** * Owning wrappers: [ConnectionLease] and [ConnectionPool]

    The C++ classes of [src/pool.cpp] own a resource through nullable pointers,
    cannot be copied, and give it back in [reset], [close], a move assignment
    or the destructor. [Owner] states what the two classes share; the operations
    act on a store of objects, named by their addresses, so a move assignment of
    an object to itself is covered. *)

From S2P Require Import Prelude.
From S2P Require Import Client.
From S2P Require Import Pool.

(** An object type [L] that owns at most one resource of type [R]. *)
Class Owner (L R : Type) := {
  resource : L → option R;
  null_object : L;
  resource_null : resource null_object = None
}.

(** Objects by address, the resources taken so far, and those given back
    ([sb_pool_release], respectively [sb_pool_destroy]). *)
Record store (L R : Type) := mkStore {
  objects : gmap nat L;
  acquired : list R;
  released : list R
}.
Arguments mkStore {L R}.
Arguments objects {L R}.
Arguments acquired {L R}.
Arguments released {L R}.

Section owner.
Context `{Owner L R}.

(** [ConnectionLease::reset], [ConnectionPool::close]. *)
Definition reset (v : nat) (s : store L R) : store L R :=
  match objects s !! v with
  | Some o =>
      mkStore (<[v := null_object]> (objects s)) (acquired s)
        (released s ++ option_list (resource o))
  | None => s
  end.

(** The default constructor. *)
Definition construct (v : nat) (s : store L R) : store L R :=
  match objects s !! v with
  | Some _ => s
  | None => mkStore (<[v := null_object]> (objects s)) (acquired s) (released s)
  end.

(** A new object [v] for a resource just obtained. *)
Definition adopt (v : nat) (o : L) (s : store L R) : store L R :=
  match objects s !! v with
  | Some _ => s
  | None =>
      mkStore (<[v := o]> (objects s)) (acquired s ++ option_list (resource o)) (released s)
  end.

(** The move constructor. *)
Definition move_construct (v src : nat) (s : store L R) : store L R :=
  match objects s !! v, objects s !! src with
  | None, Some o => mkStore (<[src := null_object]> (<[v := o]> (objects s))) (acquired s) (released s)
  | _, _ => s
  end.

(** [operator=]: [if (this != &other) { reset(); ... }]. *)
Definition move_assign (dst src : nat) (s : store L R) : store L R :=
  if (dst =? src)%nat then s else
  match objects s !! dst, objects s !! src with
  | Some _, Some o =>
      let s := reset dst s in
      mkStore (<[src := null_object]> (<[dst := o]> (objects s))) (acquired s) (released s)
  | _, _ => s
  end.

(** [ConnectionPool::open]: [close()], then the pool just created, if any. *)
Definition reopen (v : nat) (o : L) (s : store L R) : store L R :=
  match objects s !! v with
  | Some _ =>
      let s := reset v s in
      mkStore (<[v := o]> (objects s)) (acquired s ++ option_list (resource o)) (released s)
  | None => s
  end.

(** The destructor. *)
Definition destroy (v : nat) (s : store L R) : store L R :=
  let s := reset v s in mkStore (delete v (objects s)) (acquired s) (released s).

Inductive op :=
  | OpConstruct (v : nat)
  | OpAdopt (v : nat) (o : L)
  | OpMove (v src : nat)
  | OpAssign (dst src : nat)
  | OpReset (v : nat)
  | OpReopen (v : nat) (o : L)
  | OpDestroy (v : nat).

Definition run_op (s : store L R) (o : op) : store L R :=
  match o with
  | OpConstruct v => construct v s
  | OpAdopt v o => adopt v o s
  | OpMove v src => move_construct v src s
  | OpAssign dst src => move_assign dst src s
  | OpReset v => reset v s
  | OpReopen v o => reopen v o s
  | OpDestroy v => destroy v s
  end.

Definition run (ops : list op) : store L R := foldl run_op (mkStore ∅ [] []) ops.

(** Resources held by live objects. *)
Definition live (m : gmap nat L) : list R := omap (λ kv, resource kv.2) (map_to_list m).

Definition balanced (s : store L R) : Prop := acquired s ≡ₚ released s ++ live (objects s).

Lemma live_insert m v o :
  m !! v = None → live (<[v := o]> m) ≡ₚ option_list (resource o) ++ live m.
Proof.
  intros Hv. unfold live. rewrite map_to_list_insert by done. csimpl. by destruct (resource o).
Qed.

Lemma live_replace m v o o' :
  m !! v = Some o →
  option_list (resource o) ++ live (<[v := o']> m) ≡ₚ option_list (resource o') ++ live m.
Proof.
  intros Hv. rewrite <-insert_delete_eq, live_insert by apply lookup_delete_eq.
  rewrite <-(insert_delete_id m v o) at 2 by done.
  rewrite live_insert by apply lookup_delete_eq. solve_Permutation.
Qed.

Lemma live_null m v o :
  m !! v = Some o → option_list (resource o) ++ live (<[v := null_object]> m) ≡ₚ live m.
Proof. intros Hv. rewrite (live_replace m v o) by done. by rewrite resource_null. Qed.

Lemma live_delete m v o :
  m !! v = Some o → resource o = None → live (delete v m) ≡ₚ live m.
Proof.
  intros Hv Hr. rewrite <-(insert_delete_id m v o) at 2 by done.
  rewrite live_insert by apply lookup_delete_eq. by rewrite Hr.
Qed.

(** The object at [v] changes, and holds the same resource. *)
Lemma live_same m v o o' : m !! v = Some o → resource o' = resource o → live (<[v := o']> m) ≡ₚ live m.
Proof.
  intros Hv E. apply (Permutation_app_inv_l (option_list (resource o))). by rewrite (live_replace m v o o' Hv), E.
Qed.

Lemma live_dropped m v o o' :
  m !! v = Some o → resource o' = None → option_list (resource o) ++ live (<[v := o']> m) ≡ₚ live m.
Proof. intros Hv E. by rewrite (live_replace m v o o' Hv), E. Qed.

(** The object at [x] gives up its own resource and takes that of [y]. *)
Lemma live_moved m x y p q a b p' : x ≠ y → m !! x = Some p → m !! y = Some q →
  resource a = resource q → resource b = None → resource p' = None →
  live (<[x := a]> (<[y := b]> m)) ≡ₚ live (<[x := p']> m).
Proof.
  intros Hxy Hx Hy Ha Hb Hp. apply (Permutation_app_inv_l (option_list (resource p))).
  rewrite (live_dropped _ _ _ _ Hx Hp), <-(live_dropped _ _ _ _ Hy Hb), <-Ha.
  apply live_replace. by rewrite lookup_insert_ne.
Qed.

Lemma reset_balanced v s : balanced s → balanced (reset v s).
Proof.
  unfold balanced, reset. destruct (objects s !! v) as [o|] eqn:E; [|done]. cbn.
  intros ->. rewrite <-(live_null _ _ _ E). by rewrite app_assoc.
Qed.

Lemma reset_lookup v s o :
  objects s !! v = Some o → objects (reset v s) !! v = Some null_object.
Proof. intros Hv. unfold reset. rewrite Hv. cbn. by rewrite lookup_insert_eq. Qed.

Lemma reset_lookup_ne v w s : v ≠ w → objects (reset v s) !! w = objects s !! w.
Proof.
  intros. unfold reset. destruct (objects s !! v); [|done]. cbn. by rewrite lookup_insert_ne.
Qed.

Lemma run_op_balanced s o : balanced s → balanced (run_op s o).
Proof.
  intros Hs. destruct o as [v|v o|v src|dst src|v|v o|v]; cbn [run_op].
  - unfold construct. destruct (objects s !! v) eqn:E; [done|]. unfold balanced in *. cbn.
    rewrite live_insert by done. by rewrite resource_null.
  - unfold adopt. destruct (objects s !! v) eqn:E; [done|]. unfold balanced in *. cbn.
    rewrite live_insert, Hs by done. solve_Permutation.
  - unfold move_construct. destruct (objects s !! v) eqn:E; [done|].
    destruct (objects s !! src) as [o|] eqn:E'; [|done]. unfold balanced in *. cbn.
    rewrite Hs. f_equiv. apply (Permutation_app_inv_l (option_list (resource o))).
    rewrite (live_null (<[v:=o]> (objects s)) src o).
    + by rewrite live_insert.
    + rewrite lookup_insert_ne; [done|congruence].
  - unfold move_assign. destruct (Nat.eqb_spec dst src) as [|Hne]; [done|].
    destruct (objects s !! dst) as [d|] eqn:E; [|done].
    destruct (objects s !! src) as [o|] eqn:E'; [|done].
    pose proof (reset_balanced dst s Hs) as Hr. unfold balanced in *. cbn. rewrite Hr. f_equiv.
    apply (Permutation_app_inv_l (option_list (resource o))).
    rewrite (live_null (<[dst:=o]> _) src o).
    + pose proof (live_replace _ dst _ o (reset_lookup dst s d E)) as Hl.
      rewrite resource_null in Hl. by rewrite Hl.
    + by rewrite lookup_insert_ne, reset_lookup_ne by done.
  - by apply reset_balanced.
  - unfold reopen. destruct (objects s !! v) as [d|] eqn:E; [|done].
    pose proof (reset_balanced v s Hs) as Hr. unfold balanced in *. cbn. rewrite Hr.
    pose proof (live_replace _ v _ o (reset_lookup v s d E)) as Hl.
    rewrite resource_null in Hl. cbn in Hl. rewrite Hl. solve_Permutation.
  - pose proof (reset_balanced v s Hs) as Hr. unfold balanced, destroy in *. cbn. rewrite Hr.
    f_equiv. destruct (objects s !! v) as [o|] eqn:E.
    + by rewrite (live_delete _ _ _ (reset_lookup v s o E) resource_null).
    + unfold reset. rewrite E. by rewrite delete_id.
Qed.

Lemma run_balanced ops : balanced (run ops).
Proof.
  unfold run. assert (balanced (mkStore ∅ [] [] : store L R)) as Hs.
  { unfold balanced, live. cbn. by rewrite map_to_list_empty. }
  revert Hs. generalize (mkStore ∅ [] [] : store L R).
  induction ops as [|o ops IH]; intros s Hs; [done|]. by apply IH, run_op_balanced.
Qed.
End owner.
Arguments op : clear implicits.

(** ** The two classes *)

(** [pool_] and [conn_]; a released lease has both null. *)
Record ConnectionLease := mkLease { pool_ : option handle; conn_ : option handle }.

Definition lease_resource (l : ConnectionLease) : option (handle * handle) :=
  match pool_ l, conn_ l with Some p, Some c => Some (p, c) | _, _ => None end.

#[export] Instance lease_owner : Owner ConnectionLease (handle * handle) := {
  resource := lease_resource;
  null_object := mkLease None None;
  resource_null := eq_refl
}.

Definition valid (l : ConnectionLease) : bool := bool_decide (is_Some (conn_ l)).

Definition raw (l : ConnectionLease) : option handle := conn_ l.

(** [ConnectionLease::query] and [::execute], given [sb_query] and [sb_execute]. *)
Definition lease_call {R} (sb_call : handle → bytes → option sb_error → option R * option sb_error)
    (l : ConnectionLease) (sql : bytes) (err : option sb_error) : option R * option sb_error :=
  match conn_ l with
  | None => (None, set_error err SB_ERR_INVALID_HANDLE "Connection lease is empty")
  | Some c => sb_call c sql err
  end.

Record ConnectionPool := mkConnectionPool { pool_ptr : option handle }.

#[export] Instance pool_owner : Owner ConnectionPool handle := {
  resource := pool_ptr;
  null_object := mkConnectionPool None;
  resource_null := eq_refl
}.

(** [ConnectionPool::acquire], given the result of [sb_pool_acquire]. *)
Definition pool_acquire (p : ConnectionPool) (acquire : option handle * option sb_error)
    (err : option sb_error) : ConnectionLease * option sb_error :=
  match pool_ptr p with
  | None => (null_object, set_error err SB_ERR_INVALID_HANDLE "Pool is not open")
  | Some h =>
      match acquire with
      | (None, err) => (null_object, err)
      | (Some c, err) => (mkLease (Some h) (Some c), err)
      end
  end.

(** [ConnectionPool::open], given the result of [sb_pool_create]. *)
Definition pool_open (v : nat) (created : option handle) (s : store ConnectionPool handle)
    : bool * store ConnectionPool handle :=
  (bool_decide (is_Some created), reopen v (mkConnectionPool created) s).

Definition isOpen (p : ConnectionPool) : bool := bool_decide (is_Some (pool_ptr p)).

(** [ConnectionPool::stats]; [p] is what the pointer refers to. *)
Definition pool_stats (c : ConnectionPool) (p : sb_connection_pool) : sb_pool_stats :=
  match pool_ptr c with
  | None => mkStats 0 0 0
  | Some _ => sb_pool_get_stats false p
  end.

(** Every connection leased is released exactly once, and every pool opened
    is destroyed exactly once, whatever the sequence of constructions, moves,
    self-moves, reopenings, resets and destructions; when no object is left, all are. *)
Theorem leases_release_once (ops : list (op ConnectionLease)) (pops : list (op ConnectionPool)) :
  acquired (run ops) ≡ₚ released (run ops) ++ live (objects (run ops)) ∧
  (objects (run ops) = ∅ → released (run ops) ≡ₚ acquired (run ops)) ∧
  acquired (run pops) ≡ₚ released (run pops) ++ live (objects (run pops)) ∧
  (objects (run pops) = ∅ → released (run pops) ≡ₚ acquired (run pops)).
Proof.
  pose proof (run_balanced ops) as H1. pose proof (run_balanced pops) as H2.
  unfold balanced in *. split_and!; [done| |done|].
  - intros E. rewrite H1, E. unfold live. by rewrite map_to_list_empty, app_nil_r.
  - intros E. rewrite H2, E. unfold live. by rewrite map_to_list_empty, app_nil_r.
Qed.
