(* ===== verification/State.v ===== *)
(** * State passing

    Computations over a state [W], for the parts of the code that call the
    system or OpenSSL: the state holds what was called so far. *)

From S2P Require Import Prelude.

Definition stateM (W A : Type) : Type := W → A * W.

#[export] Instance state_ret W : MRet (stateM W) := λ A a w, (a, w).
#[export] Instance state_bind W : MBind (stateM W) := λ A B f m w, let '(a, w) := m w in f a w.
#[export] Instance state_fmap W : FMap (stateM W) := λ A B f m, a ← m; mret (f a).

Definition gets {W A} (f : W → A) : stateM W A := λ w, (f w, w).
Definition modify_state {W} (f : W → W) : stateM W unit := λ w, (tt, f w).

Lemma state_bind_run {W A B} (m : stateM W A) (f : A → stateM W B) a w w' : m w = (a, w') → (m ≫= f) w = f a w'.
Proof. unfold mbind, state_bind. by intros ->. Qed.

Lemma state_fmap_run {W A B} (f : A → B) (m : stateM W A) w : (f <$> m) w = (f (m w).1, (m w).2).
Proof. unfold fmap, state_fmap, mbind, state_bind. by destruct (m w). Qed.

(** ** What a computation adds to a log *)

Section log.
Context {W E : Type} (log : W → list E).

(** [m] adds events to the log, and [Q] relates them to its result. *)
Definition appends {A} (m : stateM W A) (Q : A → list E → Prop) : Prop := ∀ w, ∃ new,
  log (m w).2 = log w ++ new ∧ Q (m w).1 new.

Lemma appends_ret {A} (a : A) (Q : A → list E → Prop) : Q a [] → appends (mret a) Q.
Proof. intros HQ w. exists []. by rewrite app_nil_r. Qed.

Lemma appends_bind {A B} (m : stateM W A) (f : A → stateM W B) (P : A → list E → Prop) (Q : B → list E → Prop) :
  appends m P → (∀ a new, P a new → appends (f a) (λ b new', Q b (new ++ new'))) → appends (m ≫= f) Q.
Proof.
  intros Hm Hf w. destruct (Hm w) as (new & E1 & HP). unfold mbind, state_bind. destruct (m w) as [a w1]. cbn in *.
  destruct (Hf a new HP w1) as (new' & E2 & HQ). exists (new ++ new'). by rewrite E2, E1, app_assoc.
Qed.

Lemma appends_mono {A} (m : stateM W A) (P Q : A → list E → Prop) :
  appends m P → (∀ a new, P a new → Q a new) → appends m Q.
Proof. intros Hm HPQ w. destruct (Hm w) as (new & ? & ?). eauto. Qed.

(** [m] adds nothing. *)
Definition silent {A} (m : stateM W A) : Prop := appends m (λ _ new, new = []).

Lemma silent_ret {A} (a : A) : silent (mret a).
Proof. by apply appends_ret. Qed.

Lemma silent_bind {A B} (m : stateM W A) (f : A → stateM W B) : silent m → (∀ a, silent (f a)) → silent (m ≫= f).
Proof.
  intros Hm Hf. eapply appends_bind; [exact Hm|]. intros a new ->. apply Hf.
Qed.

Lemma appends_silent {A B} (m : stateM W A) (f : A → stateM W B) (Q : B → list E → Prop) :
  silent m → (∀ a, appends (f a) Q) → appends (m ≫= f) Q.
Proof. intros Hm Hf. eapply appends_bind; [exact Hm|]. intros a new ->. apply Hf. Qed.

Lemma silent_gets {A} (f : W → A) : silent (gets f).
Proof. intros w. exists []. by rewrite app_nil_r. Qed.

Lemma silent_modify (f : W → W) : (∀ w, log (f w) = log w) → silent (modify_state f).
Proof. intros Hf w. exists []. rewrite app_nil_r. split; [apply Hf|done]. Qed.
End log.
