(* ===== verification/Socket.v ===== *)
(** * Sockets

    Models [src/network/socket.cpp] with [include/scratchbird/network/socket.h]
    and [socket_types.h], on Linux: addresses, the states of a socket, who owns
    its descriptor, reading, writing and waiting, and the options. The system
    calls are the interface [System] over a state [K] of the system; what is
    assumed of them is stated where it is used. [Transport] sees a socket as a
    list of arrivals: the last theorems justify that view. *)

From S2P Require Import Prelude.
From S2P Require Import Sqlstate.
From S2P Require Import ErrorContext.
From S2P Require Import Text.
From S2P Require Import State.
From S2P Require Import Transport.
From S2P Require Import Leases.

(** ** Types *)

Inductive AddressFamily := IPV4 | IPV6 | UNIX | UNSPEC.
Inductive SocketType := STREAM | DATAGRAM | RAW.
Inductive SocketState :=
  | CLOSED | CREATED | BOUND | LISTENING | CONNECTING | CONNECTED | SSL_HANDSHAKE | READY | CLOSING | ERROR_STATE.

#[export] Instance AddressFamily_eq_dec : EqDecision AddressFamily.
Proof. solve_decision. Defined.
#[export] Instance SocketType_eq_dec : EqDecision SocketType.
Proof. solve_decision. Defined.
#[export] Instance SocketState_eq_dec : EqDecision SocketState.
Proof. solve_decision. Defined.

Record NetworkAddress := mkAddress { family : AddressFamily; host : bytes; port : Z; path : bytes }.

(** The three constructors. *)
Definition no_address : NetworkAddress := mkAddress UNSPEC [] 0 [].
Definition inet_address (h : bytes) (p : Z) (af : AddressFamily) : NetworkAddress := mkAddress af h p [].
Definition unix_address (unix_path : bytes) : NetworkAddress := mkAddress UNIX [] 0 unix_path.

Definition toString (a : NetworkAddress) : bytes :=
  match family a with
  | UNIX => ("unix:" : bytes) ++ path a
  | IPV6 => ("[" : bytes) ++ host a ++ ("]:" : bytes) ++ dec (port a)
  | _ => host a ++ (":" : bytes) ++ dec (port a)
  end.

Definition isValidAddress (a : NetworkAddress) : bool :=
  match family a with
  | UNIX => negb (bool_decide (path a = []))
  | _ => negb (bool_decide (host a = [])) && (0 <? port a)
  end.

Record SocketOptions := mkOptions {
  reuse_address : bool;
  reuse_port : bool;
  tcp_nodelay : bool;
  tcp_keepalive : bool;
  keepalive_idle_sec : Z;
  keepalive_interval_sec : Z;
  keepalive_count : Z;
  recv_buffer_size : Z;
  send_buffer_size : Z;
  connect_timeout_ms : Z;
  read_timeout_ms : Z;
  write_timeout_ms : Z;
  non_blocking : bool
}.

Definition DEFAULT_RECV_BUFFER_SIZE : Z := 65536.
Definition DEFAULT_SEND_BUFFER_SIZE : Z := 65536.

Definition default_options : SocketOptions :=
  mkOptions true false true true 60 10 5 DEFAULT_RECV_BUFFER_SIZE DEFAULT_SEND_BUFFER_SIZE 30000 300000 300000 false.

(** Of the statistics those that a socket writes; times are those of the steady
    clock. *)
Record NetworkStats := mkStats {
  bytes_sent : Z;
  bytes_received : Z;
  connected_at : Z;
  last_activity : Z;
  last_read : Z;
  last_write : Z
}.

#[export] Instance NetworkStats_eta : Eta NetworkStats :=
  λ s, mkStats (bytes_sent s) (bytes_received s) (connected_at s) (last_activity s) (last_read s) (last_write s).

Definition INVALID_SOCKET_VALUE : Z := -1.

Record Socket := mkSocket {
  fd_ : Z;
  family_ : AddressFamily;
  type_ : SocketType;
  state_ : SocketState;
  non_blocking_ : bool;
  last_error_ : Z;
  stats_ : NetworkStats
}.

#[export] Instance Socket_eta : Eta Socket :=
  λ s, mkSocket (fd_ s) (family_ s) (type_ s) (state_ s) (non_blocking_ s) (last_error_ s) (stats_ s).

Definition isValid (s : Socket) : bool := negb (fd_ s =? INVALID_SOCKET_VALUE).
Definition isOpen (s : Socket) : bool := negb (bool_decide (state_ s = CLOSED)).
Definition isConnected (s : Socket) : bool := bool_decide (state_ s ∈ [CONNECTED; READY]).

(** ** The system *)

Definition AF_UNSPEC : Z := 0.
Definition AF_UNIX : Z := 1.
Definition AF_INET : Z := 2.
Definition AF_INET6 : Z := 10.
Definition POLLIN : Z := 1.
Definition POLLOUT : Z := 4.
(** [POLLERR | POLLHUP | POLLNVAL] *)
Definition poll_faults : Z := 56.
Definition EAGAIN : Z := 11.
Definition EINPROGRESS : Z := 115.
Definition O_NONBLOCK : Z := 2048.

Definition toNativeFamily (family : AddressFamily) : Z :=
  match family with IPV4 => AF_INET | IPV6 => AF_INET6 | UNIX => AF_UNIX | UNSPEC => AF_UNSPEC end.

Definition toNativeType (type : SocketType) : Z :=
  match type with STREAM => 1 | DATAGRAM => 2 | RAW => 3 end.

(** [sockaddr_storage], as the member that its family selects. *)
Inductive sockaddr :=
  | SockaddrUn (sun_path : bytes)
  | SockaddrIn (addr : bytes) (sin_port : Z)
  | SockaddrIn6 (addr : bytes) (sin6_port : Z)
  | SockaddrOther.

(** An option of [setsockopt] with its value. *)
Inductive sockopt :=
  | TCP_NODELAY (flag : Z)
  | SO_KEEPALIVE (flag : Z)
  | TCP_KEEPIDLE (seconds : Z)
  | TCP_KEEPINTVL (seconds : Z)
  | TCP_KEEPCNT (count : Z)
  | SO_REUSEADDR (flag : Z)
  | SO_REUSEPORT (flag : Z)
  | SO_RCVBUF (size : Z)
  | SO_SNDBUF (size : Z)
  | SO_RCVTIMEO (seconds microseconds : Z)
  | SO_SNDTIMEO (seconds microseconds : Z)
  | SO_LINGER (onoff seconds : Z).

(** What the code calls. A call that can fail answers the error number, on the
    left, or its result; [poll] answers the events when it finds the descriptor
    ready. New descriptors are never -1. *)
Class System (K : Type) := {
  inet_pton : Z → bytes → option bytes;
  inet_ntop : Z → bytes → bytes;
  strerror : Z → bytes;
  steady_clock : K → Z;
  getaddrinfo : Z → bytes → K → option bytes * K;
  sys_socket : Z → Z → K → (Z + Z) * K;
  sys_connect : Z → sockaddr → K → (Z + unit) * K;
  sys_bind : Z → sockaddr → K → (Z + unit) * K;
  sys_listen : Z → Z → K → (Z + unit) * K;
  sys_accept : Z → K → (Z + Z * sockaddr) * K;
  sys_shutdown : Z → bool → bool → K → (Z + unit) * K;
  sys_close : Z → K → K;
  sys_recv : Z → nat → bool → K → (Z + bytes) * K;
  sys_send : Z → bytes → K → (Z + nat) * K;
  sys_readv : Z → list nat → K → (Z + bytes) * K;
  sys_writev : Z → list bytes → K → (Z + nat) * K;
  sys_poll : Z → Z → Z → K → option Z * K;
  sys_ioctl : Z → K → option Z * K;
  sys_getfl : Z → K → option Z * K;
  sys_setfl : Z → Z → K → bool * K;
  sys_setsockopt : Z → sockopt → K → bool * K;
  sys_getsockname : Z → K → option sockaddr * K;
  sys_getpeername : Z → K → option sockaddr * K;
  sys_peercred : Z → K → option (Z * Z * Z) * K;
  socket_valid f t k fd k' : sys_socket f t k = (inr fd, k') → fd ≠ INVALID_SOCKET_VALUE;
  accept_valid l k fd a k' : sys_accept l k = (inr (fd, a), k') → fd ≠ INVALID_SOCKET_VALUE
}.

(** The caller's error context, the system, and the descriptors that were
    obtained and closed so far. *)
Record world (K : Type) := mkWorld {
  context : option ErrorContext;
  system : K;
  taken : list Z;
  closed : list Z
}.
Arguments mkWorld {K}.
Arguments context {K}.
Arguments system {K}.
Arguments taken {K}.
Arguments closed {K}.

#[export] Instance world_eta K : Eta (world K) := λ w, mkWorld (context w) (system w) (taken w) (closed w).

Abbreviation IO K := (stateM (world K)).

Section socket.
Context {K : Type} `{System K}.

Definition call {A} (f : K → A * K) : IO K A := λ w, let '(a, k) := f (system w) in (a, w <| system := k |>).
Definition clock : IO K Z := λ w, (steady_clock (system w), w).

(** [SET_ERROR_CONTEXT(ctx, status, message); return status;] *)
Definition fail (status : Status) (message : bytes) : IO K Status := λ w,
  (status, w <| context := set_context (context w) status message |>).

Definition note_taken (fd : Z) : IO K unit := λ w, (tt, w <| taken := taken w ++ [fd] |>).

Definition close_descriptor (fd : Z) : IO K unit := λ w,
  (tt, w <| system := sys_close fd (system w) |> <| closed := closed w ++ [fd] |>).

(** ** Addresses *)

(** [c_str()] *)
Definition c_string (s : bytes) : bytes := match find_byte Byte.x00 s with Some n => take n s | None => s end.

Definition fill_inet (family : Z) (any : list bytes) (zeros : bytes) (h : bytes) : IO K (option bytes) :=
  if bool_decide (h ∈ any) then mret (Some zeros)
  else match inet_pton family (c_string h) with
  | Some addr => mret (Some addr)
  | None => call (getaddrinfo family (c_string h))
  end.

Definition fillSockaddr (a : NetworkAddress) : IO K (option sockaddr) :=
  match family a with
  | UNIX => mret (if (108 <=? length (path a))%nat then None else Some (SockaddrUn (c_string (path a))))
  | IPV4 =>
      addr ← fill_inet AF_INET [[]; ("0.0.0.0" : bytes)] (replicate 4 Byte.x00) (host a);
      mret ((λ b, SockaddrIn b (port a)) <$> addr)
  | IPV6 =>
      addr ← fill_inet AF_INET6 [[]; ("::" : bytes)] (replicate 16 Byte.x00) (host a);
      mret ((λ b, SockaddrIn6 b (port a)) <$> addr)
  | UNSPEC => mret None
  end.

Definition fromSockaddr (sa : sockaddr) : NetworkAddress :=
  match sa with
  | SockaddrIn addr p => mkAddress IPV4 (inet_ntop AF_INET addr) p []
  | SockaddrIn6 addr p => mkAddress IPV6 (inet_ntop AF_INET6 addr) p []
  | SockaddrUn sun_path => mkAddress UNIX [] 0 sun_path
  | SockaddrOther => no_address
  end.

(** ** Sockets and their descriptors *)

(** The constructor from a descriptor; the statistics start now. *)
Definition new_socket (fd : Z) (family : AddressFamily) (type : SocketType) (now : Z) : Socket :=
  mkSocket fd family type CREATED false 0 (mkStats 0 0 now now now now).

Definition create (family : AddressFamily) (type : SocketType) : IO K (option Socket) :=
  r ← call (sys_socket (toNativeFamily family) (toNativeType type));
  match r with
  | inl errno => _ ← fail IO_ERROR (("socket() failed: " : bytes) ++ strerror errno); mret None
  | inr fd => _ ← note_taken fd; now ← clock; mret (Some (new_socket fd family type now))
  end.

(** The descriptor comes from the caller. *)
Definition fromFd (fd : Z) (family : AddressFamily) (type : SocketType) : IO K Socket :=
  now ← clock; mret (new_socket fd family type now).

(** Also the destructor. *)
Definition close (s : Socket) : IO K Socket :=
  if isValid s then
    _ ← close_descriptor (fd_ s);
    mret (s <| fd_ := INVALID_SOCKET_VALUE |> <| state_ := CLOSED |>)
  else mret s.

(** The move constructor: the new object and what is left of the other. *)
Definition moved_from (s : Socket) : Socket := s <| fd_ := INVALID_SOCKET_VALUE |> <| state_ := CLOSED |>.

Definition move_socket (other : Socket) : IO K (Socket * Socket) :=
  now ← clock; mret (other <| stats_ := mkStats 0 0 now now now now |>, moved_from other).

(** The move assignment of another object; its statistics are not moved. *)
Definition assign_socket (self other : Socket) : IO K (Socket * Socket) :=
  self ← close self; mret (other <| stats_ := stats_ self |>, moved_from other).

Definition release (s : Socket) : Z * Socket := (fd_ s, moved_from s).

(** ** Connecting *)

Definition connect_to (a : NetworkAddress) (s : Socket) : IO K (Status * Socket) :=
  if negb (isValid s) then st ← fail INTERNAL_ERROR "Socket not created"; mret (st, s) else
  ss ← fillSockaddr a;
  match ss with
  | None => st ← fail INVALID_ARGUMENT "Invalid address"; mret (st, s)
  | Some ss =>
      r ← call (sys_connect (fd_ s) ss);
      let connected := now ← clock; mret (OK, s <| state_ := CONNECTED |> <| stats_ := stats_ s <| connected_at := now |> |>) in
      match r with
      | inl errno =>
          if (errno =? EINPROGRESS) || (errno =? EAGAIN) then connected
          else
            st ← fail CONNECTION_FAILURE (("connect() failed: " : bytes) ++ strerror errno);
            mret (st, s <| last_error_ := errno |> <| state_ := ERROR_STATE |>)
      | inr _ => connected
      end
  end.

Definition bind (a : NetworkAddress) (s : Socket) : IO K (Status * Socket) :=
  if negb (isValid s) then st ← fail INTERNAL_ERROR "Socket not created"; mret (st, s) else
  ss ← fillSockaddr a;
  match ss with
  | None => st ← fail INVALID_ARGUMENT "Invalid address"; mret (st, s)
  | Some ss =>
      r ← call (sys_bind (fd_ s) ss);
      match r with
      | inl errno =>
          st ← fail CONNECTION_FAILURE (("bind() failed: " : bytes) ++ strerror errno);
          mret (st, s <| last_error_ := errno |>)
      | inr _ => mret (OK, s <| state_ := BOUND |>)
      end
  end.

Definition listen (backlog : Z) (s : Socket) : IO K (Status * Socket) :=
  if negb (isValid s) then st ← fail INTERNAL_ERROR "Socket not created"; mret (st, s) else
  r ← call (sys_listen (fd_ s) backlog);
  match r with
  | inl errno =>
      st ← fail CONNECTION_FAILURE (("listen() failed: " : bytes) ++ strerror errno);
      mret (st, s <| last_error_ := errno |>)
  | inr _ => mret (OK, s <| state_ := LISTENING |>)
  end.

(** The client with its address, when there is one. *)
Definition accept (s : Socket) : IO K (option (Socket * NetworkAddress) * Socket) :=
  if negb (isValid s) then _ ← fail INTERNAL_ERROR "Socket not created"; mret (None, s) else
  r ← call (sys_accept (fd_ s));
  match r with
  | inl errno =>
      if errno =? EAGAIN then mret (None, s)
      else
        _ ← fail CONNECTION_FAILURE (("accept() failed: " : bytes) ++ strerror errno);
        mret (None, s <| last_error_ := errno |>)
  | inr (client_fd, sa) =>
      _ ← note_taken client_fd;
      now ← clock;
      mret (Some (new_socket client_fd (family_ s) (type_ s) now <| state_ := CONNECTED |>, fromSockaddr sa), s)
  end.

Definition shutdown (read write : bool) (s : Socket) : IO K (Status * Socket) :=
  if negb (isValid s) || negb (read || write) then mret (OK, s) else
  r ← call (sys_shutdown (fd_ s) read write);
  match r with
  | inl errno =>
      st ← fail IO_ERROR (("shutdown() failed: " : bytes) ++ strerror errno);
      mret (st, s <| last_error_ := errno |>)
  | inr _ => mret (OK, s)
  end.

(** ** Waiting *)

Definition pollSocket (events timeout_ms : Z) (s : Socket) : IO K bool :=
  if negb (isValid s) then mret false else
  r ← call (sys_poll (fd_ s) events timeout_ms);
  mret match r with
       | None => false
       | Some revents => (Z.land revents poll_faults =? 0) && negb (Z.land revents events =? 0)
       end.

Definition waitReadable (timeout_ms : Z) : Socket → IO K bool := pollSocket POLLIN timeout_ms.
Definition waitWritable (timeout_ms : Z) : Socket → IO K bool := pollSocket POLLOUT timeout_ms.
Definition hasDataAvailable : Socket → IO K bool := pollSocket POLLIN 0.

Definition bytesAvailable (s : Socket) : IO K Z :=
  if negb (isValid s) then mret 0 else
  r ← call (sys_ioctl (fd_ s)); mret (default 0 r).

(** ** Reading and writing

    The bytes that a read stores, with their number in [bytes_read]; [None]
    when that is not written. *)

Definition updateLastRead (s : Socket) : IO K Socket :=
  now ← clock; mret (s <| stats_ := stats_ s <| last_activity := now |> <| last_read := now |> |>).
Definition updateLastWrite (s : Socket) : IO K Socket :=
  now ← clock; mret (s <| stats_ := stats_ s <| last_activity := now |> <| last_write := now |> |>).

Definition received (n : nat) (s : Socket) : Socket :=
  s <| stats_ := stats_ s <| bytes_received := u64 (bytes_received (stats_ s) + Z.of_nat n) |> |>.
Definition sent (n : nat) (s : Socket) : Socket :=
  s <| stats_ := stats_ s <| bytes_sent := u64 (bytes_sent (stats_ s) + Z.of_nat n) |> |>.

(** [last_error_], the message and [IO_ERROR]. *)
Definition io_error {A} (what : bytes) (errno : Z) (out : A) (s : Socket) : IO K (Status * A * Socket) :=
  st ← fail IO_ERROR (what ++ strerror errno); mret (st, out, s <| last_error_ := errno |>).

Definition read (size : nat) (s : Socket) : IO K (Status * option bytes * Socket) :=
  if negb (isValid s) then st ← fail INTERNAL_ERROR "Socket not open"; mret (st, None, s) else
  r ← call (sys_recv (fd_ s) size false);
  match r with
  | inl errno =>
      if errno =? EAGAIN then mret (OK, Some [], s) else io_error "recv() failed: " errno None s
  | inr [] => mret (CONNECTION_FAILURE, Some [], s <| state_ := CLOSING |>)
  | inr b => s ← updateLastRead (received (length b) s); mret (OK, Some b, s)
  end.

(** One unit of [fuel] per turn of the loop; [None] when it runs out. What was
    stored before a failure is returned too. *)
Fixpoint readExact (fuel size : nat) (s : Socket) : IO K (option (Status * bytes * Socket)) :=
  if (size =? 0)%nat then mret (Some (OK, [], s)) else
  match fuel with
  | O => mret None
  | Datatypes.S fuel =>
      '(status, got, s) ← read size s;
      if bool_decide (status ≠ OK) then mret (Some (status, [], s)) else
      match default [] got with
      | [] =>
          ready ← waitReadable 1000 s;
          if ready : bool then readExact fuel size s
          else st ← fail IO_ERROR "Timeout waiting for data"; mret (Some (st, [], s))
      | b =>
          r ← readExact fuel (size - length b) s;
          mret ((λ '(status, rest, s), (status, b ++ rest, s)) <$> r)
      end
  end.

Definition readWithTimeout (size : nat) (timeout_ms : Z) (s : Socket) : IO K (Status * option bytes * Socket) :=
  ready ← waitReadable (i32 timeout_ms) s;
  if ready : bool then read size s
  else st ← fail IO_ERROR "Read timeout"; mret (st, Some [], s).

Definition write (buffer : bytes) (s : Socket) : IO K (Status * option nat * Socket) :=
  if negb (isValid s) then st ← fail INTERNAL_ERROR "Socket not open"; mret (st, None, s) else
  r ← call (sys_send (fd_ s) buffer);
  match r with
  | inl errno =>
      if errno =? EAGAIN then mret (OK, Some 0%nat, s) else io_error "send() failed: " errno None s
  | inr n => s ← updateLastWrite (sent n s); mret (OK, Some n, s)
  end.

Fixpoint writeExact (fuel : nat) (buffer : bytes) (s : Socket) : IO K (option (Status * Socket)) :=
  if bool_decide (buffer = []) then mret (Some (OK, s)) else
  match fuel with
  | O => mret None
  | Datatypes.S fuel =>
      '(status, n, s) ← write buffer s;
      if bool_decide (status ≠ OK) then mret (Some (status, s)) else
      match default 0%nat n with
      | O =>
          ready ← waitWritable 1000 s;
          if ready : bool then writeExact fuel buffer s
          else st ← fail IO_ERROR "Timeout waiting to write"; mret (Some (st, s))
      | n => writeExact fuel (drop n buffer) s
      end
  end.

Definition writeWithTimeout (buffer : bytes) (timeout_ms : Z) (s : Socket) : IO K (Status * option nat * Socket) :=
  ready ← waitWritable (i32 timeout_ms) s;
  if ready : bool then write buffer s
  else st ← fail IO_ERROR "Write timeout"; mret (st, Some 0%nat, s).

(** The bytes read fill the buffers one after the other. *)
Definition readv (sizes : list nat) (s : Socket) : IO K (Status * option bytes * Socket) :=
  r ← call (sys_readv (fd_ s) sizes);
  match r with
  | inl errno =>
      if errno =? EAGAIN then mret (OK, Some [], s) else io_error "readv() failed: " errno None s
  | inr [] => mret (CONNECTION_FAILURE, Some [], s)
  | inr b => s ← updateLastRead (received (length b) s); mret (OK, Some b, s)
  end.

Definition writev (buffers : list bytes) (s : Socket) : IO K (Status * option nat * Socket) :=
  r ← call (sys_writev (fd_ s) buffers);
  match r with
  | inl errno =>
      if errno =? EAGAIN then mret (OK, Some 0%nat, s) else io_error "writev() failed: " errno None s
  | inr n => s ← updateLastWrite (sent n s); mret (OK, Some n, s)
  end.

Definition peek (size : nat) (s : Socket) : IO K (Status * option bytes * Socket) :=
  if negb (isValid s) then st ← fail INTERNAL_ERROR "Socket not open"; mret (st, None, s) else
  r ← call (sys_recv (fd_ s) size true);
  match r with
  | inl errno =>
      if errno =? EAGAIN then mret (OK, Some [], s) else io_error "peek() failed: " errno None s
  | inr b => mret (OK, Some b, s)
  end.

(** ** Options *)

Definition flag (enabled : bool) : Z := if enabled then 1 else 0.

(** A [setsockopt] that must succeed. *)
Definition set_option (o : sockopt) (name : bytes) (s : Socket) : IO K Status :=
  ok ← call (sys_setsockopt (fd_ s) o);
  if ok : bool then mret OK else fail IO_ERROR (("setsockopt(" : bytes) ++ name ++ (") failed" : bytes)).

Definition setTcpNoDelay (enabled : bool) : Socket → IO K Status := set_option (TCP_NODELAY (flag enabled)) "TCP_NODELAY".
Definition setReuseAddress (enabled : bool) : Socket → IO K Status := set_option (SO_REUSEADDR (flag enabled)) "SO_REUSEADDR".
Definition setReusePort (enabled : bool) : Socket → IO K Status := set_option (SO_REUSEPORT (flag enabled)) "SO_REUSEPORT".
Definition setRecvBufferSize (size : Z) : Socket → IO K Status := set_option (SO_RCVBUF (i32 size)) "SO_RCVBUF".
Definition setSendBufferSize (size : Z) : Socket → IO K Status := set_option (SO_SNDBUF (i32 size)) "SO_SNDBUF".
Definition setReadTimeout (timeout_ms : Z) : Socket → IO K Status :=
  set_option (SO_RCVTIMEO (timeout_ms / 1000) (timeout_ms mod 1000 * 1000)) "SO_RCVTIMEO".
Definition setWriteTimeout (timeout_ms : Z) : Socket → IO K Status :=
  set_option (SO_SNDTIMEO (timeout_ms / 1000) (timeout_ms mod 1000 * 1000)) "SO_SNDTIMEO".
Definition setLinger (enabled : bool) (timeout_sec : Z) : Socket → IO K Status :=
  set_option (SO_LINGER (flag enabled) (u16 timeout_sec)) "SO_LINGER".

(** The answers to the three last calls are not looked at. *)
Definition setKeepAlive (enabled : bool) (idle_sec interval_sec count : Z) (s : Socket) : IO K Status :=
  status ← set_option (SO_KEEPALIVE (flag enabled)) "SO_KEEPALIVE" s;
  if bool_decide (status ≠ OK) || negb enabled then mret status else
  _ ← call (sys_setsockopt (fd_ s) (TCP_KEEPIDLE (i32 idle_sec)));
  _ ← call (sys_setsockopt (fd_ s) (TCP_KEEPINTVL (i32 interval_sec)));
  _ ← call (sys_setsockopt (fd_ s) (TCP_KEEPCNT (i32 count)));
  mret OK.

Definition setNonBlockingInternal (fd : Z) (enabled : bool) : IO K bool :=
  flags ← call (sys_getfl fd);
  match flags with
  | None => mret false
  | Some flags => call (sys_setfl fd (if enabled then Z.lor flags O_NONBLOCK else Z.ldiff flags O_NONBLOCK))
  end.

Definition setNonBlocking (enabled : bool) (s : Socket) : IO K (Status * Socket) :=
  ok ← setNonBlockingInternal (fd_ s) enabled;
  if ok : bool then mret (OK, s <| non_blocking_ := enabled |>)
  else st ← fail IO_ERROR "Failed to set non-blocking mode"; mret (st, s).

(** [if (cond) { auto s = set; if (s != OK) return s; }], then the rest. *)
Definition when_set (cond : bool) (set : IO K Status) (rest : IO K (Status * Socket)) (s : Socket) : IO K (Status * Socket) :=
  if cond then
    status ← set;
    if bool_decide (status = OK) then rest else mret (status, s)
  else rest.

Definition applyOptions (o : SocketOptions) (s : Socket) : IO K (Status * Socket) :=
  when_set (reuse_address o) (setReuseAddress true s) (
  when_set (reuse_port o) (setReusePort true s) (
  when_set (tcp_nodelay o && bool_decide (type_ s = STREAM) && negb (bool_decide (family_ s = UNIX)))
    (setTcpNoDelay true s) (
  when_set (tcp_keepalive o && bool_decide (type_ s = STREAM))
    (setKeepAlive true (keepalive_idle_sec o) (keepalive_interval_sec o) (keepalive_count o) s) (
  when_set (negb (recv_buffer_size o =? DEFAULT_RECV_BUFFER_SIZE)) (setRecvBufferSize (recv_buffer_size o) s) (
  when_set (negb (send_buffer_size o =? DEFAULT_SEND_BUFFER_SIZE)) (setSendBufferSize (send_buffer_size o) s) (
  if non_blocking o then setNonBlocking true s else mret (OK, s)) s) s) s) s) s) s.

(** The static [connect]: a socket that is not returned is destroyed. *)
Definition connect (a : NetworkAddress) (o : SocketOptions) : IO K (option Socket) :=
  sock ← create (family a) STREAM;
  match sock with
  | None => mret None
  | Some s =>
      '(status, s) ← applyOptions o s;
      if bool_decide (status ≠ OK) then _ ← close s; mret None else
      '(status, s) ← connect_to a s;
      if bool_decide (status ≠ OK) then _ ← close s; mret None else mret (Some s)
  end.

Definition connectUnix (path : bytes) : SocketOptions → IO K (option Socket) := connect (unix_address path).

(** ** Information *)

Definition getLocalAddress (s : Socket) : IO K (option NetworkAddress) :=
  if negb (isValid s) then mret None else
  sa ← call (sys_getsockname (fd_ s)); mret (fromSockaddr <$> sa).

Definition getRemoteAddress (s : Socket) : IO K (option NetworkAddress) :=
  if negb (isValid s) then mret None else
  sa ← call (sys_getpeername (fd_ s)); mret (fromSockaddr <$> sa).

(** The user, group and process, when they are available. *)
Definition getPeerCredentials (s : Socket) : IO K (option (Z * Z * Z)) :=
  match family_ s with UNIX => call (sys_peercred (fd_ s)) | _ => mret None end.

(** The loop of [NetworkClient::readExactWithTimeout] over a socket: every turn
    reads a byte at least or ends; the case without fuel is not reached below. *)
Fixpoint read_exact (fuel size : nat) (timeout_ms : Z) (s : Socket) : IO K (Status * bytes * Socket) :=
  match fuel, size with
  | Datatypes.S fuel, Datatypes.S _ =>
      '(status, got, s) ← readWithTimeout size timeout_ms s;
      if bool_decide (status ≠ OK) then mret (status, [], s) else
      match default [] got with
      | [] => st ← fail CONNECTION_FAILURE "Connection closed"; mret (st, [], s)
      | b =>
          '(status, rest, s) ← read_exact fuel (size - length b) timeout_ms s;
          mret (status, b ++ rest, s)
      end
  | _, _ => mret (OK, [], s)
  end.

(** Never more turns than bytes. *)
Definition readExactWithTimeout (size : nat) : Z → Socket → IO K (Status * bytes * Socket) := read_exact size size.

(** ** Calls on a socket *)

(** The member functions that do not change who owns the descriptor. *)
Inductive socket_call :=
  | CallConnect (a : NetworkAddress)
  | CallBind (a : NetworkAddress)
  | CallListen (backlog : Z)
  | CallShutdown (read write : bool)
  | CallRead (size : nat)
  | CallReadExact (fuel size : nat)
  | CallReadTimeout (size : nat) (timeout_ms : Z)
  | CallWrite (buffer : bytes)
  | CallWriteExact (fuel : nat) (buffer : bytes)
  | CallWriteTimeout (buffer : bytes) (timeout_ms : Z)
  | CallReadv (sizes : list nat)
  | CallWritev (buffers : list bytes)
  | CallPeek (size : nat)
  | CallOptions (o : SocketOptions).

Definition run_call (c : socket_call) (s : Socket) : IO K Socket :=
  match c with
  | CallConnect a => snd <$> connect_to a s
  | CallBind a => snd <$> bind a s
  | CallListen backlog => snd <$> listen backlog s
  | CallShutdown r w => snd <$> shutdown r w s
  | CallRead size => snd <$> read size s
  | CallReadExact fuel size => from_option snd s <$> readExact fuel size s
  | CallReadTimeout size timeout => snd <$> readWithTimeout size timeout s
  | CallWrite b => snd <$> write b s
  | CallWriteExact fuel b => from_option snd s <$> writeExact fuel b s
  | CallWriteTimeout b timeout => snd <$> writeWithTimeout b timeout s
  | CallReadv sizes => snd <$> readv sizes s
  | CallWritev bs => snd <$> writev bs s
  | CallPeek size => snd <$> peek size s
  | CallOptions o => snd <$> applyOptions o s
  end.

(** [m] neither takes nor closes a descriptor, and its result satisfies [P]. *)
Definition steady {A} (m : IO K A) (P : A → Prop) : Prop := ∀ w,
  taken (m w).2 = taken w ∧ closed (m w).2 = closed w ∧ P (m w).1.

Lemma steady_ret {A} (a : A) P : P a → steady (mret a) P.
Proof. intros HP w. done. Qed.

Lemma steady_bind {A B} (m : IO K A) (f : A → IO K B) P Q :
  steady m P → (∀ a, P a → steady (f a) Q) → steady (m ≫= f) Q.
Proof.
  intros Hm Hf w. unfold mbind, state_bind. specialize (Hm w). destruct (m w) as [a w1].
  destruct Hm as (Ht & Hc & HP). destruct (Hf a HP w1) as (Ht1 & Hc1 & HQ). cbn in *. split_and!; [congruence..|done].
Qed.

Lemma steady_then {A B} (m : IO K A) (f : A → IO K B) Q :
  steady m (λ _, True) → (∀ a, steady (f a) Q) → steady (m ≫= f) Q.
Proof. intros Hm Hf. apply (steady_bind m f _ _ Hm). auto. Qed.

Lemma steady_fmap {A B} (f : A → B) (m : IO K A) P Q :
  steady m P → (∀ a, P a → Q (f a)) → steady (f <$> m) Q.
Proof. intros Hm Hf. apply (steady_bind _ _ _ _ Hm). intros a Ha. by apply steady_ret, Hf. Qed.

Lemma steady_call {A} (f : K → A * K) : steady (call f) (λ _, True).
Proof. intros w. unfold call. by destruct (f (system w)). Qed.

Lemma steady_now : steady clock (λ _, True).
Proof. done. Qed.

Lemma steady_fail status message : steady (fail status message) (λ _, True).
Proof. done. Qed.

#[local] Hint Resolve steady_call steady_now steady_fail : steady.

(** Straight code: every call it makes is steady. *)
Ltac steady :=
  repeat match goal with
  | |- steady (_ ≫= _) _ => apply steady_then; [|intros]
  | |- steady (mret _) _ => apply steady_ret
  | |- steady (if ?b then _ else _) _ => destruct b
  | |- steady (match ?x with _ => _ end) _ => destruct x
  end; eauto with steady.

Lemma steady_fill a : steady (fillSockaddr a) (λ _, True).
Proof. unfold fillSockaddr, fill_inet. steady. Qed.

Lemma steady_poll events timeout s : steady (pollSocket events timeout s) (λ _, True).
Proof. unfold pollSocket. steady. Qed.

#[local] Hint Resolve steady_fill steady_poll : steady.

(** The same socket, as far as its descriptor goes. *)
Definition same_fd (s s' : Socket) : Prop := fd_ s' = fd_ s.

Lemma connect_to_steady a s : steady (connect_to a s) (λ r, same_fd s r.2).
Proof. unfold connect_to. steady; done. Qed.

Lemma bind_steady a s : steady (bind a s) (λ r, same_fd s r.2).
Proof. unfold bind. steady; done. Qed.

Lemma listen_steady n s : steady (listen n s) (λ r, same_fd s r.2).
Proof. unfold listen. steady; done. Qed.

Lemma shutdown_steady r w s : steady (shutdown r w s) (λ r, same_fd s r.2).
Proof. unfold shutdown. steady; done. Qed.

Lemma update_read_steady s : steady (updateLastRead s) (same_fd s).
Proof. unfold updateLastRead. steady; done. Qed.

Lemma update_write_steady s : steady (updateLastWrite s) (same_fd s).
Proof. unfold updateLastWrite. steady; done. Qed.

Lemma io_error_steady {A} what errno (out : A) s : steady (io_error what errno out s) (λ r, same_fd s r.2).
Proof. unfold io_error. steady; done. Qed.

(** The result of an update is the same socket. *)
Ltac updates :=
  repeat match goal with
  | |- steady (updateLastRead _ ≫= _) _ => eapply steady_bind; [apply update_read_steady|intros]
  | |- steady (updateLastWrite _ ≫= _) _ => eapply steady_bind; [apply update_write_steady|intros]
  | |- steady (io_error _ _ _ _) _ => apply io_error_steady
  | |- steady (_ ≫= _) _ => apply steady_then; [auto with steady|intros]
  | |- steady (mret _) _ => apply steady_ret
  | |- steady (if ?b then _ else _) _ => destruct b
  | |- steady (match ?x with _ => _ end) _ => destruct x
  end; done.

Lemma read_steady n s : steady (read n s) (λ r, same_fd s r.2).
Proof. unfold read. updates. Qed.

Lemma write_steady b s : steady (write b s) (λ r, same_fd s r.2).
Proof. unfold write. updates. Qed.

Lemma readv_steady sizes s : steady (readv sizes s) (λ r, same_fd s r.2).
Proof. unfold readv. updates. Qed.

Lemma writev_steady bs s : steady (writev bs s) (λ r, same_fd s r.2).
Proof. unfold writev. updates. Qed.

Lemma peek_steady n s : steady (peek n s) (λ r, same_fd s r.2).
Proof. unfold peek. updates. Qed.

Lemma read_timeout_steady n t s : steady (readWithTimeout n t s) (λ r, same_fd s r.2).
Proof. unfold readWithTimeout, waitReadable. steady; [apply read_steady|done]. Qed.

Lemma write_timeout_steady b t s : steady (writeWithTimeout b t s) (λ r, same_fd s r.2).
Proof. unfold writeWithTimeout, waitWritable. steady; [apply write_steady|done]. Qed.

Lemma read_exact_steady fuel : ∀ n s, steady (readExact fuel n s) (λ r, same_fd s (from_option snd s r)).
Proof.
  induction fuel as [|fuel IH]; intros n s; cbn [readExact]; [steady; done|].
  destruct (n =? 0)%nat; [by apply steady_ret|].
  eapply steady_bind; [apply read_steady|]. intros [[status got] s1] E. cbn in E.
  case_bool_decide; [by apply steady_ret|].
  destruct (default [] got) as [|b l].
  - unfold waitReadable. steady. intros w. specialize (IH n s1 w) as (? & ? & Hs).
    split_and!; [done..|]. unfold same_fd in *. destruct (readExact _ _ _ _).1; cbn in *; congruence.
  - eapply steady_bind; [apply IH|]. intros r Hr. apply steady_ret.
    unfold same_fd in *. destruct r as [[[]]|]; cbn in *; congruence.
Qed.

Lemma write_exact_steady fuel : ∀ b s, steady (writeExact fuel b s) (λ r, same_fd s (from_option snd s r)).
Proof.
  induction fuel as [|fuel IH]; intros b s; cbn [writeExact]; [steady; done|].
  case_bool_decide; [by apply steady_ret|].
  eapply steady_bind; [apply write_steady|]. intros [[status n] s1] E. cbn in E.
  assert (∀ b', steady (writeExact fuel b' s1) (λ r, same_fd s (from_option snd s r))) as Hr.
  { intros b' w. specialize (IH b' s1 w) as (? & ? & Hs). split_and!; [done..|].
    unfold same_fd in *. destruct (writeExact _ _ _ _).1; cbn in *; congruence. }
  case_bool_decide; [by apply steady_ret|].
  destruct (default 0%nat n); [|apply Hr]. unfold waitWritable. steady; done.
Qed.

Lemma set_option_steady o nm s : steady (set_option o nm s) (λ _, True).
Proof. unfold set_option. steady. Qed.
#[local] Hint Resolve set_option_steady : steady.

Lemma non_blocking_steady e s : steady (setNonBlocking e s) (λ r, same_fd s r.2).
Proof. unfold setNonBlocking, setNonBlockingInternal. steady; done. Qed.

Lemma keep_alive_steady e i n c s : steady (setKeepAlive e i n c s) (λ _, True).
Proof. unfold setKeepAlive. steady; done. Qed.

Lemma when_set_steady b set rest s :
  steady set (λ _, True) → steady rest (λ r, same_fd s r.2) → steady (when_set b set rest s) (λ r, same_fd s r.2).
Proof. intros. unfold when_set. steady; done. Qed.

Lemma apply_options_steady o s : steady (applyOptions o s) (λ r, same_fd s r.2).
Proof.
  unfold applyOptions.
  repeat (apply when_set_steady; [first [apply set_option_steady|apply keep_alive_steady]|]).
  steady; [apply non_blocking_steady|done].
Qed.

#[local] Hint Resolve connect_to_steady bind_steady listen_steady shutdown_steady read_steady write_steady readv_steady
  writev_steady peek_steady read_timeout_steady write_timeout_steady read_exact_steady write_exact_steady
  apply_options_steady : steady.

Lemma run_call_steady c s : steady (run_call c s) (same_fd s).
Proof. destruct c; cbn [run_call]; (eapply steady_fmap; [auto with steady|done]). Qed.

(** ** Who owns the descriptors *)

Definition held (s : Socket) : option Z := if isValid s then Some (fd_ s) else None.
#[local] Arguments resource : simpl never.

#[local] Instance socket_owner : Owner Socket Z := {
  resource := held;
  null_object := mkSocket INVALID_SOCKET_VALUE UNSPEC STREAM CLOSED false 0 (mkStats 0 0 0 0 0 0);
  resource_null := eq_refl
}.

(** The socket objects by address, and the descriptors that [release] handed to
    the caller. *)
Record net := mkNet { sockets : gmap nat Socket; handed : list Z; machine : world K }.

Inductive socket_op :=
  | OpConnect (v : nat) (a : NetworkAddress) (o : SocketOptions)
  | OpCreate (v : nat) (family : AddressFamily) (type : SocketType)
  | OpFromFd (v : nat) (fd : Z) (family : AddressFamily) (type : SocketType)
  | OpAccept (v listener : nat)
  | OpMove (v src : nat)
  | OpAssign (dst src : nat)
  | OpClose (v : nat)
  | OpRelease (v : nat)
  | OpDestroy (v : nat)
  | OpCall (v : nat) (c : socket_call).

(** A new object at [v], when there is one. *)
Definition keep_new (v : nat) (r : option Socket) (m : gmap nat Socket) : gmap nat Socket :=
  match r with Some s => <[v := s]> m | None => m end.

(** Operations on objects that are there, and on new ones that are not. *)
Definition run_socket_op (n : net) (op : socket_op) : net :=
  let m := sockets n in
  let build v (io : IO K (option Socket)) :=
    match m !! v with
    | Some _ => n
    | None => let '(r, w) := io (machine n) in mkNet (keep_new v r m) (handed n) w
    end in
  match op with
  | OpConnect v a o => build v (connect a o)
  | OpCreate v family type => build v (create family type)
  | OpFromFd v fd family type =>
      build v (_ ← (if fd =? INVALID_SOCKET_VALUE then mret tt else note_taken fd); Some <$> fromFd fd family type)
  | OpAccept v l =>
      match m !! v, m !! l with
      | None, Some s =>
          let '(r, s, w) := accept s (machine n) in mkNet (keep_new v (fst <$> r) (<[l := s]> m)) (handed n) w
      | _, _ => n
      end
  | OpMove v src =>
      match m !! v, m !! src with
      | None, Some s => let '(a, b, w) := move_socket s (machine n) in mkNet (<[v := a]> (<[src := b]> m)) (handed n) w
      | _, _ => n
      end
  | OpAssign dst src =>
      if (dst =? src)%nat then n else
      match m !! dst, m !! src with
      | Some d, Some s => let '(a, b, w) := assign_socket d s (machine n) in mkNet (<[dst := a]> (<[src := b]> m)) (handed n) w
      | _, _ => n
      end
  | OpClose v =>
      match m !! v with
      | Some s => let '(s, w) := close s (machine n) in mkNet (<[v := s]> m) (handed n) w
      | None => n
      end
  | OpRelease v =>
      match m !! v with
      | Some s => mkNet (<[v := (release s).2]> m) (handed n ++ option_list (resource s)) (machine n)
      | None => n
      end
  | OpDestroy v =>
      match m !! v with
      | Some s => let '(_, w) := close s (machine n) in mkNet (delete v m) (handed n) w
      | None => n
      end
  | OpCall v c =>
      match m !! v with
      | Some s => let '(s, w) := run_call c s (machine n) in mkNet (<[v := s]> m) (handed n) w
      | None => n
      end
  end.

Definition accounted (n : net) : Prop :=
  taken (machine n) ≡ₚ closed (machine n) ++ handed n ++ live (sockets n).

(** [m] takes and closes descriptors, and [Q] relates them to its result. *)
Definition spends {A} (m : IO K A) (Q : A → list Z → list Z → Prop) : Prop := ∀ w, ∃ got gone,
  taken (m w).2 = taken w ++ got ∧ closed (m w).2 = closed w ++ gone ∧ Q (m w).1 got gone.

Lemma spends_steady {A} (m : IO K A) P (Q : A → list Z → list Z → Prop) :
  steady m P → (∀ a, P a → Q a [] []) → spends m Q.
Proof. intros Hm HQ w. destruct (Hm w) as (? & ? & ?). exists [], []. rewrite !app_nil_r. auto. Qed.

Lemma spends_ret {A} (a : A) (Q : A → list Z → list Z → Prop) : Q a [] [] → spends (mret a) Q.
Proof. intros HQ. apply (spends_steady _ (λ b, b = a)); [done|]. by intros ? ->. Qed.

Lemma spends_bind {A B} (m : IO K A) (f : A → IO K B) P Q :
  spends m P → (∀ a g c, P a g c → spends (f a) (λ b g' c', Q b (g ++ g') (c ++ c'))) → spends (m ≫= f) Q.
Proof.
  intros Hm Hf w. destruct (Hm w) as (g & c & Ht & Hc & HP). unfold mbind, state_bind. destruct (m w) as [a w1]. cbn in *.
  destruct (Hf a g c HP w1) as (g' & c' & Ht' & Hc' & HQ). exists (g ++ g'), (c ++ c').
  rewrite Ht', Hc', Ht, Hc, !app_assoc. done.
Qed.

Lemma spends_then {A B} (m : IO K A) (f : A → IO K B) P Q :
  steady m P → (∀ a, P a → spends (f a) Q) → spends (m ≫= f) Q.
Proof.
  intros Hm Hf. apply (spends_bind _ _ (λ a g c, P a ∧ g = [] ∧ c = [])); [by eapply spends_steady|].
  intros a g c (HP & -> & ->). by apply Hf.
Qed.

Lemma same_resource s s' : same_fd s s' → resource s' = resource s.
Proof. unfold same_fd, resource, socket_owner, held, isValid. by intros ->. Qed.

Lemma resource_valid s : fd_ s ≠ INVALID_SOCKET_VALUE → resource s = Some (fd_ s).
Proof. intros E. unfold resource, socket_owner, held, isValid. by rewrite (proj2 (Z.eqb_neq _ _) E). Qed.

Lemma close_spends s : spends (close s) (λ s' g c, g = [] ∧ c = option_list (resource s) ∧ resource s' = None).
Proof.
  intros w. exists [], (option_list (resource s)). unfold close, resource, socket_owner, held.
  destruct (isValid s) eqn:E; cbn; rewrite ?app_nil_r, ?E; done.
Qed.

Lemma sys_socket_steady f t : steady (call (sys_socket f t)) (λ r, ∀ fd, r = inr fd → fd ≠ INVALID_SOCKET_VALUE).
Proof.
  intros w. unfold call. destruct (sys_socket f t (system w)) as [r k'] eqn:E. split_and!; [done..|].
  cbn. intros fd ->. by eapply socket_valid.
Qed.

Lemma sys_accept_steady l :
  steady (call (sys_accept l)) (λ r, ∀ fd a, r = inr (fd, a) → fd ≠ INVALID_SOCKET_VALUE).
Proof.
  intros w. unfold call. destruct (sys_accept l (system w)) as [r k'] eqn:E. split_and!; [done..|].
  cbn. intros fd a ->. by eapply accept_valid.
Qed.

Lemma note_spends fd : spends (note_taken fd) (λ _ g c, g = [fd] ∧ c = []).
Proof. intros w. exists [fd], []. by rewrite app_nil_r. Qed.

Lemma create_spends f t : spends (create f t) (λ r g c, g = option_list (r ≫= resource) ∧ c = []).
Proof.
  unfold create. eapply spends_then; [apply sys_socket_steady|]. intros [errno|fd] Hfd.
  - apply (spends_steady _ (λ r, r = None)); [steady|by intros ? ->].
  - eapply spends_bind; [apply note_spends|]. intros _ g c [-> ->].
    apply (spends_steady _ (λ r, ∃ now, r = Some (new_socket fd f t now))); [steady; eauto|].
    intros ? [now ->]. cbn [mbind option_bind]. rewrite resource_valid; [done|by apply Hfd].
Qed.

(** The destruction of a local socket, which is not returned. *)
Lemma drop_spends s s' : same_fd s s' →
  spends (_ ← close s'; mret (None : option Socket)) (λ r g c, g = [] ∧ c = option_list (resource s) ∧ r = None).
Proof.
  intros Hs. eapply spends_bind; [apply close_spends|]. intros s2 g c (-> & -> & _). apply spends_ret.
  by rewrite (same_resource _ _ Hs), !app_nil_r.
Qed.

(** A socket that [connect] does not return was closed. *)
Lemma connect_spends a o : spends (connect a o) (λ r g c, g = c ++ option_list (r ≫= resource)).
Proof.
  unfold connect. eapply spends_bind; [apply create_spends|]. intros [s|] g c [-> ->]; [|by apply spends_ret].
  eapply spends_then; [apply apply_options_steady|]. intros [st s1] E1. cbn in E1 |- *.
  case_bool_decide.
  { intros w. destruct (drop_spends s s1 E1 w) as (g & c & ? & ? & -> & -> & Hr). exists [], (option_list (resource s)).
    split_and!; [done..|]. rewrite Hr. cbn. by rewrite !app_nil_r. }
  eapply spends_then; [apply connect_to_steady|]. intros [st2 s2] E2. cbn in E2 |- *.
  assert (same_fd s s2) as Es by (unfold same_fd in *; congruence).
  case_bool_decide.
  - intros w. destruct (drop_spends s s2 Es w) as (g & c & ? & ? & -> & -> & Hr). exists [], (option_list (resource s)).
    split_and!; [done..|]. rewrite Hr. cbn. by rewrite !app_nil_r.
  - apply spends_ret. cbn. by rewrite (same_resource _ _ Es), app_nil_r.
Qed.

Lemma accept_spends s :
  spends (accept s) (λ r g c, g = option_list ((fst <$> r.1) ≫= resource) ∧ c = [] ∧ same_fd s r.2).
Proof.
  unfold accept. destruct (negb (isValid s)).
  { apply (spends_steady _ (λ r, r.1 = None ∧ same_fd s r.2)); [steady; done|]. by intros [] [-> ?]. }
  eapply spends_then; [apply sys_accept_steady|]. intros [errno|[fd sa]] Hfd.
  - apply (spends_steady _ (λ r, r.1 = None ∧ same_fd s r.2)); [steady; done|]. by intros [] [-> ?].
  - eapply spends_bind; [apply note_spends|]. intros _ g c [-> ->].
    apply (spends_steady _ (λ r, ∃ s', r = (Some (s', fromSockaddr sa), s) ∧ fd_ s' = fd)); [steady; eauto|].
    intros ? (s' & -> & E). cbn. assert (resource s' = Some fd) as ->; [|done].
    rewrite resource_valid; [by rewrite E|rewrite E; by eapply Hfd].
Qed.

(** What an operation takes is closed, handed over or resource afterwards. *)
Lemma accounted_step n m' handed' w' g c :
  taken w' = taken (machine n) ++ g → closed w' = closed (machine n) ++ c →
  c ++ handed' ++ live m' ≡ₚ handed n ++ live (sockets n) ++ g →
  accounted n → accounted (mkNet m' handed' w').
Proof. unfold accounted. cbn. intros -> -> E ->. rewrite <-!app_assoc, E. done. Qed.

Lemma live_keep_new v r m : m !! v = None → live (keep_new v r m) ≡ₚ option_list (r ≫= resource) ++ live m.
Proof. intros Hv. destruct r; [|done]. cbn. by rewrite live_insert. Qed.

(** Close the object at [v]. *)
Lemma close_accounted n v s : sockets n !! v = Some s → accounted n →
  let '(s', w) := close s (machine n) in
  accounted (mkNet (<[v := s']> (sockets n)) (handed n) w) ∧ resource s' = None.
Proof.
  intros Hv Hn. destruct (close_spends s (machine n)) as (g & c & Ht & Hc & -> & -> & Hs).
  destruct (close s (machine n)) as [s' w]. cbn in *. split; [|done].
  eapply accounted_step; [done..| |done]. rewrite <-(live_dropped _ _ _ _ Hv Hs). solve_Permutation.
Qed.

Lemma build_accounted n v io : sockets n !! v = None → accounted n →
  spends io (λ r g c, g = c ++ option_list (r ≫= resource)) →
  accounted (let '(r, w) := io (machine n) in mkNet (keep_new v r (sockets n)) (handed n) w).
Proof.
  intros Hv Hn Hio. destruct (Hio (machine n)) as (g & c & Ht & Hc & E). destruct (io (machine n)) as [r w]. cbn in *.
  subst g. eapply accounted_step; [done..| |done]. rewrite live_keep_new by done. solve_Permutation.
Qed.

Lemma from_fd_spends fd f t : spends (_ ← (if fd =? INVALID_SOCKET_VALUE then mret tt else note_taken fd); Some <$> fromFd fd f t)
  (λ r g c, g = c ++ option_list (r ≫= resource)).
Proof.
  intros w. exists (option_list (if fd =? INVALID_SOCKET_VALUE then None else Some fd)), [].
  destruct (fd =? INVALID_SOCKET_VALUE) eqn:E; (split_and!; [by rewrite ?app_nil_r..|]);
    (trans (option_list (if negb (fd =? INVALID_SOCKET_VALUE) then Some fd else None)); [by rewrite E|done]).
Qed.

Lemma run_socket_op_accounted n op : accounted n → accounted (run_socket_op n op).
Proof.
  intros Hn. destruct op as [v a o|v f t|v fd f t|v l|v src|dst src|v|v|v|v c]; cbn [run_socket_op].
  - destruct (sockets n !! v) eqn:E; [done|]. by apply build_accounted, connect_spends.
  - destruct (sockets n !! v) eqn:E; [done|]. apply build_accounted; [done..|]. intros w.
    destruct (create_spends f t w) as (g & c & ? & ? & -> & ->). by exists (option_list ((create f t w).1 ≫= resource)), [].
  - destruct (sockets n !! v) eqn:E; [done|]. by apply build_accounted, from_fd_spends.
  - destruct (sockets n !! v) eqn:E; [done|]. destruct (sockets n !! l) as [s|] eqn:El; [|done].
    destruct (accept_spends s (machine n)) as (g & c & Ht & Hc & -> & -> & Hs).
    destruct (accept s (machine n)) as [[r s'] w]. cbn in *.
    eapply accounted_step; [done..| |done]. rewrite live_keep_new by (rewrite lookup_insert_ne by congruence; done).
    rewrite (live_same _ _ _ _ El (same_resource _ _ Hs)). solve_Permutation.
  - destruct (sockets n !! v) eqn:E; [done|]. destruct (sockets n !! src) as [s|] eqn:Es; [|done]. cbn.
    eapply (accounted_step _ _ _ _ [] []); rewrite ?app_nil_r; [done..| |done]. cbn. f_equiv.
    rewrite live_insert by (rewrite lookup_insert_ne by congruence; done).
    exact (live_dropped _ _ s (moved_from s) Es eq_refl).
  - destruct (Nat.eqb_spec dst src); [done|].
    destruct (sockets n !! dst) as [d|] eqn:E; [|done]. destruct (sockets n !! src) as [s|] eqn:Es; [|done].
    unfold assign_socket. pose proof (close_accounted n dst d E Hn) as Hc.
    unfold mbind, state_bind. destruct (close d (machine n)) as [d' w]. destruct Hc as [Hc Hd]. cbn.
    refine (accounted_step (mkNet _ _ w) _ _ _ [] [] _ _ _ Hc); cbn; rewrite ?app_nil_r; [done..|]. f_equiv.
    by apply (live_moved _ dst src d s).
  - destruct (sockets n !! v) as [s|] eqn:E; [|done]. pose proof (close_accounted n v s E Hn) as Hc.
    destruct (close s (machine n)) as [s' w]. apply Hc.
  - destruct (sockets n !! v) as [s|] eqn:E; [|done].
    eapply (accounted_step _ _ _ _ [] []); rewrite ?app_nil_r; [done..| |done].
    cbn [app]. rewrite <-(live_dropped _ _ _ (moved_from s) E) by done. solve_Permutation.
  - destruct (sockets n !! v) as [s|] eqn:E; [|done]. pose proof (close_accounted n v s E Hn) as Hc.
    destruct (close s (machine n)) as [s' w]. destruct Hc as [Hc Hs].
    refine (accounted_step (mkNet _ _ w) _ _ _ [] [] _ _ _ Hc); cbn; rewrite ?app_nil_r; [done..|]. f_equiv.
    rewrite <-(delete_insert_eq _ v s'), (live_delete _ v s'); [done|by rewrite lookup_insert_eq|done].
  - destruct (sockets n !! v) as [s|] eqn:E; [|done]. destruct (run_call_steady c s (machine n)) as (Ht & Hc & Hs).
    destruct (run_call c s (machine n)) as [s' w]. cbn in *.
    eapply (accounted_step _ _ _ _ [] []); rewrite ?app_nil_r; [done..| |done].
    cbn [app]. by rewrite (live_same _ _ _ _ E (same_resource _ _ Hs)).
Qed.

Definition initial (ctx : option ErrorContext) (k : K) : net := mkNet ∅ [] (mkWorld ctx k [] []).

Lemma run_accounted ops : ∀ n, accounted n → accounted (foldl run_socket_op n ops).
Proof. induction ops; intros n Hn; [done|]. by apply IHops, run_socket_op_accounted. Qed.

(** C30: Every descriptor obtained is closed once, handed to the caller by [release]
    once, or resource by one object, whatever the sequence of connections, accepts,
    moves, assignments, failures and destructions; when no object is left,
    those not handed over are all closed. *)
Theorem descriptors_accounted ops ctx k :
  let n := foldl run_socket_op (initial ctx k) ops in
  taken (machine n) ≡ₚ closed (machine n) ++ handed n ++ live (sockets n) ∧
  (sockets n = ∅ → taken (machine n) ≡ₚ closed (machine n) ++ handed n).
Proof.
  intros n. assert (accounted n) as Hn.
  { apply run_accounted. unfold accounted, live. cbn. by rewrite map_to_list_empty. }
  unfold accounted in Hn. split; [done|]. intros E. rewrite Hn, E. unfold live. by rewrite map_to_list_empty, !app_nil_r.
Qed.

(** ** A socket as a list of arrivals *)

Definition ready (r : option Z) (events : Z) : bool :=
  match r with
  | None => false
  | Some revents => (Z.land revents poll_faults =? 0) && negb (Z.land revents events =? 0)
  end.

(** What waiting for [timeout] on [fd] and receiving up to [size] bytes then
    finds, when the arrivals are [inc], and what is left after it. *)
Definition finds (fd timeout : Z) (R : K → list arrival → Prop) (inc : list arrival) (size : nat) (k : K) : Prop :=
  let '(r, k1) := sys_poll fd POLLIN timeout k in
  let '(b, k2) := sys_recv fd size false k1 in
  match inc with
  | [] => ready r POLLIN = true ∧ b = inr [] ∧ R k2 []
  | Data [] :: rest => ready r POLLIN = true ∧ b = inl EAGAIN ∧ R k2 rest
  | Data d :: rest =>
      ready r POLLIN = true ∧ b = inr (take size d) ∧
      R k2 (if (length d <=? size)%nat then rest else Data (drop size d) :: rest)
  | Fault st msg :: rest =>
      st = IO_ERROR ∧
      if ready r POLLIN then ∃ e, b = inl e ∧ e ≠ EAGAIN ∧ msg = ("recv() failed: " : bytes) ++ strerror e ∧ R k2 rest
      else msg = ("Read timeout" : bytes) ∧ R k1 rest
  end.

Definition arrivals_view (fd timeout : Z) (R : K → list arrival → Prop) : Prop :=
  ∀ inc size k, (0 < size)%nat → R k inc → finds fd timeout R inc size k.

Lemma poll_ready events timeout s w : isValid s = true →
  pollSocket events timeout s w =
    (let '(r, k) := sys_poll (fd_ s) events timeout (system w) in (ready r events, w <| system := k |>)).
Proof.
  intros Hv. unfold pollSocket. rewrite Hv. cbn. unfold mbind, state_bind, call.
  by destruct (sys_poll _ _ _ _) as [[r|] k].
Qed.

Lemma read_run size s w : isValid s = true →
  read size s w =
    (let '(b, k) := sys_recv (fd_ s) size false (system w) in
     let w := w <| system := k |> in
     match b with
     | inl errno =>
         if errno =? EAGAIN then (OK, Some [], s, w)
         else (IO_ERROR, None, s <| last_error_ := errno |>,
               w <| context := set_context (context w) IO_ERROR (("recv() failed: " : bytes) ++ strerror errno) |>)
     | inr [] => (CONNECTION_FAILURE, Some [], s <| state_ := CLOSING |>, w)
     | inr b => let '(s, w) := updateLastRead (received (length b) s) w in (OK, Some b, s, w)
     end).
Proof.
  intros Hv. unfold read. rewrite Hv. cbn [negb]. unfold mbind, state_bind, call.
  destruct (sys_recv _ _ _ _) as [[errno|[|b l]] k]; [by destruct (errno =? EAGAIN)|done..].
Qed.

(** One read with a time limit, by what it finds. *)
Lemma read_timeout_arrivals timeout R fd inc size s w :
  arrivals_view fd (i32 timeout) R → fd ≠ INVALID_SOCKET_VALUE → (0 < size)%nat → fd_ s = fd → R (system w) inc →
  let '(status, got, s', w') := readWithTimeout size timeout s w in
  fd_ s' = fd ∧
  match inc with
  | [] => status = CONNECTION_FAILURE ∧ context w' = context w ∧ R (system w') []
  | Data [] :: rest => status = OK ∧ got = Some [] ∧ context w' = context w ∧ R (system w') rest
  | Data d :: rest =>
      status = OK ∧ got = Some (take size d) ∧ context w' = context w ∧
      R (system w') (if (length d <=? size)%nat then rest else Data (drop size d) :: rest)
  | Fault st msg :: rest =>
      status = IO_ERROR ∧ st = IO_ERROR ∧ context w' = set_context (context w) st msg ∧ R (system w') rest
  end.
Proof.
  intros HR Hfd Hsize Es Hw. pose proof (HR inc size (system w) Hsize Hw) as Hf. unfold finds in Hf.
  assert (isValid s = true) as Hv by (unfold isValid; rewrite Es; by destruct (Z.eqb_spec fd INVALID_SOCKET_VALUE)).
  unfold readWithTimeout, waitReadable. unfold mbind, state_bind. rewrite (poll_ready _ _ _ _ Hv), Es.
  destruct (sys_poll fd POLLIN (i32 timeout) (system w)) as [r k1].
  destruct (ready r POLLIN) eqn:Er.
  - rewrite (read_run _ _ _ Hv), Es. change (system (w <| system := k1 |>)) with k1.
    destruct (sys_recv fd size false k1) as [b k2].
    destruct inc as [|[[|x d]|st msg] rest].
    + by destruct Hf as (_ & -> & ?).
    + by destruct Hf as (_ & -> & ?).
    + destruct Hf as (_ & -> & ?). destruct size as [|size]; [lia|]. cbn [take]. done.
    + destruct Hf as (-> & e & -> & He & -> & ?). rewrite (proj2 (Z.eqb_neq _ _) He). done.
  - destruct (sys_recv fd size false k1) as [b k2].
    destruct inc as [|[[|x d]|st msg] rest]; [by destruct Hf..|]. by destruct Hf as (-> & -> & ?).
Qed.

Lemma read_exact_step fuel n timeout s w : (0 < n)%nat →
  read_exact (Datatypes.S fuel) n timeout s w =
    (let '(status, got, s, w) := readWithTimeout n timeout s w in
     if bool_decide (status ≠ OK) then (status, [], s, w) else
     match default [] got with
     | [] => (CONNECTION_FAILURE, [], s, w <| context := set_context (context w) CONNECTION_FAILURE "Connection closed" |>)
     | b => let '(status, rest, s, w) := read_exact fuel (n - length b) timeout s w in (status, b ++ rest, s, w)
     end).
Proof.
  intros Hn. destruct n as [|n]; [lia|]. cbn [read_exact]. unfold mbind, state_bind.
  destruct (readWithTimeout _ _ _ _) as [[[status got] s1] w1]. case_bool_decide; [done|].
  destruct (default [] got); [done|]. by destruct (read_exact _ _ _ _ _) as [[[]] ?].
Qed.

Lemma read_exact_arrivals timeout R fd : arrivals_view fd (i32 timeout) R → fd ≠ INVALID_SOCKET_VALUE →
  ∀ fuel size inc s w, (size <= fuel)%nat → fd_ s = fd → R (system w) inc →
  let '(status, got, s', w') := read_exact fuel size timeout s w in
  ∃ rest, read_arrivals false (Z.of_nat size) inc (context w) = (status, got, context w', rest) ∧
    R (system w') rest ∧ fd_ s' = fd.
Proof.
  intros HR Hfd. induction fuel as [|fuel IH]; intros size inc s w Hsize Es Hw.
  { assert (size = O) as -> by lia. cbn. exists inc. split_and!; [|done..]. by destruct inc. }
  destruct (decide (size = 0%nat)) as [->|Hn]; [cbn; exists inc; split_and!; [by destruct inc|done..]|].
  rewrite read_exact_step by lia.
  pose proof (read_timeout_arrivals timeout R fd inc size s w HR Hfd ltac:(lia) Es Hw) as Hr.
  destruct (readWithTimeout size timeout s w) as [[[status got] s1] w1]. destruct Hr as [Es1 Hr].
  assert ((Z.of_nat size <=? 0) = false) as Hpos by lia.
  destruct inc as [|[[|x d]|st msg] rest].
  - destruct Hr as (-> & <- & ?). cbn -[Z.of_nat]. rewrite Hpos. by exists [].
  - destruct Hr as (-> & -> & <- & ?). cbn -[Z.of_nat]. rewrite Hpos. by exists rest.
  - destruct Hr as (-> & -> & <- & Hr). rewrite bool_decide_eq_false_2 by naive_solver.
    set (b := x :: d) in *. change (default [] (Some (take size b))) with (take size b).
    destruct (take size b) as [|y l] eqn:Et; [destruct size; done|]. rewrite <-Et. cbv zeta.
    pose proof (length_take b size) as Hl.
    specialize (IH (size - length (take size b))%nat _ s1 w1 ltac:(subst b; cbn in *; lia) Es1 Hr).
    destruct (read_exact _ _ _ _ _) as [[[status' got'] s2] w2]. destruct IH as (rest' & E & ? & ?).
    cbn [read_arrivals]. rewrite Hpos. subst b. cbn [negb] in *.
    destruct (Nat.leb_spec (length (x :: d)) size).
    + exists rest'. rewrite (proj2 (Z.leb_le _ _)) by lia. rewrite take_ge in * by done.
      rewrite Nat2Z.inj_sub in E by done. by rewrite E.
    + rewrite (proj2 (Z.leb_gt _ _)) by lia. rewrite Nat2Z.id.
      replace (size - length (take size (x :: d)))%nat with 0%nat in E by lia. cbn [read_arrivals] in E.
      exists rest'. destruct (drop size (x :: d)); injection E as <- <- <- <-; by rewrite app_nil_r.
  - destruct Hr as (-> & -> & E & ?). cbn -[Z.of_nat]. rewrite Hpos. exists rest. by rewrite <-E.
Qed.

(** C31: The exact read of the network client over a plain socket, which is a loop of
    reads with a time limit, does what [read_arrivals] says when the system
    delivers these arrivals: the same status, bytes and message, and the
    arrivals that are left; the fuel is the number of bytes. *)
Theorem exact_reads_refine_transport timeout R fd size inc s w :
  arrivals_view fd (i32 timeout) R → fd ≠ INVALID_SOCKET_VALUE → fd_ s = fd → R (system w) inc →
  let '(status, got, s', w') := readExactWithTimeout size timeout s w in
  ∃ rest, Transport.readExactWithTimeout (Z.of_nat size) (context w) (mkTransport false inc [] []) =
      (status, got, context w', mkTransport false rest [] []) ∧
    R (system w') rest ∧ fd_ s' = fd.
Proof.
  intros HR Hfd Es Hw. unfold readExactWithTimeout.
  pose proof (read_exact_arrivals timeout R fd HR Hfd size size inc s w ltac:(lia) Es Hw) as Hr.
  destruct (read_exact _ _ _ _ _) as [[[status got] s'] w']. destruct Hr as (rest & E & ? & ?).
  exists rest. unfold Transport.readExactWithTimeout. cbn [incoming tls_active]. by rewrite E.
Qed.

(** ** Writing *)

Definition would_block (r : Z + nat) : bool :=
  match r with inl errno => errno =? EAGAIN | inr n => (n =? 0)%nat end.

(** What the writes on [fd] add to the bytes on their way: a part of the buffer
    from its start; and a descriptor found writable takes a byte at least, or fails. *)
Record sends (fd : Z) (out : K → bytes) : Prop := {
  send_prefix b k : b ≠ [] →
    let '(r, k') := sys_send fd b k in
    match r with inl _ => out k' = out k | inr n => (n <= length b)%nat ∧ out k' = out k ++ take n b end;
  poll_sends_nothing timeout k : out (sys_poll fd POLLOUT timeout k).2 = out k;
  poll_then_send b k : b ≠ [] → ready (sys_poll fd POLLOUT 1000 k).1 POLLOUT = true →
    would_block (sys_send fd b (sys_poll fd POLLOUT 1000 k).2).1 = false
}.

Lemma write_run b s w : isValid s = true →
  write b s w =
    (let '(r, k) := sys_send (fd_ s) b (system w) in
     let w := w <| system := k |> in
     match r with
     | inl errno =>
         if errno =? EAGAIN then (OK, Some 0%nat, s, w)
         else (IO_ERROR, None, s <| last_error_ := errno |>,
               w <| context := set_context (context w) IO_ERROR (("send() failed: " : bytes) ++ strerror errno) |>)
     | inr n => let '(s, w) := updateLastWrite (sent n s) w in (OK, Some n, s, w)
     end).
Proof.
  intros Hv. unfold write. rewrite Hv. cbn [negb]. unfold mbind, state_bind, call.
  destruct (sys_send _ _ _) as [[errno|n] k]; [by destruct (errno =? EAGAIN)|done].
Qed.

(** One write, by the part of the buffer it takes. *)
Lemma write_takes fd out b s w : sends fd out → fd ≠ INVALID_SOCKET_VALUE → fd_ s = fd → b ≠ [] →
  let '(status, n, s', w') := write b s w in
  fd_ s' = fd ∧ (default 0 n <= length b)%nat ∧ out (system w') = out (system w) ++ take (default 0%nat n) b ∧
  (status = OK → would_block (sys_send fd b (system w)).1 = (default 0 n =? 0)%nat).
Proof.
  intros Hs Hfd Es Hb. pose proof (send_prefix _ _ Hs b (system w) Hb) as Hp.
  assert (isValid s = true) as Hv by (unfold isValid; rewrite Es; by destruct (Z.eqb_spec fd INVALID_SOCKET_VALUE)).
  rewrite (write_run _ _ _ Hv), Es. destruct (sys_send fd b (system w)) as [[errno|n] k]; cbn in *.
  - destruct (Z.eqb_spec errno EAGAIN); cbn; rewrite app_nil_r; split_and!; try done; try lia.
  - destruct Hp as [Hn Ho]. unfold updateLastWrite, mbind, state_bind. cbn. split_and!; done.
Qed.

Definition exact_result (fd : Z) (out : K → bytes) (b : bytes) (w : world K) (r : option (Status * Socket) * world K) : Prop :=
  ∃ status s' w' n, r = (Some (status, s'), w') ∧ fd_ s' = fd ∧ out (system w') = out (system w) ++ take n b ∧
    (status = OK → (length b <= n)%nat).

Lemma write_exact_takes fd out : sends fd out → fd ≠ INVALID_SOCKET_VALUE →
  ∀ fuel (hot : bool) b s w, fd_ s = fd → (2 * length b + (if hot then 0 else 1) <= fuel)%nat →
  (hot = true → b ≠ [] → would_block (sys_send fd b (system w)).1 = false) →
  exact_result fd out b w (writeExact fuel b s w).
Proof.
  intros Hs Hfd. induction fuel as [|fuel IH]; intros hot b s w Es Hfuel Hhot.
  { assert (b = []) as -> by (apply nil_length_inv; lia). exists OK, s, w, 0%nat. by rewrite app_nil_r. }
  cbn [writeExact]. case_bool_decide as Hb.
  { subst b. exists OK, s, w, 0%nat. by rewrite app_nil_r. }
  pose proof (write_takes fd out b s w Hs Hfd Es Hb) as Hw. unfold mbind at 1, state_bind at 1.
  destruct (write b s w) as [[[status n] s1] w1]. destruct Hw as (Es1 & Hn & Hout & Hblock).
  case_bool_decide as Hst.
  { exists status, s1, w1, (default 0%nat n). by split_and!. }
  assert (0 < length b)%nat as Hlen by (destruct b; cbn; [done|lia]).
  destruct (default 0%nat n) as [|m] eqn:En.
  - cbn [take] in Hout. rewrite app_nil_r in Hout.
    destruct hot; [by rewrite Hhot in Hblock by done; by specialize (Hblock Hst)|].
    unfold waitWritable, mbind, state_bind. rewrite poll_ready.
    2: { unfold isValid. rewrite Es1. by destruct (Z.eqb_spec fd INVALID_SOCKET_VALUE). }
    rewrite Es1. pose proof (poll_sends_nothing _ _ Hs 1000 (system w1)) as Hk.
    pose proof (poll_then_send _ _ Hs b (system w1) Hb) as Hh.
    destruct (sys_poll fd POLLOUT 1000 (system w1)) as [r k]. cbn [fst snd] in *. destruct (ready r POLLOUT).
    + destruct (IH true b s1 (w1 <| system := k |>) Es1) as (st & s2 & w2 & n2 & -> & ? & Ho & ?); [lia|by intros; apply Hh|].
      exists st, s2, w2, n2. split_and!; [done..| |done]. by rewrite Ho, <-Hout, <-Hk.
    + eexists _, s1, _, 0%nat. split; [done|]. split_and!; [done| |done]. cbn. by rewrite app_nil_r, Hk.
  - destruct (IH false (drop (Datatypes.S m) b) s1 w1 Es1) as (st & s2 & w2 & n2 & -> & ? & Ho & Hok).
    { rewrite length_drop. lia. }
    { done. }
    exists st, s2, w2, (Datatypes.S m + n2)%nat. split_and!; [done..| |].
    + rewrite Ho, Hout, <-app_assoc. by rewrite take_take_drop.
    + intros Hl%Hok. rewrite length_drop in Hl. lia.
Qed.

(** [writeExact] ends after two turns for each byte, and has then done what
    [write_all] says: the whole buffer is on its way, in order and once, or the
    write failed after a part of it. *)
Theorem exact_writes_refine_transport fd out fuel b s w :
  sends fd out → fd ≠ INVALID_SOCKET_VALUE → fd_ s = fd → (2 * length b < fuel)%nat →
  ∃ status s' w' fault t,
    writeExact fuel b s w = (Some (status, s'), w') ∧ fd_ s' = fd ∧
    write_all b (mkTransport false [] (out (system w)) [fault]) = (bool_decide (status = OK), t) ∧
    outgoing t = out (system w').
Proof.
  intros Hs Hfd Es Hfuel.
  destruct (write_exact_takes fd out Hs Hfd fuel false b s w Es) as (st & s' & w' & n & E & Es' & Ho & Hok); [lia|done|].
  exists st, s', w'. destruct (decide (st = OK)) as [->|Hne].
  - exists None. eexists. split_and!; [done..|]. cbn. by rewrite Ho, take_ge by auto.
  - exists (Some n), (mkTransport false [] (out (system w) ++ take n b) []).
    split_and!; [done..| |done]. by rewrite bool_decide_eq_false_2.
Qed.

(** The limits of the options are not used: nothing bounds a connection attempt
    or a write. *)
Lemma connect_ignores_timeouts a o ct rt wt :
  connect a o = connect a (mkOptions (reuse_address o) (reuse_port o) (tcp_nodelay o) (tcp_keepalive o)
    (keepalive_idle_sec o) (keepalive_interval_sec o) (keepalive_count o) (recv_buffer_size o) (send_buffer_size o)
    ct rt wt (non_blocking o)).
Proof. done. Qed.

(** A hang-up hides the bytes that arrived before it. *)
Lemma hang_up_hides_data timeout s w k :
  isValid s = true → sys_poll (fd_ s) POLLIN timeout (system w) = (Some (Z.lor POLLIN 16), k) →
  (waitReadable timeout s w).1 = false.
Proof. intros Hv E. unfold waitReadable. by rewrite (poll_ready _ _ _ _ Hv), E. Qed.

(** A connection still in progress is reported as established. *)
Lemma in_progress_is_connected a s w sa w1 k :
  isValid s = true → fillSockaddr a w = (Some sa, w1) → sys_connect (fd_ s) sa (system w1) = (inl EINPROGRESS, k) →
  let '(status, s', _) := connect_to a s w in status = OK ∧ state_ s' = CONNECTED.
Proof.
  intros Hv Ea Ec. unfold connect_to. rewrite Hv. cbn [negb]. unfold mbind, state_bind, call. rewrite Ea, Ec. done.
Qed.
End socket.

(** ** A small system

    Descriptors are numbers counted up, the peer's arrivals are a queue, and a
    descriptor takes two bytes at a time and must then be waited for. *)

Record small := mkSmall { queue : list arrival; gone_out : bytes; stalled : bool; opened : nat }.

#[export] Instance small_eta : Eta small := λ k, mkSmall (queue k) (gone_out k) (stalled k) (opened k).

Definition reset_message : bytes := "Connection reset by peer".
Definition ECONNRESET : Z := 104.

Definition small_poll (fd events timeout : Z) (k : small) : option Z * small :=
  if events =? POLLIN then
    match queue k with
    | Fault _ msg :: rest => if bool_decide (msg = "Read timeout") then (None, k <| queue := rest |>) else (Some POLLIN, k)
    | _ => (Some POLLIN, k)
    end
  else (Some POLLOUT, k <| stalled := false |>).

Definition small_recv (fd : Z) (size : nat) (peek : bool) (k : small) : (Z + bytes) * small :=
  match queue k with
  | [] => (inr [], k)
  | Data [] :: rest => (inl EAGAIN, k <| queue := rest |>)
  | Data d :: rest =>
      (inr (take size d), k <| queue := if (length d <=? size)%nat then rest else Data (drop size d) :: rest |>)
  | Fault _ _ :: rest => (inl ECONNRESET, k <| queue := rest |>)
  end.

Definition small_send (fd : Z) (b : bytes) (k : small) : (Z + nat) * small :=
  if stalled k then (inl EAGAIN, k)
  else (inr (2 `min` length b)%nat, k <| gone_out := gone_out k ++ take (2 `min` length b) b |> <| stalled := true |>).

Definition small_open (k : small) : small := k <| opened := Datatypes.S (opened k) |>.

#[local] Program Instance small_system : System small := {
  inet_pton _ h := if bool_decide (h = "127.0.0.1") then Some [Byte.x7f; Byte.x00; Byte.x00; Byte.x01] else None;
  inet_ntop _ _ := "127.0.0.1";
  strerror _ := reset_message;
  steady_clock k := Z.of_nat (opened k);
  getaddrinfo _ _ k := (None, k);
  sys_socket _ _ k := (inr (Z.of_nat (opened k)), small_open k);
  sys_connect _ sa k := (inr tt, k);
  sys_bind _ _ k := (inr tt, k);
  sys_listen _ _ k := (inr tt, k);
  sys_accept _ k := (inr (Z.of_nat (opened k), SockaddrOther), small_open k);
  sys_shutdown _ _ _ k := (inr tt, k);
  sys_close _ k := k;
  sys_recv := small_recv;
  sys_send := small_send;
  sys_readv _ _ k := (inr [], k);
  sys_writev _ _ k := (inr 0%nat, k);
  sys_poll := small_poll;
  sys_ioctl _ k := (None, k);
  sys_getfl _ k := (Some 0, k);
  sys_setfl _ _ k := (true, k);
  sys_setsockopt _ _ k := (true, k);
  sys_getsockname _ k := (None, k);
  sys_getpeername _ k := (None, k);
  sys_peercred _ k := (None, k)
}.
Next Obligation. intros f t k fd k' E. injection E as <- _. unfold INVALID_SOCKET_VALUE. lia. Qed.
Next Obligation. intros l k fd a k' E. injection E as <- _ _. unfold INVALID_SOCKET_VALUE. lia. Qed.

(** The faults of the small system. *)
Definition small_fault (a : arrival) : Prop :=
  match a with
  | Data _ => True
  | Fault st msg => st = IO_ERROR ∧ (msg = ("Read timeout" : bytes) ∨ msg = ("recv() failed: " : bytes) ++ reset_message)
  end.

Definition small_view (k : small) (inc : list arrival) : Prop := queue k = inc ∧ Forall small_fault inc.

Lemma small_arrivals fd timeout : arrivals_view fd timeout small_view.
Proof.
  intros inc size k Hsize [E Hf]. unfold finds. cbn. unfold small_poll, small_recv. cbn.
  destruct inc as [|[[|x d]|st msg] rest]; rewrite E.
  - by rewrite E.
  - rewrite E. apply Forall_cons in Hf as [_ Hf]. done.
  - rewrite E. apply Forall_cons in Hf as [_ Hf]. split_and!; [done..|].
    split; [done|]. destruct (_ <=? _)%nat; [done|by constructor].
  - apply Forall_cons in Hf as [[-> Hm] Hf]. case_bool_decide as Hd.
    + destruct (queue (k <| queue := rest |>)) as [|[[]|]]; done.
    + rewrite E. destruct Hm as [Hm|Hm]; [done|]. split; [done|]. by exists ECONNRESET.
Qed.

Lemma small_sends fd : sends fd gone_out.
Proof.
  split.
  - intros b k Hb. cbn. unfold small_send. destruct (stalled k); [done|]. split; [lia|done].
  - done.
  - intros b k Hb _. cbn. unfold small_send. cbn. by destruct b.
Qed.

Definition a_socket : Socket := new_socket 3 IPV4 STREAM 0.

(** Ten bytes in three fragments, read as four and six. *)
Lemma exact_reads_refine_transport_witness :
  let w := mkWorld None (mkSmall [Data "abc"; Data "defg"; Data "hij"; Fault IO_ERROR "Read timeout"] [] false 0) [] [] in
  ∃ s' w' rest, readExactWithTimeout 4 300000 a_socket w = (OK, ("abcd" : bytes), s', w') ∧
    Transport.readExactWithTimeout 4 None (mkTransport false (queue (system w)) [] []) =
      (OK, ("abcd" : bytes), None, mkTransport false rest [] []) ∧
    queue (system w') = rest.
Proof.
  intros w. assert (small_view (system w) (queue (system w))) as Hv by (split; [done|by repeat constructor]).
  pose proof (exact_reads_refine_transport 300000 small_view 3 4 _ a_socket w (small_arrivals _ _) ltac:(done) eq_refl Hv) as Hr.
  destruct (readExactWithTimeout 4 300000 a_socket w) as [[[status got] s'] w'] eqn:E.
  vm_compute in E. injection E as <- <- <- <-. destruct Hr as (rest & Er & [Eq _] & _).
  eexists _, _, rest. split; [reflexivity|]. split; [exact Er|exact Eq].
Defined.

Lemma exact_writes_refine_transport_witness :
  let w := mkWorld None (mkSmall [] "x" false 0) [] [] in
  ∃ s' w' fault t, writeExact 11 "abcde" a_socket w = (Some (OK, s'), w') ∧
    write_all "abcde" (mkTransport false [] ("x" : bytes) [fault]) = (true, t) ∧ outgoing t = gone_out (system w') ∧
    gone_out (system w') = "xabcde".
Proof.
  intros w.
  destruct (exact_writes_refine_transport 3 gone_out 11 "abcde" a_socket w (small_sends 3) ltac:(done) eq_refl ltac:(cbn; lia))
    as (status & s' & w' & fault & t & E & _ & Ew & Ho).
  pose proof E as E'. vm_compute in E'. injection E' as <- <- <-. eexists _, _, fault, t.
  split; [exact E|]. split; [exact Ew|]. split; [exact Ho|reflexivity].
Defined.

(** Two sockets: one is moved and then handed over, the other is destroyed. *)
Lemma descriptors_accounted_witness :
  let ops := [OpCreate 0 IPV4 STREAM; OpMove 1 0; OpConnect 2 (inet_address "127.0.0.1" 3092 IPV4) default_options;
              OpCall 2 (CallWrite "abc"); OpAccept 3 1; OpAssign 2 3; OpRelease 1; OpDestroy 0; OpDestroy 1; OpDestroy 2; OpDestroy 3] in
  let n := foldl run_socket_op (initial None (mkSmall [] [] false 3)) ops in
  taken (machine n) ≡ₚ closed (machine n) ++ handed n ∧ taken (machine n) = [3; 4; 5] ∧ closed (machine n) = [4; 5] ∧ handed n = [3].
Proof.
  intros ops n. split; [|vm_compute; done].
  apply (descriptors_accounted ops None (mkSmall [] [] false 3)). vm_compute. done.
Defined.
