(* ===== verification/Tls.v ===== *)
(** * TLS

    Models [src/security/tls_context.cpp] with [include/scratchbird/security/tls_config.h]:
    the configurations and their checks, certificates and host names, the
    creation and ownership of contexts, and connections. OpenSSL is the interface
    [OpenSSL]: what each call answers is not assumed, and the calls made are kept
    in a trace, about which the theorems are. Built against OpenSSL 3. *)

From S2P Require Import Prelude.
From S2P Require Import Sqlstate.
From S2P Require Import ErrorContext.
From S2P Require Import Text.
From S2P Require Import State.
From S2P Require Import Transport.
From S2P Require Import Leases.

(** ** Versions *)

Inductive TLSVersion := TLS_1_0 | TLS_1_1 | TLS_1_2 | TLS_1_3.

#[export] Instance TLSVersion_eq_dec : EqDecision TLSVersion.
Proof. solve_decision. Defined.

Definition version_code (v : TLSVersion) : Z :=
  match v with TLS_1_0 => 0 | TLS_1_1 => 1 | TLS_1_2 => 2 | TLS_1_3 => 3 end.

Definition tlsVersionToString (v : TLSVersion) : bytes :=
  match v with TLS_1_0 => "TLSv1.0" | TLS_1_1 => "TLSv1.1" | TLS_1_2 => "TLSv1.2" | TLS_1_3 => "TLSv1.3" end.

Definition parseTLSVersion (str : bytes) : option TLSVersion :=
  if bool_decide (str ∈ [("TLSv1.0" : bytes); ("TLS1.0" : bytes); ("1.0" : bytes)]) then Some TLS_1_0
  else if bool_decide (str ∈ [("TLSv1.1" : bytes); ("TLS1.1" : bytes); ("1.1" : bytes)]) then Some TLS_1_1
  else if bool_decide (str ∈ [("TLSv1.2" : bytes); ("TLS1.2" : bytes); ("1.2" : bytes)]) then Some TLS_1_2
  else if bool_decide (str ∈ [("TLSv1.3" : bytes); ("TLS1.3" : bytes); ("1.3" : bytes)]) then Some TLS_1_3
  else None.

Definition TLS1_VERSION : Z := 0x0301.
Definition TLS1_1_VERSION : Z := 0x0302.
Definition TLS1_2_VERSION : Z := 0x0303.
Definition TLS1_3_VERSION : Z := 0x0304.

Definition tlsVersionToSSL (v : TLSVersion) : Z :=
  match v with TLS_1_0 => TLS1_VERSION | TLS_1_1 => TLS1_1_VERSION | TLS_1_2 => TLS1_2_VERSION | TLS_1_3 => TLS1_3_VERSION end.

Definition sslVersionToTLS (version : Z) : TLSVersion :=
  if version =? TLS1_VERSION then TLS_1_0
  else if version =? TLS1_1_VERSION then TLS_1_1
  else if version =? TLS1_2_VERSION then TLS_1_2
  else if version =? TLS1_3_VERSION then TLS_1_3
  else TLS_1_2.

(** ** Configurations *)

Inductive VerifyMode := VERIFY_NONE | OPTIONAL | REQUIRE | REQUIRE_ONCE.
Inductive OCSPMode := OCSP_DISABLED | SOFT_FAIL | HARD_FAIL.

#[export] Instance VerifyMode_eq_dec : EqDecision VerifyMode.
Proof. solve_decision. Defined.

Record TLSConfig := mkServerConfig {
  enabled : bool;
  cert_file : bytes;
  key_file : bytes;
  key_password : bytes;
  chain_file : bytes;
  ca_file : bytes;
  ca_path : bytes;
  min_version : TLSVersion;
  max_version : TLSVersion;
  ciphers : bytes;
  ciphersuites : bytes;
  prefer_server_ciphers : bool;
  verify_mode : VerifyMode;
  verify_depth : Z;
  crl_file : bytes;
  crl_check : bool;
  crl_check_all : bool;
  ocsp_mode : OCSPMode;
  ocsp_responder_url : bytes;
  ocsp_timeout_ms : Z;
  session_tickets : bool;
  session_timeout : Z;
  session_cache_id : bytes;
  dh_params_file : bytes;
  ecdh_curve : bytes;
  compression : bool;
  renegotiation : bool
}.

Definition default_server_config : TLSConfig :=
  mkServerConfig false [] [] [] [] [] [] TLS_1_2 TLS_1_3 [] [] true VERIFY_NONE 10 [] false false OCSP_DISABLED [] 5000
    true 300 [] [] [] false false.

Record TLSClientConfig := mkClientConfig {
  c_enabled : bool;
  verify_server : bool;
  expected_hostname : bytes;
  c_cert_file : bytes;
  c_key_file : bytes;
  c_key_password : bytes;
  c_ca_file : bytes;
  c_ca_path : bytes;
  use_system_ca : bool;
  c_min_version : TLSVersion;
  c_max_version : TLSVersion;
  c_ciphers : bytes;
  c_ciphersuites : bytes;
  use_sni : bool;
  sni_hostname : bytes;
  ocsp_stapling : bool;
  connect_timeout_ms : Z;
  handshake_timeout_ms : Z
}.

Definition default_client_config : TLSClientConfig :=
  mkClientConfig true true [] [] [] [] [] [] true TLS_1_2 TLS_1_3 [] [] true [] false 30000 10000.

#[export] Instance TLSClientConfig_eta : Eta TLSClientConfig := λ c,
  mkClientConfig (c_enabled c) (verify_server c) (expected_hostname c) (c_cert_file c) (c_key_file c) (c_key_password c)
    (c_ca_file c) (c_ca_path c) (use_system_ca c) (c_min_version c) (c_max_version c) (c_ciphers c) (c_ciphersuites c)
    (use_sni c) (sni_hostname c) (ocsp_stapling c) (connect_timeout_ms c) (handshake_timeout_ms c).

Definition getDefaultCiphers : bytes :=
  "ECDHE+AESGCM:DHE+AESGCM:ECDHE+CHACHA20:DHE+CHACHA20:ECDHE+AES256:DHE+AES256:ECDHE+AES128:DHE+AES128:!aNULL:!eNULL:!EXPORT:!DES:!RC4:!3DES:!MD5:!PSK".

Definition getDefaultCipherSuites : bytes :=
  "TLS_AES_256_GCM_SHA384:TLS_CHACHA20_POLY1305_SHA256:TLS_AES_128_GCM_SHA256".

Definition is_empty (s : bytes) : bool := bool_decide (s = []).

(** The text of the error, or none. *)
Definition server_config_error (c : TLSConfig) : option bytes :=
  if negb (enabled c) then None
  else if is_empty (cert_file c) then Some ("TLS certificate file required" : bytes)
  else if is_empty (key_file c) then Some ("TLS private key file required" : bytes)
  else if version_code (max_version c) <? version_code (min_version c)
  then Some ("min_version cannot be greater than max_version" : bytes)
  else if negb (bool_decide (verify_mode c = VERIFY_NONE)) && is_empty (ca_file c) && is_empty (ca_path c)
  then Some ("CA file or path required for client verification" : bytes)
  else None.

Definition client_config_error (c : TLSClientConfig) : option bytes :=
  if negb (c_enabled c) then None
  else if version_code (c_max_version c) <? version_code (c_min_version c)
  then Some ("min_version cannot be greater than max_version" : bytes)
  else if verify_server c && is_empty (c_ca_file c) && is_empty (c_ca_path c) && negb (use_system_ca c)
  then Some ("CA file/path or system CA required for server verification" : bytes)
  else None.

(** ** Certificates

    What OpenSSL's accessors answer for a certificate. A name is its entries:
    their identifiers, with the text when it converts to UTF-8. *)

Abbreviation X509_NAME := (list (Z * option bytes)).

Inductive GENERAL_NAME :=
  | GEN_DNS (name : bytes)
  | GEN_EMAIL (address : bytes)
  | GEN_IPADD (address : bytes)
  | GEN_URI (uri : bytes)
  | GEN_OTHER.

Record X509 := mkX509 {
  subject_name : option X509_NAME;
  issuer_name : option X509_NAME;
  notBefore : option Z;
  notAfter : option Z;
  serial_hex : option bytes;
  digest_sha1 : option bytes;
  digest_sha256 : option bytes;
  subject_alt_name : option (list GENERAL_NAME);
  key_usage : option (Z → bool);
  ext_key_usage : option (list Z);
  basic_constraints : option (bool * option Z)
}.

(** Times are seconds since the epoch, times a billion. *)
Record CertificateInfo := mkInfo {
  subject_cn : bytes;
  subject_dn : bytes;
  subject_o : bytes;
  subject_ou : bytes;
  subject_c : bytes;
  issuer_cn : bytes;
  issuer_dn : bytes;
  not_before : Z;
  not_after : Z;
  is_valid : bool;
  serial_number : bytes;
  fingerprint_sha1 : bytes;
  fingerprint_sha256 : bytes;
  san_dns : list bytes;
  san_email : list bytes;
  san_ip : list bytes;
  san_uri : list bytes;
  key_usage_digital_signature : bool;
  key_usage_key_encipherment : bool;
  key_usage_key_agreement : bool;
  key_usage_cert_sign : bool;
  key_usage_crl_sign : bool;
  ext_key_usage_server_auth : bool;
  ext_key_usage_client_auth : bool;
  is_ca : bool;
  path_length : Z
}.

Definition no_info : CertificateInfo :=
  mkInfo [] [] [] [] [] [] [] 0 0 false [] [] [] [] [] [] [] false false false false false false false false (-1).

Definition isCurrentlyValid (now : Z) (i : CertificateInfo) : bool := (not_before i <=? now) && (now <=? not_after i).

(** The hours are truncated, then the days; the cast keeps 32 bits. *)
Definition daysUntilExpiration (now : Z) (i : CertificateInfo) : Z :=
  if not_after i <? now then 0 else i32 (Z.quot (Z.quot (not_after i - now) (3600 * 10 ^ 9)) 24).

(** [*.suffix] against the host name from its first dot on. *)
Definition wildcard_matches (san hostname : bytes) : bool :=
  match san with
  | "*"%byte :: suffix =>
      match suffix with
      | "."%byte :: _ :: _ =>
          match find_byte "."%byte hostname with
          | Some dot_pos => bool_decide (drop dot_pos hostname = suffix)
          | None => false
          end
      | _ => false
      end
  | _ => false
  end.

Definition matchesHostname (hostname : bytes) (i : CertificateInfo) : bool :=
  bool_decide (subject_cn i = hostname)
  || existsb (λ san, bool_decide (san = hostname) || wildcard_matches san hostname) (san_dns i)
  || existsb (λ ip, bool_decide (ip = hostname)) (san_ip i).

(** ** Host names *)

Lemma split_at_byte (c : byte) (s : bytes) : c ∈ s → ∃ p r, s = p ++ c :: r ∧ c ∉ p.
Proof.
  induction s as [|b s IH]; intros Hc; [by apply elem_of_nil in Hc|]. destruct (decide (b = c)) as [->|Hb].
  - exists [], s. split; [done|apply not_elem_of_nil].
  - apply elem_of_cons in Hc as [->|Hc]; [done|]. destruct (IH Hc) as (p & r & -> & Hp). exists (b :: p), r.
    split; [done|]. by apply not_elem_of_cons.
Qed.

Lemma wildcard_matches_spec san hostname : wildcard_matches san hostname = true ↔
  ∃ label suffix, suffix ≠ [] ∧ "."%byte ∉ label ∧ hostname = label ++ "."%byte :: suffix ∧
    san = "*"%byte :: "."%byte :: suffix.
Proof.
  split.
  - unfold wildcard_matches. intros Hw. destruct san as [|b san]; [done|]. destruct b; try done.
    destruct san as [|b' suffix]; [done|]. destruct b'; try done. destruct suffix as [|x suffix]; [done|].
    destruct (decide ("."%byte ∈ hostname)) as [Hin|Hin]; [|by rewrite find_byte_free in Hw].
    destruct (split_at_byte _ _ Hin) as (label & r & -> & Hl). rewrite find_byte_app in Hw by done.
    apply bool_decide_eq_true in Hw. rewrite drop_app_length in Hw. injection Hw as ->. by exists label, (x :: suffix).
  - intros (label & suffix & Hne & Hl & -> & ->). unfold wildcard_matches. destruct suffix as [|x suffix]; [done|].
    rewrite find_byte_app by done. by rewrite drop_app_length, bool_decide_eq_true_2.
Qed.

(** A certificate matches a host name that is its common name, one of its DNS
    names or addresses, or that a DNS name [*.suffix] covers by one label
    without dots; and no other. *)
Theorem matches_hostname_spec hostname i : matchesHostname hostname i = true ↔
  subject_cn i = hostname ∨ hostname ∈ san_dns i ∨ hostname ∈ san_ip i ∨
  ∃ label suffix, suffix ≠ [] ∧ "."%byte ∉ label ∧ hostname = label ++ "."%byte :: suffix ∧
    "*"%byte :: "."%byte :: suffix ∈ san_dns i.
Proof.
  unfold matchesHostname. rewrite !orb_true_iff, !existsb_exists, bool_decide_eq_true.
  setoid_rewrite <-list_elem_of_In. setoid_rewrite orb_true_iff. setoid_rewrite bool_decide_eq_true.
  setoid_rewrite wildcard_matches_spec. naive_solver.
Qed.

(** A certificate without a common name matches the empty host name, and the
    common name counts even when there are DNS names. *)
Lemma empty_hostname_matches i : subject_cn i = [] → matchesHostname [] i = true.
Proof. intros E. apply matches_hostname_spec. by left. Qed.

(** ** OpenSSL *)

(** The flags of [SSL_CTX_set_verify] and [SSL_CTX_set_options], by name. *)
Inductive verify_flag := SSL_VERIFY_PEER | SSL_VERIFY_FAIL_IF_NO_PEER_CERT | SSL_VERIFY_CLIENT_ONCE.
Inductive ssl_option :=
  | SSL_OP_NO_SSLv2 | SSL_OP_NO_SSLv3 | SSL_OP_NO_COMPRESSION | SSL_OP_CIPHER_SERVER_PREFERENCE
  | SSL_OP_NO_RENEGOTIATION | SSL_OP_NO_TICKET.

#[export] Instance verify_flag_eq_dec : EqDecision verify_flag.
Proof. solve_decision. Defined.

(** The calls, with their arguments; pointers are numbers, the null pointer 0. *)
Inductive ssl_call :=
  | SSL_CTX_new (server : bool)
  | SSL_CTX_free (ctx : Z)
  | SSL_CTX_set_min_proto_version (ctx version : Z)
  | SSL_CTX_set_max_proto_version (ctx version : Z)
  | SSL_CTX_set_cipher_list (ctx : Z) (ciphers : bytes)
  | SSL_CTX_set_ciphersuites (ctx : Z) (ciphersuites : bytes)
  | SSL_CTX_use_certificate_file (ctx : Z) (file : bytes)
  | SSL_CTX_set_default_passwd_cb_userdata (ctx : Z) (password : bytes)
  | SSL_CTX_set_default_passwd_cb (ctx : Z)
  | SSL_CTX_use_PrivateKey_file (ctx : Z) (file : bytes)
  | SSL_CTX_check_private_key (ctx : Z)
  | SSL_CTX_use_certificate_chain_file (ctx : Z) (file : bytes)
  | SSL_CTX_load_verify_locations (ctx : Z) (file path : option bytes)
  | SSL_CTX_set_default_verify_paths (ctx : Z)
  | SSL_CTX_set_verify (ctx : Z) (mode : list verify_flag) (callback : bool)
  | SSL_CTX_set_verify_depth (ctx depth : Z)
  | SSL_CTX_set_app_data (ctx : Z) (object : nat)
  | SSL_CTX_get_cert_store (ctx : Z)
  | X509_STORE_add_crl (ctx : Z)
  | X509_STORE_set_flags_crl_check (ctx : Z)
  | fopen (file : bytes)
  | fclose
  | PEM_read_X509_CRL
  | X509_CRL_free
  | PEM_read_X509
  | PEM_read_PrivateKey (password : option bytes)
  | SSL_CTX_set_dh_auto (ctx : Z)
  | SSL_CTX_set1_groups_list (ctx : Z) (curve : bytes)
  | SSL_CTX_set_options (ctx : Z) (options : list ssl_option)
  | SSL_CTX_set_session_id_context (ctx : Z) (id : bytes)
  | SSL_CTX_set_timeout (ctx seconds : Z)
  | SSL_new (ctx : Z)
  | SSL_free (ssl : Z)
  | SSL_set_fd (ssl fd : Z)
  | SSL_set_tlsext_host_name (ssl : Z) (hostname : bytes)
  | SSL_accept (ssl : Z)
  | SSL_connect (ssl : Z)
  | SSL_read (ssl : Z) (size : nat)
  | SSL_write (ssl : Z) (data : bytes)
  | SSL_shutdown (ssl : Z)
  | SSL_get_error (ssl ret : Z)
  | SSL_version (ssl : Z)
  | SSL_get_cipher_name (ssl : Z).

(** The number or pointer that a call returns, the bytes that it stores, and the
    errors that it adds to the queue of the thread. *)
Record reply := mkReply { result : Z; output : bytes; raised : list Z }.

Class OpenSSL (K : Type) := {
  answer : ssl_call → K → reply * K;
  context_certificate : Z → K → option X509;
  context_verify_mode : Z → K → list verify_flag;
  peer_certificate : Z → K → option X509;
  ERR_error_string : Z → bytes;
  OBJ_sn2nid : bytes → Z;
  X509_NAME_print : X509_NAME → bytes;
  inet_ntop6 : bytes → bytes;
  system_clock : K → Z
}.

Definition NID_undef : Z := 0.
Definition NID_commonName : Z := 13.
Definition NID_countryName : Z := 14.
Definition NID_organizationName : Z := 17.
Definition NID_organizationalUnitName : Z := 18.
Definition NID_server_auth : Z := 129.
Definition NID_client_auth : Z := 130.

(** The caller's error context, OpenSSL with the queue of errors of this thread,
    and the calls made so far with their results. *)
Record tls_world (K : Type) := mkWorld {
  context : option ErrorContext;
  library : K;
  errors : list Z;
  trace : list (ssl_call * Z)
}.
Arguments mkWorld {K}.
Arguments context {K}.
Arguments library {K}.
Arguments errors {K}.
Arguments trace {K}.

#[export] Instance tls_world_eta K : Eta (tls_world K) := λ w, mkWorld (context w) (library w) (errors w) (trace w).

Abbreviation TLS K := (stateM (tls_world K)).

Section tls.
Context {K : Type} `{OpenSSL K}.

Definition ask (c : ssl_call) : TLS K reply := λ w,
  let '(r, k) := answer c (library w) in
  (r, w <| library := k |> <| errors := errors w ++ raised r |> <| trace := trace w ++ [(c, result r)] |>).

Definition call (c : ssl_call) : TLS K Z := result <$> ask c.

(** The oldest error of the queue, or 0. *)
Definition ERR_get_error : TLS K Z := λ w,
  match errors w with [] => (0, w) | e :: es => (e, w <| errors := es |>) end.

Definition getOpenSSLErrorString : TLS K bytes :=
  err ← ERR_get_error;
  mret (if err =? 0 then ("No error" : bytes) else take 255 (ERR_error_string err)).

Fixpoint drop_errors (queue : list Z) : list Z :=
  match queue with [] => [] | e :: es => if e =? 0 then es else drop_errors es end.

Definition clearOpenSSLErrors : TLS K unit := modify_state (λ w, w <| errors := drop_errors (errors w) |>).

(** [if (ctx) ctx->message = message;] *)
Definition say (message : bytes) : TLS K unit := modify_state (λ w,
  w <| context := (λ c, c <| c_message := message |>) <$> context w |>).

(** The same with the reason that OpenSSL gives, which is only taken from the
    queue when there is a context. *)
Definition say_why (message : bytes) : TLS K unit :=
  c ← gets context;
  match c with
  | None => mret tt
  | Some _ => why ← getOpenSSLErrorString; say (message ++ why)
  end.

(** [if (call != 1) { ...; return status; }] *)
Definition must (c : ssl_call) (explain : TLS K unit) (status : Status) : TLS K Status :=
  r ← call c;
  if r =? 1 then mret OK else _ ← explain; mret status.

(** Go on when the status is [OK]. *)
Definition and_then (m rest : TLS K Status) : TLS K Status :=
  status ← m;
  if bool_decide (status = OK) then rest else mret status.

Definition when (cond : bool) (m : TLS K Status) : TLS K Status := if cond then m else mret OK.

(** A call whose answer is not looked at. *)
Definition just (c : ssl_call) : TLS K Status := _ ← call c; mret OK.

(** ** Certificates, from OpenSSL's answers *)

Definition extractDNComponent (name : X509_NAME) (nid : Z) : bytes :=
  match list_find (λ e, e.1 = nid) name with
  | Some (_, (_, Some text)) => text
  | _ => []
  end.

Definition bytesToHex (data : bytes) : bytes := join_with ":" (hex_byte <$> data).

Definition ip_text (address : bytes) : option bytes :=
  match length address with
  | 4%nat => Some (join_with "." ((λ b, dec (byte_val b)) <$> address))
  | 16%nat => Some (inet_ntop6 address)
  | _ => None
  end.

Definition dns_name (san : GENERAL_NAME) : option bytes := match san with GEN_DNS n => Some n | _ => None end.
Definition email_name (san : GENERAL_NAME) : option bytes := match san with GEN_EMAIL n => Some n | _ => None end.
Definition ip_name (san : GENERAL_NAME) : option bytes := match san with GEN_IPADD a => ip_text a | _ => None end.
Definition uri_name (san : GENERAL_NAME) : option bytes := match san with GEN_URI n => Some n | _ => None end.

Definition extractCertificateInfo (now : Z) (cert : option X509) : CertificateInfo :=
  match cert with
  | None => no_info
  | Some cert =>
      let subject nid := from_option (λ n, extractDNComponent n nid) [] (subject_name cert) in
      let time := from_option (λ t, t * 10 ^ 9) 0 in
      let start := time (notBefore cert) in
      let finish := time (notAfter cert) in
      let sans := default [] (subject_alt_name cert) in
      let bit n := from_option (λ f, f n) false (key_usage cert) in
      let usage nid := bool_decide (nid ∈ default [] (ext_key_usage cert)) in
      mkInfo (subject NID_commonName) (from_option X509_NAME_print [] (subject_name cert))
        (subject NID_organizationName) (subject NID_organizationalUnitName) (subject NID_countryName)
        (from_option (λ n, extractDNComponent n NID_commonName) [] (issuer_name cert))
        (from_option X509_NAME_print [] (issuer_name cert))
        start finish ((start <=? now) && (now <=? finish))
        (default [] (serial_hex cert))
        (from_option bytesToHex [] (digest_sha1 cert)) (from_option bytesToHex [] (digest_sha256 cert))
        (omap dns_name sans) (omap email_name sans) (omap ip_name sans) (omap uri_name sans)
        (bit 0) (bit 2) (bit 4) (bit 5) (bit 6)
        (usage NID_server_auth) (usage NID_client_auth)
        (from_option fst false (basic_constraints cert))
        (default (-1) (i32 <$> (basic_constraints cert ≫= snd)))
  end.

Definition matchHostname (now : Z) (cert : option X509) (hostname : bytes) : bool :=
  match cert with
  | None => false
  | Some _ => matchesHostname hostname (extractCertificateInfo now cert)
  end.

Definition getCertificateFingerprint (cert : option X509) : bytes :=
  from_option bytesToHex [] (cert ≫= digest_sha256).

(** ** Contexts *)

Record TLSContext := mkTlsContext {
  ctx_ : Z;
  is_server_ : bool;
  verify_callback_ : option nat;
  server_cert_info_ : CertificateInfo;
  cert_file_ : bytes;
  key_file_ : bytes;
  key_password_ : bytes
}.

#[local] Instance TLSContext_eta : Eta TLSContext := λ t,
  mkTlsContext (ctx_ t) (is_server_ t) (verify_callback_ t) (server_cert_info_ t) (cert_file_ t) (key_file_ t) (key_password_ t).

Definition new_context : TLSContext := mkTlsContext 0 false None no_info [] [] [].

Definition context_valid (t : TLSContext) : bool := negb (ctx_ t =? 0).

Definition configureProtocols (p : Z) (min_ver max_ver : TLSVersion) : TLS K Status :=
  _ ← clearOpenSSLErrors;
  and_then
    (must (SSL_CTX_set_min_proto_version p (tlsVersionToSSL min_ver)) (say "Failed to set minimum TLS version") INVALID_ARGUMENT)
    (must (SSL_CTX_set_max_proto_version p (tlsVersionToSSL max_ver)) (say "Failed to set maximum TLS version") INVALID_ARGUMENT).

Definition configureCiphers (p : Z) (ciphers ciphersuites : bytes) : TLS K Status :=
  _ ← clearOpenSSLErrors;
  and_then
    (when (negb (is_empty ciphers))
      (must (SSL_CTX_set_cipher_list p ciphers) (say_why "Failed to set cipher list: ") INVALID_ARGUMENT))
    (when (negb (is_empty ciphersuites))
      (must (SSL_CTX_set_ciphersuites p ciphersuites) (say_why "Failed to set TLS 1.3 ciphersuites: ") INVALID_ARGUMENT)).

Definition loadCertificate (p : Z) (cert_file key_file password : bytes) : TLS K Status :=
  _ ← clearOpenSSLErrors;
  and_then (must (SSL_CTX_use_certificate_file p cert_file) (say_why "Failed to load certificate: ") INVALID_ARGUMENT) (
  and_then
    (when (negb (is_empty password))
      (and_then (just (SSL_CTX_set_default_passwd_cb_userdata p password)) (just (SSL_CTX_set_default_passwd_cb p)))) (
  and_then (must (SSL_CTX_use_PrivateKey_file p key_file) (say_why "Failed to load private key: ") INVALID_ARGUMENT)
    (must (SSL_CTX_check_private_key p) (say "Private key does not match certificate") INVALID_ARGUMENT))).

(** The callback that [loadCertificate] installs, for a buffer of [size] bytes. *)
Definition password_callback (size : nat) (password : bytes) : bytes :=
  take size (match find_byte Byte.x00 password with Some n => take n password | None => password end).

Definition some_text (s : bytes) : option bytes := if is_empty s then None else Some s.

Definition loadCA (p : Z) (ca_file ca_path : bytes) : TLS K Status :=
  _ ← clearOpenSSLErrors;
  must (SSL_CTX_load_verify_locations p (some_text ca_file) (some_text ca_path)) (say_why "Failed to load CA: ") INVALID_ARGUMENT.

(** A pointer that must not be null. *)
Definition must_point (c : ssl_call) (explain : TLS K unit) (status : Status) : TLS K Status :=
  r ← call c;
  if r =? 0 then _ ← explain; mret status else mret OK.

Definition loadCRL (p : Z) (crl_file : bytes) : TLS K Status :=
  _ ← clearOpenSSLErrors;
  and_then (must_point (SSL_CTX_get_cert_store p) (say "Failed to get certificate store") INTERNAL_ERROR) (
  and_then (must_point (fopen crl_file) (say (("Failed to open CRL file: " : bytes) ++ crl_file)) NOT_FOUND) (
  crl ← call PEM_read_X509_CRL;
  _ ← call fclose;
  if crl =? 0 then _ ← say_why "Failed to parse CRL: "; mret INVALID_ARGUMENT else
  added ← call (X509_STORE_add_crl p);
  _ ← call X509_CRL_free;
  if negb (added =? 1) then _ ← say_why "Failed to add CRL to store: "; mret INTERNAL_ERROR
  else just (X509_STORE_set_flags_crl_check p))).

Definition or_default (text other : bytes) : bytes := if is_empty text then other else text.

Definition verify_flags (m : VerifyMode) : list verify_flag :=
  match m with
  | VERIFY_NONE => []
  | OPTIONAL => [SSL_VERIFY_PEER]
  | REQUIRE => [SSL_VERIFY_PEER; SSL_VERIFY_FAIL_IF_NO_PEER_CERT]
  | REQUIRE_ONCE => [SSL_VERIFY_PEER; SSL_VERIFY_FAIL_IF_NO_PEER_CERT; SSL_VERIFY_CLIENT_ONCE]
  end.

Definition server_options (c : TLSConfig) : list ssl_option :=
  [SSL_OP_NO_SSLv2; SSL_OP_NO_SSLv3]
  ++ (if compression c then [] else [SSL_OP_NO_COMPRESSION])
  ++ (if prefer_server_ciphers c then [SSL_OP_CIPHER_SERVER_PREFERENCE] else [])
  ++ (if renegotiation c then [] else [SSL_OP_NO_RENEGOTIATION])
  ++ (if session_tickets c then [] else [SSL_OP_NO_TICKET]).

Definition curve_name (c : TLSConfig) : bytes := or_default (ecdh_curve c) "prime256v1".

(** The part of [initServer] after [SSL_CTX_new]. The object, which does not
    outlive a failure, takes the names of the files at the end. *)
Definition configure_server (p : Z) (c : TLSConfig) : TLS K Status :=
  and_then (configureProtocols p (min_version c) (max_version c)) (
  and_then (configureCiphers p (or_default (ciphers c) getDefaultCiphers) (or_default (ciphersuites c) getDefaultCipherSuites)) (
  and_then (loadCertificate p (cert_file c) (key_file c) (key_password c)) (
  and_then (when (negb (is_empty (chain_file c)))
    (must (SSL_CTX_use_certificate_chain_file p (chain_file c)) (say_why "Failed to load certificate chain: ") INVALID_ARGUMENT)) (
  and_then (when (negb (is_empty (ca_file c)) || negb (is_empty (ca_path c))) (loadCA p (ca_file c) (ca_path c))) (
  and_then (just (SSL_CTX_set_verify p (verify_flags (verify_mode c)) false)) (
  and_then (just (SSL_CTX_set_verify_depth p (verify_depth c))) (
  and_then (when (crl_check c && negb (is_empty (crl_file c))) (loadCRL p (crl_file c))) (
  and_then (when (negb (is_empty (dh_params_file c))) (just (SSL_CTX_set_dh_auto p))) (
  and_then (when (negb (OBJ_sn2nid (curve_name c) =? NID_undef)) (just (SSL_CTX_set1_groups_list p (curve_name c)))) (
  and_then (just (SSL_CTX_set_options p (server_options c))) (
  and_then (when (negb (is_empty (session_cache_id c))) (just (SSL_CTX_set_session_id_context p (session_cache_id c))))
    (just (SSL_CTX_set_timeout p (session_timeout c)))))))))))))).

Definition initServer (c : TLSConfig) (self : TLSContext) : TLS K (Status * TLSContext) :=
  let self := self <| is_server_ := true |> in
  _ ← clearOpenSSLErrors;
  p ← call (SSL_CTX_new true);
  let self := self <| ctx_ := p |> in
  if p =? 0 then _ ← say_why "Failed to create SSL_CTX: "; mret (INTERNAL_ERROR, self) else
  status ← configure_server p c;
  if bool_decide (status ≠ OK) then mret (status, self) else
  '(cert, now) ← gets (λ w, (context_certificate p (library w), system_clock (library w)));
  mret (OK, self <| cert_file_ := cert_file c |> <| key_file_ := key_file c |> <| key_password_ := key_password c |>
                 <| server_cert_info_ := extractCertificateInfo now cert |>).

Definition client_options : list ssl_option := [SSL_OP_NO_SSLv2; SSL_OP_NO_SSLv3; SSL_OP_NO_COMPRESSION].

(** The part of [initClient] after [SSL_CTX_new]. *)
Definition configure_client (p : Z) (c : TLSClientConfig) : TLS K Status :=
  and_then (configureProtocols p (c_min_version c) (c_max_version c)) (
  and_then (configureCiphers p (or_default (c_ciphers c) getDefaultCiphers) (or_default (c_ciphersuites c) getDefaultCipherSuites)) (
  and_then (when (negb (is_empty (c_cert_file c))) (loadCertificate p (c_cert_file c) (c_key_file c) (c_key_password c))) (
  and_then
    (if verify_server c then
       and_then (just (SSL_CTX_set_verify p [SSL_VERIFY_PEER] false)) (
       and_then (when (use_system_ca c)
         (must (SSL_CTX_set_default_verify_paths p) (say_why "Failed to load system CA: ") INTERNAL_ERROR))
         (when (negb (is_empty (c_ca_file c)) || negb (is_empty (c_ca_path c))) (loadCA p (c_ca_file c) (c_ca_path c))))
     else just (SSL_CTX_set_verify p [] false))
    (just (SSL_CTX_set_options p client_options))))).

Definition initClient (c : TLSClientConfig) (self : TLSContext) : TLS K (Status * TLSContext) :=
  let self := self <| is_server_ := false |> in
  _ ← clearOpenSSLErrors;
  p ← call (SSL_CTX_new false);
  let self := self <| ctx_ := p |> in
  if p =? 0 then _ ← say_why "Failed to create SSL_CTX: "; mret (INTERNAL_ERROR, self) else
  status ← configure_client p c;
  if bool_decide (status ≠ OK) then mret (status, self) else
  mret (OK, if is_empty (c_cert_file c) then self
            else self <| cert_file_ := c_cert_file c |> <| key_file_ := c_key_file c |> <| key_password_ := c_key_password c |>).

(** The destructor. *)
Definition destroy_context (self : TLSContext) : TLS K unit :=
  if context_valid self then _ ← call (SSL_CTX_free (ctx_ self)); mret tt else mret tt.

(** [validate] then [init]; an object that is not returned is destroyed. *)
Definition create_with (error : option bytes) (init : TLSContext → TLS K (Status * TLSContext)) : TLS K (option TLSContext) :=
  match error with
  | Some message => _ ← say message; mret None
  | None =>
      '(status, self) ← init new_context;
      if bool_decide (status ≠ OK) then _ ← destroy_context self; mret None else mret (Some self)
  end.

Definition createServer (c : TLSConfig) : TLS K (option TLSContext) := create_with (server_config_error c) (initServer c).
Definition createClient (c : TLSClientConfig) : TLS K (option TLSContext) := create_with (client_config_error c) (initClient c).

(** The move constructor and the move assignment: what the new owner becomes,
    and what is left. Moved texts, lists and callbacks are empty afterwards. *)
Definition moved_info (i : CertificateInfo) : CertificateInfo :=
  mkInfo [] [] [] [] [] [] [] (not_before i) (not_after i) (is_valid i) [] [] [] [] [] [] []
    (key_usage_digital_signature i) (key_usage_key_encipherment i) (key_usage_key_agreement i) (key_usage_cert_sign i)
    (key_usage_crl_sign i) (ext_key_usage_server_auth i) (ext_key_usage_client_auth i) (is_ca i) (path_length i).

Definition moved_from (other : TLSContext) : TLSContext :=
  mkTlsContext 0 (is_server_ other) None (moved_info (server_cert_info_ other)) [] [] [].

Definition assign_context (self other : TLSContext) : TLS K (TLSContext * TLSContext) :=
  _ ← (if context_valid self then _ ← call (SSL_CTX_free (ctx_ self)); mret tt else mret tt);
  mret (other, moved_from other).

(** [object] is the address of the context, [callback] names a function. *)
Definition setVerifyCallback (object : nat) (callback : option nat) (self : TLSContext) : TLS K TLSContext :=
  let self := self <| verify_callback_ := callback |> in
  match callback with
  | None => mret self
  | Some _ =>
      mode ← gets (λ w, context_verify_mode (ctx_ self) (library w));
      _ ← call (SSL_CTX_set_verify (ctx_ self) mode true);
      _ ← call (SSL_CTX_set_app_data (ctx_ self) object);
      mret self
  end.

Record VerifyResult := mkVerify { verified : bool; depth : Z; error_code : Z; error_message : bytes; cert_info : CertificateInfo }.

(** [owner] is the object that the context's data points to, if any. *)
Definition verifyCallbackWrapper (call : nat → VerifyResult → bool) (error_string : Z → bytes) (now : Z)
    (preverify_ok : Z) (owner : option TLSContext) (error_depth error : Z) (cert : option X509) : Z :=
  match owner ≫= verify_callback_ with
  | None => preverify_ok
  | Some f =>
      let r := mkVerify (negb (preverify_ok =? 0)) error_depth error (error_string error)
                 (if cert then extractCertificateInfo now cert else no_info) in
      if call f r then 1 else 0
  end.

Definition reloadCertificates (self : TLSContext) : TLS K Status :=
  if is_empty (cert_file_ self) || is_empty (key_file_ self) then mret OK
  else loadCertificate (ctx_ self) (cert_file_ self) (key_file_ self) (key_password_ self).

Definition isCipherSupported (cipher : bytes) : TLS K bool :=
  p ← call (SSL_CTX_new false);
  if p =? 0 then mret false else
  r ← call (SSL_CTX_set_cipher_list p cipher);
  _ ← call (SSL_CTX_free p);
  mret (r =? 1).

Definition isTLSVersionSupported (v : TLSVersion) : bool := true.

(** A file opened and parsed by [parse]; a null pointer on failure. *)
Definition load_from_file (path : bytes) (parse : ssl_call) (cannot_open cannot_parse : bytes) : TLS K Z :=
  fp ← call (fopen path);
  if fp =? 0 then _ ← say (cannot_open ++ path); mret 0 else
  object ← call parse;
  _ ← call fclose;
  if object =? 0 then _ ← say_why cannot_parse; mret 0 else mret object.

Definition loadCertificateFromFile (path : bytes) : TLS K Z :=
  load_from_file path PEM_read_X509 "Failed to open certificate file: " "Failed to parse certificate: ".

Definition loadPrivateKeyFromFile (path password : bytes) : TLS K Z :=
  load_from_file path (PEM_read_PrivateKey (some_text password)) "Failed to open private key file: " "Failed to parse private key: ".

(** The flags of the process: [std::call_once] and [ssl_initialized]. The
    initialisation of OpenSSL itself cannot fail. *)
Record ssl_globals := mkGlobals { ssl_init_flag : bool; ssl_initialized : bool }.

Definition initializeOpenSSL (g : ssl_globals) : ssl_globals := if ssl_init_flag g then g else mkGlobals true true.
Definition cleanupOpenSSL (g : ssl_globals) : ssl_globals := mkGlobals (ssl_init_flag g) false.

(** After a clean-up nothing initialises OpenSSL again. *)
Lemma cleanup_is_final g :
  ssl_init_flag g = true → ssl_initialized (initializeOpenSSL (cleanupOpenSSL g)) = false.
Proof. unfold initializeOpenSSL. cbn. by intros ->. Qed.

(** ** Connections *)

Inductive TLSState := INITIAL | HANDSHAKE_IN_PROGRESS | ESTABLISHED | SHUTDOWN_IN_PROGRESS | SHUTDOWN_COMPLETE | ERROR.

#[local] Instance TLSState_eq_dec : EqDecision TLSState.
Proof. solve_decision. Defined.

Record TLSConnection := mkConnection {
  ssl_ : Z;
  state_ : TLSState;
  peer_cert_info_ : CertificateInfo;
  last_error_ : Z;
  want_read_ : bool;
  want_write_ : bool
}.

#[local] Instance TLSConnection_eta : Eta TLSConnection := λ s,
  mkConnection (ssl_ s) (state_ s) (peer_cert_info_ s) (last_error_ s) (want_read_ s) (want_write_ s).

Definition SSL_ERROR_WANT_READ : Z := 2.
Definition SSL_ERROR_WANT_WRITE : Z := 3.
Definition SSL_ERROR_ZERO_RETURN : Z := 6.

Definition new_tls_connection (t : TLSContext) : TLS K TLSConnection :=
  ssl ← call (SSL_new (ctx_ t)); mret (mkConnection ssl INITIAL no_info 0 false false).

Definition destroy_connection (s : TLSConnection) : TLS K unit :=
  if ssl_ s =? 0 then mret tt else _ ← call (SSL_free (ssl_ s)); mret tt.

Definition setFd (fd : Z) (s : TLSConnection) : TLS K Status :=
  if ssl_ s =? 0 then mret INVALID_ARGUMENT else
  r ← call (SSL_set_fd (ssl_ s) fd); mret (if r =? 1 then OK else INTERNAL_ERROR).

Definition setSNIHostname (hostname : bytes) (s : TLSConnection) : TLS K Status :=
  if ssl_ s =? 0 then mret INVALID_ARGUMENT else
  r ← call (SSL_set_tlsext_host_name (ssl_ s) hostname); mret (if r =? 1 then OK else INTERNAL_ERROR).

Definition extractPeerCertInfo (s : TLSConnection) : TLS K TLSConnection :=
  '(cert, now) ← gets (λ w, (peer_certificate (ssl_ s) (library w), system_clock (library w)));
  mret (if cert : option X509 then s <| peer_cert_info_ := extractCertificateInfo now cert |> else s).

Definition handleSSLError (ret : Z) (s : TLSConnection) : TLS K TLSConnection :=
  e ← call (SSL_get_error (ssl_ s) ret);
  mret (s <| last_error_ := e |> <| want_read_ := e =? SSL_ERROR_WANT_READ |> <| want_write_ := e =? SSL_ERROR_WANT_WRITE |>).

Definition wouldBlock (s : TLSConnection) : bool := want_read_ s || want_write_ s.
Definition no_wants (s : TLSConnection) : TLSConnection := s <| want_read_ := false |> <| want_write_ := false |>.

(** [accept] and [connect], which differ in the call that they make. *)
Definition tls_handshake (c : Z → ssl_call) (s : TLSConnection) : TLS K (Status * TLSConnection) :=
  if ssl_ s =? 0 then mret (INVALID_ARGUMENT, s) else
  let s := no_wants (s <| state_ := HANDSHAKE_IN_PROGRESS |>) in
  ret ← call (c (ssl_ s));
  if ret =? 1 then s ← extractPeerCertInfo (s <| state_ := ESTABLISHED |>); mret (OK, s) else
  s ← handleSSLError ret s;
  if wouldBlock s then mret (LOCK_TIMEOUT, s) else mret (IO_ERROR, s <| state_ := ERROR |>).

Definition accept : TLSConnection → TLS K (Status * TLSConnection) := tls_handshake SSL_accept.
Definition connect : TLSConnection → TLS K (Status * TLSConnection) := tls_handshake SSL_connect.

(** The return value and the bytes stored. *)
Definition read (size : nat) (s : TLSConnection) : TLS K (Z * bytes * TLSConnection) :=
  if (ssl_ s =? 0) || bool_decide (state_ s ≠ ESTABLISHED) then mret (-1, [], s) else
  let s := no_wants s in
  r ← ask (SSL_read (ssl_ s) size);
  if result r <=? 0 then
    s ← handleSSLError (result r) s;
    mret (if last_error_ s =? SSL_ERROR_ZERO_RETURN then 0 else -1, [], s)
  else mret (result r, output r, s).

Definition write (buffer : bytes) (s : TLSConnection) : TLS K (Z * TLSConnection) :=
  if (ssl_ s =? 0) || bool_decide (state_ s ≠ ESTABLISHED) then mret (-1, s) else
  let s := no_wants s in
  ret ← call (SSL_write (ssl_ s) buffer);
  if ret <=? 0 then s ← handleSSLError ret s; mret (-1, s) else mret (ret, s).

Definition shutdown (s : TLSConnection) : TLS K (Status * TLSConnection) :=
  if ssl_ s =? 0 then mret (INVALID_ARGUMENT, s) else
  let s := no_wants (s <| state_ := SHUTDOWN_IN_PROGRESS |>) in
  ret ← call (SSL_shutdown (ssl_ s));
  if ret =? 1 then mret (OK, s <| state_ := SHUTDOWN_COMPLETE |>)
  else if ret =? 0 then mret (LOCK_TIMEOUT, s) else
  s ← handleSSLError ret s;
  if wouldBlock s then mret (LOCK_TIMEOUT, s) else mret (IO_ERROR, s <| state_ := ERROR |>).

Definition getVersion (s : TLSConnection) : TLS K TLSVersion :=
  if ssl_ s =? 0 then mret TLS_1_2 else sslVersionToTLS <$> call (SSL_version (ssl_ s)).

Definition getCipherName (s : TLSConnection) : TLS K bytes :=
  if ssl_ s =? 0 then mret [] else output <$> ask (SSL_get_cipher_name (ssl_ s)).

(** The loop of [NetworkClient::readExactWithTimeout] over TLS; every turn
    reads a byte at least or ends, and the fuel is the number of bytes. *)
Fixpoint read_exact (fuel size : nat) (s : TLSConnection) : TLS K (Status * bytes * TLSConnection) :=
  match fuel, size with
  | Datatypes.S fuel, Datatypes.S _ =>
      '(rc, b, s) ← read size s;
      if rc <=? 0 then
        _ ← modify_state (λ w, w <| context := set_context (context w) CONNECTION_FAILURE "TLS read failed" |>);
        mret (CONNECTION_FAILURE, [], s)
      else
        '(status, rest, s) ← read_exact fuel (size - Z.to_nat rc) s;
        mret (status, take (Z.to_nat rc) b ++ rest, s)
  | _, _ => mret (OK, [], s)
  end.

Definition readExactWithTimeout (size : nat) : TLSConnection → TLS K (Status * bytes * TLSConnection) := read_exact size size.

(** The loop of [NetworkClient::sendMessage] over TLS. *)
Fixpoint write_exact (fuel : nat) (buf : bytes) (s : TLSConnection) : TLS K (Status * TLSConnection) :=
  match fuel, buf with
  | Datatypes.S fuel, _ :: _ =>
      '(rc, s) ← write buf s;
      if rc <=? 0 then
        _ ← modify_state (λ w, w <| context := set_context (context w) CONNECTION_FAILURE "TLS write failed" |>);
        mret (CONNECTION_FAILURE, s)
      else write_exact fuel (drop (Z.to_nat rc) buf) s
  | _, _ => mret (OK, s)
  end.

Definition write_buffer (buf : bytes) : TLSConnection → TLS K (Status * TLSConnection) := write_exact (length buf) buf.

(** ** What the configuration of a context calls *)

(** The calls whose failure must stop the configuration have not failed. *)
Definition succeeded (e : ssl_call * Z) : bool :=
  match e.1 with
  | SSL_CTX_new _ | SSL_CTX_get_cert_store _ | fopen _ | PEM_read_X509_CRL => negb (e.2 =? 0)
  | SSL_CTX_set_min_proto_version _ _ | SSL_CTX_set_max_proto_version _ _ | SSL_CTX_set_cipher_list _ _
  | SSL_CTX_set_ciphersuites _ _ | SSL_CTX_use_certificate_file _ _ | SSL_CTX_use_PrivateKey_file _ _
  | SSL_CTX_check_private_key _ | SSL_CTX_use_certificate_chain_file _ _ | SSL_CTX_load_verify_locations _ _ _
  | SSL_CTX_set_default_verify_paths _ | X509_STORE_add_crl _ => e.2 =? 1
  | _ => true
  end.

(** The calls of [m] are those of [l], up to the first that fails. *)
Definition follows (m : TLS K Status) (l : list ssl_call) : Prop :=
  appends trace m (λ status new, new.*1 `prefix_of` l ∧ (status = OK → new.*1 = l ∧ Forall succeeded new)).

Lemma ask_appends c : appends trace (ask c) (λ r new, new = [(c, result r)]).
Proof. intros w. unfold ask. destruct (answer c (library w)) as [r k]. by exists [(c, result r)]. Qed.

Lemma call_appends c : appends trace (call c) (λ r new, new = [(c, r)]).
Proof.
  eapply appends_bind; [apply ask_appends|]. intros r new ->. by apply appends_ret.
Qed.

Lemma say_quiet m : silent trace (say m).
Proof. by apply silent_modify. Qed.

Lemma clear_quiet : silent trace clearOpenSSLErrors.
Proof. by apply silent_modify. Qed.

Lemma error_string_quiet : silent trace getOpenSSLErrorString.
Proof.
  apply silent_bind; [|intros; apply silent_ret]. intros w. exists []. rewrite app_nil_r. unfold ERR_get_error.
  by destruct (errors w).
Qed.

Lemma say_why_quiet m : silent trace (say_why m).
Proof.
  apply silent_bind; [apply silent_gets|]. intros [c|]; [|apply silent_ret].
  apply silent_bind; [apply error_string_quiet|]. intros. apply say_quiet.
Qed.

#[local] Hint Resolve say_quiet clear_quiet say_why_quiet silent_gets silent_ret : follows.

Lemma follows_and_then m n l l' : follows m l → follows n l' → follows (and_then m n) (l ++ l').
Proof.
  intros Hm Hn. eapply appends_bind; [exact Hm|]. intros status new [Hp Hok]. case_bool_decide as E.
  - destruct (Hok E) as [<- Hs]. eapply appends_mono; [exact Hn|]. intros st new' [Hp' Hok']. rewrite fmap_app.
    split; [by apply prefix_app|]. intros [-> ?]%Hok'. split; [done|]. by apply Forall_app.
  - apply appends_ret. rewrite app_nil_r. split; [by apply prefix_app_r|done].
Qed.

Lemma follows_when b m l : follows m l → follows (when b m) (if b then l else []).
Proof. destruct b; [done|]. intros _. apply appends_ret. split; [done|]. by intros _. Qed.

Lemma follows_if (b : bool) m n l l' : follows m l → follows n l' → follows (if b then m else n) (if b then l else l').
Proof. by destruct b. Qed.

Lemma follows_quiet {A} (m : TLS K A) n l : silent trace m → follows n l → follows (_ ← m; n) l.
Proof. intros Hm Hn. by apply appends_silent. Qed.

Lemma follows_must_point c explain status : silent trace explain → status ≠ OK → (∀ r, succeeded (c, r) = negb (r =? 0)) →
  follows (must_point c explain status) [c].
Proof.
  intros He Hst Hs. eapply appends_bind; [apply call_appends|]. intros r new ->. destruct (r =? 0) eqn:E.
  - apply appends_silent; [done|]. intros _. by apply appends_ret.
  - apply appends_ret. rewrite app_nil_r. split; [done|]. intros _. split; [done|]. constructor; [|done]. by rewrite Hs, E.
Qed.

Lemma follows_must c explain status : silent trace explain → status ≠ OK → (∀ r, succeeded (c, r) = (r =? 1)) →
  follows (must c explain status) [c].
Proof.
  intros He Hst Hs. eapply appends_bind; [apply call_appends|]. intros r new ->. destruct (r =? 1) eqn:E.
  - apply appends_ret. rewrite app_nil_r. split; [done|]. intros _. split; [done|]. constructor; [|done]. by rewrite Hs, E.
  - apply appends_silent; [done|]. intros _. by apply appends_ret.
Qed.

Lemma follows_just c : (∀ r, succeeded (c, r) = true) → follows (just c) [c].
Proof.
  intros Hs. eapply appends_bind; [apply call_appends|]. intros r new ->. apply appends_ret. rewrite app_nil_r.
  split; [done|]. intros _. split; [done|]. constructor; [|done]. by rewrite Hs.
Qed.

Definition protocol_calls (p : Z) (lo hi : TLSVersion) : list ssl_call :=
  [SSL_CTX_set_min_proto_version p (tlsVersionToSSL lo); SSL_CTX_set_max_proto_version p (tlsVersionToSSL hi)].

Definition cipher_calls (p : Z) (ciphers ciphersuites : bytes) : list ssl_call :=
  (if negb (is_empty ciphers) then [SSL_CTX_set_cipher_list p ciphers] else [])
  ++ (if negb (is_empty ciphersuites) then [SSL_CTX_set_ciphersuites p ciphersuites] else []).

Definition certificate_calls (p : Z) (cert key password : bytes) : list ssl_call :=
  [SSL_CTX_use_certificate_file p cert]
  ++ (if negb (is_empty password)
      then [SSL_CTX_set_default_passwd_cb_userdata p password; SSL_CTX_set_default_passwd_cb p] else [])
  ++ [SSL_CTX_use_PrivateKey_file p key; SSL_CTX_check_private_key p].

Definition ca_calls (p : Z) (file path : bytes) : list ssl_call :=
  [SSL_CTX_load_verify_locations p (some_text file) (some_text path)].

Definition crl_calls (p : Z) (file : bytes) : list ssl_call :=
  [SSL_CTX_get_cert_store p; fopen file; PEM_read_X509_CRL; fclose; X509_STORE_add_crl p; X509_CRL_free;
   X509_STORE_set_flags_crl_check p].

(** What a client context is asked for: the server is verified against the
    authorities exactly when [verify_server] is set. *)
Definition client_calls (p : Z) (c : TLSClientConfig) : list ssl_call :=
  protocol_calls p (c_min_version c) (c_max_version c)
  ++ cipher_calls p (or_default (c_ciphers c) getDefaultCiphers) (or_default (c_ciphersuites c) getDefaultCipherSuites)
  ++ (if negb (is_empty (c_cert_file c)) then certificate_calls p (c_cert_file c) (c_key_file c) (c_key_password c) else [])
  ++ (if verify_server c then
        [SSL_CTX_set_verify p [SSL_VERIFY_PEER] false]
        ++ (if use_system_ca c then [SSL_CTX_set_default_verify_paths p] else [])
        ++ (if negb (is_empty (c_ca_file c)) || negb (is_empty (c_ca_path c)) then ca_calls p (c_ca_file c) (c_ca_path c) else [])
      else [SSL_CTX_set_verify p [] false])
  ++ [SSL_CTX_set_options p client_options].

Definition server_calls (p : Z) (c : TLSConfig) : list ssl_call :=
  protocol_calls p (min_version c) (max_version c)
  ++ cipher_calls p (or_default (ciphers c) getDefaultCiphers) (or_default (ciphersuites c) getDefaultCipherSuites)
  ++ certificate_calls p (cert_file c) (key_file c) (key_password c)
  ++ (if negb (is_empty (chain_file c)) then [SSL_CTX_use_certificate_chain_file p (chain_file c)] else [])
  ++ (if negb (is_empty (ca_file c)) || negb (is_empty (ca_path c)) then ca_calls p (ca_file c) (ca_path c) else [])
  ++ [SSL_CTX_set_verify p (verify_flags (verify_mode c)) false]
  ++ [SSL_CTX_set_verify_depth p (verify_depth c)]
  ++ (if crl_check c && negb (is_empty (crl_file c)) then crl_calls p (crl_file c) else [])
  ++ (if negb (is_empty (dh_params_file c)) then [SSL_CTX_set_dh_auto p] else [])
  ++ (if negb (OBJ_sn2nid (curve_name c) =? NID_undef) then [SSL_CTX_set1_groups_list p (curve_name c)] else [])
  ++ [SSL_CTX_set_options p (server_options c)]
  ++ (if negb (is_empty (session_cache_id c)) then [SSL_CTX_set_session_id_context p (session_cache_id c)] else [])
  ++ [SSL_CTX_set_timeout p (session_timeout c)].

(** Checks in sequence. *)
Ltac follow :=
  repeat match goal with
  | |- follows (must _ _ _) _ => apply follows_must; [auto with follows|done|done]
  | |- follows (just _) _ => by apply follows_just
  | |- follows (when _ _) _ => apply follows_when
  | |- follows (and_then _ _) _ => eapply follows_and_then
  | |- follows (_ ≫= _) _ => apply follows_quiet; [auto with follows|]
  end.

Lemma protocols_follow p lo hi : follows (configureProtocols p lo hi) (protocol_calls p lo hi).
Proof. unfold configureProtocols. apply follows_quiet; [auto with follows|]. apply (follows_and_then _ _ [_] [_]); follow. Qed.

Lemma ciphers_follow p c s : follows (configureCiphers p c s) (cipher_calls p c s).
Proof. unfold configureCiphers, cipher_calls. follow. Qed.

Lemma certificate_follows p c k pw : follows (loadCertificate p c k pw) (certificate_calls p c k pw).
Proof.
  unfold loadCertificate, certificate_calls. apply follows_quiet; [auto with follows|].
  apply follows_and_then; [follow|]. apply follows_and_then.
  - apply follows_when, (follows_and_then _ _ [_] [_]); follow.
  - apply (follows_and_then _ _ [_] [_]); follow.
Qed.

Lemma ca_follows p f d : follows (loadCA p f d) (ca_calls p f d).
Proof. unfold loadCA. follow. Qed.

(** The sequence of [loadCRL] once the file is open. *)
Lemma crl_follows p f : follows (loadCRL p f) (crl_calls p f).
Proof.
  unfold loadCRL, crl_calls. apply follows_quiet; [auto with follows|].
  apply (follows_and_then _ _ [_]); [by apply follows_must_point; [auto with follows|..]|].
  apply (follows_and_then _ _ [_]); [by apply follows_must_point; [auto with follows|..]|].
  eapply appends_bind; [apply call_appends|]. intros crl ? ->.
  eapply appends_bind; [apply call_appends|]. intros r ? ->.
  destruct (crl =? 0) eqn:Ecrl.
  { apply appends_silent; [auto with follows|]. intros _. apply appends_ret. split; [|done].
    cbn. do 2 apply prefix_cons. apply prefix_nil. }
  eapply appends_bind; [apply call_appends|]. intros added ? ->.
  eapply appends_bind; [apply call_appends|]. intros r' ? ->.
  destruct (added =? 1) eqn:Eadd; cbn [negb].
  - eapply appends_bind; [apply call_appends|]. intros r'' ? ->. apply appends_ret. cbn. split; [done|].
    intros _. split; [done|]. repeat constructor; cbn; [by rewrite Ecrl|by rewrite Eadd].
  - apply appends_silent; [auto with follows|]. intros _. apply appends_ret. cbn. split; [|done].
    do 4 apply prefix_cons. apply prefix_nil.
Qed.

Lemma client_follows p c : follows (configure_client p c) (client_calls p c).
Proof.
  unfold configure_client, client_calls.
  apply follows_and_then; [apply protocols_follow|]. apply follows_and_then; [apply ciphers_follow|].
  apply follows_and_then; [apply follows_when, certificate_follows|].
  apply follows_and_then; [|by apply follows_just].
  apply follows_if; [|by apply follows_just].
  apply follows_and_then; [by apply follows_just|].
  apply follows_and_then; [follow|apply follows_when, ca_follows].
Qed.

Lemma server_follows p c : follows (configure_server p c) (server_calls p c).
Proof.
  unfold configure_server, server_calls.
  apply follows_and_then; [apply protocols_follow|]. apply follows_and_then; [apply ciphers_follow|].
  apply follows_and_then; [apply certificate_follows|]. apply follows_and_then; [follow|].
  apply follows_and_then; [apply follows_when, ca_follows|].
  apply follows_and_then; [by apply follows_just|]. apply follows_and_then; [by apply follows_just|].
  apply follows_and_then; [apply follows_when, crl_follows|].
  do 4 (apply follows_and_then; [follow|]). by apply follows_just.
Qed.

(** The context is freed, when there is one. *)
Definition freed (p : Z) (new : list (ssl_call * Z)) : Prop :=
  if p =? 0 then new = [] else ∃ x, new = [(SSL_CTX_free p, x)].

Lemma destroy_appends t : appends trace (destroy_context t) (λ _, freed (ctx_ t)).
Proof.
  unfold destroy_context, context_valid, freed. destruct (ctx_ t =? 0); cbn [negb]; [apply silent_ret|].
  eapply appends_bind; [apply call_appends|]. intros x ? ->. apply appends_ret. by exists x.
Qed.

(** What creating a context adds to the trace: the calls of the configuration
    after [SSL_CTX_new]. When one fails nothing is returned, and the context,
    if there was one, is freed. *)
Definition creation (server : bool) (error : option bytes) (plan : Z → list ssl_call)
    (r : option TLSContext) (new : list (ssl_call * Z)) : Prop :=
  match error with
  | Some _ => r = None ∧ new = []
  | None =>
      ∃ p rest, new = (SSL_CTX_new server, p) :: rest ∧
      match r with
      | Some t => ctx_ t = p ∧ p ≠ 0 ∧ rest.*1 = plan p ∧ Forall succeeded rest
      | None =>
          (p = 0 ∧ rest = []) ∨
          (p ≠ 0 ∧ ∃ made x, rest = made ++ [(SSL_CTX_free p, x)] ∧ made.*1 `prefix_of` plan p)
      end
  end.

(** What [initServer] and [initClient] have in common. *)
Definition initialised (server : bool) (plan : Z → list ssl_call) (r : Status * TLSContext) (new : list (ssl_call * Z)) : Prop :=
  ∃ p rest, new = (SSL_CTX_new server, p) :: rest ∧ ctx_ r.2 = p ∧ rest.*1 `prefix_of` plan p ∧
    (p = 0 → r.1 ≠ OK ∧ rest = []) ∧ (r.1 = OK → rest.*1 = plan p ∧ Forall succeeded rest).

Lemma create_appends server error plan init : (∀ t, appends trace (init t) (initialised server plan)) →
  appends trace (create_with error init) (creation server error plan).
Proof.
  intros Hi. unfold create_with, creation. destruct error as [m|].
  { apply appends_silent; [auto with follows|]. intros _. by apply appends_ret. }
  eapply appends_bind; [apply Hi|]. intros [status t] new (p & rest & -> & Ep & Hp & H0 & Hok). cbn in *.
  case_bool_decide as Hst.
  - eapply appends_bind; [apply destroy_appends|]. intros ? new Hf. apply appends_ret. rewrite app_nil_r. rewrite Ep in Hf.
    unfold freed in Hf. destruct (Z.eqb_spec p 0) as [E|E].
    + subst new. rewrite app_nil_r. exists p, rest. split; [done|]. left. split; [done|]. by apply H0.
    + destruct Hf as [x ->]. exists p, (rest ++ [(SSL_CTX_free p, x)]). split; [done|]. right. split; [done|].
      by exists rest, x.
  - apply appends_ret. rewrite app_nil_r. exists p, rest. split; [done|].
    assert (status = OK) as E by (by destruct (decide (status = OK))).
    destruct (Hok E). split_and!; [done| |done..]. intros ->. by destruct H0.
Qed.

Lemma init_client_appends c t : appends trace (initClient c t) (initialised false (λ p, client_calls p c)).
Proof.
  unfold initClient. apply appends_silent; [auto with follows|]. intros _.
  eapply appends_bind; [apply call_appends|]. intros p ? ->. destruct (Z.eqb_spec p 0) as [->|E].
  - apply appends_silent; [auto with follows|]. intros _. apply appends_ret. exists 0, [].
    split_and!; [done..|apply prefix_nil|done|done].
  - eapply appends_bind; [apply client_follows|]. intros status new [Hp Hok]. case_bool_decide as Hst.
    + apply appends_ret. rewrite app_nil_r. exists p, new. by split_and!.
    + apply appends_ret. rewrite app_nil_r. exists p, new.
      split_and!; [done|by destruct (is_empty _)|done|done|]. intros _. by apply Hok.
Qed.

Lemma init_server_appends c t : appends trace (initServer c t) (initialised true (λ p, server_calls p c)).
Proof.
  unfold initServer. apply appends_silent; [auto with follows|]. intros _.
  eapply appends_bind; [apply call_appends|]. intros p ? ->. destruct (Z.eqb_spec p 0) as [->|E].
  - apply appends_silent; [auto with follows|]. intros _. apply appends_ret. exists 0, [].
    split_and!; [done..|apply prefix_nil|done|done].
  - eapply appends_bind; [apply server_follows|]. intros status new [Hp Hok]. case_bool_decide as Hst.
    + apply appends_ret. rewrite app_nil_r. exists p, new. by split_and!.
    + eapply appends_bind; [apply silent_gets|]. intros [cert now] ? ->. apply appends_ret. rewrite !app_nil_r. exists p, new.
      split_and!; [done..|]. intros _. by apply Hok.
Qed.


(** ** Who owns the contexts *)

Definition allocated (e : ssl_call * Z) : option Z :=
  match e.1 with SSL_CTX_new _ => if e.2 =? 0 then None else Some e.2 | _ => None end.
Definition deallocated (e : ssl_call * Z) : option Z := match e.1 with SSL_CTX_free p => Some p | _ => None end.

#[local] Instance context_owner : Owner TLSContext Z := {
  resource t := if context_valid t then Some (ctx_ t) else None;
  null_object := new_context;
  resource_null := eq_refl
}.
#[local] Arguments resource : simpl never.

(** The contexts by address. *)
Record tls_objects := mkObjects { held : gmap nat TLSContext; process : tls_world K }.

Inductive tls_op :=
  | OpCreateServer (v : nat) (c : TLSConfig)
  | OpCreateClient (v : nat) (c : TLSClientConfig)
  | OpMoveContext (v src : nat)
  | OpAssignContext (dst src : nat)
  | OpDestroyContext (v : nat)
  | OpSetVerifyCallback (v : nat) (callback : option nat)
  | OpReload (v : nat)
  | OpIsCipherSupported (cipher : bytes).

(** Operations on objects that are there, and on new ones that are not. *)
Definition run_tls_op (n : tls_objects) (op : tls_op) : tls_objects :=
  let m := held n in
  let build v (create : TLS K (option TLSContext)) :=
    match m !! v with
    | Some _ => n
    | None => let '(r, w) := create (process n) in mkObjects (match r with Some t => <[v := t]> m | None => m end) w
    end in
  match op with
  | OpCreateServer v c => build v (createServer c)
  | OpCreateClient v c => build v (createClient c)
  | OpMoveContext v src =>
      match m !! v, m !! src with
      | None, Some t => mkObjects (<[v := t]> (<[src := moved_from t]> m)) (process n)
      | _, _ => n
      end
  | OpAssignContext dst src =>
      if (dst =? src)%nat then n else
      match m !! dst, m !! src with
      | Some d, Some t =>
          let '(a, b, w) := assign_context d t (process n) in mkObjects (<[dst := a]> (<[src := b]> m)) w
      | _, _ => n
      end
  | OpDestroyContext v =>
      match m !! v with
      | Some t => let '(_, w) := destroy_context t (process n) in mkObjects (delete v m) w
      | None => n
      end
  | OpSetVerifyCallback v f =>
      match m !! v with
      | Some t => let '(t, w) := setVerifyCallback v f t (process n) in mkObjects (<[v := t]> m) w
      | None => n
      end
  | OpReload v =>
      match m !! v with
      | Some t => let '(_, w) := reloadCertificates t (process n) in mkObjects m w
      | None => n
      end
  | OpIsCipherSupported cipher => let '(_, w) := isCipherSupported cipher (process n) in mkObjects m w
  end.

Definition accounted (n : tls_objects) : Prop :=
  omap allocated (trace (process n)) ≡ₚ omap deallocated (trace (process n)) ++ live (held n).

(** What the new events take is given back by them, or held afterwards. *)
Lemma account_step n m' w' new :
  trace w' = trace (process n) ++ new →
  omap deallocated new ++ live m' ≡ₚ live (held n) ++ omap allocated new →
  accounted n → accounted (mkObjects m' w').
Proof. unfold accounted. cbn. intros -> E Hn. rewrite !omap_app, Hn, <-!app_assoc, E. done. Qed.

(** Events that neither allocate nor free. *)
Definition neutral (c : ssl_call) : bool := match c with SSL_CTX_new _ | SSL_CTX_free _ => false | _ => true end.

Lemma neutral_events new : Forall neutral new.*1 → omap allocated new = [] ∧ omap deallocated new = [].
Proof.
  induction new as [|[c r] new IH]; intros Hn; [done|]. cbn in Hn. apply Forall_cons in Hn as [Hc Hn].
  destruct (IH Hn) as [Ha Hd]. destruct c; try done; cbn; by rewrite Ha, Hd.
Qed.

Ltac neutral_lists :=
  repeat first [apply Forall_app_2 | apply Forall_nil_2 | apply Forall_cons_2; [done|] | case_match].

Lemma client_calls_neutral p c : Forall neutral (client_calls p c).
Proof. unfold client_calls, protocol_calls, cipher_calls, certificate_calls, ca_calls. neutral_lists. Qed.

Lemma server_calls_neutral p c : Forall neutral (server_calls p c).
Proof. unfold server_calls, protocol_calls, cipher_calls, certificate_calls, ca_calls, crl_calls. neutral_lists. Qed.

Lemma Forall_prefix {A} (P : A → Prop) l l' : l `prefix_of` l' → Forall P l' → Forall P l.
Proof. intros [x ->]. rewrite Forall_app. tauto. Qed.

Lemma creation_accounted server error plan r new : (∀ p, Forall neutral (plan p)) → creation server error plan r new →
  ∃ gone, omap deallocated new = gone ∧ omap allocated new = gone ++ option_list (r ≫= resource).
Proof.
  intros Hplan Hc. exists (omap deallocated new). split; [done|]. unfold creation in Hc. destruct error as [m|].
  { by destruct Hc as [-> ->]. }
  destruct Hc as (p & rest & -> & Hr). destruct r as [t|].
  - destruct Hr as (Ep & Hp & E & _). destruct (neutral_events rest) as [Ha Hd]; [rewrite E; apply Hplan|].
    cbn. rewrite Ha, Hd. unfold allocated, deallocated. cbn. rewrite (proj2 (Z.eqb_neq _ _) Hp). cbn.
    unfold resource, context_owner, context_valid. by rewrite Ep, (proj2 (Z.eqb_neq _ _) Hp).
  - destruct Hr as [[-> ->]|(Hp & made & x & -> & Hpre)]; [done|].
    destruct (neutral_events made) as [Ha Hd]; [by eapply Forall_prefix|].
    cbn. rewrite !omap_app, Ha, Hd. unfold allocated, deallocated. cbn. by rewrite (proj2 (Z.eqb_neq _ _) Hp).
Qed.

Lemma creation_keeps_account n v server error plan create : held n !! v = None → accounted n →
  (∀ p, Forall neutral (plan p)) → appends trace create (creation server error plan) →
  accounted (let '(r, w) := create (process n) in mkObjects (match r with Some t => <[v := t]> (held n) | None => held n end) w).
Proof.
  intros Hv Hn Hplan Hc. destruct (Hc (process n)) as (new & Ht & Hr). destruct (create (process n)) as [r w]. cbn in *.
  destruct (creation_accounted _ _ _ _ _ Hplan Hr) as (gone & Hd & Ha).
  eapply account_step; [done| |done]. rewrite Hd, Ha. destruct r as [t|]; cbn.
  - rewrite live_insert by done. solve_Permutation.
  - rewrite app_nil_r. apply Permutation_app_comm.
Qed.

(** Freeing the context of [t], in the trace. *)
Lemma freed_accounts t new : freed (ctx_ t) new → omap deallocated new = option_list (resource t) ∧ omap allocated new = [].
Proof.
  unfold freed, resource, context_owner, context_valid. destruct (ctx_ t =? 0); [by intros ->|]. by intros [x ->].
Qed.

Lemma assign_accounted n dst src d t : dst ≠ src → held n !! dst = Some d → held n !! src = Some t → accounted n →
  accounted (let '(a, b, w) := assign_context d t (process n) in mkObjects (<[dst := a]> (<[src := b]> (held n))) w).
Proof.
  intros Hne Hd Ht Hn. unfold assign_context. fold (destroy_context d).
  destruct (destroy_appends d (process n)) as (new & E & Hf). unfold mbind, state_bind.
  destruct (destroy_context d (process n)) as [[] w]. cbn in *. destruct (freed_accounts d new Hf) as [Hgone Hnone].
  eapply account_step; [done| |done]. rewrite Hgone, Hnone, app_nil_r.
  rewrite (live_moved _ dst src d t _ _ new_context) by done. by apply live_dropped.
Qed.

Lemma destroy_accounted n v t : held n !! v = Some t → accounted n →
  accounted (let '(_, w) := destroy_context t (process n) in mkObjects (delete v (held n)) w).
Proof.
  intros Ht Hn. destruct (destroy_appends t (process n)) as (new & E & Hf).
  destruct (destroy_context t (process n)) as [[] w]. cbn in *. destruct (freed_accounts t new Hf) as [Hgone Hnone].
  eapply account_step; [done| |done]. rewrite Hgone, Hnone, app_nil_r, <-live_insert by apply lookup_delete_eq.
  by rewrite insert_delete_id.
Qed.

(** An operation that keeps the context of an object. *)
Lemma neutral_accounted n v t t' w' new : held n !! v = Some t → resource t' = resource t →
  trace w' = trace (process n) ++ new → Forall neutral new.*1 → accounted n → accounted (mkObjects (<[v := t']> (held n)) w').
Proof.
  intros Ht Hr E Hnew Hn. destruct (neutral_events new Hnew) as [Ha Hd].
  eapply account_step; [done| |done]. by rewrite Ha, Hd, app_nil_r, (live_same _ _ _ _ Ht Hr).
Qed.

Lemma callback_appends v f t :
  appends trace (setVerifyCallback v f t) (λ t' new, resource t' = resource t ∧ Forall neutral new.*1).
Proof.
  unfold setVerifyCallback. destruct f as [f|]; [|by apply appends_ret].
  apply appends_silent; [auto with follows|]. intros mode.
  eapply appends_bind; [apply call_appends|]. intros ? ? ->. eapply appends_bind; [apply call_appends|]. intros ? ? ->.
  apply appends_ret. split; [done|]. by repeat constructor.
Qed.

Lemma reload_appends t : appends trace (reloadCertificates t) (λ _ new, Forall neutral new.*1).
Proof.
  unfold reloadCertificates. destruct (_ || _); [by apply appends_ret|].
  eapply appends_mono; [apply certificate_follows|]. intros status new [Hp _]. eapply Forall_prefix; [exact Hp|].
  unfold certificate_calls. neutral_lists.
Qed.

Lemma cipher_appends c : appends trace (isCipherSupported c) (λ _ new, omap allocated new = omap deallocated new).
Proof.
  unfold isCipherSupported. eapply appends_bind; [apply call_appends|]. intros p ? ->. destruct (p =? 0) eqn:E.
  { apply appends_ret. unfold allocated. cbn. by rewrite E. }
  eapply appends_bind; [apply call_appends|]. intros ? ? ->. eapply appends_bind; [apply call_appends|]. intros ? ? ->.
  apply appends_ret. unfold allocated. cbn. by rewrite E.
Qed.

Lemma run_tls_op_accounted n op : accounted n → accounted (run_tls_op n op).
Proof.
  intros Hn. destruct op as [v c|v c|v src|dst src|v|v f|v|cipher]; cbn [run_tls_op].
  - destruct (held n !! v) eqn:E; [done|].
    apply (creation_keeps_account n v true (server_config_error c) (λ p, server_calls p c)); [done..|intros; apply server_calls_neutral|].
    apply create_appends. intros. apply init_server_appends.
  - destruct (held n !! v) eqn:E; [done|].
    apply (creation_keeps_account n v false (client_config_error c) (λ p, client_calls p c)); [done..|intros; apply client_calls_neutral|].
    apply create_appends. intros. apply init_client_appends.
  - destruct (held n !! v) eqn:E; [done|]. destruct (held n !! src) as [t|] eqn:Es; [|done].
    eapply (account_step _ _ _ []); [by rewrite app_nil_r| |done]. cbn. rewrite app_nil_r.
    rewrite live_insert by (rewrite lookup_insert_ne by congruence; done). by apply live_dropped.
  - destruct (Nat.eqb_spec dst src); [done|]. destruct (held n !! dst) as [d|] eqn:E; [|done].
    destruct (held n !! src) as [t|] eqn:Es; [|done]. by apply assign_accounted.
  - destruct (held n !! v) as [t|] eqn:E; [|done]. by apply destroy_accounted.
  - destruct (held n !! v) as [t|] eqn:E; [|done]. destruct (callback_appends v f t (process n)) as (new & Ht & Hr & Hnew).
    destruct (setVerifyCallback v f t (process n)) as [t' w]. cbn in *. by eapply neutral_accounted.
  - destruct (held n !! v) as [t|] eqn:E; [|done]. destruct (reload_appends t (process n)) as (new & Ht & Hnew).
    destruct (reloadCertificates t (process n)) as [t' w]. cbn in *. destruct (neutral_events new Hnew) as [Ha Hd].
    eapply account_step; [done| |done]. by rewrite Ha, Hd, app_nil_r.
  - destruct (cipher_appends cipher (process n)) as (new & Ht & E). destruct (isCipherSupported cipher (process n)) as [b w]. cbn in *.
    eapply account_step; [done| |done]. rewrite E. apply Permutation_app_comm.
Qed.

Definition no_objects (ctx : option ErrorContext) (k : K) : tls_objects := mkObjects ∅ (mkWorld ctx k [] []).

Lemma run_tls_accounted ops : ∀ n, accounted n → accounted (foldl run_tls_op n ops).
Proof. induction ops; intros n Hn; [done|]. by apply IHops, run_tls_op_accounted. Qed.

(** Every SSL context that OpenSSL handed out is freed once or owned by one
    object, through any creations, failures, moves, assignments, reloads and
    destructions; when no object is left, all are freed. *)
Theorem contexts_freed_once ops ctx k :
  let n := foldl run_tls_op (no_objects ctx k) ops in
  omap allocated (trace (process n)) ≡ₚ omap deallocated (trace (process n)) ++ live (held n) ∧
  (held n = ∅ → omap allocated (trace (process n)) ≡ₚ omap deallocated (trace (process n))).
Proof.
  intros n. assert (accounted n) as Hn.
  { apply run_tls_accounted. unfold accounted, live. cbn. by rewrite map_to_list_empty. }
  unfold accounted in Hn. split; [done|]. intros E. rewrite Hn, E. unfold live. by rewrite map_to_list_empty, app_nil_r.
Qed.

(** ** Connections carry data only between a handshake and a shutdown *)

(** Whether the connection [ssl] is secured after an event, when it was [b] before. *)
Definition secured (ssl : Z) (b : bool) (e : ssl_call * Z) : bool :=
  match e.1 with
  | SSL_accept s | SSL_connect s => if s =? ssl then e.2 =? 1 else b
  | SSL_shutdown s => if s =? ssl then false else b
  | _ => b
  end.

Definition is_data (c : ssl_call) : bool := match c with SSL_read _ _ | SSL_write _ _ => true | _ => false end.

(** Every event of [l] that carries data finds the connection secured. *)
Fixpoint data_secured (ssl : Z) (b : bool) (l : list (ssl_call * Z)) : Prop :=
  match l with
  | [] => True
  | e :: l => (is_data e.1 → b = true) ∧ data_secured ssl (secured ssl b e) l
  end.

Lemma data_secured_app ssl l l' : ∀ b,
  data_secured ssl b l → data_secured ssl (foldl (secured ssl) b l) l' → data_secured ssl b (l ++ l').
Proof. induction l as [|e l IH]; intros b Hl Hl'; [done|]. destruct Hl. split; [done|]. by apply IH. Qed.

Lemma data_secured_inv ssl pre e post : ∀ b,
  data_secured ssl b (pre ++ e :: post) → is_data e.1 → foldl (secured ssl) b pre = true.
Proof. induction pre as [|x pre IH]; intros b [Hx Hl] He; [by apply Hx|]. by apply IH. Qed.

Definition established (s : TLSConnection) : bool := bool_decide (state_ s = ESTABLISHED).

(** [m] keeps what the state says true to the events. *)
Definition follows_state (s s' : TLSConnection) (new : list (ssl_call * Z)) : Prop :=
  ssl_ s' = ssl_ s ∧ established s' = foldl (secured (ssl_ s)) (established s) new ∧
  data_secured (ssl_ s) (established s) new.

Lemma follows_state_nil s : follows_state s s [].
Proof. done. Qed.

Lemma follows_state_app s s1 s2 l l' : follows_state s s1 l → follows_state s1 s2 l' → follows_state s s2 (l ++ l').
Proof.
  intros (E1 & Eb & Hd) (E2 & Eb' & Hd'). rewrite E1, Eb in *. split_and!; [congruence|by rewrite foldl_app|].
  by apply data_secured_app.
Qed.

Lemma error_follows ret s : appends trace (handleSSLError ret s) (λ s' new, follows_state s s' new ∧ state_ s' = state_ s).
Proof.
  unfold handleSSLError. eapply appends_bind; [apply call_appends|]. intros e ? ->. apply appends_ret. by split_and!.
Qed.

Lemma peer_info_follows s : appends trace (extractPeerCertInfo s) (λ s' new, follows_state s s' new).
Proof.
  unfold extractPeerCertInfo. apply appends_silent; [auto with follows|]. intros [[cert|] now]; by apply appends_ret.
Qed.

(** A call other than a handshake or a shutdown, on a connection that is established if it carries data. *)
Lemma call_follows s c r : (∀ ssl b, secured ssl b (c, r) = b) → (is_data c → established s = true) →
  follows_state s (no_wants s) [(c, r)].
Proof. intros Hs Hd. split_and!; [done| |by split]. cbn. by rewrite Hs. Qed.

Lemma handshake_follows c s : c = SSL_accept ∨ c = SSL_connect →
  appends trace (tls_handshake c s) (λ r new, follows_state s r.2 new).
Proof.
  intros Hc. unfold tls_handshake. destruct (ssl_ s =? 0); [by apply appends_ret|]. set (s1 := no_wants _).
  eapply appends_bind; [apply call_appends|]. intros ret ? ->.
  assert (∀ s', ssl_ s' = ssl_ s → established s' = (ret =? 1) → follows_state s s' [(c (ssl_ s1), ret)]) as Hret.
  { intros s' E E'. split_and!; [done| |by destruct Hc as [->| ->]].
    rewrite E'. destruct Hc as [->| ->]; cbn; unfold secured; cbn; by rewrite Z.eqb_refl. }
  destruct (ret =? 1) eqn:Er.
  - eapply appends_bind; [apply peer_info_follows|]. intros s' new Hs'. apply appends_ret. rewrite app_nil_r.
    eapply follows_state_app; [|exact Hs']. by apply Hret.
  - eapply appends_bind; [apply error_follows|]. intros s' new [Hs' Est].
    assert (follows_state s s' ([(c (ssl_ s1), ret)] ++ new)) as Hf by (eapply follows_state_app; [by apply (Hret s1)|exact Hs']).
    destruct (wouldBlock s'); apply appends_ret; rewrite app_nil_r; [done|].
    destruct Hf as (? & Eb & ?). split_and!; [done| |done]. rewrite <-Eb. unfold established. by rewrite Est.
Qed.

Lemma read_follows n s : appends trace (read n s) (λ r new, follows_state s r.2 new).
Proof.
  unfold read. destruct (_ || _) eqn:E; [by apply appends_ret|]. apply orb_false_iff in E as [_ E].
  apply bool_decide_eq_false in E. apply dec_stable in E.
  eapply appends_bind; [apply ask_appends|]. intros r ? ->.
  assert (follows_state s (no_wants s) [(SSL_read (ssl_ (no_wants s)) n, result r)]) as Hf.
  { apply call_follows; [done|]. intros _. unfold established. by rewrite E. }
  destruct (result r <=? 0).
  - eapply appends_bind; [apply error_follows|]. intros s' new [Hs' _]. apply appends_ret. rewrite app_nil_r.
    by eapply follows_state_app.
  - apply appends_ret. by rewrite app_nil_r.
Qed.

Lemma write_follows b s : appends trace (write b s) (λ r new, follows_state s r.2 new).
Proof.
  unfold write. destruct (_ || _) eqn:E; [by apply appends_ret|]. apply orb_false_iff in E as [_ E].
  apply bool_decide_eq_false in E. apply dec_stable in E.
  eapply appends_bind; [apply call_appends|]. intros ret ? ->.
  assert (follows_state s (no_wants s) [(SSL_write (ssl_ (no_wants s)) b, ret)]) as Hf.
  { apply call_follows; [done|]. intros _. unfold established. by rewrite E. }
  destruct (ret <=? 0).
  - eapply appends_bind; [apply error_follows|]. intros s' new [Hs' _]. apply appends_ret. rewrite app_nil_r.
    by eapply follows_state_app.
  - apply appends_ret. by rewrite app_nil_r.
Qed.

Lemma shutdown_follows s : appends trace (shutdown s) (λ r new, follows_state s r.2 new).
Proof.
  unfold shutdown. destruct (ssl_ s =? 0); [by apply appends_ret|]. set (s1 := no_wants _).
  eapply appends_bind; [apply call_appends|]. intros ret ? ->.
  assert (∀ s', ssl_ s' = ssl_ s → established s' = false → follows_state s s' [(SSL_shutdown (ssl_ s1), ret)]) as Hret.
  { intros s' E E'. split_and!; [done| |done]. rewrite E'. cbn. unfold secured. cbn. by rewrite Z.eqb_refl. }
  destruct (ret =? 1); [apply appends_ret; rewrite app_nil_r; by apply Hret|].
  destruct (ret =? 0); [apply appends_ret; rewrite app_nil_r; by apply Hret|].
  eapply appends_bind; [apply error_follows|]. intros s' new [Hs' Est].
  assert (follows_state s s' ([(SSL_shutdown (ssl_ s1), ret)] ++ new)) as Hf by (eapply follows_state_app; [by apply (Hret s1)|exact Hs']).
  destruct (wouldBlock s'); apply appends_ret; rewrite app_nil_r; [done|].
  destruct Hf as (? & Eb & ?). split_and!; [done| |done]. rewrite <-Eb. unfold established. by rewrite Est.
Qed.

Inductive connection_op :=
  | OpSetFd (fd : Z)
  | OpSNI (hostname : bytes)
  | OpAccept
  | OpConnect
  | OpRead (size : nat)
  | OpWrite (buffer : bytes)
  | OpShutdown
  | OpGetVersion
  | OpGetCipherName.

Definition run_connection_op (s : TLSConnection) (op : connection_op) : TLS K TLSConnection :=
  match op with
  | OpSetFd fd => _ ← setFd fd s; mret s
  | OpSNI h => _ ← setSNIHostname h s; mret s
  | OpAccept => snd <$> accept s
  | OpConnect => snd <$> connect s
  | OpRead n => snd <$> read n s
  | OpWrite b => snd <$> write b s
  | OpShutdown => snd <$> shutdown s
  | OpGetVersion => _ ← getVersion s; mret s
  | OpGetCipherName => _ ← getCipherName s; mret s
  end.

Fixpoint run_connection (ops : list connection_op) (s : TLSConnection) : TLS K TLSConnection :=
  match ops with [] => mret s | op :: ops => s ← run_connection_op s op; run_connection ops s end.

Lemma fmap_appends {A B} (f : A → B) (m : TLS K A) Q : appends trace m (λ a, Q (f a)) → appends trace (f <$> m) Q.
Proof. intros Hm. eapply appends_bind; [exact Hm|]. intros a new Ha. apply appends_ret. by rewrite app_nil_r. Qed.

(** A call that is neither data, nor a handshake, nor a shutdown. *)
Lemma other_follows {A} (m : TLS K A) s :
  appends trace m (λ _ new, follows_state s s new) → appends trace (_ ← m; mret s) (λ s', follows_state s s').
Proof. intros Hm. eapply appends_bind; [exact Hm|]. intros a new Ha. apply appends_ret. by rewrite app_nil_r. Qed.

Lemma connection_op_follows s op : appends trace (run_connection_op s op) (λ s' new, follows_state s s' new).
Proof.
  destruct op; cbn [run_connection_op].
  - apply other_follows. unfold setFd. destruct (ssl_ s =? 0); [by apply appends_ret|].
    apply (fmap_appends _ _ (λ _, follows_state s s)). eapply appends_mono; [apply call_appends|]. by intros ? ? ->.
  - apply other_follows. unfold setSNIHostname. destruct (ssl_ s =? 0); [by apply appends_ret|].
    apply (fmap_appends _ _ (λ _, follows_state s s)). eapply appends_mono; [apply call_appends|]. by intros ? ? ->.
  - apply fmap_appends, handshake_follows. by left.
  - apply fmap_appends, handshake_follows. by right.
  - apply fmap_appends, read_follows.
  - apply fmap_appends, write_follows.
  - apply fmap_appends, shutdown_follows.
  - apply other_follows. unfold getVersion. destruct (ssl_ s =? 0); [by apply appends_ret|].
    apply (fmap_appends _ _ (λ _, follows_state s s)). eapply appends_mono; [apply call_appends|]. by intros ? ? ->.
  - apply other_follows. unfold getCipherName. destruct (ssl_ s =? 0); [by apply appends_ret|].
    apply (fmap_appends _ _ (λ _, follows_state s s)). eapply appends_mono; [apply ask_appends|]. by intros ? ? ->.
Qed.

Lemma connection_follows ops : ∀ s, appends trace (run_connection ops s) (λ s' new, follows_state s s' new).
Proof.
  induction ops as [|op ops IH]; intros s; [by apply appends_ret|]. cbn [run_connection].
  eapply appends_bind; [apply connection_op_follows|]. intros s1 new H1. eapply appends_mono; [apply IH|].
  intros s2 new' H2. by eapply follows_state_app.
Qed.

(** C33: Whatever is done with a new connection, data is read and written only when
    the last handshake, since the last shutdown, succeeded; and the state says
    whether that is so. *)
Theorem data_only_when_established t ops w :
  let '(s, w') := (new_tls_connection t ≫= run_connection ops) w in
  ∃ opening new, trace w' = trace w ++ opening :: new ∧ opening = (SSL_new (ctx_ t), ssl_ s) ∧
    established s = foldl (secured (ssl_ s)) false new ∧
    ∀ pre e post, new = pre ++ e :: post → is_data e.1 → foldl (secured (ssl_ s)) false pre = true.
Proof.
  assert (appends trace (new_tls_connection t ≫= run_connection ops) (λ s new, ∃ opening rest, new = opening :: rest ∧
    opening = (SSL_new (ctx_ t), ssl_ s) ∧ follows_state (mkConnection (ssl_ s) INITIAL no_info 0 false false) s rest)) as Ha.
  { eapply appends_bind.
    - apply (appends_bind _ _ _ _ (λ s new, ∃ p, s = mkConnection p INITIAL no_info 0 false false ∧ new = [(SSL_new (ctx_ t), p)])
        (call_appends (SSL_new (ctx_ t)))).
      intros p ? ->. apply appends_ret. by exists p.
    - intros s new (p & -> & ->). eapply appends_mono; [apply connection_follows|]. intros s' new Hs.
      eexists _, new. split; [done|]. destruct Hs as (Ep & ?). cbn in Ep. rewrite Ep. done. }
  destruct (Ha w) as (new & E & opening & rest & -> & Eo & _ & Eb & Hd).
  destruct ((new_tls_connection t ≫= run_connection ops) w) as [s w']. cbn [fst snd] in *.
  exists opening, rest. split_and!; [done..|]. intros pre e post ->. by apply (data_secured_inv _ _ _ post).
Qed.

(** ** A TLS connection as a list of arrivals *)

(** What reading up to [size] bytes finds when the arrivals are [inc], and what
    is left; after a failure [SSL_get_error] is asked. *)
Definition tls_finds (ssl : Z) (R : K → list arrival → Prop) (inc : list arrival) (size : nat) (k : K) : Prop :=
  let '(r, k1) := answer (SSL_read ssl size) k in
  match inc with
  | Data ((_ :: _) as d) :: rest =>
      result r = blen (take size d) ∧ output r = take size d ∧
      R k1 (if (length d <=? size)%nat then rest else Data (drop size d) :: rest)
  | _ => result r <= 0 ∧ R (answer (SSL_get_error ssl (result r)) k1).2 (tail inc)
  end.

Definition tls_view (ssl : Z) (R : K → list arrival → Prop) : Prop :=
  ∀ inc size k, (0 < size)%nat → R k inc → tls_finds ssl R inc size k.

(** A connection that can carry data. *)
Definition usable (ssl : Z) (s : TLSConnection) : Prop := ssl_ s = ssl ∧ ssl ≠ 0 ∧ state_ s = ESTABLISHED.

Lemma usable_guard ssl s : usable ssl s → ((ssl_ s =? 0) || bool_decide (state_ s ≠ ESTABLISHED)) = false.
Proof.
  intros (E & Hne & Hst). rewrite E, (proj2 (Z.eqb_neq _ _) Hne), bool_decide_eq_false_2; [done|]. intros Hx. by apply Hx.
Qed.

Lemma call_run c w :
  call c w = (let '(r, k) := answer c (library w) in
    (result r, w <| library := k |> <| errors := errors w ++ raised r |> <| trace := trace w ++ [(c, result r)] |>)).
Proof. unfold call. rewrite state_fmap_run. unfold ask. by destruct (answer c (library w)). Qed.

Lemma handle_error_run ret s w :
  let '(s', w') := handleSSLError ret s w in
  ssl_ s' = ssl_ s ∧ state_ s' = state_ s ∧ context w' = context w ∧
  library w' = (answer (SSL_get_error (ssl_ s) ret) (library w)).2.
Proof.
  unfold handleSSLError, mbind, state_bind. rewrite call_run. by destruct (answer (SSL_get_error _ _) (library w)) as [r k].
Qed.

(** One read, by what it finds. *)
Lemma tls_read_arrivals ssl R inc size s w : tls_view ssl R → usable ssl s → (0 < size)%nat → R (library w) inc →
  let '(rc, b, s', w') := read size s w in
  usable ssl s' ∧ context w' = context w ∧
  match inc with
  | Data ((_ :: _) as d) :: rest =>
      rc = blen (take size d) ∧ b = take size d ∧
      R (library w') (if (length d <=? size)%nat then rest else Data (drop size d) :: rest)
  | _ => rc <= 0 ∧ R (library w') (tail inc)
  end.
Proof.
  intros HR Hs Hsize Hw. pose proof (HR inc size (library w) Hsize Hw) as Hf. unfold tls_finds in Hf.
  unfold read. rewrite (usable_guard _ _ Hs). destruct Hs as (E & Hne & Hst). unfold mbind, state_bind, ask. change (ssl_ (no_wants s)) with (ssl_ s).
  rewrite E. destruct (answer (SSL_read ssl size) (library w)) as [r k].
  destruct (Z.leb_spec (result r) 0).
  - set (w1 := _ <| trace := _ |>). pose proof (handle_error_run (result r) (no_wants s) w1) as He.
    destruct (handleSSLError (result r) (no_wants s) w1) as [s' w']. destruct He as (Es & Est & Ec & Ek).
    cbn. split; [split_and!; [by rewrite Es|done|by rewrite Est]|]. split; [done|].
    assert ((if last_error_ s' =? SSL_ERROR_ZERO_RETURN then 0 else -1) <= 0) by (destruct (_ =? _); lia).
    destruct inc as [|[[|x d]|st msg] rest]; rewrite Ek; cbn; rewrite E; try (split; [done|apply Hf]).
    destruct Hf as [Hr _]. rewrite length_take in Hr. cbn in Hr. lia.
  - cbn. split; [by split_and!|]. split; [done|].
    destruct inc as [|[[|x d]|st msg] rest]; [lia..|exact Hf|lia].
Qed.

Lemma tls_read_exact_step fuel n s w : (0 < n)%nat →
  read_exact (Datatypes.S fuel) n s w =
    (let '(rc, b, s, w) := read n s w in
     if rc <=? 0 then (CONNECTION_FAILURE, [], s, w <| context := set_context (context w) CONNECTION_FAILURE "TLS read failed" |>)
     else let '(status, rest, s, w) := read_exact fuel (n - Z.to_nat rc) s w in (status, take (Z.to_nat rc) b ++ rest, s, w)).
Proof.
  intros Hn. destruct n as [|n]; [lia|]. cbn [read_exact]. unfold mbind, state_bind.
  destruct (read _ _ _) as [[[rc b] s1] w1]. destruct (rc <=? 0); [done|].
  by destruct (read_exact _ _ _ _) as [[[]] ?].
Qed.

Lemma tls_read_exact_arrivals ssl R : tls_view ssl R →
  ∀ fuel size inc s w, (size <= fuel)%nat → usable ssl s → R (library w) inc →
  let '(status, got, s', w') := read_exact fuel size s w in
  ∃ rest, read_arrivals true (Z.of_nat size) inc (context w) = (status, got, context w', rest) ∧
    R (library w') rest ∧ usable ssl s'.
Proof.
  intros HR. induction fuel as [|fuel IH]; intros size inc s w Hsize Hs Hw.
  { assert (size = O) as -> by lia. cbn. exists inc. split_and!; [by destruct inc|done..]. }
  destruct (decide (size = 0%nat)) as [->|Hn]; [cbn; exists inc; split_and!; [by destruct inc|done..]|].
  rewrite tls_read_exact_step by lia.
  pose proof (tls_read_arrivals ssl R inc size s w HR Hs ltac:(lia) Hw) as Hr.
  destruct (read size s w) as [[[rc b] s1] w1]. destruct Hr as (Hs1 & Ec & Hr).
  assert ((Z.of_nat size <=? 0) = false) as Hpos by lia.
  destruct inc as [|[[|x d]|st msg] rest].
  - destruct Hr as [Hrc ?]. rewrite (proj2 (Z.leb_le _ _) Hrc). cbn -[Z.of_nat]. rewrite Hpos, <-Ec. by exists [].
  - destruct Hr as [Hrc ?]. rewrite (proj2 (Z.leb_le _ _) Hrc). cbn -[Z.of_nat]. rewrite Hpos, <-Ec. by exists rest.
  - destruct Hr as (-> & -> & Hr). pose proof (length_take (x :: d) size) as Hl.
    assert (length (take size (x :: d)) ≠ 0%nat) as Hne by (rewrite Hl; cbn; lia).
    rewrite (proj2 (Z.leb_gt _ _)) by lia. rewrite Nat2Z.id, (take_ge (take size (x :: d))) by done.
    specialize (IH (size - length (take size (x :: d)))%nat _ s1 w1 ltac:(lia) Hs1 Hr).
    destruct (read_exact _ _ _ _) as [[[status got] s2] w2]. destruct IH as (rest' & E & ? & ?).
    cbn [read_arrivals]. rewrite Hpos, <-Ec. destruct (Nat.leb_spec (length (x :: d)) size).
    + exists rest'. rewrite (proj2 (Z.leb_le _ _)) by lia. rewrite take_ge in * by done.
      rewrite Nat2Z.inj_sub in E by done. by rewrite E.
    + rewrite (proj2 (Z.leb_gt _ _)) by lia. rewrite Nat2Z.id.
      replace (size - length (take size (x :: d)))%nat with 0%nat in E by lia. cbn [read_arrivals] in E.
      exists rest'. destruct (drop size (x :: d)); injection E as <- <- <- <-; by rewrite app_nil_r.
  - destruct Hr as [Hrc ?]. rewrite (proj2 (Z.leb_le _ _) Hrc). cbn -[Z.of_nat]. rewrite Hpos, <-Ec. by exists rest.
Qed.

(** What writing on [ssl] adds to the bytes on their way. *)
Definition tls_sends (ssl : Z) (out : K → bytes) : Prop := ∀ b k, b ≠ [] →
  let '(r, k1) := answer (SSL_write ssl b) k in
  if result r <=? 0 then out (answer (SSL_get_error ssl (result r)) k1).2 = out k
  else result r <= blen b ∧ out k1 = out k ++ take (Z.to_nat (result r)) b.

(** One write, by the part of the buffer it takes. *)
Lemma tls_write_takes ssl out b s w : tls_sends ssl out → usable ssl s → b ≠ [] →
  let '(rc, s', w') := write b s w in
  usable ssl s' ∧ rc <= blen b ∧ context w' = context w ∧ out (library w') = out (library w) ++ take (Z.to_nat rc) b.
Proof.
  intros Ho Hs Hb. pose proof (Ho b (library w) Hb) as Hf. unfold write. rewrite (usable_guard _ _ Hs).
  destruct Hs as (E & Hne & Hst). unfold mbind, state_bind. rewrite call_run. change (ssl_ (no_wants s)) with (ssl_ s).
  rewrite E. destruct (answer (SSL_write ssl b) (library w)) as [r k].
  destruct (Z.leb_spec (result r) 0).
  - set (w1 := _ <| trace := _ |>). pose proof (handle_error_run (result r) (no_wants s) w1) as He.
    destruct (handleSSLError (result r) (no_wants s) w1) as [s' w']. destruct He as (Es & Est & Ec & Ek).
    cbn. split; [split_and!; [by rewrite Es|done|by rewrite Est]|]. split; [lia|]. split; [done|].
    rewrite Ek. cbn. rewrite E, Hf. by rewrite app_nil_r.
  - destruct Hf as [Hle Hout]. by split_and!.
Qed.

Lemma tls_write_exact_takes ssl out : tls_sends ssl out →
  ∀ fuel b s w, (length b <= fuel)%nat → usable ssl s →
  let '(status, s', w') := write_exact fuel b s w in
  usable ssl s' ∧ ∃ n, out (library w') = out (library w) ++ take n b ∧
    if bool_decide (status = OK) then (length b <= n)%nat ∧ context w' = context w
    else status = CONNECTION_FAILURE ∧ context w' = set_context (context w) CONNECTION_FAILURE "TLS write failed".
Proof.
  intros Ho. induction fuel as [|fuel IH]; intros b s w Hb Hs.
  { assert (b = []) as -> by (apply nil_length_inv; lia). cbn. split; [done|]. exists 0%nat. by rewrite app_nil_r. }
  destruct b as [|x b]; [cbn; split; [done|]; exists 0%nat; by rewrite app_nil_r|].
  cbn [write_exact]. pose proof (tls_write_takes ssl out (x :: b) s w Ho Hs ltac:(done)) as Hw. unfold mbind, state_bind.
  destruct (write (x :: b) s w) as [[rc s1] w1]. destruct Hw as (Hs1 & Hrc & Hc & Hout).
  destruct (Z.leb_spec rc 0).
  - cbn. split; [done|]. exists (Z.to_nat rc). by rewrite Hc.
  - specialize (IH (drop (Z.to_nat rc) (x :: b)) s1 w1). rewrite length_drop in IH.
    specialize (IH ltac:(cbn in *; lia) Hs1). destruct (write_exact _ _ _ _) as [[status s2] w2].
    destruct IH as (Hs2 & n & Hout2 & Hst). split; [done|]. exists (Z.to_nat rc + n)%nat.
    rewrite Hout2, Hout, <-app_assoc, take_take_drop, <-Hc. split; [done|]. case_bool_decide; [|done].
    destruct Hst. split; [cbn in *; lia|done].
Qed.

(** C34: Over TLS too the exact read of the network client, and its write of a whole
    message, do what the abstract transport says: the same status, bytes and
    message with the same arrivals left; and all of the buffer, in order and
    once, or a part of it and an error. *)
Theorem tls_refines_transport ssl R out size buf inc s w :
  tls_view ssl R → tls_sends ssl out → usable ssl s → R (library w) inc →
  (let '(status, got, s', w') := readExactWithTimeout size s w in
   ∃ rest, Transport.readExactWithTimeout (Z.of_nat size) (context w) (mkTransport true inc [] []) =
       (status, got, context w', mkTransport true rest [] []) ∧
     R (library w') rest ∧ usable ssl s') ∧
  (let '(status, s', w') := write_buffer buf s w in
   usable ssl s' ∧ ∃ fault t,
     write_all buf (mkTransport true [] (out (library w)) [fault]) = (bool_decide (status = OK), t) ∧
     outgoing t = out (library w') ∧
     context w' = if bool_decide (status = OK) then context w
                  else (setError (context w) CONNECTION_FAILURE "TLS write failed").2).
Proof.
  intros HR Ho Hs Hw. split.
  - pose proof (tls_read_exact_arrivals ssl R HR size size inc s w ltac:(lia) Hs Hw) as Hr.
    unfold readExactWithTimeout. destruct (read_exact _ _ _ _) as [[[status got] s'] w']. destruct Hr as (rest & E & ? & ?).
    exists rest. unfold Transport.readExactWithTimeout. cbn [incoming tls_active]. by rewrite E.
  - pose proof (tls_write_exact_takes ssl out Ho (length buf) buf s w ltac:(lia) Hs) as Hr.
    unfold write_buffer. destruct (write_exact _ _ _ _) as [[status s'] w']. destruct Hr as (Hs' & n & Hout & Hst).
    split; [done|]. case_bool_decide.
    + destruct Hst as [Hn Hc]. exists None, (mkTransport true [] (out (library w) ++ buf) []).
      split_and!; [done| |done]. by rewrite Hout, take_ge.
    + destruct Hst as [_ Hc]. by exists (Some n), (mkTransport true [] (out (library w) ++ take n buf) []).
Qed.

(** ** What the configuration does not reach *)

(** The expected host name, stapling, SNI and time limits of a client
    configuration are not looked at. *)
Lemma client_ignores_hostname c h sni use stapling ct ht :
  createClient c = createClient (mkClientConfig (c_enabled c) (verify_server c) h (c_cert_file c) (c_key_file c)
    (c_key_password c) (c_ca_file c) (c_ca_path c) (use_system_ca c) (c_min_version c) (c_max_version c) (c_ciphers c)
    (c_ciphersuites c) use sni stapling ct ht).
Proof. done. Qed.

(** A server that configures the check of whole chains, or OCSP, gets neither. *)
Lemma server_ignores_ocsp c all mode url timeout :
  createServer c = createServer (mkServerConfig (enabled c) (cert_file c) (key_file c) (key_password c) (chain_file c)
    (ca_file c) (ca_path c) (min_version c) (max_version c) (ciphers c) (ciphersuites c) (prefer_server_ciphers c)
    (verify_mode c) (verify_depth c) (crl_file c) (crl_check c) all mode url timeout (session_tickets c)
    (session_timeout c) (session_cache_id c) (dh_params_file c) (ecdh_curve c) (compression c) (renegotiation c)).
Proof. done. Qed.

(** Naming the authorities does not exclude those of the system. *)
Lemma named_authorities_added p c : verify_server c = true → use_system_ca c = true → c_ca_file c ≠ [] →
  SSL_CTX_set_default_verify_paths p ∈ client_calls p c ∧
  SSL_CTX_load_verify_locations p (Some (c_ca_file c)) (some_text (c_ca_path c)) ∈ client_calls p c.
Proof.
  intros Hv Hs Hca. unfold client_calls, ca_calls, some_text, is_empty. rewrite Hv, Hs, (bool_decide_eq_false_2 (c_ca_file c = [])) by done.
  cbn [negb orb]. split; rewrite !elem_of_app; do 3 right; left; set_solver.
Qed.
End tls.

(** ** A small OpenSSL

    Pointers are counted up; connections take two bytes at a time and end when
    the queue of arrivals does. *)

Record small := mkSmall { queue : list arrival; gone_out : bytes; given : Z }.

#[local] Instance small_eta : Eta small := λ k, mkSmall (queue k) (gone_out k) (given k).

Definition small_answer (c : ssl_call) (k : small) : reply * small :=
  match c with
  | SSL_CTX_new _ | SSL_new _ => (mkReply (given k + 1) [] [], k <| given := given k + 1 |>)
  | SSL_CTX_use_certificate_file _ file => (mkReply (if bool_decide (file = "missing.pem") then 0 else 1) [] [33558530], k)
  | SSL_read _ size =>
      match queue k with
      | Data ((_ :: _) as d) :: rest =>
          (mkReply (blen (take size d)) (take size d) [],
           k <| queue := if (length d <=? size)%nat then rest else Data (drop size d) :: rest |>)
      | _ => (mkReply (-1) [] [], k <| queue := tail (queue k) |>)
      end
  | SSL_write _ b => (mkReply (Z.of_nat (2 `min` length b)) [] [], k <| gone_out := gone_out k ++ take 2 b |>)
  | SSL_get_error _ _ => (mkReply 1 [] [], k)
  | _ => (mkReply 1 [] [], k)
  end.

#[local] Instance small_openssl : OpenSSL small := {
  answer := small_answer;
  context_certificate _ _ := None;
  context_verify_mode _ _ := [SSL_VERIFY_PEER];
  peer_certificate _ _ := None;
  ERR_error_string _ := "error:02001002:system library:fopen:No such file or directory";
  OBJ_sn2nid _ := 415;
  X509_NAME_print _ := [];
  inet_ntop6 _ := "::1";
  system_clock _ := 0
}.

Definition small_view (k : small) (inc : list arrival) : Prop := queue k = inc.

Lemma small_tls_view ssl : tls_view ssl small_view.
Proof.
  intros inc size k Hsize <-. unfold tls_finds. cbn. destruct (queue k) as [|[[|x d]|st msg] rest] eqn:E; cbn; done.
Qed.

Lemma small_tls_sends ssl : tls_sends ssl gone_out.
Proof.
  intros b k Hb. unfold tls_sends. cbn [answer small_openssl small_answer]. destruct b as [|x [|y b]]; [done|..]; cbn; unfold small_view; cbn; rewrite ?E; by try (split; [lia|]).
Qed.

Definition start : tls_world small := mkWorld (Some fresh_context) (mkSmall [] [] 0) [] [].

(** A client with its own authorities: nine calls, none of them for the host name. *)
Example client_trace :
  let c := mkClientConfig true true "db.example.com" [] [] [] "ca.pem" [] true TLS_1_2 TLS_1_3 [] [] true "db.example.com" false 0 0 in
  let '(r, w) := createClient c start in
  ctx_ <$> r = Some 1 ∧ (trace w).*1 = SSL_CTX_new false :: client_calls 1 c ∧ length (trace w) = 9%nat.
Proof. vm_compute. done. Qed.

(** A certificate that cannot be read: the context is freed and the reason told. *)
Example client_failure :
  let c := mkClientConfig true true [] "missing.pem" "key.pem" [] [] [] true TLS_1_2 TLS_1_3 [] [] true [] false 0 0 in
  let '(r, w) := createClient c start in
  r = None ∧ last (trace w) = Some (SSL_CTX_free 1, 1) ∧
  c_message <$> context w =
    Some ("Failed to load certificate: error:02001002:system library:fopen:No such file or directory" : bytes).
Proof. vm_compute. done. Qed.

Definition a_connection : TLSConnection := mkConnection 7 ESTABLISHED no_info 0 false false.

Lemma tls_refines_transport_witness :
  let w := mkWorld None (mkSmall [Data "abc"; Data "defg"] "x" 0) [] [] in
  ∃ s' w' s2 w2 rest, readExactWithTimeout 4 a_connection w = (OK, ("abcd" : bytes), s', w') ∧
    Transport.readExactWithTimeout 4 None (mkTransport true [Data "abc"; Data "defg"] [] []) =
      (OK, ("abcd" : bytes), None, mkTransport true rest [] []) ∧ queue (library w') = rest ∧
    write_buffer "hello" a_connection w = (OK, s2, w2) ∧ gone_out (library w2) = "xhello".
Proof.
  intros w. assert (usable 7 a_connection) as Hu by done.
  destruct (tls_refines_transport 7 small_view gone_out 4 "hello" _ a_connection w (small_tls_view 7) (small_tls_sends 7) Hu eq_refl)
    as [Hr Hwr].
  destruct (readExactWithTimeout 4 a_connection w) as [[[status got] s'] w'] eqn:E.
  destruct (write_buffer "hello" a_connection w) as [[st2 s2] w2] eqn:E2.
  vm_compute in E. injection E as <- <- <- <-. vm_compute in E2. injection E2 as <- <- <-.
  destruct Hr as (rest & Er & Eq & _). eexists _, _, _, _, rest. split; [reflexivity|]. split; [exact Er|].
  split; [exact Eq|]. split; reflexivity.
Defined.

(** Three contexts: one moved, one replaced by assignment, one that fails. *)
Lemma contexts_freed_once_witness :
  let ok := default_client_config in
  let bad := mkClientConfig true true [] "missing.pem" "key.pem" [] [] [] true TLS_1_2 TLS_1_3 [] [] true [] false 0 0 in
  let ops := [OpCreateClient 0 ok; OpMoveContext 1 0; OpCreateClient 2 bad; OpCreateClient 3 ok; OpAssignContext 3 1;
              OpDestroyContext 0; OpDestroyContext 1; OpIsCipherSupported "AES128-SHA"; OpDestroyContext 3] in
  let n := foldl run_tls_op (no_objects None (mkSmall [] [] 0)) ops in
  omap allocated (trace (process n)) ≡ₚ omap deallocated (trace (process n)) ∧
  omap allocated (trace (process n)) = [1; 2; 3; 4] ∧ omap deallocated (trace (process n)) = [2; 3; 4; 1].
Proof.
  intros ok bad ops n. split; [|vm_compute; done].
  apply (contexts_freed_once ops None (mkSmall [] [] 0)). vm_compute. done.
Defined.

(** Reads before the handshake and after the shutdown reach nothing. *)
Lemma data_only_when_established_witness :
  let k := mkSmall [Data "abc"; Data "def"] [] 0 in
  let ops := [OpRead 3; OpConnect; OpRead 3; OpShutdown; OpRead 3; OpWrite "x"] in
  let '(s, w) := (new_tls_connection (mkTlsContext 9 false None no_info [] [] []) ≫= run_connection ops) (mkWorld None k [] []) in
  established s = false ∧
  trace w = [(SSL_new 9, 1); (SSL_connect 1, 1); (SSL_read 1 3, 3); (SSL_shutdown 1, 1)] ∧
  foldl (secured 1) false [(SSL_connect 1, 1)] = true.
Proof.
  intros k ops.
  pose proof (data_only_when_established (mkTlsContext 9 false None no_info [] [] []) ops (mkWorld None k [] [])) as Hd.
  destruct ((new_tls_connection (mkTlsContext 9 false None no_info [] [] []) ≫= run_connection ops) (mkWorld None k [] [])) as [s w] eqn:E.
  vm_compute in E. injection E as <- <-. destruct Hd as (opening & new & Et & Eo & _ & Hdata).
  split; [reflexivity|]. split; [reflexivity|]. cbn in Et. injection Et as <- <-.
  apply (Hdata [(SSL_connect 1, 1)] (SSL_read 1 3, 3) [(SSL_shutdown 1, 1)] eq_refl). reflexivity.
Defined.
