(* ===== verification/Retry.v ===== *)
(** * Retry with exponential backoff

    Models [should_retry], [retry_delay_ms], [sb_with_retry],
    [sb_query_with_retry] and [sb_execute_with_retry] of [src/pool.cpp]. The
    retried call is a function on an arbitrary state; the delays slept are
    recorded. [attempt] is a [uint32_t]. *)

From S2P Require Import Prelude.
From S2P Require Import Client.
From S2P Require Import Pool.

Record sb_retry_config := mkRetry {
  max_retries : Z;
  base_delay_ms : Z;
  max_delay_ms : Z;
  retry_connection_errors : bool;
  retry_transaction_errors : bool
}.

Definition sb_retry_config_default : sb_retry_config := mkRetry 3 100 5000 true true.

Definition should_retry (c : sb_error_code) (cfg : sb_retry_config) : bool :=
  let is_connection_error :=
    bool_decide (c = SB_ERR_CONNECTION_FAILED) || bool_decide (c = SB_ERR_DISCONNECTED) ||
    bool_decide (c = SB_ERR_TIMEOUT) || bool_decide (c = SB_ERR_PROTOCOL) in
  let is_txn_error :=
    bool_decide (c = SB_ERR_TXN_CONFLICT) || bool_decide (c = SB_ERR_DEADLOCK) ||
    bool_decide (c = SB_ERR_SERIALIZATION) || bool_decide (c = SB_ERR_TXN_ABORTED) in
  if is_connection_error && retry_connection_errors cfg then true
  else if is_txn_error && retry_transaction_errors cfg then true
  else false.

(** The shift is done in 64 bits. *)
Definition retry_delay_ms (cfg : sb_retry_config) (attempt : Z) : Z :=
  let base := if base_delay_ms cfg =? 0 then 1 else base_delay_ms cfg in
  let max_delay := if max_delay_ms cfg =? 0 then base else max_delay_ms cfg in
  let delay := u64 (Z.shiftl base (Z.min attempt 16)) in
  let delay := if max_delay <? delay then max_delay else delay in
  u32 delay.

Section retry.
Context {S : Type}.

(** [for (attempt = 0;; ++attempt)], [fuel] iterations at most. The result
    comes with the delays slept. *)
Fixpoint with_retry_loop (fuel : nat) (cfg : sb_retry_config) (func : S → sb_error * S)
    (attempt : Z) (s : S) : option (sb_error * list Z * S) :=
  match fuel with
  | O => None
  | Datatypes.S fuel =>
      let '(current, s) := func s in
      if bool_decide (code current = SB_OK) then Some (current, [], s)
      else if (max_retries cfg <=? attempt) || negb (should_retry (code current) cfg)
      then Some (current, [], s)
      else
        '(e, ds, s) ← with_retry_loop fuel cfg func (u32 (attempt + 1)) s;
        Some (e, retry_delay_ms cfg attempt :: ds, s)
  end.

(** A null [config] is the default, a null [func] an error. *)
Definition sb_with_retry (fuel : nat) (config : option sb_retry_config)
    (func : option (S → sb_error * S)) (s : S) : option (sb_error * list Z * S) :=
  let cfg := default sb_retry_config_default config in
  match func with
  | None => Some (mkError SB_ERR_NULL_POINTER (take 255 ("Retry callback is required" : bytes)), [], s)
  | Some f => with_retry_loop fuel cfg f 0 s
  end.

(** The loop shared by the query and the execute variant; [call] is
    [sb_query], respectively [sb_execute]. Success refreshes the tracking of
    the connection. *)
Fixpoint result_retry_loop {R} (fuel : nat) (cfg : sb_retry_config) (conn : handle) (now : Z)
    (call : S → option R * sb_error * S) (err : option sb_error) (attempt : Z)
    (g : tracking) (s : S) : option (option R * option sb_error * tracking * list Z * S) :=
  match fuel with
  | O => None
  | Datatypes.S fuel =>
      let '(result, local_err, s) := call s in
      match result with
      | Some r =>
          Some (Some r, copy_error err local_err, ensure_tracking (Some conn) now g, [], s)
      | None =>
          if (max_retries cfg <=? attempt) || negb (should_retry (code local_err) cfg)
          then Some (None, copy_error err local_err, g, [], s)
          else
            '(r, e, g, ds, s) ← result_retry_loop fuel cfg conn now call err (u32 (attempt + 1)) g s;
            Some (r, e, g, retry_delay_ms cfg attempt :: ds, s)
      end
  end.

Definition sb_query_with_retry {R} (fuel : nat) (sb_query : handle → bytes → S → option R * sb_error * S)
    (conn : option handle) (sql : option bytes) (config : option sb_retry_config)
    (now : Z) (err : option sb_error) (g : tracking) (s : S)
    : option (option R * option sb_error * tracking * list Z * S) :=
  match conn, sql with
  | Some c, Some q =>
      result_retry_loop fuel (default sb_retry_config_default config) c now (sb_query c q) err 0 g s
  | _, _ =>
      Some (None, set_error err SB_ERR_NULL_POINTER "Connection and SQL required", g, [], s)
  end.

Definition sb_execute_with_retry {R} (fuel : nat)
    (sb_execute : handle → bytes → S → option R * sb_error * S)
    (conn : option handle) (sql : option bytes) (config : option sb_retry_config)
    (now : Z) (err : option sb_error) (g : tracking) (s : S)
    : option (option R * option sb_error * tracking * list Z * S) :=
  match conn, sql with
  | Some c, Some q =>
      result_retry_loop fuel (default sb_retry_config_default config) c now (sb_execute c q) err 0 g s
  | _, _ =>
      Some (None, set_error err SB_ERR_NULL_POINTER "Connection and SQL required", g, [], s)
  end.
End retry.

(** ** Delays *)

Definition wf_retry (cfg : sb_retry_config) : Prop :=
  in_u32 (max_retries cfg) ∧ in_u32 (base_delay_ms cfg) ∧ in_u32 (max_delay_ms cfg).

#[local] Instance wf_retry_dec cfg : Decision (wf_retry cfg).
Proof. unfold wf_retry. apply _. Defined.

(** The first delay and the cap. *)
Definition first_delay (cfg : sb_retry_config) : Z := Z.max 1 (base_delay_ms cfg).
Definition delay_cap (cfg : sb_retry_config) : Z :=
  if max_delay_ms cfg =? 0 then first_delay cfg else max_delay_ms cfg.

Lemma retry_delay_closed cfg attempt :
  wf_retry cfg → 0 <= attempt →
  retry_delay_ms cfg attempt = Z.min (delay_cap cfg) (first_delay cfg * 2 ^ Z.min attempt 16).
Proof.
  intros (_ & Hb & Hm) Ha. unfold retry_delay_ms, delay_cap, first_delay, in_u32 in *.
  replace (if base_delay_ms cfg =? 0 then 1 else base_delay_ms cfg) with (Z.max 1 (base_delay_ms cfg))
    by (destruct (Z.eqb_spec (base_delay_ms cfg) 0); lia).
  set (b := Z.max 1 (base_delay_ms cfg)). set (k := Z.min attempt 16).
  rewrite Z.shiftl_mul_pow2 by lia. unfold u64, u32.
  assert (1 <= 2 ^ k <= 2 ^ 16).
  { split; [pose proof (Z.pow_pos_nonneg 2 k); lia|apply Z.pow_le_mono_r; lia]. }
  assert (1 <= b < 2 ^ 32) by lia.
  assert (1 <= b * 2 ^ k < 2 ^ 64) by nia.
  rewrite (Z.mod_small (b * 2 ^ k)) by lia.
  rewrite Z.mod_small; [|destruct (Z.eqb_spec (max_delay_ms cfg) 0), (Z.ltb_spec b (b * 2 ^ k)),
    (Z.ltb_spec (max_delay_ms cfg) (b * 2 ^ k)); lia].
  destruct (Z.eqb_spec (max_delay_ms cfg) 0), (Z.ltb_spec b (b * 2 ^ k)),
    (Z.ltb_spec (max_delay_ms cfg) (b * 2 ^ k)); lia.
Qed.

(** The delays double from the base, never decrease, and stay between one
    millisecond and the cap, whatever the attempt number. *)
Theorem retry_delay_backoff cfg a b :
  wf_retry cfg → 0 <= a <= b →
  retry_delay_ms cfg a = Z.min (delay_cap cfg) (first_delay cfg * 2 ^ Z.min a 16) ∧
  1 <= retry_delay_ms cfg a <= delay_cap cfg ∧
  retry_delay_ms cfg a <= retry_delay_ms cfg b.
Proof.
  intros Hw Hab. rewrite !retry_delay_closed by (done || lia).
  assert (1 <= first_delay cfg) by (unfold first_delay; lia).
  assert (1 <= delay_cap cfg).
  { destruct Hw as (_ & _ & Hm). unfold delay_cap, in_u32 in *.
    destruct (Z.eqb_spec (max_delay_ms cfg) 0); lia. }
  assert (1 <= 2 ^ Z.min a 16 <= 2 ^ Z.min b 16).
  { split; [pose proof (Z.pow_pos_nonneg 2 (Z.min a 16)); lia|apply Z.pow_le_mono_r; lia]. }
  split; [done|]. nia.
Qed.

Lemma retry_delay_backoff_witness :
  wf_retry sb_retry_config_default ∧
  1 <= retry_delay_ms sb_retry_config_default 3 <= delay_cap sb_retry_config_default.
Proof.
  assert (H : wf_retry sb_retry_config_default) by (apply (bool_decide_unpack _); exact I).
  split; [exact H|].
  exact (proj1 (proj2 (retry_delay_backoff sb_retry_config_default 3 4 H ltac:(lia)))).
Defined.

(** ** The sequence of calls *)

Section calls.
Context {S : Type} (func : S → sb_error * S).

(** The state before call [n], and its error. *)
Definition state_at (n : nat) (s : S) : S := Nat.iter n (λ s, (func s).2) s.
Definition error_at (n : nat) (s : S) : sb_error := (func (state_at n s)).1.

(** Call [n] fails in a way that is retried. *)
Definition retried (cfg : sb_retry_config) (n : nat) (s : S) : Prop :=
  code (error_at n s) ≠ SB_OK ∧ should_retry (code (error_at n s)) cfg = true.

(** What a retry loop entered at [attempt] does: [n] delays, [n + 1] calls. *)
Definition retry_run (cfg : sb_retry_config) (attempt : Z) (s : S) (e : sb_error) (ds : list Z)
    (s' : S) : Prop :=
  s' = state_at (Datatypes.S (length ds)) s ∧
  e = error_at (length ds) s ∧
  (∀ k, (k < length ds)%nat →
     retried cfg k s ∧ ds !! k = Some (retry_delay_ms cfg (attempt + Z.of_nat k))) ∧
  (code e = SB_OK ∨ should_retry (code e) cfg = false ∨ max_retries cfg <= attempt + blen ds) ∧
  blen ds <= Z.max 0 (max_retries cfg - attempt).

Lemma state_at_S n s : state_at (Datatypes.S n) s = state_at n (func s).2.
Proof. unfold state_at. by rewrite Nat.iter_succ_r. Qed.

Lemma error_at_S n s : error_at (Datatypes.S n) s = error_at n (func s).2.
Proof. unfold error_at. by rewrite state_at_S. Qed.

Lemma with_retry_loop_run cfg fuel : ∀ attempt s,
  in_u32 (max_retries cfg) → 0 <= attempt →
  max_retries cfg - attempt < Z.of_nat fuel → (0 < fuel)%nat →
  ∃ e ds s', with_retry_loop fuel cfg func attempt s = Some (e, ds, s') ∧
    retry_run cfg attempt s e ds s'.
Proof.
  induction fuel as [|fuel IH]; intros attempt s Hm Ha Hf Hp; [lia|]. cbn [with_retry_loop].
  destruct (func s) as [cur s1] eqn:E.
  assert (He : error_at 0 s = cur) by (unfold error_at; cbn; by rewrite E).
  assert (Hs : state_at 1 s = s1) by (cbn; by rewrite E).
  assert (Hstop : code cur = SB_OK ∨ should_retry (code cur) cfg = false ∨
    max_retries cfg <= attempt + 0 → retry_run cfg attempt s cur [] s1).
  { intros H. split_and!; try done; cbn in *; [lia|lia]. }
  case_bool_decide as Hok; [eexists _, _, _; split; [done|]; apply Hstop; auto|].
  destruct (Z.leb_spec (max_retries cfg) attempt); cbn [orb].
  { eexists _, _, _. split; [done|]. apply Hstop. right; right. lia. }
  destruct (should_retry (code cur) cfg) eqn:Hr; cbn [negb]; cycle 1.
  { eexists _, _, _. split; [done|]. apply Hstop. auto. }
  unfold in_u32 in Hm. replace (u32 (attempt + 1)) with (attempt + 1)
    by (unfold u32; rewrite Z.mod_small; lia).
  destruct (IH (attempt + 1) s1) as (e & ds & s' & -> & Hs' & He' & Hk & Hend & Hlen);
    [done|lia..|].
  eexists _, _, _. split; [done|]. assert (Hfs : (func s).2 = s1) by by rewrite E.
  split_and!; cbn [length].
  - by rewrite state_at_S, Hfs.
  - by rewrite error_at_S, Hfs.
  - intros [|k] Hkl.
    + unfold retried. rewrite He. split; [done|]. cbn. do 2 f_equal. lia.
    + unfold retried. rewrite error_at_S, Hfs.
      match goal with |- context [(?d :: ds) !! _] => change ((d :: ds) !! Datatypes.S k) with (ds !! k) end.
      cbn in Hkl. destruct (Hk k) as [Hrk ->]; [lia|].
      split; [exact Hrk|]. do 2 f_equal. lia.
  - destruct Hend as [?|[?|?]]; [by left|right; by left|right; right; lia].
  - lia.
Qed.
End calls.

(** A retried call terminates within [max_retries + 1] calls and reports
    the last one; every earlier call failed with a retryable error and was
    followed by its backoff delay; it stops early only on success or on an
    error that is not retried. *)
Theorem with_retry_spec {S} (func : S → sb_error * S) cfg s :
  in_u32 (max_retries cfg) →
  ∃ e ds s', sb_with_retry (Datatypes.S (Z.to_nat (max_retries cfg))) (Some cfg) (Some func) s
               = Some (e, ds, s') ∧ retry_run func cfg 0 s e ds s'.
Proof.
  intros Hm. unfold sb_with_retry. cbn [default]. unfold in_u32 in Hm.
  apply with_retry_loop_run; [done|lia..].
Qed.

Lemma with_retry_spec_witness :
  let func := λ n : Z, (mkError (if n =? 2 then SB_OK else SB_ERR_DEADLOCK) [], n + 1) in
  in_u32 (max_retries sb_retry_config_default) ∧
  ∃ e ds s', sb_with_retry 4 (Some sb_retry_config_default) (Some func) 0 = Some (e, ds, s') ∧
    retry_run func sb_retry_config_default 0 0 e ds s'.
Proof.
  intros func. assert (H : in_u32 (max_retries sb_retry_config_default)) by (unfold in_u32; cbn; lia).
  split; [exact H|]. exact (with_retry_spec func sb_retry_config_default 0 H).
Defined.

Example with_retry_run :
  sb_with_retry 4 None (Some (λ n : Z, (mkError (if n =? 2 then SB_OK else SB_ERR_DEADLOCK) [], n + 1))) 0
    = Some (mkError SB_OK [], [100; 200], 3).
Proof. vm_compute. reflexivity. Qed.
