(* ===== verification/Batch.v ===== *)
(** * Batch execution and bulk insertion

    Models [count_rows], [sb_batch_execute] and [sb_bulk_insert] of
    [src/pool.cpp]. The statements of the C API they call are arguments: each
    answers from the calls made so far, which are recorded in a trace. A result
    is a handle with its affected-row count and the rows [sb_fetch] can still
    deliver. The row counters are [int64_t]. *)

From S2P Require Import Prelude.
From S2P Require Import Client.
From S2P Require Import Pool.
From S2P Require Import Identifiers.

Record sb_result := mkResult { r_handle : handle; r_affected : Z; r_rows : nat }.

Section api.
(** [sb_value] *)
Context {V : Type}.

Inductive event :=
  | EvExecute (sql : bytes) (r : option sb_result)
  | EvPrepare (sql : bytes) (h : option handle)
  | EvBind (stmt : handle) (index : nat) (v : V) (rc : sb_error_code)
  | EvExecutePrepared (stmt : handle) (r : option sb_result)
  | EvFreeStmt (h : handle)
  | EvFreeResult (h : handle).

Abbreviation trace := (list event).

Record api := mkApi {
  a_execute : trace → bytes → sb_error → option sb_result * sb_error;
  a_prepare : trace → bytes → sb_error → option handle * sb_error;
  a_bind : trace → handle → nat → V → sb_error → sb_error_code * sb_error;
  a_execute_prepared : trace → handle → sb_error → option sb_result * sb_error
}.
Context (env : api).

Definition sb_execute (sql : bytes) (e : sb_error) (tr : trace)
    : option sb_result * sb_error * trace :=
  let '(r, e) := a_execute env tr sql e in (r, e, tr ++ [EvExecute sql r]).
Definition sb_prepare (sql : bytes) (e : sb_error) (tr : trace)
    : option handle * sb_error * trace :=
  let '(h, e) := a_prepare env tr sql e in (h, e, tr ++ [EvPrepare sql h]).
Definition sb_bind_index (stmt : handle) (i : nat) (v : V) (e : sb_error) (tr : trace)
    : sb_error_code * sb_error * trace :=
  let '(rc, e) := a_bind env tr stmt i v e in (rc, e, tr ++ [EvBind stmt i v rc]).
Definition sb_execute_prepared (stmt : handle) (e : sb_error) (tr : trace)
    : option sb_result * sb_error * trace :=
  let '(r, e) := a_execute_prepared env tr stmt e in (r, e, tr ++ [EvExecutePrepared stmt r]).

(** [while (sb_fetch(...) == SB_OK) ++rows;], [n] rows left. *)
Fixpoint fetch_loop (n : nat) (rows : Z) : Z :=
  match n with O => rows | S n => fetch_loop n (i64 (rows + 1)) end.

Definition count_rows (r : option sb_result) : Z :=
  match r with None => 0 | Some r => fetch_loop (r_rows r) 0 end.

(** ** Batch *)

(** [params] is an array of [param_count] pointers. *)
Record sb_batch_operation := mkOperation {
  op_sql : option bytes;
  op_params : option (nat → option V);
  op_param_count : nat
}.

(** [for (p = 0; p < param_count; ++p)], [n] parameters left. *)
Fixpoint bind_loop (n p : nat) (params : nat → option V) (stmt : handle) (e : sb_error)
    (tr : trace) : bool * sb_error * trace :=
  match n with
  | O => (true, e, tr)
  | S n =>
      match params p with
      | None =>
          (false, mkError SB_ERR_INVALID_PARAM (take 255 ("Batch parameter value is null" : bytes)), tr)
      | Some v =>
          let '(rc, e, tr) := sb_bind_index stmt (p + 1) v e tr in
          if bool_decide (rc = SB_OK) then bind_loop n (p + 1) params stmt e tr
          else (false, e, tr)
      end
  end.

(** One operation up to its result: the result, or the error reported. *)
Definition run_operation (op : sb_batch_operation) (sql : bytes) (tr : trace)
    : (option sb_result * sb_error) * trace :=
  if (op_param_count op =? 0)%nat then
    let '(r, e, tr) := sb_execute sql no_error tr in ((r, e), tr)
  else
    match op_params op with
    | None =>
        ((None, mkError SB_ERR_INVALID_PARAM
            (take 255 ("Batch parameters are required when param_count > 0" : bytes))), tr)
    | Some params =>
        match sb_prepare sql no_error tr with
        | (None, e, tr) => ((None, e), tr)
        | (Some stmt, e, tr) =>
            match bind_loop (op_param_count op) 0 params stmt e tr with
            | (false, e, tr) => ((None, e), tr ++ [EvFreeStmt stmt])
            | (true, e, tr) =>
                let '(r, e, tr) := sb_execute_prepared stmt e tr in
                ((r, e), tr ++ [EvFreeStmt stmt])
            end
        end
    end.

Definition affected_of (r : sb_result) : Z :=
  if r_affected r <=? 0 then count_rows (Some r) else r_affected r.

(** The rows array, [*rows_affected_out], [*err], the trace and the tracking. *)
Record batch_out := mkBatchOut {
  b_rows : option (list Z);
  b_total : option Z;
  b_err : option sb_error;
  b_trace : trace;
  b_tracking : tracking
}.

Fixpoint batch_loop (conn : handle) (now : Z) (ops : list sb_batch_operation) (rows : list Z)
    (total : Z) (out : option Z) (err : option sb_error) (tr : trace) (g : tracking) : batch_out :=
  match ops with
  | [] => mkBatchOut (Some rows) ((λ _, total) <$> out) (set_error err SB_OK []) tr g
  | op :: ops =>
      match op_sql op with
      | None => mkBatchOut None out (set_error err SB_ERR_INVALID_PARAM "Batch SQL is required") tr g
      | Some sql =>
          if bool_decide (trim_ascii sql = [])
          then mkBatchOut None out (set_error err SB_ERR_INVALID_PARAM "Batch SQL is required") tr g
          else
            match run_operation op sql tr with
            | ((None, e), tr) => mkBatchOut None out (copy_error err e) tr g
            | ((Some r, _), tr) =>
                let affected := affected_of r in
                batch_loop conn now ops (rows ++ [affected]) (i64 (total + affected)) out err
                  (tr ++ [EvFreeResult (r_handle r)]) (ensure_tracking (Some conn) now g)
            end
      end
  end.

(** [alloc] tells whether [calloc] succeeds; [out] is [rows_affected_out],
    with its contents. *)
Definition sb_batch_execute (alloc : bool) (conn : option handle) (now : Z)
    (operations : option (list sb_batch_operation)) (out : option Z) (err : option sb_error)
    (tr : trace) (g : tracking) : batch_out :=
  match conn, operations with
  | Some c, Some [] => mkBatchOut None ((λ _, 0) <$> out) (set_error err SB_OK []) tr g
  | Some c, Some ops =>
      if alloc then batch_loop c now ops [] 0 out err tr g
      else mkBatchOut None out
             (set_error err SB_ERR_OUT_OF_MEMORY "Out of memory allocating batch result") tr g
  | _, _ =>
      mkBatchOut None out
        (set_error err SB_ERR_NULL_POINTER "Connection and operations are required") tr g
  end.

(** ** Bulk insertion *)

(** [for (c = 0; c < column_count; ++c)], [n] columns left. *)
Fixpoint bind_row (n c : nat) (row : nat → V) (stmt : handle) (e : sb_error) (tr : trace)
    : sb_error_code * sb_error * trace :=
  match n with
  | O => (SB_OK, e, tr)
  | S n =>
      let '(rc, e, tr) := sb_bind_index stmt (c + 1) (row c) e tr in
      if bool_decide (rc = SB_OK) then bind_row n (c + 1) row stmt e tr else (rc, e, tr)
  end.

Record bulk_out := mkBulkOut {
  k_code : sb_error_code;
  k_inserted : option Z;
  k_err : option sb_error;
  k_trace : trace;
  k_tracking : tracking
}.

(** The loop over the rows; a row is a pointer to [column_count] values. *)
Fixpoint bulk_loop (conn : handle) (now : Z) (column_count : nat) (rows : list (option (nat → V)))
    (stmt : handle) (inserted : Z) (out : option Z) (e : sb_error) (err : option sb_error)
    (tr : trace) (g : tracking) : bulk_out :=
  match rows with
  | [] =>
      mkBulkOut SB_OK ((λ _, inserted) <$> out) (set_error err SB_OK []) (tr ++ [EvFreeStmt stmt]) g
  | None :: _ =>
      mkBulkOut SB_ERR_INVALID_PARAM out
        (set_error err SB_ERR_INVALID_PARAM "Bulk insert row values cannot be null")
        (tr ++ [EvFreeStmt stmt]) g
  | Some row :: rows =>
      let '(rc, e, tr) := bind_row column_count 0 row stmt e tr in
      if negb (bool_decide (rc = SB_OK))
      then mkBulkOut rc out (copy_error err e) (tr ++ [EvFreeStmt stmt]) g
      else
        match sb_execute_prepared stmt e tr with
        | (None, e, tr) => mkBulkOut (code e) out (copy_error err e) (tr ++ [EvFreeStmt stmt]) g
        | (Some r, e, tr) =>
            let affected := affected_of r in
            let affected := if affected <=? 0 then 1 else affected in
            bulk_loop conn now column_count rows stmt (i64 (inserted + affected)) out e err
              (tr ++ [EvFreeResult (r_handle r)]) (ensure_tracking (Some conn) now g)
        end
  end.

Definition sb_bulk_insert (conn : option handle) (now : Z) (table_name : option bytes)
    (columns : option (list (option bytes))) (rows : option (list (option (nat → V))))
    (out : option Z) (err : option sb_error) (tr : trace) (g : tracking) : bulk_out :=
  match conn with
  | None =>
      mkBulkOut SB_ERR_NULL_POINTER out (set_error err SB_ERR_NULL_POINTER "Connection is required") tr g
  | Some c =>
      match rows, table_name, columns with
      | Some rows, Some t, Some (c0 :: cs) =>
          let out := (λ _, 0) <$> out in
          match rows with
          | [] => mkBulkOut SB_OK out (set_error err SB_OK []) tr g
          | _ =>
              match build_bulk_insert_sql (Some t) (Some (c0 :: cs)) with
              | inr e => mkBulkOut SB_ERR_INVALID_PARAM out (set_error err SB_ERR_INVALID_PARAM e) tr g
              | inl sql =>
                  match sb_prepare sql no_error tr with
                  | (None, e, tr) => mkBulkOut (code e) out (copy_error err e) tr g
                  | (Some stmt, e, tr) =>
                      bulk_loop c now (length (c0 :: cs)) rows stmt 0 out e err tr g
                  end
              end
          end
      | _, _, _ =>
          mkBulkOut SB_ERR_INVALID_PARAM out
            (set_error err SB_ERR_INVALID_PARAM "Bulk insert requires table, columns, and rows") tr g
      end
  end.
End api.
Arguments event V : clear implicits.
Arguments api V : clear implicits.
Arguments batch_out V : clear implicits.
Arguments bulk_out V : clear implicits.
Arguments sb_batch_operation V : clear implicits.

(** ** Statements and results are freed *)

Section safety.
Context {V : Type} (env : api V).

Definition stmts_opened (tr : list (event V)) : list handle :=
  omap (λ e, match e with EvPrepare _ h => h | _ => None end) tr.
Definition stmts_freed (tr : list (event V)) : list handle :=
  omap (λ e, match e with EvFreeStmt h => Some h | _ => None end) tr.
Definition results_opened (tr : list (event V)) : list handle :=
  omap (λ e, match e with
             | EvExecute _ r | EvExecutePrepared _ r => r_handle <$> r
             | _ => None
             end) tr.
Definition results_freed (tr : list (event V)) : list handle :=
  omap (λ e, match e with EvFreeResult h => Some h | _ => None end) tr.

(** Every statement prepared and every result returned is freed once. *)
Definition all_freed (tr : list (event V)) : Prop :=
  stmts_opened tr ≡ₚ stmts_freed tr ∧ results_opened tr ≡ₚ results_freed tr.

Lemma all_freed_app a b : all_freed a → all_freed b → all_freed (a ++ b).
Proof.
  unfold all_freed, stmts_opened, stmts_freed, results_opened, results_freed.
  intros [Ha1 Ha2] [Hb1 Hb2]. rewrite !omap_app. by rewrite Ha1, Ha2, Hb1, Hb2.
Qed.

(** Steps that neither open nor free. *)
Definition quiet (d : list (event V)) : Prop :=
  stmts_opened d = [] ∧ stmts_freed d = [] ∧ results_opened d = [] ∧ results_freed d = [].

Lemma quiet_nil : quiet [].
Proof. done. Qed.
Lemma quiet_bind s i v rc d : quiet d → quiet (EvBind s i v rc :: d).
Proof. done. Qed.

Lemma bind_loop_trace n : ∀ p params stmt e tr,
  ∃ d, (bind_loop env n p params stmt e tr).2 = tr ++ d ∧ quiet d.
Proof.
  induction n as [|n IH]; intros p params stmt e tr; cbn [bind_loop].
  { exists []. by rewrite app_nil_r. }
  destruct (params p) as [v|]; cycle 1.
  { exists []. by rewrite app_nil_r. }
  unfold sb_bind_index. destruct (a_bind _ _ _ _ _ _) as [rc e'].
  case_bool_decide; cycle 1; [by eexists|].
  destruct (IH (p + 1)%nat params stmt e' (tr ++ [EvBind stmt (p + 1) v rc])) as (d & -> & Hd).
  exists (EvBind stmt (p + 1) v rc :: d). rewrite <-app_assoc. by split.
Qed.

Lemma bind_row_trace n : ∀ c row stmt e tr,
  ∃ d, (bind_row env n c row stmt e tr).2 = tr ++ d ∧ quiet d.
Proof.
  induction n as [|n IH]; intros c row stmt e tr; cbn [bind_row].
  { exists []. by rewrite app_nil_r. }
  unfold sb_bind_index. destruct (a_bind _ _ _ _ _ _) as [rc e'].
  case_bool_decide; cycle 1; [by eexists|].
  destruct (IH (c + 1)%nat row stmt e' (tr ++ [EvBind stmt (c + 1) (row c) rc])) as (d & -> & Hd).
  exists (EvBind stmt (c + 1) (row c) rc :: d). rewrite <-app_assoc. by split.
Qed.

(** A segment that frees its statements and leaves the result [r] open. *)
Definition leaves (d : list (event V)) (r : option sb_result) : Prop :=
  stmts_opened d ≡ₚ stmts_freed d ∧ results_opened d = option_list (r_handle <$> r) ∧
  results_freed d = [].

Lemma quiet_leaves d h r :
  quiet d → leaves ([EvPrepare h (Some r)] ++ d ++ [EvFreeStmt r]) None.
Proof.
  unfold leaves, quiet, stmts_opened, stmts_freed, results_opened, results_freed.
  intros (H1 & H2 & H3 & H4). rewrite !omap_app, H1, H2, H3, H4. done.
Qed.

Lemma quiet_executed d sql h r :
  quiet d → leaves ([EvPrepare sql (Some h)] ++ d ++ [EvExecutePrepared h r] ++ [EvFreeStmt h]) r.
Proof.
  unfold leaves, quiet, stmts_opened, stmts_freed, results_opened, results_freed.
  intros (H1 & H2 & H3 & H4). rewrite !omap_app, H1, H2, H3, H4. by destruct r.
Qed.

Lemma run_operation_trace op sql tr :
  ∃ d, (run_operation env op sql tr).2 = tr ++ d ∧ leaves d (run_operation env op sql tr).1.1.
Proof.
  unfold run_operation. destruct (op_param_count op =? 0)%nat.
  { unfold sb_execute. destruct (a_execute _ _ _ _) as [r e]. eexists; split; [done|].
    by destruct r. }
  destruct (op_params op) as [params|]; cycle 1.
  { exists []. by rewrite app_nil_r. }
  unfold sb_prepare. destruct (a_prepare _ _ _ _) as [[h|] e]; [|by eexists].
  destruct (bind_loop_trace (op_param_count op) 0 params h e (tr ++ [EvPrepare sql (Some h)]))
    as (d & Hd & Hq).
  destruct (bind_loop _ _ _ _ _ _ _) as [[ok e'] tr']. cbn in Hd. subst tr'. destruct ok.
  - unfold sb_execute_prepared. destruct (a_execute_prepared _ _ _ _) as [r e''].
    eexists. cbn [fst snd]. rewrite <-!app_assoc. split; [done|]. by apply quiet_executed.
  - eexists. cbn [fst snd]. rewrite <-!app_assoc. split; [done|]. by apply quiet_leaves.
Qed.

Lemma leaves_none d : leaves d None → all_freed d.
Proof. intros (H1 & H2 & H3). unfold all_freed. by rewrite H2, H3. Qed.

Lemma leaves_freed d r : leaves d (Some r) → all_freed (d ++ [EvFreeResult (r_handle r)]).
Proof.
  unfold leaves, all_freed, stmts_opened, stmts_freed, results_opened, results_freed.
  intros (H1 & H2 & H3). rewrite !omap_app, H1, H2, H3. cbn. by rewrite !app_nil_r.
Qed.

Lemma batch_loop_frees conn now ops : ∀ rows total out err tr g,
  all_freed tr → all_freed (b_trace (batch_loop env conn now ops rows total out err tr g)).
Proof.
  induction ops as [|op ops IH]; intros rows total out err tr g Htr; cbn [batch_loop]; [done|].
  destruct (op_sql op) as [sql|]; [|done]. case_bool_decide; [done|].
  destruct (run_operation_trace op sql tr) as (d & Hd & Hl).
  destruct (run_operation env op sql tr) as [[[r|] e] tr']; cbn in Hd, Hl; subst tr'.
  - apply IH. rewrite <-app_assoc. apply all_freed_app; [done|]. by apply leaves_freed.
  - cbn. apply all_freed_app; [done|]. by apply leaves_none.
Qed.

(** The open segment of a bulk insertion: the statement is not yet freed. *)
Definition one_open (stmt : handle) (tr : list (event V)) : Prop :=
  stmts_opened tr ≡ₚ stmt :: stmts_freed tr ∧ results_opened tr ≡ₚ results_freed tr.

Lemma one_open_free stmt tr : one_open stmt tr → all_freed (tr ++ [EvFreeStmt stmt]).
Proof.
  unfold one_open, all_freed, stmts_opened, stmts_freed, results_opened, results_freed.
  intros [H1 H2]. rewrite !omap_app, H1, H2. cbn. rewrite !app_nil_r.
  split; [apply Permutation_cons_append|done].
Qed.

Lemma one_open_quiet stmt tr d : one_open stmt tr → quiet d → one_open stmt (tr ++ d).
Proof.
  unfold one_open, quiet, stmts_opened, stmts_freed, results_opened, results_freed.
  intros [H1 H2] (E1 & E2 & E3 & E4). rewrite !omap_app, E1, E2, E3, E4, !app_nil_r. done.
Qed.

Lemma one_open_row stmt tr r :
  one_open stmt tr →
  one_open stmt (tr ++ [EvExecutePrepared stmt (Some r)] ++ [EvFreeResult (r_handle r)]).
Proof.
  unfold one_open, stmts_opened, stmts_freed, results_opened, results_freed.
  intros [H1 H2]. rewrite !omap_app, H1, H2. cbn. rewrite !app_nil_r. done.
Qed.

Lemma bulk_loop_frees conn now n rows : ∀ stmt inserted out e err tr g,
  one_open stmt tr →
  all_freed (k_trace (bulk_loop env conn now n rows stmt inserted out e err tr g)).
Proof.
  induction rows as [|[row|] rows IH]; intros stmt inserted out e err tr g Htr; cbn [bulk_loop];
    [by apply one_open_free| |by apply one_open_free].
  destruct (bind_row_trace n 0 row stmt e tr) as (d & Hd & Hq).
  destruct (bind_row env n 0 row stmt e tr) as [[rc e'] tr']. cbn in Hd. subst tr'.
  pose proof (one_open_quiet _ _ _ Htr Hq) as Ho.
  destruct (negb _); [by apply one_open_free|].
  unfold sb_execute_prepared. destruct (a_execute_prepared _ _ _ _) as [[r|] e''].
  - apply IH. rewrite <-(app_assoc (tr ++ d)). by apply one_open_row.
  - cbn. apply one_open_free, one_open_quiet; done.
Qed.
End safety.

(** On every path, errors included, a batch and a bulk insertion free every
    statement they prepared and every result they received, exactly once. *)
Theorem batch_frees_everything {V} (env : api V) alloc conn now ops t cols rows out err g :
  all_freed (b_trace (sb_batch_execute env alloc conn now ops out err [] g)) ∧
  all_freed (k_trace (sb_bulk_insert env conn now t cols rows out err [] g)).
Proof.
  split.
  - unfold sb_batch_execute. destruct conn as [c|]; [|done]. destruct ops as [[|op ops]|]; [done| |done].
    destruct alloc; [|done]. by apply batch_loop_frees.
  - unfold sb_bulk_insert. destruct conn as [c|]; [|done]. destruct rows as [rows|]; [|done].
    destruct t as [t|]; [|done]. destruct cols as [[|c0 cs]|]; [done| |done].
    destruct rows as [|r rows]; [done|]. destruct (build_bulk_insert_sql _ _) as [sql|]; [|done].
    unfold sb_prepare. destruct (a_prepare _ _ _ _) as [[h|] e]; [|done].
    by apply bulk_loop_frees.
Qed.

Definition int64_sum (total : Z) (rows : list Z) : Z := foldl (λ t a, i64 (t + a)) total rows.

Lemma batch_loop_rows {V} (env : api V) conn now ops : ∀ rows total out err tr g rs,
  b_rows (batch_loop env conn now ops rows total out err tr g) = Some rs →
  ∃ new, rs = rows ++ new ∧ length new = length ops ∧
    b_total (batch_loop env conn now ops rows total out err tr g) =
      (λ _, int64_sum total new) <$> out ∧
    b_err (batch_loop env conn now ops rows total out err tr g) = set_error err SB_OK [].
Proof.
  induction ops as [|op ops IH]; intros rows total out err tr g rs; cbn [batch_loop].
  { intros [= <-]. exists []. by rewrite app_nil_r. }
  destruct (op_sql op) as [sql|]; [|done]. case_bool_decide; [done|].
  destruct (run_operation env op sql tr) as [[[r|] e] tr']; [|done].
  intros (new & -> & Hn & Ht & He)%IH. exists (affected_of r :: new).
  rewrite <-app_assoc. cbn. split_and!; [done|by f_equal|exact Ht|exact He].
Qed.

Lemma fetch_loop_count n rows :
  0 <= rows → rows + Z.of_nat n < 2 ^ 63 → fetch_loop n rows = rows + Z.of_nat n.
Proof.
  revert rows. induction n as [|n IH]; intros rows Hr Hn; cbn [fetch_loop]; [lia|].
  unfold i64, to_signed. change (64 - 1) with 63.
  rewrite (Z.mod_small (rows + 1)) by lia. guard_true. rewrite IH by lia. lia.
Qed.

(** A batch that returns an array has one count per operation and reports
    their [int64_t] sum; [count_rows] counts the rows left to fetch. *)
Theorem batch_totals {V} (env : api V) alloc conn now op ops out err tr g rs :
  b_rows (sb_batch_execute env alloc conn now (Some (op :: ops)) out err tr g) = Some rs →
  length rs = length (op :: ops) ∧
  b_total (sb_batch_execute env alloc conn now (Some (op :: ops)) out err tr g) =
    (λ _, int64_sum 0 rs) <$> out ∧
  (∀ r, Z.of_nat (r_rows r) < 2 ^ 63 → count_rows (Some r) = Z.of_nat (r_rows r)).
Proof.
  intros H. unfold sb_batch_execute in *. destruct conn as [c|]; [|done]. destruct alloc; [|done].
  apply batch_loop_rows in H as (new & -> & Hn & Ht & _). cbn [app]. split; [done|].
  split; [exact Ht|]. intros r Hr. cbn [count_rows]. by rewrite fetch_loop_count by lia.
Qed.

(** An API whose statements each report three rows. *)
Definition example_api : api Z := {|
  a_execute := λ _ _ e, (Some (mkResult 1 3 0), e);
  a_prepare := λ _ _ e, (Some 2, e);
  a_bind := λ _ _ _ _ e, (SB_OK, e);
  a_execute_prepared := λ _ _ e, (Some (mkResult 3 0 3), e)
|}.

Lemma batch_totals_witness :
  let ops := [mkOperation (Some ("DELETE FROM t" : bytes)) (Some (λ _, Some 5)) 1] in
  let o := mkOperation (Some ("UPDATE t SET a = 1" : bytes)) None 0 in
  b_rows (sb_batch_execute example_api true (Some 9) 0 (Some (o :: ops)) (Some 0) None [] ∅) = Some [3; 3] ∧
  b_total (sb_batch_execute example_api true (Some 9) 0 (Some (o :: ops)) (Some 0) None [] ∅) = Some 6.
Proof.
  intros ops o. split; [reflexivity|].
  exact (proj1 (proj2 (batch_totals example_api true (Some 9) 0 o ops (Some 0) None [] ∅ [3; 3] eq_refl))).
Defined.
