(* ===== verification/CircuitBreaker.v ===== *)
(** * Circuit breaker

    Models [src/circuit_breaker.cpp] and the template [Execute] of
    [include/scratchbird/client/circuit_breaker.h]. Every member function is one
    atomic operation; requests in flight (admitted, not yet recorded) interleave
    between them. The counters are [uint32_t] and wrap; times are nanoseconds of
    the steady clock. *)

From S2P Require Import Prelude.

Inductive sb_circuit_state := SB_CIRCUIT_CLOSED | SB_CIRCUIT_OPEN | SB_CIRCUIT_HALF_OPEN.

#[export] Instance sb_circuit_state_eq_dec : EqDecision sb_circuit_state.
Proof. solve_decision. Defined.

Record sb_circuit_breaker_config := mkConfig {
  failure_threshold : Z;
  recovery_timeout_ms : Z;
  success_threshold : Z;
  half_open_max_requests : Z
}.

Definition sb_circuit_breaker_config_default : sb_circuit_breaker_config := mkConfig 5 30000 3 10.

Record CircuitBreaker := mkBreaker {
  config_ : sb_circuit_breaker_config;
  name_ : bytes;
  state_ : sb_circuit_state;
  failure_count_ : Z;
  success_count_ : Z;
  half_open_requests_ : Z;
  last_failure_time_ : Z
}.

Definition new_breaker (config : sb_circuit_breaker_config) (name : bytes) : CircuitBreaker :=
  mkBreaker config name SB_CIRCUIT_CLOSED 0 0 0 0.

Definition new_default_named (config : sb_circuit_breaker_config) : CircuitBreaker :=
  new_breaker config "default".

Definition GetState (b : CircuitBreaker) : sb_circuit_state := state_ b.

(** [store] on one of the atomic members. *)
Definition set_state (s : sb_circuit_state) (b : CircuitBreaker) : CircuitBreaker :=
  mkBreaker (config_ b) (name_ b) s (failure_count_ b) (success_count_ b) (half_open_requests_ b)
    (last_failure_time_ b).
Definition set_failures (n : Z) (b : CircuitBreaker) : CircuitBreaker :=
  mkBreaker (config_ b) (name_ b) (state_ b) (u32 n) (success_count_ b) (half_open_requests_ b)
    (last_failure_time_ b).
Definition set_successes (n : Z) (b : CircuitBreaker) : CircuitBreaker :=
  mkBreaker (config_ b) (name_ b) (state_ b) (failure_count_ b) (u32 n) (half_open_requests_ b)
    (last_failure_time_ b).
Definition set_half_open (n : Z) (b : CircuitBreaker) : CircuitBreaker :=
  mkBreaker (config_ b) (name_ b) (state_ b) (failure_count_ b) (success_count_ b) (u32 n)
    (last_failure_time_ b).
Definition set_last_failure (t : Z) (b : CircuitBreaker) : CircuitBreaker :=
  mkBreaker (config_ b) (name_ b) (state_ b) (failure_count_ b) (success_count_ b)
    (half_open_requests_ b) t.

(** The compare-and-exchange succeeds: nothing runs in between. *)
Definition AllowHalfOpenRequest (b : CircuitBreaker) : bool * CircuitBreaker :=
  let current := half_open_requests_ b in
  if half_open_max_requests (config_ b) <=? current then (false, b)
  else (true, set_half_open (current + 1) b).

Definition AllowRequest (now : Z) (b : CircuitBreaker) : bool * CircuitBreaker :=
  match state_ b with
  | SB_CIRCUIT_CLOSED => (true, b)
  | SB_CIRCUIT_OPEN =>
      let lastFailure := last_failure_time_ b in
      if (0 <? lastFailure) &&
         (recovery_timeout_ms (config_ b) <=? milliseconds_of (now - lastFailure))
      then
        let b := set_state SB_CIRCUIT_HALF_OPEN b in
        let b := set_failures 0 b in
        let b := set_successes 0 b in
        let b := set_half_open 0 b in
        AllowHalfOpenRequest b
      else (false, b)
  | SB_CIRCUIT_HALF_OPEN => AllowHalfOpenRequest b
  end.

Definition RecordSuccess (b : CircuitBreaker) : CircuitBreaker :=
  match state_ b with
  | SB_CIRCUIT_CLOSED => set_failures 0 b
  | SB_CIRCUIT_HALF_OPEN =>
      let b := set_half_open (half_open_requests_ b - 1) b in
      let successes := u32 (success_count_ b + 1) in
      let b := set_successes (success_count_ b + 1) b in
      if success_threshold (config_ b) <=? successes then
        let b := set_state SB_CIRCUIT_CLOSED b in
        let b := set_failures 0 b in
        set_successes 0 b
      else b
  | SB_CIRCUIT_OPEN => b
  end.

Definition RecordFailure (now : Z) (b : CircuitBreaker) : CircuitBreaker :=
  match state_ b with
  | SB_CIRCUIT_CLOSED =>
      let failures := u32 (failure_count_ b + 1) in
      let b := set_failures (failure_count_ b + 1) b in
      if failure_threshold (config_ b) <=? failures
      then set_last_failure now (set_state SB_CIRCUIT_OPEN b)
      else b
  | SB_CIRCUIT_HALF_OPEN =>
      let b := set_half_open (half_open_requests_ b - 1) b in
      set_last_failure now (set_state SB_CIRCUIT_OPEN b)
  | SB_CIRCUIT_OPEN => set_last_failure now b
  end.

Definition Reset (b : CircuitBreaker) : CircuitBreaker :=
  let b := set_state SB_CIRCUIT_CLOSED b in
  let b := set_failures 0 b in
  let b := set_successes 0 b in
  set_half_open 0 b.

Record Stats := mkStats {
  st_state : sb_circuit_state;
  st_failures : Z;
  st_successes : Z;
  st_half_open : Z;
  st_last_failure : Z
}.

Definition GetStats (b : CircuitBreaker) : Stats :=
  mkStats (state_ b) (failure_count_ b) (success_count_ b) (half_open_requests_ b)
    (last_failure_time_ b).

(** [Execute]: the call runs at [t1] and, if admitted, ends at [t2]; [ok] tells
    whether it returns or throws. The result tells whether it ran. *)
Definition Execute (t1 t2 : Z) (ok : bool) (b : CircuitBreaker) : bool * CircuitBreaker :=
  match AllowRequest t1 b with
  | (false, b) => (false, b)
  | (true, b) => (true, if ok then RecordSuccess b else RecordFailure t2 b)
  end.

(** The C interface; a null handle is [None]. *)
Definition sb_circuit_breaker_get_state (b : option CircuitBreaker) : sb_circuit_state :=
  match b with Some b => GetState b | None => SB_CIRCUIT_OPEN end.

Definition sb_circuit_breaker_allow_request (now : Z) (b : option CircuitBreaker)
    : Z * option CircuitBreaker :=
  match b with
  | Some b => let '(r, b) := AllowRequest now b in (if r then 1 else 0, Some b)
  | None => (0, None)
  end.

(** ** Specification: the breaker seen by one caller at a time *)

Inductive phase :=
  | Closed (failures : Z)     (** failures in a row *)
  | Open (since : Z)          (** the last failure *)
  | HalfOpen (successes : Z). (** successful probes *)

Section specification.
Context (cfg : sb_circuit_breaker_config).

(** A successful, respectively failed, probe. *)
Definition probe (t2 : Z) (ok : bool) (s : Z) : phase :=
  if ok then if success_threshold cfg <=? s + 1 then Closed 0 else HalfOpen (s + 1)
  else Open t2.

Definition spec_execute (t1 t2 : Z) (ok : bool) (p : phase) : bool * phase :=
  match p with
  | Closed k =>
      (true, if ok then Closed 0
             else if failure_threshold cfg <=? k + 1 then Open t2 else Closed (k + 1))
  | Open since =>
      if (0 <? since) && (recovery_timeout_ms cfg <=? milliseconds_of (t1 - since))
      then (true, probe t2 ok 0)
      else (false, Open since)
  | HalfOpen s => (true, probe t2 ok s)
  end.

Definition wf_config : Prop :=
  in_u32 (failure_threshold cfg) ∧ in_u32 (success_threshold cfg) ∧
  1 <= half_open_max_requests cfg < 2 ^ 32.

(** The breaker between two calls. *)
Definition represents (b : CircuitBreaker) (p : phase) : Prop :=
  config_ b = cfg ∧
  match p with
  | Closed k =>
      state_ b = SB_CIRCUIT_CLOSED ∧ failure_count_ b = k ∧
      0 <= k < Z.max 1 (failure_threshold cfg)
  | Open since => state_ b = SB_CIRCUIT_OPEN ∧ last_failure_time_ b = since
  | HalfOpen s =>
      state_ b = SB_CIRCUIT_HALF_OPEN ∧ success_count_ b = s ∧ half_open_requests_ b = 0 ∧
      0 <= s < Z.max 1 (success_threshold cfg)
  end.

Lemma u32_small z : 0 <= z < 2 ^ 32 → u32 z = z.
Proof. apply Z.mod_small. Qed.

(** A probe admitted with [s] successes so far. *)
Lemma probe_represents b t2 (ok : bool) s :
  wf_config → config_ b = cfg → state_ b = SB_CIRCUIT_HALF_OPEN → success_count_ b = s →
  half_open_requests_ b = 1 → 0 <= s < Z.max 1 (success_threshold cfg) →
  represents (if ok then RecordSuccess b else RecordFailure t2 b) (probe t2 ok s).
Proof.
  intros (Hf & Hs & Hh) Hc Hst Hsc Hr Hb. unfold in_u32 in *.
  unfold probe, RecordSuccess, RecordFailure. rewrite Hst. destruct ok; cbn -[Z.max u32 Z.leb].
  - rewrite Hc, Hsc, (u32_small (s + 1)) by lia.
    destruct (Z.leb_spec (success_threshold cfg) (s + 1)); split; cbn -[Z.max u32]; [done|..|done|].
    + split; [done|]. split; [done|lia].
    + rewrite Hr, u32_small by lia. split_and!; first [done | lia].
  - split; cbn -[Z.max u32]; [done|]. done.
Qed.

Lemma execute_refines t1 t2 ok b p :
  wf_config → represents b p →
  (Execute t1 t2 ok b).1 = (spec_execute t1 t2 ok p).1 ∧
  represents (Execute t1 t2 ok b).2 (spec_execute t1 t2 ok p).2.
Proof.
  intros Hw [Hc Hp]. pose proof Hw as (Hf & Hs & Hh). unfold in_u32 in *.
  unfold Execute, AllowRequest. destruct p as [k|since|s]; cbn [spec_execute].
  - destruct Hp as (Hst & Hk & Hb). rewrite Hst. cbn [fst snd]. split; [done|].
    unfold RecordSuccess, RecordFailure. rewrite Hst. destruct ok.
    + split; cbn -[Z.max u32]; [done|]. split; [done|]. split; [done|lia].
    + cbn [config_ set_failures]. rewrite Hc, Hk.
      destruct (Z.leb_spec (failure_threshold cfg) (u32 (k + 1))) as [H|H];
        rewrite u32_small in H by lia.
      * guard_true. split; cbn -[Z.max u32]; done.
      * guard_false. split; cbn -[Z.max u32]; [done|]. rewrite u32_small by lia.
        split; [done|]. split; [done|lia].
  - destruct Hp as (Hst & Hl). rewrite Hst, Hl, Hc.
    destruct ((0 <? since) && _); [|by split].
    unfold AllowHalfOpenRequest. cbn [config_ half_open_requests_ set_half_open set_successes
      set_failures set_state]. rewrite Hc. change (u32 0) with 0. guard_false. cbn [fst snd].
    split; [done|]. apply probe_represents; try done. cbn. lia.
  - destruct Hp as (Hst & Hsc & Hr & Hb). rewrite Hst. unfold AllowHalfOpenRequest.
    rewrite Hc, Hr. guard_false. cbn [fst snd]. split; [done|]. by apply probe_represents.
Qed.
End specification.

(** Calls one after the other: the list of those that ran, and the breaker. *)
Fixpoint run_calls {S} (exec : Z → Z → bool → S → bool * S) (calls : list (Z * Z * bool)) (s : S)
    : list bool * S :=
  match calls with
  | [] => ([], s)
  | (t1, t2, ok) :: calls =>
      let '(ran, s) := exec t1 t2 ok s in
      let '(rs, s) := run_calls exec calls s in (ran :: rs, s)
  end.

(** C29: for one caller at a time the breaker implements its specification: it
    trips after [failure_threshold] failures in a row, refuses until
    [recovery_timeout_ms] has passed since the last failure, then probes, and
    closes after [success_threshold] successful probes; no counter wraps. *)
Theorem breaker_refines_specification cfg name calls :
  wf_config cfg →
  let impl := run_calls Execute calls (new_breaker cfg name) in
  let spec := run_calls (spec_execute cfg) calls (Closed 0) in
  impl.1 = spec.1 ∧ represents cfg impl.2 spec.2.
Proof.
  intros Hw. cbn zeta.
  assert (Hr : represents cfg (new_breaker cfg name) (Closed 0)).
  { destruct Hw as (Hf & _). unfold in_u32 in Hf. split; [done|]. do 2 (split; [done|]). lia. }
  revert Hr. generalize (new_breaker cfg name), (Closed 0).
  induction calls as [|[[t1 t2] ok] calls IH]; intros b p Hr; cbn [run_calls]; [done|].
  destruct (execute_refines cfg t1 t2 ok b p Hw Hr) as [E Hr'].
  destruct (Execute t1 t2 ok b) as [r1 b1], (spec_execute cfg t1 t2 ok p) as [r2 p2].
  cbn in E, Hr'. subst r2. destruct (IH b1 p2 Hr') as [E2 Hr2].
  destruct (run_calls _ calls b1) as [rs1 b2], (run_calls _ calls p2) as [rs2 p3].
  cbn in *. split; [congruence|done].
Qed.

Lemma breaker_refines_specification_witness :
  let cfg := mkConfig 2 10 1 1 in
  let calls := [(1, 2, false); (3, 4, false); (5, 6, true); (10 ^ 8, 10 ^ 8 + 1, true)] in
  wf_config cfg ∧
  (run_calls Execute calls (new_breaker cfg "db")).1 = [true; true; false; true] ∧
  represents cfg (run_calls Execute calls (new_breaker cfg "db")).2 (Closed 0).
Proof.
  intros cfg calls.
  assert (Hw : wf_config cfg) by (split; [|split]; unfold in_u32; cbn; lia).
  split; [exact Hw|]. split; [reflexivity|].
  exact (proj2 (breaker_refines_specification cfg "db" calls Hw)).
Defined.

(** ** Overlapping requests *)

(** One request is admitted, or one in flight ends. *)
Inductive call_event := Begin (now : Z) | Succeed | Fail (now : Z).

(** The breaker and the number of requests in flight; [None] when the event is
    impossible: nothing is in flight. A refused request never is. *)
Definition call_step (s : CircuitBreaker * nat) (e : call_event) : option (CircuitBreaker * nat) :=
  let '(b, n) := s in
  match e with
  | Begin now =>
      match AllowRequest now b with (true, b) => Some (b, S n) | (false, b) => Some (b, n) end
  | Succeed => match n with S n => Some (RecordSuccess b, n) | O => None end
  | Fail now => match n with S n => Some (RecordFailure now b, n) | O => None end
  end.

Fixpoint call_run (s : CircuitBreaker * nat) (es : list call_event)
    : option (CircuitBreaker * nat) :=
  match es with [] => Some s | e :: es => s ← call_step s e; call_run s es end.

Lemma wedged_refuses b now :
  state_ b = SB_CIRCUIT_HALF_OPEN →
  half_open_max_requests (config_ b) <= half_open_requests_ b → AllowRequest now b = (false, b).
Proof.
  intros Hs Hm. unfold AllowRequest, AllowHalfOpenRequest. rewrite Hs. by guard_true.
Qed.

(** The events: one request is admitted while the breaker is closed, five more
    fail and trip it; after the recovery time a probe is admitted; the old
    request and the probe succeed. *)
Definition wedging_events : list call_event :=
  [Begin 1; Begin 2; Begin 3; Begin 4; Begin 5; Begin 6;
   Fail 7; Fail 8; Fail 9; Fail 10; Fail 11; Begin (40000 * 10 ^ 6); Succeed; Succeed].

(** With the default configuration, a request admitted while the breaker was
    closed that ends while it probes makes [half_open_requests_] wrap below
    zero: nothing is in flight, and every later request is refused for ever. *)
Theorem breaker_wedges :
  ∃ b, call_run (new_breaker sb_circuit_breaker_config_default "default", O) wedging_events
         = Some (b, O) ∧
    half_open_requests_ b = 2 ^ 32 - 1 ∧ state_ b = SB_CIRCUIT_HALF_OPEN ∧
    ∀ now, AllowRequest now b = (false, b).
Proof.
  eexists. split; [vm_compute; reflexivity|]. split; [done|]. split; [done|].
  intros now. by apply wedged_refuses.
Qed.

(** ** What holds for any interleaving *)

(** The counters stay in 32 bits, an open breaker refuses until the recovery
    time has passed, and admissions while probing respect the limit. *)
Definition counters_ok (b : CircuitBreaker) : Prop :=
  in_u32 (failure_count_ b) ∧ in_u32 (success_count_ b) ∧ in_u32 (half_open_requests_ b).

Lemma in_u32_u32 z : in_u32 (u32 z).
Proof. apply Z.mod_pos_bound. lia. Qed.

Lemma counters_ok_step b n e s : counters_ok b → call_step (b, n) e = Some s → counters_ok s.1.
Proof.
  assert (in_u32 0) by done.
  intros (Hf & Hs & Hh). destruct e as [now| |now]; cbn [call_step].
  - unfold AllowRequest, AllowHalfOpenRequest. destruct (state_ b).
    + intros [= <-]. by split_and!.
    + destruct (_ && _); [destruct (_ <=? _)|]; intros [= <-]; split_and!; cbn; auto using in_u32_u32.
    + destruct (_ <=? _); intros [= <-]; split_and!; cbn; auto using in_u32_u32.
  - destruct n; [done|]. intros [= <-]. cbn [fst]. unfold RecordSuccess. destruct (state_ b).
    + split_and!; cbn; auto using in_u32_u32.
    + by split_and!.
    + destruct (_ <=? _); split_and!; cbn; auto using in_u32_u32.
  - destruct n; [done|]. intros [= <-]. cbn [fst]. unfold RecordFailure. destruct (state_ b).
    + destruct (_ <=? _); split_and!; cbn; auto using in_u32_u32.
    + by split_and!.
    + split_and!; cbn; auto using in_u32_u32.
Qed.

Lemma counters_ok_run cfg name es b n :
  call_run (new_breaker cfg name, O) es = Some (b, n) → counters_ok b.
Proof.
  intros Hrun. assert (Hc : counters_ok (new_breaker cfg name)) by done.
  revert Hrun Hc. generalize (new_breaker cfg name), O.
  induction es as [|e es IH]; intros b0 n0 Hrun Hc; cbn [call_run] in Hrun; [by simplify_eq|].
  destruct (call_step (b0, n0) e) as [[b1 n1]|] eqn:E; [|done].
  apply (IH b1 n1); [exact Hrun|]. exact (counters_ok_step _ _ _ _ Hc E).
Qed.

(** Whatever requests overlap, the counters stay in range, an open breaker
    admits nothing before [recovery_timeout_ms] has passed since its last
    failure, and a probing one never goes over [half_open_max_requests]. *)
Theorem breaker_admission cfg name es b n :
  call_run (new_breaker cfg name, O) es = Some (b, n) →
  counters_ok b ∧
  (∀ now b', state_ b = SB_CIRCUIT_OPEN → AllowRequest now b = (true, b') →
     recovery_timeout_ms (config_ b) <= milliseconds_of (now - last_failure_time_ b)) ∧
  (∀ now b', state_ b ≠ SB_CIRCUIT_CLOSED → AllowRequest now b = (true, b') →
     half_open_requests_ b' <= half_open_max_requests (config_ b') ∧
     state_ b' = SB_CIRCUIT_HALF_OPEN).
Proof.
  intros Hrun%counters_ok_run. split; [exact Hrun|]. destruct Hrun as (_ & _ & Hh).
  unfold in_u32 in Hh.
  unfold AllowRequest, AllowHalfOpenRequest. split; intros now b' Hs; destruct (state_ b) eqn:Es; try done.
  - destruct (Z.leb_spec (recovery_timeout_ms (config_ b)) (milliseconds_of (now - last_failure_time_ b)));
      [done|]. by rewrite andb_false_r.
  - destruct (_ && _); [|done]. cbn. change (u32 0) with 0.
    destruct (Z.leb_spec (half_open_max_requests (config_ b)) 0); [done|]. intros [= <-]. cbn.
    split; [|done]. change (u32 (0 + 1)) with 1. lia.
  - destruct (Z.leb_spec (half_open_max_requests (config_ b)) (half_open_requests_ b)); [done|].
    intros [= <-]. cbn. rewrite Es. split; [|done].
    pose proof (Z.mod_le (half_open_requests_ b + 1) (2 ^ 32)). unfold u32. lia.
Qed.

Lemma breaker_admission_witness :
  ∃ b, call_run (new_breaker sb_circuit_breaker_config_default "default", O) wedging_events
         = Some (b, O) ∧ counters_ok b.
Proof.
  enough (H : ∃ b, call_run (new_breaker sb_circuit_breaker_config_default "default", O) wedging_events
                = Some (b, O)).
  { destruct H as [b E]. exists b. split; [exact E|].
    exact (proj1 (breaker_admission sb_circuit_breaker_config_default "default" wedging_events b O E)). }
  eexists. vm_compute. reflexivity.
Defined.
