(* ===== verification/TypeExtractor.v ===== *)
(** * Dates, times and UUIDs

    Models [src/core/type_extractor.cpp]. [/] and [%] of C++ truncate toward
    zero ([Z.quot], [Z.rem]); conversions to [int32_t] and [uint32_t] are
    written out. The specification is the proleptic Gregorian calendar, given by
    the successor of a date. *)

From S2P Require Import Prelude.

Definition date : Type := Z * Z * Z.

(** ** Dates *)

Definition daysToYMD (days : Z) : date :=
  let DAYS_PER_400_YEARS := 146097 in
  let DAYS_PER_100_YEARS := 36524 in
  let DAYS_PER_4_YEARS := 1461 in
  let DAYS_PER_YEAR := 365 in
  let d := days + 719468 in
  let era := Z.quot (if 0 <=? d then d else d - DAYS_PER_400_YEARS + 1) DAYS_PER_400_YEARS in
  let doe := d - era * DAYS_PER_400_YEARS in
  let yoe := Z.quot (doe - Z.quot doe DAYS_PER_4_YEARS + Z.quot doe DAYS_PER_100_YEARS)
               DAYS_PER_YEAR in
  let y := yoe + era * 400 in
  let doy := doe - (DAYS_PER_YEAR * yoe + Z.quot yoe 4 - Z.quot yoe 100) in
  let mp := Z.quot (5 * doy + 2) 153 in
  let d_day := doy - Z.quot (153 * mp + 2) 5 + 1 in
  let m := mp + (if mp <? 10 then 3 else -9) in
  (i32 (y + (if m <=? 2 then 1 else 0)), i32 m, i32 d_day).

Definition extractYear (days : Z) : Z := let '(year, _, _) := daysToYMD days in year.
Definition extractMonth (days : Z) : Z := let '(_, month, _) := daysToYMD days in month.
Definition extractDay (days : Z) : Z := let '(_, _, day) := daysToYMD days in day.

Definition extractDayOfWeek (days : Z) : Z :=
  let dow := Z.rem (days + 4) 7 in
  i32 (if dow <? 0 then dow + 7 else dow).

Definition isLeapYear (year : Z) : bool :=
  ((Z.rem year 4 =? 0) && negb (Z.rem year 100 =? 0)) || (Z.rem year 400 =? 0).

Definition days_before_month : list Z := [0; 31; 59; 90; 120; 151; 181; 212; 243; 273; 304; 334].

(** [days_before_month[month - 1]] with a month outside 1..12 is an access
    outside the array. *)
Definition extractDayOfYear (days : Z) : outcome Z :=
  let '(year, month, day) := daysToYMD days in
  match (if 1 <=? month then days_before_month !! Z.to_nat (month - 1) else None) with
  | None => UB
  | Some before =>
      let doy := before + day in
      Ret (if isLeapYear year && (2 <? month) then doy + 1 else doy)
  end.

Definition extractQuarter (days : Z) : Z := Z.quot (extractMonth days - 1) 3 + 1.

Definition ymdToDays (year month day : Z) : Z :=
  let year := i32 (year - (if month <=? 2 then 1 else 0)) in
  let era := Z.quot (if 0 <=? year then year else year - 399) 400 in
  let yoe := u32 (year - era * 400) in
  let doy := u32 (u32 (Z.quot (153 * (month + (if 2 <? month then -3 else 9)) + 2) 5) + u32 day - 1) in
  let doe := u32 (yoe * 365 + yoe / 4 - yoe / 100 + doy) in
  era * 146097 + doe - 719468.

Definition extractWeek (days : Z) : Z :=
  let '(year, _, _) := daysToYMD days in
  let jan1_dow := extractDayOfWeek (ymdToDays year 1 1) in
  let first_sunday := ymdToDays year 1 1 - jan1_dow in
  i32 (Z.quot (days - first_sunday) 7 + 1).

Definition extractISODayOfWeek (days : Z) : Z :=
  let dow := extractDayOfWeek days in if dow =? 0 then 7 else dow.

Definition isoWeeksInYear (year : Z) : Z :=
  let dec31_days := ymdToDays year 12 31 in
  let dow := extractDayOfWeek dec31_days in
  if (dow =? 4) || (isLeapYear year && (dow =? 5)) then 53 else 52.

Definition extractISOWeek (days : Z) : outcome Z :=
  let '(year, _, _) := daysToYMD days in
  doy ← extractDayOfYear days;
  let dow := extractISODayOfWeek days in
  let week := Z.quot (doy - dow + 10) 7 in
  Ret (if week <? 1 then isoWeeksInYear (year - 1)
       else
         let weeks_in_year := isoWeeksInYear year in
         if weeks_in_year <? week then 1 else week).

Definition extractISOYear (days : Z) : outcome Z :=
  let '(year, _, _) := daysToYMD days in
  doy ← extractDayOfYear days;
  let dow := extractISODayOfWeek days in
  let week := Z.quot (doy - dow + 10) 7 in
  Ret (if week <? 1 then year - 1
       else
         let weeks_in_year := isoWeeksInYear year in
         if weeks_in_year <? week then year + 1 else year).

Definition extractCentury (days : Z) : Z :=
  let '(year, _, _) := daysToYMD days in
  if 0 <? year then Z.quot (year + 99) 100 else - Z.quot (Z.abs year + 99) 100.

Definition extractDecade (days : Z) : Z :=
  let '(year, _, _) := daysToYMD days in
  if 0 <=? year then Z.quot year 10 else - Z.quot (Z.abs year + 9) 10.

Definition extractMillennium (days : Z) : Z :=
  let '(year, _, _) := daysToYMD days in
  if 0 <? year then Z.quot (year + 999) 1000 else - Z.quot (Z.abs year + 999) 1000.

(** ** Times *)

Definition extractHour (microseconds : Z) : Z :=
  let total_seconds := Z.quot microseconds 1000000 in
  i32 (Z.rem (Z.quot total_seconds 3600) 24).

Definition extractMinute (microseconds : Z) : Z :=
  let total_seconds := Z.quot microseconds 1000000 in
  i32 (Z.rem (Z.quot total_seconds 60) 60).

Definition extractSecond (microseconds : Z) : Z :=
  let total_seconds := Z.quot microseconds 1000000 in
  i32 (Z.rem total_seconds 60).

Definition extractMillisecond (microseconds : Z) : Z :=
  i32 (Z.rem (Z.quot microseconds 1000) 1000).

Definition extractMicrosecond (microseconds : Z) : Z := i32 (Z.rem microseconds 1000000).

Definition timestamp_days (microseconds : Z) : Z := Z.quot microseconds (1000000 * 86400).
Definition extractTimestampYear (microseconds : Z) : Z := extractYear (timestamp_days microseconds).
Definition extractTimestampMonth (microseconds : Z) : Z := extractMonth (timestamp_days microseconds).
Definition extractTimestampDay (microseconds : Z) : Z := extractDay (timestamp_days microseconds).
Definition extractTimestampHour (microseconds : Z) : Z := extractHour microseconds.
Definition extractTimestampMinute (microseconds : Z) : Z := extractMinute microseconds.
Definition extractTimestampSecond (microseconds : Z) : Z := extractSecond microseconds.
Definition extractTimestampMicrosecond (microseconds : Z) : Z := extractMicrosecond microseconds.

(** ** UUIDs *)

(** [uuid[i]] after the size check, as an unsigned value. *)
Definition uuid_byte (uuid : bytes) (i : nat) : Z := byte_val (nth i uuid Byte.x00).

Definition extractUUIDVersion (uuid : bytes) : Z :=
  if blen uuid <? 16 then 0 else Z.land (Z.shiftr (uuid_byte uuid 6) 4) 0x0F.

Definition extractUUIDVariant (uuid : bytes) : Z :=
  if blen uuid <? 16 then 0 else
  let variant_byte := uuid_byte uuid 8 in
  if Z.land variant_byte 0x80 =? 0 then 0
  else if Z.land variant_byte 0xC0 =? 0x80 then 1
  else if Z.land variant_byte 0xE0 =? 0xC0 then 2
  else 3.

Definition extractUUIDTimestamp (uuid : bytes) : option Z :=
  if blen uuid <? 16 then None else
  let version := extractUUIDVersion uuid in
  if negb (version =? 1) && negb (version =? 7) then None else
  let b := uuid_byte uuid in
  if version =? 1 then
    let time_low := Z.lor (Z.lor (Z.lor (Z.shiftl (b 0%nat) 24) (Z.shiftl (b 1%nat) 16))
                      (Z.shiftl (b 2%nat) 8)) (b 3%nat) in
    let time_mid := Z.lor (Z.shiftl (b 4%nat) 8) (b 5%nat) in
    let time_hi := Z.lor (Z.shiftl (Z.land (b 6%nat) 0x0F) 8) (b 7%nat) in
    let timestamp_100ns := Z.lor (Z.lor (u64 (Z.shiftl time_hi 48)) (Z.shiftl time_mid 32)) time_low in
    let UUID_TO_UNIX_100NS := 122192928000000000 in
    if timestamp_100ns <? UUID_TO_UNIX_100NS then None
    else
      let unix_100ns := timestamp_100ns - UUID_TO_UNIX_100NS in
      Some (i64 (unix_100ns / 10))
  else
    let timestamp_ms :=
      Z.lor (Z.lor (Z.lor (Z.lor (Z.lor (Z.shiftl (b 0%nat) 40) (Z.shiftl (b 1%nat) 32))
        (Z.shiftl (b 2%nat) 24)) (Z.shiftl (b 3%nat) 16)) (Z.shiftl (b 4%nat) 8)) (b 5%nat) in
    Some (i64 (u64 (timestamp_ms * 1000))).

(** ** The Gregorian calendar *)

Definition leap (y : Z) : bool := ((y mod 4 =? 0) && negb (y mod 100 =? 0)) || (y mod 400 =? 0).

Definition days_in_month (y m : Z) : Z :=
  if m =? 2 then if leap y then 29 else 28
  else if (m =? 4) || (m =? 6) || (m =? 9) || (m =? 11) then 30 else 31.

Definition next_day (dt : date) : date :=
  let '(y, m, d) := dt in
  if d <? days_in_month y m then (y, m, d + 1)
  else if m <? 12 then (y, m + 1, 1) else (y + 1, 1, 1).

(** The date of a day of the era that starts on 0000-03-01. *)
Definition civil_doe (doe : Z) : date :=
  let yoe := (doe - doe / 1460 + doe / 36524 - doe / 146096) / 365 in
  let doy := doe - (365 * yoe + yoe / 4 - yoe / 100) in
  let mp := (5 * doy + 2) / 153 in
  let m := if mp <? 10 then mp + 3 else mp - 9 in
  (yoe + (if m <=? 2 then 1 else 0), m, doy - (153 * mp + 2) / 5 + 1).

Definition shift_years (k : Z) (dt : date) : date := let '(y, m, d) := dt in (y + k, m, d).

(** The date of a day counted from 1970-01-01. *)
Definition civil (days : Z) : date :=
  let z := days + 719468 in shift_years (400 * (z / 146097)) (civil_doe (z mod 146097)).

(** Check a decidable property on a range. *)
Fixpoint all_from (f : Z → bool) (n : nat) (z : Z) : bool :=
  match n with O => true | S n => f z && all_from f n (z + 1) end.

Lemma all_from_spec f n z x :
  all_from f n z = true → z <= x < z + Z.of_nat n → f x = true.
Proof.
  revert z. induction n as [|n IH]; intros z H Hx; [lia|]. cbn [all_from] in H.
  apply andb_true_iff in H as [H1 H2]. destruct (decide (x = z)) as [->|]; [done|].
  apply (IH (z + 1)); [done|lia].
Qed.

(** *** The years of an era

    Year [y] of an era starts in March, at day [ystart y]; its last day is a 29
    February when the next January belongs to a leap year. A property of all the
    days of an era is checked on the 400 years and the 366 days of a year. *)

Definition ystart (y : Z) : Z := 365 * y + y / 4 - y / 100 + y / 400.
Definition year_len (y : Z) : Z := if leap (y + 1) then 366 else 365.

(** Month and day of the [doy]-th day of a year that starts in March. *)
Definition month_day (doy : Z) : Z * Z :=
  let mp := (5 * doy + 2) / 153 in
  (if mp <? 10 then mp + 3 else mp - 9, doy - (153 * mp + 2) / 5 + 1).

Definition march_date (y doy : Z) : date :=
  let '(m, d) := month_day doy in (y + (if m <=? 2 then 1 else 0), m, d).

(** A check for every year, respectively for every day of a year. *)
Lemma each_year f y : all_from f 400 0 = true → 0 <= y < 400 → f y = true.
Proof. intros H Hy. apply (all_from_spec f 400 0 y H). lia. Qed.

Lemma each_doy f doy : all_from f 366 0 = true → 0 <= doy < 366 → f doy = true.
Proof. intros H Hd. apply (all_from_spec f 366 0 doy H). lia. Qed.

Lemma ystart_next y : 0 <= y < 400 → ystart (y + 1) = ystart y + year_len y.
Proof.
  intros Hy. apply Z.eqb_eq. revert y Hy.
  refine (λ y, each_year (λ y, ystart (y + 1) =? ystart y + year_len y) y _).
  vm_compute. reflexivity.
Qed.

Lemma year_len_range y : 365 <= year_len y <= 366.
Proof. unfold year_len. destruct (leap _); lia. Qed.

Lemma find_year_below n doe :
  (n <= 400)%nat → 0 <= doe < ystart (Z.of_nat n) →
  ∃ y, 0 <= y < Z.of_nat n ∧ 0 <= doe - ystart y < year_len y.
Proof.
  induction n as [|n IH]; intros Hn Hd; [change (ystart (Z.of_nat 0)) with 0 in Hd; lia|].
  destruct (Z.ltb_spec doe (ystart (Z.of_nat n))).
  - destruct IH as (y & Hy & ?); [lia..|]. exists y. lia.
  - exists (Z.of_nat n). rewrite Nat2Z.inj_succ, <-Z.add_1_r, ystart_next in Hd by lia. lia.
Qed.

Lemma find_year doe :
  0 <= doe < 146097 → ∃ y doy, doe = ystart y + doy ∧ 0 <= y < 400 ∧ 0 <= doy < year_len y.
Proof.
  intros Hd. destruct (find_year_below 400 doe) as (y & Hy & Hdoy); [lia|exact Hd|].
  exists y, (doe - ystart y). lia.
Qed.

(** A monotone function that is right on the first and on the last day of every
    year is right in between. *)
Lemma year_between (f : Z → Z) (last : Z → Z) :
  (∀ a b, 0 <= a <= b → b < 146097 → f a <= f b) →
  all_from (λ y, (f (ystart y) =? y) && (f (ystart y + last y) =? y) &&
                 (ystart y + last y <? 146097)) 400 0 = true →
  ∀ y doy, 0 <= y < 400 → 0 <= doy <= last y → f (ystart y + doy) = y.
Proof.
  intros Hm Hc y doy Hy Hd. pose proof (each_year _ y Hc Hy) as H. cbv beta in H.
  assert (0 <= ystart y) by (unfold ystart; Z.div_mod_to_equations; lia).
  pose proof (Hm (ystart y) (ystart y + doy)). pose proof (Hm (ystart y + doy) (ystart y + last y)).
  lia.
Qed.

Lemma leap_shift y k : leap (y + 400 * k) = leap y.
Proof.
  unfold leap.
  replace ((y + 400 * k) mod 4) with (y mod 4) by (Z.div_mod_to_equations; lia).
  replace ((y + 400 * k) mod 100) with (y mod 100) by (Z.div_mod_to_equations; lia).
  replace ((y + 400 * k) mod 400) with (y mod 400) by (Z.div_mod_to_equations; lia). done.
Qed.

Lemma next_day_shift k dt : next_day (shift_years (400 * k) dt) = shift_years (400 * k) (next_day dt).
Proof.
  destruct dt as [[y m] d]. unfold shift_years, next_day, days_in_month. rewrite leap_shift.
  destruct (_ <? _); [done|]. destruct (m <? 12); [done|]. do 2 f_equal. lia.
Qed.

(** The year computed by [civil_doe]. *)
Definition ref_yoe (doe : Z) : Z := (doe - doe / 1460 + doe / 36524 - doe / 146096) / 365.

Lemma ref_yoe_ok y doy : 0 <= y < 400 → 0 <= doy < year_len y → ref_yoe (ystart y + doy) = y.
Proof.
  intros Hy Hd. apply (year_between ref_yoe (λ y, year_len y - 1)); [|vm_compute; reflexivity|done|lia].
  intros a b Hab Hb. unfold ref_yoe. apply Z.div_le_mono; [lia|]. Z.div_mod_to_equations. lia.
Qed.

Lemma civil_doe_march y doy :
  0 <= y < 400 → 0 <= doy < year_len y → civil_doe (ystart y + doy) = march_date y doy.
Proof.
  intros Hy Hd. unfold civil_doe. fold (ref_yoe (ystart y + doy)). rewrite ref_yoe_ok by done.
  replace (ystart y + doy - (365 * y + y / 4 - y / 100)) with doy.
  - unfold march_date, month_day. done.
  - unfold ystart. Z.div_mod_to_equations. lia.
Qed.

(** Month lengths of the year that starts in March, the last one given. *)
Definition march_step (feb doy : Z) : bool :=
  let '(m, d) := month_day doy in
  let len := if m =? 2 then feb
             else if (m =? 4) || (m =? 6) || (m =? 9) || (m =? 11) then 30 else 31 in
  (1 <=? m) && (m <=? 12) && (1 <=? d) &&
  if doy =? 336 + feb then (m =? 2) && (d =? feb)
  else if 336 + feb <? doy then true
  else bool_decide (month_day (doy + 1) =
         if d <? len then (m, d + 1) else if m <? 12 then (m + 1, 1) else (1, 1)) &&
       (d <=? len) && (if m =? 12 then true else negb (m =? 2) || (d <? feb)).

Lemma march_checked feb doy :
  feb = 28 ∨ feb = 29 → 0 <= doy < 366 → march_step feb doy = true.
Proof.
  intros [->| ->]; refine (λ H, each_doy _ doy _ H); vm_compute; reflexivity.
Qed.

Lemma march_next y doy :
  0 <= doy < year_len y →
  next_day (march_date y doy) =
    if doy =? year_len y - 1 then (y + 1, 3, 1) else march_date y (doy + 1).
Proof.
  intros Hd. set (feb := if leap (y + 1) then 29 else 28).
  assert (Hl : year_len y = 337 + feb) by (unfold year_len, feb; destruct (leap _); lia).
  assert (Hf : feb = 28 ∨ feb = 29) by (unfold feb; destruct (leap _); auto).
  pose proof (march_checked feb doy Hf) as H. pose proof (year_len_range y).
  specialize (H ltac:(lia)). unfold march_step in H. unfold march_date.
  destruct (month_day doy) as [m d]. unfold next_day, days_in_month.
  destruct (Z.eqb_spec doy (year_len y - 1)) as [E|E].
  - replace (doy =? 336 + feb) with true in H by lia. assert (m = 2 ∧ d = feb) as [-> ->] by lia.
    cbn [Z.leb Z.eqb]. fold feb. by rewrite Z.ltb_irrefl.
  - replace (doy =? 336 + feb) with false in H by lia.
    replace (336 + feb <? doy) with false in H by lia.
    rewrite !andb_true_iff, bool_decide_eq_true in H. destruct H as (H & (Hm & Hlen) & Hm12).
    rewrite Hm. destruct (Z.eqb_spec m 2) as [->|Hm2].
    + change (if 2 <=? 2 then 1 else 0) with 1. fold feb. change ((d <? feb) = true) in Hm12.
      cbn [Z.eqb Pos.eqb]. by rewrite Hm12.
    + destruct (_ <? _); [done|]. destruct (Z.ltb_spec m 12).
      * replace (m + 1 <=? 2) with (m <=? 2) by lia. done.
      * replace (m <=? 2) with false by lia. cbn. do 2 f_equal. lia.
Qed.

Lemma march_date_0 y : march_date y 0 = (y, 3, 1).
Proof. change (march_date y 0) with (y + 0, 3, 1). by rewrite Z.add_0_r. Qed.

Lemma civil_next days : civil (days + 1) = next_day (civil days).
Proof.
  unfold civil. rewrite next_day_shift.
  replace (days + 1 + 719468) with (days + 719468 + 1) by lia. set (z := days + 719468).
  assert (Hr : 0 <= z mod 146097 < 146097) by (apply Z.mod_pos_bound; lia).
  destruct (find_year _ Hr) as (y & doy & E & Hy & Hd). rewrite E, civil_doe_march, march_next by done.
  pose proof (ystart_next y Hy) as Hn. pose proof (year_len_range y).
  destruct (Z.eqb_spec doy (year_len y - 1)) as [El|El]; [destruct (Z.eqb_spec y 399) as [->|Hy9]|].
  - change (ystart 399) with 145731 in E. change (year_len 399) with 366 in El.
    replace ((z + 1) / 146097) with (z / 146097 + 1) by (Z.div_mod_to_equations; lia).
    replace ((z + 1) mod 146097) with 0 by (Z.div_mod_to_equations; lia).
    change (civil_doe 0) with (0, 3, 1). unfold shift_years. do 2 f_equal. lia.
  - assert (ystart (y + 1) + 365 <= 146097).
    { pose proof (ystart_next (y + 1) ltac:(lia)). pose proof (year_len_range (y + 1)).
      assert (ystart (y + 1 + 1) <= 146097) by (unfold ystart; Z.div_mod_to_equations; lia). lia. }
    replace ((z + 1) / 146097) with (z / 146097) by (Z.div_mod_to_equations; lia).
    replace ((z + 1) mod 146097) with (ystart (y + 1) + 0) by (Z.div_mod_to_equations; lia).
    pose proof (year_len_range (y + 1)). by rewrite civil_doe_march, march_date_0 by lia.
  - assert (ystart y + year_len y <= 146097).
    { rewrite <-Hn. unfold ystart. Z.div_mod_to_equations. lia. }
    replace ((z + 1) / 146097) with (z / 146097) by (Z.div_mod_to_equations; lia).
    replace ((z + 1) mod 146097) with (ystart y + (doy + 1)) by (Z.div_mod_to_equations; lia).
    by rewrite civil_doe_march by lia.
Qed.

(** ** The code against the calendar *)

(** The body of [daysToYMD] after the era is known. *)
Definition source_doe (doe : Z) : date :=
  let yoe := Z.quot (doe - Z.quot doe 1461 + Z.quot doe 36524) 365 in
  let doy := doe - (365 * yoe + Z.quot yoe 4 - Z.quot yoe 100) in
  let mp := Z.quot (5 * doy + 2) 153 in
  let m := mp + (if mp <? 10 then 3 else -9) in
  (yoe + (if m <=? 2 then 1 else 0), m, doy - Z.quot (153 * mp + 2) 5 + 1).

(** Years that fit in [int32_t] with room to spare. *)
Definition day_range (days : Z) : Prop := -7 * 10 ^ 11 <= days <= 7 * 10 ^ 11.

#[local] Instance day_range_dec days : Decision (day_range days).
Proof. unfold day_range. apply _. Defined.

Lemma daysToYMD_doe days :
  daysToYMD days =
    let z := days + 719468 in
    let '(y, m, d) := shift_years (400 * (z / 146097)) (source_doe (z mod 146097)) in
    (i32 y, i32 m, i32 d).
Proof.
  unfold daysToYMD. set (z := days + 719468). cbv zeta.
  assert (Z.quot (if 0 <=? z then z else z - 146097 + 1) 146097 = z / 146097) as ->.
  { destruct (Z.leb_spec 0 z); Z.to_euclidean_division_equations; lia. }
  replace (z - z / 146097 * 146097) with (z mod 146097) by (Z.div_mod_to_equations; lia).
  unfold source_doe, shift_years. do 3 f_equal. lia.
Qed.

(** What the code answers for a calendar date. *)
Definition decoded (dt : date) : date :=
  match dt with
  | (y, 2, 29) => (y, 3, if y mod 400 =? 0 then 1 else 0)
  | _ => dt
  end.

Lemma i64_small z : - 2 ^ 63 <= z < 2 ^ 63 → i64 z = z.
Proof.
  intros Hz. unfold i64, to_signed. change (64 - 1) with 63.
  destruct (Z.leb_spec 0 z).
  - rewrite Z.mod_small by lia. by guard_true.
  - replace (z mod 2 ^ 64) with (z + 2 ^ 64) by (Z.div_mod_to_equations; lia). guard_false. lia.
Qed.

Lemma decoded_other y m d : ¬ (m = 2 ∧ d = 29) → decoded (y, m, d) = (y, m, d).
Proof.
  intros Hl. unfold decoded. destruct (Z.eqb_spec m 2) as [->|Hm].
  - destruct (Z.eqb_spec d 29) as [->|Hn]; [by destruct Hl|]. repeat case_match; simplify_eq; done.
  - repeat case_match; simplify_eq; done.
Qed.

Definition source_yoe (doe : Z) : Z := Z.quot (doe - Z.quot doe 1461 + Z.quot doe 36524) 365.

Lemma source_yoe_ok y doy : 0 <= y < 400 → 0 <= doy <= 364 → source_yoe (ystart y + doy) = y.
Proof.
  intros Hy Hd. apply (year_between source_yoe (λ _, 364)); [|vm_compute; reflexivity|done|lia].
  intros a b Hab Hb. unfold source_yoe. apply Z.quot_le_mono; [lia|].
  Z.to_euclidean_division_equations. lia.
Qed.

(** Month and day as the source computes them, all but the last day of a leap
    year. *)
Definition source_month_day (doy : Z) : Z * Z :=
  let mp := Z.quot (5 * doy + 2) 153 in
  (mp + (if mp <? 10 then 3 else -9), doy - Z.quot (153 * mp + 2) 5 + 1).

Definition source_month_ok (doy : Z) : bool :=
  let '(m, d) := source_month_day doy in
  bool_decide (source_month_day doy = month_day doy) &&
  (1 <=? m) && (m <=? 12) && (1 <=? d) && (d <=? 31) &&
  (negb ((m =? 2) && (d =? 29)) || (doy =? 365)).

Lemma source_month_checked doy : 0 <= doy < 366 → source_month_ok doy = true.
Proof. apply each_doy. vm_compute. reflexivity. Qed.

(** 29 February, the last day of its year. *)
Definition leap_day_ok (y : Z) : bool :=
  if year_len y =? 366 then
    bool_decide (source_doe (ystart y + 365) = (y + 1, 3, if (y + 1) mod 400 =? 0 then 1 else 0)) &&
    bool_decide (march_date y 365 = (y + 1, 2, 29))
  else true.

Lemma leap_day_checked y : 0 <= y < 400 → leap_day_ok y = true.
Proof. apply each_year. vm_compute. reflexivity. Qed.

(** Dates whose components are those of a year of the era. *)
Definition era_date (dt : date) : Prop :=
  let '(y, m, d) := dt in 0 <= y <= 400 ∧ 1 <= m <= 12 ∧ 0 <= d <= 31.

Lemma source_doe_spec doe :
  0 <= doe < 146097 →
  source_doe doe = decoded (civil_doe doe) ∧ era_date (source_doe doe) ∧ era_date (civil_doe doe).
Proof.
  intros Hd. destruct (find_year doe Hd) as (y & doy & -> & Hy & Hdoy).
  rewrite civil_doe_march by done. pose proof (year_len_range y).
  destruct (Z.eqb_spec doy 365) as [->|Hne].
  - pose proof (leap_day_checked y Hy) as H1. unfold leap_day_ok in H1.
    replace (year_len y =? 366) with true in H1 by lia.
    rewrite andb_true_iff, !bool_decide_eq_true in H1. destruct H1 as [-> ->].
    split; [done|]. unfold era_date. destruct (_ =? 0); lia.
  - pose proof (source_month_checked doy ltac:(lia)) as H1. unfold source_month_ok in H1.
    assert (E : source_doe (ystart y + doy) =
              let '(m, d) := source_month_day doy in (y + (if m <=? 2 then 1 else 0), m, d)).
    { unfold source_doe. fold (source_yoe (ystart y + doy)). rewrite source_yoe_ok by lia.
      replace (ystart y + doy - (365 * y + Z.quot y 4 - Z.quot y 100)) with doy; [done|].
      unfold ystart. Z.to_euclidean_division_equations. lia. }
    rewrite E. unfold march_date. destruct (source_month_day doy) as [m d].
    rewrite !andb_true_iff, bool_decide_eq_true in H1. destruct H1 as (((((<- & ?) & ?) & ?) & ?) & Hl).
    split_and!; [|unfold era_date; case_match; lia..].
    symmetry. apply decoded_other. lia.
Qed.

Lemma i32_small z : - 2 ^ 31 <= z < 2 ^ 31 → i32 z = z.
Proof.
  intros Hz. unfold i32, to_signed. change (32 - 1) with 31.
  destruct (Z.leb_spec 0 z).
  - rewrite Z.mod_small by lia. by guard_true.
  - replace (z mod 2 ^ 32) with (z + 2 ^ 32) by (Z.div_mod_to_equations; lia). guard_false. lia.
Qed.

Lemma decoded_shift k dt :
  decoded (shift_years (400 * k) dt) = shift_years (400 * k) (decoded dt).
Proof.
  destruct dt as [[y m] d]. unfold decoded, shift_years.
  replace ((y + 400 * k) mod 400) with (y mod 400) by (Z.div_mod_to_equations; lia).
  repeat case_match; simplify_eq; done.
Qed.

Lemma daysToYMD_civil days : day_range days → daysToYMD days = decoded (civil days).
Proof.
  intros Hd. rewrite daysToYMD_doe. cbv zeta. unfold civil.
  set (z := days + 719468). rewrite decoded_shift.
  assert (Hr : 0 <= z mod 146097 < 146097) by (apply Z.mod_pos_bound; lia).
  destruct (source_doe_spec _ Hr) as (H & Hb & _). rewrite <-H.
  destruct (source_doe (z mod 146097)) as [[y m] d]. cbn [shift_years]. unfold era_date in Hb.
  unfold day_range in Hd.
  assert (-1916660000 <= 400 * (z / 146097) <= 1916660000) by (Z.div_mod_to_equations; lia).
  rewrite !i32_small by lia. done.
Qed.

(** A day count is decoded into its Gregorian date, except that every 29
    February comes out as "March 0", and as March 1 in years divisible by 400. *)
Theorem daysToYMD_spec days y m d :
  day_range days → civil days = (y, m, d) →
  (extractYear days, extractMonth days, extractDay days) =
    (if (m =? 2) && (d =? 29) then (y, 3, if y mod 400 =? 0 then 1 else 0) else (y, m, d)) ∧
  civil 0 = (1970, 1, 1) ∧ civil (days + 1) = next_day (y, m, d).
Proof.
  intros Hd Hc. unfold extractYear, extractMonth, extractDay.
  rewrite daysToYMD_civil, civil_next, Hc by done. split; [|done].
  destruct (Z.eqb_spec m 2) as [->|Hm], (Z.eqb_spec d 29) as [->|Hn]; cbn [andb]; [done|..];
    by rewrite decoded_other by naive_solver.
Qed.

Lemma daysToYMD_spec_witness :
  civil 19782 = (2024, 2, 29) ∧
  (extractYear 19782, extractMonth 19782, extractDay 19782) = (2024, 3, 0).
Proof.
  assert (H : civil 19782 = (2024, 2, 29)) by reflexivity.
  split; [exact H|].
  exact (proj1 (daysToYMD_spec 19782 2024 2 29 ltac:(unfold day_range; lia) H)).
Defined.

(** The sum of [ymdToDays] for a year with its era split off. *)
Definition doe_of (yoe m d : Z) : Z :=
  let doy := u32 (u32 (Z.quot (153 * (m + (if 2 <? m then -3 else 9)) + 2) 5) + u32 d - 1) in
  u32 (yoe * 365 + yoe / 4 - yoe / 100 + doy).

Lemma ymdToDays_era y m d :
  - 2 ^ 31 < y < 2 ^ 31 →
  ymdToDays y m d =
    let y' := y - (if m <=? 2 then 1 else 0) in
    (y' / 400) * 146097 + doe_of (y' mod 400) m d - 719468.
Proof.
  intros Hy. unfold ymdToDays, doe_of. rewrite (i32_small (y - _)) by (destruct (m <=? 2); lia).
  cbv zeta. set (y' := y - _).
  assert (Z.quot (if 0 <=? y' then y' else y' - 399) 400 = y' / 400) as ->.
  { destruct (Z.leb_spec 0 y'); Z.to_euclidean_division_equations; lia. }
  replace (y' - y' / 400 * 400) with (y' mod 400) by (Z.div_mod_to_equations; lia).
  assert (u32 (y' mod 400) = y' mod 400) as ->; [|done].
  apply Z.mod_small. pose proof (Z.mod_pos_bound y' 400). lia.
Qed.

Lemma ymdToDays_shift y m d k :
  - 2 ^ 31 < y < 2 ^ 31 → - 2 ^ 31 < y + 400 * k < 2 ^ 31 →
  ymdToDays (y + 400 * k) m d = ymdToDays y m d + 146097 * k.
Proof.
  intros Hy Hk. rewrite !ymdToDays_era by done. cbv zeta.
  set (c := if m <=? 2 then 1 else 0).
  replace ((y + 400 * k - c) / 400) with ((y - c) / 400 + k) by (Z.div_mod_to_equations; lia).
  replace ((y + 400 * k - c) mod 400) with ((y - c) mod 400) by (Z.div_mod_to_equations; lia).
  lia.
Qed.

(** The day of the year from the month and the day. *)
Definition month_back_ok (doy : Z) : bool :=
  let '(m, d) := month_day doy in
  u32 (u32 (Z.quot (153 * (m + (if 2 <? m then -3 else 9)) + 2) 5) + u32 d - 1) =? doy.

Lemma month_back_checked doy : 0 <= doy < 366 → month_back_ok doy = true.
Proof. apply each_doy. vm_compute. reflexivity. Qed.

Lemma ymd_civil_doe doe :
  0 <= doe < 146097 →
  let '(y, m, d) := civil_doe doe in ymdToDays y m d = doe - 719468.
Proof.
  intros Hd. destruct (find_year doe Hd) as (y & doy & -> & Hy & Hdoy).
  rewrite civil_doe_march by done. pose proof (year_len_range y).
  pose proof (month_back_checked doy ltac:(lia)) as Hb. unfold month_back_ok in Hb.
  unfold march_date. destruct (month_day doy) as [m d]. apply Z.eqb_eq in Hb.
  rewrite ymdToDays_era by (destruct (m <=? 2); lia). cbv zeta.
  replace (y + (if m <=? 2 then 1 else 0) - (if m <=? 2 then 1 else 0)) with y by lia.
  rewrite Z.div_small, (Z.mod_small y) by lia. unfold doe_of. rewrite Hb. cbv zeta.
  unfold u32. rewrite Z.mod_small; unfold ystart; Z.div_mod_to_equations; lia.
Qed.

(** The year of a day in range. *)
Lemma civil_year_range days :
  day_range days → let '(y, _, _) := civil_doe ((days + 719468) mod 146097) in
  0 <= y <= 400 ∧ - 2 ^ 31 < y + 400 * ((days + 719468) / 146097) < 2 ^ 31.
Proof.
  intros Hd. set (z := days + 719468).
  assert (Hr : 0 <= z mod 146097 < 146097) by (apply Z.mod_pos_bound; lia).
  destruct (source_doe_spec _ Hr) as (_ & _ & Hb).
  destruct (civil_doe (z mod 146097)) as [[y m] d]. unfold era_date in Hb.
  unfold day_range in Hd.
  assert (-1916660000 <= 400 * (z / 146097) <= 1916660000) by (Z.div_mod_to_equations; lia).
  split; lia.
Qed.

Lemma ymdToDays_civil_raw days y m d :
  day_range days → civil days = (y, m, d) → ymdToDays y m d = days.
Proof.
  intros Hd Hc. pose proof (civil_year_range days Hd) as Hy.
  unfold civil in Hc. set (z := days + 719468) in *.
  assert (Hr : 0 <= z mod 146097 < 146097) by (apply Z.mod_pos_bound; lia).
  pose proof (ymd_civil_doe _ Hr) as H.
  destruct (civil_doe (z mod 146097)) as [[y0 m0] d0].
  cbn [shift_years] in Hc. simplify_eq. destruct Hy as [Hy Hy'].
  rewrite ymdToDays_shift by lia. rewrite H. unfold z in *. Z.div_mod_to_equations. lia.
Qed.

(** Encoding is right on the whole calendar, and inverts decoding on every
    day that is not a 29 February. *)
Theorem ymdToDays_roundtrip days y m d :
  day_range days → civil days = (y, m, d) →
  ymdToDays y m d = days ∧
  (¬ (m = 2 ∧ d = 29) →
   ymdToDays (extractYear days) (extractMonth days) (extractDay days) = days).
Proof.
  intros Hd Hc. split; [by apply ymdToDays_civil_raw|]. intros Hl.
  unfold extractYear, extractMonth, extractDay. rewrite daysToYMD_civil, Hc by done.
  rewrite decoded_other by done. by apply ymdToDays_civil_raw.
Qed.

Lemma ymdToDays_roundtrip_witness :
  civil 20000 = (2024, 10, 4) ∧ ymdToDays 2024 10 4 = 20000.
Proof.
  assert (H : civil 20000 = (2024, 10, 4)) by reflexivity. split; [exact H|].
  exact (proj1 (ymdToDays_roundtrip 20000 2024 10 4 ltac:(unfold day_range; lia) H)).
Defined.

(** ** Times of day *)

(** The microsecond count of the components. *)
Definition recompose (us : Z) : Z :=
  ((timestamp_days us * 24 + extractTimestampHour us) * 60 + extractTimestampMinute us) * 60 * 1000000
  + extractTimestampSecond us * 1000000 + extractTimestampMicrosecond us.

(** The day and time components of a timestamp always add up to it; from
    1970 on they are in their clock ranges, before 1970 none of them is
    positive: the day is rounded up and the time of day runs backwards. *)
Theorem timestamp_recomposes us :
  recompose us = us ∧
  (0 <= us → 0 <= extractTimestampHour us < 24 ∧ 0 <= extractTimestampMinute us < 60 ∧
     0 <= extractTimestampSecond us < 60 ∧ 0 <= extractTimestampMicrosecond us < 1000000 ∧
     extractMillisecond us = extractTimestampMicrosecond us / 1000) ∧
  (us < 0 → timestamp_days us <= 0 ∧ extractTimestampHour us <= 0 ∧
     extractTimestampMinute us <= 0 ∧ extractTimestampSecond us <= 0 ∧
     extractTimestampMicrosecond us <= 0).
Proof.
  unfold recompose, extractTimestampHour, extractTimestampMinute, extractTimestampSecond,
    extractTimestampMicrosecond, extractHour, extractMinute, extractSecond, extractMicrosecond,
    extractMillisecond, timestamp_days. change (1000000 * 86400) with 86400000000.
  rewrite !i32_small by (Z.to_euclidean_division_equations; lia).
  split_and!; [|intros H; split_and!..|intros H; split_and!];
    Z.to_euclidean_division_equations; lia.
Qed.

Lemma timestamp_recomposes_witness :
  recompose (-1) = -1 ∧ extractTimestampMicrosecond (-1) <= 0.
Proof.
  destruct (timestamp_recomposes (-1)) as (H & _ & Hn). split; [exact H|].
  apply Hn. reflexivity.
Defined.

(** ** UUIDs *)

Lemma lor_add n a b : 0 <= n → a mod 2 ^ n = 0 → 0 <= b < 2 ^ n → Z.lor a b = a + b.
Proof.
  intros Hn Ha Hb. set (q := a / 2 ^ n).
  assert (E : a = 2 ^ n * q).
  { unfold q. pose proof (Z.div_mod a (2 ^ n) ltac:(apply Z.pow_nonzero; lia)). lia. }
  rewrite Z.lor_comm. replace a with (Z.shiftl q n) at 1.
  - rewrite lor_shiftl_add by done. lia.
  - rewrite Z.shiftl_mul_pow2 by done. lia.
Qed.

(** The big-endian value of some bytes. *)
Fixpoint be_val (acc : Z) (bs : bytes) : Z :=
  match bs with [] => acc | b :: bs => be_val (acc * 256 + byte_val b) bs end.

Definition uuid_time_100ns (u : bytes) : Z :=
  2 ^ 48 * ((byte_val (nth 6 u Byte.x00) mod 16) * 256 + byte_val (nth 7 u Byte.x00)) +
  2 ^ 32 * be_val 0 (take 2 (drop 4 u)) + be_val 0 (take 4 u).

Lemma lor_pair a b : 0 <= b < 256 → Z.lor (a * 256) b = a * 256 + b.
Proof. intros. apply (lor_add 8); [lia| |lia]. Z.div_mod_to_equations. lia. Qed.

Lemma lor_quad a b c d :
  0 <= b < 256 → 0 <= c < 256 → 0 <= d < 256 →
  Z.lor (Z.lor (Z.lor (a * 16777216) (b * 65536)) (c * 256)) d = ((a * 256 + b) * 256 + c) * 256 + d.
Proof.
  intros. rewrite (lor_add 24 (a * 16777216)) by (first [lia | Z.div_mod_to_equations; lia]).
  rewrite (lor_add 16 (_ + _)) by (first [lia | Z.div_mod_to_equations; lia]).
  rewrite (lor_add 8) by (first [lia | Z.div_mod_to_equations; lia]). lia.
Qed.

Lemma lor_six a b c d e f :
  0 <= b < 256 → 0 <= c < 256 → 0 <= d < 256 → 0 <= e < 256 → 0 <= f < 256 →
  Z.lor (Z.lor (Z.lor (Z.lor (Z.lor (a * 1099511627776) (b * 4294967296)) (c * 16777216))
    (d * 65536)) (e * 256)) f = ((((a * 256 + b) * 256 + c) * 256 + d) * 256 + e) * 256 + f.
Proof.
  intros. rewrite (lor_add 40 (a * _)) by (first [lia | Z.div_mod_to_equations; lia]).
  rewrite (lor_add 32 (_ + _)) by (first [lia | Z.div_mod_to_equations; lia]).
  rewrite (lor_add 24 (_ + _)) by (first [lia | Z.div_mod_to_equations; lia]).
  rewrite (lor_add 16 (_ + _)) by (first [lia | Z.div_mod_to_equations; lia]).
  rewrite (lor_add 8 (_ + _)) by (first [lia | Z.div_mod_to_equations; lia]). lia.
Qed.

(** The version is the high nibble of byte 6; a version 7 UUID yields its
    48-bit millisecond timestamp, a version 1 UUID its 60-bit count of 100 ns
    since 1582 moved to the Unix epoch, others and earlier times nothing. *)
Theorem uuid_fields u :
  (16 <= length u)%nat →
  extractUUIDVersion u = byte_val (nth 6 u Byte.x00) / 16 ∧
  extractUUIDTimestamp u =
    if extractUUIDVersion u =? 7 then Some (be_val 0 (take 6 u) * 1000)
    else if extractUUIDVersion u =? 1 then
      if uuid_time_100ns u <? 122192928000000000 then None
      else Some ((uuid_time_100ns u - 122192928000000000) / 10)
    else None.
Proof.
  intros Hl.
  destruct u as [|b0 [|b1 [|b2 [|b3 [|b4 [|b5 [|b6 [|b7 u]]]]]]]]; try (cbn in Hl; lia).
  unfold extractUUIDTimestamp, extractUUIDVersion, uuid_time_100ns.
  replace (blen _ <? 16) with false by (cbn in *; lia). unfold uuid_byte. cbn [nth].
  pose proof (byte_val_range b0). pose proof (byte_val_range b1). pose proof (byte_val_range b2).
  pose proof (byte_val_range b3). pose proof (byte_val_range b4). pose proof (byte_val_range b5).
  pose proof (byte_val_range b6). pose proof (byte_val_range b7).
  assert (Hv : Z.land (Z.shiftr (byte_val b6) 4) 15 = byte_val b6 / 16).
  { change 15 with (Z.ones 4). rewrite Z.land_ones, Z.shiftr_div_pow2 by lia.
    change (2 ^ 4) with 16. apply Z.mod_small. Z.div_mod_to_equations. lia. }
  rewrite Hv. split; [done|]. cbn [take drop be_val].
  change (Z.land (byte_val b6) 15) with (Z.land (byte_val b6) (Z.ones 4)).
  rewrite Z.land_ones, !Z.shiftl_mul_pow2 by lia.
  change (2 ^ 4) with 16. change (2 ^ 8) with 256. change (2 ^ 16) with 65536.
  change (2 ^ 24) with 16777216. change (2 ^ 32) with 4294967296.
  change (2 ^ 40) with 1099511627776. change (2 ^ 48) with 281474976710656.
  destruct (Z.eqb_spec (byte_val b6 / 16) 7) as [->|]; cbn [Z.eqb Pos.eqb negb andb].
  - rewrite lor_six by done. unfold u64. rewrite Z.mod_small by lia. by rewrite i64_small by lia.
  - destruct (Z.eqb_spec (byte_val b6 / 16) 1); cbn [negb andb]; [|done].
    rewrite lor_quad, !lor_pair by done. unfold u64.
    assert (0 <= byte_val b6 mod 16 < 16) by (apply Z.mod_pos_bound; lia).
    rewrite (Z.mod_small (_ * 281474976710656)) by lia.
    rewrite (lor_add 48 (_ * 281474976710656)) by (first [lia | Z.div_mod_to_equations; lia]).
    rewrite (lor_add 32) by (first [lia | Z.div_mod_to_equations; lia]).
    match goal with |- (if ?x <? _ then _ else _) = (if ?y <? _ then _ else _) =>
      replace x with y by lia end.
    case_match; [done|]. by rewrite i64_small by (Z.div_mod_to_equations; lia).
Qed.

(** The first bytes of a version 7 UUID made at 2024-01-01. *)
Lemma uuid_fields_witness :
  let u := [Byte.x01; Byte.x8c; Byte.xc2; Byte.x51; Byte.xf4; Byte.x00; Byte.x7a; Byte.x00] ++
           replicate 8 Byte.x80 in
  (16 <= length u)%nat ∧ extractUUIDTimestamp u = Some 1704067200000000.
Proof.
  intros u. assert (H : (16 <= length u)%nat) by (cbn; lia). split; [exact H|].
  exact (proj2 (uuid_fields u H)).
Defined.

(** ** ISO weeks *)

(** Days before year [t] of the era count, and the first day of a year. *)
Definition year_days (t : Z) : Z := 365 * t + t / 4 - t / 100 + t / 400.
Definition jan1 (y : Z) : Z := year_days (y - 1) + 306 - 719468.

Lemma ymdToDays_closed y m d :
  - 2 ^ 31 < y < 2 ^ 31 → 1 <= m <= 12 → 1 <= d <= 31 →
  ymdToDays y m d =
    year_days (y - (if m <=? 2 then 1 else 0)) + (153 * (m + (if 2 <? m then -3 else 9)) + 2) / 5
    + d - 1 - 719468.
Proof.
  intros Hy Hm Hd. rewrite ymdToDays_era by done. cbv zeta. set (t := y - _).
  unfold doe_of, u32. assert (0 <= m + (if 2 <? m then -3 else 9) <= 11).
  { destruct (Z.ltb_spec 2 m); lia. }
  set (k := m + _) in *. rewrite Z.quot_div_nonneg by lia.
  assert (0 <= (153 * k + 2) / 5 <= 337) by (Z.div_mod_to_equations; lia).
  rewrite (Z.mod_small ((153 * k + 2) / 5)), (Z.mod_small d) by lia.
  rewrite (Z.mod_small (_ + d - 1)) by lia.
  pose proof (Z.mod_pos_bound t 400 ltac:(lia)).
  rewrite Z.mod_small by (Z.div_mod_to_equations; lia).
  unfold year_days. Z.div_mod_to_equations. lia.
Qed.

Lemma jan1_ymd y : - 2 ^ 31 < y < 2 ^ 31 → ymdToDays y 1 1 = jan1 y.
Proof.
  intros. rewrite ymdToDays_closed by lia. unfold jan1. change (if 1 <=? 2 then 1 else 0) with 1.
  change ((153 * (1 + (if 2 <? 1 then -3 else 9)) + 2) / 5) with 306. lia.
Qed.

Lemma dec31_ymd y : - 2 ^ 31 < y < 2 ^ 31 → ymdToDays y 12 31 = jan1 (y + 1) - 1.
Proof.
  intros. rewrite ymdToDays_closed by lia. unfold jan1. change (if 12 <=? 2 then 1 else 0) with 0.
  change ((153 * (12 + (if 2 <? 12 then -3 else 9)) + 2) / 5) with 275.
  replace (y + 1 - 1) with (y - 0) by lia. lia.
Qed.

Lemma jan1_next y : jan1 (y + 1) = jan1 y + (if leap y then 366 else 365).
Proof.
  unfold jan1, year_days, leap.
  destruct (Z.eqb_spec (y mod 4) 0), (Z.eqb_spec (y mod 100) 0), (Z.eqb_spec (y mod 400) 0); cbn;
    Z.div_mod_to_equations; lia.
Qed.

Lemma jan1_mono a b : a <= b → jan1 a <= jan1 b.
Proof. intros. unfold jan1, year_days. Z.div_mod_to_equations. lia. Qed.

Lemma isLeapYear_leap y : isLeapYear y = leap y.
Proof.
  unfold isLeapYear, leap.
  replace (Z.rem y 4 =? 0) with (y mod 4 =? 0) by (Z.to_euclidean_division_equations; lia).
  replace (Z.rem y 100 =? 0) with (y mod 100 =? 0) by (Z.to_euclidean_division_equations; lia).
  by replace (Z.rem y 400 =? 0) with (y mod 400 =? 0) by (Z.to_euclidean_division_equations; lia).
Qed.

Lemma day_of_week days : extractDayOfWeek days = (days + 4) mod 7.
Proof.
  unfold extractDayOfWeek. rewrite i32_small.
  - destruct (Z.ltb_spec (Z.rem (days + 4) 7) 0); Z.to_euclidean_division_equations; lia.
  - destruct (Z.ltb_spec (Z.rem (days + 4) 7) 0); Z.to_euclidean_division_equations; lia.
Qed.

(** The components of a date in range. *)
Lemma civil_components days y m d :
  day_range days → civil days = (y, m, d) →
  1 <= m <= 12 ∧ 1 <= d <= 31 ∧ - 2000000000 <= y <= 2000000000 ∧ days = ymdToDays y m d ∧
  (m = 2 → d <= if leap y then 29 else 28).
Proof.
  intros Hd Hc. pose proof (ymdToDays_civil_raw _ _ _ _ Hd Hc) as Hy.
  unfold civil in Hc. set (z := days + 719468) in *.
  assert (Hr : 0 <= z mod 146097 < 146097) by (apply Z.mod_pos_bound; lia).
  assert (-1916660000 <= 400 * (z / 146097) <= 1916660000)
    by (unfold day_range in Hd; Z.div_mod_to_equations; lia).
  destruct (source_doe_spec _ Hr) as (_ & _ & He).
  destruct (find_year _ Hr) as (t & doy & E & Ht & Hdoy). rewrite E in Hc, He.
  rewrite civil_doe_march in Hc, He by done. pose proof (year_len_range t).
  set (feb := if leap (t + 1) then 29 else 28).
  assert (Hf : feb = 28 ∨ feb = 29) by (unfold feb; destruct (leap _); auto).
  assert (Hl : year_len t = 337 + feb) by (unfold year_len, feb; destruct (leap _); lia).
  pose proof (march_checked feb doy Hf ltac:(lia)) as Hm. unfold march_step in Hm.
  pose proof (source_month_checked doy ltac:(lia)) as Hs. unfold source_month_ok in Hs.
  unfold march_date in *. destruct (source_month_day doy) as [m1 d1].
  rewrite !andb_true_iff, bool_decide_eq_true in Hs. destruct Hs as (((((Es & ?) & ?) & ?) & ?) & _).
  rewrite <-Es in Hc, He, Hm. unfold era_date in He. cbn [shift_years] in Hc.
  injection Hc as <- <- <-. split_and!; [lia..|by rewrite Hy|]. intros ->.
  change (if 2 <=? 2 then 1 else 0) with 1. rewrite leap_shift. fold feb.
  destruct (Z.eqb_spec doy (336 + feb)); [lia|].
  replace (336 + feb <? doy) with false in Hm by lia.
  apply andb_true_iff in Hm as [_ Hm]. apply andb_true_iff in Hm as [_ Hm].
  change ((d1 <? feb) = true) in Hm. lia.
Qed.

(** The day of the year, of a date and as the code computes it. *)
Definition before_month (y m : Z) : Z :=
  (153 * (m + (if 2 <? m then -3 else 9)) + 2) / 5 - 306 +
  (if 2 <? m then (if leap y then 366 else 365) else 0).

Lemma civil_year_bounds days y m d :
  day_range days → civil days = (y, m, d) →
  days = jan1 y + before_month y m + d - 1 ∧ jan1 y <= days < jan1 (y + 1) ∧
  1 <= m <= 12 ∧ 1 <= d <= 31 ∧ - 2000000000 <= y <= 2000000000.
Proof.
  intros Hd Hc. destruct (civil_components _ _ _ _ Hd Hc) as (Hm & Hdd & Hy & E & Hf).
  rewrite ymdToDays_closed in E by lia. pose proof (jan1_next y) as Hn. unfold before_month.
  assert (Hj : year_days y = jan1 (y + 1) - 306 + 719468) by (unfold jan1; replace (y + 1 - 1) with y by lia; lia).
  assert (Hj' : year_days (y - 1) = jan1 y - 306 + 719468) by (unfold jan1; lia).
  assert (m = 1 ∨ m = 2 ∨ 3 <= m) as [->|[->|Hm3]] by lia.
  - change (if 1 <=? 2 then 1 else 0) with 1 in E. change (2 <? 1) with false in *. cbv iota in *.
    change ((153 * (1 + 9) + 2) / 5) with 306 in *. destruct (leap y); lia.
  - specialize (Hf eq_refl). change (if 2 <=? 2 then 1 else 0) with 1 in E.
    change (2 <? 2) with false in *. cbv iota in *.
    change ((153 * (2 + 9) + 2) / 5) with 337 in *. destruct (leap y); lia.
  - replace (m <=? 2) with false in E by lia. replace (2 <? m) with true in E |- * by lia.
    rewrite Z.sub_0_r in E.
    assert (0 <= (153 * (m + -3) + 2) / 5 <= 275) by (Z.div_mod_to_equations; lia).
    destruct (leap y); lia.
Qed.

(** 29 February of a year divisible by 400, the one day decoded as another. *)
Definition century_leap_day (dt : date) : bool :=
  let '(y, m, d) := dt in (m =? 2) && (d =? 29) && (y mod 400 =? 0).

Lemma before_month_table y m :
  1 <= m <= 12 →
  days_before_month !! Z.to_nat (m - 1) =
    Some (before_month y m - (if leap y && (2 <? m) then 1 else 0)).
Proof.
  intros Hm. unfold before_month.
  assert (m = 1 ∨ m = 2 ∨ m = 3 ∨ m = 4 ∨ m = 5 ∨ m = 6 ∨ m = 7 ∨ m = 8 ∨ m = 9 ∨ m = 10 ∨
    m = 11 ∨ m = 12) as Hc by lia.
  destruct (leap y); destruct_or! Hc; subst m; reflexivity.
Qed.

Lemma day_of_year days y m d :
  day_range days → civil days = (y, m, d) → century_leap_day (y, m, d) = false →
  extractDayOfYear days = Ret (days - jan1 y + 1) ∧ extractYear days = y.
Proof.
  intros Hd Hc Hl. destruct (civil_year_bounds _ _ _ _ Hd Hc) as (E & _ & Hm & Hdd & _).
  destruct (civil_components _ _ _ _ Hd Hc) as (_ & _ & _ & _ & Hf).
  unfold extractDayOfYear, extractYear. rewrite daysToYMD_civil, Hc by done.
  unfold century_leap_day in Hl. destruct (decide (m = 2 ∧ d = 29)) as [[-> ->]|Hn].
  - specialize (Hf eq_refl). change ((y mod 400 =? 0) = false) in Hl. cbn [decoded]. rewrite Hl. split; [|done].
    change (1 <=? 3) with true. cbv iota. rewrite (before_month_table y 3) by lia.
    rewrite isLeapYear_leap. unfold before_month in *. change (2 <? 3) with true in *.
    change (2 <? 2) with false in *. cbv iota in *.
    change ((153 * (3 + -3) + 2) / 5) with 0. change ((153 * (2 + 9) + 2) / 5) with 337 in E.
    destruct (leap y); cbn [andb]; f_equal; lia.
  - rewrite decoded_other by done. split; [|done]. replace (1 <=? m) with true by lia.
    rewrite (before_month_table y m) by done. rewrite isLeapYear_leap.
    destruct (leap y && (2 <? m)); f_equal; lia.
Qed.

(** The Thursday of the ISO week of a day. *)
Definition iso_thursday (days : Z) : Z := days - (days + 3) mod 7 + 3.

Lemma iso_day_of_week days : extractISODayOfWeek days = (days + 3) mod 7 + 1.
Proof.
  unfold extractISODayOfWeek. rewrite day_of_week.
  destruct (Z.eqb_spec ((days + 4) mod 7) 0); Z.div_mod_to_equations; lia.
Qed.

Lemma iso_weeks y :
  - 2000000001 <= y <= 2000000000 →
  isoWeeksInYear y =
    if ((jan1 (y + 1) + 3) mod 7 =? 4) || (leap y && ((jan1 (y + 1) + 3) mod 7 =? 5)) then 53 else 52.
Proof.
  intros Hy. unfold isoWeeksInYear. rewrite dec31_ymd, day_of_week, isLeapYear_leap by lia.
  by replace (jan1 (y + 1) - 1 + 4) with (jan1 (y + 1) + 3) by lia.
Qed.

(** The ISO week date follows the ISO 8601 definition: the year is that of
    the Thursday of the week, and the week counts the Thursdays of that year,
    on every day but the 29 Februaries of years divisible by 400. *)
Theorem iso_week_date days y m d :
  day_range days → civil days = (y, m, d) → century_leap_day (y, m, d) = false →
  ∃ iy, jan1 iy <= iso_thursday days < jan1 (iy + 1) ∧
    extractISOYear days = Ret iy ∧
    extractISOWeek days = Ret ((iso_thursday days - jan1 iy) / 7 + 1).
Proof.
  intros Hd Hc Hl. destruct (civil_year_bounds _ _ _ _ Hd Hc) as (_ & Hb & _ & _ & Hy).
  destruct (day_of_year _ _ _ _ Hd Hc Hl) as [Hdoy Hyear]. unfold extractYear in Hyear.
  unfold extractISOYear, extractISOWeek. destruct (daysToYMD days) as [[y0 m0] d0]. subst y0.
  rewrite Hdoy. cbn [mbind outcome_bind]. rewrite iso_day_of_week.
  pose proof (jan1_next y) as Hn. pose proof (jan1_next (y - 1)) as Hp.
  replace (y - 1 + 1) with y in Hp by lia.
  rewrite (iso_weeks (y - 1)), (iso_weeks y) by lia. replace (y - 1 + 1) with y by lia.
  unfold iso_thursday. set (w := (days + 3) mod 7). assert (Hw : 0 <= w < 7) by (apply Z.mod_pos_bound; lia).
  rewrite Z.quot_div_nonneg by lia.
  destruct (Z.ltb_spec ((days - jan1 y + 1 - (w + 1) + 10) / 7) 1) as [Hlow|Hlow].
  - exists (y - 1). replace (y - 1 + 1) with y by lia. split; [|split; [done|]].
    + Z.div_mod_to_equations; destruct (leap (y - 1)); lia.
    + f_equal. destruct (Z.eqb_spec ((jan1 y + 3) mod 7) 4), (Z.eqb_spec ((jan1 y + 3) mod 7) 5),
        (leap (y - 1)); cbn [andb orb]; unfold w in *; Z.div_mod_to_equations; lia.
  - match goal with |- context [if ?b then 53 else 52] => destruct b eqn:Hw53 end.
    + destruct (Z.ltb_spec 53 ((days - jan1 y + 1 - (w + 1) + 10) / 7)) as [Hhi|Hhi].
      * exfalso. destruct (leap y); unfold w in *; Z.div_mod_to_equations; lia.
      * exists y. split; [|split; [done|]].
        -- destruct (Z.eqb_spec ((jan1 (y + 1) + 3) mod 7) 4), (Z.eqb_spec ((jan1 (y + 1) + 3) mod 7) 5),
             (leap y); cbn [andb orb] in Hw53; try done; unfold w in *; Z.div_mod_to_equations; lia.
        -- f_equal. Z.div_mod_to_equations; lia.
    + destruct (Z.ltb_spec 52 ((days - jan1 y + 1 - (w + 1) + 10) / 7)) as [Hhi|Hhi].
      * exists (y + 1). pose proof (jan1_next (y + 1)). split; [|split; [done|]].
        -- destruct (leap (y + 1)), (leap y), (Z.eqb_spec ((jan1 (y + 1) + 3) mod 7) 4),
             (Z.eqb_spec ((jan1 (y + 1) + 3) mod 7) 5); cbn [andb orb] in Hw53; try done;
             unfold w in *; Z.div_mod_to_equations; lia.
        -- f_equal. destruct (leap y), (Z.eqb_spec ((jan1 (y + 1) + 3) mod 7) 4),
             (Z.eqb_spec ((jan1 (y + 1) + 3) mod 7) 5); cbn [andb orb] in Hw53; try done;
             unfold w in *; Z.div_mod_to_equations; lia.
      * exists y. split; [|split; [done|]].
        -- destruct (leap y); Z.div_mod_to_equations; lia.
        -- f_equal. Z.div_mod_to_equations; lia.
Qed.

(** Friday 2021-01-01 is in week 53 of 2020. *)
Lemma iso_week_date_witness :
  (civil 18628 = (2021, 1, 1) ∧ extractISOYear 18628 = Ret 2020 ∧ extractISOWeek 18628 = Ret 53) ∧
  ∃ iy, jan1 iy <= iso_thursday 18628 < jan1 (iy + 1) ∧ extractISOYear 18628 = Ret iy.
Proof.
  assert (H : civil 18628 = (2021, 1, 1)) by reflexivity.
  split; [split; [exact H|split; vm_compute; reflexivity]|].
  destruct (iso_week_date 18628 2021 1 1 ltac:(unfold day_range; lia) H eq_refl) as (iy & Hb & Hy & _).
  exists iy. split; [exact Hb|exact Hy].
Defined.
