(* ===== verification/Values.v ===== *)
(** * Column values as text

    Models the conversions of [src/connection.cpp]: fixed-width scalars, dates,
    times, intervals and UUIDs as text, the length prefix that is taken off byte
    strings, [stringifyValue] over all types, and the public type of a type
    identifier. Scalars are copied from memory: the machine is little-endian. *)

From S2P Require Import Prelude.
From S2P Require Import Text.
From S2P Require Import WireParse.
From S2P Require Import TypeExtractor.
From S2P Require Import Oids.

(** ** Output streams *)

(** [n / d] to the nearest integer, ties to even. *)
Definition round_div (n d : Z) : Z :=
  let q := n / d in
  match Z.compare (2 * (n mod d)) d with
  | Lt => q
  | Gt => q + 1
  | Eq => if Z.even q then q else q + 1
  end.

Definition scaled (num den k : Z) : Z :=
  if 0 <=? k then round_div (num * 10 ^ k) den else round_div num (den * 10 ^ (- k)).

Definition strip_zeros (s : bytes) : bytes := reverse (drop_while (λ b, bool_decide (b = "0"%byte)) (reverse s)).

Definition with_point (whole frac : bytes) : bytes :=
  if bool_decide (frac = []) then whole else whole ++ ["."%byte] ++ frac.

(** The default format of a stream ([%g], six significant digits) of a positive
    rational that is no smaller than a [double] can be. *)
Definition general6 (num den : Z) : bytes :=
  let x0 := blen (dec (num * 10 ^ 330 / den)) - 331 in
  let d0 := scaled num den (5 - x0) in
  let '(d, x) := if d0 =? 10 ^ 6 then (10 ^ 5, x0 + 1) else (d0, x0) in
  let digits := dec d in
  if (x <? -4) || (6 <=? x) then
    with_point (take 1 digits) (strip_zeros (drop 1 digits)) ++ ["e"%byte] ++
    [if x <? 0 then "-"%byte else "+"%byte] ++ pad 2 (dec (Z.abs x))
  else if 0 <=? x then
    with_point (take (Z.to_nat (x + 1)) digits) (strip_zeros (drop (Z.to_nat (x + 1)) digits))
  else with_point ("0" : bytes) (strip_zeros (replicate (Z.to_nat (- x - 1)) "0"%byte ++ digits)).

(** A number of IEEE 754 with [eb] exponent and [mb] mantissa bits. *)
Definition float_text (eb mb bits : Z) : bytes :=
  let sign := if Z.testbit bits (eb + mb) then ["-"%byte] else [] in
  let e := Z.land (Z.shiftr bits mb) (Z.ones eb) in
  let m := Z.land bits (Z.ones mb) in
  sign ++
  (if e =? Z.ones eb then if m =? 0 then ("inf" : bytes) else ("nan" : bytes)
   else if (e =? 0) && (m =? 0) then ("0" : bytes)
   else
     let mantissa := if e =? 0 then m else m + 2 ^ mb in
     let exponent := Z.max e 1 - (2 ^ (eb - 1) - 1) - mb in
     general6 (mantissa * 2 ^ Z.max exponent 0) (2 ^ Z.max (- exponent) 0)).

(** ** Conversions *)

(** The unsigned value of the first [n] bytes. *)
Definition decodeScalar (n : nat) (data : bytes) : option Z :=
  if (length data <? n)%nat then None else Some (le_val (take n data)).

Definition decode_int16 (data : bytes) : option Z := i16 <$> decodeScalar 2 data.
Definition decode_int32 (data : bytes) : option Z := i32 <$> decodeScalar 4 data.
Definition decode_int64 (data : bytes) : option Z := i64 <$> decodeScalar 8 data.

Definition colon : byte := ":"%byte.
Definition dash : byte := "-"%byte.

(** [if (micro != 0) { ... }] *)
Definition put_micro (micro : Z) : bytes := if micro =? 0 then [] else "."%byte :: put 6 micro.

Definition put_date (year month day : Z) : bytes := put 4 year ++ dash :: put 2 month ++ dash :: put 2 day.
Definition put_time (hour minute second : Z) : bytes := put 2 hour ++ colon :: put 2 minute ++ colon :: put 2 second.

Definition formatDateFromEpochDays (days : Z) : bytes :=
  put_date (extractYear days) (extractMonth days) (extractDay days).

Definition formatTimeFromMicros (micros : Z) : bytes :=
  put_time (extractHour micros) (extractMinute micros) (extractSecond micros) ++
  put_micro (extractMicrosecond micros).

Definition formatTimestampFromMicros (micros : Z) : bytes :=
  put_date (extractTimestampYear micros) (extractTimestampMonth micros) (extractTimestampDay micros) ++ " "%byte ::
  put_time (extractTimestampHour micros) (extractTimestampMinute micros) (extractTimestampSecond micros) ++
  put_micro (extractTimestampMicrosecond micros).

(** Division truncates, so every part takes the sign. *)
Definition formatInterval (months days micros : Z) : bytes :=
  let total_seconds := Z.quot micros 1000000 in
  let micro := Z.rem micros 1000000 in
  to_string months ++ (" months " : bytes) ++ to_string days ++ (" days " : bytes) ++
  put_time (Z.quot total_seconds 3600) (Z.rem (Z.quot total_seconds 60) 60) (Z.rem total_seconds 60) ++
  put_micro (Z.abs micro).

Fixpoint uuid_loop (i : nat) (data : bytes) : bytes :=
  match data with
  | [] => []
  | b :: data => hex_byte b ++ (if bool_decide (i ∈ [3; 5; 7; 9]%nat) then [dash] else []) ++ uuid_loop (S i) data
  end.

Definition formatUuid (data : bytes) : bytes := if blen data <? 16 then [] else uuid_loop 0 data.

(** ** Length prefixes *)

Definition prefix_len (data : bytes) : Z :=
  let b i := byte_val (nth i data Byte.x00) in
  Z.lor (Z.lor (Z.lor (b 0%nat) (Z.shiftl (b 1%nat) 8)) (Z.shiftl (b 2%nat) 16)) (Z.shiftl (b 3%nat) 24).

(** The bytes that are pointed to, [None] for the null pointer. *)
Definition stripLengthPrefix (data : bytes) : option bytes :=
  if (4 <=? blen data) && (prefix_len data <=? blen data - 4)
  then Some (take (Z.to_nat (prefix_len data)) (drop 4 data))
  else if bool_decide (data = []) then None else Some data.

Definition stripped (data : bytes) : bytes := default [] (stripLengthPrefix data).

(** ** [stringifyValue] *)

Definition micros_1970_to_2000 : Z := 10957 * (86400 * 1000000).

(** The text of a value whose representation is a number of [width] bytes, or
    the bytes themselves when there are too few. *)
Definition number_or_bytes (x : option Z) (text : Z → outcome bytes) (data : bytes) : outcome bytes :=
  match x with Some z => text z | None => Ret data end.

(** Without a number the text is [0]. *)
Definition number_or_0 (x : option Z) (text : Z → bytes) : outcome bytes :=
  Ret (match x with Some z => text z | None => ("0" : bytes) end).

(** The sum is computed in [int64_t]. *)
Definition timestamp_text (micros : Z) : outcome bytes :=
  if 2 ^ 63 - 1 <? micros + micros_1970_to_2000 then UB
  else Ret (formatTimestampFromMicros (micros + micros_1970_to_2000)).

(** [-cents] overflows for the least value. *)
Definition money_text (cents : Z) : outcome bytes :=
  if cents =? - 2 ^ 63 then UB else
  let abs_cents := Z.abs cents in
  Ret ((if cents <? 0 then [dash] else []) ++ dec (abs_cents / 100) ++ "."%byte :: put 2 (abs_cents mod 100)).

Definition date_text (data : bytes) : bytes :=
  match (if blen data =? 4 then decode_int32 data else None), (if blen data =? 8 then decode_int64 data else None) with
  | Some days32, _ => formatDateFromEpochDays (days32 + 10957)
  | None, Some days64 => formatDateFromEpochDays days64
  | None, None => data
  end.

Definition interval_text (data : bytes) : bytes :=
  match decode_int32 data, decode_int32 (drop 4 data), decode_int64 (drop 8 data) with
  | Some months, Some days, Some micros => formatInterval months days micros
  | _, _, _ => data
  end.

(** The types whose values may carry a length. *)
Definition text_oids : list Z :=
  [kOidNumeric; kOidChar; kOidBpChar; kOidVarchar; kOidText; kOidJson; kOidJsonb; kOidXml; kOidRecord; kOidInet;
   kOidCidr; kOidMacaddr; kOidMacaddr8; kOidTsVector; kOidTsQuery; kOidInt4Range; kOidNumRange; kOidTsRange;
   kOidTstzRange; kOidDateRange; kOidInt8Range].
Definition binary_oids : list Z :=
  [kOidBytea; kOidPoint; kOidLseg; kOidPath; kOidBox; kOidPolygon; kOidLine; kOidCircle; kOidSbVector].

Definition stringifyValue (val : ColumnValue) (type_oid : Z) : outcome bytes :=
  let d := data val in
  if is_null val then Ret []
  else if type_oid =? kOidBool then
    Ret (match d with b :: _ => if byte_val b =? 0 then ("0" : bytes) else ("1" : bytes) | [] => ("0" : bytes) end)
  else if type_oid =? kOidInt2 then number_or_0 (decode_int16 d) to_string
  else if type_oid =? kOidInt4 then number_or_0 (decode_int32 d) to_string
  else if type_oid =? kOidInt8 then number_or_0 (decode_int64 d) to_string
  else if type_oid =? kOidFloat4 then number_or_0 (decodeScalar 4 d) (float_text 8 23)
  else if type_oid =? kOidFloat8 then number_or_0 (decodeScalar 8 d) (float_text 11 52)
  else if bool_decide (type_oid ∈ text_oids) then Ret (stripped d)
  else if type_oid =? kOidDate then Ret (date_text d)
  else if type_oid =? kOidTime then number_or_bytes (decode_int64 d) (λ z, Ret (formatTimeFromMicros z)) d
  else if type_oid =? kOidTimestamp then number_or_bytes (decode_int64 d) timestamp_text d
  else if type_oid =? kOidTimestamptz then number_or_bytes (decode_int64 d) timestamp_text d
  else if type_oid =? kOidInterval then Ret (interval_text d)
  else if type_oid =? kOidUuid then Ret (if blen d =? 16 then formatUuid d else d)
  else if type_oid =? kOidMoney then number_or_bytes (decode_int64 d) money_text d
  else if bool_decide (type_oid ∈ binary_oids) then Ret (stripped d)
  else Ret d.

(** ** Scalars *)

Lemma decodeScalar_le n v : decodeScalar n (le_bytes n v) = Some (v mod 256 ^ Z.of_nat n).
Proof.
  unfold decodeScalar. rewrite length_le_bytes, Nat.ltb_irrefl, take_ge by (by rewrite length_le_bytes).
  by rewrite le_val_le_bytes.
Qed.

Lemma decode_int16_le v : - 2 ^ 15 <= v < 2 ^ 15 → decode_int16 (le_bytes 2 v) = Some v.
Proof. intros. unfold decode_int16. rewrite decodeScalar_le. cbn [fmap option_fmap option_map]. f_equal. by apply (to_signed_mod 16). Qed.

Lemma decode_int32_le v : - 2 ^ 31 <= v < 2 ^ 31 → decode_int32 (le_bytes 4 v) = Some v.
Proof. intros. unfold decode_int32. rewrite decodeScalar_le. cbn [fmap option_fmap option_map]. f_equal. by apply (to_signed_mod 32). Qed.

Lemma decode_int64_le v : - 2 ^ 63 <= v < 2 ^ 63 → decode_int64 (le_bytes 8 v) = Some v.
Proof. intros. unfold decode_int64. rewrite decodeScalar_le. cbn [fmap option_fmap option_map]. f_equal. by apply (to_signed_mod 64). Qed.

Lemma decodeScalar_short n data : (length data < n)%nat → decodeScalar n data = None.
Proof. intros. unfold decodeScalar. by rewrite (proj2 (Nat.ltb_lt _ _)). Qed.

(** ** The length prefix *)

Lemma prefix_len_spec data : 4 <= blen data → prefix_len data = le_val (take 4 data).
Proof.
  destruct data as [|b0 [|b1 [|b2 [|b3 data]]]]; cbn [length]; try lia. intros _. unfold prefix_len. cbn [nth take le_val].
  pose proof (byte_val_range b0). pose proof (byte_val_range b1). pose proof (byte_val_range b2).
  rewrite (lor_shiftl_add _ (byte_val b1) 8), (lor_shiftl_add _ (byte_val b2) 16), (lor_shiftl_add _ (byte_val b3) 24) by lia.
  change (take 0 data) with ([] : bytes). cbn [le_val]. lia.
Qed.

(** What the code takes for a length followed by that many bytes. *)
Definition looks_prefixed (data : bytes) : Prop := 4 <= blen data ∧ le_val (take 4 data) <= blen data - 4.

#[export] Instance looks_prefixed_dec data : Decision (looks_prefixed data).
Proof. unfold looks_prefixed. apply _. Defined.

Lemma stripped_cases data :
  stripped data = if decide (looks_prefixed data) then take (Z.to_nat (le_val (take 4 data))) (drop 4 data) else data.
Proof.
  unfold stripped, stripLengthPrefix, looks_prefixed. destruct (Z.leb_spec 4 (blen data)) as [H4|H4]; cbn [andb].
  - rewrite prefix_len_spec by done. destruct (Z.leb_spec (le_val (take 4 data)) (blen data - 4)).
    + by rewrite decide_True.
    + rewrite decide_False by lia. rewrite bool_decide_eq_false_2; [done|]. intros ->. cbn in H4. lia.
  - rewrite decide_False by lia. case_bool_decide as Hd; [by rewrite Hd|done].
Qed.

(** A byte string that carries its length is read without it; one that does
    not carry a length is read whole exactly when its first four bytes are not,
    by chance, a number that fits: any other loses at least four bytes. *)
Theorem length_prefix_heuristic payload rest data :
  blen payload < 2 ^ 32 →
  stripped (le_bytes 4 (blen payload) ++ payload ++ rest) = payload ∧
  (stripped data = data ↔ ¬ looks_prefixed data) ∧
  (looks_prefixed data → blen (stripped data) <= blen data - 4).
Proof.
  intros Hp. split_and!.
  - assert (Hv : le_val (take 4 (le_bytes 4 (blen payload) ++ payload ++ rest)) = blen payload).
    { rewrite take_app_length' by (by rewrite length_le_bytes). rewrite le_val_le_bytes. apply Z.mod_small. lia. }
    rewrite stripped_cases, decide_True.
    + rewrite Hv, Nat2Z.id. change 4%nat with (length (le_bytes 4 (blen payload))).
      by rewrite drop_app_length, take_app_length.
    + split; rewrite ?Hv, !length_app, length_le_bytes; lia.
  - rewrite stripped_cases. destruct (decide (looks_prefixed data)) as [[H1 H2]|]; [|by split]. split; [|intros Hn; by destruct Hn].
    intros E. apply (f_equal (λ l, blen l)) in E. rewrite length_take, length_drop in E. lia.
  - intros H. rewrite stripped_cases, decide_True by done. destruct H. rewrite length_take, length_drop. lia.
Qed.

Lemma length_prefix_heuristic_witness :
  stripped ([Byte.x01; Byte.x00; Byte.x00; Byte.x00; "a"%byte; "b"%byte]) = ["a"%byte] ∧
  blen (stripped [Byte.x00; Byte.x00; Byte.x00; Byte.x00; "P"%byte; "N"%byte; "G"%byte]) <= 3.
Proof.
  pose proof (length_prefix_heuristic ["a"%byte] ["b"%byte]
    [Byte.x00; Byte.x00; Byte.x00; Byte.x00; "P"%byte; "N"%byte; "G"%byte] ltac:(done)) as (H1 & _ & H3).
  split; [exact H1|]. apply H3. by_evaluation.
Defined.
