(* ===== verification/ResultSet.v ===== *)
(** * Result sets

    Models [ResultSet] of [src/connection.cpp]: the columns with their public
    types, the cursor, and the typed access to the current row by position and
    by name. A read past the rows is undefined behaviour. *)

From S2P Require Import Prelude.
From S2P Require Import WireParse.
From S2P Require Import Oids.
From S2P Require Import NetworkClient.
From S2P Require Import NetworkParams.
From S2P Require Import Values.

(** ** Data *)

Inductive sb_type :=
  | SB_TYPE_NULL | SB_TYPE_BOOLEAN | SB_TYPE_SMALLINT | SB_TYPE_INTEGER | SB_TYPE_BIGINT | SB_TYPE_REAL
  | SB_TYPE_DOUBLE | SB_TYPE_DECIMAL | SB_TYPE_JSONB | SB_TYPE_CHAR | SB_TYPE_VARCHAR | SB_TYPE_TEXT
  | SB_TYPE_XML | SB_TYPE_TSVECTOR | SB_TYPE_TSQUERY | SB_TYPE_BLOB | SB_TYPE_MONEY | SB_TYPE_DATE
  | SB_TYPE_TIME | SB_TYPE_TIME_TZ | SB_TYPE_TIMESTAMP | SB_TYPE_TIMESTAMP_TZ | SB_TYPE_INTERVAL
  | SB_TYPE_UUID | SB_TYPE_JSON | SB_TYPE_GEOMETRY | SB_TYPE_ARRAY | SB_TYPE_COMPOSITE | SB_TYPE_RANGE
  | SB_TYPE_VECTOR | SB_TYPE_INET | SB_TYPE_CIDR | SB_TYPE_MACADDR | SB_TYPE_UNKNOWN.

#[export] Instance sb_type_eq_dec : EqDecision sb_type.
Proof. solve_decision. Defined.

(** The cases of the [switch], in their order. *)
Definition type_cases : list (list Z * sb_type) :=
  [([kOidBool], SB_TYPE_BOOLEAN); ([kOidInt2], SB_TYPE_SMALLINT); ([kOidInt4], SB_TYPE_INTEGER);
   ([kOidInt8], SB_TYPE_BIGINT); ([kOidFloat4], SB_TYPE_REAL); ([kOidFloat8], SB_TYPE_DOUBLE);
   ([kOidNumeric], SB_TYPE_DECIMAL); ([kOidJsonb], SB_TYPE_JSONB); ([kOidChar; kOidBpChar], SB_TYPE_CHAR);
   ([kOidVarchar], SB_TYPE_VARCHAR); ([kOidText], SB_TYPE_TEXT); ([kOidXml], SB_TYPE_XML);
   ([kOidTsVector], SB_TYPE_TSVECTOR); ([kOidTsQuery], SB_TYPE_TSQUERY); ([kOidBytea], SB_TYPE_BLOB);
   ([kOidMoney], SB_TYPE_MONEY); ([kOidDate], SB_TYPE_DATE); ([kOidTime], SB_TYPE_TIME);
   ([kOidTimetz], SB_TYPE_TIME_TZ); ([kOidTimestamp], SB_TYPE_TIMESTAMP);
   ([kOidTimestamptz], SB_TYPE_TIMESTAMP_TZ); ([kOidInterval], SB_TYPE_INTERVAL); ([kOidUuid], SB_TYPE_UUID);
   ([kOidJson], SB_TYPE_JSON);
   ([kOidPoint; kOidLseg; kOidPath; kOidBox; kOidPolygon; kOidLine; kOidCircle], SB_TYPE_GEOMETRY);
   ([kOidInet], SB_TYPE_INET); ([kOidCidr], SB_TYPE_CIDR); ([kOidMacaddr; kOidMacaddr8], SB_TYPE_MACADDR);
   ([kOidSbVector], SB_TYPE_VECTOR); ([kOidRecord], SB_TYPE_COMPOSITE);
   ([kOidInt4Array; kOidTextArray], SB_TYPE_ARRAY);
   ([kOidInt4Range; kOidInt8Range; kOidNumRange; kOidTsRange; kOidTstzRange; kOidDateRange], SB_TYPE_RANGE)].

Fixpoint find_case (type_oid : Z) (cases : list (list Z * sb_type)) : sb_type :=
  match cases with
  | [] => SB_TYPE_UNKNOWN
  | (oids, t) :: cases => if bool_decide (type_oid ∈ oids) then t else find_case type_oid cases
  end.

Definition mapTypeOidToPublicType (type_oid : Z) : sb_type := find_case type_oid type_cases.

Record ColumnMeta := mkMeta {
  name : bytes;
  type : sb_type;
  type_oid : Z;
  type_modifier : Z;
  index : nat;
  format : byte;
  nullable : bool
}.

Record ResultSet := mkResultSet {
  results : option NetworkResultSet;
  columns : list ColumnMeta;
  row_index : Z
}.

#[export] Instance ResultSet_eta : Eta ResultSet := λ r, mkResultSet (results r) (columns r) (row_index r).

Definition empty_result_set : ResultSet := mkResultSet None [] (-1).

Definition column_meta (i : nat) (col : NetworkColumn) : ColumnMeta :=
  mkMeta (nc_name col) (mapTypeOidToPublicType (nc_type_oid col)) (nc_type_oid col) (nc_type_modifier col) i
    (nc_format col) (nc_nullable col).

Definition populateResultSet (shared : NetworkResultSet) : ResultSet :=
  mkResultSet (Some shared) (imap column_meta (NetworkClient.columns shared)) (-1).

(** ** Columns *)

Definition getColumnCount (r : ResultSet) : Z :=
  match results r with Some _ => blen (columns r) | None => 0 end.

Definition getColumnName (i : nat) (r : ResultSet) : bytes :=
  match columns r !! i with Some c => name c | None => [] end.

(** The first column of that name, whatever the case of its letters. *)
Definition lookupColumnIndex (cols : list ColumnMeta) (nm : bytes) : option nat :=
  fst <$> list_find (λ c, toLower (name c) = toLower nm) cols.

Definition getColumnIndex (nm : bytes) (r : ResultSet) : Z :=
  match lookupColumnIndex (columns r) nm with Some i => Z.of_nat i | None => -1 end.

Definition getColumnType (i : nat) (r : ResultSet) : sb_type :=
  match columns r !! i with Some c => type c | None => SB_TYPE_UNKNOWN end.

Definition getColumnTypeOid (i : nat) (r : ResultSet) : Z :=
  match columns r !! i with Some c => type_oid c | None => 0 end.

Definition getColumnFormat (i : nat) (r : ResultSet) : byte :=
  match columns r !! i with Some c => format c | None => Byte.x00 end.

Definition isColumnNullable (i : nat) (r : ResultSet) : bool :=
  match columns r !! i with Some c => nullable c | None => true end.

(** ** Rows *)

Definition row_count (r : ResultSet) : Z :=
  match results r with Some s => blen (rows s) | None => 0 end.

Definition getRowCount (r : ResultSet) : Z := match results r with Some s => blen (rows s) | None => -1 end.
Definition getRowsAffected (r : ResultSet) : Z := match results r with Some s => rows_affected s | None => -1 end.
Definition isEmpty (r : ResultSet) : bool := match results r with Some s => bool_decide (rows s = []) | None => true end.
Definition getCommandTag (r : ResultSet) : bytes := match results r with Some s => command_tag s | None => [] end.

Definition next (r : ResultSet) : bool * ResultSet :=
  match results r with
  | None => (false, r)
  | Some s =>
      if blen (rows s) <=? row_index r + 1 then (false, r)
      else (true, r <| row_index := row_index r + 1 |>)
  end.

Definition reset (r : ResultSet) : ResultSet := r <| row_index := -1 |>.

(** [results->rows[row_index]], [None] without results or before the first row. *)
Definition current_row (r : ResultSet) : outcome (option (list ColumnValue)) :=
  match results r with
  | None => Ret None
  | Some s =>
      if row_index r <? 0 then Ret None
      else match rows s !! Z.to_nat (row_index r) with Some row => Ret (Some row) | None => UB end
  end.

(** The cell of the current row. *)
Definition cell (column : nat) (r : ResultSet) : outcome (option ColumnValue) :=
  row ← current_row r; Ret (row ≫= λ vs, vs !! column).

Definition isNull (column : nat) (r : ResultSet) : bool :=
  match results r with
  | None => true
  | Some s =>
      if row_index r <? 0 then true
      else match rows s !! Z.to_nat (row_index r) with
           | None => true
           | Some vs => match vs !! column with Some v => is_null v | None => true end
           end
  end.

(** A scalar, zero when the cell is absent or too short. *)
Definition scalar (decode : bytes → option Z) (column : nat) (r : ResultSet) : outcome Z :=
  v ← cell column r; Ret (default 0 (v ≫= λ v, decode (data v))).

Definition getInt16 := scalar decode_int16.
Definition getInt32 := scalar decode_int32.
Definition getInt64 := scalar decode_int64.
Definition getFloat := scalar (decodeScalar 4).
Definition getDouble := scalar (decodeScalar 8).
Definition getTimestamp := scalar decode_int64.
Definition getDate := scalar decode_int32.
Definition getTime := getTimestamp.

Definition getBool (column : nat) (r : ResultSet) : outcome bool :=
  v ← getInt64 column r; Ret (negb (v =? 0)).

Definition getString (column : nat) (r : ResultSet) : outcome bytes :=
  v ← cell column r;
  match v, columns r !! column with
  | Some v, Some meta => stringifyValue v (type_oid meta)
  | _, _ => Ret []
  end.

Definition getBytes (column : nat) (r : ResultSet) : outcome bytes :=
  v ← cell column r; Ret (default [] (v ≫= λ v, stripLengthPrefix (data v))).

Definition getUUID (column : nat) (r : ResultSet) : outcome bytes :=
  v ← cell column r;
  Ret (match v with Some v => if blen (data v) =? 16 then formatUuid (data v) else [] | None => [] end).

(** The bytes the pointer leads to, with their number. *)
Definition getRaw (column : nat) (r : ResultSet) : outcome (option bytes) :=
  v ← cell column r; Ret (option_map data v).

(** The same getters by name, with the value for a column that is not there. *)
Definition by_name {A} (get : nat → ResultSet → outcome A) (absent : A) (nm : bytes) (r : ResultSet) : outcome A :=
  match lookupColumnIndex (columns r) nm with Some i => get i r | None => Ret absent end.

Definition isNull_named (nm : bytes) (r : ResultSet) : bool :=
  match lookupColumnIndex (columns r) nm with Some i => isNull i r | None => true end.
Definition getBool_named := by_name getBool false.
Definition getInt16_named := by_name getInt16 0.
Definition getInt32_named := by_name getInt32 0.
Definition getInt64_named := by_name getInt64 0.
Definition getFloat_named := by_name getFloat 0.
Definition getDouble_named := by_name getDouble 0.
Definition getString_named := by_name getString [].
Definition getBytes_named := by_name getBytes [].
Definition getTimestamp_named := by_name getTimestamp 0.
Definition getDate_named := by_name getDate 0.
Definition getTime_named := by_name getTime 0.
Definition getUUID_named := by_name getUUID [].

(** [while (results.next()) out.push_back(results.getString(column));] *)
Fixpoint collect (fuel : nat) (column : nat) (r : ResultSet) (out : list bytes) : outcome (option (list bytes)) :=
  match fuel with
  | O => Ret None
  | S fuel =>
      let '(more, r) := next r in
      if more : bool then s ← getString column r; collect fuel column r (out ++ [s]) else Ret (Some out)
  end.

(** ** The cursor *)

(** The cursor is before the first row or on a row. *)
Definition on_row (r : ResultSet) : Prop := row_index r = -1 ∨ 0 <= row_index r < row_count r.

Inductive cursor_op := Next | Reset | Populate (shared : NetworkResultSet).

Definition cursor_step (r : ResultSet) (op : cursor_op) : ResultSet :=
  match op with
  | Next => (next r).2
  | Reset => reset r
  | Populate shared => populateResultSet shared
  end.

Lemma next_on_row r : on_row r → on_row (next r).2.
Proof.
  unfold on_row, next, row_count. intros H. destruct (results r) as [s|] eqn:Hs; cbn [snd]; [|rewrite Hs; lia].
  destruct (blen (rows s) <=? row_index r + 1) eqn:E; cbn [snd]; [rewrite Hs; lia|].
  right. change (results (r <| row_index := _ |>)) with (results r). rewrite Hs.
  change (row_index (r <| row_index := ?x |>)) with x. lia.
Qed.

Lemma cursor_step_on_row r op : on_row r → on_row (cursor_step r op).
Proof. destruct op; [apply next_on_row|by left|by left]. Qed.

Lemma cursor_on_row ops r : on_row r → on_row (foldl cursor_step r ops).
Proof. revert r. induction ops; intros r Hr; cbn [foldl]; [done|]. by apply IHops, cursor_step_on_row. Qed.

Lemma current_row_defined r : on_row r → defined (current_row r).
Proof.
  unfold on_row, current_row, row_count. intros H. destruct (results r) as [s|]; [|done].
  destruct (row_index r <? 0) eqn:E; [done|]. destruct H as [H|H]; [lia|].
  destruct (lookup_lt_is_Some_2 (rows s) (Z.to_nat (row_index r)) ltac:(lia)) as [row ->]. done.
Qed.

Lemma bind_defined {A B} (o : outcome A) (k : A → outcome B) : defined o → (∀ a, defined (k a)) → defined (o ≫= k).
Proof. destruct o; [|done]. intros _ H. apply H. Qed.

Lemma cell_defined column r : on_row r → defined (cell column r).
Proof. intros H. apply bind_defined; [by apply current_row_defined|done]. Qed.

(** Whatever is done with a result set, the cursor stays on the rows, and no
    read by position or by name goes outside them. *)
Theorem cursor_in_bounds ops column nm :
  let r := foldl cursor_step empty_result_set ops in
  on_row r ∧ defined (current_row r) ∧ defined (getInt64 column r) ∧ defined (getBool column r) ∧
  defined (getBytes column r) ∧ defined (getUUID column r) ∧ defined (getRaw column r) ∧
  defined (getInt32_named nm r) ∧ defined (getBytes_named nm r) ∧
  (isNull column r = false → ∃ v, cell column r = Ret (Some v) ∧ is_null v = false).
Proof.
  intros r. assert (H : on_row r) by (apply cursor_on_row; by left).
  pose proof (cell_defined column r H) as Hc. pose proof (λ c, cell_defined c r H) as Hall.
  split; [done|]. split; [by apply current_row_defined|].
  unfold getBool, getInt64, scalar, getBytes, getUUID, getRaw, getInt32_named, getBytes_named, by_name, getInt32, getBytes, scalar.
  split_and!; try (by repeat (apply bind_defined; [done|intros])).
  - apply bind_defined; [by apply bind_defined|done].
  - destruct (lookupColumnIndex _ nm); [by apply bind_defined|done].
  - destruct (lookupColumnIndex _ nm); [by apply bind_defined|done].
  - unfold isNull, cell, current_row. destruct (results r) as [s|]; [|done]. destruct (row_index r <? 0); [done|].
    destruct (rows s !! Z.to_nat (row_index r)) as [vs|]; [|done]. cbn [mbind outcome_bind option_bind].
    destruct (vs !! column) as [v|]; [|done]. intros Hn. by exists v.
Qed.

(** ** Reading all rows *)

(** The text of a cell of a row. *)
Definition row_text (r : ResultSet) (column : nat) (row : list ColumnValue) : outcome bytes :=
  match row !! column, columns r !! column with
  | Some v, Some meta => stringifyValue v (type_oid meta)
  | _, _ => Ret []
  end.

Lemma collect_rows fuel column s cols k out :
  (length (rows s) < fuel + k)%nat → (k <= length (rows s))%nat →
  collect fuel column (mkResultSet (Some s) cols (Z.of_nat k - 1)) out =
    (texts ← mapM (row_text (mkResultSet (Some s) cols (-1)) column) (drop k (rows s)); Ret (Some (out ++ texts))).
Proof.
  revert k out. induction fuel as [|fuel IH]; intros k out Hf Hk; [lia|]. cbn [collect].
  unfold next. cbn [results row_index]. replace (Z.of_nat k - 1 + 1) with (Z.of_nat k) by lia.
  destruct (blen (rows s) <=? Z.of_nat k) eqn:E.
  - rewrite drop_ge by lia. cbn. by rewrite app_nil_r.
  - destruct (lookup_lt_is_Some_2 (rows s) k ltac:(lia)) as [row Hrow]. rewrite (drop_S _ row) by done.
    change (mkResultSet (Some s) cols (Z.of_nat k - 1) <| row_index := Z.of_nat k |>)
      with (mkResultSet (Some s) cols (Z.of_nat k)).
    cbn [mapM]. unfold getString, cell, current_row. cbn [results row_index columns].
    replace (Z.of_nat k <? 0) with false by lia. rewrite Nat2Z.id, Hrow. cbn [mbind outcome_bind option_bind].
    change (match row !! column with
            | Some v => match cols !! column with Some meta => stringifyValue v (type_oid meta) | None => Ret [] end
            | None => Ret [] end)
      with (row_text (mkResultSet (Some s) cols (-1)) column row).
    destruct (row_text _ column row) as [t|]; cbn [mbind outcome_bind]; [|done].
    replace (Z.of_nat k) with (Z.of_nat (S k) - 1) by lia. rewrite IH by lia.
    destruct (mapM _ (drop (S k) (rows s))) as [ts|]; cbn [mbind outcome_bind]; [|done].
    unfold mret, outcome_ret. cbn [mbind outcome_bind]. by rewrite <-app_assoc.
Qed.

(** The loop over [next] ends and reads the column of every row, once and
    in order. *)
Theorem every_row_once shared column fuel :
  (length (rows shared) < fuel)%nat →
  collect fuel column (populateResultSet shared) [] =
    (texts ← mapM (row_text (populateResultSet shared) column) (rows shared); Ret (Some texts)).
Proof.
  intros H. exact (collect_rows fuel column shared (imap column_meta (NetworkClient.columns shared)) 0 []
    ltac:(lia) ltac:(lia)).
Qed.

Definition sample_results : NetworkResultSet :=
  mkResults [mkNetworkColumn "id" kOidInt4 (-1) Byte.x01 false; mkNetworkColumn "Name" kOidText (-1) Byte.x01 true]
    [[mkValue [Byte.x07; Byte.x00; Byte.x00; Byte.x00] false; mkValue "ann" false];
     [mkValue [Byte.xff; Byte.xff; Byte.xff; Byte.xff] false; mkValue [] true]] 2 "SELECT".

Lemma every_row_once_witness :
  collect 3 0 (populateResultSet sample_results) [] = Ret (Some ["7" : bytes; "-1" : bytes]).
Proof. rewrite every_row_once by (cbn; lia). reflexivity. Defined.

(** ** Reading what was bound *)

Section bound.
Context (r : ResultSet) (column : nat) (d : bytes).
Context (Hcell : cell column r = Ret (Some (mkValue d false))).

Lemma scalar_at decode : scalar decode column r = Ret (default 0 (decode d)).
Proof. unfold scalar. by rewrite Hcell. Qed.

End bound.

(** Microseconds from 1970 to 2000. *)
Definition epoch_gap : Z := 946684800 * 1000000.

(** A cell that holds the bytes a setter sent is read by the getter of that
    type as the value that was set: integers, the bits of floating-point
    numbers, days, times, UUIDs, and byte strings that do not look prefixed. *)
Theorem bound_values_read_back r column v d :
  cell column r = Ret (Some (mkValue d false)) → meaning v = Some d →
  match v with
  | VInt16 z => - 2 ^ 15 <= z < 2 ^ 15 → getInt16 column r = Ret z
  | VInt32 z => - 2 ^ 31 <= z < 2 ^ 31 → getInt32 column r = Ret z
  | VInt64 z => - 2 ^ 63 <= z < 2 ^ 63 → getInt64 column r = Ret z
  | VFloat bits => in_u32 bits → getFloat column r = Ret bits
  | VDouble bits => in_u64 bits → getDouble column r = Ret bits
  | VDate z => - 2 ^ 31 <= z < 2 ^ 31 → getDate column r = Ret z
  | VTime z => - 2 ^ 63 <= z < 2 ^ 63 → getTime column r = Ret z
  | VBytes s => ¬ looks_prefixed d → getBytes column r = Ret (default [] s)
  | VUuid s => getRaw column r = Ret (Some s) ∧ (blen s = 16 → getUUID column r = Ret (formatUuid s))
  | _ => True
  end.
Proof.
  intros Hc Hm.
  destruct v; try done; intros; cbn [meaning] in Hm; apply (inj Some) in Hm as <-;
    unfold getInt16, getInt32, getInt64, getFloat, getDouble, getDate, getTime, getTimestamp, int_bytes in *;
    rewrite ?(scalar_at _ _ _ Hc), ?decode_int16_le, ?decode_int32_le, ?decode_int64_le, ?decodeScalar_le by done;
    try done.
  - unfold in_u32 in *. cbn [from_option id]. rewrite Z.mod_small; [done|lia].
  - unfold in_u64 in *. cbn [from_option id]. rewrite Z.mod_small; [done|lia].
  - unfold getBytes. rewrite Hc. cbn [mbind outcome_bind option_bind data]. f_equal.
    change (stripped (default [] s) = default [] s). rewrite stripped_cases. by rewrite decide_False.
  - unfold getRaw, getUUID. rewrite Hc. cbn [mbind outcome_bind option_map data]. split; [done|]. intros. by guard_true.
Qed.

Definition sample_row : ResultSet :=
  (next (populateResultSet (mkResults [] [[mkValue (int_bytes 4 (-5)) false]] 1 []))).2.

Lemma bound_values_read_back_witness : getInt32 0 sample_row = Ret (-5).
Proof. apply (bound_values_read_back sample_row 0 (VInt32 (-5)) (int_bytes 4 (-5))); [done|done|lia]. Defined.

(** Some values are not read back as they were bound: a boolean always
    reads as false, a timestamp thirty years early, and a 32-bit integer as zero
    through the 64-bit getter; a date prints 10957 days late. *)
Theorem bound_values_misread r column d :
  cell column r = Ret (Some (mkValue d false)) →
  (∀ b, meaning (VBool b) = Some d → getBool column r = Ret false) ∧
  (∀ m, - 2 ^ 63 + epoch_gap <= m < 2 ^ 63 → meaning (VTimestamp m) = Some d →
     getTimestamp column r = Ret (m - epoch_gap)) ∧
  (∀ z, meaning (VInt32 z) = Some d → getInt64 column r = Ret 0) ∧
  (∀ z, - 2 ^ 31 <= z < 2 ^ 31 → meaning (VDate z) = Some d → getColumnTypeOid column r = kOidDate →
     getString column r = Ret (formatDateFromEpochDays (z + 10957))).
Proof.
  intros Hc. unfold getBool, getTimestamp, getInt64. rewrite !(scalar_at _ _ _ Hc). split_and!.
  - intros b <-%(inj Some). by destruct b.
  - intros m Hm <-%(inj Some). unfold int_bytes, epoch_gap in *. by rewrite decode_int64_le by lia.
  - intros z <-%(inj Some). unfold decode_int64. by rewrite decodeScalar_short by (unfold int_bytes; rewrite length_le_bytes; lia).
  - intros z Hz <-%(inj Some). unfold getColumnTypeOid, getString. rewrite Hc. cbn [mbind outcome_bind].
    destruct (columns r !! column) as [c|]; [|done]. intros ->. unfold stringifyValue. cbn [is_null data].
    change (Ret (date_text (int_bytes 4 z)) = Ret (formatDateFromEpochDays (z + 10957))). unfold date_text, int_bytes.
    rewrite length_le_bytes. by rewrite decode_int32_le.
Qed.

Definition sample_dates : ResultSet :=
  (next (populateResultSet (mkResults [mkNetworkColumn "d" kOidDate (-1) Byte.x01 true]
     [[mkValue (int_bytes 4 0) false]] 1 []))).2.

(** The day 0 that was bound prints as the first of January 2000. *)
Lemma bound_values_misread_witness : getString 0 sample_dates = Ret ("2000-01-01" : bytes).
Proof.
  destruct (bound_values_misread sample_dates 0 (int_bytes 4 0) ltac:(reflexivity)) as (_ & _ & _ & Hd).
  rewrite (Hd 0 ltac:(lia) ltac:(reflexivity) ltac:(reflexivity)). vm_compute. reflexivity.
Defined.
