(* ===== verification/CValues.v ===== *)
(** * Values of the C API

    Models the part of [src/scratchbird_client_c.cpp] that converts between
    [sb_value] and the bytes of the protocol: the two maps of types, binding by
    [apply_bind_value] and by [build_param_value], reading by [sb_value_get],
    [sb_get_int64] and [sb_get_string]. The machine is little-endian; a [float]
    or [double] is given by its bits. *)

From S2P Require Import Prelude.
From S2P Require Import Client.
From S2P Require Import WireBuild.
From S2P Require Import WireParse.
From S2P Require Import TypeExtractor.
From S2P Require Import Oids.
From S2P Require Import NetworkClient.
From S2P Require Import NetworkParams.
From S2P Require Import Values.
From S2P Require Import ResultSet.

(** ** [sb_value] *)

(** The union: the member that was written last, with what a pointer member
    points to ([None] for null) and the length given with it. *)
Inductive sb_data :=
  | no_data
  | boolean_val (v : Z)
  | smallint_val (v : Z)
  | integer_val (v : Z)
  | bigint_val (v : Z)
  | real_val (bits : Z)
  | double_val (bits : Z)
  | money_val (v : Z)
  | string_val (data : option bytes) (length : nat)
  | binary_val (data : option bytes) (length : nat)
  | interval_val (micros days months : Z)
  | date_val (year month day : Z)
  | time_val (hour minute second microsecond : Z)
  | timestamp_val (epoch_microseconds tz_offset_seconds : Z)
  | uuid_val (uuid : bytes).

Record sb_value := mkSbValue {
  vtype : sb_type;
  visnull : bool;
  void : Z;
  vdata : sb_data
}.

#[export] Instance sb_value_eta : Eta sb_value := λ v, mkSbValue (vtype v) (visnull v) (void v) (vdata v).

(** [sb_value value{};] *)
Definition zero_value : sb_value := mkSbValue SB_TYPE_NULL false 0 no_data.

(** Reading a member of the union that is not the one written is undefined. *)
Definition read_boolean (d : sb_data) : outcome Z := match d with boolean_val v => Ret v | _ => UB end.
Definition read_smallint (d : sb_data) : outcome Z := match d with smallint_val v => Ret v | _ => UB end.
Definition read_integer (d : sb_data) : outcome Z := match d with integer_val v => Ret v | _ => UB end.
Definition read_bigint (d : sb_data) : outcome Z := match d with bigint_val v => Ret v | _ => UB end.
Definition read_real (d : sb_data) : outcome Z := match d with real_val v => Ret v | _ => UB end.
Definition read_double (d : sb_data) : outcome Z := match d with double_val v => Ret v | _ => UB end.
Definition read_money (d : sb_data) : outcome Z := match d with money_val v => Ret v | _ => UB end.
Definition read_string (d : sb_data) : outcome (option bytes * nat) :=
  match d with string_val p n => Ret (p, n) | _ => UB end.
Definition read_binary (d : sb_data) : outcome (option bytes * nat) :=
  match d with binary_val p n => Ret (p, n) | _ => UB end.
Definition read_interval (d : sb_data) : outcome (Z * Z * Z) :=
  match d with interval_val micros days months => Ret (micros, days, months) | _ => UB end.
Definition read_date (d : sb_data) : outcome (Z * Z * Z) :=
  match d with date_val y m dd => Ret (y, m, dd) | _ => UB end.
Definition read_time (d : sb_data) : outcome (Z * Z * Z * Z) :=
  match d with time_val h m s us => Ret (h, m, s, us) | _ => UB end.
Definition read_timestamp (d : sb_data) : outcome Z :=
  match d with timestamp_val t _ => Ret t | _ => UB end.
Definition read_uuid (d : sb_data) : outcome bytes :=
  match d with uuid_val u => if (length u =? 16)%nat then Ret u else UB | _ => UB end.

(** [n] bytes from a pointer. Null with a length is undefined, or the exception
    of [std::string], which nothing catches. *)
Definition from_pointer (p : option bytes) (n : nat) : outcome bytes :=
  if (n =? 0)%nat then Ret [] else
  match p with
  | Some b => if (n <=? length b)%nat then Ret (take n b) else UB
  | None => UB
  end.

(** [if (data && length > 0) assign(data, data + length)] *)
Definition from_nullable (p : option bytes) (n : nat) : outcome bytes :=
  match p with Some _ => from_pointer p n | None => Ret [] end.

(** ** The two maps of types *)

(** The same cases as in [connection.cpp]. *)
Definition map_type_oid (type_oid : Z) : sb_type := find_case type_oid type_cases.

Definition map_sb_type_to_oid (type : sb_type) : Z :=
  match type with
  | SB_TYPE_BOOLEAN => kOidBool
  | SB_TYPE_SMALLINT => kOidInt2
  | SB_TYPE_INTEGER => kOidInt4
  | SB_TYPE_BIGINT => kOidInt8
  | SB_TYPE_REAL => kOidFloat4
  | SB_TYPE_DOUBLE => kOidFloat8
  | SB_TYPE_DECIMAL => kOidNumeric
  | SB_TYPE_JSONB => kOidJsonb
  | SB_TYPE_CHAR => kOidBpChar
  | SB_TYPE_VARCHAR | SB_TYPE_TEXT => kOidText
  | SB_TYPE_XML => kOidXml
  | SB_TYPE_TSVECTOR => kOidTsVector
  | SB_TYPE_TSQUERY => kOidTsQuery
  | SB_TYPE_BLOB => kOidBytea
  | SB_TYPE_MONEY => kOidMoney
  | SB_TYPE_DATE => kOidDate
  | SB_TYPE_TIME => kOidTime
  | SB_TYPE_TIME_TZ => kOidTimetz
  | SB_TYPE_TIMESTAMP => kOidTimestamp
  | SB_TYPE_TIMESTAMP_TZ => kOidTimestamptz
  | SB_TYPE_INTERVAL => kOidInterval
  | SB_TYPE_UUID => kOidUuid
  | SB_TYPE_JSON => kOidJson
  | SB_TYPE_GEOMETRY => kOidPoint
  | SB_TYPE_ARRAY => kOidTextArray
  | SB_TYPE_COMPOSITE => kOidRecord
  | SB_TYPE_RANGE => kOidInt4Range
  | SB_TYPE_VECTOR => kOidSbVector
  | SB_TYPE_INET => kOidInet
  | SB_TYPE_CIDR => kOidCidr
  | SB_TYPE_MACADDR => kOidMacaddr
  | _ => 0
  end.

Definition resolve_type_oid (value : sb_value) : Z :=
  if negb (void value =? 0) then void value else map_sb_type_to_oid (vtype value).

(** ** Encoding *)

(** [int32_t days = ymdToDays(...); days - kDaysFrom1970To2000]: the first cuts
    to 32 bits, the second must not overflow. *)
Definition days_of_date (y m d : Z) : outcome Z :=
  let days := i32 (ymdToDays y m d) in
  if days - kDaysFrom1970To2000 <? - 2 ^ 31 then UB else Ret (days - kDaysFrom1970To2000).

Definition micros_of_time (h m s us : Z) : Z := (h * 3600 + m * 60 + s) * kMicrosPerSecond + us.

Definition interval_bytes (micros days months : Z) : bytes := le_bytes 8 micros ++ le_bytes 4 days ++ le_bytes 4 months.

(** A setter that is called, the answer being [SB_OK]. *)
Definition bound (o : outcome NetworkPreparedStatement) : outcome (sb_error_code * NetworkPreparedStatement) :=
  s ← o; Ret (SB_OK, s).

Definition apply_bind_value (stmt : NetworkPreparedStatement) (index : nat) (value : option sb_value)
    : outcome (sb_error_code * NetworkPreparedStatement) :=
  match value with
  | None => Ret (SB_ERR_NULL_POINTER, stmt)
  | Some value =>
      let oid := resolve_type_oid value in
      let d := vdata value in
      if visnull value then bound (setNull_typed index oid stmt) else
      match vtype value with
      | SB_TYPE_BOOLEAN => v ← read_boolean d; bound (setBool index (negb (v =? 0)) stmt)
      | SB_TYPE_SMALLINT => v ← read_smallint d; bound (setInt16 index v stmt)
      | SB_TYPE_INTEGER => v ← read_integer d; bound (setInt32 index v stmt)
      | SB_TYPE_BIGINT => v ← read_bigint d; bound (setInt64 index v stmt)
      | SB_TYPE_REAL => v ← read_real d; bound (setFloat index v stmt)
      | SB_TYPE_DOUBLE => v ← read_double d; bound (setDouble index v stmt)
      | SB_TYPE_CHAR | SB_TYPE_VARCHAR | SB_TYPE_TEXT | SB_TYPE_JSON | SB_TYPE_JSONB | SB_TYPE_XML
      | SB_TYPE_TSVECTOR | SB_TYPE_TSQUERY | SB_TYPE_DECIMAL =>
          '(p, n) ← read_string d;
          text ← from_pointer p n;
          bound (setString_typed index text oid stmt)
      | SB_TYPE_ARRAY | SB_TYPE_VECTOR | SB_TYPE_INET | SB_TYPE_CIDR | SB_TYPE_MACADDR =>
          if bool_decide (vtype value = SB_TYPE_ARRAY) && (oid =? 0) then Ret (SB_ERR_INVALID_PARAM, stmt) else
          '(p, n) ← read_binary d;
          if bool_decide (p = None) && (0 <? n)%nat then Ret (SB_ERR_NULL_POINTER, stmt) else
          b ← from_nullable p n; bound (setBinary index (Some b) oid stmt)
      | SB_TYPE_COMPOSITE | SB_TYPE_RANGE | SB_TYPE_UNKNOWN =>
          if bool_decide (vtype value ∈ [SB_TYPE_RANGE; SB_TYPE_ARRAY]) && (oid =? 0) then Ret (SB_ERR_INVALID_PARAM, stmt) else
          '(p, n) ← read_binary d; b ← from_nullable p n; bound (setBinary index (Some b) oid stmt)
      | SB_TYPE_GEOMETRY => '(p, n) ← read_binary d; b ← from_nullable p n; bound (setBinary index (Some b) oid stmt)
      | SB_TYPE_BLOB => '(p, n) ← read_binary d; b ← from_nullable p n; bound (setBytes index (Some b) stmt)
      | SB_TYPE_MONEY => cents ← read_money d; bound (setBinary index (Some (le_bytes 8 cents)) oid stmt)
      | SB_TYPE_DATE => '(y, m, dd) ← read_date d; days ← days_of_date y m dd; bound (setDate index days stmt)
      | SB_TYPE_TIME | SB_TYPE_TIME_TZ =>
          '(h, m, s, us) ← read_time d; bound (setTime index (micros_of_time h m s us) stmt)
      | SB_TYPE_INTERVAL =>
          '(micros, days, months) ← read_interval d;
          bound (setBinary index (Some (interval_bytes micros days months)) oid stmt)
      | SB_TYPE_TIMESTAMP | SB_TYPE_TIMESTAMP_TZ => t ← read_timestamp d; bound (setTimestamp index t stmt)
      | SB_TYPE_UUID => u ← read_uuid d; bound (setUUID index u stmt)
      | SB_TYPE_NULL => Ret (SB_ERR_INVALID_PARAM, stmt)
      end
  end.

(** [ParamValue{}] in binary format with the type of the value. *)
Definition fresh_param (oid : Z) : ParamValue := default_param <| pformat := kFormatBinary |> <| ptype_oid := oid |>.

(** [out] filled in, [None] when the code is an error ([out] is not used then). *)
Definition build_param_value (value : option sb_value) : outcome (sb_error_code * option ParamValue) :=
  match value with
  | None => Ret (SB_ERR_NULL_POINTER, None)
  | Some value =>
      let oid := resolve_type_oid value in
      let out := fresh_param oid in
      let d := vdata value in
      let with_data (b : bytes) := Ret (SB_OK, Some (out <| pdata := b |>)) in
      if visnull value || bool_decide (vtype value = SB_TYPE_NULL) then Ret (SB_OK, Some (out <| WireBuild.is_null := true |>)) else
      if bool_decide (vtype value ∈ [SB_TYPE_RANGE; SB_TYPE_ARRAY]) && (oid =? 0) then Ret (SB_ERR_INVALID_PARAM, None) else
      match vtype value with
      | SB_TYPE_BOOLEAN => v ← read_boolean d; with_data [if v =? 0 then Byte.x00 else Byte.x01]
      | SB_TYPE_SMALLINT => v ← read_smallint d; with_data (bytes2 v)
      | SB_TYPE_INTEGER => v ← read_integer d; with_data (bytes4 v)
      | SB_TYPE_BIGINT => v ← read_bigint d; with_data (bytes8 v)
      | SB_TYPE_REAL => v ← read_real d; with_data (bytes4 v)
      | SB_TYPE_DOUBLE => v ← read_double d; with_data (bytes8 v)
      | SB_TYPE_CHAR | SB_TYPE_VARCHAR | SB_TYPE_TEXT | SB_TYPE_JSON | SB_TYPE_JSONB | SB_TYPE_XML
      | SB_TYPE_TSVECTOR | SB_TYPE_TSQUERY | SB_TYPE_DECIMAL =>
          '(p, n) ← read_string d; b ← from_pointer p n; with_data b
      | SB_TYPE_ARRAY | SB_TYPE_VECTOR | SB_TYPE_INET | SB_TYPE_CIDR | SB_TYPE_MACADDR =>
          '(p, n) ← read_binary d;
          if bool_decide (p = None) && (0 <? n)%nat then Ret (SB_ERR_NULL_POINTER, None) else
          b ← from_nullable p n; with_data b
      | SB_TYPE_COMPOSITE | SB_TYPE_RANGE | SB_TYPE_UNKNOWN | SB_TYPE_GEOMETRY | SB_TYPE_BLOB =>
          '(p, n) ← read_binary d; b ← from_nullable p n; with_data b
      | SB_TYPE_MONEY => cents ← read_money d; with_data (le_bytes 8 cents)
      | SB_TYPE_DATE => '(y, m, dd) ← read_date d; days ← days_of_date y m dd; with_data (bytes4 days)
      | SB_TYPE_TIME | SB_TYPE_TIME_TZ =>
          '(h, m, s, us) ← read_time d; with_data (bytes8 (micros_of_time h m s us))
      | SB_TYPE_INTERVAL => '(micros, days, months) ← read_interval d; with_data (interval_bytes micros days months)
      | SB_TYPE_TIMESTAMP | SB_TYPE_TIMESTAMP_TZ =>
          t ← read_timestamp d;
          let micros_since_2000 := t - kDaysFrom1970To2000 * kMicrosPerDay in
          if micros_since_2000 <? - 2 ^ 63 then UB else with_data (bytes8 micros_since_2000)
      | SB_TYPE_UUID => u ← read_uuid d; with_data u
      | SB_TYPE_NULL => Ret (SB_ERR_INVALID_PARAM, None)
      end
  end.

(** ** Decoding *)

Definition decode_date (days_since_2000 : Z) : sb_data :=
  let days_since_epoch := days_since_2000 + kDaysFrom1970To2000 in
  date_val (extractYear days_since_epoch) (extractMonth days_since_epoch) (extractDay days_since_epoch).

Definition decode_time (micros : Z) : sb_data :=
  time_val (extractHour micros) (extractMinute micros) (extractSecond micros) (extractMicrosecond micros).

Definition decode_timestamp (micros : Z) : sb_data := timestamp_val micros 0.

(** The pointer into the cell; that of an empty vector may be null. *)
Definition cell_binary (data : bytes) : sb_data :=
  binary_val (if bool_decide (data = []) then None else Some data) (length data).
Definition cell_string (data : bytes) : sb_data := string_val (Some data) (length data).

(** Only the first sixteen bytes of an interval are read; short data gives
    zeros. The sum of a timestamp must not overflow. *)
Definition cell_data (type : sb_type) (data : bytes) : outcome sb_data :=
  match type with
  | SB_TYPE_BOOLEAN => Ret (boolean_val (match data with b :: _ => if byte_val b =? 0 then 0 else 1 | [] => 0 end))
  | SB_TYPE_SMALLINT => Ret (smallint_val (default 0 (decode_int16 data)))
  | SB_TYPE_INTEGER => Ret (integer_val (default 0 (decode_int32 data)))
  | SB_TYPE_BIGINT => Ret (bigint_val (default 0 (decode_int64 data)))
  | SB_TYPE_REAL => Ret (real_val (default 0 (decodeScalar 4 data)))
  | SB_TYPE_DOUBLE => Ret (double_val (default 0 (decodeScalar 8 data)))
  | SB_TYPE_MONEY => Ret (money_val (default 0 (decode_int64 data)))
  | SB_TYPE_DATE => Ret (decode_date (default 0 (decode_int32 data)))
  | SB_TYPE_TIME | SB_TYPE_TIME_TZ => Ret (decode_time (default 0 (decode_int64 data)))
  | SB_TYPE_INTERVAL =>
      Ret (if (length data <? 16)%nat then interval_val 0 0 0
           else interval_val (default 0 (decode_int64 data)) (default 0 (decode_int32 (drop 8 data)))
                  (default 0 (decode_int32 (drop 12 data))))
  | SB_TYPE_TIMESTAMP | SB_TYPE_TIMESTAMP_TZ =>
      let micros := default 0 (decode_int64 data) + kDaysFrom1970To2000 * kMicrosPerDay in
      if 2 ^ 63 <=? micros then UB else Ret (decode_timestamp micros)
  | SB_TYPE_UUID => Ret (uuid_val (if (length data <? 16)%nat then replicate 16 Byte.x00 else take 16 data))
  | SB_TYPE_BLOB | SB_TYPE_GEOMETRY | SB_TYPE_ARRAY | SB_TYPE_VECTOR | SB_TYPE_INET | SB_TYPE_CIDR | SB_TYPE_MACADDR
  | SB_TYPE_COMPOSITE | SB_TYPE_RANGE | SB_TYPE_UNKNOWN => Ret (cell_binary data)
  | SB_TYPE_CHAR | SB_TYPE_VARCHAR | SB_TYPE_TEXT | SB_TYPE_JSON | SB_TYPE_JSONB | SB_TYPE_XML | SB_TYPE_TSVECTOR
  | SB_TYPE_TSQUERY | SB_TYPE_DECIMAL | SB_TYPE_NULL => Ret (cell_string data)
  end.

(** A row names its result set and an index into it; null pointers are [None].
    The value is the one written, [None] when the code is an error. *)
Record sb_row := mkRow { r_results : NetworkResultSet; r_index : nat }.

Definition sb_value_get (row : option sb_row) (column : Z) (out : bool) : outcome (sb_error_code * option sb_value) :=
  match row with
  | None => Ret (SB_ERR_NULL_POINTER, None)
  | Some row =>
      if negb out then Ret (SB_ERR_NULL_POINTER, None) else
      match rows (r_results row) !! r_index row with
      | None => Ret (SB_ERR_RESULT_EXHAUSTED, None)
      | Some cells =>
          if (column <? 0) || (blen cells <=? column) then Ret (SB_ERR_INVALID_PARAM, None) else
          match cells !! Z.to_nat column with
          | None => UB
          | Some value =>
              let type_oid := from_option nc_type_oid 0 (NetworkClient.columns (r_results row) !! Z.to_nat column) in
              let type := map_type_oid type_oid in
              if WireParse.is_null value then Ret (SB_OK, Some (mkSbValue type true type_oid no_data)) else
              d ← cell_data type (data value);
              Ret (SB_OK, Some (mkSbValue type false type_oid d))
          end
      end
  end.

Definition sb_get_int64 (row : option sb_row) (column : Z) (out : bool) : outcome (sb_error_code * option Z) :=
  if negb out then Ret (SB_ERR_NULL_POINTER, None) else
  '(status, value) ← sb_value_get row column true;
  match value with
  | None => Ret (status, None)
  | Some value =>
      if visnull value then Ret (SB_OK, Some 0) else
      match vtype value with
      | SB_TYPE_SMALLINT => v ← read_smallint (vdata value); Ret (SB_OK, Some v)
      | SB_TYPE_INTEGER => v ← read_integer (vdata value); Ret (SB_OK, Some v)
      | SB_TYPE_BIGINT => v ← read_bigint (vdata value); Ret (SB_OK, Some v)
      | _ => Ret (SB_ERR_TYPE_MISMATCH, None)
      end
  end.

(** The types whose text is the binary member. *)
Definition binary_types : list sb_type :=
  [SB_TYPE_BLOB; SB_TYPE_GEOMETRY; SB_TYPE_ARRAY; SB_TYPE_COMPOSITE; SB_TYPE_RANGE; SB_TYPE_VECTOR; SB_TYPE_INET;
   SB_TYPE_CIDR; SB_TYPE_MACADDR; SB_TYPE_UNKNOWN].

(** The pointer that is returned, with the length that is stored. *)
Definition sb_get_string (row : option sb_row) (column : Z) : outcome (option bytes * nat) :=
  '(_, value) ← sb_value_get row column true;
  match value with
  | None => Ret (None, 0%nat)
  | Some value =>
      if visnull value then Ret (None, 0%nat) else
      if bool_decide (vtype value ∈ binary_types) then read_binary (vdata value) else
      '(p, n) ← read_string (vdata value);
      Ret (match p with Some p => (Some p, n) | None => (None, 0%nat) end)
  end.

(** ** What a value binds *)

(** The call of a setter that a value stands for, or the error code. *)
Definition bound_value (v : sb_value) : outcome (sb_error_code + NetworkParams.value) :=
  let oid := resolve_type_oid v in
  let d := vdata v in
  if visnull v then Ret (inr (VNullTyped oid)) else
  match vtype v with
  | SB_TYPE_BOOLEAN => x ← read_boolean d; Ret (inr (VBool (negb (x =? 0))))
  | SB_TYPE_SMALLINT => x ← read_smallint d; Ret (inr (VInt16 x))
  | SB_TYPE_INTEGER => x ← read_integer d; Ret (inr (VInt32 x))
  | SB_TYPE_BIGINT => x ← read_bigint d; Ret (inr (VInt64 x))
  | SB_TYPE_REAL => x ← read_real d; Ret (inr (VFloat x))
  | SB_TYPE_DOUBLE => x ← read_double d; Ret (inr (VDouble x))
  | SB_TYPE_CHAR | SB_TYPE_VARCHAR | SB_TYPE_TEXT | SB_TYPE_JSON | SB_TYPE_JSONB | SB_TYPE_XML
  | SB_TYPE_TSVECTOR | SB_TYPE_TSQUERY | SB_TYPE_DECIMAL =>
      '(p, n) ← read_string d; b ← from_pointer p n; Ret (inr (VStringTyped b oid))
  | SB_TYPE_ARRAY | SB_TYPE_VECTOR | SB_TYPE_INET | SB_TYPE_CIDR | SB_TYPE_MACADDR =>
      '(p, n) ← read_binary d;
      if bool_decide (p = None) && (0 <? n)%nat then Ret (inl SB_ERR_NULL_POINTER) else
      b ← from_nullable p n; Ret (inr (VBinary (Some b) oid))
  | SB_TYPE_COMPOSITE | SB_TYPE_RANGE | SB_TYPE_UNKNOWN | SB_TYPE_GEOMETRY =>
      '(p, n) ← read_binary d; b ← from_nullable p n; Ret (inr (VBinary (Some b) oid))
  | SB_TYPE_BLOB => '(p, n) ← read_binary d; b ← from_nullable p n; Ret (inr (VBytes (Some b)))
  | SB_TYPE_MONEY => x ← read_money d; Ret (inr (VBinary (Some (le_bytes 8 x)) oid))
  | SB_TYPE_DATE => '(y, m, dd) ← read_date d; days ← days_of_date y m dd; Ret (inr (VDate days))
  | SB_TYPE_TIME | SB_TYPE_TIME_TZ => '(h, m, s, us) ← read_time d; Ret (inr (VTime (micros_of_time h m s us)))
  | SB_TYPE_INTERVAL =>
      '(micros, days, months) ← read_interval d; Ret (inr (VBinary (Some (interval_bytes micros days months)) oid))
  | SB_TYPE_TIMESTAMP | SB_TYPE_TIMESTAMP_TZ => t ← read_timestamp d; Ret (inr (VTimestamp t))
  | SB_TYPE_UUID => u ← read_uuid d; Ret (inr (VUuid u))
  | SB_TYPE_NULL => Ret (inl SB_ERR_INVALID_PARAM)
  end.

(** The types with a type identifier of their own. *)
Lemma own_oid v t : vtype v = t → t ∈ [SB_TYPE_RANGE; SB_TYPE_ARRAY] → (resolve_type_oid v =? 0) = false.
Proof.
  intros <- Ht. unfold resolve_type_oid. destruct (Z.eqb_spec (void v) 0) as [_|Hn]; cbn [negb]; [|lia].
  apply elem_of_cons in Ht as [->|[->|[]%elem_of_nil]%elem_of_cons]; done.
Qed.

(** Both sides read the same member: case analysis on what is read. *)
Ltac by_reading :=
  repeat (cbn [mbind outcome_bind]; try done;
    match goal with
    | |- context [from_pointer ?p ?n] => destruct (from_pointer p n)
    | |- context [from_nullable ?p ?n] => destruct (from_nullable p n)
    | |- context [days_of_date ?y ?m ?d] => destruct (days_of_date y m d)
    | |- context [bool_decide (?p = None) && ?b] => destruct (bool_decide (p = None) && b)
    end); done.

(** The tests for a type without identifier never succeed. *)
Ltac own_types v :=
  try match goal with E : vtype v = ?t |- _ =>
    rewrite ?(bool_decide_eq_false_2 (t ∈ [SB_TYPE_RANGE; SB_TYPE_ARRAY])) by set_solver;
    rewrite ?(bool_decide_eq_false_2 (t = SB_TYPE_ARRAY)) by done;
    rewrite ?(own_oid v t E) by set_solver
  end; rewrite ?andb_false_r; cbn [andb].

Lemma apply_as_set stmt i v :
  apply_bind_value stmt i (Some v) =
    (b ← bound_value v; match b with inl c => Ret (c, stmt) | inr w => bound (set i w stmt) end).
Proof.
  unfold apply_bind_value, bound_value. cbv zeta. destruct (visnull v); [done|].
  destruct (vtype v) eqn:Et; own_types v; try done;
    destruct (vdata v); cbn [read_boolean read_smallint read_integer read_bigint read_real read_double read_money
      read_string read_binary read_interval read_date read_time read_timestamp read_uuid]; try done;
    try (destruct (length uuid =? 16)%nat); by_reading.
Qed.

#[export] Instance representable_dec c : Decision (representable c).
Proof. destruct c as [i v|]; [destruct v|]; cbn [representable]; apply _. Defined.

(** What the value [w] becomes without a setter: the bytes it means. *)
Definition meant_param (oid : Z) (w : NetworkParams.value) : ParamValue :=
  match meaning w with
  | Some b => fresh_param oid <| pdata := b |>
  | None => fresh_param oid <| WireBuild.is_null := true |>
  end.

Lemma timestamp_bytes out t :
  (if t - kDaysFrom1970To2000 * kMicrosPerDay <? - 2 ^ 63 then UB
   else Ret (SB_OK, Some (out <| pdata := bytes8 (t - kDaysFrom1970To2000 * kMicrosPerDay) |>))) =
  (if bool_decide (representable (Set_ 1 (VTimestamp t)))
   then Ret (SB_OK, Some (out <| pdata := bytes8 (t - 946684800 * 1000000) |>)) else UB).
Proof.
  change (kDaysFrom1970To2000 * kMicrosPerDay) with (946684800 * 1000000). cbn [representable].
  by case_bool_decide; [guard_false|guard_true].
Qed.

Lemma build_as_meaning v :
  vtype v ≠ SB_TYPE_NULL ∨ visnull v = true →
  build_param_value (Some v) =
    (b ← bound_value v;
     match b with
     | inl c => Ret (c, None)
     | inr w => if bool_decide (representable (Set_ 1 w)) then Ret (SB_OK, Some (meant_param (resolve_type_oid v) w)) else UB
     end).
Proof.
  intros Hnull. unfold build_param_value, bound_value. cbv zeta. destruct (visnull v); [done|].
  destruct Hnull as [Hnull|]; [|done]. cbn [orb]. rewrite (bool_decide_eq_false_2 _ Hnull).
  destruct (vtype v) eqn:Et; own_types v; try done;
    destruct (vdata v); cbn [read_boolean read_smallint read_integer read_bigint read_real read_double read_money
      read_string read_binary read_interval read_date read_time read_timestamp read_uuid]; try done;
    try (destruct (length uuid =? 16)%nat); cbn [mbind outcome_bind]; try done;
    unfold meant_param; cbn [meaning]; rewrite <-?bytes2_spec, <-?bytes4_spec, <-?bytes8_spec; try done.
  all: try solve [by_reading].
  - by destruct (v0 =? 0).
  - destruct (days_of_date year month day); [|done]. cbn [mbind outcome_bind meaning]. by rewrite <-bytes4_spec.
  - apply timestamp_bytes.
  - apply timestamp_bytes.
Qed.

Lemma bound_value_error v c : bound_value v = Ret (inl c) → c ≠ SB_OK.
Proof.
  unfold bound_value. cbv zeta. destruct (visnull v); [done|].
  destruct (vtype v), (vdata v); cbn [read_boolean read_smallint read_integer read_bigint read_real read_double
    read_money read_string read_binary read_interval read_date read_time read_timestamp read_uuid mbind outcome_bind];
    try done; try (intros H; injection H as <-; done);
    repeat match goal with
    | |- context [from_pointer ?p ?n] => destruct (from_pointer p n)
    | |- context [from_nullable ?p ?n] => destruct (from_nullable p n)
    | |- context [days_of_date ?y ?m ?d] => destruct (days_of_date y m d)
    | |- context [bool_decide (?p = None) && ?b] => destruct (bool_decide (p = None) && b)
    | |- context [(length ?u =? 16)%nat] => destruct (length u =? 16)%nat
    end; try done; intros H; injection H as <-; done.
Qed.

Lemma set_not_representable i w s : ¬ representable (Set_ 1 w) → set (S i) w s = UB.
Proof.
  destruct w; try (intros []; exact I). cbn [representable set]. intros Hr. unfold setTimestamp. cbn [Nat.eqb].
  change (kDaysFrom1970To2000 * kMicrosPerDay) with (946684800 * 1000000). by guard_true.
Qed.

(** The two ways a value is bound agree: [sb_bind_index] through the setters of a
    prepared statement and [sb_execute_sblr] through a parameter of its own return the
    same code, are undefined for the same values, and send the server the same
    bytes or the same null; an error leaves the statement as it was. Only the
    type given as null to the first without being a null value differs. *)
Theorem binders_agree stmt i v :
  aligned stmt → vtype v ≠ SB_TYPE_NULL ∨ visnull v = true →
  match build_param_value (Some v), apply_bind_value stmt (S i) (Some v) with
  | Ret (c, Some p), Ret (c', stmt') =>
      c = SB_OK ∧ c' = SB_OK ∧ aligned stmt' ∧ identity stmt' = identity stmt ∧
      wire_slots stmt' i = Some (wire_value p) ∧
      ∀ j, j ≠ i → (j < length (params_ stmt))%nat → params_ stmt' !! j = params_ stmt !! j
  | Ret (c, None), Ret (c', stmt') => c = c' ∧ c ≠ SB_OK ∧ stmt' = stmt
  | UB, UB => True
  | _, _ => False
  end.
Proof.
  intros Ha Hn. rewrite build_as_meaning, apply_as_set by done.
  destruct (bound_value v) as [[c|w]|] eqn:Hb; cbn [mbind outcome_bind]; [| |done].
  - split_and!; [done| |done]. intros ->. by apply bound_value_error in Hb.
  - unfold bound. case_bool_decide as Hr.
    + destruct (set_as_write (S i) w Hr) as (change & oid & Hset & Hch). rewrite Hset.
      destruct (set_param_spec (S i) change oid stmt Ha) as (s' & -> & Ha' & Hid & Hl). cbn [mbind outcome_bind].
      split_and!; try done.
      * unfold wire_slots. rewrite Hl. unfold slot_write. rewrite Nat.eqb_refl. cbn [fmap option_fmap option_map].
        f_equal. rewrite (proj1 (Hch _)). unfold meant_param. by destruct (meaning w).
      * intros j Hj Hlt. rewrite Hl. unfold slot_write. rewrite (proj2 (Nat.eqb_neq (S j) (S i))) by lia.
        destruct (lookup_lt_is_Some_2 _ _ Hlt) as [p ->]. by destruct (S j <? S i)%nat.
    + by rewrite set_not_representable.
Qed.

Definition sample_blob : sb_value := mkSbValue SB_TYPE_BLOB false 0 (binary_val (Some ("abcd" : bytes)) 3).

Lemma binders_agree_witness :
  match build_param_value (Some sample_blob), apply_bind_value sample_statement 2 (Some sample_blob) with
  | Ret (c, Some p), Ret (c', stmt') =>
      c = SB_OK ∧ c' = SB_OK ∧ aligned stmt' ∧ identity stmt' = identity sample_statement ∧
      wire_slots stmt' 1 = Some (wire_value p) ∧
      ∀ j, j ≠ 1%nat → (j < length (params_ sample_statement))%nat →
        params_ stmt' !! j = params_ sample_statement !! j
  | _, _ => False
  end.
Proof.
  pose proof (binders_agree sample_statement 1 sample_blob ltac:(reflexivity) ltac:(left; discriminate)) as H.
  exact H.
Defined.

(** ** From a value to a cell and back *)

(** A value that the types of its column can carry. *)
Definition proper (d : sb_data) : Prop :=
  match d with
  | smallint_val x => - 2 ^ 15 <= x < 2 ^ 15
  | integer_val x => - 2 ^ 31 <= x < 2 ^ 31
  | bigint_val x | money_val x => - 2 ^ 63 <= x < 2 ^ 63
  | real_val bits => in_u32 bits
  | double_val bits => in_u64 bits
  | interval_val micros days months =>
      - 2 ^ 63 <= micros < 2 ^ 63 ∧ - 2 ^ 31 <= days < 2 ^ 31 ∧ - 2 ^ 31 <= months < 2 ^ 31
  | date_val y m dd =>
      ¬ (m = 2 ∧ dd = 29) ∧ ∃ days, - 2 ^ 31 + 10957 <= days < 2 ^ 31 ∧ civil days = (y, m, dd)
  | time_val h m s us => 0 <= h < 24 ∧ 0 <= m < 60 ∧ 0 <= s < 60 ∧ 0 <= us < 1000000
  | timestamp_val t _ => - 2 ^ 63 + epoch_gap <= t < 2 ^ 63
  | no_data | boolean_val _ | string_val _ _ | binary_val _ _ | uuid_val _ => True
  end.

(** What is read for it: the pointers are those of the cell. *)
Definition reads_as (d : sb_data) : outcome sb_data :=
  match d with
  | boolean_val x => Ret (boolean_val (if x =? 0 then 0 else 1))
  | string_val p n => b ← from_pointer p n; Ret (cell_string b)
  | binary_val p n => b ← from_nullable p n; Ret (cell_binary b)
  | timestamp_val t _ => Ret (timestamp_val t 0)
  | d => Ret d
  end.

Lemma time_parts h m s us :
  0 <= h < 24 → 0 <= m < 60 → 0 <= s < 60 → 0 <= us < 1000000 →
  decode_time (micros_of_time h m s us) = time_val h m s us.
Proof.
  intros. unfold decode_time, micros_of_time, extractHour, extractMinute, extractSecond, extractMicrosecond.
  unfold kMicrosPerSecond.
  assert (Hq : Z.quot ((h * 3600 + m * 60 + s) * 1000000 + us) 1000000 = h * 3600 + m * 60 + s)
    by (Z.to_euclidean_division_equations; lia).
  rewrite Hq. rewrite !i32_small by (Z.to_euclidean_division_equations; lia).
  f_equal; Z.to_euclidean_division_equations; lia.
Qed.

Lemma date_parts y m dd days :
  - 2 ^ 31 + 10957 <= days < 2 ^ 31 → civil days = (y, m, dd) → ¬ (m = 2 ∧ dd = 29) →
  days_of_date y m dd = Ret (days - 10957) ∧ decode_date (days - 10957) = date_val y m dd.
Proof.
  intros Hd Hc Hl. assert (Hr : day_range days) by (unfold day_range; lia).
  unfold days_of_date, decode_date, extractYear, extractMonth, extractDay, kDaysFrom1970To2000. cbv zeta.
  rewrite (ymdToDays_civil_raw days) by done. rewrite i32_small by lia. guard_false. split; [done|].
  replace (days - 10957 + 10957) with days by lia. by rewrite daysToYMD_civil, Hc, decoded_other by done.
Qed.

Lemma interval_parts micros days months :
  - 2 ^ 63 <= micros < 2 ^ 63 → - 2 ^ 31 <= days < 2 ^ 31 → - 2 ^ 31 <= months < 2 ^ 31 →
  cell_data SB_TYPE_INTERVAL (interval_bytes micros days months) = Ret (interval_val micros days months).
Proof.
  intros. unfold cell_data, interval_bytes, decode_int32, decode_int64, decodeScalar.
  rewrite !length_drop, !length_app, !length_le_bytes. cbn [Nat.add Nat.sub Nat.ltb Nat.leb].
  rewrite (take_app_length' _ _ 8) by (by rewrite length_le_bytes).
  rewrite (drop_app_length' _ _ 8) by (by rewrite length_le_bytes).
  rewrite (take_app_length' _ _ 4) by (by rewrite length_le_bytes).
  rewrite app_assoc, (drop_app_length' _ _ 12) by (by rewrite length_app, !length_le_bytes).
  rewrite (take_ge (le_bytes 4 months)) by (rewrite length_le_bytes; lia).
  cbn [fmap option_fmap option_map default from_option]. unfold i32, i64.
  by rewrite !le_val_le_bytes, (to_signed_mod 64), !(to_signed_mod 32) by lia.
Qed.

(** The column a value is stored in when its type is sent with it. *)
Definition stored_type (t : sb_type) : sb_type := if bool_decide (t = SB_TYPE_VARCHAR) then SB_TYPE_TEXT else t.

Lemma stored_type_spec t : t ≠ SB_TYPE_NULL → map_type_oid (map_sb_type_to_oid t) = stored_type t.
Proof. by destruct t. Qed.

Lemma time_cell h m s us :
  0 <= h < 24 ∧ 0 <= m < 60 ∧ 0 <= s < 60 ∧ 0 <= us < 1000000 →
  Ret (decode_time (default 0 (decode_int64 (le_bytes 8 (micros_of_time h m s us))))) = Ret (time_val h m s us).
Proof.
  intros (? & ? & ? & ?). rewrite decode_int64_le by (unfold micros_of_time, kMicrosPerSecond; lia).
  by rewrite <-time_parts.
Qed.

Lemma timestamp_cell t :
  - 2 ^ 63 + epoch_gap <= t < 2 ^ 63 →
  (let micros := t - 946684800 * 1000000 + kDaysFrom1970To2000 * kMicrosPerDay in
   if 2 ^ 63 <=? micros then UB else Ret (decode_timestamp micros)) = Ret (timestamp_val t 0).
Proof.
  intros Ht. change (kDaysFrom1970To2000 * kMicrosPerDay) with (946684800 * 1000000).
  replace (t - 946684800 * 1000000 + 946684800 * 1000000) with t by lia. cbv zeta. by guard_false.
Qed.

Lemma ret_inr {A B} (a b : B) : Ret (inr a : A + B) = Ret (inr b) → a = b.
Proof. by intros [= ->]. Qed.

(** What is read back for what is bound, given the type of the column. *)
Lemma bound_cell v w d :
  bound_value v = Ret (inr w) → visnull v = false → vtype v ≠ SB_TYPE_NULL → proper (vdata v) → meaning w = Some d →
  cell_data (stored_type (vtype v)) d = reads_as (vdata v).
Proof.
  unfold bound_value. cbv zeta. intros Hb Hn Ht Hp Hm. rewrite Hn in Hb. clear Hn.
  destruct (vtype v), (vdata v);
    cbn [read_boolean read_smallint read_integer read_bigint read_real read_double
      read_money read_string read_binary read_interval read_date read_time read_timestamp read_uuid mbind outcome_bind
      proper reads_as] in *; try done; clear Ht;
    try match type of Hb with
    | context [bool_decide (?p = None) && ?b] => destruct (bool_decide (p = None) && b); [done|]
    end;
    try match type of Hb with
    | context [from_pointer ?p ?n] => destruct (from_pointer p n)
    | context [from_nullable ?p ?n] => destruct (from_nullable p n)
    end; cbn [mbind outcome_bind] in *; try done.
  all: try (destruct (length uuid =? 16)%nat eqn:Hu; cbn [mbind outcome_bind] in Hb; [|done]).
  all: try (destruct Hp as (Hl & days & Hd & Hc); destruct (date_parts _ _ _ _ Hd Hc Hl) as [E Hdec];
            rewrite E in Hb; cbn [mbind outcome_bind] in Hb).
  all: apply ret_inr in Hb as <-; cbn [meaning] in Hm; apply (inj Some) in Hm as <-; cbn [default from_option id]; try done;
    unfold stored_type; rewrite bool_decide_eq_false_2 by done; try (by apply interval_parts);
    cbn [cell_data]; unfold int_bytes, in_u32, in_u64 in *;
    rewrite ?decode_int16_le, ?decode_int32_le, ?decode_int64_le, ?decodeScalar_le by (unfold epoch_gap in *; lia);
    cbn [default from_option id]; rewrite ?Z.mod_small by lia; try done.
  - by destruct (v0 =? 0).
  - by rewrite Hdec.
  - by apply time_cell.
  - by apply time_cell.
  - by apply timestamp_cell.
  - by apply timestamp_cell.
  - apply interval_parts; tauto.
  - apply Nat.eqb_eq in Hu. rewrite Hu. by rewrite take_ge by lia.
Qed.

Lemma bound_value_meaning v w : bound_value v = Ret (inr w) → visnull v = false → ∃ d, meaning w = Some d.
Proof.
  unfold bound_value. cbv zeta. intros Hb Hn. rewrite Hn in Hb.
  destruct (vtype v), (vdata v);
    cbn [read_boolean read_smallint read_integer read_bigint read_real read_double
      read_money read_string read_binary read_interval read_date read_time read_timestamp read_uuid mbind outcome_bind]
      in Hb; try done;
    repeat match type of Hb with
    | context [bool_decide (?p = None) && ?b] => destruct (bool_decide (p = None) && b)
    | context [from_pointer ?p ?n] => destruct (from_pointer p n)
    | context [from_nullable ?p ?n] => destruct (from_nullable p n)
    | context [days_of_date ?y ?m ?d] => destruct (days_of_date y m d)
    | context [(length ?u =? 16)%nat] => destruct (length u =? 16)%nat
    end; try done; apply ret_inr in Hb as <-; by eexists.
Qed.


Definition sample_date : sb_value := mkSbValue SB_TYPE_DATE false 0 (date_val 2024 10 4).


(** ** Reading through the union *)

(** The cell has a value of a type that is neither bytes nor text. *)
Definition scalar_types : list sb_type :=
  [SB_TYPE_BOOLEAN; SB_TYPE_SMALLINT; SB_TYPE_INTEGER; SB_TYPE_BIGINT; SB_TYPE_REAL; SB_TYPE_DOUBLE; SB_TYPE_MONEY;
   SB_TYPE_DATE; SB_TYPE_TIME; SB_TYPE_TIME_TZ; SB_TYPE_TIMESTAMP; SB_TYPE_TIMESTAMP_TZ; SB_TYPE_INTERVAL; SB_TYPE_UUID].

Definition cell_type (row : sb_row) (column : Z) : sb_type :=
  map_type_oid (from_option nc_type_oid 0 (NetworkClient.columns (r_results row) !! Z.to_nat column)).

Lemma sb_value_get_cell row column cells cell :
  rows (r_results row) !! r_index row = Some cells → 0 <= column → cells !! Z.to_nat column = Some cell →
  sb_value_get (Some row) column true =
    (let oid := from_option nc_type_oid 0 (NetworkClient.columns (r_results row) !! Z.to_nat column) in
     if WireParse.is_null cell then Ret (SB_OK, Some (mkSbValue (cell_type row column) true oid no_data)) else
     d ← cell_data (cell_type row column) (data cell);
     Ret (SB_OK, Some (mkSbValue (cell_type row column) false oid d))).
Proof.
  intros Hr Hc Hcell. unfold sb_value_get, cell_type. cbn [negb]. rewrite Hr, Hcell.
  pose proof (lookup_lt_Some _ _ _ Hcell) as H.
  assert (E : (column <? 0) || (blen cells <=? column) = false) by (clear - Hc H; lia). by rewrite E.
Qed.

Lemma cell_data_defined t d :
  defined (cell_data t d) ↔
    ¬ (t ∈ [SB_TYPE_TIMESTAMP; SB_TYPE_TIMESTAMP_TZ] ∧ 2 ^ 63 - epoch_gap <= default 0 (decode_int64 d)).
Proof.
  assert (Hts : ∀ z, defined (let micros := z + kDaysFrom1970To2000 * kMicrosPerDay in
    if 2 ^ 63 <=? micros then UB else Ret (decode_timestamp micros)) ↔ ¬ 2 ^ 63 - epoch_gap <= z).
  { intros z. change (kDaysFrom1970To2000 * kMicrosPerDay) with epoch_gap. cbv zeta.
    destruct (Z.leb_spec (2 ^ 63) (z + epoch_gap)); cbn [defined]; split; [done|lia|lia|done]. }
  destruct (decide (t ∈ [SB_TYPE_TIMESTAMP; SB_TYPE_TIMESTAMP_TZ])) as [Ht|Ht].
  - transitivity (¬ 2 ^ 63 - epoch_gap <= default 0 (decode_int64 d)); [|naive_solver].
    rewrite <-Hts. apply elem_of_cons in Ht as [->|[->|[]%elem_of_nil]%elem_of_cons]; done.
  - split; [intros _ [? _]; done|intros _]. destruct t; try done; exfalso; apply Ht; set_solver.
Qed.

Lemma text_defined t d :
  defined (d ← cell_data t d;
           if bool_decide (t ∈ binary_types) then read_binary d
           else '(p, n) ← read_string d; Ret (match p with Some p => (Some p, n) | None => (None, 0%nat) end)) ↔
  t ∉ scalar_types.
Proof.
  destruct (decide (t ∈ scalar_types)) as [Hs|Hs].
  - split; [|done]. intros Hd. exfalso. revert Hd.
    destruct t; try (exfalso; by apply (bool_decide_pack _) in Hs); cbn [cell_data]; try exact id;
      first [destruct (2 ^ 63 <=? _); exact id | destruct (length d <? 16)%nat; exact id].
  - split; [done|intros _]. destruct t; try exact I; exfalso; apply Hs; by_evaluation.
Qed.

(** A cell is read without undefined behaviour, a timestamp near the end of
    its range apart, and its text only when it is null or of a type of bytes or
    text: for a number, a date or a UUID [sb_get_string] reads a member of the
    union that was not written. *)
Theorem text_of_scalar_undefined row column cells cell :
  rows (r_results row) !! r_index row = Some cells → 0 <= column → cells !! Z.to_nat column = Some cell →
  (defined (sb_value_get (Some row) column true) ↔
     WireParse.is_null cell ∨ ¬ (cell_type row column ∈ [SB_TYPE_TIMESTAMP; SB_TYPE_TIMESTAMP_TZ] ∧
       2 ^ 63 - epoch_gap <= default 0 (decode_int64 (data cell)))) ∧
  (defined (sb_get_string (Some row) column) ↔ WireParse.is_null cell ∨ cell_type row column ∉ scalar_types).
Proof.
  intros Hr Hc Hcell. unfold sb_get_string. rewrite (sb_value_get_cell _ _ _ _ Hr Hc Hcell). cbv zeta.
  destruct (WireParse.is_null cell); [split; (split; [intros _; by left|done])|].
  assert (Hnot : ∀ P : Prop, (false ∨ P) ↔ P) by (intros P; split; [intros [[]|]; done|by right]). rewrite !Hnot.
  split; [rewrite <-cell_data_defined; by destruct (cell_data _ _)|].
  rewrite <-(text_defined (cell_type row column) (data cell)). by destruct (cell_data _ _).
Qed.

Definition sample_cells : sb_row :=
  mkRow (mkResults [mkNetworkColumn "n" kOidInt4 (-1) Byte.x01 true] [[mkValue (int_bytes 4 7) false]] 1 []) 0.

Lemma text_of_scalar_undefined_witness :
  sb_get_int64 (Some sample_cells) 0 true = Ret (SB_OK, Some 7) ∧ ¬ defined (sb_get_string (Some sample_cells) 0).
Proof.
  split; [reflexivity|].
  destruct (text_of_scalar_undefined sample_cells 0 _ (mkValue (int_bytes 4 7) false) eq_refl ltac:(lia) eq_refl) as [_ H].
  rewrite H. intros [[]|Hn]. apply Hn. by_evaluation.
Defined.
