(* ===== verification/Metadata.v ===== *)
(** * Metadata: schema paths and the schema tree

    Models the path handling and the tree of [src/metadata.cpp]. A node is
    named by its full path: [nodes_by_path] holds one node per path, and the
    [children] vectors own the nodes, so a vector of owners is a list of paths. *)

From S2P Require Import Prelude.

(** ** Schema paths *)

Definition trim (value : bytes) : bytes := trim_with isspace value.

Definition dot : byte := "."%byte.

(** The pieces between dots, trimmed, the empty ones dropped. *)
Definition splitSchemaPath (schema_name : bytes) : list bytes :=
  filter (λ s, s ≠ []) (trim <$> split_on dot schema_name).

Definition normalizeSchemaPath (schema_name : bytes) : bytes :=
  join_with [dot] (splitSchemaPath schema_name).

(** [if (seen.insert(p).second) out.push_back(p);] on [(out, seen)]. *)
Definition add_path (p : bytes) (st : list bytes * gset bytes) : list bytes * gset bytes :=
  if decide (p ∈ st.2) then st else (st.1 ++ [p], {[p]} ∪ st.2).

(** The inner loop of the expansion: [current] and the segments left. *)
Fixpoint expand_loop (current : bytes) (parts : list bytes) (st : list bytes * gset bytes)
    : list bytes * gset bytes :=
  match parts with
  | [] => st
  | p :: parts =>
      let current := (if bool_decide (current = []) then current else current ++ [dot]) ++ p in
      expand_loop current parts (add_path current st)
  end.

Definition navigation_step (expand_schema_parents : bool) (st : list bytes * gset bytes) (raw : bytes)
    : list bytes * gset bytes :=
  let normalized := normalizeSchemaPath raw in
  if bool_decide (normalized = []) then st
  else if negb expand_schema_parents then add_path normalized st
  else expand_loop [] (splitSchemaPath normalized) st.

Definition metadataSchemaPathsForNavigation (schema_names : list bytes)
    (expand_schema_parents : bool) : list bytes :=
  (foldl (navigation_step expand_schema_parents) ([], ∅) schema_names).1.

(** ** The schema tree *)

Record MetadataSchemaTreeNode := mkNode {
  n_name : bytes;
  n_terminal : bool;
  n_children : list bytes
}.

(** [schemas] lists the roots; [nodes] is [nodes_by_path]. *)
Record MetadataSchemaTree := mkTree {
  t_database : bytes;
  t_schemas : list bytes;
  t_nodes : gmap bytes MetadataSchemaTreeNode
}.

Definition add_child (child : bytes) (n : MetadataSchemaTreeNode) : MetadataSchemaTreeNode :=
  mkNode (n_name n) (n_terminal n) (n_children n ++ [child]).

Definition mark_terminal (n : MetadataSchemaTreeNode) : MetadataSchemaTreeNode :=
  mkNode (n_name n) true (n_children n).

(** The node for [path], created under [parent] if there is none. *)
Definition find_or_create (parent : option bytes) (path name : bytes) (t : MetadataSchemaTree)
    : MetadataSchemaTree :=
  match t_nodes t !! path with
  | Some _ => t
  | None =>
      let nodes := <[path := mkNode name false []]> (t_nodes t) in
      match parent with
      | None => mkTree (t_database t) (t_schemas t ++ [path]) nodes
      | Some q => mkTree (t_database t) (t_schemas t) (alter (add_child path) q nodes)
      end
  end.

Definition mark_if_terminal (terminal_paths : list bytes) (path : bytes) (t : MetadataSchemaTree)
    : MetadataSchemaTree :=
  if bool_decide (path ∈ terminal_paths)
  then mkTree (t_database t) (t_schemas t) (alter mark_terminal path (t_nodes t))
  else t.

(** The loop over the segments of one path. *)
Fixpoint insert_loop (terminal_paths : list bytes) (parent : option bytes) (current_path : bytes)
    (parts : list bytes) (t : MetadataSchemaTree) : MetadataSchemaTree :=
  match parts with
  | [] => t
  | p :: parts =>
      let current_path :=
        (if bool_decide (current_path = []) then current_path else current_path ++ [dot]) ++ p in
      let t := find_or_create parent current_path p t in
      let t := mark_if_terminal terminal_paths current_path t in
      insert_loop terminal_paths (Some current_path) current_path parts t
  end.

Definition buildMetadataSchemaTree (schema_names : list bytes) (database : bytes)
    (expand_schema_parents : bool) : MetadataSchemaTree :=
  let schema_paths := metadataSchemaPathsForNavigation schema_names expand_schema_parents in
  foldl (λ t path, insert_loop schema_paths None [] (splitSchemaPath path) t)
    (mkTree (trim database) [] ∅) schema_paths.

(** ** Rows *)

Inductive MetadataTreeRowKind := DATABASE | SCHEMA.

Record MetadataSchemaTreeRow := mkRow {
  kind : MetadataTreeRowKind;
  database : bytes;
  parent_path : bytes;
  path : bytes;
  name : bytes;
  terminal : bool;
  top_level_branch : bool
}.

(** Depth first; [fuel] bounds the depth of the recursion. *)
Fixpoint appendRowsDepthFirst (fuel : nat) (t : MetadataSchemaTree) (node : bytes)
    (database_name parent_path : bytes) (top_level : bool) (rows : list MetadataSchemaTreeRow)
    : option (list MetadataSchemaTreeRow) :=
  match fuel with
  | O => None
  | S fuel =>
      match t_nodes t !! node with
      | None => Some rows
      | Some n =>
          let rows := rows ++ [mkRow SCHEMA database_name parent_path node (n_name n) (n_terminal n)
                                 top_level] in
          foldl (λ r child, rows ← r; appendRowsDepthFirst fuel t child database_name node false rows)
            (Some rows) (n_children n)
      end
  end.

Definition buildMetadataSchemaTreeRows (fuel : nat) (schema_names : list bytes) (database : bytes)
    (expand_schema_parents : bool) : option (list MetadataSchemaTreeRow) :=
  let tree := buildMetadataSchemaTree schema_names database expand_schema_parents in
  let database_name :=
    if bool_decide (t_database tree = []) then ("default" : bytes) else t_database tree in
  let rows := [mkRow DATABASE database_name [] database_name database_name false false] in
  foldl (λ r root, rows ← r; appendRowsDepthFirst fuel tree root database_name database_name true rows)
    (Some rows) (t_schemas tree).

Example rows_example :
  (map path <$> buildMetadataSchemaTreeRows 5 [("a.b" : bytes); ("a . c" : bytes); ("d" : bytes)] "db" true)
  = Some [("db" : bytes); ("a" : bytes); ("a.b" : bytes); ("a.c" : bytes); ("d" : bytes)].
Proof. vm_compute. reflexivity. Qed.

(** ** Path components *)

(** Not empty, trimmed, without dots. *)
Definition component (p : bytes) : Prop := p ≠ [] ∧ dot ∉ p ∧ trim p = p.

Lemma splitSchemaPath_components s : Forall component (splitSchemaPath s).
Proof.
  apply Forall_forall. intros p Hp. unfold splitSchemaPath in Hp.
  apply list_elem_of_filter in Hp as [Hne (q & -> & Hq)%list_elem_of_fmap].
  split; [done|]. split; [|apply trim_with_idem].
  intros Hd%trim_with_elem. by apply (split_on_elem _ _ _ Hq).
Qed.

Lemma split_on_join cs :
  cs ≠ [] → Forall component cs → split_on dot (join_with [dot] cs) = cs.
Proof.
  intros Hne Hcs. induction Hcs as [|p cs (Hp & Hd & Ht) _ IH]; [done|].
  destruct cs as [|q cs]; cbn [join_with].
  - by apply split_on_free.
  - cbn [app]. rewrite split_on_app by done. f_equal. by apply IH.
Qed.

Lemma splitSchemaPath_join cs :
  Forall component cs → splitSchemaPath (join_with [dot] cs) = cs.
Proof.
  intros Hcs. destruct cs as [|p cs]; [done|]. unfold splitSchemaPath.
  rewrite split_on_join by done. clear -Hcs.
  induction Hcs as [|q l (Hq & _ & Ht) _ IH]; [done|].
  rewrite fmap_cons, Ht, filter_cons_True by done. by rewrite IH.
Qed.

Lemma normalize_idem s : normalizeSchemaPath (normalizeSchemaPath s) = normalizeSchemaPath s.
Proof.
  unfold normalizeSchemaPath. by rewrite splitSchemaPath_join by apply splitSchemaPath_components.
Qed.

Lemma join_nil_iff cs : Forall component cs → join_with [dot] cs = [] ↔ cs = [].
Proof.
  intros Hcs. split; [|by intros ->]. intros H.
  by rewrite <-(splitSchemaPath_join cs Hcs), H.
Qed.

(** ** Navigation paths *)

Definition join (cs : list bytes) : bytes := join_with [dot] cs.

Lemma join_snoc cs p : cs ≠ [] → join (cs ++ [p]) = join cs ++ [dot] ++ p.
Proof.
  induction cs as [|q cs IH]; [done|]. intros _. destruct cs as [|r cs]; [done|].
  unfold join in *. rewrite <-app_comm_cons, !join_cons, IH by done. by rewrite <-!app_assoc.
Qed.

(** The step of the string loops extends the components. *)
Lemma join_step cs p :
  Forall component cs →
  (if bool_decide (join cs = []) then join cs else join cs ++ [dot]) ++ p = join (cs ++ [p]).
Proof.
  intros Hcs. case_bool_decide as Hj; unfold join in Hj; rewrite join_nil_iff in Hj by done.
  - by subst cs.
  - rewrite join_snoc by done. by rewrite <-app_assoc.
Qed.

(** The state of the loops: the output without duplicates, and its elements. *)
Definition nav_ok (st : list bytes * gset bytes) : Prop :=
  NoDup st.1 ∧ ∀ p, p ∈ st.1 ↔ p ∈ st.2.

Lemma add_path_ok p st :
  nav_ok st → nav_ok (add_path p st) ∧ ∀ q, q ∈ (add_path p st).1 ↔ q ∈ st.1 ∨ q = p.
Proof.
  intros [Hn Hs]. unfold add_path. destruct (decide (p ∈ st.2)) as [Hp|Hp].
  - split; [done|]. intros q. rewrite <-Hs in Hp. naive_solver.
  - rewrite <-Hs in Hp. split.
    + split; cbn.
      * apply NoDup_app. split_and!; [done| |apply NoDup_singleton].
        intros x Hx. rewrite list_elem_of_singleton. by intros ->.
      * intros q. rewrite elem_of_app, list_elem_of_singleton, elem_of_union, elem_of_singleton, Hs.
        naive_solver.
    + intros q. cbn. by rewrite elem_of_app, list_elem_of_singleton.
Qed.

Lemma expand_loop_ok parts : ∀ cs st,
  Forall component (cs ++ parts) → nav_ok st →
  nav_ok (expand_loop (join cs) parts st) ∧
  ∀ q, q ∈ (expand_loop (join cs) parts st).1 ↔
    q ∈ st.1 ∨ ∃ pre, pre ≠ [] ∧ pre `prefix_of` parts ∧ q = join (cs ++ pre).
Proof.
  induction parts as [|p parts IH]; intros cs st Hcs Hst; cbn [expand_loop].
  { split; [done|]. intros q. split; [by left|]. intros [?|(pre & Hne & Hp & _)]; [done|].
    by apply prefix_nil_inv in Hp. }
  rewrite join_step by (by apply Forall_app in Hcs as [? _]).
  destruct (add_path_ok (join (cs ++ [p])) st Hst) as [Hst' Hin].
  destruct (IH (cs ++ [p]) (add_path (join (cs ++ [p])) st)) as [Hok Hiff];
    [by rewrite <-app_assoc|done|].
  split; [done|]. intros q. rewrite Hiff, Hin. split.
  - intros [[?| ->]|(pre & Hne & Hpre & ->)]; [by left|right|right].
    + exists [p]. split_and!; [done|by exists parts|done].
    + exists (p :: pre). split_and!; [done|by apply prefix_cons|by rewrite <-app_assoc].
  - intros [?|(pre & Hne & Hpre & ->)]; [by left; left|].
    destruct pre as [|p' pre]; [done|]. apply prefix_cons_inv_1 in Hpre as Hpp. subst p'.
    apply prefix_cons_inv_2 in Hpre. destruct pre as [|r pre].
    + left. by right.
    + right. exists (r :: pre). by rewrite <-app_assoc.
Qed.

(** The paths a schema name stands for. *)
Definition stands_for (expand : bool) (raw : bytes) (q : bytes) : Prop :=
  if expand
  then ∃ pre, pre ≠ [] ∧ pre `prefix_of` splitSchemaPath raw ∧ q = join pre
  else splitSchemaPath raw ≠ [] ∧ q = join (splitSchemaPath raw).

Lemma navigation_step_ok e st raw :
  nav_ok st →
  nav_ok (navigation_step e st raw) ∧
  ∀ q, q ∈ (navigation_step e st raw).1 ↔ q ∈ st.1 ∨ stands_for e raw q.
Proof.
  intros Hst. pose proof (splitSchemaPath_components raw) as Hcs.
  unfold navigation_step, normalizeSchemaPath, stands_for. case_bool_decide as Hj.
  - rewrite join_nil_iff in Hj by done. split; [done|]. intros q. split; [by left|].
    rewrite Hj. intros [?|H]; [done|]. destruct e; [|naive_solver].
    destruct H as (pre & Hne & Hp & _). by apply prefix_nil_inv in Hp.
  - assert (Hne : splitSchemaPath raw ≠ []) by (intros E; by rewrite E in Hj).
    destruct e; cbn [negb].
    + rewrite splitSchemaPath_join by done.
      destruct (expand_loop_ok (splitSchemaPath raw) [] st Hcs Hst) as [H1 H2]. by split.
    + destruct (add_path_ok (join (splitSchemaPath raw)) st Hst) as [H1 H2].
      split; [exact H1|]. intros q. rewrite (H2 q). naive_solver.
Qed.

Lemma navigation_ok e names :
  NoDup (metadataSchemaPathsForNavigation names e) ∧
  ∀ q, q ∈ metadataSchemaPathsForNavigation names e ↔ ∃ raw, raw ∈ names ∧ stands_for e raw q.
Proof.
  unfold metadataSchemaPathsForNavigation.
  assert (H : ∀ st, nav_ok st → nav_ok (foldl (navigation_step e) st names) ∧
    ∀ q, q ∈ (foldl (navigation_step e) st names).1 ↔
      q ∈ st.1 ∨ ∃ raw, raw ∈ names ∧ stands_for e raw q).
  { induction names as [|raw names IH]; intros st Hst; cbn [foldl].
    - split; [done|]. intros q. split; [by left|]. intros [?|(? & ?%elem_of_nil & _)]; done.
    - destruct (navigation_step_ok e st raw Hst) as [H1 H2]. destruct (IH _ H1) as [H3 H4].
      split; [done|]. intros q. rewrite H4, H2. setoid_rewrite elem_of_cons. naive_solver. }
  destruct (H ([], ∅)) as [[Hn _] Hq]; [split; [constructor|set_solver]|].
  split; [done|]. intros q. rewrite Hq. split; [|by right]. intros [?%elem_of_nil|?]; done.
Qed.

(** The navigation list has no duplicates, holds exactly the normalized
    paths of the given schemas (with their ancestors, if asked for), and its
    paths are their own normal form; expanded, it is closed under parents. *)
Theorem navigation_paths_spec names e :
  NoDup (metadataSchemaPathsForNavigation names e) ∧
  (∀ q, q ∈ metadataSchemaPathsForNavigation names e ↔ ∃ raw, raw ∈ names ∧ stands_for e raw q) ∧
  (∀ q, q ∈ metadataSchemaPathsForNavigation names e → normalizeSchemaPath q = q ∧ q ≠ []) ∧
  (∀ cs p, cs ≠ [] → Forall component (cs ++ [p]) →
     join (cs ++ [p]) ∈ metadataSchemaPathsForNavigation names true →
     join cs ∈ metadataSchemaPathsForNavigation names true).
Proof.
  destruct (navigation_ok e names) as [Hn Hq]. split; [done|]. split; [done|]. split.
  - intros q (raw & _ & Hs)%Hq. pose proof (splitSchemaPath_components raw) as Hcs.
    assert (∃ cs, Forall component cs ∧ cs ≠ [] ∧ q = join cs) as (cs & Hc & Hne & ->).
    { destruct e; cbn in Hs; [|naive_solver]. destruct Hs as (pre & ? & [post Hp] & ->).
      exists pre. split; [|done]. rewrite Hp in Hcs. by apply Forall_app in Hcs as [? _]. }
    unfold normalizeSchemaPath. rewrite splitSchemaPath_join by done. split; [done|].
    unfold join. by rewrite join_nil_iff.
  - destruct (navigation_ok true names) as [_ Ht]. intros cs p Hne Hc (raw & Hr & pre & Hpn & Hpre & E)%Ht.
    apply Ht. exists raw. split; [done|]. exists cs. split; [done|]. split; [|done].
    assert (pre = cs ++ [p]) as ->.
    { pose proof (splitSchemaPath_components raw) as Hcs. destruct Hpre as [post Hp].
      rewrite Hp in Hcs. apply Forall_app in Hcs as [Hcp _].
      rewrite <-(splitSchemaPath_join pre Hcp), <-(splitSchemaPath_join _ Hc). by f_equal. }
    etrans; [|exact Hpre]. by exists [p].
Qed.

(** ** Invariant of the tree

    [S] holds the component lists that have a node; the children of a node are
    the lists one component longer. *)

Lemma join_inj cs ds : Forall component cs → Forall component ds → join cs = join ds → cs = ds.
Proof.
  intros Hc Hd E. unfold join in E.
  by rewrite <-(splitSchemaPath_join cs Hc), <-(splitSchemaPath_join ds Hd), E.
Qed.

Definition children_ok (S : list bytes → Prop) (cs : list bytes) (children : list bytes) : Prop :=
  NoDup children ∧ ∀ q, q ∈ children ↔ ∃ x, S (cs ++ [x]) ∧ q = join (cs ++ [x]).

Record tree_ok (terminals : list bytes) (S : list bytes → Prop) (t : MetadataSchemaTree) : Prop := {
  tok_wf cs : S cs → cs ≠ [] ∧ Forall component cs;
  tok_node cs : S cs → ∃ n, t_nodes t !! join cs = Some n ∧ last cs = Some (n_name n) ∧
    n_terminal n = bool_decide (join cs ∈ terminals) ∧ children_ok S cs (n_children n);
  tok_key q : is_Some (t_nodes t !! q) → ∃ cs, S cs ∧ q = join cs;
  tok_roots : children_ok S [] (t_schemas t);
  tok_closed cs x : S (cs ++ [x]) → cs ≠ [] → S cs
}.

Definition with_path (S : list bytes → Prop) (cs ds : list bytes) : Prop := S ds ∨ ds = cs.

Lemma children_ok_other S cs ds p l :
  children_ok S ds l → cs ≠ ds → children_ok (with_path S (cs ++ [p])) ds l.
Proof.
  intros [Hn Hl] Hne. split; [done|]. intros q. rewrite Hl. unfold with_path. split.
  - naive_solver.
  - intros (x & [?|E] & ->); [naive_solver|]. by apply app_inj_tail in E as [-> _].
Qed.

Lemma children_ok_snoc S cs p l :
  (∀ ds, S ds → Forall component ds) → Forall component (cs ++ [p]) →
  children_ok S cs l → ¬ S (cs ++ [p]) →
  children_ok (with_path S (cs ++ [p])) cs (l ++ [join (cs ++ [p])]).
Proof.
  intros Hwf Hcp [Hn Hl] Hnew. split.
  - apply NoDup_app. split_and!; [done| |apply NoDup_singleton].
    intros q Hq ->%list_elem_of_singleton. apply Hl in Hq as (x & Hx & E).
    apply join_inj in E; [|done|by apply Hwf]. apply app_inj_tail in E as [_ ->]. done.
  - intros q. rewrite elem_of_app, list_elem_of_singleton, Hl. unfold with_path. split.
    + intros [(x & ? & ->)| ->]; [exists x|exists p]; auto.
    + intros (x & [?|E] & ->); [left; by exists x|]. right. by rewrite E.
Qed.

(** An old path: nothing changes. *)
Lemma tree_ok_old terminals S cs t :
  tree_ok terminals S t → S cs → tree_ok terminals (with_path S cs) t.
Proof.
  intros [Hwf Hnode Hkey Hroots Hcl] Hcs.
  assert (HS : ∀ ds, with_path S cs ds ↔ S ds) by (unfold with_path; naive_solver).
  assert (Hch : ∀ ds l, children_ok S ds l → children_ok (with_path S cs) ds l).
  { intros ds l [Hn Hl]. split; [done|]. intros q. rewrite Hl. by setoid_rewrite HS. }
  constructor.
  - intros ds Hds. apply Hwf. by apply HS.
  - intros ds Hds%HS. destruct (Hnode ds Hds) as (n & ? & ? & ? & ?). exists n. auto.
  - intros q (ds & ? & ->)%Hkey. exists ds. by rewrite HS.
  - by apply Hch.
  - intros ds x Hds%HS Hne. apply HS. by apply (Hcl ds x).
Qed.

(** The table after a new node is created and marked. *)
Lemma created_lookup terminals parent q p t r :
  t_nodes t !! q = None → parent ≠ Some q →
  t_nodes (mark_if_terminal terminals q (find_or_create parent q p t)) !! r =
    if decide (r = q) then Some (mkNode p (bool_decide (q ∈ terminals)) [])
    else (if decide (parent = Some r) then add_child q else id) <$> t_nodes t !! r.
Proof.
  intros Hq Hpq. unfold find_or_create. rewrite Hq.
  set (t' := match parent with None => _ | Some _ => _ end).
  assert (Ht' : t_nodes t' !! r = if decide (r = q) then Some (mkNode p false [])
      else (if decide (parent = Some r) then add_child q else id) <$> t_nodes t !! r).
  { unfold t'. destruct parent as [u|]; cbn [t_nodes].
    - destruct (decide (r = u)) as [->|Hr].
      + rewrite lookup_alter_eq, (decide_False (P := u = q)) by congruence.
        by rewrite lookup_insert_ne, decide_True by congruence.
      + rewrite lookup_alter_ne, (decide_False (P := Some u = _)), option_fmap_id by congruence.
        destruct (decide (r = q)) as [->|]; [by rewrite lookup_insert_eq|by rewrite lookup_insert_ne].
    - rewrite (decide_False (P := None = _)), option_fmap_id by done.
      destruct (decide (r = q)) as [->|]; [by rewrite lookup_insert_eq|by rewrite lookup_insert_ne]. }
  unfold mark_if_terminal. case_bool_decide; cbn [t_nodes]; [|exact Ht'].
  destruct (decide (r = q)) as [->|Hr]; [by rewrite lookup_alter_eq, Ht'|by rewrite lookup_alter_ne].
Qed.

Lemma created_roots terminals parent q p t :
  t_nodes t !! q = None →
  t_schemas (mark_if_terminal terminals q (find_or_create parent q p t)) =
    match parent with None => t_schemas t ++ [q] | Some _ => t_schemas t end.
Proof.
  intros Hq. unfold find_or_create, mark_if_terminal. rewrite Hq.
  case_bool_decide; by destruct parent.
Qed.

(** An existing node that is marked again does not change. *)
Lemma existing_ok terminals S cs p parent t :
  tree_ok terminals S t → S cs →
  mark_if_terminal terminals (join cs) (find_or_create parent (join cs) p t) = t.
Proof.
  intros [Hwf Hnode Hkey Hroots Hcl] Hcs. destruct (Hnode cs Hcs) as (n & En & _ & Htm & _).
  unfold find_or_create, mark_if_terminal. rewrite En. case_bool_decide as Hm; [|done].
  try rewrite bool_decide_eq_true_2 in Htm by done.
  destruct t as [db sc nodes]. cbn in *. f_equal. apply alter_id.
  intros y Hy. rewrite En in Hy. simplify_eq. destruct y as [nm tm ch]. cbn in Htm. by subst tm.
Qed.

Definition parent_of (cs : list bytes) : option bytes :=
  if decide (cs = []) then None else Some (join cs).

(** One iteration of the segment loop. *)
Lemma insert_step_ok terminals S cs p t :
  tree_ok terminals S t → Forall component (cs ++ [p]) → cs = [] ∨ S cs →
  tree_ok terminals (with_path S (cs ++ [p]))
    (mark_if_terminal terminals (join (cs ++ [p]))
       (find_or_create (parent_of cs) (join (cs ++ [p])) p t)).
Proof.
  intros Ht Hcp Hcs. pose proof Ht as [Hwf Hnode Hkey Hroots Hcl].
  destruct (t_nodes t !! join (cs ++ [p])) as [n|] eqn:E.
  { destruct (Hkey (join (cs ++ [p]))) as (ds & Hds & Ej); [by rewrite E|].
    apply join_inj in Ej; [|done|by apply Hwf]. subst ds.
    rewrite (existing_ok _ _ _ _ _ _ Ht Hds). by apply tree_ok_old. }
  assert (Hnew : ¬ S (cs ++ [p])) by (intros (n & En & _)%Hnode; by rewrite E in En).
  assert (Hq : ∀ ds, S ds → join ds ≠ join (cs ++ [p])).
  { intros ds Hds Ej. apply join_inj in Ej; [by subst ds|by apply Hwf|done]. }
  assert (Hpq : parent_of cs ≠ Some (join (cs ++ [p]))).
  { unfold parent_of. case_decide; [done|]. intros [= Ej]. destruct Hcs as [?|Hcs]; [done|].
    by apply (Hq cs). }
  assert (Hwf' : ∀ ds, S ds → Forall component ds) by (intros ds Hds; by apply Hwf).
  constructor.
  - intros ds [Hds| ->]; [by apply Hwf|]. split; [by destruct cs|done].
  - intros ds Hds. rewrite created_lookup by done.
    destruct (decide (ds = cs ++ [p])) as [->|Hne].
    + rewrite decide_True by done. eexists. split; [done|]. cbn. rewrite last_snoc.
      split_and!; [done|done|]. split; [constructor|]. intros q.
      split; [by intros ?%elem_of_nil|]. intros (x & [Hx|Ex] & _).
      * apply Hcl in Hx; [done|by destruct cs].
      * apply (f_equal length) in Ex. rewrite !length_app in Ex. cbn in Ex. lia.
    + destruct Hds as [Hds| ->]; [|done]. rewrite decide_False by by apply Hq.
      destruct (Hnode ds Hds) as (n & -> & Hl & Htm & Hch). cbn [fmap option_fmap option_map].
      eexists. split; [done|].
      destruct (decide (parent_of cs = Some (join ds))) as [Hp|Hp].
      * assert (ds = cs) as ->.
        { unfold parent_of in Hp. case_decide; [done|]. injection Hp as Ej.
          destruct Hcs as [?|Hcs]; [done|]. apply join_inj in Ej; auto. }
        cbn. split_and!; [done|done|]. by apply children_ok_snoc.
      * cbn [id]. split_and!; [done|done|]. apply children_ok_other; [done|]. intros ->.
        apply Hp. unfold parent_of. rewrite decide_False; [done|]. by apply Hwf.
  - intros q. rewrite created_lookup by done. destruct (decide (q = _)) as [->|Hne].
    + intros _. exists (cs ++ [p]). split; [by right|done].
    + rewrite fmap_is_Some. intros (ds & ? & ->)%Hkey. exists ds. split; [by left|done].
  - rewrite created_roots by done. unfold parent_of. case_decide as Hc.
    + subst cs. by apply children_ok_snoc.
    + by apply children_ok_other.
  - intros ds x [Hds|Ex] Hne; [left; by apply (Hcl ds x)|].
    apply app_inj_tail in Ex as [-> ->]. left. by destruct Hcs.
Qed.

(** All the segments of one path. *)
Definition with_prefixes (S : list bytes → Prop) (cs parts ds : list bytes) : Prop :=
  S ds ∨ ∃ pre, pre ≠ [] ∧ pre `prefix_of` parts ∧ ds = cs ++ pre.

Lemma tree_ok_ext terminals S S' t :
  (∀ cs, S cs ↔ S' cs) → tree_ok terminals S t → tree_ok terminals S' t.
Proof.
  intros HS [Hwf Hnode Hkey Hroots Hcl].
  assert (Hch : ∀ ds l, children_ok S ds l → children_ok S' ds l).
  { intros ds l [Hn Hl]. split; [done|]. intros q. rewrite Hl. by setoid_rewrite HS. }
  constructor.
  - intros ds Hds%HS. by apply Hwf.
  - intros ds Hds%HS. destruct (Hnode ds Hds) as (n & ? & ? & ? & ?). exists n. auto.
  - intros q (ds & ?%HS & ->)%Hkey. by exists ds.
  - by apply Hch.
  - intros ds x Hds%HS Hne. apply HS. by apply (Hcl ds x).
Qed.

Lemma insert_loop_ok terminals parts : ∀ S cs t,
  tree_ok terminals S t → Forall component (cs ++ parts) → cs = [] ∨ S cs →
  tree_ok terminals (with_prefixes S cs parts)
    (insert_loop terminals (parent_of cs) (join cs) parts t).
Proof.
  induction parts as [|p parts IH]; intros S cs t Ht Hcs Hor; cbn [insert_loop].
  { eapply tree_ok_ext; [|exact Ht]. intros ds. unfold with_prefixes. split; [by left|].
    intros [?|(pre & Hne & Hp & _)]; [done|]. by apply prefix_nil_inv in Hp. }
  assert (Hcp : Forall component (cs ++ [p])).
  { rewrite (cons_middle p cs parts), app_assoc in Hcs. by apply Forall_app in Hcs as [? _]. }
  rewrite join_step by (by apply Forall_app in Hcs as [? _]).
  assert (Hpar : Some (join (cs ++ [p])) = parent_of (cs ++ [p])).
  { unfold parent_of. by rewrite decide_False by (by destruct cs). }
  rewrite Hpar. eapply tree_ok_ext; [|apply (IH (with_path S (cs ++ [p])))].
  - intros ds. unfold with_prefixes, with_path. split.
    + intros [[?| ->]|(pre & Hne & Hp & ->)]; [by left|right|right].
      * exists [p]. split_and!; [done|by exists parts|done].
      * exists (p :: pre). split_and!; [done|by apply prefix_cons|by rewrite <-app_assoc].
    + intros [?|(pre & Hne & Hp & ->)]; [by left; left|]. destruct pre as [|p' pre]; [done|].
      apply prefix_cons_inv_1 in Hp as Hpp. subst p'. apply prefix_cons_inv_2 in Hp.
      destruct pre as [|r pre]; [left; by right|]. right. exists (r :: pre).
      by rewrite <-app_assoc.
  - by apply insert_step_ok.
  - by rewrite <-app_assoc.
  - right. by right.
Qed.

Definition no_path (cs : list bytes) : Prop := False.

(** The component lists of the tree: the prefixes of the schema paths. *)
Definition tree_paths (paths : list bytes) (ds : list bytes) : Prop :=
  ∃ p, p ∈ paths ∧ ds ≠ [] ∧ ds `prefix_of` splitSchemaPath p.

Lemma build_ok names db e :
  let paths := metadataSchemaPathsForNavigation names e in
  tree_ok paths (tree_paths paths) (buildMetadataSchemaTree names db e).
Proof.
  cbn zeta. unfold buildMetadataSchemaTree. set (paths := metadataSchemaPathsForNavigation names e).
  generalize paths at 1 3 as terminals. intros terminals.
  assert (H : ∀ l S t, tree_ok terminals S t →
    tree_ok terminals (λ ds, S ds ∨ tree_paths l ds)
      (foldl (λ t path, insert_loop terminals None [] (splitSchemaPath path) t) t l)).
  { induction l as [|p l IH]; intros S t Ht; cbn [foldl].
    - eapply tree_ok_ext; [|exact Ht]. intros ds. split; [by left|].
      intros [?|(p & ?%elem_of_nil & _)]; done.
    - eapply tree_ok_ext; [|apply IH, (insert_loop_ok terminals (splitSchemaPath p) S [] t Ht)].
      + intros ds. unfold with_prefixes, tree_paths. setoid_rewrite elem_of_cons. naive_solver.
      + apply splitSchemaPath_components.
      + by left. }
  eapply tree_ok_ext; [|apply (H paths no_path)]; [unfold no_path; naive_solver|].
  constructor; unfold no_path; cbn; [done..| | |done].
  - intros q [n Hn]. by rewrite lookup_empty in Hn.
  - split; [constructor|]. intros q. split; [by intros ?%elem_of_nil|by intros (x & [] & _)].
Qed.


(** ** Rows *)

Section rows.
Context (terminals : list bytes) (S : list bytes → Prop) (t : MetadataSchemaTree).
Context (Ht : tree_ok terminals S t) (db : bytes) (depth : nat).
Hypothesis depth_ok : ∀ cs, S cs → (length cs <= depth)%nat.

(** The row of the node [ds]. *)
Definition row_of (ds : list bytes) (r : MetadataSchemaTreeRow) : Prop :=
  kind r = SCHEMA ∧ database r = db ∧ path r = join ds ∧ last ds = Some (name r) ∧
  terminal r = bool_decide (join ds ∈ terminals) ∧
  top_level_branch r = bool_decide (length ds = 1%nat) ∧
  parent_path r = if decide (length ds = 1%nat) then db else join (removelast ds).

(** The rows of a subtree: each node below [cs] once. *)
Definition subtree_rows (cs : list bytes) (rows : list MetadataSchemaTreeRow) : Prop :=
  NoDup (path <$> rows) ∧
  (∀ q, q ∈ path <$> rows ↔ ∃ ds, S ds ∧ cs `prefix_of` ds ∧ q = join ds) ∧
  Forall (λ r, ∃ ds, S ds ∧ row_of ds r) rows.

(** Subtrees of the children, one after the other. *)
Lemma children_rows (f : bytes → list MetadataSchemaTreeRow → option (list MetadataSchemaTreeRow)) cs :
  ∀ children rows,
  (∀ c x r, c ∈ children → S (cs ++ [x]) → c = join (cs ++ [x]) →
     ∃ new, f c r = Some (r ++ new) ∧ subtree_rows (cs ++ [x]) new) →
  (∀ c, c ∈ children → ∃ x, S (cs ++ [x]) ∧ c = join (cs ++ [x])) → NoDup children →
  ∃ new, foldl (λ r c, rows ← r; f c rows) (Some rows) children = Some (rows ++ new) ∧
    NoDup (path <$> new) ∧
    (∀ q, q ∈ path <$> new ↔ ∃ x ds, join (cs ++ [x]) ∈ children ∧ S (cs ++ [x]) ∧ S ds ∧
       cs ++ [x] `prefix_of` ds ∧ q = join ds) ∧
    Forall (λ r, ∃ ds, S ds ∧ row_of ds r) new.
Proof.
  induction children as [|c children IH]; intros rows Hf Hc Hn; cbn [foldl].
  { exists []. rewrite app_nil_r. split_and!; [done|constructor| |constructor].
    intros q. split; [by intros ?%elem_of_nil|]. by intros (x & ds & ?%elem_of_nil & _). }
  apply NoDup_cons in Hn as [Hnc Hn].
  destruct (Hc c) as (x & HSx & Ec); [by left|].
  destruct (Hf c x rows) as (new1 & E1 & Hn1 & Hq1 & Hr1); [by left|done|done|].
  cbn [mbind option_bind]. rewrite E1.
  destruct (IH (rows ++ new1)) as (new2 & E2 & Hn2 & Hq2 & Hr2).
  { intros c' x' r Hin. apply Hf. by right. }
  { intros c' Hin. apply Hc. by right. }
  { done. }
  exists (new1 ++ new2). rewrite app_assoc. split; [done|]. rewrite fmap_app. split_and!.
  - apply NoDup_app. split_and!; [done| |done]. intros q (ds & HSd & Hp & ->)%Hq1 Hin.
    apply Hq2 in Hin as (y & ds' & Hin & HSy & HSd' & Hp' & Ej).
    apply join_inj in Ej; [|by apply (tok_wf _ _ _ Ht)..]. subst ds'.
    assert (x = y) as ->; [|by subst c].
    destruct Hp as [k1 ->], Hp' as [k2 E]. rewrite <-!app_assoc in E.
    apply app_inv_head in E. cbn in E. congruence.
  - intros q. rewrite elem_of_app, Hq1, Hq2. split.
    + intros [(ds & ? & ? & ->)|(y & ds & ? & ?)]; [|exists y, ds; split; [by right|done]].
      exists x, ds. split; [rewrite Ec; by left|done].
    + intros (y & ds & [Ey|Hin]%elem_of_cons & HSy & HSd & Hp & ->).
      * left. exists ds. rewrite Ec in Ey.
        apply join_inj in Ey; [|by apply (tok_wf _ _ _ Ht)..]. apply app_inj_tail in Ey as [_ ->]. done.
      * right. by exists y, ds.
  - by apply Forall_app.
Qed.

(** A list is its prefix, or extends one of the prefix's children. *)
Lemma prefix_child cs ds :
  S ds → cs ≠ [] ∨ ds ≠ cs → cs `prefix_of` ds →
  ds = cs ∨ ∃ x, S (cs ++ [x]) ∧ cs ++ [x] `prefix_of` ds.
Proof.
  intros HSd _ [k ->]. destruct k as [|x k]; [left; by rewrite app_nil_r|right]. exists x.
  assert (Hp : cs ++ [x] `prefix_of` cs ++ x :: k) by (exists k; by rewrite <-app_assoc).
  split; [|done]. clear Hp. revert HSd. induction k as [|y k IH] using rev_ind; [done|].
  intros HSd. apply IH. apply (tok_closed _ _ _ Ht _ y); [|by destruct cs].
  by rewrite <-app_assoc.
Qed.

Lemma append_rows fuel : ∀ cs rows par top,
  S cs → (depth < length cs + fuel)%nat →
  par = (if decide (length cs = 1%nat) then db else join (removelast cs)) →
  top = bool_decide (length cs = 1%nat) →
  ∃ new, appendRowsDepthFirst fuel t (join cs) db par top rows = Some (rows ++ new) ∧
    subtree_rows cs new.
Proof.
  induction fuel as [|fuel IH]; intros cs rows par top HS Hd Hpar Htop.
  { pose proof (depth_ok cs HS). lia. }
  cbn [appendRowsDepthFirst].
  destruct (tok_node _ _ _ Ht cs HS) as (n & -> & Hl & Htm & Hn & Hch).
  set (r0 := mkRow _ _ _ _ _ _ _).
  destruct (children_rows (λ c rows, appendRowsDepthFirst fuel t c db (join cs) false rows) cs
    (n_children n) (rows ++ [r0])) as (new & E & Hnd & Hq & Hr); [| |done|].
  { intros c x r Hin HSx ->. apply IH; [done|rewrite length_app; cbn; lia| |].
    - destruct (tok_wf _ _ _ Ht cs HS) as [Hne _]. rewrite decide_False, removelast_last; [done|].
      rewrite length_app. destruct cs; [done|]. cbn. lia.
    - destruct (tok_wf _ _ _ Ht cs HS) as [Hne _]. symmetry. apply bool_decide_eq_false.
      rewrite length_app. destruct cs; [done|]. cbn. lia. }
  { intros c Hin. by apply Hch. }
  exists (r0 :: new). rewrite (cons_middle r0 rows new), app_assoc. split; [exact E|].
  assert (Hrow : row_of cs r0) by (unfold row_of; cbn; by subst par top).
  unfold subtree_rows. rewrite fmap_cons. split_and!.
  - apply NoDup_cons. split; [|done]. cbn. intros (x & ds & _ & _ & HSd & Hp & Ej)%Hq.
    apply join_inj in Ej; [|by apply (tok_wf _ _ _ Ht)..]. subst ds.
    apply prefix_length in Hp. rewrite length_app in Hp. cbn in Hp. lia.
  - intros q. rewrite elem_of_cons, Hq. cbn [path r0]. split.
    + intros [->|(x & ds & _ & _ & HSd & Hp & ->)]; [by exists cs|].
      exists ds. split_and!; [done| |done]. etrans; [|exact Hp]. by exists [x].
    + intros (ds & HSd & Hp & ->).
      destruct (prefix_child cs ds HSd) as [->|(x & HSx & Hpx)]; [|done|by left|].
      * left. by apply (tok_wf _ _ _ Ht) in HS as [? _].
      * right. exists x, ds. split; [|done]. apply Hch. by exists x.
  - constructor; [by exists cs|done].
Qed.
End rows.

(** The longest path, in components. *)
Definition max_depth (names : list bytes) : nat :=
  foldr (λ raw n, Nat.max (length (splitSchemaPath raw)) n) O names.

Lemma max_depth_elem raw names : raw ∈ names → (length (splitSchemaPath raw) <= max_depth names)%nat.
Proof.
  induction names as [|x names IH]; [by intros ?%elem_of_nil|].
  intros [->|H]%elem_of_cons; cbn [max_depth foldr]; [lia|]. specialize (IH H). unfold max_depth in IH. lia.
Qed.

Lemma tree_paths_names names e ds :
  tree_paths (metadataSchemaPathsForNavigation names e) ds ↔
    ∃ raw, raw ∈ names ∧ ds ≠ [] ∧ ds `prefix_of` splitSchemaPath raw.
Proof.
  destruct (navigation_ok e names) as [_ Hq]. unfold tree_paths. split.
  - intros (p & (raw & Hr & Hs)%Hq & Hne & Hp). exists raw. split_and!; [done..|].
    pose proof (splitSchemaPath_components raw) as Hcs. destruct e; cbn in Hs.
    + destruct Hs as (pre & _ & Hpre & ->). etrans; [|exact Hpre].
      unfold join in Hp. rewrite splitSchemaPath_join in Hp; [done|].
      destruct Hpre as [post E]. rewrite E in Hcs. by apply Forall_app in Hcs as [? _].
    + destruct Hs as [_ ->]. unfold join in Hp. by rewrite splitSchemaPath_join in Hp.
  - intros (raw & Hr & Hne & Hp). pose proof (splitSchemaPath_components raw) as Hcs.
    exists (join (splitSchemaPath raw)). unfold join. rewrite splitSchemaPath_join by done.
    split; [|done]. apply Hq. exists raw. split; [done|].
    assert (Hn : splitSchemaPath raw ≠ []).
    { intros E. rewrite E in Hp. by apply prefix_nil_inv in Hp. }
    destruct e; cbn; [|done]. by exists (splitSchemaPath raw).
Qed.

Lemma insert_loop_database terminals parts : ∀ par cur u,
  t_database (insert_loop terminals par cur parts u) = t_database u.
Proof.
  induction parts as [|p parts IH]; intros par cur u; [done|]. cbn [insert_loop]. rewrite IH.
  unfold mark_if_terminal, find_or_create. repeat case_match; done.
Qed.

Lemma build_database names db e : t_database (buildMetadataSchemaTree names db e) = trim db.
Proof.
  unfold buildMetadataSchemaTree. cbv zeta.
  set (terminals := metadataSchemaPathsForNavigation names e) at 1.
  generalize (metadataSchemaPathsForNavigation names e) as l. clearbody terminals. intros l.
  change (trim db) with (t_database (mkTree (trim db) [] ∅)) at 2.
  generalize (mkTree (trim db) [] ∅) as u.
  induction l as [|x l IH]; intros u; [done|]. cbn [foldl]. rewrite IH.
  apply insert_loop_database.
Qed.

Lemma tree_rows names db e :
  let paths := metadataSchemaPathsForNavigation names e in
  let dbname := if bool_decide (trim db = []) then ("default" : bytes) else trim db in
  ∃ rows,
    buildMetadataSchemaTreeRows (S (max_depth names)) names db e =
      Some (mkRow DATABASE dbname [] dbname dbname false false :: rows) ∧
    NoDup (path <$> rows) ∧
    (∀ q, q ∈ path <$> rows ↔ ∃ raw ds, raw ∈ names ∧ ds ≠ [] ∧
       ds `prefix_of` splitSchemaPath raw ∧ q = join ds) ∧
    Forall (λ r, ∃ ds, tree_paths paths ds ∧ row_of paths dbname ds r) rows.
Proof.
  intros paths dbname. pose proof (build_ok names db e) as Ht. cbn zeta in Ht. fold paths in Ht.
  unfold buildMetadataSchemaTreeRows. set (t := buildMetadataSchemaTree names db e) in *.
  assert (Hdb : t_database t = trim db).
  { apply build_database. }
  rewrite Hdb. fold dbname.
  assert (Hdepth : ∀ cs, tree_paths paths cs → (length cs <= max_depth names)%nat).
  { intros cs (raw & Hr & _ & Hp)%tree_paths_names. apply prefix_length in Hp.
    pose proof (max_depth_elem raw names Hr). lia. }
  destruct (children_rows paths (tree_paths paths) t Ht dbname
    (λ c rows, appendRowsDepthFirst (S (max_depth names)) t c dbname dbname true rows) []
    (t_schemas t) [mkRow DATABASE dbname [] dbname dbname false false])
    as (new & E & Hn & Hq & Hr).
  { intros c x r _ HSx ->. by apply (append_rows paths (tree_paths paths) t Ht dbname _ Hdepth);
      [|cbn; lia|..]. }
  { intros c Hc. by apply (tok_roots _ _ _ Ht). }
  { apply (tok_roots _ _ _ Ht). }
  exists new. split; [exact E|]. split; [done|]. split; [|done]. intros q. rewrite Hq. split.
  - intros (x & ds & _ & _ & (raw & Hraw & Hne & Hp)%tree_paths_names & _ & ->). by exists raw, ds.
  - intros (raw & ds & Hraw & Hne & Hp & ->).
    assert (HSd : tree_paths paths ds) by (apply tree_paths_names; by exists raw).
    destruct (prefix_child paths (tree_paths paths) t Ht [] ds HSd) as [->|(x & HSx & Hpx)];
      [by right|by apply prefix_nil|done|].
    exists x, ds. split; [|done]. apply (tok_roots _ _ _ Ht). by exists x.
Qed.

(** The tree rows: after the database row, one row for every schema path and
    every ancestor of one, each exactly once, with its own name, its parent's
    path, its top-level mark, and terminal exactly when it is in the navigation
    list; the recursion is no deeper than the longest path. *)
Theorem schema_tree_rows names db e :
  let paths := metadataSchemaPathsForNavigation names e in
  let dbname := if bool_decide (trim db = []) then ("default" : bytes) else trim db in
  ∃ rows,
    buildMetadataSchemaTreeRows (S (max_depth names)) names db e =
      Some (mkRow DATABASE dbname [] dbname dbname false false :: rows) ∧
    NoDup (path <$> rows) ∧
    (∀ q, q ∈ path <$> rows ↔ ∃ raw ds, raw ∈ names ∧ ds ≠ [] ∧
       ds `prefix_of` splitSchemaPath raw ∧ q = join ds) ∧
    Forall (λ r, ∃ ds, tree_paths paths ds ∧ row_of paths dbname ds r) rows.
Proof. exact (tree_rows names db e). Qed.
