(* ===== verification/MetadataQueries.v ===== *)
(** * Metadata: collections, queries and LIKE patterns

    Models the rest of [src/metadata.cpp]: the collection aliases and their
    catalog queries, the query builders that splice a pattern into SQL, the
    LIKE matcher and the DDL editor payload. A null pattern is [None]. The JSON
    library's [dump] is an argument. *)

From S2P Require Import Prelude.
From S2P Require Import Identifiers.
From S2P Require Import Metadata.

(** ** Collections *)

Definition kDefaultMetadataCollection : bytes := "tables".
Definition kMetadataSchemasQuery : bytes :=
  "SELECT schema_id, schema_name, owner_id, default_tablespace_id FROM sys.schemas WHERE is_valid = 1 ORDER BY schema_name".
Definition kMetadataTablesQuery : bytes :=
  "SELECT table_id, schema_id, table_name, table_type, owner_id FROM sys.tables WHERE is_valid = 1 ORDER BY table_name".
Definition kMetadataColumnsQuery : bytes :=
  "SELECT column_id, table_id, column_name, data_type_id, data_type_name, ordinal_position, is_nullable, default_value, domain_id, collation_id, charset_id, is_identity, is_generated, generation_expression FROM sys.columns WHERE is_valid = 1 ORDER BY table_id, ordinal_position".
Definition kMetadataIndexesQuery : bytes :=
  "SELECT index_id, table_id, index_name, index_type, is_unique FROM sys.indexes WHERE is_valid = 1 ORDER BY table_id, index_name".
Definition kMetadataIndexColumnsQuery : bytes :=
  "SELECT index_id, column_id, column_name, ordinal_position, is_included FROM sys.index_columns ORDER BY index_id, ordinal_position".
Definition kMetadataConstraintsQuery : bytes :=
  "SELECT constraint_id, table_id, constraint_name, constraint_type FROM sys.constraints WHERE is_valid = 1 ORDER BY table_id, constraint_name".
Definition kMetadataProceduresQuery : bytes :=
  "SELECT procedure_id, schema_id, procedure_name, routine_type FROM sys.procedures WHERE is_valid = 1 ORDER BY schema_id, procedure_name".
Definition kMetadataFunctionsQuery : bytes :=
  "SELECT function_id, schema_id, function_name FROM sys.functions WHERE is_valid = 1 ORDER BY schema_id, function_name".
Definition kMetadataRoutinesQuery : bytes :=
  "SELECT procedure_id AS routine_id, schema_id, procedure_name AS routine_name, routine_type FROM sys.procedures WHERE is_valid = 1 UNION ALL SELECT function_id AS routine_id, schema_id, function_name AS routine_name, 'FUNCTION' AS routine_type FROM sys.functions WHERE is_valid = 1 ORDER BY schema_id, routine_name".
Definition kMetadataCatalogsQuery : bytes :=
  "SELECT schema_id AS catalog_id, schema_name AS catalog_name FROM sys.schemas WHERE is_valid = 1 ORDER BY schema_name".
Definition kMetadataPrimaryKeysQuery : bytes :=
  "SELECT constraint_id, table_id, constraint_name, constraint_type FROM sys.constraints WHERE is_valid = 1 AND lower(constraint_type) IN ('primary key', 'primary') ORDER BY table_id, constraint_name".
Definition kMetadataForeignKeysQuery : bytes :=
  "SELECT constraint_id, table_id, constraint_name, constraint_type FROM sys.constraints WHERE is_valid = 1 AND lower(constraint_type) IN ('foreign key', 'foreign') ORDER BY table_id, constraint_name".
Definition kMetadataTablePrivilegesQuery : bytes :=
  "SELECT table_id, table_name, owner_id AS grantor_id, owner_id AS grantee_id, 'ALL' AS privilege_type FROM sys.tables WHERE is_valid = 1 ORDER BY table_id, table_name".
Definition kMetadataColumnPrivilegesQuery : bytes :=
  "SELECT table_id, column_id, column_name, 'ALL' AS privilege_type FROM sys.columns WHERE is_valid = 1 ORDER BY table_id, ordinal_position".
Definition kMetadataTypeInfoQuery : bytes :=
  "SELECT DISTINCT data_type_id, data_type_name FROM sys.columns WHERE is_valid = 1 ORDER BY data_type_name".
Definition kMetadataDdlFieldsQuery : bytes :=
  "SELECT table_id, column_id, column_name, data_type_name, default_value, generation_expression, is_nullable, is_identity, is_generated FROM sys.columns WHERE is_valid = 1 ORDER BY table_id, ordinal_position".

Definition kMetadataCollectionAliases : list (bytes * bytes) :=
  [("schema" : bytes, "schemas" : bytes);
   ("schemas" : bytes, "schemas" : bytes);
   ("table" : bytes, "tables" : bytes);
   ("tables" : bytes, "tables" : bytes);
   ("column" : bytes, "columns" : bytes);
   ("columns" : bytes, "columns" : bytes);
   ("index" : bytes, "indexes" : bytes);
   ("indexes" : bytes, "indexes" : bytes);
   ("index_column" : bytes, "index_columns" : bytes);
   ("index_columns" : bytes, "index_columns" : bytes);
   ("indexcolumn" : bytes, "index_columns" : bytes);
   ("indexcolumns" : bytes, "index_columns" : bytes);
   ("constraint" : bytes, "constraints" : bytes);
   ("constraints" : bytes, "constraints" : bytes);
   ("procedure" : bytes, "procedures" : bytes);
   ("procedures" : bytes, "procedures" : bytes);
   ("function" : bytes, "functions" : bytes);
   ("functions" : bytes, "functions" : bytes);
   ("routine" : bytes, "routines" : bytes);
   ("routines" : bytes, "routines" : bytes);
   ("catalog" : bytes, "catalogs" : bytes);
   ("catalogs" : bytes, "catalogs" : bytes);
   ("primary_key" : bytes, "primary_keys" : bytes);
   ("primary_keys" : bytes, "primary_keys" : bytes);
   ("primarykey" : bytes, "primary_keys" : bytes);
   ("primarykeys" : bytes, "primary_keys" : bytes);
   ("foreign_key" : bytes, "foreign_keys" : bytes);
   ("foreign_keys" : bytes, "foreign_keys" : bytes);
   ("foreignkey" : bytes, "foreign_keys" : bytes);
   ("foreignkeys" : bytes, "foreign_keys" : bytes);
   ("table_privilege" : bytes, "table_privileges" : bytes);
   ("table_privileges" : bytes, "table_privileges" : bytes);
   ("tableprivilege" : bytes, "table_privileges" : bytes);
   ("tableprivileges" : bytes, "table_privileges" : bytes);
   ("column_privilege" : bytes, "column_privileges" : bytes);
   ("column_privileges" : bytes, "column_privileges" : bytes);
   ("columnprivilege" : bytes, "column_privileges" : bytes);
   ("columnprivileges" : bytes, "column_privileges" : bytes);
   ("type" : bytes, "type_info" : bytes);
   ("types" : bytes, "type_info" : bytes);
   ("type_info" : bytes, "type_info" : bytes);
   ("typeinfo" : bytes, "type_info" : bytes);
   ("ddlfield" : bytes, "ddl_fields" : bytes);
   ("ddlfields" : bytes, "ddl_fields" : bytes);
   ("ddl_field" : bytes, "ddl_fields" : bytes);
   ("ddl_fields" : bytes, "ddl_fields" : bytes)].

Definition kMetadataCollectionQueries : list (bytes * bytes) :=
  [("schemas" : bytes, kMetadataSchemasQuery);
   ("tables" : bytes, kMetadataTablesQuery);
   ("columns" : bytes, kMetadataColumnsQuery);
   ("indexes" : bytes, kMetadataIndexesQuery);
   ("index_columns" : bytes, kMetadataIndexColumnsQuery);
   ("constraints" : bytes, kMetadataConstraintsQuery);
   ("procedures" : bytes, kMetadataProceduresQuery);
   ("functions" : bytes, kMetadataFunctionsQuery);
   ("routines" : bytes, kMetadataRoutinesQuery);
   ("catalogs" : bytes, kMetadataCatalogsQuery);
   ("primary_keys" : bytes, kMetadataPrimaryKeysQuery);
   ("foreign_keys" : bytes, kMetadataForeignKeysQuery);
   ("table_privileges" : bytes, kMetadataTablePrivilegesQuery);
   ("column_privileges" : bytes, kMetadataColumnPrivilegesQuery);
   ("type_info" : bytes, kMetadataTypeInfoQuery);
   ("ddl_fields" : bytes, kMetadataDdlFieldsQuery)].

(** [std::unordered_map::find] on a table with distinct keys. *)
Fixpoint table_find (k : bytes) (l : list (bytes * bytes)) : option bytes :=
  match l with
  | [] => None
  | (k', v) :: l => if bool_decide (k' = k) then Some v else table_find k l
  end.

Definition replace_byte (a b : byte) (s : bytes) : bytes :=
  (λ c, if bool_decide (c = a) then b else c) <$> s.

Definition normalizeMetadataCollectionKey (collection_name : bytes) : bytes :=
  let normalized := toLower (trim collection_name) in
  let normalized := replace_byte "-"%byte "_"%byte normalized in
  let normalized := replace_byte " "%byte "_"%byte normalized in
  if bool_decide (normalized = []) then kDefaultMetadataCollection else normalized.

Definition collapseUnderscores (value : bytes) : bytes := filter (λ c, c ≠ "_"%byte) value.

Definition normalizeMetadataCollectionName (collection_name : bytes) : option bytes :=
  let normalized_key := normalizeMetadataCollectionKey collection_name in
  match table_find normalized_key kMetadataCollectionAliases with
  | Some v => Some v
  | None => table_find (collapseUnderscores normalized_key) kMetadataCollectionAliases
  end.

(** The query and the normalized name. *)
Definition resolveMetadataCollectionQuery (collection_name : bytes) : option (bytes * bytes) :=
  normalized ← normalizeMetadataCollectionName collection_name;
  query ← table_find normalized kMetadataCollectionQueries;
  Some (query, normalized).

Definition metadataCollectionNotSupportedMessage (collection_name : bytes) : bytes :=
  let candidate :=
    if bool_decide (collection_name = []) then kDefaultMetadataCollection else collection_name in
  ("metadata collection '" : bytes) ++ candidate ++ ("' is not supported" : bytes).

(** ** Query builders *)

Definition hasPatternText (pattern : option bytes) : bool :=
  match pattern with None => false | Some p => negb (bool_decide (trim p = [])) end.

Definition quoteSqlLiteral (value : bytes) : bytes := quote_with squote value.

(** [*pattern], read only after [hasPatternText]. *)
Definition pattern_text (pattern : option bytes) : bytes := trim (default [] pattern).

Definition buildMetadataSchemasQuerySql (schema_pattern : option bytes) : bytes :=
  if negb (hasPatternText schema_pattern) then kMetadataSchemasQuery else
  ("SELECT schema_id, schema_name, owner_id, default_tablespace_id FROM sys.schemas WHERE is_valid = 1 AND schema_name LIKE " : bytes)
  ++ quoteSqlLiteral (pattern_text schema_pattern) ++ (" ORDER BY schema_name" : bytes).

(** The conditions appended for the two patterns. *)
Definition append_like (column : bytes) (pattern : option bytes) (sql : bytes) : bytes :=
  if hasPatternText pattern
  then sql ++ (" AND " : bytes) ++ column ++ (" LIKE " : bytes) ++ quoteSqlLiteral (pattern_text pattern)
  else sql.

Definition buildMetadataTablesQuerySql (schema_pattern table_pattern : option bytes) : bytes :=
  if negb (hasPatternText schema_pattern) && negb (hasPatternText table_pattern)
  then kMetadataTablesQuery else
  let sql : bytes := "SELECT t.table_id, t.schema_id, t.table_name, t.table_type, t.owner_id FROM sys.tables t JOIN sys.schemas s ON s.schema_id = t.schema_id WHERE t.is_valid = 1 AND s.is_valid = 1" in
  let sql := append_like "s.schema_name" schema_pattern sql in
  let sql := append_like "t.table_name" table_pattern sql in
  sql ++ (" ORDER BY s.schema_name, t.table_name" : bytes).

Definition buildMetadataColumnsQuerySql (schema_pattern table_pattern : option bytes) : bytes :=
  if negb (hasPatternText schema_pattern) && negb (hasPatternText table_pattern)
  then kMetadataColumnsQuery else
  let sql : bytes := "SELECT c.column_id, c.table_id, c.column_name, c.data_type_id, c.data_type_name, c.ordinal_position, c.is_nullable, c.default_value, c.domain_id, c.collation_id, c.charset_id, c.is_identity, c.is_generated, c.generation_expression FROM sys.columns c JOIN sys.tables t ON t.table_id = c.table_id JOIN sys.schemas s ON s.schema_id = t.schema_id WHERE c.is_valid = 1 AND t.is_valid = 1 AND s.is_valid = 1" in
  let sql := append_like "s.schema_name" schema_pattern sql in
  let sql := append_like "t.table_name" table_pattern sql in
  sql ++ (" ORDER BY t.table_id, c.ordinal_position" : bytes).

Definition buildMetadataIndexesQuerySql (schema_pattern table_pattern : option bytes) : bytes :=
  if negb (hasPatternText schema_pattern) && negb (hasPatternText table_pattern)
  then kMetadataIndexesQuery else
  let sql : bytes := "SELECT i.index_id, i.table_id, i.index_name, i.index_type, i.is_unique FROM sys.indexes i JOIN sys.tables t ON t.table_id = i.table_id JOIN sys.schemas s ON s.schema_id = t.schema_id WHERE i.is_valid = 1 AND t.is_valid = 1 AND s.is_valid = 1" in
  let sql := append_like "s.schema_name" schema_pattern sql in
  let sql := append_like "t.table_name" table_pattern sql in
  sql ++ (" ORDER BY s.schema_name, t.table_name, i.index_name" : bytes).

(** ** LIKE patterns *)

Definition normalizeLikeText (input : bytes) : bytes := toLower input.

(** The inner [while]: skip to the last of a run of percent signs. *)
Fixpoint skip_percents (p : bytes) : bytes :=
  match p with
  | b :: r => if bool_decide (b = "%"%byte) then skip_percents r else p
  | [] => []
  end.

(** The [for] loop over [cursor], given the recursive call. *)
Fixpoint scan_from (f : bytes → option bool) (value : bytes) : option bool :=
  match f value with
  | None => None
  | Some true => Some true
  | Some false => match value with [] => Some false | _ :: value => scan_from f value end
  end.

(** [likeMatchChars] on what is left of the value and of the pattern; every
    iteration and every recursive call consumes part of the pattern, so its
    length bounds them ([like_match_spec]). *)
Fixpoint likeMatchChars (fuel : nat) (value pattern : bytes) : option bool :=
  match fuel with
  | O => None
  | S fuel =>
      match pattern with
      | [] => Some (bool_decide (value = []))
      | token :: pattern =>
          if bool_decide (token = "%"%byte) then
            match skip_percents pattern with
            | [] => Some true
            | p => scan_from (λ v, likeMatchChars fuel v p) value
            end
          else if bool_decide (token = "_"%byte) then
            match value with
            | [] => Some false
            | _ :: value => likeMatchChars fuel value pattern
            end
          else
            let '(token, pattern) :=
              match pattern with
              | t :: rest =>
                  if bool_decide (token = "\"%byte) then (t, rest) else (token, pattern)
              | [] => (token, pattern)
              end in
            match value with
            | v :: value =>
                if bool_decide (v = token) then likeMatchChars fuel value pattern else Some false
            | [] => Some false
            end
      end
  end.

Definition metadataLikeMatch (value pattern : bytes) : option bool :=
  likeMatchChars (S (length pattern)) (normalizeLikeText value) (normalizeLikeText pattern).

(** ** What a pattern means *)

Inductive like_token :=
  | AnyString         (** [%] *)
  | AnyByte           (** [_] *)
  | Literal (b : byte).

(** A backslash makes the next byte literal; at the end it stands for itself. *)
Fixpoint tokenise (p : bytes) : list like_token :=
  match p with
  | [] => []
  | b :: r =>
      if bool_decide (b = "%"%byte) then AnyString :: tokenise r
      else if bool_decide (b = "_"%byte) then AnyByte :: tokenise r
      else
        match r with
        | t :: r' =>
            if bool_decide (b = "\"%byte) then Literal t :: tokenise r' else Literal b :: tokenise r
        | [] => [Literal b]
        end
  end.

Inductive like : list like_token → bytes → Prop :=
  | like_nil : like [] []
  | like_any ts w v : like ts v → like (AnyString :: ts) (w ++ v)
  | like_byte ts b v : like ts v → like (AnyByte :: ts) (b :: v)
  | like_literal ts b v : like ts v → like (Literal b :: ts) (b :: v).

Lemma like_any_inv ts v : like (AnyString :: ts) v ↔ ∃ w u, v = w ++ u ∧ like ts u.
Proof.
  split; [|intros (w & u & -> & H); by constructor].
  inversion 1; subst. eauto.
Qed.

Lemma like_any_any ts v : like (AnyString :: AnyString :: ts) v ↔ like (AnyString :: ts) v.
Proof.
  rewrite !like_any_inv. split.
  - intros (w & u & -> & (w' & u' & -> & H)%like_any_inv). exists (w ++ w'), u'.
    by rewrite <-app_assoc.
  - intros (w & u & -> & H). exists [], (w ++ u). split; [done|]. by constructor.
Qed.

Lemma like_skip p v : like (AnyString :: tokenise p) v ↔ like (AnyString :: tokenise (skip_percents p)) v.
Proof.
  induction p as [|b p IH]; [done|]. cbn [skip_percents]. case_bool_decide as Hb; [|done].
  subst b. cbn [tokenise]. rewrite bool_decide_eq_true_2 by done. by rewrite like_any_any.
Qed.

Lemma skip_percents_length p : (length (skip_percents p) <= length p)%nat.
Proof. induction p as [|b p IH]; [done|]. cbn. case_bool_decide; cbn; lia. Qed.

Lemma scan_from_spec f P value :
  (∀ v, ∃ b, f v = Some b ∧ (b = true ↔ P v)) →
  ∃ b, scan_from f value = Some b ∧ (b = true ↔ ∃ w u, value = w ++ u ∧ P u).
Proof.
  intros Hf. induction value as [|x value (b & E & Hb)]; cbn [scan_from].
  - destruct (Hf []) as (b0 & -> & H0). exists b0. split; [by destruct b0|]. rewrite H0. split.
    + intros HP. by exists [], [].
    + intros (w & u & E & HP). symmetry in E. apply app_eq_nil in E as [-> ->]. done.
  - destruct (Hf (x :: value)) as ([] & -> & H0).
    + exists true. split; [done|]. split; [|done]. intros _. exists [], (x :: value).
      split; [done|]. by apply H0.
    + exists b. split; [done|]. rewrite Hb. split.
      * intros (w & u & -> & HP). by exists (x :: w), u.
      * intros ([|y w] & u & E' & HP); [cbn in E'; subst u; by apply H0 in HP|].
        injection E' as -> ->. by exists w, u.
Qed.

Lemma like_literal_inv b ts v : like (Literal b :: ts) v ↔ ∃ u, v = b :: u ∧ like ts u.
Proof. split; [inversion 1; subst; eauto|intros (u & -> & H); by constructor]. Qed.

Lemma like_match_chars fuel : ∀ value pattern,
  (length pattern < fuel)%nat →
  ∃ b, likeMatchChars fuel value pattern = Some b ∧ (b = true ↔ like (tokenise pattern) value).
Proof.
  induction fuel as [|fuel IH]; intros value pattern Hf; [lia|]. cbn [likeMatchChars].
  destruct pattern as [|token pattern].
  { eexists. split; [done|]. rewrite bool_decide_eq_true. split; [intros ->; constructor|].
    by inversion 1. }
  cbn [tokenise]. cbn [length] in Hf. case_bool_decide as Hp; [|case_bool_decide as Hu].
  - pose proof (skip_percents_length pattern) as Hl. setoid_rewrite like_skip.
    destruct (skip_percents pattern) as [|q qs] eqn:E.
    + exists true. split; [done|]. split; [|done]. intros _. apply like_any_inv.
      exists value, []. split; [by rewrite app_nil_r|constructor].
    + setoid_rewrite like_any_inv. apply scan_from_spec. intros v. apply IH. cbn in *. lia.
  - destruct value as [|v value].
    + exists false. split; [done|]. split; [done|]. by inversion 1.
    + destruct (IH value pattern) as (b & E & Hb); [lia|]. exists b. split; [done|]. rewrite Hb.
      split; [by constructor|by inversion 1].
  - set (tp := match pattern with [] => _ | _ => _ end).
    assert (Htok : match pattern with
      | t :: r' => if bool_decide (token = "\"%byte) then Literal t :: tokenise r'
                   else Literal token :: tokenise pattern
      | [] => [Literal token] end = Literal tp.1 :: tokenise tp.2 ∧ (length tp.2 < fuel)%nat).
    { unfold tp. destruct pattern as [|t r]; [split; [done|cbn; lia]|].
      cbn in Hf. case_bool_decide; split; cbn; try done; lia. }
    destruct Htok as [-> Hl]. destruct tp as [tok pat]. cbn [fst snd] in *.
    destruct value as [|v value].
    + exists false. split; [done|]. split; [done|]. by inversion 1.
    + case_bool_decide as Hv.
      * subst v. destruct (IH value pat Hl) as (b & E & Hb). exists b. split; [done|]. rewrite Hb.
        split; [by constructor|by inversion 1].
      * exists false. split; [done|]. split; [done|]. inversion 1; subst. done.
Qed.

Lemma metadata_like_match value pattern :
  ∃ b, metadataLikeMatch value pattern = Some b ∧
    (b = true ↔ like (tokenise (toLower pattern)) (toLower value)).
Proof.
  unfold metadataLikeMatch, normalizeLikeText. apply like_match_chars. unfold toLower.
  rewrite !length_fmap. lia.
Qed.

(** C39: the backtracking matcher terminates on every value and pattern, and
    accepts exactly the values in the language of the pattern: percent for any
    string, underscore for any byte, backslash to quote the next byte, and case
    ignored. *)
Theorem like_match_spec value pattern :
  metadataLikeMatch value pattern = Some true ∧ like (tokenise (toLower pattern)) (toLower value) ∨
  metadataLikeMatch value pattern = Some false ∧ ¬ like (tokenise (toLower pattern)) (toLower value).
Proof.
  destruct (metadata_like_match value pattern) as ([] & -> & Hb); [left|right].
  - split; [done|]. by apply Hb.
  - split; [done|]. intros H%Hb. done.
Qed.

Example like_examples :
  (metadataLikeMatch "Sales.Orders" "sales%", metadataLikeMatch "abc" "a%b_",
   metadataLikeMatch "a%c" "a\%c", metadataLikeMatch "abc" "a\%c", metadataLikeMatch "ab" "%%a")
  = (Some true, Some true, Some true, Some false, Some false).
Proof. vm_compute. reflexivity. Qed.

(** ** Collections *)

Lemma table_find_elem k v l : table_find k l = Some v → (k, v) ∈ l.
Proof.
  induction l as [|[k' v'] l IH]; [done|]. cbn [table_find]. case_bool_decide as Hk.
  - intros [= ->]. subst k'. by left.
  - intros H. right. by apply IH.
Qed.

(** Every alias leads to a collection that is its own alias and has a query. *)
Lemma aliases_closed :
  Forall (λ kv, normalizeMetadataCollectionName kv.2 = Some kv.2 ∧
                is_Some (table_find kv.2 kMetadataCollectionQueries)) kMetadataCollectionAliases.
Proof. apply (bool_decide_unpack _). vm_compute. exact I. Qed.

Lemma normalize_alias name n :
  normalizeMetadataCollectionName name = Some n → ∃ k, (k, n) ∈ kMetadataCollectionAliases.
Proof.
  unfold normalizeMetadataCollectionName.
  destruct (table_find (normalizeMetadataCollectionKey name) kMetadataCollectionAliases) eqn:E.
  - intros [= ->]. eexists. by apply table_find_elem.
  - intros H. eexists. by apply table_find_elem.
Qed.

(** A collection name resolves exactly when it has an alias: the query is the
    one the table keeps for the normalized name, the normalized name resolves
    to itself, and the spelling's case, surrounding blanks and the choice of
    hyphen, space or underscore make no difference. *)
Theorem collection_resolution name :
  (∀ n, normalizeMetadataCollectionName name = Some n →
     ∃ q, (n, q) ∈ kMetadataCollectionQueries ∧
       resolveMetadataCollectionQuery name = Some (q, n) ∧
       resolveMetadataCollectionQuery n = Some (q, n)) ∧
  (normalizeMetadataCollectionName name = None → resolveMetadataCollectionQuery name = None) ∧
  (∀ name', replace_byte " "%byte "_"%byte (replace_byte "-"%byte "_"%byte (toLower (trim name))) =
            replace_byte " "%byte "_"%byte (replace_byte "-"%byte "_"%byte (toLower (trim name'))) →
     resolveMetadataCollectionQuery name = resolveMetadataCollectionQuery name').
Proof.
  split; [|split].
  - intros n Hn. destruct (normalize_alias _ _ Hn) as [k Hk].
    pose proof (proj1 (Forall_forall _ _) aliases_closed _ Hk) as [Hself [q Hq]]. cbn [snd] in *.
    exists q. split; [by apply table_find_elem|]. unfold resolveMetadataCollectionQuery.
    rewrite Hn, Hself. cbn [mbind option_bind]. by rewrite Hq.
  - intros H. unfold resolveMetadataCollectionQuery. by rewrite H.
  - intros name' H. unfold resolveMetadataCollectionQuery, normalizeMetadataCollectionName.
    assert (normalizeMetadataCollectionKey name = normalizeMetadataCollectionKey name') as ->; [|done].
    unfold normalizeMetadataCollectionKey. by rewrite H.
Qed.

Lemma collection_resolution_witness :
  (∃ q, (("primary_keys" : bytes), q) ∈ kMetadataCollectionQueries ∧
       resolveMetadataCollectionQuery " Primary-Keys " = Some (q, ("primary_keys" : bytes)) ∧
       resolveMetadataCollectionQuery "primary_keys" = Some (q, ("primary_keys" : bytes))) ∧
  resolveMetadataCollectionQuery "views" = None ∧
  resolveMetadataCollectionQuery " Primary-Keys " = resolveMetadataCollectionQuery "primary keys".
Proof.
  split; [|split].
  - apply (collection_resolution " Primary-Keys "). vm_compute. reflexivity.
  - apply (collection_resolution "views"). vm_compute. reflexivity.
  - apply (collection_resolution " Primary-Keys "). vm_compute. reflexivity.
Defined.

(** ** The literals of a statement

    A lexer that replaces every quoted literal by a question mark and returns
    the literals' texts. *)

Fixpoint lex_sql (literal : option bytes) (s : bytes) : bytes * list bytes :=
  match literal, s with
  | None, [] => ([], [])
  | None, b :: r =>
      if bool_decide (b = squote) then lex_sql (Some []) r
      else let '(u, ts) := lex_sql None r in (b :: u, ts)
  | Some acc, [] => (["?"%byte], [acc])
  | Some acc, b :: r =>
      if bool_decide (b = squote) then
        match r with
        | b' :: r' =>
            if bool_decide (b' = squote) then lex_sql (Some (acc ++ [squote])) r'
            else let '(u, ts) := lex_sql None r in ("?"%byte :: u, acc :: ts)
        | [] => (["?"%byte], [acc])
        end
      else lex_sql (Some (acc ++ [b])) r
  end.

Lemma lex_plain s rest :
  squote ∉ s → lex_sql None (s ++ rest) = (s ++ (lex_sql None rest).1, (lex_sql None rest).2).
Proof.
  induction s as [|b s IH]; intros Hs; cbn [app lex_sql]; [by destruct (lex_sql None rest)|].
  apply not_elem_of_cons in Hs as [Hb Hs]. rewrite bool_decide_eq_false_2 by done.
  by rewrite (IH Hs).
Qed.

Lemma lex_body v : ∀ acc rest, starts_not squote rest →
  lex_sql (Some acc) (double_char squote v ++ squote :: rest) =
  ("?"%byte :: (lex_sql None rest).1, (acc ++ v) :: (lex_sql None rest).2).
Proof.
  induction v as [|b v IH]; intros acc rest Hr; cbn [double_char app].
  - cbn [lex_sql]. rewrite bool_decide_eq_true_2 by done. rewrite app_nil_r.
    destruct rest as [|b rest]; [done|].
    assert (b ≠ squote) by (intros ->; by apply Hr).
    rewrite bool_decide_eq_false_2 by done. by destruct (lex_sql None (b :: rest)).
  - case_bool_decide as Hb; cbn [app lex_sql].
    + subst b. rewrite !bool_decide_eq_true_2 by done. rewrite IH by done. by rewrite <-app_assoc.
    + rewrite bool_decide_eq_false_2 by done. rewrite IH by done. by rewrite <-app_assoc.
Qed.

Lemma lex_literal v rest : starts_not squote rest →
  lex_sql None (quoteSqlLiteral v ++ rest) =
  ("?"%byte :: (lex_sql None rest).1, v :: (lex_sql None rest).2).
Proof.
  intros Hr. unfold quoteSqlLiteral, quote_with. cbn [app lex_sql].
  rewrite bool_decide_eq_true_2 by done. rewrite <-app_assoc. by apply (lex_body v []).
Qed.

(** [sql] is the statement [shape] with the literals [ts]. *)
Definition parameterised (sql shape : bytes) (ts : list bytes) : Prop :=
  ∀ rest, starts_not squote rest →
    lex_sql None (sql ++ rest) = (shape ++ (lex_sql None rest).1, ts ++ (lex_sql None rest).2).

Definition given (pattern : option bytes) : list bytes :=
  if hasPatternText pattern then [pattern_text pattern] else [].

Definition like_shape (column : bytes) (present : bool) (shape : bytes) : bytes :=
  if present then shape ++ (" AND " : bytes) ++ column ++ (" LIKE ?" : bytes) else shape.

Lemma parameterised_plain s : squote ∉ s → parameterised s s [].
Proof. intros Hs rest _. by apply lex_plain. Qed.

Lemma parameterised_append_like column pattern sql shape ts :
  squote ∉ column → parameterised sql shape ts →
  parameterised (append_like column pattern sql) (like_shape column (hasPatternText pattern) shape)
    (ts ++ given pattern).
Proof.
  intros Hc Hsql. unfold append_like, like_shape, given.
  destruct (hasPatternText pattern); [|by rewrite app_nil_r]. intros rest Hr.
  assert (Hk : squote ∉ (" AND " : bytes) ++ column ++ (" LIKE " : bytes)).
  { rewrite !not_elem_of_app. split; [|split; [done|]]; apply (bool_decide_unpack _); vm_compute; exact I. }
  rewrite <-!app_assoc, Hsql by done.
  pose proof (lex_plain _ (quoteSqlLiteral (pattern_text pattern) ++ rest) Hk) as E.
  rewrite <-!app_assoc in E. rewrite E, lex_literal by done. cbn [fst snd]. f_equal.
Qed.

Lemma parameterised_lex sql shape ts : parameterised sql shape ts → lex_sql None sql = (shape, ts).
Proof. intros H. specialize (H [] ltac:(done)). by rewrite !app_nil_r in H. Qed.

Lemma parameterised_app_plain sql shape ts s :
  parameterised sql shape ts → squote ∉ s → starts_not squote s →
  parameterised (sql ++ s) (shape ++ s) ts.
Proof.
  intros H Hs Hh rest Hr. rewrite <-!app_assoc, H; [by rewrite lex_plain|].
  unfold starts_not in *. by destruct s.
Qed.

Ltac no_quote := apply (bool_decide_unpack _); vm_compute; exact I.

(** A builder with two optional patterns. *)
Lemma two_pattern_builder (default_sql base tail c1 c2 : bytes) :
  squote ∉ default_sql → squote ∉ base → squote ∉ tail → squote ∉ c1 → squote ∉ c2 →
  ∃ shape, ∀ p1 p2,
    lex_sql None (if negb (hasPatternText p1) && negb (hasPatternText p2) then default_sql
                  else append_like c2 p2 (append_like c1 p1 base) ++ tail) =
    (shape (hasPatternText p1) (hasPatternText p2), given p1 ++ given p2).
Proof.
  intros Hd Hb Ht H1 H2.
  exists (λ b1 b2, if negb b1 && negb b2 then default_sql else like_shape c2 b2 (like_shape c1 b1 base) ++ tail).
  intros p1 p2. destruct (negb (hasPatternText p1) && negb (hasPatternText p2)) eqn:E.
  - unfold given. apply andb_true_iff in E as [->%negb_true_iff ->%negb_true_iff].
    by apply parameterised_lex, parameterised_plain.
  - apply parameterised_lex, parameterised_app_plain; [|done|].
    + apply (parameterised_append_like _ _ _ _ (given p1)); [done|].
      apply (parameterised_append_like _ _ _ _ []); [done|]. by apply parameterised_plain.
    + unfold starts_not. destruct tail; [done|]. intros [= ->]. apply Ht. by left.
Qed.

(** The query builders are injection free: read by a lexer of SQL literals,
    the statement they build has the trimmed patterns as its literals, and the
    text around the literals depends only on which patterns were given. *)
Theorem query_builders_parameterised :
  (∃ shape, ∀ sp, lex_sql None (buildMetadataSchemasQuerySql sp) = (shape (hasPatternText sp), given sp)) ∧
  Forall (λ (build : option bytes → option bytes → bytes),
    ∃ shape, ∀ sp tp, lex_sql None (build sp tp) =
      (shape (hasPatternText sp) (hasPatternText tp), given sp ++ given tp))
    [buildMetadataTablesQuerySql; buildMetadataColumnsQuerySql; buildMetadataIndexesQuerySql].
Proof.
  split.
  - exists (λ b : bool, if b then ("SELECT schema_id, schema_name, owner_id, default_tablespace_id FROM sys.schemas WHERE is_valid = 1 AND schema_name LIKE ? ORDER BY schema_name" : bytes)
                 else kMetadataSchemasQuery).
    intros sp. unfold buildMetadataSchemasQuerySql, given. destruct (hasPatternText sp); cbn [negb]; cbv beta iota.
    + rewrite lex_plain, lex_literal by (try done; no_quote). reflexivity.
    + apply parameterised_lex, parameterised_plain. no_quote.
  - repeat apply Forall_cons_2; [..|apply Forall_nil_2]; apply two_pattern_builder; no_quote.
Qed.

(** ** The DDL editor payload *)

(** What [schemaTreeNodesToPayload] and the payload object hold. *)
Inductive payload_node :=
  PayloadNode (name path : bytes) (terminal : bool) (children : list payload_node).

Record ddl_payload := mkPayload {
  schemaPattern : option bytes;
  expandSchemaParents : bool;
  schemaPaths : list bytes;
  schemaTree : list payload_node
}.

(** [schemaTreeNodesToPayload]; [fuel] bounds the depth. *)
Fixpoint schemaTreeNodesToPayload (fuel : nat) (t : MetadataSchemaTree) (nodes : list bytes)
    : option (list payload_node) :=
  match fuel with
  | O => if bool_decide (nodes = []) then Some [] else None
  | S fuel =>
      foldl (λ payload node,
        payload ← payload;
        match t_nodes t !! node with
        | None => Some payload
        | Some n =>
            children ← schemaTreeNodesToPayload fuel t (n_children n);
            Some (payload ++ [PayloadNode (n_name n) node (n_terminal n) children])
        end) (Some []) nodes
  end.

(** The filtering loop, with [filtered] and [seen]. *)
Fixpoint ddl_filter_loop (schema_pattern : option bytes) (schema_names : list bytes)
    (filtered : list bytes) (seen : gset bytes) : option (list bytes) :=
  match schema_names with
  | [] => Some filtered
  | raw :: schema_names =>
      let normalized := normalizeSchemaPath raw in
      if bool_decide (normalized = []) then ddl_filter_loop schema_pattern schema_names filtered seen
      else
        matches ← match schema_pattern with
                  | None => Some true
                  | Some p => metadataLikeMatch normalized p
                  end;
        if negb matches then ddl_filter_loop schema_pattern schema_names filtered seen
        else if bool_decide (normalized ∈ seen)
        then ddl_filter_loop schema_pattern schema_names filtered seen
        else ddl_filter_loop schema_pattern schema_names (filtered ++ [normalized])
               ({[normalized]} ∪ seen)
  end.

Section payload.
(** [nlohmann::json::dump]. *)
Context (dump : ddl_payload → bytes).

Definition buildMetadataDdlEditorSchemaPayloadJson (fuel : nat) (schema_names : list bytes)
    (schema_pattern : option bytes) (expand_schema_parents : bool) : option bytes :=
  filtered ← ddl_filter_loop schema_pattern schema_names [] ∅;
  let schema_paths := metadataSchemaPathsForNavigation filtered expand_schema_parents in
  let schema_tree := buildMetadataSchemaTree filtered [] expand_schema_parents in
  tree ← schemaTreeNodesToPayload fuel schema_tree (t_schemas schema_tree);
  Some (dump (mkPayload schema_pattern expand_schema_parents schema_paths tree)).
End payload.

Definition selected (schema_pattern : option bytes) (p : bytes) : Prop :=
  p ≠ [] ∧ match schema_pattern with
           | None => True
           | Some pat => like (tokenise (toLower pat)) (toLower p)
           end.

Lemma ddl_filter_loop_spec pat names : ∀ filtered seen,
  NoDup filtered → (∀ p, p ∈ seen ↔ p ∈ filtered) →
  ∃ out, ddl_filter_loop pat names filtered seen = Some out ∧ NoDup out ∧
    ∀ p, p ∈ out ↔ p ∈ filtered ∨ ∃ raw, raw ∈ names ∧ p = normalizeSchemaPath raw ∧ selected pat p.
Proof.
  induction names as [|raw names IH]; intros filtered seen Hn Hs; cbn [ddl_filter_loop].
  { exists filtered. repeat split; [done..| |]; [by left|].
    intros [?|(? & ?%elem_of_nil & _)]; done. }
  setoid_rewrite elem_of_cons.
  set (q := normalizeSchemaPath raw).
  assert (Hskip : ¬ selected pat q ∨ q ∈ filtered →
    ∃ out, ddl_filter_loop pat names filtered seen = Some out ∧ NoDup out ∧
    ∀ p, p ∈ out ↔ p ∈ filtered ∨ ∃ r, (r = raw ∨ r ∈ names) ∧ p = normalizeSchemaPath r ∧ selected pat p).
  { intros Hq. destruct (IH filtered seen Hn Hs) as (out & E & Ho & Hp). exists out.
    split; [done|]. split; [done|]. intros p. rewrite Hp. subst q. naive_solver. }
  assert (Hadd : selected pat q → q ∉ filtered →
    ∃ out, ddl_filter_loop pat names (filtered ++ [q]) ({[q]} ∪ seen) = Some out ∧ NoDup out ∧
    ∀ p, p ∈ out ↔ p ∈ filtered ∨ ∃ r, (r = raw ∨ r ∈ names) ∧ p = normalizeSchemaPath r ∧ selected pat p).
  { intros Hsel Hq. destruct (IH (filtered ++ [q]) ({[q]} ∪ seen)) as (out & E & Ho & Hp).
    - apply NoDup_app. split; [done|]. split; [|apply NoDup_singleton].
      by intros p Hp ->%list_elem_of_singleton.
    - intros p. rewrite elem_of_union, elem_of_singleton, elem_of_app, list_elem_of_singleton, Hs.
      naive_solver.
    - exists out. split; [done|]. split; [done|]. intros p.
      rewrite Hp, elem_of_app, list_elem_of_singleton. subst q. naive_solver. }
  case_bool_decide as Hempty; [apply Hskip; left; by intros [? _]|].
  assert (∃ b, match pat with None => Some true | Some p => metadataLikeMatch q p end = Some b ∧
    (b = true ↔ selected pat q)) as (b & -> & Hb).
  { unfold selected. destruct pat as [pat|]; [|by exists true].
    destruct (metadata_like_match q pat) as (b & -> & Hb). exists b. naive_solver. }
  cbn [mbind option_bind]. destruct b; cbn [negb].
  - apply proj1 in Hb. specialize (Hb eq_refl). case_bool_decide as Hq; rewrite Hs in Hq.
    + apply Hskip. by right.
    + by apply Hadd.
  - apply Hskip. left. intros H%Hb. done.
Qed.

Fixpoint preorder (n : payload_node) : list (bytes * bytes * bool) :=
  let 'PayloadNode name path terminal children := n in
  (name, path, terminal) :: flat_map preorder children.

Definition row_summary (r : MetadataSchemaTreeRow) : bytes * bytes * bool := (name r, path r, terminal r).

Lemma foldl_bind_none {A B} (f : A → B → option A) l :
  foldl (λ r c, x ← r; f x c) None l = None.
Proof. induction l; [done|]. by cbn. Qed.

(** The payload holds the rows, as a tree, and needs no more fuel. *)
Lemma payload_rows t db : ∀ fuel par top nodes rows pl rows',
  foldl (λ r c, rows ← r; appendRowsDepthFirst fuel t c db par top rows) (Some rows) nodes = Some rows' →
  ∃ new pl', rows' = rows ++ new ∧
    foldl (λ payload node,
        payload ← payload;
        match t_nodes t !! node with
        | None => Some payload
        | Some n =>
            children ← schemaTreeNodesToPayload (pred fuel) t (n_children n);
            Some (payload ++ [PayloadNode (n_name n) node (n_terminal n) children])
        end) (Some pl) nodes = Some (pl ++ pl') ∧
    flat_map preorder pl' = row_summary <$> new.
Proof.
  induction fuel as [|fuel IH]; intros par top nodes;
    induction nodes as [|node nodes IHn]; intros rows pl rows'; cbn [foldl];
    try (intros [= <-]; exists [], []; by rewrite !app_nil_r).
  { cbn [mbind option_bind appendRowsDepthFirst]. by rewrite foldl_bind_none. }
  cbn [mbind option_bind appendRowsDepthFirst pred].
  destruct (t_nodes t !! node) as [n|]; [|apply IHn].
  set (r0 := mkRow _ _ _ _ _ _ _).
  destruct (foldl _ (Some (rows ++ [r0])) (n_children n)) as [rows1|] eqn:E1;
    [|by rewrite foldl_bind_none].
  destruct (IH _ _ _ _ [] _ E1) as (new1 & pl1 & -> & Ep1 & Ef1).
  assert (schemaTreeNodesToPayload fuel t (n_children n) = Some pl1) as ->.
  { destruct fuel; [|exact Ep1]. destruct (n_children n); [by injection Ep1 as <-|].
    cbn [foldl mbind option_bind appendRowsDepthFirst] in E1. by rewrite foldl_bind_none in E1. }
  intros E2. cbn [mbind option_bind].
  destruct (IHn _ (pl ++ [PayloadNode (n_name n) node (n_terminal n) pl1]) _ E2) as (new2 & pl2 & -> & Ep2 & Ef2).
  exists (r0 :: new1 ++ new2), (PayloadNode (n_name n) node (n_terminal n) pl1 :: pl2).
  split; [by rewrite <-!app_assoc|]. split; [cbn [pred] in Ep2; by rewrite Ep2, <-app_assoc|].
  cbn [flat_map preorder]. rewrite fmap_cons, fmap_app, Ef1, Ef2. done.
Qed.

(** The DDL editor payload is always built (recursion no deeper than the
    longest path): its paths are the navigation paths of exactly the schemas
    that match the pattern, without duplicates, and its tree, read in preorder,
    is the list of tree rows. *)
Theorem ddl_payload_spec dump names pat e :
  ∃ filtered tree dbrow rows,
    (NoDup filtered ∧
     ∀ p, p ∈ filtered ↔ ∃ raw, raw ∈ names ∧ p = normalizeSchemaPath raw ∧ selected pat p) ∧
    buildMetadataDdlEditorSchemaPayloadJson dump (S (max_depth filtered)) names pat e =
      Some (dump (mkPayload pat e (metadataSchemaPathsForNavigation filtered e) tree)) ∧
    buildMetadataSchemaTreeRows (S (max_depth filtered)) filtered [] e = Some (dbrow :: rows) ∧
    flat_map preorder tree = row_summary <$> rows.
Proof.
  destruct (ddl_filter_loop_spec pat names [] ∅) as (filtered & E & Hn & Hp); [constructor|set_solver|].
  destruct (tree_rows filtered [] e) as (rows & Er & _).
  pose proof Er as Er'. unfold buildMetadataSchemaTreeRows in Er'. cbn zeta in Er'.
  destruct (payload_rows _ _ _ _ _ _ _ [] _ Er') as (new & tree & Enew & Et & Ef).
  exists filtered, tree. do 2 eexists. split; [|split; [|split; [exact Er|]]].
  - split; [done|]. intros p. rewrite Hp. split; [|by right]. intros [?%elem_of_nil|?]; done.
  - unfold buildMetadataDdlEditorSchemaPayloadJson. rewrite E. cbn [mbind option_bind].
    assert (schemaTreeNodesToPayload (S (max_depth filtered)) (buildMetadataSchemaTree filtered [] e)
              (t_schemas (buildMetadataSchemaTree filtered [] e)) = Some tree) as -> by exact Et.
    done.
  - cbn [app] in Enew. apply (f_equal (tail (A:=_))) in Enew. cbn [tail] in Enew. by subst new.
Qed.
