(* ===== verification/ClientC.v ===== *)
(** * The C API

    Models the operations of [src/scratchbird_client_c.cpp] and the inline
    functions of [scratchbird_client.h] on a connection: opening and closing,
    statements, transactions and the other requests. ([CValues] has the values,
    [ClientNotify] the notifications and the reports.) A function runs in the
    monad [C] over the connection behind the pointer, [None] being the null
    pointer, and the caller's [sb_error]. A C string is given by the bytes
    before its end. *)

From S2P Require Import Prelude.
From S2P Require Import Sqlstate.
From S2P Require Import Scram.
From S2P Require Import ErrorContext.
From S2P Require Import Client.
From S2P Require Import Text.
From S2P Require Import Values.
From S2P Require Import ResultSet.
From S2P Require Import WireBuild.
From S2P Require Import WireParse.
From S2P Require Import NetworkConfig.
From S2P Require Import DriverConfig.
From S2P Require Import NetworkClient.
From S2P Require Import Handshake.
From S2P Require Import Identifiers.
From S2P Require Import CircuitBreaker.
From S2P Require Import Telemetry.
From S2P Require Import LeakDetector.
From S2P Require Import Keepalive.
From S2P Require Import CValues.
From S2P Require Import MetadataQueries.

(** ** The connection *)

(** A pointer to a function, [None] for null, and the pointer it is given. *)
Record NotificationListener := mkListener { fn : option Z; user_data : Z }.

(** [called] is not a member: it lists the calls that were made to listeners. *)
Record sb_connection := mkConn {
  client : NetworkClient;
  config : NetworkClientConfig;
  circuit_breaker : CircuitBreaker;
  telemetry : TelemetryCollector;
  keepalive_manager : KeepaliveManager;
  keepalive_tracker : option address;
  leak_detector : LeakDetector;
  leak_guard : option LeakDetectionGuard;
  connection_id : bytes;
  notification_queue : list ClientNotification;
  notification_listeners : gmap Z NotificationListener;
  next_listener_id : Z;
  called : list (NotificationListener * ClientNotification)
}.

#[export] Instance sb_connection_eta : Eta sb_connection := λ c,
  mkConn (client c) (config c) (circuit_breaker c) (telemetry c) (keepalive_manager c) (keepalive_tracker c)
    (leak_detector c) (leak_guard c) (connection_id c) (notification_queue c) (notification_listeners c)
    (next_listener_id c) (called c).

(** [new sb_connection()] *)
Definition new_connection : sb_connection :=
  mkConn new_client default_config (new_default_named sb_circuit_breaker_config_default)
    (new_collector sb_telemetry_config_default) (new_manager sb_keepalive_config_default) None
    (new_detector sb_leak_detection_config_default) None [] [] ∅ 1 [].

Record sb_result := mkResult { results : NetworkResultSet; row_index : nat; column_names : list bytes }.

#[export] Instance sb_result_eta : Eta sb_result := λ r, mkResult (results r) (row_index r) (column_names r).

(** [conn] tells whether the pointer is set; it is then the connection that the
    function runs on. *)
Record sb_prepared := mkPreparedC { conn : bool; pstmt : NetworkPreparedStatement; param_names : list bytes }.

(** ** The monad *)

Inductive returns (A : Type) :=
  | Returns (a : A) (c : option sb_connection) (err : option sb_error)
  | Undefined
  | Unfinished.
Arguments Returns {A}.
Arguments Undefined {A}.
Arguments Unfinished {A}.

Definition C (A : Type) : Type := option sb_connection → option sb_error → returns A.

#[export] Instance C_ret : MRet C := λ A a c err, Returns a c err.
#[export] Instance C_bind : MBind C := λ A B f m c err,
  match m c err with
  | Returns a c err => f a c err
  | Undefined => Undefined
  | Unfinished => Unfinished
  end.

Definition conn_null : C bool := λ c err, Returns (bool_decide (c = None)) c err.

(** Uses of [conn->]. *)
Definition look {A} (f : sb_connection → A) : C A := λ c err,
  match c with Some s => Returns (f s) c err | None => Undefined end.
Definition put (f : sb_connection → sb_connection) : C unit := λ c err,
  match c with Some s => Returns tt (Some (f s)) err | None => Undefined end.
Definition put_outcome (f : sb_connection → outcome sb_connection) : C unit := λ c err,
  match c with
  | Some s => match f s with Ret s => Returns tt (Some s) err | UB => Undefined end
  | None => Undefined
  end.

Definition of_outcome {A} (o : outcome A) : C A := λ c err,
  match o with Ret a => Returns a c err | UB => Undefined end.

(** [core::ErrorContext ctx;], a request of the client with it, and the message
    that it leaves. *)
Definition request {A} (m : M A) : C (A * bytes) := λ c err,
  match c with
  | Some s =>
      match m (client s) (Some fresh_context) with
      | Done a cl ctx => Returns (a, from_option c_message [] ctx) (Some (s <| client := cl |>)) err
      | Crash => Undefined
      | NoFuel => Unfinished
      end
  | None => Undefined
  end.

(** [message.c_str()] *)
Definition c_str (s : bytes) : bytes := match find_byte Byte.x00 s with Some n => take n s | None => s end.

Definition set_error (code : sb_error_code) (message : bytes) : C unit := λ c err,
  Returns tt c (Client.set_error err code (c_str message)).

(** [set_error(err, code, message); return value;] *)
Definition refuse {A} (code : sb_error_code) (message : bytes) (value : A) : C A :=
  _ ← set_error code message; mret value.

(** [return err ? err->code : SB_ERR_UNKNOWN;] *)
Definition error_or_unknown : C sb_error_code := λ c err, Returns (from_option Client.code SB_ERR_UNKNOWN err) c err.

(** ** Helpers *)

Definition trimWhitespace (value : bytes) : bytes :=
  trim_with (λ b, bool_decide (b ∈ [" "%byte; Byte.x09; Byte.x0d; Byte.x0a])) value.

Definition quoteSqlLiteral (value : bytes) : bytes := quote_with squote value.
Definition hexEncode (data : bytes) : bytes := hex_text data.

Definition quoteSqlIdentifier (value : bytes) : bytes := quote_with dquote value.

Definition map_status (status : Status) : sb_error_code :=
  match status with
  | OK => SB_OK
  | CONNECTION_FAILURE | CONNECTION_DOES_NOT_EXIST => SB_ERR_CONNECTION_FAILED
  | INVALID_PASSWORD | INVALID_AUTHORIZATION => SB_ERR_AUTH_FAILED
  | PROTOCOL_VIOLATION => SB_ERR_PROTOCOL
  | SYNTAX_ERROR => SB_ERR_SYNTAX
  | CONSTRAINT_VIOLATION => SB_ERR_CONSTRAINT
  | TYPE_MISMATCH | DATATYPE_MISMATCH => SB_ERR_TYPE_MISMATCH
  | DEADLOCK => SB_ERR_DEADLOCK
  | SERIALIZATION_FAILURE => SB_ERR_SERIALIZATION
  | READ_ONLY_TRANSACTION | INVALID_TRANSACTION_STATE | LOCK_CONFLICT => SB_ERR_TXN_CONFLICT
  | TRANSACTION_ABORTED => SB_ERR_TXN_ABORTED
  | NO_ACTIVE_TRANSACTION => SB_ERR_NO_ACTIVE_TXN
  | LOCK_TIMEOUT => SB_ERR_TIMEOUT
  | OOM => SB_ERR_OUT_OF_MEMORY
  | DISK_FULL => SB_ERR_DISK_FULL
  | TOO_MANY_CONNECTIONS => SB_ERR_TOO_MANY_CONNECTIONS
  | INVALID_ARGUMENT => SB_ERR_INVALID_PARAM
  | NOT_IMPLEMENTED | NOT_SUPPORTED => SB_ERR_NOT_IMPLEMENTED
  | OBJECT_IN_USE => SB_ERR_RESOURCE_BUSY
  | _ => SB_ERR_UNKNOWN
  end.

(** ** Notifications on their way to the caller *)

(** The listeners are called in the order of an unordered map. A listener that
    calls back, and what it throws, are not seen. *)
Definition deliver (listeners : list NotificationListener) (drained : list ClientNotification)
    : list (NotificationListener * ClientNotification) :=
  item ← drained; (λ l, (l, item)) <$> filter (λ l, is_Some (fn l)) listeners.

(** On the connection itself: the number of notifications that were moved. *)
Definition drained_connection (s : sb_connection) : sb_connection :=
  let drained := notifications_ (client s) in
  if bool_decide (drained = []) then s else
  let listeners := (map_to_list (notification_listeners s)).*2 in
  s <| client := client s <| notifications_ := [] |> |>
    <| notification_queue := notification_queue s ++ drained |>
    <| called := called s ++ deliver listeners drained |>.

Definition drain_notifications : C Z := λ c err,
  match c with
  | None => Returns 0 c err
  | Some s => Returns (blen (notifications_ (client s))) (Some (drained_connection s)) err
  end.

(** ** Operations *)

(** What the clocks and generators give during one operation. *)
Record readings := mkReadings {
  admitted_at : Z;
  roll : Z;
  drawn : draws;
  started_at : Z;
  failed_at : Z;
  active_at : Z;
  ended_at : Z;
  ended_wall : Z
}.

(** The span, when the operation is admitted; [None] is a refusal. *)
Definition start_operation (t : readings) (op_name : bytes) (sql : option bytes) : C (option (option SpanContext)) :=
  b ← look circuit_breaker;
  let '(allowed, b) := AllowRequest (admitted_at t) b in
  _ ← put (λ s, s <| circuit_breaker := b |>);
  if negb allowed then refuse SB_ERR_CONNECTION_FAILED "Circuit breaker is OPEN" None else
  telemetry ← look telemetry;
  let span := StartSpan (roll t) (drawn t) (started_at t) op_name telemetry in
  mret (Some (match sql with
              | Some sql => WithAttribute "db.statement" (SanitizeQuery sql) <$> span
              | None => span
              end)).

(** The three records that an operation leaves. *)
Definition record_outcome (t : readings) (success : bool) (s : sb_connection) : sb_connection :=
  s <| circuit_breaker :=
         if success then RecordSuccess (circuit_breaker s) else RecordFailure (failed_at t) (circuit_breaker s) |>.

Definition mark_active (t : readings) (s : sb_connection) : outcome sb_connection :=
  match keepalive_tracker s with
  | Some a => m ← MarkActive (active_at t) a (keepalive_manager s); Ret (s <| keepalive_manager := m |>)
  | None => Ret s
  end.

Definition record_span (t : readings) (span : option SpanContext) (success : bool) (s : sb_connection) : outcome sb_connection :=
  match span with
  | Some span => c ← EndSpan (ended_at t) (ended_wall t) span success (telemetry s); Ret (s <| telemetry := c |>)
  | None => Ret s
  end.

Definition end_operation (t : readings) (span : option SpanContext) (success : bool) : C unit :=
  _ ← put (record_outcome t success);
  _ ← put_outcome (mark_active t);
  _ ← put_outcome (record_span t span success);
  _ ← drain_notifications;
  mret tt.

(** The result set and the names of its columns. *)
Definition named_result (r : NetworkResultSet) : sb_result := mkResult r 0 (nc_name <$> columns r).

(** An operation around a request: [text] makes the message of an error. *)
Definition operation (t : readings) (op_name : bytes) (sql : option bytes) (m : M (Status * NetworkResultSet))
    (text : bytes → bytes) : C (option sb_result) :=
  started ← start_operation t op_name sql;
  match started with
  | None => mret None
  | Some span =>
      '(status, r, message) ← request m;
      if bool_decide (status ≠ OK) then
        _ ← set_error (map_status status) (text message);
        _ ← end_operation t span false;
        mret None
      else
        _ ← set_error SB_OK [];
        _ ← end_operation t span true;
        mret (Some (named_result r))
  end.

(** [ctx.message.empty() ? client.lastError() : ctx.message] *)
Definition or_last_error (message : bytes) : bytes := if bool_decide (message = []) then lastError else message.

Definition sb_execute (fuel : nat) (t : readings) (sql : option bytes) : C (option sb_result) :=
  null ← conn_null;
  match sql with
  | Some sql =>
      if null : bool then refuse SB_ERR_NULL_POINTER "Connection and SQL required" None else
      operation t "execute" (Some sql) (executeQuery fuel sql) or_last_error
  | None => refuse SB_ERR_NULL_POINTER "Connection and SQL required" None
  end.

Definition sb_query : nat → readings → option bytes → C (option sb_result) := sb_execute.

Definition sb_metadata_query (fuel : nat) (t : readings) (collection_name : option bytes) : C (option sb_result) :=
  null ← conn_null;
  if null : bool then refuse SB_ERR_NULL_POINTER "Connection required" None else
  let requested := default [] collection_name in
  match resolveMetadataCollectionQuery requested with
  | None => refuse SB_ERR_NOT_IMPLEMENTED (metadataCollectionNotSupportedMessage requested) None
  | Some (metadata_sql, _) => sb_query fuel t (Some metadata_sql)
  end.

(** ** The schema payload *)

Definition trimAscii (value : bytes) : bytes := trim_with isspace value.

(** The text of a cell, without the length that may precede it. *)
Definition decodeTextColumnValue (value : ColumnValue) : bytes :=
  if WireParse.is_null value || bool_decide (data value = []) then [] else
  trimAscii (stripped (data value)).

Definition schema_candidates : list bytes :=
  [("schema_name" : bytes); ("table_schem" : bytes); ("table_schema" : bytes); ("schema" : bytes)].

(** [None] is -1. *)
Definition findSchemaNameColumnIndex (result : option sb_result) : option nat :=
  r ← result; fst <$> list_find (λ nm, toLower nm ∈ schema_candidates) (column_names r).

(** The names in a column: rows that are too short and empty texts are left out. *)
Definition schema_names_of (schema_col : nat) (rows : list (list ColumnValue)) : list bytes :=
  filter (λ nm, nm ≠ []) (omap (λ row, decodeTextColumnValue <$> row !! schema_col) rows).

(** A call with an [sb_error query_err{}] of its own; it is returned too. *)
Definition with_own_error {A} (m : C A) : C (A * sb_error) := λ c err,
  match m c (Some no_error) with
  | Returns a c e => Returns (a, default no_error e) c err
  | Undefined => Undefined
  | Unfinished => Unfinished
  end.

(** [malloc] and the copy; [memory] tells whether [malloc] finds any. *)
Definition allocateCString (memory : bool) (value oom_message : bytes) : C (option bytes) :=
  if negb memory then refuse SB_ERR_OUT_OF_MEMORY oom_message None else refuse SB_OK [] (Some value).

(** [nlohmann::json::dump] and the depth of the tree are as in [MetadataQueries]. *)
Definition sb_metadata_schema_payload (dump : ddl_payload → bytes) (depth : nat) (memory : bool) (fuel : nat) (t : readings)
    (schema_pattern : option bytes) (expand_schema_parents : bool) : C (option bytes) :=
  null ← conn_null;
  if null : bool then refuse SB_ERR_NULL_POINTER "Connection required" None else
  '(schemas, query_err) ← with_own_error (sb_metadata_query fuel t (Some ("schemas" : bytes)));
  match schemas with
  | None => refuse (Client.code query_err) (Client.message query_err) None
  | Some schemas =>
      match findSchemaNameColumnIndex (Some schemas) with
      | None => refuse SB_ERR_PROTOCOL "schemas metadata result is missing schema-name column" None
      | Some schema_col =>
          let schema_names := schema_names_of schema_col (rows (results schemas)) in
          match buildMetadataDdlEditorSchemaPayloadJson dump depth schema_names schema_pattern expand_schema_parents with
          | None => λ _ _, Unfinished
          | Some payload_json => allocateCString memory payload_json "Out of memory allocating metadata payload"
          end
      end
  end.

(** ** Results *)

(** The row that is written, with the result moved on. *)
Definition sb_fetch (result : option sb_result) (row : bool) : C (sb_error_code * option (sb_result * sb_row)) :=
  match result with
  | Some r =>
      if negb row then refuse SB_ERR_NULL_POINTER "Result and row required" (SB_ERR_NULL_POINTER, None) else
      if (length (rows (results r)) <=? row_index r)%nat then
        refuse SB_ERR_RESULT_EXHAUSTED "No more rows" (SB_ERR_RESULT_EXHAUSTED, None)
      else
        refuse SB_OK [] (SB_OK, Some (r <| row_index := S (row_index r) |>, mkRow (results r) (row_index r)))
  | None => refuse SB_ERR_NULL_POINTER "Result and row required" (SB_ERR_NULL_POINTER, None)
  end.

Definition sb_rows_affected (result : option sb_result) : Z := from_option (λ r, rows_affected (results r)) 0 result.

(** The count is cut to an [int]. *)
Definition sb_column_count (result : option sb_result) : Z := from_option (λ r, i32 (blen (columns (results r)))) 0 result.

Record sb_column_meta := mkMeta { m_name : bytes; m_type : sb_type; m_type_modifier : Z; m_nullable : Z }.

Definition sb_get_column_meta (result : option sb_result) (index : Z) (out : bool)
    : outcome (sb_error_code * option sb_column_meta) :=
  match result with
  | None => Ret (SB_ERR_NULL_POINTER, None)
  | Some r =>
      if negb out then Ret (SB_ERR_NULL_POINTER, None) else
      if (index <? 0) || (blen (columns (results r)) <=? index) then Ret (SB_ERR_INVALID_PARAM, None) else
      match columns (results r) !! Z.to_nat index, column_names r !! Z.to_nat index with
      | Some col, Some nm =>
          Ret (SB_OK, Some (mkMeta nm (map_type_oid (nc_type_oid col)) (i32 (nc_type_modifier col)) (if nc_nullable col then 1 else 0)))
      | _, _ => UB
      end
  end.

(** ** Prepared statements *)

(** [std::isalpha] and [std::isalnum] in the "C" locale. *)
Definition isalpha (b : byte) : bool :=
  let v := byte_val b in ((65 <=? v) && (v <=? 90)) || ((97 <=? v) && (v <=? 122)).
Definition isalnum (b : byte) : bool := isalpha b || ((48 <=? byte_val b) && (byte_val b <=? 57)).

(** The longest beginning whose bytes satisfy [f], and the rest. *)
Fixpoint span_while (f : byte → bool) (s : bytes) : bytes * bytes :=
  match s with
  | [] => ([], [])
  | b :: r => if f b then let '(p, r) := span_while f r in (b :: p, r) else ([], s)
  end.

Definition name_byte (b : byte) : bool := isalnum b || bool_decide (b = "_"%byte).

(** The loop over the text from [sql[i]] on. After a name [i = j] and the [++i]
    of the loop skip the byte that ended it; the last byte is never a start. *)
Fixpoint params_loop (fuel : nat) (in_string : bool) (sql : bytes) : list bytes :=
  match fuel, sql with
  | S fuel, ch :: (next :: _) as rest =>
      if bool_decide (ch = squote) then params_loop fuel (negb in_string) rest
      else if in_string then params_loop fuel in_string rest
      else if bool_decide (ch ∈ [":"%byte; "@"%byte]) && isalpha next then
        let '(nm, rest) := span_while name_byte rest in nm :: params_loop fuel in_string (drop 1 rest)
      else params_loop fuel in_string rest
  | _, _ => []
  end.

Definition parse_named_params (sql : bytes) : list bytes := params_loop (length sql) false sql.

(** [clock] names the statement. *)
Definition sb_prepare (fuel : nat) (clock : Z) (sql : option bytes) : C (option sb_prepared) :=
  null ← conn_null;
  match sql with
  | Some sql =>
      if null : bool then refuse SB_ERR_NULL_POINTER "Connection and SQL required" None else
      '(status, stmt, message) ← request (prepare fuel clock sql);
      if bool_decide (status ≠ OK) then refuse (map_status status) message None else
      refuse SB_OK [] (Some (mkPreparedC true stmt (parse_named_params sql)))
  | None => refuse SB_ERR_NULL_POINTER "Connection and SQL required" None
  end.

Definition sb_bind_index (stmt : option sb_prepared) (index : nat) (value : option sb_value)
    : C (sb_error_code * option sb_prepared) :=
  match stmt with
  | None => refuse SB_ERR_INVALID_HANDLE "Statement is null" (SB_ERR_INVALID_HANDLE, None)
  | Some p =>
      '(code, s) ← of_outcome (apply_bind_value (pstmt p) index value);
      let p := mkPreparedC (conn p) s (param_names p) in
      if bool_decide (code ≠ SB_OK) then refuse code "Failed to bind parameter" (code, Some p)
      else refuse SB_OK [] (code, Some p)
  end.

Definition sb_bind_name (stmt : option sb_prepared) (name : option bytes) (value : option sb_value)
    : C (sb_error_code * option sb_prepared) :=
  match stmt, name with
  | Some p, Some name =>
      match list_find (λ n, n = name) (param_names p) with
      | Some (i, _) => sb_bind_index stmt (S i) value
      | None => refuse SB_ERR_INVALID_PARAM "Parameter name not found" (SB_ERR_INVALID_PARAM, stmt)
      end
  | _, _ => refuse SB_ERR_NULL_POINTER "Name required" (SB_ERR_NULL_POINTER, stmt)
  end.

Definition sb_execute_prepared (fuel : nat) (t : readings) (stmt : option sb_prepared) : C (option sb_result) :=
  match stmt with
  | None => refuse SB_ERR_INVALID_HANDLE "Statement is null" None
  | Some p =>
      if negb (conn p) then refuse SB_ERR_INVALID_HANDLE "Statement is null" None else
      operation t "execute_prepared" None (executePrepared fuel (pstmt p)) id
  end.

(** ** Transactions *)

Record sb_txn_options := mkTxnOptions {
  x_flags : Z;
  x_conflict_action : byte;
  x_autocommit_mode : byte;
  x_isolation_level : byte;
  x_read_committed_mode : byte;
  x_access_mode : byte;
  x_deferrable : byte;
  x_wait_mode : byte;
  x_timeout_ms : Z
}.

(** [sb_txn_options{}] *)
Definition no_txn_options : sb_txn_options :=
  mkTxnOptions 0 Byte.x00 Byte.x00 Byte.x00 Byte.x00 Byte.x00 Byte.x00 Byte.x00 0.

Definition tx_options (o : sb_txn_options) : TransactionOptions :=
  mkTransactionOptions (x_flags o) (x_conflict_action o) (x_autocommit_mode o) (x_isolation_level o)
    (x_read_committed_mode o) (x_access_mode o) (x_deferrable o) (x_wait_mode o) (x_timeout_ms o).

(** [if (!conn)] with the code and text that most functions use. *)
Definition with_handle {A} (on_null : A) (k : C A) : C A :=
  null ← conn_null; if null : bool then refuse SB_ERR_INVALID_HANDLE "Connection is null" on_null else k.

(** The code that is returned for a status, set with the message. *)
Definition conclude (r : Status * bytes) : C sb_error_code :=
  _ ← set_error (map_status r.1) r.2;
  mret (if bool_decide (r.1 = OK) then SB_OK else map_status r.1).

Definition status_call (m : M Status) : C sb_error_code :=
  with_handle SB_ERR_INVALID_HANDLE (r ← request m; conclude r).

Definition sb_tx_begin_ex (fuel : nat) (options : option sb_txn_options) : C sb_error_code :=
  status_call (beginTransaction fuel (tx_options (default no_txn_options options))).

Definition sb_tx_begin (fuel : nat) : C sb_error_code := sb_tx_begin_ex fuel (Some no_txn_options).
Definition sb_tx_commit (fuel : nat) : C sb_error_code := status_call (commit fuel).
Definition sb_tx_rollback (fuel : nat) : C sb_error_code := status_call (rollback fuel).

(** The text, or the refusal that is set. *)
Definition buildPreparedTransactionSql (verb : option bytes) (global_transaction_id : option bytes) : C (option bytes) :=
  match verb, global_transaction_id with
  | None, _ => refuse SB_ERR_NULL_POINTER "Prepared-transaction verb is required" None
  | Some _, None => refuse SB_ERR_NULL_POINTER "Global transaction id is required" None
  | Some verb, Some id =>
      let gid := trimWhitespace id in
      if bool_decide (gid = []) then refuse SB_ERR_SYNTAX "Global transaction id is required" None
      else mret (Some (verb ++ (" " : bytes) ++ quoteSqlLiteral gid))
  end.

(** A statement whose result is not wanted. *)
Definition executeTransactionControlSql (fuel : nat) (t : readings) (sql : bytes) : C sb_error_code :=
  result ← sb_execute fuel t (Some sql);
  match result with
  | None => error_or_unknown
  | Some _ => refuse SB_OK [] SB_OK
  end.

Definition prepared_transaction (verb : bytes) (fuel : nat) (t : readings) (global_transaction_id : option bytes)
    : C sb_error_code :=
  with_handle SB_ERR_INVALID_HANDLE (
    sql ← buildPreparedTransactionSql (Some verb) global_transaction_id;
    match sql with
    | None => error_or_unknown
    | Some sql => executeTransactionControlSql fuel t sql
    end).

Definition sb_tx_prepare_transaction := prepared_transaction "PREPARE TRANSACTION".
Definition sb_tx_commit_prepared := prepared_transaction "COMMIT PREPARED".
Definition sb_tx_rollback_prepared := prepared_transaction "ROLLBACK PREPARED".

Definition no_front_door : C sb_error_code :=
  with_handle SB_ERR_INVALID_HANDLE
    (refuse SB_ERR_NOT_IMPLEMENTED "dormant detach/reattach is not exposed by the public C/C++ front door"
       SB_ERR_NOT_IMPLEMENTED).

Definition sb_tx_detach_to_dormant : C sb_error_code := no_front_door.
Definition sb_tx_reattach_dormant (dormant_id auth_token : option bytes) : C sb_error_code := no_front_door.

Definition named_call (m : bytes → M Status) (name : option bytes) : C sb_error_code :=
  with_handle SB_ERR_INVALID_HANDLE (
    match name with
    | Some ((_ :: _) as name) => r ← request (m name); conclude r
    | _ => refuse SB_ERR_INVALID_PARAM "Savepoint name is required" SB_ERR_INVALID_PARAM
    end).

Definition sb_tx_savepoint (fuel : nat) : option bytes → C sb_error_code := named_call (savepoint fuel).
Definition sb_tx_release_savepoint (fuel : nat) : option bytes → C sb_error_code := named_call (releaseSavepoint fuel).
Definition sb_tx_rollback_to (fuel : nat) : option bytes → C sb_error_code := named_call (rollbackToSavepoint fuel).

(** ** Other requests *)

Definition sb_cancel : C sb_error_code := status_call sendQueryCancel.

Definition sb_set_option (fuel : nat) (name value : option bytes) : C sb_error_code :=
  null ← conn_null;
  match null, name, value with
  | false, Some name, Some value => r ← request (setOption fuel name value); conclude r
  | _, _, _ => refuse SB_ERR_NULL_POINTER "Connection, name, and value required" SB_ERR_NULL_POINTER
  end.

(** [set_error], [drain_notifications] on success, and the code. *)
Definition conclude_drained (r : Status * bytes) : C sb_error_code :=
  _ ← set_error (map_status r.1) r.2;
  _ ← (if bool_decide (r.1 = OK) then _ ← drain_notifications; mret tt else mret tt);
  mret (if bool_decide (r.1 = OK) then SB_OK else map_status r.1).

Definition sb_ping (fuel : nat) : C sb_error_code :=
  with_handle SB_ERR_INVALID_HANDLE (r ← request (ping fuel); conclude_drained r).

Definition sb_is_healthy (fuel : nat) : C Z :=
  code ← sb_ping fuel; mret (if bool_decide (code = SB_OK) then 1 else 0).

Definition on_channel (channel : option bytes) (k : bytes → C sb_error_code) : C sb_error_code :=
  null ← conn_null;
  match null, channel with
  | false, Some channel => k channel
  | _, _ => refuse SB_ERR_NULL_POINTER "Connection and channel required" SB_ERR_NULL_POINTER
  end.

Definition sb_subscribe (fuel : nat) (subscribe_type : byte) (channel filter : option bytes) : C sb_error_code :=
  on_channel channel (λ channel,
    r ← request (subscribeNotifications fuel subscribe_type channel (default [] filter)); conclude_drained r).

Definition sb_unsubscribe (fuel : nat) (channel : option bytes) : C sb_error_code :=
  on_channel channel (λ channel, r ← request (unsubscribeNotifications fuel channel); conclude_drained r).

Definition kSubTypeChannel : byte := Byte.x00.
Definition sb_listen (fuel : nat) : option bytes → option bytes → C sb_error_code := sb_subscribe fuel kSubTypeChannel.
Definition sb_unlisten : nat → option bytes → C sb_error_code := sb_unsubscribe.

Definition sb_unlisten_all (fuel : nat) (t : readings) : C sb_error_code :=
  with_handle SB_ERR_INVALID_HANDLE (executeTransactionControlSql fuel t "UNLISTEN *").

(** [payload] is null or points to the bytes. *)
Definition notify_sql (channel : bytes) (payload : option bytes) : bytes :=
  ("NOTIFY " : bytes) ++ quoteSqlIdentifier channel ++
  match payload with
  | Some ((_ :: _) as payload) => (", " : bytes) ++ quoteSqlLiteral (("hex:" : bytes) ++ hexEncode payload)
  | _ => []
  end.

Definition sb_notify_channel (fuel : nat) (t : readings) (channel payload : option bytes) : C sb_error_code :=
  on_channel channel (λ channel, executeTransactionControlSql fuel t (notify_sql channel payload)).

Definition sb_stream_control (control_type : byte) (window_size timeout_ms : Z) : C sb_error_code :=
  status_call (streamControl control_type window_size timeout_ms).

Definition sb_attach_create (fuel : nat) (mode db_name : option bytes) : C sb_error_code :=
  null ← conn_null;
  match null, mode, db_name with
  | false, Some mode, Some db_name => r ← request (attachCreate fuel mode db_name); conclude r
  | _, _, _ => refuse SB_ERR_NULL_POINTER "Connection, mode, and database required" SB_ERR_NULL_POINTER
  end.

Definition sb_attach_detach (fuel : nat) : C sb_error_code := status_call (attachDetach fuel).

(** A request that yields a result set outside an operation. *)
Definition result_call (m : M (Status * NetworkResultSet)) : C (option sb_result) :=
  '(status, r, message) ← request m;
  if bool_decide (status ≠ OK) then refuse (map_status status) (or_last_error message) None
  else refuse SB_OK [] (Some (named_result r)).

Definition sb_attach_list (fuel : nat) : C (option sb_result) := with_handle None (result_call (attachList fuel)).

(** The parameters up to the first that cannot be bound. *)
Fixpoint build_params (values : list sb_value) : outcome (sb_error_code + list ParamValue) :=
  match values with
  | [] => Ret (inr [])
  | v :: values =>
      '(code, p) ← build_param_value (Some v);
      match p with
      | None => Ret (inl code)
      | Some p =>
          rest ← build_params values;
          Ret (match rest with inl code => inl code | inr ps => inr (p :: ps) end)
      end
  end.

(** [bytecode] and [params] are null or point to that many bytes and values;
    the counts are those lengths unless the pointer is null. *)
Definition sb_execute_sblr (fuel : nat) (sblr_hash : Z) (bytecode : option bytes) (bytecode_len : nat)
    (params : option (list sb_value)) (param_count : nat) : C (option sb_result) :=
  with_handle None (
    if bool_decide (bytecode = None) && (0 <? bytecode_len)%nat then refuse SB_ERR_NULL_POINTER "Bytecode required" None else
    if (0 <? param_count)%nat && bool_decide (params = None) then refuse SB_ERR_NULL_POINTER "Parameters required" None else
    bytecode_vec ← of_outcome (from_nullable bytecode bytecode_len);
    values ← of_outcome (if (param_count <=? length (default [] params))%nat then Ret (take param_count (default [] params)) else UB);
    built ← of_outcome (build_params values);
    match built with
    | inl code => refuse code "Failed to bind parameter" None
    | inr param_values => result_call (executeSblr fuel sblr_hash bytecode_vec param_values)
    end).

(** ** Opening and closing *)

(** The object when the client is connected: [self] is the pointer to it. *)
Definition opened (self : handle) (registered_at checked_out_at thread : Z) (s : sb_connection) : sb_connection :=
  let id := connection_id s in
  let '(tracker, manager) := Register registered_at id self (Keepalive.Start (keepalive_manager s)) in
  let '(guard, detector) := Checkout checked_out_at thread id (LeakDetector.Start (leak_detector s)) in
  s <| keepalive_manager := manager |> <| keepalive_tracker := Some tracker |>
    <| leak_detector := detector |> <| leak_guard := Some guard |>.

(** [counter] is [kConnectionCounter]; its new value is the answer, and the
    connection returned is the one behind the pointer. *)
Definition sb_connect `{Crypto} (fuel : nat) (getEnv : variables) (env : environment) (counter : Z) (self : handle)
    (registered_at checked_out_at thread : Z) (conn_str : option bytes) (err : option sb_error) : returns Z :=
  match conn_str with
  | None => Returns counter None (Client.set_error err SB_ERR_NULL_POINTER "Connection string is required")
  | Some text =>
      let counter := u64 (counter + 1) in
      let s := new_connection <| connection_id := ("conn-" : bytes) ++ dec counter |>
                              <| config := applyDriverDefaultsFromEnv getEnv default_config |> in
      let '(cfg, status, message) := parseDriverConnectionString getEnv text (config s) [] in
      if bool_decide (status ≠ OK) then Returns counter None (Client.set_error err (map_status status) (c_str message)) else
      match connect fuel env cfg (client s) (Some (fresh_context <| c_message := message |>)) with
      | Crash => Undefined
      | NoFuel => Unfinished
      | Done status cl ctx =>
          if bool_decide (status ≠ OK) then
            Returns counter None
              (Client.set_error err (map_status status) (c_str (or_last_error (from_option c_message [] ctx))))
          else
            Returns counter
              (Some (opened self registered_at checked_out_at thread (s <| config := cfg |> <| client := cl |>)))
              (Client.set_error err SB_OK [])
      end
  end.

(** The object before it is deleted. *)
Definition closed (now : Z) (s : sb_connection) : sb_connection :=
  let s :=
    match keepalive_tracker s with
    | Some _ =>
        s <| keepalive_manager := Unregister (connection_id s) (keepalive_manager s) |> <| keepalive_tracker := None |>
    | None => s
    end in
  let s := s <| keepalive_manager := Keepalive.Stop (keepalive_manager s) |> in
  let s :=
    match leak_guard s with
    | Some g => s <| leak_detector := destroy_guard now g (leak_detector s) |> <| leak_guard := None |>
    | None => s
    end in
  let s := s <| leak_detector := LeakDetector.Stop (leak_detector s) |> in
  s <| client := disconnect (client s) |>.

(** The answer is the object that is deleted; no connection is left. *)
Definition sb_disconnect (now : Z) : C (option sb_connection) := λ c err, Returns (closed now <$> c) None err.

(** ** Inline functions of the header *)

Definition sb_canonical_isolation_name (isolation_level : Z) : bytes :=
  if (isolation_level =? 0) || (isolation_level =? 1) then "READ COMMITTED"
  else if isolation_level =? 2 then "SNAPSHOT"
  else if isolation_level =? 3 then "SNAPSHOT TABLE STABILITY"
  else "UNKNOWN".

Definition sb_canonical_read_committed_mode_name (read_committed_mode : Z) : bytes :=
  if read_committed_mode =? 0 then "DEFAULT"
  else if read_committed_mode =? 1 then "READ CONSISTENCY"
  else if read_committed_mode =? 2 then "RECORD VERSION"
  else if read_committed_mode =? 3 then "NO RECORD VERSION"
  else "UNKNOWN".

Inductive sb_retry_scope :=
  | SB_RETRY_SCOPE_NONE
  | SB_RETRY_SCOPE_RECONNECT
  | SB_RETRY_SCOPE_STATEMENT
  | SB_RETRY_SCOPE_TRANSACTION.

#[export] Instance sb_retry_scope_eq_dec : EqDecision sb_retry_scope.
Proof. solve_decision. Defined.

(** Exactly five characters are looked at. *)
Definition sb_retry_scope_for_sqlstate (sqlstate : option bytes) : sb_retry_scope :=
  match sqlstate with
  | Some ([_; _; _; _; _] as s) =>
      if bool_decide (s = ("40001" : bytes)) || bool_decide (s = ("40P01" : bytes)) then SB_RETRY_SCOPE_STATEMENT
      else if starts_with "08" s then SB_RETRY_SCOPE_RECONNECT
      else SB_RETRY_SCOPE_NONE
  | _ => SB_RETRY_SCOPE_NONE
  end.

Definition sb_is_retryable_sqlstate (sqlstate : option bytes) : bool :=
  negb (bool_decide (sb_retry_scope_for_sqlstate sqlstate = SB_RETRY_SCOPE_NONE)).

Definition sb_supports_prepared_transactions : Z := 1.
Definition sb_supports_dormant_reattach : Z := 0.
Definition sb_supports_portal_resume : Z := 0.
