(* ===== verification/ClientNotify.v ===== *)
(** * The C API: notifications and reports

    Models the rest of [src/scratchbird_client_c.cpp]: the queue of
    notifications and its listeners, and the summaries in JSON of the
    components of a connection. *)

From S2P Require Import Prelude.
From S2P Require Import Text.
From S2P Require Import Json.
From S2P Require Import Client.
From S2P Require Import NetworkConfig.
From S2P Require Import NetworkClient.
From S2P Require Import CircuitBreaker.
From S2P Require Import Telemetry.
From S2P Require Import LeakDetector.
From S2P Require Import Keepalive.
From S2P Require Import ClientC.

(** ** The queue *)

(** The number of notifications, or the error code. *)
Definition sb_poll_notifications : C (sb_error_code + Z) :=
  with_handle (inl SB_ERR_INVALID_HANDLE) (count ← drain_notifications; refuse SB_OK [] (inr (i32 count))).

Definition sb_notification_count : C nat :=
  null ← conn_null;
  if null : bool then mret 0%nat else
  _ ← drain_notifications; look (λ s, length (notification_queue s)).

(** [push_back], as in [jsonEscape]: the key is written without escapes. *)
Definition key_text (key value : bytes) : bytes := quote :: key ++ [quote; ":"%byte] ++ value.
Definition in_quotes (value : bytes) : bytes := quote :: jsonEscape value ++ [quote].
Definition braces (members : list bytes) : bytes := ("{" : bytes) ++ join_with ("," : bytes) members ++ ("}" : bytes).
Definition true_or_false (b : bool) : bytes := if b then ("true" : bytes) else ("false" : bytes).

Definition notification_json (notice : ClientNotification) : bytes :=
  braces
    [key_text "process_id" (to_string (cn_process_id notice));
     key_text "channel" (in_quotes (cn_channel notice));
     key_text "payload_hex" (quote :: hexEncode (cn_payload notice) ++ [quote]);
     key_text "change_type" (to_string (byte_val (cn_change_type notice)));
     key_text "row_id" (to_string (cn_row_id notice));
     key_text "has_row_id" (true_or_false (negb (cn_row_id notice =? 0)))].

(** The first of the queue is taken off it before its text is allocated. *)
Definition sb_get_notification (memory : bool) : C (option bytes) :=
  with_handle None (
    _ ← drain_notifications;
    queue ← look notification_queue;
    match queue with
    | [] => refuse SB_OK [] None
    | notice :: rest =>
        _ ← put (λ s, s <| notification_queue := rest |>);
        allocateCString memory (notification_json notice) "Out of memory allocating notification payload"
    end).

Definition sb_get_notifications (memory : bool) : C (option bytes) :=
  with_handle None (
    _ ← drain_notifications;
    notices ← look notification_queue;
    _ ← put (λ s, s <| notification_queue := [] |>);
    allocateCString memory (("[" : bytes) ++ join_with ("," : bytes) (notification_json <$> notices) ++ ("]" : bytes))
      "Out of memory allocating notifications payload").

Definition sb_clear_notifications : C unit :=
  null ← conn_null;
  if null : bool then mret tt else put (λ s, s <| notification_queue := [] |>).

(** ** Listeners *)

(** The identifier, 0 when a pointer is null. *)
Definition sb_add_notification_listener (listener : option Z) (user_data : Z) : C Z :=
  null ← conn_null;
  if null || bool_decide (listener = None) then refuse SB_ERR_NULL_POINTER "Connection and listener required" 0 else
  id ← look next_listener_id;
  _ ← put (λ s, s <| next_listener_id := u64 (next_listener_id s + 1) |>
                  <| notification_listeners := <[id := mkListener listener user_data]> (notification_listeners s) |>);
  refuse SB_OK [] id.

Definition sb_remove_notification_listener (listener_id : Z) : C sb_error_code :=
  with_handle SB_ERR_INVALID_HANDLE (
    listeners ← look notification_listeners;
    match listeners !! listener_id with
    | None => refuse SB_ERR_INVALID_PARAM "Notification listener not found" SB_ERR_INVALID_PARAM
    | Some _ =>
        _ ← put (λ s, s <| notification_listeners := delete listener_id (notification_listeners s) |>);
        refuse SB_OK [] SB_OK
    end).

(** ** Reports *)

Definition operation_json (p : bytes * OperationMetrics) : bytes :=
  let o := p.2 in
  braces
    [key_text "operation" (in_quotes p.1);
     key_text "invocations" (to_string (count o));
     key_text "failures" (to_string (error_count o));
     key_text "successes" (to_string (u64 (count o - error_count o)));
     key_text "total_duration_ms" (to_string (total_time_ms o));
     key_text "average_duration_ms" (to_string (avg_time_ms o));
     key_text "max_duration_ms" (to_string (max_time_ms o))].

Definition telemetry_json (m : Metrics) : bytes :=
  let h := latency_histogram m in
  braces
    [key_text "total_invocations" (to_string (total_queries m));
     key_text "total_successes" (to_string (successful_queries m));
     key_text "total_failures" (to_string (failed_queries m));
     key_text "total_duration_ms" (to_string (total_query_time_ms m));
     key_text "operations" (("[" : bytes) ++ join_with ("," : bytes) (operation_json <$> operation_metrics m) ++ ("]" : bytes));
     key_text "histogram" (braces
       [key_text "ms_0_10" (to_string (ms_0_10 h));
        key_text "ms_10_100" (to_string (ms_10_100 h));
        key_text "ms_100_1000" (to_string (ms_100_1000 h));
        key_text "ms_1000_10000" (to_string (ms_1000_10000 h));
        key_text "ms_over_10000" (to_string (ms_over_10000 h))])].

(** A text about the connection. *)
Definition report (memory : bool) (text : sb_connection → bytes) (oom_message : bytes) : C (option bytes) :=
  with_handle None (text ← look text; allocateCString memory text oom_message).

Definition sb_get_telemetry_summary_json (memory : bool) : C (option bytes) :=
  report memory (λ s, telemetry_json (GetMetrics (telemetry s))) "Out of memory allocating telemetry summary".

Definition sb_reset_telemetry : C sb_error_code :=
  with_handle SB_ERR_INVALID_HANDLE (
    _ ← put (λ s, s <| telemetry := Telemetry.Reset (telemetry s) |>); refuse SB_OK [] SB_OK).

Definition sb_get_slow_operations_json (memory : bool) : C (option bytes) :=
  report memory (λ s, ExportSlowQueriesJson (telemetry s)) "Out of memory allocating slow operation summary".

Definition sb_export_telemetry_prometheus (memory : bool) : C (option bytes) :=
  report memory (λ s, ExportPrometheusMetrics (telemetry s)) "Out of memory allocating telemetry export".

Definition state_name (s : sb_circuit_state) : bytes :=
  match s with
  | SB_CIRCUIT_CLOSED => "closed"
  | SB_CIRCUIT_HALF_OPEN => "half_open"
  | SB_CIRCUIT_OPEN => "open"
  end.

Definition circuit_json (stats : Stats) : bytes :=
  braces
    [key_text "state" (quote :: state_name (st_state stats) ++ [quote]);
     key_text "failure_count" (to_string (st_failures stats));
     key_text "success_count" (to_string (st_successes stats));
     key_text "half_open_requests" (to_string (st_half_open stats))].

Definition sb_get_circuit_breaker_summary_json (memory : bool) : C (option bytes) :=
  report memory (λ s, circuit_json (CircuitBreaker.GetStats (circuit_breaker s))) "Out of memory allocating circuit summary".

(** The tracker is read without the lock of the manager. *)
Definition idle_ms (now : Z) (s : sb_connection) : outcome Z :=
  match keepalive_tracker s with
  | Some a => d ← GetIdleDuration now a (keepalive_manager s); Ret (u64 d)
  | None => Ret 0
  end.

Definition keepalive_json (monitored idle : Z) : bytes :=
  braces [key_text "monitored_count" (to_string monitored); key_text "idle_duration_ms" (to_string idle)].

Definition sb_get_keepalive_summary_json (memory : bool) (now : Z) : C (option bytes) :=
  with_handle None (
    monitored ← look (λ s, GetMonitoredCount (keepalive_manager s));
    idle ← look (idle_ms now);
    idle ← of_outcome idle;
    allocateCString memory (keepalive_json monitored idle) "Out of memory allocating keepalive summary").

Definition leak_json (stats : Z * Z) : bytes :=
  braces [key_text "active_checkouts" (to_string stats.1); key_text "potential_leaks" (to_string stats.2)].

Definition sb_get_leak_summary_json (memory : bool) (now : Z) : C (option bytes) :=
  report memory (λ s, leak_json (LeakDetector.GetStats now (leak_detector s))) "Out of memory allocating leak summary".

(** [now_ms] is the system clock in milliseconds. *)
Definition diagnostics_json (now now_ms : Z) (s : sb_connection) : bytes :=
  let metrics := GetMetrics (telemetry s) in
  let leak := LeakDetector.GetStats now (leak_detector s) in
  braces
    [key_text "captured_unix_ms" (to_string now_ms);
     key_text "is_healthy" (true_or_false (connected_ (client s)));
     key_text "front_door_mode" (in_quotes (front_door_mode (config s)));
     key_text "protocol" (in_quotes (protocol (config s)));
     key_text "host" (in_quotes (host (config s)));
     key_text "port" (to_string (port (config s)));
     key_text "database" (in_quotes (database (config s)));
     key_text "telemetry_total_invocations" (to_string (total_queries metrics));
     key_text "telemetry_total_failures" (to_string (failed_queries metrics));
     key_text "circuit_state" (quote :: state_name (st_state (CircuitBreaker.GetStats (circuit_breaker s))) ++ [quote]);
     key_text "keepalive_monitored_count" (to_string (GetMonitoredCount (keepalive_manager s)));
     key_text "leak_active_checkouts" (to_string leak.1);
     key_text "leak_potential_count" (to_string leak.2);
     key_text "notification_queue_depth" (to_string (blen (notification_queue s)))].

Definition sb_get_diagnostics_json (memory : bool) (now now_ms : Z) : C (option bytes) :=
  with_handle None (
    _ ← drain_notifications;
    text ← look (diagnostics_json now now_ms);
    allocateCString memory text "Out of memory allocating diagnostics payload").
