(* ===== verification/ClientCSpec.v ===== *)
(** * Properties of the C API

    What [ClientC] and [ClientNotify] promise: statements follow the circuit
    breaker's specification, notifications are handed out once and in order,
    reports and statements read back, handles are opened and closed as a whole,
    and the code returned is the one reported. *)

From S2P Require Import Prelude.
From S2P Require Import Text.
From S2P Require Import Json.
From S2P Require Import Sqlstate.
From S2P Require Import Scram.
From S2P Require Import ErrorContext.
From S2P Require Import Client.
From S2P Require Import WireBuild.
From S2P Require Import NetworkConfig.
From S2P Require Import DriverConfig.
From S2P Require Import Transport.
From S2P Require Import NetworkClient.
From S2P Require Import NetworkParams.
From S2P Require Import NetworkClientSpec.
From S2P Require Import Handshake.
From S2P Require Import ConnectSpec.
From S2P Require Import WireParse.
From S2P Require Import TypeExtractor.
From S2P Require Import Identifiers.
From S2P Require Import CircuitBreaker.
From S2P Require Import Worker.
From S2P Require Import Telemetry.
From S2P Require Import LeakDetector.
From S2P Require Import Keepalive.
From S2P Require Import CValues.
From S2P Require Import ClientC.
From S2P Require Import ClientNotify.

(** ** The monad *)

Lemma bind_returns {A B} (m : C A) (f : A → C B) c err a c' err' :
  m c err = Returns a c' err' → (m ≫= f) c err = f a c' err'.
Proof. intros E. unfold mbind, C_bind. by rewrite E. Qed.

Lemma bind_inv {A B} (m : C A) (f : A → C B) c err b c' err' :
  (m ≫= f) c err = Returns b c' err' → ∃ a c1 e1, m c err = Returns a c1 e1 ∧ f a c1 e1 = Returns b c' err'.
Proof. unfold mbind, C_bind. destruct (m c err) as [a c1 e1| |]; [by eauto|done|done]. Qed.

(** One step of a function that returns. *)
Ltac step H := let E := fresh "E" in apply bind_inv in H as (? & ? & ? & E & H); try (injection E as <- <- <-).

Lemma drain_some s err :
  drain_notifications (Some s) err = Returns (blen (notifications_ (client s))) (Some (drained_connection s)) err.
Proof. done. Qed.

(** Draining touches nothing but the notifications. *)
Lemma drained_breaker s : circuit_breaker (drained_connection s) = circuit_breaker s.
Proof. unfold drained_connection. by case_bool_decide. Qed.

(** ** Statements and the circuit breaker *)

(** The bookkeeping after a request. *)
Lemma end_operation_inv t span ok s err u c' err' :
  end_operation t span ok (Some s) err = Returns u c' err' →
  ∃ s', c' = Some s' ∧ err' = err ∧
    circuit_breaker s' = if ok then RecordSuccess (circuit_breaker s) else RecordFailure (failed_at t) (circuit_breaker s).
Proof.
  unfold end_operation. intros H. step H. step H. cbn [put_outcome] in E.
  destruct (mark_active t (record_outcome t ok s)) as [s2|] eqn:E2; [|done]. injection E as <- <- <-.
  step H. cbn [put_outcome] in E.
  destruct (record_span t span ok s2) as [s3|] eqn:E3; [|done]. injection E as <- <- <-.
  step H. injection H as <- <- <-. eexists. split; [done|]. split; [done|]. rewrite drained_breaker.
  assert (B3 : circuit_breaker s3 = circuit_breaker s2).
  { unfold record_span in E3. destruct span as [sp|]; [|by injection E3 as <-].
    destruct (EndSpan _ _ _ _ _); [|done]. by injection E3 as <-. }
  assert (B2 : circuit_breaker s2 = circuit_breaker (record_outcome t ok s)).
  { unfold mark_active in E2. destruct (keepalive_tracker _) as [a|]; [|by injection E2 as <-].
    destruct (MarkActive _ _ _); [|done]. by injection E2 as <-. }
  rewrite B3, B2. done.
Qed.

(** Whether a request would be answered without an error. *)
Definition request_ok (m : M (Status * NetworkResultSet)) (s : sb_connection) : bool :=
  match m (client s) (Some fresh_context) with Done (status, _) _ _ => bool_decide (status = OK) | _ => false end.

Lemma map_status_ok status : map_status status = SB_OK ↔ status = OK.
Proof. by destruct status. Qed.

(** One operation is one execution through the breaker. *)
Lemma operation_executes t op sql m text s err a c' err' :
  operation t op sql m text (Some s) err = Returns a c' err' →
  ∃ s', c' = Some s' ∧
    let x := Execute (admitted_at t) (failed_at t) (request_ok m s) (circuit_breaker s) in
    circuit_breaker s' = x.2 ∧
    (is_Some a ↔ x.1 = true ∧ request_ok m s = true) ∧
    (x.1 = false → s' = s <| circuit_breaker := x.2 |> ∧
       err' = Client.set_error err SB_ERR_CONNECTION_FAILED "Circuit breaker is OPEN") ∧
    (∀ e, err' = Some e → Client.code e = SB_OK ↔ is_Some a).
Proof.
  unfold operation, start_operation. intros H. step H. step E. unfold Execute.
  destruct (AllowRequest (admitted_at t) (circuit_breaker s)) as [allowed b'] eqn:Ea. step E.
  destruct allowed; cbn [negb] in E.
  - step E. injection E as <- <- <-. step H. unfold request in E.
    change (client (s <| circuit_breaker := b' |>)) with (client s) in E. unfold request_ok.
    destruct (m (client s) (Some fresh_context)) as [[st r'] cl ctx| |]; [|done|done]. injection E as <- <- <-.
    destruct (decide (st = OK)) as [->|Hst].
    + cbn [bool_decide decide_rel] in H. step H. step H. apply end_operation_inv in E as (s' & -> & -> & Hb').
      injection H as <- <- <-. exists s'. split; [done|]. cbn [fst snd bool_decide decide_rel].
      split; [done|]. split; [by split|]. split; [done|].
      intros e He. split; [by eauto|]. intros _. destruct err; [|done]. by injection He as <-.
    + rewrite (bool_decide_eq_true_2 (st ≠ OK)) in H by done. step H. step H.
      apply end_operation_inv in E as (s' & -> & -> & Hb').
      injection H as <- <- <-. exists s'. split; [done|]. rewrite bool_decide_eq_false_2 by done. cbn [fst snd].
      split; [done|]. split; [split; [by intros []|by intros []]|]. split; [done|].
      intros e He. split; [|by intros []]. intros Hc. exfalso. apply Hst, map_status_ok.
      destruct err; [|done]. by injection He as <-.
  - step E. injection E as <- <- <-. injection H as <- <- <-. eexists. split; [done|]. cbn [fst snd]. split; [done|].
    split; [split; [by intros []|by intros []]|]. split; [done|].
    intros e He. destruct err; [|done]. injection He as <-. split; [done|by intros []].
Qed.

(** The tracker is allocated, and no counter of calls is about to wrap. *)
Definition usable (s : sb_connection) : Prop :=
  (∀ a, keepalive_tracker s = Some a → is_Some (heap (keepalive_manager s) !! a)) ∧
  (∀ op o, operation_metrics_ (telemetry s) !! op = Some o → 0 <= count o < 2 ^ 64 - 1).

Lemma mark_active_defined t s :
  usable s → ∃ s', mark_active t s = Ret s' ∧ telemetry s' = telemetry s.
Proof.
  intros [Ht _]. unfold mark_active, MarkActive, last_activity. destruct (keepalive_tracker s) as [a|]; [|by eauto].
  destruct (Ht a eq_refl) as [x ->]. by eexists.
Qed.

Lemma record_query_defined op d ok c :
  (∀ o, operation_metrics_ c !! op = Some o → 0 <= count o < 2 ^ 64 - 1) → ∃ c', RecordQueryMetrics op d ok c = Ret c'.
Proof.
  intros Hc. unfold RecordQueryMetrics. destruct (enable_metrics (Telemetry.config_ c)); cbn [negb]; [|by eauto]. cbv zeta.
  match goal with |- context [operation_metrics_ ?x !! op] => replace (operation_metrics_ x) with (operation_metrics_ c) by (by destruct ok) end.
  assert (Hn : 0 <= count (default no_metrics (operation_metrics_ c !! op)) < 2 ^ 64 - 1).
  { destruct (operation_metrics_ c !! op) eqn:E; [by apply Hc|done]. }
  unfold record_operation. cbv zeta.
  replace (u64 (count (default no_metrics (operation_metrics_ c !! op)) + 1) =? 0) with false; [by eexists|].
  unfold u64. rewrite Z.mod_small by lia. lia.
Qed.

Lemma record_span_defined t span ok s : usable s → ∃ s', record_span t span ok s = Ret s'.
Proof.
  intros [_ Hc]. unfold record_span, EndSpan. destruct span as [sp|]; [|by eauto].
  destruct (enable_tracing _); cbn [negb]; [|by eauto]. cbv zeta.
  destruct (record_query_defined (span_name sp) (u64 (Elapsed (ended_at t) sp)) ok (telemetry s) (Hc _)) as [c' ->].
  by eexists.
Qed.

Lemma end_operation_returns t span ok s err :
  usable s → ∃ s', end_operation t span ok (Some s) err = Returns tt (Some s') err.
Proof.
  intros Hu. assert (Hu0 : usable (record_outcome t ok s)) by exact Hu.
  destruct (mark_active_defined t _ Hu0) as (s2 & E2 & Ht2).
  assert (Hu2 : usable (s2 <| keepalive_tracker := None |>)).
  { split; [done|]. change (telemetry (s2 <| keepalive_tracker := None |>)) with (telemetry s2). rewrite Ht2. apply Hu0. }
  destruct (record_span_defined t span ok _ Hu2) as [s3' E3'].
  assert (E3 : ∃ s3, record_span t span ok s2 = Ret s3).
  { revert E3'. unfold record_span. change (telemetry (s2 <| keepalive_tracker := None |>)) with (telemetry s2).
    destruct span as [sp|]; [|by eauto]. destruct (EndSpan _ _ _ _ _); [by eauto|done]. }
  destruct E3 as [s3 E3]. exists (drained_connection s3). unfold end_operation.
  rewrite (bind_returns _ _ _ _ tt (Some (record_outcome t ok s)) err) by done.
  rewrite (bind_returns _ _ _ _ tt (Some s2) err) by (cbn [put_outcome]; by rewrite E2).
  rewrite (bind_returns _ _ _ _ tt (Some s3) err) by (cbn [put_outcome]; by rewrite E3). done.
Qed.

(** An operation returns when its request does. *)
Lemma operation_returns t op sql m text s err status r cl ctx :
  usable s → m (client s) (Some fresh_context) = Done (status, r) cl ctx →
  ∃ a c' err', operation t op sql m text (Some s) err = Returns a c' err'.
Proof.
  intros Hu Hm. unfold operation, start_operation, mbind, C_bind. cbn [look put].
  destruct (AllowRequest (admitted_at t) (circuit_breaker s)) as [[] b'].
  2: { by do 3 eexists. }
  cbn [put look negb]. unfold mret, C_ret, request. cbn [put look]. change (client (s <| circuit_breaker := b' |>)) with (client s). rewrite Hm.
  assert (Hu' : usable (s <| circuit_breaker := b' |> <| client := cl |>)) by exact Hu.
  destruct (bool_decide (status ≠ OK)).
  - unfold set_error. edestruct end_operation_returns as [s' ->]; [exact Hu'|]. by do 3 eexists.
  - unfold set_error. edestruct end_operation_returns as [s' ->]; [exact Hu'|]. by do 3 eexists.
Qed.

Lemma sb_execute_operation fuel t sql s err :
  sb_execute fuel t (Some sql) (Some s) err = operation t "execute" (Some sql) (executeQuery fuel sql) or_last_error (Some s) err.
Proof. done. Qed.

(** C19: A statement is one step of the circuit breaker's specification: it is
    sent when the specification lets it run, and its status is the outcome that
    is recorded; a refused statement sends nothing and changes nothing but the
    breaker. Rows come back just when the statement ran and succeeded, and then
    the error code is [SB_OK]. *)
Theorem statements_follow_breaker cfg p fuel t sql s err status r cl ctx :
  wf_config cfg → CircuitBreaker.represents cfg (circuit_breaker s) p → usable s →
  executeQuery fuel sql (client s) (Some fresh_context) = Done (status, r) cl ctx →
  ∃ a s' err', sb_execute fuel t (Some sql) (Some s) err = Returns a (Some s') err' ∧
    let '(ran, p') := spec_execute cfg (admitted_at t) (failed_at t) (bool_decide (status = OK)) p in
    CircuitBreaker.represents cfg (circuit_breaker s') p' ∧
    (is_Some a ↔ ran = true ∧ status = OK) ∧
    (ran = false → client s' = client s ∧ telemetry s' = telemetry s ∧
       err' = Client.set_error err SB_ERR_CONNECTION_FAILED "Circuit breaker is OPEN") ∧
    (∀ e, err' = Some e → Client.code e = SB_OK ↔ is_Some a).
Proof.
  intros Hw Hp Hu Hm. rewrite sb_execute_operation.
  destruct (operation_returns t "execute" (Some sql) (executeQuery fuel sql) or_last_error s err _ _ _ _ Hu Hm) as (a & c' & err' & E).
  destruct (operation_executes _ _ _ _ _ _ _ _ _ _ E) as (s' & -> & Hb & Ha & Hr & Hc).
  assert (Hok : request_ok (executeQuery fuel sql) s = bool_decide (status = OK)) by (unfold request_ok; by rewrite Hm).
  rewrite Hok in *. destruct (execute_refines cfg (admitted_at t) (failed_at t) (bool_decide (status = OK)) _ p Hw Hp) as [H1 H2].
  rewrite <-Hb in H2. rewrite H1 in Ha, Hr. destruct (spec_execute _ _ _ _ _) as [ran p']. cbn [fst snd] in *.
  exists a, s', err'. split; [done|]. split; [done|]. split; [by rewrite Ha, bool_decide_eq_true|].
  split; [|done]. intros Hf. by destruct (Hr Hf) as [-> ->].
Qed.

(** [n] replies that the relation does not exist. *)
Definition error_replies (n : nat) : bytes :=
  concat (replicate n (encode_error_message sample_error_header sample_fields ++ encode_ready_message sample_ready)).

(** A connection whose server answers so. *)
Definition failing_connection (n : nat) : sb_connection :=
  new_connection <| client := sample_session (error_replies n ++ "next") |>.

Definition at_second (n : Z) : readings :=
  let now := n * 10 ^ 9 in mkReadings now 0 (mkDraws [] []) now now now now now.

Definition default_breaker := sb_circuit_breaker_config_default.

Lemma default_breaker_wf : wf_config default_breaker.
Proof. split; [|split]; unfold in_u32; cbn; lia. Qed.

Lemma new_represents : CircuitBreaker.represents default_breaker (circuit_breaker new_connection) (Closed 0).
Proof. split; [done|]. split_and!; [done|done|cbn; lia..]. Qed.

Lemma statements_follow_breaker_witness :
  ∃ s' err', sb_execute 10 (at_second 1) (Some ("SELECT x" : bytes)) (Some (failing_connection 1)) (Some no_error) =
      Returns None (Some s') err' ∧
    CircuitBreaker.represents default_breaker (circuit_breaker s') (Closed 1).
Proof.
  destruct (executeQuery 10 "SELECT x" (client (failing_connection 1)) (Some fresh_context)) as [[st r] cl ctx| |] eqn:E.
  2, 3: vm_compute in E; discriminate E.
  assert (Hst : st = SYNTAX_ERROR) by (vm_compute in E; by injection E).
  destruct (statements_follow_breaker default_breaker (Closed 0) 10 (at_second 1) "SELECT x" (failing_connection 1) (Some no_error)
    st r cl ctx default_breaker_wf new_represents ltac:(split; done) E) as (a & s' & err' & Ex & H).
  rewrite Hst in H. destruct H as (Hr & Ha & _). exists s', err'. split; [|exact Hr].
  destruct a as [a|]; [|exact Ex]. destruct (proj1 Ha ltac:(eauto)) as [_ [=]].
Defined.

(** One statement after the other: which of them gave rows. *)
Fixpoint execute_each (fuel : nat) (calls : list (readings * bytes)) : C (list bool) :=
  match calls with
  | [] => mret []
  | (t, sql) :: calls =>
      r ← sb_execute fuel t (Some sql);
      rest ← execute_each fuel calls;
      mret (bool_decide (is_Some r) :: rest)
  end.

(** A statement without rows counts, while the breaker is closed. *)
Lemma closed_failure cfg k fuel t sql s err s' err' :
  wf_config cfg → CircuitBreaker.represents cfg (circuit_breaker s) (Closed k) →
  sb_execute fuel t (Some sql) (Some s) err = Returns None (Some s') err' →
  CircuitBreaker.represents cfg (circuit_breaker s')
    (if failure_threshold cfg <=? k + 1 then Open (failed_at t) else Closed (k + 1)).
Proof.
  intros Hw Hp E. rewrite sb_execute_operation in E.
  apply operation_executes in E as (s1 & [= <-] & Hb & Ha & _).
  set (ok := request_ok _ _) in *.
  destruct (execute_refines cfg (admitted_at t) (failed_at t) ok _ _ Hw Hp) as [H1 H2]. cbn [spec_execute fst snd] in *.
  rewrite Hb. destruct ok; [|done]. exfalso. destruct Ha as [_ Ha]. by destruct (Ha (conj H1 eq_refl)).
Qed.

Lemma open_refusal cfg since fuel t sql s err :
  wf_config cfg → CircuitBreaker.represents cfg (circuit_breaker s) (Open since) →
  milliseconds_of (admitted_at t - since) < recovery_timeout_ms cfg →
  sb_execute fuel t (Some sql) (Some s) err =
    Returns None (Some s) (Client.set_error err SB_ERR_CONNECTION_FAILED "Circuit breaker is OPEN").
Proof.
  intros Hw (Hc & Hs & Hl) Ht. rewrite sb_execute_operation. unfold operation, start_operation, mbind, C_bind.
  cbn [look]. unfold AllowRequest. rewrite Hs, Hl, Hc, (proj2 (Z.leb_gt _ _)) by done. rewrite andb_false_r.
  cbn [put negb]. by destruct s.
Qed.

(** Five statements in a row that the server rejects, for whatever reason,
    take the connection out of service: until thirty seconds after the last of
    them no statement is sent, and all are refused as if the connection had
    failed. *)
Theorem five_errors_refuse_service fuel calls t5 sql5 t sql s err s' err' :
  circuit_breaker s = circuit_breaker new_connection →
  execute_each fuel (calls ++ [(t5, sql5)]) (Some s) err = Returns (replicate 5 false) (Some s') err' →
  admitted_at t < failed_at t5 + 30 * 10 ^ 9 → failed_at t5 < admitted_at t →
  sb_execute fuel t (Some sql) (Some s') err' =
    Returns None (Some s') (Client.set_error err' SB_ERR_CONNECTION_FAILED "Circuit breaker is OPEN").
Proof.
  intros Hs E Ht Hd. assert (Hp : CircuitBreaker.represents default_breaker (circuit_breaker s) (Closed 0)).
  { rewrite Hs. apply new_represents. }
  assert (Ho : CircuitBreaker.represents default_breaker (circuit_breaker s') (Open (failed_at t5))).
  { assert (Hstep : ∀ cs k n s1 err1, (0 < n)%nat → k = 5 - Z.of_nat n →
      CircuitBreaker.represents default_breaker (circuit_breaker s1) (Closed k) →
      execute_each fuel (cs ++ [(t5, sql5)]) (Some s1) err1 = Returns (replicate n false) (Some s') err' →
      CircuitBreaker.represents default_breaker (circuit_breaker s') (Open (failed_at t5))).
    2: { by apply (Hstep calls 0 5%nat s err); [lia| | |]. }
    clear. induction cs as [|[t1 sql1] cs IH]; intros k n s1 err1 Hn Hk Hp E; cbn [app execute_each] in E.
    - step E. step E. injection E as Ea -> ->. destruct n as [|[|n]]; [lia| |done].
      cbn in Ea. injection Ea as Ea. destruct x as [r|]; [done|].
      apply (closed_failure _ _ _ _ _ _ _ _ _ default_breaker_wf Hp) in E0. subst k. exact E0.
    - step E. step E. injection E as Ea -> ->. destruct n as [|n]; [lia|]. cbn in Ea. injection Ea as Ea ->.
      destruct x as [r|]; [done|]. pose proof E0 as E2. rewrite sb_execute_operation in E2.
      apply operation_executes in E2 as (s2 & -> & _).
      apply (closed_failure _ _ _ _ _ _ _ _ _ default_breaker_wf Hp) in E0.
      destruct n as [|n].
      { destruct cs as [|[]]; cbn [app execute_each] in E1; step E1; step E1; done. }
      replace (failure_threshold default_breaker <=? k + 1) with false in E0 by (cbn; lia).
      eapply (IH (k + 1) (S n)); [lia|lia|exact E0|exact E1]. }
  apply (open_refusal default_breaker (failed_at t5)); [apply default_breaker_wf|done|].
  unfold milliseconds_of. cbn. Z.to_euclidean_division_equations. lia.
Qed.

Definition five_calls : list (readings * bytes) := (λ n, (at_second n, ("SELECT x" : bytes))) <$> [1; 2; 3; 4].

Lemma five_errors_refuse_service_witness :
  ∃ s' err', execute_each 10 (five_calls ++ [(at_second 5, ("SELECT x" : bytes))]) (Some (failing_connection 5)) (Some no_error) =
      Returns (replicate 5 false) (Some s') err' ∧
    sb_execute 10 (at_second 20) (Some ("SELECT 1" : bytes)) (Some s') err' =
      Returns None (Some s') (Client.set_error err' SB_ERR_CONNECTION_FAILED "Circuit breaker is OPEN").
Proof.
  assert (Hr : match execute_each 10 (five_calls ++ [(at_second 5, ("SELECT x" : bytes))]) (Some (failing_connection 5)) (Some no_error)
    with Returns a (Some _) _ => a = replicate 5 false | _ => False end) by (vm_compute; reflexivity).
  revert Hr. destruct (execute_each _ _ _ _) as [a [s'|] err'| |] eqn:E; [intros ->|intros []..].
  exists s', err'. split; [reflexivity|].
  refine (five_errors_refuse_service 10 five_calls (at_second 5) "SELECT x" (at_second 20) "SELECT 1" (failing_connection 5)
    (Some no_error) s' err' eq_refl E _ _); reflexivity.
Defined.

(** ** Notifications *)

(** What may happen to the notifications of a connection. *)
Inductive nevent :=
  | Arrives (n : ClientNotification)
  | Poll
  | Count
  | TakeOne
  | TakeAll
  | Listen (listener : Z) (user_data : Z)
  | Forget (listener_id : Z).

(** The texts that the caller is handed, read as JSON. *)
Definition read_one (text : option bytes) : list json :=
  match text with Some text => match Json.parse text with Some j => [j] | None => [] end | None => [] end.

Definition read_array (text : option bytes) : list json :=
  match text with Some text => match Json.parse text with Some (JArr l) => l | _ => [] end | None => [] end.

Definition run_nevent (e : nevent) : C (list json) :=
  match e with
  | Arrives n => _ ← put (λ s, s <| client := client s <| notifications_ := notifications_ (client s) ++ [n] |> |>); mret []
  | Poll => _ ← sb_poll_notifications; mret []
  | Count => _ ← sb_notification_count; mret []
  | TakeOne => text ← sb_get_notification true; mret (read_one text)
  | TakeAll => text ← sb_get_notifications true; mret (read_array text)
  | Listen listener user_data => _ ← sb_add_notification_listener (Some listener) user_data; mret []
  | Forget id => _ ← sb_remove_notification_listener id; mret []
  end.

Fixpoint run_nevents (es : list nevent) : C (list json) :=
  match es with
  | [] => mret []
  | e :: es => out ← run_nevent e; outs ← run_nevents es; mret (out ++ outs)
  end.

Definition arrival (e : nevent) : list ClientNotification := match e with Arrives n => [n] | _ => [] end.

(** What a notification means to its reader. *)
Definition notification_value (n : ClientNotification) : json :=
  JObj [(("process_id" : bytes), JNum (cn_process_id n)); (("channel" : bytes), JStr (cn_channel n));
        (("payload_hex" : bytes), JStr (hex_text (cn_payload n)));
        (("change_type" : bytes), JNum (byte_val (cn_change_type n)));
        (("row_id" : bytes), JNum (cn_row_id n)); (("has_row_id" : bytes), JBool (negb (cn_row_id n =? 0)))].

(** Bytes that need no escape. *)
Definition plain_text (s : bytes) : Prop := jsonEscape s = s.

Lemma jsonEscape_app a b : jsonEscape (a ++ b) = jsonEscape a ++ jsonEscape b.
Proof. unfold jsonEscape. by rewrite bind_app. Qed.

Lemma hex_plain data : plain_text (hex_text data).
Proof.
  unfold plain_text. induction data as [|b data IH]; [done|].
  unfold hex_text in *. rewrite bind_cons, jsonEscape_app, IH. f_equal. by destruct b.
Qed.

Lemma notification_prints n : notification_json n = print (notification_value n).
Proof.
  unfold notification_json, notification_value. cbn [print map fst snd]. unfold print_member, print_string, key_text, in_quotes.
  pose proof (hex_plain (cn_payload n)) as Hx. unfold plain_text in Hx. rewrite Hx. done.
Qed.

Lemma read_one_notification n : read_one (Some (notification_json n)) = [notification_value n].
Proof. unfold read_one. by rewrite notification_prints, parse_print. Qed.

Lemma read_array_notifications l :
  read_array (Some (("[" : bytes) ++ join_with ("," : bytes) (notification_json <$> l) ++ ("]" : bytes))) = notification_value <$> l.
Proof.
  unfold read_array.
  replace (("[" : bytes) ++ join_with ("," : bytes) (notification_json <$> l) ++ ("]" : bytes)) with (print (JArr (notification_value <$> l))).
  { by rewrite parse_print. }
  cbn [print]. change (map print (notification_value <$> l)) with (print <$> (notification_value <$> l)).
  rewrite <-list_fmap_compose. f_equal. f_equal. f_equal. apply list_fmap_ext. intros _ n _. by rewrite notification_prints.
Qed.

(** ** Handed out once, in order *)

(** What a step does: [moved] is what it took from the client. *)
Record moves (s : sb_connection) (new : list ClientNotification) (out : list json) (s' : sb_connection) (moved : list ClientNotification)
    : Prop := {
  mv_pending : notifications_ (client s) ++ new = moved ++ notifications_ (client s');
  mv_queue : out ++ (notification_value <$> notification_queue s') = notification_value <$> (notification_queue s ++ moved);
}.

Lemma drained_moves s : moves s [] [] (drained_connection s) (notifications_ (client s)).
Proof.
  unfold drained_connection. case_bool_decide as E; [rewrite E|]; split; cbn -[fmap]; rewrite ?E, ?app_nil_r; done.
Qed.

Lemma drained_called s :
  called (drained_connection s) =
    called s ++ deliver ((map_to_list (notification_listeners s)).*2) (notifications_ (client s)).
Proof. unfold drained_connection. case_bool_decide as E; [rewrite E; cbn; by rewrite app_nil_r|done]. Qed.

Lemma drained_listeners s : notification_listeners (drained_connection s) = notification_listeners s.
Proof. unfold drained_connection. by case_bool_decide. Qed.

Lemma with_handle_some {A} (a : A) (k : C A) s err : with_handle a k (Some s) err = k (Some s) err.
Proof. done. Qed.

Definition quiet (e : nevent) : Prop := match e with Listen _ _ | Forget _ => False | _ => True end.

Definition listeners_of (s : sb_connection) : list NotificationListener := (map_to_list (notification_listeners s)).*2.

(** Taking from the queue after a drain. *)
Lemma moves_take s s' out :
  notifications_ (client s') = notifications_ (client (drained_connection s)) →
  out ++ (notification_value <$> notification_queue s') = notification_value <$> notification_queue (drained_connection s) →
  moves s [] out s' (notifications_ (client s)).
Proof.
  intros Hc Hq. destruct (drained_moves s) as [Hp Hm]. split; [by rewrite Hc|]. rewrite Hq. exact Hm.
Qed.

Lemma moves_none s s' :
  notifications_ (client s') = notifications_ (client s) → notification_queue s' = notification_queue s → moves s [] [] s' [].
Proof. intros Hc Hq. split; [by rewrite Hc, app_nil_r|by rewrite Hq, app_nil_r]. Qed.

Lemma deliver_nil l : deliver l [] = [].
Proof. done. Qed.

Lemma deliver_app l a b : deliver l (a ++ b) = deliver l a ++ deliver l b.
Proof. unfold deliver. by rewrite bind_app. Qed.

Lemma nevent_step e s err :
  ∃ out s' err' moved, run_nevent e (Some s) err = Returns out (Some s') err' ∧
    moves s (arrival e) out s' moved ∧ called s' = called s ++ deliver (listeners_of s) moved ∧
    (quiet e → listeners_of s' = listeners_of s).
Proof.
  pose proof (drained_called s) as Hd. pose proof (drained_listeners s) as Hl. fold (listeners_of s) in Hd.
  destruct e; cbn [run_nevent arrival quiet].
  - do 3 eexists. exists []. split; [reflexivity|]. rewrite app_nil_r. split; [|done]. split; [done|]. by rewrite app_nil_r.
  - do 3 eexists. exists (notifications_ (client s)). split; [reflexivity|]. split; [by apply moves_take|].
    split; [exact Hd|]. intros _. unfold listeners_of. by rewrite Hl.
  - do 3 eexists. exists (notifications_ (client s)). split; [reflexivity|]. split; [by apply moves_take|].
    split; [exact Hd|]. intros _. unfold listeners_of. by rewrite Hl.
  - set (d := drained_connection s) in *.
    destruct (notification_queue d) as [|n rest] eqn:Eq.
    + exists [], d, (Client.set_error err SB_OK []), (notifications_ (client s)).
      split; [|split; [by apply moves_take; [done|fold d; rewrite Eq]|split; [exact Hd|]]].
      { unfold run_nevent, sb_get_notification, mbind, C_bind.
        rewrite with_handle_some, drain_some. fold d. cbn [look]. rewrite Eq. done. }
      intros _. unfold listeners_of. by rewrite Hl.
    + exists [notification_value n], (d <| notification_queue := rest |>), (Client.set_error err SB_OK []), (notifications_ (client s)).
      split; [|split; [by apply moves_take; [done|fold d; rewrite Eq]|split; [exact Hd|]]].
      { unfold run_nevent, sb_get_notification, mbind, C_bind.
        rewrite with_handle_some, drain_some. fold d. cbn [look]. rewrite Eq. cbn [put]. unfold allocateCString, refuse, mbind, C_bind. cbn [negb set_error].
        unfold mret, C_ret. by rewrite read_one_notification. }
      intros _. unfold listeners_of. change (notification_listeners (d <| notification_queue := rest |>)) with (notification_listeners d). by rewrite Hl.
  - set (d := drained_connection s) in *.
    exists (notification_value <$> notification_queue d), (d <| notification_queue := [] |>), (Client.set_error err SB_OK []), (notifications_ (client s)).
    split; [|split; [apply moves_take; [done|by rewrite app_nil_r]|split; [exact Hd|]]].
    { unfold run_nevent, sb_get_notifications, mbind, C_bind.
      rewrite with_handle_some, drain_some. fold d. cbn [look put]. unfold allocateCString, refuse, mbind, C_bind. cbn [negb set_error].
      unfold mret, C_ret. by rewrite read_array_notifications. }
    intros _. unfold listeners_of. change (notification_listeners (d <| notification_queue := [] |>)) with (notification_listeners d). by rewrite Hl.
  - do 3 eexists. exists []. split; [reflexivity|]. split; [by apply moves_none|]. split; [by rewrite app_nil_r|done].
  - destruct (notification_listeners s !! listener_id) as [l|] eqn:E.
    + exists [], (s <| notification_listeners := delete listener_id (notification_listeners s) |>), (Client.set_error err SB_OK []), [].
      split; [|split; [by apply moves_none|split; [by rewrite app_nil_r|done]]].
      unfold sb_remove_notification_listener, mbind, C_bind.
      rewrite with_handle_some. cbn [look]. by rewrite E.
    + eexists [], s, _, []. split; [|split; [by apply moves_none|split; [by rewrite app_nil_r|done]]].
      unfold sb_remove_notification_listener, mbind, C_bind.
      rewrite with_handle_some. cbn [look]. by rewrite E.
Qed.


(** A notification is taken off the queue before its text is allocated. *)
Lemma notification_lost_without_memory s err n rest :
  notification_queue (drained_connection s) = n :: rest →
  ∃ s' err', sb_get_notification false (Some s) err = Returns None (Some s') err' ∧ notification_queue s' = rest.
Proof.
  intros E. exists (drained_connection s <| notification_queue := rest |>). eexists. split; [|reflexivity].
  unfold sb_get_notification, mbind, C_bind.
  rewrite with_handle_some, drain_some. cbn [look]. rewrite E. reflexivity.
Qed.

(** ** Reports *)

Definition operation_value (p : bytes * OperationMetrics) : json :=
  let o := p.2 in
  JObj [(("operation" : bytes), JStr p.1); (("invocations" : bytes), JNum (count o)); (("failures" : bytes), JNum (error_count o));
        (("successes" : bytes), JNum (u64 (count o - error_count o))); (("total_duration_ms" : bytes), JNum (total_time_ms o));
        (("average_duration_ms" : bytes), JNum (avg_time_ms o)); (("max_duration_ms" : bytes), JNum (max_time_ms o))].

Definition telemetry_value (m : Metrics) : json :=
  let h := latency_histogram m in
  JObj [(("total_invocations" : bytes), JNum (total_queries m)); (("total_successes" : bytes), JNum (successful_queries m));
        (("total_failures" : bytes), JNum (failed_queries m)); (("total_duration_ms" : bytes), JNum (total_query_time_ms m));
        (("operations" : bytes), JArr (operation_value <$> operation_metrics m));
        (("histogram" : bytes), JObj
          [(("ms_0_10" : bytes), JNum (ms_0_10 h)); (("ms_10_100" : bytes), JNum (ms_10_100 h));
           (("ms_100_1000" : bytes), JNum (ms_100_1000 h)); (("ms_1000_10000" : bytes), JNum (ms_1000_10000 h));
           (("ms_over_10000" : bytes), JNum (ms_over_10000 h))])].

Definition circuit_value (stats : Stats) : json :=
  JObj [(("state" : bytes), JStr (state_name (st_state stats))); (("failure_count" : bytes), JNum (st_failures stats));
        (("success_count" : bytes), JNum (st_successes stats)); (("half_open_requests" : bytes), JNum (st_half_open stats))].

Definition diagnostics_value (now now_ms : Z) (s : sb_connection) : json :=
  let metrics := GetMetrics (telemetry s) in
  let leak := LeakDetector.GetStats now (leak_detector s) in
  JObj [(("captured_unix_ms" : bytes), JNum now_ms); (("is_healthy" : bytes), JBool (connected_ (client s)));
        (("front_door_mode" : bytes), JStr (front_door_mode (config s))); (("protocol" : bytes), JStr (protocol (config s)));
        (("host" : bytes), JStr (host (config s))); (("port" : bytes), JNum (port (config s)));
        (("database" : bytes), JStr (database (config s)));
        (("telemetry_total_invocations" : bytes), JNum (total_queries metrics));
        (("telemetry_total_failures" : bytes), JNum (failed_queries metrics));
        (("circuit_state" : bytes), JStr (state_name (st_state (CircuitBreaker.GetStats (circuit_breaker s)))));
        (("keepalive_monitored_count" : bytes), JNum (GetMonitoredCount (keepalive_manager s)));
        (("leak_active_checkouts" : bytes), JNum leak.1); (("leak_potential_count" : bytes), JNum leak.2);
        (("notification_queue_depth" : bytes), JNum (blen (notification_queue s)))].

Lemma operation_prints p : operation_json p = print (operation_value p).
Proof. done. Qed.

Lemma map_print {A} (f : A → json) (g : A → bytes) l : (∀ a, g a = print (f a)) → map print (f <$> l) = g <$> l.
Proof. intros H. induction l as [|a l IH]; [done|]. cbn. by rewrite H, IH. Qed.

Lemma telemetry_prints m : telemetry_json m = print (telemetry_value m).
Proof.
  unfold telemetry_json, telemetry_value. cbv zeta. cbn [print map fst snd]. by rewrite (map_print operation_value operation_json).
Qed.

Lemma circuit_prints st : circuit_json st = print (circuit_value st).
Proof. unfold circuit_json, circuit_value. cbn [print map fst snd]. by destruct (st_state st). Qed.

Lemma diagnostics_prints now now_ms s : diagnostics_json now now_ms s = print (diagnostics_value now now_ms s).
Proof. unfold diagnostics_json, diagnostics_value. cbv zeta. cbn [print map fst snd]. by destruct (st_state _). Qed.

Definition leak_value (stats : Z * Z) : json :=
  JObj [(("active_checkouts" : bytes), JNum stats.1); (("potential_leaks" : bytes), JNum stats.2)].

Definition keepalive_value (monitored idle : Z) : json :=
  JObj [(("monitored_count" : bytes), JNum monitored); (("idle_duration_ms" : bytes), JNum idle)].

(** A function returned a text that reads back as a value. *)
Definition gives_json (r : returns (option bytes)) (err : option sb_error) (j : json) : Prop :=
  ∃ text c', r = Returns (Some text) c' (Client.set_error err SB_OK []) ∧ Json.parse text = Some j.

Lemma gives_print (r : returns (option bytes)) err text j c' :
  r = Returns (Some text) c' (Client.set_error err SB_OK []) → text = print j → gives_json r err j.
Proof. intros -> ->. do 2 eexists. split; [done|apply parse_print]. Qed.

(** Every report that is built here is JSON, whatever bytes the names in it
    hold, and reads back as the state it was made from. *)
Theorem reports_read_back s err now now_ms :
  gives_json (sb_get_diagnostics_json true now now_ms (Some s) err) err (diagnostics_value now now_ms (drained_connection s)) ∧
  gives_json (sb_get_telemetry_summary_json true (Some s) err) err (telemetry_value (GetMetrics (telemetry s))) ∧
  gives_json (sb_get_circuit_breaker_summary_json true (Some s) err) err
    (circuit_value (CircuitBreaker.GetStats (circuit_breaker s))) ∧
  gives_json (sb_get_leak_summary_json true now (Some s) err) err (leak_value (LeakDetector.GetStats now (leak_detector s))) ∧
  (usable s → ∃ idle, gives_json (sb_get_keepalive_summary_json true now (Some s) err) err
     (keepalive_value (GetMonitoredCount (keepalive_manager s)) idle)).
Proof.
  split_and!.
  - eapply gives_print; [reflexivity|apply diagnostics_prints].
  - eapply gives_print; [reflexivity|apply telemetry_prints].
  - eapply gives_print; [reflexivity|apply circuit_prints].
  - eapply gives_print; [reflexivity|done].
  - intros [Ht _]. assert (Hi : ∃ idle, idle_ms now s = Ret idle).
    { unfold idle_ms, GetIdleDuration, last_activity. destruct (keepalive_tracker s) as [a|]; [|by eauto].
      destruct (Ht a eq_refl) as [x ->]. by eexists. }
    destruct Hi as [idle Hi]. exists idle. eapply gives_print; [|done].
    unfold sb_get_keepalive_summary_json, mbind, C_bind. rewrite with_handle_some. cbn [look]. rewrite Hi. reflexivity.
Qed.

(** ** Statements that are built *)

Definition read_notify (sql : bytes) : option (bytes * bytes) :=
  rest ← strip_prefix "NOTIFY " sql;
  '(channel, rest) ← read_quoted dquote rest;
  if bool_decide (rest = []) then Some (channel, []) else
  rest ← strip_prefix ", " rest;
  '(text, rest) ← read_quoted squote rest;
  hex ← strip_prefix "hex:" text;
  if bool_decide (rest = []) then Some (channel, unhex_text hex) else None.

(** The statement of [sb_notify_channel] carries the channel and the payload:
    whatever bytes they are, both are read back from it, and nothing follows. *)
Theorem notify_reads_back channel payload :
  read_notify (notify_sql channel payload) = Some (channel, default [] payload).
Proof.
  unfold read_notify, notify_sql, quoteSqlIdentifier. rewrite strip_prefix_app. cbn [mbind option_bind].
  destruct payload as [[|b payload]|]; cbn [default].
  - rewrite read_quote_with by done. reflexivity.
  - rewrite read_quote_with by done. cbn [mbind option_bind]. rewrite strip_prefix_app. cbn [mbind option_bind bool_decide decide_rel].
    rewrite <-(app_nil_r (quoteSqlLiteral _)). unfold quoteSqlLiteral. rewrite read_quote_with by done.
    cbn [mbind option_bind]. rewrite strip_prefix_app. cbn [mbind option_bind]. unfold hexEncode. rewrite unhex_hex. reflexivity.
  - rewrite read_quote_with by done. reflexivity.
Qed.

(** ** Opening and closing *)

(** A connection as [sb_connect] hands it out. *)
Record fresh (s : sb_connection) : Prop := {
  fresh_connected : connected_ (client s) = true;
  fresh_usable : usable s;
  fresh_breaker : circuit_breaker s = circuit_breaker new_connection;
  fresh_monitored : trackers_ (keepalive_manager s) = {[ connection_id s := 1 ]} ∧ keepalive_tracker s = Some 1;
  fresh_checkout : ∃ info, checkouts_ (leak_detector s) = {[ connection_id s := info ]};
  fresh_guard : leak_guard s = Some (mkGuard (connection_id s) false);
  fresh_workers : running_ (Keepalive.worker_ (keepalive_manager s)) = true ∧ running_ (LeakDetector.worker_ (leak_detector s)) = true;
  fresh_queue : notification_queue s = [] ∧ notification_listeners s = ∅
}.

(** Nothing that was acquired is kept. *)
Record released (s : sb_connection) : Prop := {
  rel_client : connected_ (client s) = false ∧ live (client s) = false;
  rel_monitored : trackers_ (keepalive_manager s) = ∅ ∧ keepalive_tracker s = None ∧ heap (keepalive_manager s) = ∅;
  rel_checkout : checkouts_ (leak_detector s) = ∅ ∧ leak_guard s = None;
  rel_workers : Keepalive.worker_ (keepalive_manager s) = Worker.mkWorker false true false false false ∧
    LeakDetector.worker_ (leak_detector s) = Worker.mkWorker false true false false false
}.

Lemma opened_fresh self t1 t2 thread cl cfg id :
  connected_ cl = true →
  fresh (opened self t1 t2 thread (new_connection <| connection_id := id |> <| config := cfg |> <| client := cl |>)).
Proof.
  intros Hc. split; try done.
  - split; [|done]. intros a [= <-]. cbn. by eexists.
  - eexists. reflexivity.
Qed.

(** The parts of a closed connection. *)
Lemma closed_parts now s :
  client (ClientC.closed now s) = disconnect (client s) ∧
  keepalive_tracker (ClientC.closed now s) = None ∧ leak_guard (ClientC.closed now s) = None ∧
  keepalive_manager (ClientC.closed now s) =
    Keepalive.Stop (match keepalive_tracker s with Some _ => Unregister (connection_id s) (keepalive_manager s) | None => keepalive_manager s end) ∧
  leak_detector (ClientC.closed now s) =
    LeakDetector.Stop (match leak_guard s with Some g => destroy_guard now g (leak_detector s) | None => leak_detector s end).
Proof. destruct s as [? ? ? ? ? [kt|] ? [g|] ? ? ? ? ?]; done. Qed.

(** The parts of an open one. *)
Lemma opened_parts self t1 t2 thread s :
  let o := opened self t1 t2 thread s in
  let m := Register t1 (connection_id s) self (Keepalive.Start (keepalive_manager s)) in
  let d := Checkout t2 thread (connection_id s) (LeakDetector.Start (leak_detector s)) in
  connection_id o = connection_id s ∧ keepalive_tracker o = Some m.1 ∧ keepalive_manager o = m.2 ∧
  leak_guard o = Some d.1 ∧ leak_detector o = d.2.
Proof. by destruct s. Qed.

Lemma first_tracker now id c m :
  trackers_ m = ∅ → heap m = ∅ → next_address m = 1 →
  (Register now id c m).1 = 1 ∧ trackers_ (Register now id c m).2 = {[ id := 1 ]} ∧
  heap (Register now id c m).2 = {[ 1 := now ]} ∧ Keepalive.worker_ (Register now id c m).2 = Keepalive.worker_ m.
Proof.
  intros Ht Hh Hn. unfold Register. cbn [fst snd]. split; [done|].
  match goal with |- trackers_ ?x = _ ∧ _ => change (trackers_ x) with (<[id := next_address m]> (trackers_ m));
    change (heap x) with (destroy_tracker (trackers_ m !! id) (<[next_address m := now]> (heap m))) end.
  rewrite Ht, Hh, Hn, lookup_empty. done.
Qed.

Lemma only_tracker id m t :
  trackers_ m = {[ id := 1 ]} → heap m = {[ 1 := t ]} →
  trackers_ (Unregister id m) = ∅ ∧ heap (Unregister id m) = ∅ ∧ Keepalive.worker_ (Unregister id m) = Keepalive.worker_ m.
Proof.
  intros Ht Hh. unfold Unregister. cbn [trackers_ heap Keepalive.worker_ set_field].
  change (trackers_ (_ <| trackers_ := ?x |> <| connections_ := _ |>)) with x.
  split; [rewrite Ht; apply delete_singleton_eq|]. split; [|done].
  change (heap _) with (destroy_tracker (trackers_ m !! id) (heap m)).
  rewrite Ht, Hh, lookup_singleton_eq. apply delete_singleton_eq.
Qed.

Lemma only_checkout now id info d :
  checkouts_ d = {[ id := info ]} →
  checkouts_ (Checkin now id d) = ∅ ∧ LeakDetector.worker_ (Checkin now id d) = LeakDetector.worker_ d.
Proof.
  intros E. unfold Checkin. rewrite E, lookup_singleton_eq. cbv zeta.
  assert (Hd : delete id ({[ id := info ]} : gmap bytes CheckoutInfo) = ∅) by apply delete_singleton_eq.
  destruct (_ <? _); (split; [exact Hd|done]).
Qed.

Lemma disconnect_dead c : connected_ (disconnect c) = false ∧ live (disconnect c) = false.
Proof. split; [reflexivity|]. unfold live. destruct (tls_active (wire (disconnect c))); reflexivity. Qed.

Lemma opened_closed now self t1 t2 thread cl cfg id :
  released (ClientC.closed now (opened self t1 t2 thread (new_connection <| connection_id := id |> <| config := cfg |> <| client := cl |>))).
Proof.
  set (s0 := new_connection <| connection_id := id |> <| config := cfg |> <| client := cl |>).
  destruct (opened_parts self t1 t2 thread s0) as (Hid & Htr & Hm & Hg & Hl). cbv zeta in *.
  destruct (first_tracker t1 (connection_id s0) self (Keepalive.Start (keepalive_manager s0)) eq_refl eq_refl eq_refl) as (Hf & Ht & Hh & Hkw).
  rewrite Hf in Htr. rewrite <-Hm in Ht, Hh, Hkw. clear Hm Hf.
  assert (Hd : ∃ info, checkouts_ (leak_detector (opened self t1 t2 thread s0)) = {[ id := info ]}) by (rewrite Hl; eexists; reflexivity).
  assert (Hw : LeakDetector.worker_ (leak_detector (opened self t1 t2 thread s0)) = Worker.Start new_worker) by (rewrite Hl; reflexivity).
  change (connection_id s0) with id in *. change (Keepalive.worker_ (Keepalive.Start (keepalive_manager s0))) with (Worker.Start new_worker) in Hkw.
  clear Hl. revert Hid Htr Hg Ht Hh Hkw Hd Hw. generalize (opened self t1 t2 thread s0). intros s Hid Htr Hg Ht Hh Hkw [info Hd] Hw.
  destruct (closed_parts now s) as (Ec & Et & Eg & Ek & El). rewrite Htr, Hid in Ek. rewrite Hg in El.
  destruct (only_tracker id _ _ Ht Hh) as (U1 & U2 & U3), (only_checkout now id info _ Hd) as [C1 C2].
  unfold destroy_guard, Release in El. cbn [released_ connection_id_ snd] in El. split.
  - rewrite Ec. apply disconnect_dead.
  - rewrite Ek. split; [exact U1|]. split; [exact Et|exact U2].
  - rewrite El. split; [exact C1|exact Eg].
  - rewrite Ek, El. unfold Keepalive.Stop, LeakDetector.Stop.
    change (Worker.Stop (Keepalive.worker_ (Unregister id (keepalive_manager s))) = Worker.mkWorker false true false false false ∧
      Worker.Stop (LeakDetector.worker_ (Checkin now id (leak_detector s))) = Worker.mkWorker false true false false false).
    by rewrite U3, C2, Hkw, Hw.
Qed.

(** C20: [sb_connect] either hands out a connection or reports an error. What it
    hands out is connected, monitored by exactly one tracker and checked out
    once, with the breaker closed; [sb_disconnect] gives all of it back: the
    client is closed, the tracker freed, the checkout ended, and both workers
    have stopped. *)
Theorem connection_lifecycle `{Crypto} fuel getEnv env counter self t1 t2 thread now text err :
  match sb_connect fuel getEnv env counter self t1 t2 thread text err with
  | Returns n (Some s) err' =>
      err' = Client.set_error err SB_OK [] ∧ connection_id s = ("conn-" : bytes) ++ dec n ∧ fresh s ∧
      sb_disconnect now (Some s) err' = Returns (Some (ClientC.closed now s)) None err' ∧ released (ClientC.closed now s)
  | Returns _ None err' => ∀ e, err' = Some e → Client.code e ≠ SB_OK
  | _ => True
  end.
Proof.
  unfold sb_connect. destruct text as [text|].
  2: { intros e. by destruct err as [e0|]; [intros [= <-]|]. }
  cbv zeta. destruct (parseDriverConnectionString _ _ _ _) as [[cfg st] msg].
  assert (Hfail : ∀ status m e, status ≠ OK → Client.set_error err (map_status status) m = Some e → Client.code e ≠ SB_OK).
  { intros status m e Hst. destruct err as [e0|]; [|done]. intros [= <-]. cbn. by rewrite map_status_ok. }
  case_bool_decide as Hst; [by eauto|].
  pose proof (connect_ends fuel env cfg new_client (Some (fresh_context <| c_message := msg |>)) eq_refl) as Ho.
  change (client (_ <| config := _ |>)) with new_client.
  destruct (connect _ _ _ _ _) as [status cl ctx| |]; [|done..]. case_bool_decide as Hs; [by eauto|].
  destruct Ho as [Ho _]. specialize (Ho Hs).
  match goal with |- context [opened _ _ _ _ (?s0 <| config := cfg |> <| client := cl |>)] =>
    change (s0 <| config := cfg |> <| client := cl |>) with
      (new_connection <| connection_id := connection_id s0 |> <| config := cfg |> <| client := cl |>) end.
  split; [reflexivity|]. split; [reflexivity|]. split; [by apply opened_fresh|]. split; [reflexivity|]. apply opened_closed.
Qed.

(** ** Named parameters *)

(** A statement as it is meant: text, literals and parameters. *)
Inductive segment := Plain (s : bytes) | Literal (s : bytes) | Parameter_ (sigil : byte) (name : bytes).

Definition render_segment (x : segment) : bytes :=
  match x with Plain s => s | Literal s => squote :: s ++ [squote] | Parameter_ c nm => c :: nm end.

Definition render (l : list segment) : bytes := l ≫= render_segment.

Definition segment_names (l : list segment) : list bytes :=
  omap (λ x, match x with Parameter_ _ nm => Some nm | _ => None end) l.

Definition sigils : list byte := [":"%byte; "@"%byte].

(** Text has no apostrophe and no sigil, a literal no apostrophe; a parameter is
    a sigil and a name, and what follows it is text that does not continue the
    name. *)
Fixpoint wf_segments (l : list segment) : Prop :=
  match l with
  | [] => True
  | Plain s :: l => Forall (λ b, b ≠ squote ∧ b ∉ sigils) s ∧ wf_segments l
  | Literal s :: l => squote ∉ s ∧ wf_segments l
  | Parameter_ c nm :: l =>
      c ∈ sigils ∧ Forall (λ b, name_byte b = true) nm ∧ (∃ a r, nm = a :: r ∧ isalpha a = true) ∧
      match l with [] => True | Plain (b :: _) :: _ => name_byte b = false | _ => False end ∧ wf_segments l
  end.

Lemma loop_plain b rest fuel :
  b ≠ squote → b ∉ sigils → params_loop (S fuel) false (b :: rest) = params_loop fuel false rest.
Proof.
  intros Hq Hs. cbn [params_loop]. destruct rest as [|c rest]; [by destruct fuel|].
  rewrite (bool_decide_eq_false_2 (b = squote)) by done. rewrite bool_decide_eq_false_2 by done. done.
Qed.

Lemma loop_plain_text s rest fuel :
  Forall (λ b, b ≠ squote ∧ b ∉ sigils) s → params_loop (length s + fuel) false (s ++ rest) = params_loop fuel false rest.
Proof.
  induction s as [|b s IH]; intros Hs; [done|]. apply Forall_cons in Hs as [[Hq Hb] Hs].
  cbn [length app Nat.add]. by rewrite loop_plain, IH.
Qed.

Lemma loop_literal s rest fuel :
  squote ∉ s → params_loop (length s + S fuel) true (s ++ squote :: rest) = params_loop fuel false rest.
Proof.
  induction s as [|b s IH]; intros Hs; cbn [length app Nat.add params_loop].
  - destruct rest; [by destruct fuel|]. by rewrite bool_decide_eq_true_2.
  - apply not_elem_of_cons in Hs as [Hb Hs]. destruct (s ++ squote :: rest) as [|c t] eqn:E; [by destruct s|].
    rewrite bool_decide_eq_false_2 by done. by apply IH.
Qed.

Lemma span_name nm rest :
  Forall (λ b, name_byte b = true) nm → match rest with [] => True | b :: _ => name_byte b = false end →
  span_while name_byte (nm ++ rest) = (nm, rest).
Proof.
  intros Hn Hr. induction Hn as [|b nm Hb _ IH]; cbn [app span_while].
  - destruct rest as [|b r]; [done|]. cbn. by rewrite Hr.
  - by rewrite Hb, IH.
Qed.

Lemma loop_parameter c nm rest fuel :
  c ∈ sigils → Forall (λ b, name_byte b = true) nm → (∃ a r, nm = a :: r ∧ isalpha a = true) →
  match rest with [] => True | b :: _ => name_byte b = false end →
  params_loop (S fuel) false (c :: nm ++ rest) = nm :: params_loop fuel false (drop 1 rest).
Proof.
  intros Hc Hn (a & r & -> & Ha) Hr. cbn [params_loop app].
  assert (Hq : c ≠ squote) by (intros ->; by apply (bool_decide_pack _) in Hc).
  rewrite (bool_decide_eq_false_2 (c = squote)) by done. rewrite bool_decide_eq_true_2 by done. rewrite Ha. cbn [andb].
  change (a :: r ++ rest) with ((a :: r) ++ rest). by rewrite span_name.
Qed.

(** More fuel than bytes changes nothing. *)
Lemma render_names l : ∀ fuel,
  wf_segments l → (length (render l) <= fuel)%nat → params_loop fuel false (render l) = segment_names l.
Proof.
  unfold render, segment_names. induction l as [|x l IH]; intros fuel Hw Hf; [by destruct fuel|].
  rewrite bind_cons in *. rewrite length_app in Hf. destruct x as [s|s|c nm]; cbn [render_segment omap list_omap] in *.
  - destruct Hw as [Hs Hw]. replace fuel with (length s + (fuel - length s))%nat by lia.
    rewrite loop_plain_text by done. apply IH; [done|lia].
  - destruct Hw as [Hs Hw]. cbn [length app] in *. rewrite length_app in Hf. cbn [length] in Hf.
    replace fuel with (S (length s + S (fuel - S (S (length s)))))%nat by lia. rewrite <-app_assoc. cbn [app params_loop].
    destruct (s ++ squote :: (l ≫= render_segment)) as [|b t] eqn:E; [by destruct s|].
    rewrite bool_decide_eq_true_2 by done. cbn [negb]. rewrite <-E, loop_literal by done. apply IH; [done|lia].
  - destruct Hw as (Hc & Hn & Ha & Hnext & Hw). cbn [length app] in *. destruct fuel as [|fuel]; [lia|].
    destruct l as [|[[|b s]|s|]]; try done.
    + rewrite loop_parameter by done. by destruct fuel.
    + rewrite bind_cons in *. cbn [render_segment app] in *. rewrite loop_parameter by done. cbn [drop]. f_equal.
      rewrite <-(IH (S fuel) Hw) by lia. destruct Hw as [[[Hq Hb] _]%Forall_cons _]. symmetry. by apply loop_plain.
Qed.

(** The parameters that [sb_prepare] finds in a statement are those it was
    written with, in order: names inside literals are not taken, and every
    parameter is found when text follows it or nothing does. *)
Theorem named_params_found l :
  wf_segments l → parse_named_params (render l) = segment_names l.
Proof. intros Hw. by apply render_names. Qed.

Lemma named_params_found_witness :
  parse_named_params "SELECT ':no' || :a, @b_2" = [("a" : bytes); ("b_2" : bytes)].
Proof.
  apply (named_params_found [Plain "SELECT "; Literal ":no"; Plain " || "; Parameter_ ":" "a"; Plain ", "; Parameter_ "@" "b_2"]).
  cbn. repeat split; try (exact I); try (by_evaluation); try (do 2 eexists; split; reflexivity).
Defined.

(** A cast is taken for a parameter, and so moves the ones after it; of two
    parameters without text between them the second is not found. *)
Example params_misread :
  parse_named_params "SELECT x::int, :a" = [("int" : bytes); ("a" : bytes)] ∧
  parse_named_params ":a:b " = [("a" : bytes)] ∧
  parse_named_params "f(:a':b')" = [("a" : bytes); ("b" : bytes)].
Proof. split_and!; reflexivity. Qed.

(** Binding an index writes that slot only. *)
Lemma bind_index_slots p k v c err code p' c' err' j :
  aligned (pstmt p) → sb_bind_index (Some p) (S k) (Some v) c err = Returns (code, Some p') c' err' → (k < j)%nat →
  wire_slots (pstmt p') j = wire_slots (pstmt p) j.
Proof.
  intros Ha H Hj. unfold sb_bind_index in H. apply bind_inv in H as ([code0 s] & c1 & e1 & H1 & H). unfold of_outcome in H1.
  destruct (apply_bind_value (pstmt p) (S k) (Some v)) as [[code1 s1]|] eqn:E; [|done]. injection H1 as <- <- <- <-.
  assert (Hs : pstmt p' = s1) by (destruct (bool_decide (code1 ≠ SB_OK)); injection H as _ <- _ _; done).
  rewrite Hs. clear H Hs. rewrite apply_as_set in E. destruct (bound_value v) as [[c0|w]|]; cbn [mbind outcome_bind] in E; [by injection E as <- <-| |done].
  unfold bound in E. destruct (decide (representable (Set_ 1 w))) as [Hr|Hr].
  - destruct (set_as_write (S k) w Hr) as (change & oid & Hset & _). rewrite Hset in E.
    destruct (set_param_spec (S k) change oid (pstmt p) Ha) as (s' & Es & _ & _ & Hl). rewrite Es in E. injection E as <- <-.
    unfold wire_slots. rewrite Hl. unfold slot_write.
    replace (S j =? S k)%nat with false by lia. by replace (S j <? S k)%nat with false by lia.
  - by rewrite set_not_representable in E.
Qed.

(** A name that a statement uses twice is bound at its first place only: the
    slots of the others stay as they are, and are sent as such. *)
Theorem repeated_name_binds_first p nm v c err code p' c' err' i j :
  aligned (pstmt p) → param_names p !! i = Some nm → param_names p !! j = Some nm → (i < j)%nat →
  sb_bind_name (Some p) (Some nm) (Some v) c err = Returns (code, Some p') c' err' →
  wire_slots (pstmt p') j = wire_slots (pstmt p) j.
Proof.
  intros Ha Hi _ Hij H. unfold sb_bind_name in H. destruct (list_find _ _) as [[k n]|] eqn:E.
  - apply list_find_Some in E as (_ & _ & Hk). apply (bind_index_slots p k v c err code p' c' err' j Ha H).
    destruct (decide (k <= i)%nat); [lia|]. exfalso. by apply (Hk i nm Hi ltac:(lia)).
  - apply list_find_None in E. rewrite Forall_lookup in E. by destruct (E i nm Hi).
Qed.

Definition sample_named : sb_prepared :=
  mkPreparedC true sample_statement (parse_named_params "SELECT :a + :a").

Lemma repeated_name_binds_first_witness :
  match sb_bind_name (Some sample_named) (Some ("a" : bytes)) (Some sample_blob) None None with
  | Returns (code, Some p') c err =>
      code = SB_OK ∧ wire_slots (pstmt p') 0 = Some (Some ("abc" : bytes)) ∧ wire_slots (pstmt p') 1 = None
  | _ => False
  end.
Proof.
  assert (Hr : match sb_bind_name (Some sample_named) (Some ("a" : bytes)) (Some sample_blob) None None with
    | Returns (code, Some p') c err => code = SB_OK ∧ wire_slots (pstmt p') 0 = Some (Some ("abc" : bytes))
    | _ => False end) by (vm_compute; split; reflexivity).
  revert Hr. destruct (sb_bind_name _ _ _ _ _) as [[code [p'|]] c err| |] eqn:E; [|intros []..].
  intros [Hc Hw]. split; [exact Hc|]. split; [exact Hw|].
  apply (repeated_name_binds_first sample_named "a" sample_blob None None code p' c err 0 1);
    [reflexivity|vm_compute; reflexivity|vm_compute; reflexivity|lia|exact E].
Defined.

(** ** Codes and null pointers *)

(** The functions that return a code. *)
Inductive int_call :=
  | ITxBegin (options : option sb_txn_options) | ITxCommit | ITxRollback
  | ITxPrepare (id : option bytes) | ITxCommitPrepared (id : option bytes) | ITxRollbackPrepared (id : option bytes)
  | ITxDetach | ITxReattach (id token : option bytes)
  | ISavepoint (name : option bytes) | IRelease (name : option bytes) | IRollbackTo (name : option bytes)
  | ICancel | ISetOption (name value : option bytes) | IPing
  | ISubscribe (type : byte) (channel filter : option bytes) | IUnsubscribe (channel : option bytes)
  | IUnlistenAll | INotify (channel payload : option bytes)
  | IRemoveListener (id : Z) | IStreamControl (type : byte) (window timeout : Z) | IResetTelemetry
  | IAttachCreate (mode db_name : option bytes) | IAttachDetach.

Definition run_int (fuel : nat) (t : readings) (call : int_call) : C sb_error_code :=
  match call with
  | ITxBegin options => sb_tx_begin_ex fuel options
  | ITxCommit => sb_tx_commit fuel
  | ITxRollback => sb_tx_rollback fuel
  | ITxPrepare id => sb_tx_prepare_transaction fuel t id
  | ITxCommitPrepared id => sb_tx_commit_prepared fuel t id
  | ITxRollbackPrepared id => sb_tx_rollback_prepared fuel t id
  | ITxDetach => sb_tx_detach_to_dormant
  | ITxReattach id token => sb_tx_reattach_dormant id token
  | ISavepoint name => sb_tx_savepoint fuel name
  | IRelease name => sb_tx_release_savepoint fuel name
  | IRollbackTo name => sb_tx_rollback_to fuel name
  | ICancel => sb_cancel
  | ISetOption name value => sb_set_option fuel name value
  | IPing => sb_ping fuel
  | ISubscribe type channel filter => sb_subscribe fuel type channel filter
  | IUnsubscribe channel => sb_unsubscribe fuel channel
  | IUnlistenAll => sb_unlisten_all fuel t
  | INotify channel payload => sb_notify_channel fuel t channel payload
  | IRemoveListener id => sb_remove_notification_listener id
  | IStreamControl type window timeout => sb_stream_control type window timeout
  | IResetTelemetry => sb_reset_telemetry
  | IAttachCreate mode db_name => sb_attach_create fuel mode db_name
  | IAttachDetach => sb_attach_detach fuel
  end.

(** The code that is returned is the one in the caller's structure. *)
Definition reports (m : C sb_error_code) : Prop := ∀ c e code c' err',
  m c (Some e) = Returns code c' err' → ∃ e', err' = Some e' ∧ Client.code e' = code.

Definition keeps_error {A} (m : C A) : Prop := ∀ c e a c' err', m c (Some e) = Returns a c' err' → is_Some err'.

Lemma reports_bind {A} (m : C A) k : keeps_error m → (∀ a, reports (k a)) → reports (m ≫= k).
Proof.
  intros Hm Hk c e code c' err' H. apply bind_inv in H as (a & c1 & e1 & H1 & H).
  destruct (Hm _ _ _ _ _ H1) as [e2 ->]. by apply Hk in H.
Qed.

Lemma error_kept_bind {A B} (m : C A) (k : A → C B) : keeps_error m → (∀ a, keeps_error (k a)) → keeps_error (m ≫= k).
Proof.
  intros Hm Hk c e b c' err' H. apply bind_inv in H as (a & c1 & e1 & H1 & H).
  destruct (Hm _ _ _ _ _ H1) as [e2 ->]. by apply Hk in H.
Qed.

Lemma reports_refuse code msg : reports (refuse code msg code).
Proof. intros c e code' c' err' H. injection H as <- <- <-. by eexists. Qed.

Lemma error_kept_mret {A} (a : A) : keeps_error (mret a).
Proof. intros c e a' c' err' H. injection H as <- <- <-. by eexists. Qed.

Lemma error_kept_set_error code msg : keeps_error (set_error code msg).
Proof. intros c e a c' err' H. injection H as <- <- <-. by eexists. Qed.

Lemma error_kept_refuse {A} code msg (a : A) : keeps_error (refuse code msg a).
Proof. apply error_kept_bind; [apply error_kept_set_error|intros; apply error_kept_mret]. Qed.

Lemma error_kept_null : keeps_error conn_null.
Proof. intros c e a c' err' H. injection H as <- <- <-. by eexists. Qed.

Lemma error_kept_look {A} (f : sb_connection → A) : keeps_error (look f).
Proof. intros [s|] e a c' err' H; [|done]. injection H as <- <- <-. by eexists. Qed.

Lemma error_kept_put f : keeps_error (put f).
Proof. intros [s|] e a c' err' H; [|done]. injection H as <- <- <-. by eexists. Qed.

Lemma error_kept_put_outcome f : keeps_error (put_outcome f).
Proof. intros [s|] e a c' err' H; [|done]. cbn [put_outcome] in H. destruct (f s); [|done]. injection H as <- <- <-. by eexists. Qed.

Lemma error_kept_drain : keeps_error drain_notifications.
Proof. intros [s|] e a c' err' H; injection H as <- <- <-; by eexists. Qed.

Lemma error_kept_request {A} (m : M A) : keeps_error (request m).
Proof.
  intros [s|] e a c' err' H; [|done]. unfold request in H. destruct (m (client s) _); [|done|done].
  injection H as <- <- <-. by eexists.
Qed.

#[local] Hint Resolve error_kept_mret error_kept_set_error error_kept_refuse error_kept_null error_kept_look error_kept_put error_kept_put_outcome error_kept_drain
  error_kept_request reports_refuse : reports.

(** Steps that keep the structure, cases aside. *)
Ltac keeps :=
  repeat match goal with
  | |- keeps_error (_ ≫= _) => apply error_kept_bind; [|intros]
  | |- keeps_error (if ?b then _ else _) => destruct b
  | |- keeps_error (match ?x with _ => _ end) => destruct x
  | |- reports (_ ≫= _) => apply reports_bind; [|intros]
  | |- reports (if ?b then _ else _) => destruct b
  | |- reports (match ?x with _ => _ end) => destruct x
  | |- _ => solve [auto with reports]
  end.

Lemma error_kept_operation t op sql m text : keeps_error (operation t op sql m text).
Proof. unfold operation, start_operation, end_operation. keeps. Qed.

Lemma error_kept_execute fuel t sql : keeps_error (sb_execute fuel t sql).
Proof. unfold sb_execute. keeps; apply error_kept_operation. Qed.

#[local] Hint Resolve error_kept_execute : reports.

Lemma reports_conclude r : reports (conclude r).
Proof.
  intros c e code c' err' H. unfold conclude in H. apply bind_inv in H as (? & c1 & e1 & H1 & H). injection H1 as <- <- <-.
  injection H as <- <- <-. eexists. split; [done|]. cbn. by destruct r.1.
Qed.

Lemma reports_error_or_unknown : reports error_or_unknown.
Proof. intros c e code c' err' H. injection H as <- <- <-. by eexists. Qed.

Lemma reports_drained r : reports (conclude_drained r).
Proof.
  intros c e code c' err' H. unfold conclude_drained in H. apply bind_inv in H as (? & c1 & e1 & H1 & H). injection H1 as <- <- <-.
  apply bind_inv in H as (? & c2 & e2 & H2 & H). injection H as <- <- <-.
  assert (e2 = Some (mkError (map_status r.1) (take 255 (c_str r.2)))) as ->.
  { case_bool_decide; [|by injection H2 as <- <- <-]. apply bind_inv in H2 as (? & c3 & e3 & H3 & H2). injection H2 as <- <- <-.
    by destruct c; injection H3 as <- <- <-. }
  eexists. split; [done|]. cbn. by destruct r.1.
Qed.

#[local] Hint Resolve reports_conclude reports_error_or_unknown reports_drained : reports.

Lemma run_int_reports fuel t call : reports (run_int fuel t call).
Proof.
  destruct call; cbn [run_int];
    unfold sb_tx_begin_ex, sb_tx_commit, sb_tx_rollback, sb_tx_prepare_transaction, sb_tx_commit_prepared, sb_tx_rollback_prepared,
      sb_tx_detach_to_dormant, sb_tx_reattach_dormant, sb_tx_savepoint, sb_tx_release_savepoint, sb_tx_rollback_to, sb_cancel,
      sb_set_option, sb_ping, sb_subscribe, sb_unsubscribe, sb_unlisten_all, sb_notify_channel, sb_remove_notification_listener,
      sb_stream_control, sb_reset_telemetry, sb_attach_create, sb_attach_detach, prepared_transaction, no_front_door, named_call,
      on_channel, executeTransactionControlSql, buildPreparedTransactionSql, status_call, with_handle; keeps.
Qed.

(** The code that a function of the API returns is the code that it leaves in
    the caller's [sb_error]; and on a null connection every one of them returns
    a code that says so, and touches nothing. *)
Theorem codes_reported fuel t call c e :
  (∀ code c' err', run_int fuel t call c (Some e) = Returns code c' err' →
     ∃ e', err' = Some e' ∧ Client.code e' = code) ∧
  ∃ code err', run_int fuel t call None (Some e) = Returns code None err' ∧
    code ∈ [SB_ERR_INVALID_HANDLE; SB_ERR_NULL_POINTER].
Proof.
  split; [intros *; apply run_int_reports|].
  destruct call as [| | |id|id|id| | |name|name|name| |name value| |ty chan flt|chan| |chan pl| | | |mode db| ];
    try destruct name, value; try destruct chan; try destruct mode, db;
    do 2 eexists; (split; [reflexivity|]); first [apply list_elem_of_here | apply list_elem_of_further, list_elem_of_here].
Qed.
