(* ===== verification/Connection.v ===== *)
(** * Connections

    Models [Connection] and [PreparedStatement] of [src/connection.cpp] over the
    network client: the public configuration, opening by text or by
    configuration, requests with the mirrored state, prepared transactions and
    metadata. Operations run in the monad [N] over the connection and the
    caller's error context; a null output pointer is left to the caller. *)

From S2P Require Import Prelude.
From S2P Require Import Sqlstate.
From S2P Require Import Identifiers.
From S2P Require Import ErrorContext.
From S2P Require Import Transport.
From S2P Require Import NetworkConfig.
From S2P Require Import DriverConfig.
From S2P Require Import NetworkClient.
From S2P Require Import NetworkParams.
From S2P Require Import Scram.
From S2P Require Import Handshake.
From S2P Require Import MetadataQueries.
From S2P Require Import ResultSet.

(** ** The public configuration *)

Record ConnectionConfig := mkConnectionConfig {
  cc_transport_mode : bytes;
  cc_host : bytes;
  cc_tcp_port : Z;
  cc_protocol : bytes;
  cc_front_door_mode : bytes;
  cc_database_name : bytes;
  cc_username : bytes;
  cc_password : bytes;
  cc_role : bytes;
  cc_current_schema : bytes;
  cc_application_name : bytes;
  cc_manager_auth_token : bytes;
  cc_manager_username : bytes;
  cc_manager_database : bytes;
  cc_manager_connection_profile : bytes;
  cc_manager_client_intent : bytes;
  cc_manager_client_flags : Z;
  cc_manager_auth_fast_path : bool;
  cc_connect_timeout_ms : Z;
  cc_read_timeout_ms : Z;
  cc_write_timeout_ms : Z;
  cc_copy_window_bytes : Z;
  cc_copy_chunk_bytes : Z;
  cc_ssl_mode : bytes;
  cc_ssl_cert : bytes;
  cc_ssl_key : bytes;
  cc_ssl_root_cert : bytes;
  cc_connect_client_flags : Z;
  cc_auth_method_id : bytes;
  cc_auth_method_payload : bytes;
  cc_auth_payload_json : bytes;
  cc_auth_payload_b64 : bytes;
  cc_auth_provider_profile : bytes;
  cc_auth_required_methods : list bytes;
  cc_auth_forbidden_methods : list bytes;
  cc_auth_require_channel_binding : bool;
  cc_workload_identity_token : bytes;
  cc_proxy_principal_assertion : bytes;
  cc_binary_transfer : bool;
  cc_enable_compression : bool;
  cc_query_timeout_ms : Z;
  cc_auto_commit : bool
}.

#[export] Instance ConnectionConfig_eta : Eta ConnectionConfig := λ c,
  mkConnectionConfig
    (cc_transport_mode c) (cc_host c) (cc_tcp_port c) (cc_protocol c) (cc_front_door_mode c)
    (cc_database_name c) (cc_username c) (cc_password c) (cc_role c) (cc_current_schema c)
    (cc_application_name c) (cc_manager_auth_token c) (cc_manager_username c) (cc_manager_database c)
    (cc_manager_connection_profile c) (cc_manager_client_intent c) (cc_manager_client_flags c)
    (cc_manager_auth_fast_path c) (cc_connect_timeout_ms c) (cc_read_timeout_ms c) (cc_write_timeout_ms c)
    (cc_copy_window_bytes c) (cc_copy_chunk_bytes c) (cc_ssl_mode c) (cc_ssl_cert c) (cc_ssl_key c)
    (cc_ssl_root_cert c) (cc_connect_client_flags c) (cc_auth_method_id c) (cc_auth_method_payload c)
    (cc_auth_payload_json c) (cc_auth_payload_b64 c) (cc_auth_provider_profile c) (cc_auth_required_methods c)
    (cc_auth_forbidden_methods c) (cc_auth_require_channel_binding c) (cc_workload_identity_token c)
    (cc_proxy_principal_assertion c) (cc_binary_transfer c) (cc_enable_compression c) (cc_query_timeout_ms c)
    (cc_auto_commit c).

(** [ConnectionConfig{}] *)
Definition default_connection_config : ConnectionConfig :=
  mkConnectionConfig "inet_listener" "127.0.0.1" 3092 "native" "direct" [] [] [] [] [] "scratchbird_driver"
    [] [] [] "native_v3" "native_v3" 0 true 5000 30000 30000 65536 16384 "require" [] [] [] 0x0100
    [] [] [] [] [] [] [] false [] [] true false 30000 true.

Definition ssl_mode_name (m : SSLMode) : bytes :=
  match m with
  | DISABLED => "disable"
  | ALLOW => "allow"
  | PREFER => "prefer"
  | VERIFY_CA => "verify-ca"
  | VERIFY_FULL => "verify-full"
  | REQUIRE => "require"
  end.

Definition populatePublicConfigFromNetwork (n : NetworkClientConfig) (config : ConnectionConfig) : ConnectionConfig :=
  mkConnectionConfig
    (transport_mode n) (host n) (port n) (protocol n) (front_door_mode n) (database n) (username n)
    (password n) (role n) (schema n) (application_name n) (manager_auth_token n) (manager_username n)
    (manager_database n) (manager_connection_profile n) (manager_client_intent n) (manager_client_flags n)
    (manager_auth_fast_path n) (connect_timeout_ms n) (read_timeout_ms n) (write_timeout_ms n)
    (copy_window_bytes n) (copy_chunk_bytes n) (ssl_mode_name (ssl_mode n)) (ssl_cert n) (ssl_key n)
    (ssl_root_cert n) (connect_client_flags n) (auth_method_id n) (auth_method_payload n)
    (auth_payload_json n) (auth_payload_b64 n) (auth_provider_profile n) (auth_required_methods n)
    (auth_forbidden_methods n) (auth_require_channel_binding n) (workload_identity_token n)
    (proxy_principal_assertion n) (binary_transfer n) (enable_compression n) (cc_query_timeout_ms config)
    (cc_auto_commit config).

(** [text.empty() ? fallback : text] *)
Definition or_text (text fallback : bytes) : bytes := if bool_decide (text = []) then fallback else text.

(** The assignments of [connect(const ConnectionConfig&)] to the defaults. *)
Definition network_config (getEnv : variables) (config : ConnectionConfig) : NetworkClientConfig :=
  let n := applyDriverDefaults getEnv default_config in
  mkConfig
    (or_text (cc_transport_mode config) "inet_listener") (or_text (cc_host config) "127.0.0.1")
    (cc_tcp_port config) (or_text (cc_protocol config) "native")
    (or_text (cc_front_door_mode config) "direct") (cc_database_name config) (cc_username config)
    (cc_password config) (cc_role config) (cc_current_schema config)
    (or_text (cc_application_name config) "scratchbird_driver") (cc_manager_auth_token config)
    (cc_manager_username config) (cc_manager_database config) (cc_manager_connection_profile config)
    (cc_manager_client_intent config) (cc_manager_client_flags config) (cc_manager_auth_fast_path config)
    (cc_connect_timeout_ms config) (cc_read_timeout_ms config) (cc_write_timeout_ms config)
    (cc_copy_window_bytes config) (cc_copy_chunk_bytes config) (parseSslMode (cc_ssl_mode config))
    (cc_ssl_cert config) (cc_ssl_key config) (cc_ssl_root_cert config) (cc_connect_client_flags config)
    (auth_method n) (cc_auth_method_id config) (cc_auth_method_payload config) (cc_auth_payload_json config)
    (cc_auth_payload_b64 config) (cc_auth_provider_profile config) (cc_auth_required_methods config)
    (cc_auth_forbidden_methods config) (cc_auth_require_channel_binding config)
    (cc_workload_identity_token config) (cc_proxy_principal_assertion config) (allow_password_fallback n)
    (cc_binary_transfer config) (cc_enable_compression config).

(** [parseConnectionConfig] without the null pointer. *)
Definition parseConnectionConfig (getEnv : variables) (conn_str : bytes) (config : ConnectionConfig) (message : bytes)
    : ConnectionConfig * Status * bytes :=
  let '(n, status, message) := parseDriverConnectionString getEnv conn_str default_config message in
  (if bool_decide (status = OK) then populatePublicConfigFromNetwork n config else config, status, message).

(** ** The connection *)

Inductive ConnectionState := DISCONNECTED_STATE | CONNECTING | CONNECTED | IN_TRANSACTION | ERROR_STATE.

#[export] Instance ConnectionState_eq_dec : EqDecision ConnectionState.
Proof. solve_decision. Defined.

Record ConnectionImpl := mkConnection {
  client : NetworkClient;
  config : ConnectionConfig;
  state : ConnectionState;
  in_transaction : bool;
  last_error : bytes
}.

#[export] Instance ConnectionImpl_eta : Eta ConnectionImpl :=
  λ i, mkConnection (client i) (config i) (state i) (in_transaction i) (last_error i).

(** [owner] tells whether the pointer to the connection is set. *)
Record PreparedStatement := mkPrepared { owner : bool; statement : NetworkPreparedStatement }.

#[export] Instance PreparedStatement_eta : Eta PreparedStatement := λ p, mkPrepared (owner p) (statement p).

Inductive run (A : Type) :=
  | Ends (a : A) (i : ConnectionImpl) (ctx : option ErrorContext)
  | Crashes
  | Exhausted.
Arguments Ends {A}.
Arguments Crashes {A}.
Arguments Exhausted {A}.

Definition N (A : Type) : Type := ConnectionImpl → option ErrorContext → run A.

#[export] Instance N_ret : MRet N := λ A a i ctx, Ends a i ctx.
#[export] Instance N_bind : MBind N := λ A B f m i ctx,
  match m i ctx with
  | Ends a i ctx => f a i ctx
  | Crashes => Crashes
  | Exhausted => Exhausted
  end.

(** A call of the client. *)
Definition on_client {A} (m : M A) : N A := λ i ctx,
  match m (client i) ctx with
  | Done a c ctx => Ends a (i <| client := c |>) ctx
  | Crash => Crashes
  | NoFuel => Exhausted
  end.

Definition change (f : ConnectionImpl → ConnectionImpl) : N unit := λ i ctx, Ends tt (f i) ctx.
Definition get_context : N (option ErrorContext) := λ i ctx, Ends ctx i ctx.
Definition write_context (f : option ErrorContext → option ErrorContext) : N unit := λ i ctx, Ends tt i (f ctx).

Definition set_last_error (text : bytes) : N unit := change (λ i, i <| last_error := text |>).

Definition markConnectedTransactionState (i : ConnectionImpl) : ConnectionImpl :=
  if negb (connected_ (client i)) then i <| in_transaction := false |> <| state := DISCONNECTED_STATE |>
  else
    let i := i <| in_transaction := in_transaction_ (client i) |> in
    i <| state := if in_transaction i then IN_TRANSACTION else CONNECTED |>.

Definition if_ok (status : Status) (m : N unit) : N unit := if bool_decide (status = OK) then m else mret tt.

(** ** Opening and closing *)

Definition looksLikeDriverConnectionString (value : bytes) : bool :=
  starts_with "scratchbird://" value || (bool_decide ("="%byte ∈ value) && bool_decide (";"%byte ∈ value)).

(** The end of both functions: open, and mark. *)
Definition open_client `{Crypto} (fuel : nat) (env : environment) (n : NetworkClientConfig) : N Status :=
  _ ← change (λ i, i <| state := CONNECTING |>);
  status ← on_client (connect fuel env n);
  _ ← set_last_error lastError;
  _ ← (if bool_decide (status = OK) then change markConnectedTransactionState
       else change (λ i, i <| in_transaction := false |> <| state := ERROR_STATE |>));
  mret status.

(** What the text is resolved to: the configuration or the refusal, and the
    message of the context. *)
Definition resolve_database (getEnv : variables) (database_text username_text password_text message : bytes)
    : (NetworkClientConfig + Status) * bytes :=
  let '(n, status, message) := parseDriverConnectionString getEnv database_text default_config message in
  if negb (bool_decide (status = OK)) && looksLikeDriverConnectionString database_text then (inr status, message)
  else
    let n :=
      if bool_decide (status = OK) then n
      else applyDriverDefaults getEnv n <| database := database_text |> in
    let n := if bool_decide (username_text = []) then n else n <| username := username_text |> in
    let n := if bool_decide (password_text = []) then n else n <| password := password_text |> in
    (inl n, message).

Definition message_of (ctx : option ErrorContext) : bytes := match ctx with Some c => c_message c | None => [] end.

Definition connect_text `{Crypto} (fuel : nat) (getEnv : variables) (env : environment)
    (database_text username_text password_text : bytes) : N Status :=
  ctx ← get_context;
  let '(resolved, message) := resolve_database getEnv database_text username_text password_text (message_of ctx) in
  _ ← write_context (λ ctx, put_message ctx (Some message));
  match resolved with
  | inr status =>
      ctx ← get_context;
      _ ← set_last_error (message_of ctx);
      _ ← change (λ i, i <| state := ERROR_STATE |>);
      mret status
  | inl n =>
      _ ← change (λ i, i <| config := populatePublicConfigFromNetwork n (config i) |>);
      open_client fuel env n
  end.

Definition connect_config `{Crypto} (fuel : nat) (getEnv : variables) (env : environment)
    (cfg : ConnectionConfig) : N Status :=
  _ ← change (λ i, i <| config := cfg |>);
  open_client fuel env (network_config getEnv cfg).

Definition disconnect (i : ConnectionImpl) : ConnectionImpl :=
  i <| client := NetworkClient.disconnect (client i) |> <| state := DISCONNECTED_STATE |> <| in_transaction := false |>.

Definition isConnected (i : ConnectionImpl) : bool := connected_ (client i).

(** ** Requests *)

(** A request of the client, the error text, and the mark on success. *)
Definition marked {A} (m : M (Status * A)) : N (Status * A) :=
  r ← on_client m;
  _ ← set_last_error lastError;
  _ ← if_ok r.1 (change markConnectedTransactionState);
  mret r.

Definition marked_status (m : M Status) : N Status :=
  '(status, _) ← marked (status ← m; mret (status, tt)); mret status.

Definition executeQuery (fuel : nat) (sql : bytes) : N (Status * ResultSet) :=
  '(status, shared) ← marked (NetworkClient.executeQuery fuel sql);
  mret (status, populateResultSet shared).

(** The number of rows is reported whatever the status. *)
Definition execute (fuel : nat) (sql : bytes) : N (Status * Z) :=
  '(status, shared) ← marked (NetworkClient.executeQuery fuel sql);
  mret (status, rows_affected shared).

Definition prepare (fuel : nat) (now : Z) (sql : bytes) : N (Status * PreparedStatement) :=
  '(status, stmt) ← marked (NetworkClient.prepare fuel now sql);
  mret (status, mkPrepared (bool_decide (status = OK)) stmt).

Definition beginTransaction (fuel : nat) : N Status :=
  marked_status (NetworkClient.beginTransaction fuel default_options).
Definition commit (fuel : nat) : N Status := marked_status (NetworkClient.commit fuel).
Definition rollback (fuel : nat) : N Status := marked_status (NetworkClient.rollback fuel).

(** Savepoints do not mark. *)
Definition unmarked (m : M Status) : N Status :=
  status ← on_client m; _ ← set_last_error lastError; mret status.

Definition savepoint (fuel : nat) (nm : bytes) : N Status := unmarked (NetworkClient.savepoint fuel nm).
Definition releaseSavepoint (fuel : nat) (nm : bytes) : N Status := unmarked (NetworkClient.releaseSavepoint fuel nm).
Definition rollbackTo (fuel : nat) (nm : bytes) : N Status := unmarked (NetworkClient.rollbackToSavepoint fuel nm).

(** ** Prepared statements *)

(** Every setter is the one of the client's statement. *)
Definition bind_value (index : nat) (v : value) (p : PreparedStatement) : outcome PreparedStatement :=
  s ← NetworkParams.set index v (statement p); Ret (p <| statement := s |>).

Definition clear_values (p : PreparedStatement) : PreparedStatement :=
  p <| statement := clearParameters (statement p) |>.

Definition isValid (p : PreparedStatement) : bool := owner p && valid_ (statement p).

Definition execute_prepared (fuel : nat) (p : PreparedStatement) : N (Status * option ResultSet) :=
  if negb (isValid p) then
    _ ← write_context (λ ctx, put_message ctx (Some ("prepared statement is not valid" : bytes)));
    mret (INVALID_ARGUMENT, None)
  else
    '(status, shared) ← marked (NetworkClient.executePrepared fuel (statement p));
    mret (status, Some (populateResultSet shared)).

(** [PreparedStatement::execute]: the rows affected. *)
Definition execute_prepared_rows (fuel : nat) (p : PreparedStatement) : N (Status * Z) :=
  '(status, r) ← execute_prepared fuel p;
  mret (status, if bool_decide (status = OK) then match r with Some r => getRowsAffected r | None => -1 end else 0).

(** ** Prepared transactions *)

Definition supportsPreparedTransactions : bool := true.
Definition supportsDormantReattach : bool := false.
Definition supportsPortalResume : bool := false.

Definition trimWhitespace (value : bytes) : bytes := trim value.

(** [quoteSqlLiteral] of this file doubles the quote as the one of [metadata.cpp] does. *)
Definition quote_literal (value : bytes) : bytes := quote_with squote value.

Definition buildPreparedTransactionSql (verb global_transaction_id : bytes) (ctx : option ErrorContext)
    : Status * bytes * option ErrorContext :=
  if bool_decide (verb = []) then
    (INVALID_ARGUMENT, [], set_context ctx INVALID_ARGUMENT "Prepared-transaction verb is required")
  else
    let gid := trimWhitespace global_transaction_id in
    if bool_decide (gid = []) then
      (SYNTAX_ERROR, [], setSQLState (set_context ctx SYNTAX_ERROR "Global transaction id is required") SQLSTATE_SYNTAX_ERROR)
    else (OK, verb ++ [" "%byte] ++ quote_literal gid, ctx).

Definition prepared_transaction (fuel : nat) (verb global_transaction_id : bytes) : N Status :=
  ctx ← get_context;
  let '(status, sql, ctx) := buildPreparedTransactionSql verb global_transaction_id ctx in
  _ ← write_context (λ _, ctx);
  if bool_decide (status = OK) then '(status, _) ← execute fuel sql; mret status
  else
    _ ← set_last_error (match ctx with Some c => c_message c | None => ("Global transaction id is required" : bytes) end);
    mret status.

Definition prepareTransaction (fuel : nat) := prepared_transaction fuel "PREPARE TRANSACTION".
Definition commitPrepared (fuel : nat) := prepared_transaction fuel "COMMIT PREPARED".
Definition rollbackPrepared (fuel : nat) := prepared_transaction fuel "ROLLBACK PREPARED".

Definition setFeatureNotSupported (ctx : option ErrorContext) (message : bytes) : option ErrorContext :=
  setSQLState (set_context ctx NOT_IMPLEMENTED message) SQLSTATE_FEATURE_NOT_SUPPORTED.

(** [detachToDormant] and [reattachDormant] *)
Definition dormant : N Status :=
  let message := ("dormant detach/reattach is not exposed by the public C/C++ front door" : bytes) in
  _ ← write_context (λ ctx, setFeatureNotSupported ctx message);
  _ ← set_last_error message;
  mret NOT_IMPLEMENTED.

(** ** Metadata *)

Definition metadataQuery (fuel : nat) (collection_name : bytes) : N (Status * option ResultSet) :=
  match resolveMetadataCollectionQuery collection_name with
  | None =>
      let message := metadataCollectionNotSupportedMessage collection_name in
      _ ← write_context (λ ctx, put_message ctx (Some message));
      _ ← set_last_error message;
      mret (NOT_SUPPORTED, None)
  | Some (query_sql, _) =>
      '(status, r) ← executeQuery fuel query_sql; mret (status, Some r)
  end.

(** [pattern.empty() ? nullptr : &pattern] *)
Definition pattern_pointer (pattern : bytes) : option bytes := if bool_decide (pattern = []) then None else Some pattern.

Definition schemas (fuel : nat) (schema_pattern : bytes) : N (Status * ResultSet) :=
  executeQuery fuel (buildMetadataSchemasQuerySql (pattern_pointer schema_pattern)).
Definition tables (fuel : nat) (schema_pattern table_pattern : bytes) : N (Status * ResultSet) :=
  executeQuery fuel (buildMetadataTablesQuerySql (pattern_pointer schema_pattern) (pattern_pointer table_pattern)).
Definition columns (fuel : nat) (schema_pattern table_pattern : bytes) : N (Status * ResultSet) :=
  executeQuery fuel (buildMetadataColumnsQuerySql (pattern_pointer schema_pattern) (pattern_pointer table_pattern)).
Definition indexes (fuel : nat) (schema_pattern table_pattern : bytes) : N (Status * ResultSet) :=
  executeQuery fuel (buildMetadataIndexesQuerySql (pattern_pointer schema_pattern) (pattern_pointer table_pattern)).

(** An error of this layer. *)
Definition refuse_with (status : Status) (message : bytes) : N (Status * bytes) :=
  _ ← write_context (λ ctx, put_message ctx (Some message));
  _ ← set_last_error message;
  mret (status, []).

(** The names of the result set, and the payload built from them. *)
Definition schema_payload (dump : ddl_payload → bytes) (fuel : nat) (schema_pattern : option bytes)
    (expand_schema_parents : bool) (i : nat) (schemas_result : ResultSet) : N (Status * bytes) := λ conn ctx,
  match collect fuel i schemas_result [] with
  | UB => Crashes
  | Ret None => Exhausted
  | Ret (Some schema_names) =>
      match buildMetadataDdlEditorSchemaPayloadJson dump fuel schema_names schema_pattern expand_schema_parents with
      | Some payload_json => Ends (OK, payload_json) conn ctx
      | None => Exhausted
      end
  end.

(** [fuel] bounds the message loop, the rows and the depth of the tree. *)
Definition metadataSchemaPayload (dump : ddl_payload → bytes) (fuel : nat) (schema_pattern : option bytes)
    (expand_schema_parents : bool) : N (Status * bytes) :=
  '(status, schemas_result) ← schemas fuel [];
  if bool_decide (status ≠ OK) then mret (status, []) else
  match lookupColumnIndex (ResultSet.columns schemas_result) "schema_name" with
  | None => refuse_with PROTOCOL_VIOLATION "schemas metadata result is missing schema-name column"
  | Some i => schema_payload dump fuel schema_pattern expand_schema_parents i schemas_result
  end.

(** ** Settings *)

Definition setAutoCommit (enabled : bool) (i : ConnectionImpl) : ConnectionImpl :=
  i <| config := config i <| cc_auto_commit := enabled |> |>.
Definition getAutoCommit (i : ConnectionImpl) : bool := cc_auto_commit (config i).
