(* ===== verification/ConnectionSpec.v ===== *)
(** * What a connection guarantees

    Theorems on [Connection]: a query end to end, the mirrored transaction state
    on success and on failure, the database name, the copy of the
    configuration, and the SQL of prepared transactions. *)

From S2P Require Import Prelude.
From S2P Require Import Sqlstate.
From S2P Require Import Identifiers.
From S2P Require Import Wire.
From S2P Require Import WireBuild.
From S2P Require Import WireParse.
From S2P Require Import ErrorContext.
From S2P Require Import Transport.
From S2P Require Import NetworkConfig.
From S2P Require Import DriverConfig.
From S2P Require Import NetworkClient.
From S2P Require Import NetworkInvariant.
From S2P Require Import NetworkClientSpec.
From S2P Require Import Values.
From S2P Require Import ResultSet.
From S2P Require Import Connection.

(** ** Requests *)

(** The connection after a request that succeeded, and after one that failed. *)
Definition succeeded (c : NetworkClient) (i : ConnectionImpl) : ConnectionImpl :=
  markConnectedTransactionState (mkConnection c (config i) (state i) (in_transaction i) []).

Definition failed (c : NetworkClient) (i : ConnectionImpl) : ConnectionImpl :=
  mkConnection c (config i) (state i) (in_transaction i) [].

Definition after_status (status : Status) : NetworkClient → ConnectionImpl → ConnectionImpl :=
  if bool_decide (status = OK) then succeeded else failed.

Lemma marked_done {A} (m : M (Status * A)) i ctx status a c ctx' :
  m (client i) ctx = Done (status, a) c ctx' →
  marked m i ctx = Ends (status, a) (after_status status c i) ctx'.
Proof.
  intros E. unfold marked, on_client, mbind, N_bind. rewrite E. unfold after_status, if_ok.
  cbn [fst]. destruct (bool_decide (status = OK)); reflexivity.
Qed.

Lemma executeQuery_done fuel sql i ctx status r c ctx' :
  NetworkClient.executeQuery fuel sql (client i) ctx = Done (status, r) c ctx' →
  executeQuery fuel sql i ctx = Ends (status, populateResultSet r) (after_status status c i) ctx'.
Proof. intros E. unfold executeQuery, mbind, N_bind. by rewrite (marked_done _ _ _ _ _ _ _ E). Qed.

(** The client's view of the transaction is the connection's. *)
Definition mirrors (i : ConnectionImpl) : Prop :=
  in_transaction i = connected_ (client i) && in_transaction_ (client i) ∧
  state i = if connected_ (client i)
            then if in_transaction_ (client i) then IN_TRANSACTION else CONNECTED else DISCONNECTED_STATE.

Lemma mark_mirrors i : mirrors (markConnectedTransactionState i).
Proof.
  destruct i as [c cfg st tx le]. unfold mirrors, markConnectedTransactionState. cbn [client].
  destruct (connected_ c) eqn:E; cbn; rewrite E; [|done]. by destruct (in_transaction_ c).
Qed.

(** C4: a query on a connection returns a result set over exactly the rows of
    the server's reply; the loop over [next] reads each row once, in order; the
    connection then shows the transaction state that the reply ended with, and
    the stream is left at the next reply. *)
Theorem query_end_to_end fuel sql ms r i ctx rest column :
  wf_session (client i) → 13 + blen sql <= kMaxMessageSize →
  wf_messages [] ms → wf_ready r → (length ms < fuel)%nat →
  stream (incoming (wire (client i))) (encode_messages ms ++ encode_ready_message r ++ rest) →
  let shared := reply_results ms no_results in
  let rs := populateResultSet shared in
  ∃ i', executeQuery fuel sql i ctx = Ends (OK, rs) i' ctx ∧ mirrors i' ∧
    in_transaction_ (client i') = negb (bool_decide (r_status r = Byte.x00)) ∧
    stream (incoming (wire (client i'))) rest ∧
    ∀ n, (length (rows shared) < n)%nat →
      collect n column rs [] = (texts ← mapM (row_text rs column) (rows shared); Ret (Some texts)).
Proof.
  intros Hc Hlen Hms Hr Hfuel Hs. cbv zeta.
  destruct (execute_query_done fuel sql ms r (client i) ctx rest Hc Hlen Hms Hr Hfuel Hs) as (inc & Hrest & E).
  rewrite (executeQuery_done _ _ _ _ _ _ _ _ E). eexists. split; [done|].
  unfold after_status. rewrite bool_decide_eq_true_2 by done. split; [apply mark_mirrors|].
  set (c' := after_reply _ _ _ _ _).
  assert (Hclient : client (succeeded c' i) = c').
  { unfold succeeded, markConnectedTransactionState. cbn [client]. by destruct (connected_ c'). }
  rewrite Hclient. split_and!; [done|done|].
  intros n Hn. apply (collect_rows n column (reply_results ms no_results) _ 0 []); lia.
Qed.

(** ** The mirrored state *)

(** What a request promises of the state: the mirror on success; on failure it
    is left as it was. *)
Definition state_after (i : ConnectionImpl) (status : Status) (i' : ConnectionImpl) : Prop :=
  (status = OK → mirrors i') ∧ (status ≠ OK → state i' = state i ∧ in_transaction i' = in_transaction i) ∧
  config i' = config i.

Lemma after_status_state status c i : state_after i status (after_status status c i).
Proof.
  unfold after_status, state_after. case_bool_decide.
  - split_and!; [intros _; apply mark_mirrors|done|]. unfold succeeded, markConnectedTransactionState. by case_match.
  - by split_and!.
Qed.

(** A computation of [N] that ends so. *)
Definition keeps_state {A} (status_of : A → Status) (m : N A) : Prop := ∀ i ctx a i' ctx',
  m i ctx = Ends a i' ctx' → state_after i (status_of a) i'.

Lemma marked_keeps {A} (m : M (Status * A)) : keeps_state fst (marked m).
Proof.
  intros i ctx [status a] i' ctx' E. destruct (m (client i) ctx) as [[st b] c ctx1| |] eqn:Em.
  - rewrite (marked_done _ _ _ _ _ _ _ Em) in E. injection E as -> _ <- _. apply after_status_state.
  - unfold marked, on_client, mbind, N_bind in E. by rewrite Em in E.
  - unfold marked, on_client, mbind, N_bind in E. by rewrite Em in E.
Qed.

Lemma keeps_then {A B} (m : N A) (f : A → B) status_of status_of' :
  keeps_state status_of m → (∀ a, status_of' (f a) = status_of a) → keeps_state status_of' (a ← m; mret (f a)).
Proof.
  intros Hm Hf i ctx b i' ctx' E. unfold mbind, N_bind in E. destruct (m i ctx) as [a i1 ctx1| |] eqn:Em; [|done..].
  injection E as <- <- <-. rewrite Hf. by apply (Hm _ _ _ _ _ Em).
Qed.

Lemma keeps_ext {A} status_of (m m' : N A) :
  (∀ i ctx, m i ctx = m' i ctx) → keeps_state status_of m' → keeps_state status_of m.
Proof. intros E H i ctx a i' ctx' Em. rewrite E in Em. by apply (H i ctx a i' ctx'). Qed.

Lemma executeQuery_keeps fuel sql : keeps_state fst (executeQuery fuel sql).
Proof.
  apply (keeps_ext _ _ (r ← marked (NetworkClient.executeQuery fuel sql); mret (r.1, populateResultSet r.2))).
  - intros i ctx. unfold executeQuery, mbind, N_bind. destruct (marked _ i ctx) as [[]| |]; reflexivity.
  - apply (keeps_then _ _ fst); [apply marked_keeps|done].
Qed.

Lemma execute_keeps fuel sql : keeps_state fst (execute fuel sql).
Proof.
  apply (keeps_ext _ _ (r ← marked (NetworkClient.executeQuery fuel sql); mret (r.1, rows_affected r.2))).
  - intros i ctx. unfold execute, mbind, N_bind. destruct (marked _ i ctx) as [[]| |]; reflexivity.
  - apply (keeps_then _ _ fst); [apply marked_keeps|done].
Qed.

Lemma prepare_keeps fuel now sql : keeps_state fst (prepare fuel now sql).
Proof.
  apply (keeps_ext _ _ (r ← marked (NetworkClient.prepare fuel now sql);
    mret (r.1, mkPrepared (bool_decide (r.1 = OK)) r.2))).
  - intros i ctx. unfold prepare, mbind, N_bind. destruct (marked _ i ctx) as [[]| |]; reflexivity.
  - apply (keeps_then _ _ fst); [apply marked_keeps|done].
Qed.

Lemma marked_status_keeps m : keeps_state id (marked_status m).
Proof.
  apply (keeps_ext _ _ (r ← marked (status ← m; mret (status, tt)); mret r.1)).
  - intros i ctx. unfold marked_status. unfold mbind at 1 3, N_bind. destruct (marked _ i ctx) as [[]| |]; reflexivity.
  - apply (keeps_then _ _ fst); [apply marked_keeps|done].
Qed.

(** An error of this layer writes the error text only. *)
Lemma refusal_state status text i : status ≠ OK → state_after i status (i <| last_error := text |>).
Proof. by intros ?; split_and!. Qed.

Lemma prepared_transaction_keeps fuel verb gid : keeps_state id (prepared_transaction fuel verb gid).
Proof.
  intros i ctx status i' ctx'. unfold prepared_transaction, get_context, write_context, set_last_error, change, mbind, N_bind.
  destruct (buildPreparedTransactionSql verb gid ctx) as [[st sql] ctx1]. case_bool_decide as Hst.
  - destruct (execute fuel sql i ctx1) as [[st2 n] i2 ctx2| |] eqn:E; [|done..]. intros [= <- <- <-].
    apply (execute_keeps _ _ _ _ _ _ _ E).
  - intros [= <- <- <-]. by apply refusal_state.
Qed.

Lemma execute_prepared_keeps fuel p : keeps_state fst (execute_prepared fuel p).
Proof.
  intros i ctx [status r] i' ctx'. unfold execute_prepared. destruct (negb (isValid p)).
  - intros [= <- _ <- _]. split_and!; done.
  - intros E. unfold mbind, N_bind in E.
    destruct (marked (NetworkClient.executePrepared fuel (statement p)) i ctx) as [[st sh] i2 ctx2| |] eqn:Em; [|done..].
    injection E as <- <- <- <-. apply (marked_keeps _ _ _ _ _ _ Em).
Qed.

(** The requests that report the transaction state. *)
Inductive operation :=
  | RExecuteQuery (sql : bytes) | RExecute (sql : bytes) | RPrepare (now : Z) (sql : bytes) | RBegin | RCommit
  | RRollback | RPrepared (verb gid : bytes) | RExecutePrepared (p : PreparedStatement) | RMetadata (collection : bytes).

Definition run_request (fuel : nat) (r : operation) : N Status :=
  match r with
  | RExecuteQuery sql => r ← executeQuery fuel sql; mret r.1
  | RExecute sql => r ← execute fuel sql; mret r.1
  | RPrepare now sql => r ← prepare fuel now sql; mret r.1
  | RBegin => beginTransaction fuel
  | RCommit => commit fuel
  | RRollback => rollback fuel
  | RPrepared verb gid => prepared_transaction fuel verb gid
  | RExecutePrepared p => r ← execute_prepared fuel p; mret r.1
  | RMetadata collection => r ← metadataQuery fuel collection; mret r.1
  end.

Lemma metadataQuery_keeps fuel collection : keeps_state fst (metadataQuery fuel collection).
Proof.
  intros i ctx [status r] i' ctx'. unfold metadataQuery. destruct (MetadataQueries.resolveMetadataCollectionQuery collection) as [[q n]|].
  - intros E. unfold mbind, N_bind in E. destruct (executeQuery fuel q i ctx) as [[st rs] i2 ctx2| |] eqn:Em; [|done..].
    injection E as <- <- <- <-. apply (executeQuery_keeps _ _ _ _ _ _ _ Em).
  - intros [= <- _ <- _]. by apply refusal_state.
Qed.


(** A connection over a session. *)
Definition connection_over (c : NetworkClient) (st : ConnectionState) (tx : bool) : ConnectionImpl :=
  mkConnection (c <| connected_ := true |> <| in_transaction_ := tx |>) default_connection_config st tx [].

Definition sample_text : bytes := encode_messages sample_reply ++ encode_ready_message sample_ready ++ "next".

Lemma query_end_to_end_witness :
  ∃ i' rs, executeQuery 10 "SELECT n" (connection_over (sample_session sample_text) CONNECTED false) None =
      Ends (OK, rs) i' None ∧ in_transaction_ (client i') = true ∧
      collect 3 0 rs [] = Ret (Some ["0" : bytes; [] : bytes]).
Proof.
  assert (Hlen : (50 < length sample_text)%nat) by by_evaluation.
  assert (Hms : wf_messages [] sample_reply) by by_evaluation.
  assert (Hr : wf_ready sample_ready) by by_evaluation.
  destruct (query_end_to_end 10 "SELECT n" sample_reply sample_ready
    (connection_over (sample_session sample_text) CONNECTED false) None "next" 0)
    as (i' & E & _ & Htx & _ & Hrows).
  - repeat split; done.
  - by_evaluation.
  - exact Hms.
  - exact Hr.
  - by_evaluation.
  - by apply sample_stream.
  - exists i'. eexists. split; [exact E|]. split; [rewrite Htx; reflexivity|].
    rewrite Hrows; [|by_evaluation]. vm_compute. reflexivity.
Defined.


(** ** Failing statements *)

(** When a statement fails, the session learns from the reply whether a
    transaction is still open, and the connection does not: its state and its
    transaction flag stay as they were, whatever the server says. *)
Theorem failed_query_keeps_stale_state fuel sql ms h fs ts r i ctx rest :
  wf_session (client i) → 13 + blen sql <= kMaxMessageSize →
  wf_messages [] ms → wf_error h fs → Forall wf_trailing ts → wf_ready r →
  (length ms + length ts + 1 < fuel)%nat →
  stream (incoming (wire (client i)))
    (encode_messages ms ++ encode_error_message h fs ++ encode_messages ts ++ encode_ready_message r ++ rest) →
  ∃ i' status rs ctx', executeQuery fuel sql i ctx = Ends (status, rs) i' ctx' ∧ status ≠ OK ∧
    in_transaction_ (client i') = negb (bool_decide (r_status r = Byte.x00)) ∧
    in_transaction i' = in_transaction i ∧ state i' = state i.
Proof.
  intros Hc Hlen Hms He Hts Hr Hfuel Hs.
  destruct (execute_query_error fuel sql ms h fs ts r (client i) ctx rest Hc Hlen Hms He Hts Hr Hfuel Hs) as (inc & _ & E).
  rewrite (executeQuery_done _ _ _ _ _ _ _ _ E). eexists _, _, _, _. split; [done|].
  unfold after_status. rewrite bool_decide_eq_false_2 by apply mapped_status_error. split; [apply mapped_status_error|].
  by split_and!.
Qed.

(** The server has rolled the transaction back; the connection still shows one. *)
Definition idle_ready : ready := mkReady (sample_header (tag MessageType.Ready)) Byte.x00 0 1.

Lemma failed_query_keeps_stale_state_witness :
  let bs := encode_error_message sample_error_header sample_fields ++ encode_ready_message idle_ready ++ "next" in
  ∃ i' status rs ctx', executeQuery 10 "x" (connection_over (sample_session bs) IN_TRANSACTION true) None =
      Ends (status, rs) i' ctx' ∧ in_transaction_ (client i') = false ∧ in_transaction i' = true ∧ state i' = IN_TRANSACTION.
Proof.
  intros bs.
  assert (Hlen : (50 < length bs)%nat) by by_evaluation.
  assert (He : wf_error sample_error_header sample_fields) by by_evaluation.
  assert (Hr : wf_ready idle_ready) by by_evaluation.
  destruct (failed_query_keeps_stale_state 10 "x" [] sample_error_header sample_fields [] idle_ready
    (connection_over (sample_session bs) IN_TRANSACTION true) None "next")
    as (i' & status & rs & ctx' & E & _ & H1 & H2 & H3).
  - repeat split; done.
  - by_evaluation.
  - by_evaluation.
  - exact He.
  - constructor.
  - exact Hr.
  - by_evaluation.
  - by apply sample_stream.
  - exists i', status, rs, ctx'. split; [exact E|]. split; [rewrite H1; reflexivity|]. split; [exact H2|exact H3].
Defined.

(** ** The database name *)

(** A name that is neither a URL nor a list of settings. *)
Definition plain_name (nm : bytes) : Prop := "="%byte ∉ nm ∧ starts_with kPrefix (trim nm) = false.

Lemma no_entry token : "="%byte ∉ token → key_value_entry token = None.
Proof.
  intros H. unfold key_value_entry, cut_at. rewrite find_byte_free; [done|]. intros Hin. apply H. by apply trim_with_elem in Hin.
Qed.

Lemma no_entries tokens m :
  Forall (λ t, "="%byte ∉ t) tokens → foldl put_entry m (key_value_entry <$> tokens) = m.
Proof. intros H. induction H as [|t tokens Ht _ IH]; [done|]. cbn [fmap list_fmap foldl]. by rewrite no_entry. Qed.

Lemma getline_tokens_elem c s t x : t ∈ getline_tokens c s → x ∈ t → x ∈ s.
Proof.
  unfold getline_tokens. intros Ht Hx. assert (Hin : t ∈ split_on c s).
  { case_bool_decide; [|done]. destruct (split_on c s) as [|a l] using rev_ind; [done|].
    rewrite removelast_last in Ht. apply elem_of_app. by left. }
  by apply (split_on_subset c s t).
Qed.

Lemma plain_name_parse nm c message :
  plain_name nm → parse_connection_text (trim nm) c message = (check_overlap c, ("Empty connection string" : bytes)).
Proof.
  intros [He Hp]. unfold parse_connection_text, parseKeyValueConnectionString. rewrite Hp, no_entries.
  - unfold applyConnectionParams. done.
  - apply Forall_forall. intros t Ht Hin. apply He. apply (trim_with_elem _ _ _ (getline_tokens_elem _ _ _ _ Ht Hin)).
Qed.

Lemma plain_name_config getEnv nm message :
  plain_name nm →
  let d := applyDriverDefaults getEnv default_config in
  hasOverlappingMethods (auth_required_methods d) (auth_forbidden_methods d) = None →
  parseDriverConnectionString getEnv nm default_config message = (d, OK, ("Empty connection string" : bytes)).
Proof.
  intros Hn d Ho. unfold parseDriverConnectionString. rewrite plain_name_parse by done.
  change (check_overlap default_config) with (ok default_config). cbn [and_then ok].
  fold d. generalize dependent d. intros d Ho. unfold check_overlap. by rewrite Ho.
Qed.

(** A database given to [connect] by its plain name is ignored: the text is
    taken for an empty list of settings, so the branch that stores it as the
    database is not reached. Every plain name gives the same configuration,
    whose database is empty unless the environment names one. *)
Theorem plain_database_name_ignored getEnv nm user pass message :
  plain_name nm →
  let d := applyDriverDefaults getEnv default_config in
  hasOverlappingMethods (auth_required_methods d) (auth_forbidden_methods d) = None →
  (∃ n, resolve_database getEnv nm user pass message = (inl n, ("Empty connection string" : bytes)) ∧
        database n = database d) ∧
  (∀ nm', plain_name nm' → resolve_database getEnv nm' user pass message = resolve_database getEnv nm user pass message) ∧
  database (applyDriverDefaults (λ _, None) default_config) = [].
Proof.
  intros Hn d Ho.
  assert (E : ∀ x, plain_name x → resolve_database getEnv x user pass message =
    (inl (let n := if bool_decide (user = []) then d else d <| username := user |> in
          if bool_decide (pass = []) then n else n <| password := pass |>), ("Empty connection string" : bytes))).
  { intros x Hx. unfold resolve_database. rewrite (plain_name_config getEnv x message Hx Ho). fold d.
    generalize d. intros d'. by rewrite bool_decide_eq_true_2. }
  split_and!.
  - eexists. split; [by apply E|]. generalize d. intros d'. by repeat case_bool_decide.
  - intros nm' Hn'. by rewrite !E.
  - vm_compute. reflexivity.
Qed.

Lemma plain_database_name_ignored_witness :
  ∃ n, resolve_database (λ _, None) "main" "ann" "pw" [] = (inl n, ("Empty connection string" : bytes)) ∧ database n = [].
Proof.
  destruct (plain_database_name_ignored (λ _, None) "main" "ann" "pw" []) as ((n & E & Hd) & _ & H0).
  - split; by_evaluation.
  - vm_compute. reflexivity.
  - exists n. split; [exact E|]. rewrite Hd. exact H0.
Defined.

(** ** The copied configuration *)

Lemma ssl_mode_roundtrip m : parseSslMode (ssl_mode_name m) = m.
Proof. by destruct m. Qed.

Lemma or_text_same x y : x ≠ [] → or_text x y = x.
Proof. intros. unfold or_text. by rewrite bool_decide_eq_false_2. Qed.

(** Copying a configuration to its public form and back, as opening with the
    result of [parseConnectionConfig] does, keeps every setting except the
    authentication method and the fallback to a password: these two come from
    the environment again. *)
Theorem config_copy_roundtrip getEnv n cfg :
  transport_mode n ≠ [] → host n ≠ [] → protocol n ≠ [] → front_door_mode n ≠ [] → application_name n ≠ [] →
  let d := applyDriverDefaults getEnv default_config in
  network_config getEnv (populatePublicConfigFromNetwork n cfg) =
    n <| auth_method := auth_method d |> <| allow_password_fallback := allow_password_fallback d |>.
Proof.
  intros H1 H2 H3 H4 H5 d. unfold network_config. fold d. generalize d. clear d. intros d.
  destruct n. cbn in H1, H2, H3, H4, H5 |- *. by rewrite !or_text_same, ssl_mode_roundtrip by done.
Qed.

Lemma config_copy_roundtrip_witness :
  auth_method (network_config (λ _, None)
    (populatePublicConfigFromNetwork (default_config <| auth_method := AuthMethod_Password |>) default_connection_config)) =
  AuthMethod_ScramSha256.
Proof. rewrite config_copy_roundtrip by done. vm_compute. reflexivity. Defined.

(** ** Prepared transactions *)

(** Whatever the transaction identifier holds, the SQL of a prepared
    transaction is the verb and one literal that reads back as the trimmed
    identifier; a blank one is refused. *)
Theorem prepared_transaction_sql verb gid ctx :
  verb ≠ [] →
  if decide (trimWhitespace gid = []) then
    ∃ ctx', buildPreparedTransactionSql verb gid ctx = (SYNTAX_ERROR, [], ctx')
  else
    ∃ literal, buildPreparedTransactionSql verb gid ctx = (OK, verb ++ [" "%byte] ++ literal, ctx) ∧
      read_quoted squote literal = Some (trimWhitespace gid, []).
Proof.
  intros Hv. unfold buildPreparedTransactionSql. rewrite bool_decide_eq_false_2 by done.
  destruct (decide (trimWhitespace gid = [])).
  - rewrite bool_decide_eq_true_2 by done. by eexists.
  - rewrite bool_decide_eq_false_2 by done. exists (quote_literal (trimWhitespace gid)). split; [done|].
    unfold quote_literal. rewrite <-(app_nil_r (quote_with _ _)). by apply read_quote_with.
Qed.

Lemma prepared_transaction_sql_witness :
  buildPreparedTransactionSql "PREPARE TRANSACTION" " a'b " None = (OK, "PREPARE TRANSACTION 'a''b'" : bytes, None).
Proof.
  pose proof (prepared_transaction_sql "PREPARE TRANSACTION" " a'b " None ltac:(done)) as H.
  vm_compute in H. destruct H as (l & E & _). vm_compute. reflexivity.
Defined.

(** ** Before connecting *)

Lemma bind_crash {A B} (m : M A) (f : A → M B) c ctx : m c ctx = Crash → (m ≫= f) c ctx = Crash.
Proof. intros E. unfold mbind, M_bind. by rewrite E. Qed.

Lemma unconnected_send t p c ctx : live c = false → send t p c ctx = Crash.
Proof. intros H. unfold send, mbind, M_bind, sendMessage. by rewrite H. Qed.

Lemma unconnected_start t p c ctx : live c = false → start_query t p c ctx = Crash.
Proof. intros H. unfold start_query, mbind, M_bind, sendMessage. by rewrite H. Qed.

Lemma unconnected_request fuel t p c ctx : live c = false → NetworkClient.request fuel t (Ret p) c ctx = Crash.
Proof. intros H. by apply (bind_crash (send t p)), unconnected_send. Qed.

(** No request checks that the connection is open: on one that was never
    opened, or was closed, the first write goes through a null pointer. *)
Theorem requests_need_connection fuel sql now i ctx :
  live (client i) = false →
  (executeQuery fuel sql i ctx = Crashes ∧ execute fuel sql i ctx = Crashes ∧ prepare fuel now sql i ctx = Crashes ∧
   commit fuel i ctx = Crashes ∧ rollback fuel i ctx = Crashes) ∧
  live new_client = false ∧ ∀ i', live (client (disconnect i')) = false.
Proof.
  intros H. split; [|split; [done|]].
  2: { intros i'. unfold live. cbn [client disconnect]. change (tls_active _) with (tls_active (wire (client i'))).
       by destruct (tls_active (wire (client i'))). }
  assert (Hq : NetworkClient.executeQuery fuel sql (client i) ctx = Crash).
  { unfold NetworkClient.executeQuery, lift. rewrite query_layout.
    rewrite (bind_done _ _ _ _ _ (client i) ctx eq_refl). by apply bind_crash, unconnected_start. }
  assert (Hm : ∀ A (m : M (Status * A)), m (client i) ctx = Crash → marked m i ctx = Crashes).
  { intros A m E. unfold marked, on_client, mbind, N_bind. by rewrite E. }
  assert (Hp : NetworkClient.prepare fuel now sql (client i) ctx = Crash).
  { unfold NetworkClient.prepare, lift. cbn zeta. rewrite parse_layout.
    rewrite (bind_done _ _ _ _ _ (client i) ctx eq_refl). by apply bind_crash, unconnected_send. }
  assert (Hr : ∀ t p, marked_status (NetworkClient.request fuel t (Ret p)) i ctx = Crashes).
  { intros t p. unfold marked_status. unfold mbind at 1, N_bind. rewrite Hm; [done|].
    by apply bind_crash, unconnected_request. }
  split_and!.
  - unfold executeQuery, mbind, N_bind. by rewrite Hm.
  - unfold execute, mbind, N_bind. by rewrite Hm.
  - unfold prepare, mbind, N_bind. by rewrite Hm.
  - apply Hr.
  - apply Hr.
Qed.

Lemma requests_need_connection_witness :
  executeQuery 5 "SELECT 1" (mkConnection new_client default_connection_config DISCONNECTED_STATE false []) None = Crashes.
Proof.
  apply (requests_need_connection 5 "SELECT 1" 0
    (mkConnection new_client default_connection_config DISCONNECTED_STATE false []) None). reflexivity.
Defined.
