(* ===== verification/OdbcText.v ===== *)
(** * ODBC driver: the SQL text it sends

    Models the text functions of [src/tracks/p3/drivers/odbc/src/odbc_handles.cpp]
    (the ODBC driver, which is built on the C++ driver): quoting, splitting a
    text into statements, compacting it, putting parameters in the place of the
    markers, and reading names. The specification reads SQL text as plain bytes
    and quoted texts ([lex]). *)

From S2P Require Import Prelude.
From S2P Require Import Text.
From S2P Require Import Identifiers.

(** ** Letters and blanks *)

Definition is_trim_blank (b : byte) : bool :=
  let v := byte_val b in (v =? 32) || (v =? 9) || (v =? 13) || (v =? 10).

Definition trimString (value : bytes) : bytes := trim_with is_trim_blank value.

Definition toupper (b : byte) : byte :=
  let v := byte_val b in if (97 <=? v) && (v <=? 122) then byte_of (v - 32) else b.

Definition toUpper (value : bytes) : bytes := toupper <$> value.

Definition quoteSqlLiteral (value : bytes) : bytes := quote_with squote value.

(** ** Splitting a text into statements *)

(** What the loop and the code after it append for a finished piece. *)
Definition push_statement (current : bytes) : list bytes :=
  let trimmed := trimString current in if bool_decide (trimmed = []) then [] else [trimmed].

(** The state of the loop: inside a text in single quotes, inside one in double
    quotes, or outside. *)
Fixpoint split_loop (in_single in_double : bool) (current sql : bytes) : list bytes :=
  match sql with
  | [] => push_statement current
  | ch :: r =>
      if in_single then
        if bool_decide (ch = squote) then
          match r with
          | ch' :: r' =>
              if bool_decide (ch' = squote) then split_loop true in_double (current ++ [ch; ch']) r'
              else split_loop false in_double (current ++ [ch]) r
          | [] => split_loop false in_double (current ++ [ch]) r
          end
        else split_loop in_single in_double (current ++ [ch]) r
      else if in_double then
        if bool_decide (ch = dquote) then
          match r with
          | ch' :: r' =>
              if bool_decide (ch' = dquote) then split_loop in_single true (current ++ [ch; ch']) r'
              else split_loop in_single false (current ++ [ch]) r
          | [] => split_loop in_single false (current ++ [ch]) r
          end
        else split_loop in_single in_double (current ++ [ch]) r
      else if bool_decide (ch = squote) then split_loop true in_double (current ++ [ch]) r
      else if bool_decide (ch = dquote) then split_loop in_single true (current ++ [ch]) r
      else if bool_decide (ch = ";"%byte) then push_statement current ++ split_loop in_single in_double [] r
      else split_loop in_single in_double (current ++ [ch]) r
  end.

Definition splitSqlStatements (sql : bytes) : list bytes := split_loop false false [] sql.

(** ** Compacting *)

(** A blank that the inner loop skips after a comma. *)
Definition is_comma_blank (b : byte) : bool :=
  isspace b && negb (bool_decide (b = Byte.x0a)) && negb (bool_decide (b = Byte.x0d)).

(** [skipping] is the inner [while] loop that follows a comma. *)
Fixpoint compact_loop (in_single_quote in_double_quote skipping : bool) (sql : bytes) : bytes :=
  match sql with
  | [] => []
  | ch :: r =>
      if skipping && is_comma_blank ch then compact_loop in_single_quote in_double_quote true r
      else if bool_decide (ch = squote) && negb in_double_quote
      then ch :: compact_loop (negb in_single_quote) in_double_quote false r
      else if bool_decide (ch = dquote) && negb in_single_quote
      then ch :: compact_loop in_single_quote (negb in_double_quote) false r
      else if bool_decide (ch = ","%byte) && negb in_single_quote && negb in_double_quote
      then ch :: compact_loop in_single_quote in_double_quote true r
      else ch :: compact_loop in_single_quote in_double_quote false r
  end.

Definition compactPreparedSql (sql : bytes) : bytes := compact_loop false false false sql.

(** ** Parameters *)

Record ParameterLiteral := { text : bytes; quoted : bool }.

(** [ParameterLiteral{}] *)
Definition null_literal : ParameterLiteral := {| text := []; quoted := true |}.

(** What a marker is replaced by. *)
Definition literal_text (param : ParameterLiteral) : bytes :=
  if bool_decide (text param = []) then "NULL"
  else if quoted param then quoteSqlLiteral (text param)
  else text param.

Fixpoint substitute (params : list ParameterLiteral) (sql : bytes) : bytes :=
  match sql with
  | [] => []
  | ch :: r =>
      match params with
      | param :: params =>
          if bool_decide (ch = "?"%byte) then literal_text param ++ substitute params r
          else ch :: substitute (param :: params) r
      | [] => ch :: substitute [] r
      end
  end.

(** The text that [buildPreparedSQL] makes of a statement. *)
Definition prepared_text (sql : bytes) (params : list ParameterLiteral) : bytes :=
  compactPreparedSql (if bool_decide (params = []) then sql else substitute params sql).

(** The statement that ends a prepared transaction, or the error. *)
Definition buildPreparedTransactionSql (verb global_transaction_id : bytes) : bytes + (bytes * bytes) :=
  let trimmed_verb := trimString verb in
  let trimmed_gid := trimString global_transaction_id in
  if bool_decide (trimmed_verb = []) then
    inr ("HY024" : bytes, "Prepared-transaction verb is required" : bytes)
  else if bool_decide (trimmed_gid = []) then
    inr ("42601" : bytes, "Global transaction id is required" : bytes)
  else inl (trimString trimmed_verb ++ " " ++ quoteSqlLiteral trimmed_gid).

(** ** Names *)

Definition stripIdentifierQuotes (value : bytes) : bytes :=
  match value with
  | first :: (_ :: _) as r =>
      let last := default first (last r) in
      if (bool_decide (first = Byte.x60) && bool_decide (last = Byte.x60)) ||
         (bool_decide (first = dquote) && bool_decide (last = dquote))
      then removelast r else value
  | _ => value
  end.

Definition splitCsvColumns (value : bytes) : list bytes :=
  filter (λ t, t ≠ []) ((λ token, stripIdentifierQuotes (trimString token)) <$> getline_tokens ","%byte value).

(** The quote that is open, if one is; quotes are dropped. *)
Fixpoint path_loop (open : option byte) (current value : bytes) : list bytes :=
  match value with
  | [] => push_statement current
  | ch :: r =>
      if (bool_decide (ch = squote) || bool_decide (ch = dquote) || bool_decide (ch = Byte.x60))
         && match open with None => true | Some q => bool_decide (ch = q) end
      then path_loop (match open with None => Some ch | Some _ => None end) current r
      else if bool_decide (open = None) && bool_decide (ch = "."%byte)
      then push_statement current ++ path_loop open [] r
      else path_loop open (current ++ [ch]) r
  end.

Definition splitQualifiedIdentifierPath (value : bytes) : list bytes := path_loop None [] value.

Module Privilege.

Record PrivilegeObjectPath := {
  full : bytes; schema : bytes; table : bytes; column : bytes; has_column : bool }.

#[export] Instance privilege_path_eta : Eta PrivilegeObjectPath := λ r,
  {| full := full r; schema := schema r; table := table r; column := column r; has_column := has_column r |}.

(** [schema] grows by the parts with dots between them; a dot is put when
    [schema] holds something. *)
Definition append_part (schema part : bytes) : bytes :=
  (if bool_decide (schema = []) then schema else schema ++ ["."%byte]) ++ stripIdentifierQuotes part.

Definition parsePrivilegeObjectPath (object_name : bytes) : PrivilegeObjectPath :=
  let parsed := {| full := stripIdentifierQuotes (trimString object_name);
                   schema := []; table := []; column := []; has_column := false |} in
  if bool_decide (full parsed = []) then parsed else
  match reverse (splitQualifiedIdentifierPath (full parsed)) with
  | [] => parsed
  | [t] => parsed <| table := stripIdentifierQuotes t |>
  | [t; s] => parsed <| schema := stripIdentifierQuotes s |> <| table := stripIdentifierQuotes t |>
  | c :: t :: path =>
      parsed <| has_column := true |> <| schema := fold_left append_part (reverse path) [] |>
             <| table := stripIdentifierQuotes t |> <| column := stripIdentifierQuotes c |>
  end.

End Privilege.

Definition isRoleGrantObject (object_name privilege : bytes) : bool :=
  bool_decide (toUpper (trimString privilege) = ("ROLE" : bytes))
  || starts_with "ROLE " (toUpper (trimString object_name)).

(** ** Paths of [SQLBrowseConnect] *)

Fixpoint browse_loop (delimiter : byte) (part path : bytes) : list bytes :=
  match path with
  | [] => push_statement part
  | ch :: r =>
      if bool_decide (ch = delimiter) then push_statement part ++ browse_loop delimiter [] r
      else browse_loop delimiter (part ++ [ch]) r
  end.

Definition splitBrowsePath (path : bytes) : list bytes :=
  if bool_decide (path = []) then [] else
  let delimiter := if bool_decide ("/"%byte ∈ path) then "/"%byte else "."%byte in
  browse_loop delimiter [] path.

(** ** SQL text as tokens

    A text is plain bytes and quoted texts; a quote inside a quoted text is
    doubled. [lex] reads it, with the quote that is open and what it has read. *)

Inductive token :=
  | Plain (b : byte)
  | Quoted (q : byte) (t : bytes).

#[export] Instance token_eq_dec : EqDecision token.
Proof. solve_decision. Defined.

Definition is_quote (b : byte) : bool := bool_decide (b = squote) || bool_decide (b = dquote).

Fixpoint lex (open : option (byte * bytes)) (s : bytes) : option (list token) :=
  match s with
  | [] => match open with None => Some [] | Some _ => None end
  | b :: r =>
      match open with
      | None => if is_quote b then lex (Some (b, [])) r else ts ← lex None r; Some (Plain b :: ts)
      | Some (q, acc) =>
          if bool_decide (b = q) then
            match r with
            | b' :: r' =>
                if bool_decide (b' = q) then lex (Some (q, acc ++ [q])) r'
                else ts ← lex None r; Some (Quoted q acc :: ts)
            | [] => Some [Quoted q acc]
            end
          else lex (Some (q, acc ++ [b])) r
      end
  end.

Definition print_token (t : token) : bytes :=
  match t with Plain b => [b] | Quoted q t => quote_with q t end.

Definition print (ts : list token) : bytes := ts ≫= print_token.

(** Tokens that can stand in a text: plain bytes are no quotes, and two texts in
    the same quotes do not touch. *)
Definition may_follow (t : token) (rest : list token) : bool :=
  match t, rest with
  | Quoted q _, Quoted q' _ :: _ => negb (bool_decide (q' = q))
  | _, _ => true
  end.

Fixpoint separate (ts : list token) : bool :=
  match ts with
  | [] => true
  | t :: ts =>
      match t with Plain b => negb (is_quote b) | Quoted q _ => is_quote q end
      && may_follow t ts && separate ts
  end.

(** Blanks after a comma are dropped. *)
Fixpoint compact_tokens (skipping : bool) (ts : list token) : list token :=
  match ts with
  | [] => []
  | Plain b :: ts =>
      if skipping && is_comma_blank b then compact_tokens true ts
      else Plain b :: compact_tokens (bool_decide (b = ","%byte)) ts
  | t :: ts => t :: compact_tokens false ts
  end.

(** The pieces between the semicolons. *)
Fixpoint split_tokens (current ts : list token) : list (list token) :=
  match ts with
  | [] => [current]
  | t :: ts =>
      if bool_decide (t = Plain ";"%byte) then current :: split_tokens [] ts
      else split_tokens (current ++ [t]) ts
  end.

(** A parameter is one quoted text, or the tokens of its own text. *)
Definition literal_tokens (param : ParameterLiteral) : list token :=
  if bool_decide (text param = []) then Plain <$> ("NULL" : bytes)
  else if quoted param then [Quoted squote (text param)]
  else default [] (lex None (text param)).

(** Markers are replaced from the left. *)
Fixpoint bind_tokens (params : list ParameterLiteral) (ts : list token) : list token :=
  match ts with
  | [] => []
  | t :: ts =>
      match params with
      | param :: params =>
          if bool_decide (t = Plain "?"%byte) then literal_tokens param ++ bind_tokens params ts
          else t :: bind_tokens (param :: params) ts
      | [] => t :: bind_tokens [] ts
      end
  end.

(** A template: markers are outside of quoted texts, and stand apart from
    quoted texts and from each other. *)
Definition marker (t : token) : bool := bool_decide (t = Plain "?"%byte).

Definition bulky (t : token) : bool := match t with Plain _ => marker t | Quoted _ _ => true end.

Fixpoint template (ts : list token) : bool :=
  match ts with
  | [] => true
  | t :: ts =>
      match t with Plain _ => true | Quoted _ x => bool_decide ("?"%byte ∉ x) end
      && match ts with t' :: _ => negb (marker t && bulky t') && negb (bulky t && marker t') | [] => true end
      && template ts
  end.

(** What the driver makes of a parameter that it does not quote: numbers, and
    [X'...'] for bytes. No semicolon, no double quote, not blank. *)
Definition plain_literal (param : ParameterLiteral) : bool :=
  quoted param ||
  match lex None (text param) with
  | None => false
  | Some ts =>
      forallb (λ t, match t with
                    | Plain b => negb (bool_decide (b = ";"%byte)) && negb (is_trim_blank b)
                    | Quoted q x => bool_decide (q = squote) end) ts
  end.

(** A piece that is not blank is a statement. *)
Definition blank_token (t : token) : bool :=
  match t with Plain b => is_trim_blank b | Quoted _ _ => false end.

Definition statements (pieces : list (list token)) : list bytes :=
  trimString ∘ print <$> filter (λ p, Exists (λ t, blank_token t = false) p) pieces.

(** ** Reading what was printed *)

Lemma lex_quoted q acc x rest : is_quote q = true → starts_not q rest →
  lex (Some (q, acc)) (double_char q x ++ q :: rest) = (ts ← lex None rest; Some (Quoted q (acc ++ x) :: ts)).
Proof.
  intros Hq Hr. revert acc. induction x as [|b x IH]; intros acc; cbn [double_char app lex].
  - rewrite bool_decide_eq_true_2 by done. rewrite app_nil_r. destruct rest as [|b r]; [done|].
    rewrite bool_decide_eq_false_2; [done|]. unfold starts_not in Hr. cbn in Hr. congruence.
  - destruct (decide (b = q)) as [->|Hb].
    + rewrite (bool_decide_eq_true_2 (q = q)) by done. cbn [app lex].
      rewrite (bool_decide_eq_true_2 (q = q)) by done. rewrite IH, <-app_assoc. done.
    + rewrite (bool_decide_eq_false_2 (b = q)) by done. cbn [app lex].
      rewrite (bool_decide_eq_false_2 (b = q)) by done. rewrite IH, <-app_assoc. done.
Qed.

Lemma separate_cons t ts : separate (t :: ts) = true →
  match t with Plain b => is_quote b = false | Quoted q _ => is_quote q = true end
  ∧ may_follow t ts = true ∧ separate ts = true.
Proof. cbn [separate]. rewrite !andb_true_iff. intros [[H ?] ?]. split_and!; try done. destruct t; [by apply negb_true_iff|done]. Qed.

(** What follows a quoted text does not begin with its quote. *)
Lemma follow_starts q x ts : is_quote q = true → separate (Quoted q x :: ts) = true → starts_not q (print ts).
Proof.
  intros Hq (_ & Hf & Hs)%separate_cons. destruct ts as [|t ts]; [done|].
  apply separate_cons in Hs as (Ht & _ & _). unfold starts_not. destruct t as [b|q' y]; cbn [print mbind list_bind print_token app head].
  - intros [= ->]. congruence.
  - unfold quote_with. cbn. intros [= ->]. cbn [may_follow] in Hf. by rewrite bool_decide_eq_true_2 in Hf.
Qed.

Lemma print_cons t ts : print (t :: ts) = print_token t ++ print ts.
Proof. done. Qed.

Lemma print_app ts us : print (ts ++ us) = print ts ++ print us.
Proof. apply bind_app. Qed.

Lemma lex_print ts : separate ts = true → lex None (print ts) = Some ts.
Proof.
  induction ts as [|t ts IH]; [done|]. intros H. pose proof (separate_cons _ _ H) as (Ht & _ & Hs).
  rewrite print_cons. destruct t as [b|q x]; cbn [print_token].
  - cbn [app lex]. rewrite Ht, IH by done. done.
  - unfold quote_with. cbn [app lex]. rewrite Ht, <-app_assoc. cbn [app].
    rewrite lex_quoted by (done || by eapply follow_starts). rewrite IH by done. done.
Qed.

Lemma double_char_app q x y : double_char q (x ++ y) = double_char q x ++ double_char q y.
Proof. induction x as [|b x IH]; [done|]. cbn [app double_char]. case_bool_decide; cbn [app]; by rewrite IH. Qed.

Lemma double_char_other q b : b ≠ q → double_char q [b] = [b].
Proof. intros. cbn. by rewrite bool_decide_eq_false_2. Qed.

Lemma double_char_self q : double_char q [q] = [q; q].
Proof. cbn. by rewrite bool_decide_eq_true_2. Qed.

(** What has been read when the text is inside [open]. *)
Definition opened (open : option (byte * bytes)) (s : bytes) : bytes :=
  match open with None => s | Some (q, acc) => q :: double_char q acc ++ s end.

Lemma may_follow_plain q x s ts : print ts = s → separate ts = true → starts_not q s → may_follow (Quoted q x) ts = true.
Proof.
  intros <- Hs Hn. destruct ts as [|[b|q' y] ts]; [done|done|]. cbn [may_follow].
  rewrite bool_decide_eq_false_2; [done|]. intros ->. by apply Hn.
Qed.

Lemma lex_sound n : ∀ s open ts, (length s <= n)%nat → match open with None => True | Some (q, _) => is_quote q = true end →
  lex open s = Some ts →
  print ts = opened open s ∧ separate ts = true.
Proof.
  induction n as [|n IH]; intros s open ts Hn Ho H.
  { destruct s; [|cbn in Hn; lia]. cbn in H. destruct open as [[q acc]|]; [done|]. by injection H as <-. }
  destruct s as [|b r].
  { cbn in H. destruct open as [[q acc]|]; [done|]. by injection H as <-. }
  cbn [length] in Hn. cbn [lex] in H. destruct open as [[q acc]|].
  - case_bool_decide as Hb.
    + subst b. destruct r as [|b' r'].
      { injection H as <-. cbn [separate may_follow]. rewrite Ho. split; [|done]. cbn. by rewrite app_nil_r. }
      case_bool_decide as Hb'.
      * subst b'. apply IH in H as [Hp Hs]; [|cbn in Hn; lia|done]. split; [|done]. rewrite Hp. cbn [opened].
        by rewrite double_char_app, double_char_self, <-app_assoc.
      * destruct (lex None (b' :: r')) as [us|] eqn:E; [|done]. injection H as <-.
        apply IH in E as [Hp Hs]; [|lia|done]. split.
        -- rewrite print_cons, Hp. cbn [print_token opened]. unfold quote_with. cbn [app]. by rewrite <-app_assoc.
        -- cbn [separate]. rewrite Ho, Hs, (may_follow_plain _ _ _ _ Hp Hs); [done|]. cbn [opened]. unfold starts_not. cbn. congruence.
    + apply IH in H as [Hp Hs]; [|lia|done]. split; [|done]. rewrite Hp. cbn [opened].
      by rewrite double_char_app, double_char_other, <-app_assoc.
  - destruct (is_quote b) eqn:Hb.
    + apply IH in H as [Hp Hs]; [|lia|done]. split; [|done]. by rewrite Hp.
    + destruct (lex None r) as [us|] eqn:E; [|done]. injection H as <-.
      apply IH in E as [Hp Hs]; [|lia|done]. split; [by rewrite print_cons, Hp|].
      cbn [separate may_follow]. by rewrite Hb, Hs.
Qed.

Lemma print_lex s ts : lex None s = Some ts → print ts = s ∧ separate ts = true.
Proof. intros H. by apply (lex_sound (length s) s None). Qed.

(** ** Compacting, on tokens *)

Lemma quote_cases q : is_quote q = true → q = squote ∨ q = dquote.
Proof. unfold is_quote. rewrite orb_true_iff, !bool_decide_eq_true. done. Qed.

Lemma compact_body_single x rest :
  compact_loop true false false (double_char squote x ++ squote :: rest) = double_char squote x ++ squote :: compact_loop false false false rest.
Proof.
  induction x as [|b x IH]; [done|]. cbn [double_char]. destruct (decide (b = squote)) as [->|Hb].
  - rewrite bool_decide_eq_true_2 by done. cbn [app]. by rewrite <-IH.
  - rewrite bool_decide_eq_false_2 by done. cbn [app]. rewrite <-IH. cbn [compact_loop andb negb].
    rewrite (bool_decide_eq_false_2 (b = squote)) by done. by rewrite !andb_false_r.
Qed.

Lemma compact_body_double x rest :
  compact_loop false true false (double_char dquote x ++ dquote :: rest) = double_char dquote x ++ dquote :: compact_loop false false false rest.
Proof.
  induction x as [|b x IH]; [done|]. cbn [double_char]. destruct (decide (b = dquote)) as [->|Hb].
  - rewrite bool_decide_eq_true_2 by done. cbn [app]. by rewrite <-IH.
  - rewrite bool_decide_eq_false_2 by done. cbn [app]. rewrite <-IH. cbn [compact_loop andb negb].
    rewrite (bool_decide_eq_false_2 (b = dquote)) by done. by rewrite !andb_false_r.
Qed.

Lemma compact_body q x rest : is_quote q = true →
  compact_loop (bool_decide (q = squote)) (bool_decide (q = dquote)) false (double_char q x ++ q :: rest) =
  double_char q x ++ q :: compact_loop false false false rest.
Proof.
  intros [-> | ->]%quote_cases.
  - change (bool_decide (squote = squote)) with true. change (bool_decide (squote = dquote)) with false. apply compact_body_single.
  - change (bool_decide (dquote = dquote)) with true. change (bool_decide (dquote = squote)) with false. apply compact_body_double.
Qed.

Lemma compact_print ts : separate ts = true → ∀ skipping,
  compact_loop false false skipping (print ts) = print (compact_tokens skipping ts).
Proof.
  induction ts as [|t ts IH]; [done|]. intros (Ht & _ & Hs)%separate_cons skipping. specialize (IH Hs).
  rewrite print_cons. destruct t as [b|q x]; cbn [print_token].
  - cbn [app compact_loop compact_tokens]. unfold is_quote in Ht. apply orb_false_iff in Ht as [-> ->].
    destruct (skipping && is_comma_blank b); [by rewrite IH|]. cbn [andb negb]. rewrite !andb_true_r.
    case_bool_decide; rewrite print_cons; cbn [print_token app]; by rewrite IH.
  - cbn [compact_tokens]. rewrite print_cons. cbn [print_token]. unfold quote_with. cbn [app]. rewrite <-!app_assoc. cbn [app].
    rewrite <-IH, <-compact_body by done. by apply quote_cases in Ht as [-> | ->]; destruct skipping.
Qed.

Lemma compact_separate ts : separate ts = true → ∀ skipping, separate (compact_tokens skipping ts) = true.
Proof.
  induction ts as [|t ts IH]; [done|]. intros (Ht & Hf & Hs)%separate_cons skipping. specialize (IH Hs).
  destruct t as [b|q x]; cbn [compact_tokens].
  - destruct (_ && _); [done|]. cbn [separate may_follow]. by rewrite Ht, IH.
  - cbn [separate]. rewrite Ht, IH. rewrite andb_true_r. cbn [andb]. destruct ts as [|[b|q' y] ts]; [done| |done].
    cbn [compact_tokens andb]. done.
Qed.

(** ** Binding, on tokens *)

Lemma substitute_free p rest params : "?"%byte ∉ p → substitute params (p ++ rest) = p ++ substitute params rest.
Proof.
  induction p as [|b p IH]; [done|]. intros [Hb Hp]%not_elem_of_cons. cbn [app substitute].
  destruct params as [|param params].
  - by rewrite IH.
  - rewrite bool_decide_eq_false_2 by done. by rewrite IH.
Qed.

Lemma double_char_elem q x b : b ∈ double_char q x → b ∈ x.
Proof.
  induction x as [|c x IH]; [done|]. cbn [double_char]. case_bool_decide as Hc; rewrite !elem_of_cons; [subst c|]; tauto.
Qed.

Lemma literal_print param : plain_literal param = true → print (literal_tokens param) = literal_text param.
Proof.
  unfold plain_literal, literal_tokens, literal_text. case_bool_decide; [done|]. destruct (quoted param).
  { intros _. apply app_nil_r. }
  cbn [orb]. destruct (lex None (text param)) as [ts|] eqn:E; [|done]. intros _. by apply print_lex in E as [E _].
Qed.

Lemma bind_print ts : template ts = true → separate ts = true → ∀ params, forallb plain_literal params = true →
  substitute params (print ts) = print (bind_tokens params ts).
Proof.
  induction ts as [|t ts IH]; [done|]. cbn [template]. rewrite !andb_true_iff.
  intros [[Hq _] Ht] (Hw & _ & Hs)%separate_cons params Hps. specialize (IH Ht Hs).
  rewrite print_cons. destruct params as [|param params].
  - cbn [bind_tokens]. rewrite print_cons, <-IH by done. clear. induction (print_token t); [done|]. cbn. congruence.
  - cbn [forallb] in Hps. apply andb_true_iff in Hps as [Hp Hps]. cbn [bind_tokens].
    case_bool_decide as Hm.
    + subst t. cbn [print_token app substitute]. rewrite bool_decide_eq_true_2 by done.
      by rewrite print_app, literal_print, IH.
    + rewrite print_cons, <-IH by (cbn [forallb]; by rewrite Hp). apply substitute_free. destruct t as [b|q x]; cbn [print_token].
      * intros E%list_elem_of_singleton. by rewrite <-E in Hm.
      * rewrite bool_decide_eq_true in Hq. unfold quote_with. rewrite elem_of_cons, elem_of_app, list_elem_of_singleton.
        apply quote_cases in Hw. intros [<-|[He|<-]]; [by destruct Hw|by apply double_char_elem in He|by destruct Hw].
Qed.

Lemma separate_app ts us : separate ts = true → separate us = true →
  match us with Quoted _ _ :: _ => False | _ => True end → separate (ts ++ us) = true.
Proof.
  induction ts as [|t ts IH]; [done|]. intros (Ht & Hf & Hs)%separate_cons Hu Hj.
  cbn [app separate]. rewrite IH by done. rewrite andb_true_r. apply andb_true_iff. split.
  - destruct t; [by rewrite Ht|done].
  - destruct ts; [|done]. destruct t, us as [|[]]; done.
Qed.

Lemma literal_separate param : plain_literal param = true → separate (literal_tokens param) = true.
Proof.
  unfold plain_literal, literal_tokens. case_bool_decide; [done|]. destruct (quoted param); [done|].
  cbn [orb]. destruct (lex None (text param)) as [ts|] eqn:E; [|done]. intros _. by apply print_lex in E as [_ E].
Qed.

Lemma template_cons t ts : template (t :: ts) = true →
  template ts = true ∧
  (∀ t' r, ts = t' :: r → (marker t = true → bulky t' = false) ∧ (bulky t = true → marker t' = false)).
Proof.
  cbn [template]. rewrite !andb_true_iff. intros [[_ H] ?]. split; [done|]. intros t' r ->.
  apply andb_true_iff in H as [H1 H2]. split; intros E; rewrite E in *; [by apply negb_true_iff in H1|by apply negb_true_iff in H2].
Qed.

Lemma bind_separate ts : template ts = true → separate ts = true → ∀ params, forallb plain_literal params = true →
  separate (bind_tokens params ts) = true.
Proof.
  induction ts as [|t ts IH]; [done|]. intros (Ht & Hn)%template_cons (Hw & Hf & Hs)%separate_cons params Hps.
  specialize (IH Ht Hs). destruct params as [|param params]; cbn [bind_tokens].
  { cbn [separate]. rewrite IH by done. rewrite andb_true_r. apply andb_true_iff. split; [destruct t; [by rewrite Hw|done]|].
    destruct t; [done|]. by destruct ts. }
  pose proof Hps as Hps'. cbn [forallb] in Hps'. apply andb_true_iff in Hps' as [Hp Hps']. case_bool_decide as Hm.
  - subst t. apply separate_app; [by apply literal_separate|by apply IH|].
    destruct ts as [|t' r]; [done|]. destruct (Hn t' r eq_refl) as [Hb _]. specialize (Hb eq_refl).
    destruct t' as [b|q x]; [|done]. cbn [bulky] in Hb. unfold marker in Hb. apply bool_decide_eq_false in Hb.
    destruct params; cbn [bind_tokens]; [done|]. by rewrite bool_decide_eq_false_2.
  - cbn [separate]. rewrite IH by done. rewrite andb_true_r. apply andb_true_iff. split; [destruct t; [by rewrite Hw|done]|].
    destruct t as [|q x]; [done|]. destruct ts as [|t' r]; [done|]. destruct (Hn t' r eq_refl) as [_ Hb]. specialize (Hb eq_refl).
    unfold marker in Hb. cbn [bind_tokens]. rewrite Hb. done.
Qed.

(** ** Splitting, on tokens *)

Lemma split_body_single current x rest : starts_not squote rest →
  split_loop true false current (double_char squote x ++ squote :: rest) =
  split_loop false false (current ++ double_char squote x ++ [squote]) rest.
Proof.
  intros Hr. revert current. induction x as [|b x IH]; intros current.
  - cbn [double_char app split_loop]. rewrite bool_decide_eq_true_2 by done. destruct rest as [|b r]; [done|].
    rewrite bool_decide_eq_false_2; [done|]. unfold starts_not in Hr. cbn in Hr. congruence.
  - cbn [double_char]. destruct (decide (b = squote)) as [->|Hb].
    + rewrite bool_decide_eq_true_2 by done. cbn [app split_loop]. rewrite !bool_decide_eq_true_2 by done.
      rewrite IH, <-app_assoc. done.
    + rewrite bool_decide_eq_false_2 by done. cbn [app split_loop]. rewrite bool_decide_eq_false_2 by done.
      rewrite IH, <-app_assoc. done.
Qed.

Lemma split_body_double current x rest : starts_not dquote rest →
  split_loop false true current (double_char dquote x ++ dquote :: rest) =
  split_loop false false (current ++ double_char dquote x ++ [dquote]) rest.
Proof.
  intros Hr. revert current. induction x as [|b x IH]; intros current.
  - cbn [double_char app split_loop]. rewrite bool_decide_eq_true_2 by done. destruct rest as [|b r]; [done|].
    rewrite bool_decide_eq_false_2; [done|]. unfold starts_not in Hr. cbn in Hr. congruence.
  - cbn [double_char]. destruct (decide (b = dquote)) as [->|Hb].
    + rewrite bool_decide_eq_true_2 by done. cbn [app split_loop]. rewrite !bool_decide_eq_true_2 by done.
      rewrite IH, <-app_assoc. done.
    + rewrite bool_decide_eq_false_2 by done. cbn [app split_loop]. rewrite bool_decide_eq_false_2 by done.
      rewrite IH, <-app_assoc. done.
Qed.

Lemma split_print_from ts : separate ts = true → ∀ current,
  split_loop false false (print current) (print ts) = split_tokens current ts ≫= push_statement ∘ print.
Proof.
  induction ts as [|t ts IH].
  { intros _ current. cbn. by rewrite app_nil_r. }
  intros H current. pose proof (separate_cons _ _ H) as (Ht & _ & Hs). specialize (IH Hs).
  rewrite print_cons. destruct t as [b|q x]; cbn [print_token split_tokens].
  - cbn [app split_loop]. unfold is_quote in Ht. apply orb_false_iff in Ht as [-> ->].
    destruct (decide (b = ";"%byte)) as [->|Hb].
    + rewrite !bool_decide_eq_true_2 by done. rewrite bind_cons. by rewrite <-(IH []).
    + rewrite !bool_decide_eq_false_2 by congruence. rewrite <-IH, print_app. done.
  - rewrite bool_decide_eq_false_2 by done. rewrite <-IH, print_app. pose proof (follow_starts _ _ _ Ht H) as Hf.
    unfold quote_with. apply quote_cases in Ht as [-> | ->]; cbn [app split_loop].
    + rewrite bool_decide_eq_true_2 by done. rewrite <-app_assoc. cbn [app]. rewrite split_body_single by done.
      f_equal. rewrite <-app_assoc. cbn. by rewrite app_nil_r.
    + rewrite bool_decide_eq_false_2, bool_decide_eq_true_2 by done. rewrite <-app_assoc. cbn [app].
      rewrite split_body_double by done. f_equal. rewrite <-app_assoc. cbn. by rewrite app_nil_r.
Qed.

Lemma drop_while_nil f s : drop_while f s = [] ↔ Forall (λ b, f b = true) s.
Proof.
  induction s as [|b s IH]; [by split|]. cbn [drop_while]. rewrite Forall_cons. destruct (f b); [|by split; [|intros [? _]]].
  rewrite IH. tauto.
Qed.

Lemma trim_nil f s : trim_with f s = [] ↔ Forall (λ b, f b = true) s.
Proof.
  unfold trim_with. rewrite <-(reverse_involutive []). split.
  - intros H%(f_equal reverse). rewrite !reverse_involutive in H. cbn in H. apply drop_while_nil in H.
    rewrite Forall_reverse in H. destruct (drop_while_suffix f s) as [p E]. apply drop_while_nil.
    pose proof (drop_while_idem f s) as Hi. by rewrite (proj2 (drop_while_nil f _) H) in Hi.
  - intros H%drop_while_nil. by rewrite H.
Qed.

Lemma quoted_not_blank q x : is_quote q = true → ¬ Forall (λ b, is_trim_blank b = true) (quote_with q x).
Proof. intros [-> | ->]%quote_cases; unfold quote_with; by intros [? _]%Forall_cons. Qed.

(** The quotes of quoted texts are quotes. *)
Definition proper (t : token) : Prop := match t with Quoted q _ => is_quote q = true | Plain _ => True end.

Lemma separate_proper ts : separate ts = true → Forall proper ts.
Proof.
  induction ts as [|t ts IH]; [by constructor|]. intros (Ht & _ & Hs)%separate_cons.
  constructor; [by destruct t|by apply IH].
Qed.

Lemma print_blank p : Forall proper p →
  Forall (λ b, is_trim_blank b = true) (print p) ↔ ¬ Exists (λ t, blank_token t = false) p.
Proof.
  induction 1 as [|t p Ht Hp IH]; [split; [intros _ H; by inversion H|by intros]|].
  rewrite print_cons, Forall_app, IH, Exists_cons. destruct t as [b|q x]; cbn [print_token blank_token].
  - rewrite Forall_singleton. destruct (is_trim_blank b); naive_solver.
  - pose proof (quoted_not_blank q x Ht). naive_solver.
Qed.

Lemma push_print p : Forall proper p →
  push_statement (print p) = if decide (Exists (λ t, blank_token t = false) p) then [trimString (print p)] else [].
Proof.
  intros Hp. unfold push_statement. pose proof (print_blank p Hp) as Hb. unfold trimString.
  pose proof (trim_nil is_trim_blank (print p)) as Ht. case_decide; case_bool_decide; tauto.
Qed.

Lemma split_tokens_proper ts current : Forall proper current → Forall proper ts → Forall (Forall proper) (split_tokens current ts).
Proof.
  intros Hc Ht. revert current Hc. induction Ht as [|t ts Ht Hts IH]; intros current Hc; cbn [split_tokens]; [by constructor|].
  case_bool_decide; [constructor; [done|by apply IH]|]. apply IH, Forall_app. split; [done|by constructor].
Qed.

Lemma split_print ts : separate ts = true → splitSqlStatements (print ts) = statements (split_tokens [] ts).
Proof.
  intros Hs. unfold splitSqlStatements. change [] with (print []) at 1. rewrite split_print_from by done.
  pose proof (split_tokens_proper ts [] (Forall_nil_2 _) (separate_proper ts Hs)) as Hp. unfold statements.
  induction Hp as [|p ps Hp Hps IH]; [done|]. rewrite bind_cons, IH. cbn [compose]. rewrite push_print by done.
  rewrite filter_cons. by case_decide.
Qed.

(** How many statements there are, read off the tokens; [started] tells whether
    the current piece holds something. *)
Fixpoint count_statements (started : bool) (ts : list token) : nat :=
  match ts with
  | [] => Nat.b2n started
  | t :: ts =>
      if bool_decide (t = Plain ";"%byte) then Nat.b2n started + count_statements false ts
      else count_statements (started || negb (blank_token t)) ts
  end.

Lemma length_statements ts current :
  length (statements (split_tokens current ts)) =
  count_statements (existsb (λ t, negb (blank_token t)) current) ts.
Proof.
  assert (He : ∀ p, length (statements [p]) = Nat.b2n (existsb (λ t, negb (blank_token t)) p)).
  { intros p. unfold statements. rewrite filter_cons. case_decide as He.
    - assert (existsb (λ t, negb (blank_token t)) p = true) as ->; [|done]. induction He as [t p H|t p H IH]; cbn; [by rewrite H|by rewrite IH, orb_true_r].
    - assert (existsb (λ t, negb (blank_token t)) p = false) as ->; [|done]. induction p as [|t p IH]; [done|]. cbn.
      rewrite Exists_cons in He. rewrite IH by tauto. destruct (blank_token t); [done|tauto]. }
  assert (Hc : ∀ p ps, length (statements (p :: ps)) = (length (statements [p]) + length (statements ps))%nat).
  { intros p ps. unfold statements. rewrite !filter_cons. case_decide; done. }
  revert current. induction ts as [|t ts IH]; intros current; cbn [split_tokens count_statements]; [apply He|].
  case_bool_decide.
  - by rewrite Hc, He, IH.
  - by rewrite IH, existsb_app; cbn [existsb]; rewrite orb_false_r.
Qed.

Lemma count_compact ts : ∀ started skipping, (skipping = true → started = true) →
  count_statements started (compact_tokens skipping ts) = count_statements started ts.
Proof.
  induction ts as [|t ts IH]; [done|]. intros started skipping Hsk. destruct t as [b|q x]; cbn [compact_tokens].
  - destruct skipping; cbn [andb].
    + rewrite Hsk by done. destruct (is_comma_blank b) eqn:Hb.
      * cbn [count_statements]. rewrite bool_decide_eq_false_2 by (intros [= ->]; done). cbn [orb]. by apply IH.
      * cbn [count_statements]. case_bool_decide; [|by apply IH]. rewrite IH; [done|]. by case_bool_decide; simplify_eq.
    + cbn [count_statements]. case_bool_decide; [rewrite IH; [done|]; by case_bool_decide; simplify_eq|].
      apply IH. case_bool_decide; [|done]. subst b. by rewrite orb_true_r.
  - cbn [count_statements]. rewrite bool_decide_eq_false_2 by done. by apply IH.
Qed.

Lemma count_app_free us ts : Forall (λ t, t ≠ Plain ";"%byte) us → ∀ started,
  count_statements started (us ++ ts) = count_statements (started || existsb (λ t, negb (blank_token t)) us) ts.
Proof.
  induction 1 as [|t us Ht Hus IH]; intros started; cbn [app count_statements existsb]; [by rewrite orb_false_r|].
  by rewrite bool_decide_eq_false_2, IH, orb_assoc.
Qed.

Lemma literal_counts param : plain_literal param = true →
  Forall (λ t, t ≠ Plain ";"%byte) (literal_tokens param) ∧
  existsb (λ t, negb (blank_token t)) (literal_tokens param) = true.
Proof.
  unfold plain_literal, literal_tokens. case_bool_decide as Hn; [intros _; split; [by repeat constructor|done]|].
  destruct (quoted param); [intros _; split; [by repeat constructor|done]|].
  cbn [orb]. destruct (lex None (text param)) as [ts|] eqn:E; [|done]. intros H. apply print_lex in E as [E _]. cbn [default].
  destruct ts as [|t ts]; [by rewrite <-E in Hn|]. rewrite forallb_forall in H. split.
  - apply Forall_forall. intros u Hu ->. specialize (H _ (proj1 (list_elem_of_In _ _) Hu)). done.
  - cbn [existsb]. specialize (H t (or_introl eq_refl)). destruct t as [b|q x]; [|done]. apply andb_true_iff in H as [_ H].
    cbn [id existsb blank_token]. by rewrite H.
Qed.

Lemma count_bind ts : ∀ params started, forallb plain_literal params = true →
  count_statements started (bind_tokens params ts) = count_statements started ts.
Proof.
  induction ts as [|t ts IH]; [done|]. intros [|param params] started Hps; cbn [bind_tokens].
  { cbn [count_statements]. by case_bool_decide; rewrite IH. }
  pose proof Hps as Hps'. cbn [forallb] in Hps'. apply andb_true_iff in Hps' as [Hp Hps']. destruct (decide (t = Plain "?"%byte)) as [->|Hm].
  - rewrite bool_decide_eq_true_2 by done. pose proof (literal_counts _ Hp) as [Hf He]. rewrite count_app_free, He, IH by done. done.
  - rewrite (bool_decide_eq_false_2 (t = Plain "?"%byte)) by done. cbn [count_statements]. by case_bool_decide; rewrite IH.
Qed.

Lemma bind_nil ts : bind_tokens [] ts = ts.
Proof. induction ts as [|t ts IH]; [done|]. cbn. by f_equal. Qed.

Lemma prepared_print sql ts params :
  lex None sql = Some ts → template ts = true → forallb plain_literal params = true →
  prepared_text sql params = print (compact_tokens false (bind_tokens params ts)) ∧
  separate (bind_tokens params ts) = true.
Proof.
  intros [<- Hs]%print_lex Ht Hp. pose proof (bind_separate ts Ht Hs params Hp) as Hb. split; [|done].
  unfold prepared_text, compactPreparedSql. rewrite <-compact_print by done. f_equal. case_bool_decide as Hn.
  - subst params. by rewrite bind_nil.
  - by apply bind_print.
Qed.

(** ** Theorems *)



(** Binding values adds and removes no statement: the statements sent are the
    pieces of the template with the literals in place. *)
Theorem bound_statements sql ts params :
  lex None sql = Some ts → template ts = true → forallb plain_literal params = true →
  splitSqlStatements (prepared_text sql params) = statements (split_tokens [] (compact_tokens false (bind_tokens params ts)))
  ∧ length (splitSqlStatements (prepared_text sql params)) = length (splitSqlStatements sql).
Proof.
  intros Hl Ht Hp. destruct (prepared_print _ _ _ Hl Ht Hp) as [-> Hs]. apply print_lex in Hl as [<- Hl].
  rewrite split_print by by apply compact_separate. split; [done|].
  rewrite split_print, !length_statements, count_compact, count_bind by done. done.
Qed.

Lemma bound_statements_witness :
  length (splitSqlStatements (prepared_text "INSERT INTO t VALUES (?); SELECT 1" [{| text := "a';b"; quoted := true |}])) = 2%nat.
Proof.
  etransitivity; [eapply bound_statements; reflexivity|reflexivity].
Defined.

(** ** Where it falls short *)

(** A marker inside a quoted text is replaced as well, and the quotes of the
    literal then end the text: the value becomes SQL. *)
Lemma marker_in_literal_injects :
  splitSqlStatements (prepared_text "SELECT 'what?' WHERE a = 1" [{| text := " OR b; "; quoted := true |}]) =
    ["SELECT 'what' OR b" : bytes; "'' WHERE a = 1" : bytes].
Proof. reflexivity. Qed.

(** The empty text is sent as null. *)
Lemma empty_text_is_null q : literal_text {| text := []; quoted := q |} = "NULL".
Proof. done. Qed.

(** Comments are not known: a semicolon in one ends the statement. *)
Lemma comment_is_split :
  splitSqlStatements "SELECT 1 -- a; b" = ["SELECT 1 -- a" : bytes; "b" : bytes].
Proof. reflexivity. Qed.

(** A path of two quoted names loses its first and last quote before it is split,
    so that the dot counts as quoted: the schema is read as part of the table. *)
Lemma quoted_path_is_one_name :
  let p := Privilege.parsePrivilegeObjectPath (quote_with dquote "s" ++ "." ++ quote_with dquote "t") in
  Privilege.schema p = [] ∧ Privilege.table p = "s.t".
Proof. split; reflexivity. Qed.

(** Without quotes the parts are the names. *)
Lemma plain_path_parts :
  Privilege.parsePrivilegeObjectPath "a.b.t.c" =
    Privilege.Build_PrivilegeObjectPath "a.b.t.c" "a.b" "t" "c" true.
Proof. reflexivity. Qed.

(** The end of a prepared transaction names it by one literal, whatever the
    identifier holds. *)
Lemma prepared_transaction_reads_back verb gid sql :
  buildPreparedTransactionSql verb gid = inl sql →
  ∃ v, v = trimString verb ∧ v ≠ [] ∧ trimString gid ≠ [] ∧
    read_quoted squote (drop (S (length v)) sql) = Some (trimString gid, []).
Proof.
  unfold buildPreparedTransactionSql. case_bool_decide; [done|]. case_bool_decide; [done|]. intros [= <-].
  exists (trimString verb). split_and!; [done..|]. unfold trimString at 2. rewrite trim_with_idem.
  fold (trimString verb).
  replace (S (length (trimString verb))) with (length (trimString verb) + 1)%nat by lia.
  rewrite drop_app_add. cbn [String.list_byte_of_string app drop].
  pose proof (read_quote_with squote (trimString gid) [] ltac:(done)) as E. rewrite app_nil_r in E. exact E.
Qed.
