(* ===== verification/OdbcDates.v ===== *)
(** * ODBC driver: numbers, dates, times and identifiers as text

    Models the conversions between the structures of ODBC and text in
    [src/tracks/p3/drivers/odbc/src/odbc_handles.cpp]: [formatDateStruct] and the
    like for parameters, [parseDateLiteral] and the like for results, and
    [parseInt64], [parseUInt32] and [parseTypeString]. *)

From S2P Require Import Prelude.
From S2P Require Import Text.
From S2P Require Import TypeExtractor.
From S2P Require Import Values.
From S2P Require Import OdbcText.

(** ** Structures *)

Record SQL_DATE_STRUCT := { year : Z; month : Z; day : Z }.

Record SQL_TIME_STRUCT := { hour : Z; minute : Z; second : Z }.

Record SQL_TIMESTAMP_STRUCT := { ts_date : SQL_DATE_STRUCT; ts_time : SQL_TIME_STRUCT; fraction : Z }.

Record SQLGUID := { Data1 : Z; Data2 : Z; Data3 : Z; Data4 : bytes }.

Definition SQLSMALLINT (z : Z) : Z := i16 z.
Definition SQLUSMALLINT (z : Z) : Z := u16 z.

(** ** To text *)

Definition formatDateStruct (date : SQL_DATE_STRUCT) : bytes := put_date (year date) (month date) (day date).

Definition formatTimeStruct (time : SQL_TIME_STRUCT) : bytes := put_time (hour time) (minute time) (second time).

Definition formatTimestampStruct (ts : SQL_TIMESTAMP_STRUCT) : bytes :=
  let micros := fraction ts / 1000 in
  formatDateStruct (ts_date ts) ++ " "%byte :: formatTimeStruct (ts_time ts) ++
  (if 0 <? micros then "."%byte :: put 6 micros else []).

(** [%0nx] of a number of [n / 2] bytes. *)
Definition be_bytes (n : nat) (z : Z) : bytes := reverse (le_bytes n z).
Definition put_hex (n : nat) (z : Z) : bytes := hex_text (be_bytes n z).

Definition formatGuidStruct (guid : SQLGUID) : bytes :=
  put_hex 4 (Data1 guid) ++ dash :: put_hex 2 (Data2 guid) ++ dash :: put_hex 2 (Data3 guid) ++ dash ::
  hex_text (take 2 (Data4 guid)) ++ dash :: hex_text (drop 2 (Data4 guid)).

Definition hex_digit_upper (n : Z) : byte := byte_of (if n <? 10 then 48 + n else 55 + n).

Definition bytesToHexString (data : bytes) : bytes :=
  data ≫= λ ch, [hex_digit_upper (Z.land (Z.shiftr (byte_val ch) 4) 15); hex_digit_upper (Z.land (byte_val ch) 15)].

(** ** Numbers *)

(** The C string that begins a text. *)
Fixpoint c_str (s : bytes) : bytes :=
  match s with
  | [] => []
  | b :: r => if bool_decide (b = Byte.x00) then [] else b :: c_str r
  end.

(** [std::strtoll] in base 10: the value, whether it was out of range, and what
    follows; [None] when there is no number. *)
Definition strtoll (s : bytes) : option (Z * bool * bytes) :=
  let s := drop_while isspace s in
  let '(negative, s) :=
    match s with
    | b :: r => if bool_decide (b = "-"%byte) then (true, r)
                else if bool_decide (b = "+"%byte) then (false, r) else (false, s)
    | [] => (false, s)
    end in
  match s with
  | b :: _ =>
      match digit_of b with
      | None => None
      | Some _ =>
          let '(v, rest) := scan_digits 0 s in
          let z := if negative : bool then - v else v in
          if z <? - 2 ^ 63 then Some (- 2 ^ 63, true, rest)
          else if 2 ^ 63 - 1 <? z then Some (2 ^ 63 - 1, true, rest)
          else Some (z, false, rest)
      end
  | [] => None
  end.

Definition parseInt64 (value : bytes) : option Z :=
  let trimmed := trimString value in
  if bool_decide (trimmed = []) then None else
  match strtoll (c_str trimmed) with
  | Some (parsed, false, []) => Some parsed
  | _ => None
  end.

Definition parseUInt32 (value : bytes) : option Z :=
  let trimmed := trimString value in
  if bool_decide (trimmed = []) then None else
  match strtoull (c_str trimmed) with
  | Some (parsed, false, []) => Some (u32 parsed)
  | _ => None
  end.

Definition parseBoolValue (value : bytes) (default_value : bool) : bool :=
  if bool_decide (value = []) then default_value else
  match parseInt64 value with
  | Some numeric => negb (numeric =? 0)
  | None => bool_decide (toUpper (trimString value) ∈ ["YES" : bytes; "Y" : bytes; "TRUE" : bytes; "T" : bytes])
  end.

(** ** From text *)

Definition digit_at (value : bytes) (i : nat) : option Z := value !! i ≫= digit_of.

Definition char_at (value : bytes) (i : nat) (c : byte) : option () :=
  if bool_decide (value !! i = Some c) then Some () else None.

(** Two digits, as [std::stoi] reads them. *)
Definition two_digits (value : bytes) (i : nat) : option Z :=
  a ← digit_at value i; b ← digit_at value (S i); Some (10 * a + b).

Definition parseDateYMD (value : bytes) : option SQL_DATE_STRUCT :=
  century ← two_digits value 0; y ← two_digits value 2;
  char_at value 4 dash;; m ← two_digits value 5;
  char_at value 7 dash;; d ← two_digits value 8;
  Some {| year := 100 * century + y; month := m; day := d |}.

(** The digits at the head of the fraction, and then a factor ten for each
    character that the (shortened) text lacks. *)
Definition parse_fraction (value : bytes) : Z :=
  match drop 8 value with
  | "."%byte :: r =>
      let frac := take 9 r in
      u32 (u32 (scan_digits 0 frac).1 * 10 ^ (9 - blen frac))
  | _ => 0
  end.

(** The time and the fraction of a second, in nanoseconds. *)
Definition parseTimeHMS (value : bytes) : option (SQL_TIME_STRUCT * Z) :=
  h ← two_digits value 0; char_at value 2 colon;;
  m ← two_digits value 3; char_at value 5 colon;;
  s ← two_digits value 6;
  Some ({| hour := h; minute := m; second := s |}, parse_fraction value).

(** [NAME(inner)]: the trimmed [inner]. *)
Definition call_argument (name trimmed : bytes) : option bytes :=
  if starts_with (name ++ "(") trimmed && bool_decide (last trimmed = Some ")"%byte)
  then Some (trimString (removelast (drop (S (length name)) trimmed))) else None.

Definition date_of_days (days : Z) : SQL_DATE_STRUCT :=
  {| year := SQLSMALLINT (extractYear days); month := SQLUSMALLINT (extractMonth days); day := SQLUSMALLINT (extractDay days) |}.

Definition parseDateLiteral (value : bytes) : option SQL_DATE_STRUCT :=
  let trimmed := trimString value in
  match call_argument "DATE" trimmed with
  | Some inner => date_of_days <$> parseInt64 inner
  | None =>
      match parseDateYMD trimmed with
      | Some date => Some date
      | None => date_of_days <$> parseInt64 trimmed
      end
  end.

Definition time_of_micros (micros : Z) : SQL_TIME_STRUCT :=
  {| hour := SQLUSMALLINT (extractHour micros); minute := SQLUSMALLINT (extractMinute micros);
     second := SQLUSMALLINT (extractSecond micros) |}.

Definition parseTimeLiteral (value : bytes) : option SQL_TIME_STRUCT :=
  let trimmed := trimString value in
  match call_argument "TIME" trimmed with
  | Some inner => time_of_micros <$> parseInt64 inner
  | None => fst <$> parseTimeHMS trimmed
  end.

(** The parts of a time stamp, and the microseconds as unsigned nanoseconds. *)
Definition timestamp_of_micros (micros : Z) : SQL_TIMESTAMP_STRUCT :=
  {| ts_date := {| year := SQLSMALLINT (extractTimestampYear micros); month := SQLUSMALLINT (extractTimestampMonth micros);
                   day := SQLUSMALLINT (extractTimestampDay micros) |};
     ts_time := {| hour := SQLUSMALLINT (extractTimestampHour micros); minute := SQLUSMALLINT (extractTimestampMinute micros);
                   second := SQLUSMALLINT (extractTimestampSecond micros) |};
     fraction := u32 (u32 (extractTimestampMicrosecond micros) * 1000) |}.

Definition parseTimestampLiteral (value : bytes) : option SQL_TIMESTAMP_STRUCT :=
  let trimmed := trimString value in
  match call_argument "TIMESTAMP" trimmed with
  | Some inner => timestamp_of_micros <$> parseInt64 inner
  | None =>
      split ← (match find_byte " "%byte trimmed with Some i => Some i | None => find_byte "T"%byte trimmed end);
      date ← parseDateYMD (take split trimmed);
      '(time, frac) ← parseTimeHMS (drop (S split) trimmed);
      Some {| ts_date := date; ts_time := time; fraction := frac |}
  end.

Definition hex_value (ch : byte) : option Z :=
  let v := byte_val ch in
  if (48 <=? v) && (v <=? 57) then Some (v - 48)
  else if (97 <=? v) && (v <=? 102) then Some (v - 87)
  else if (65 <=? v) && (v <=? 70) then Some (v - 55)
  else None.

(** Bytes from pairs of hexadecimal digits. *)
Fixpoint pair_bytes (nibbles : list Z) : bytes :=
  match nibbles with
  | hi :: lo :: r => byte_of (Z.lor (Z.shiftl hi 4) lo) :: pair_bytes r
  | _ => []
  end.

Definition be_number (data : bytes) : Z := le_val (reverse data).

(** Everything that is no hexadecimal digit is skipped. *)
Definition parseGuidString (value : bytes) : option SQLGUID :=
  let hex := omap hex_value value in
  if negb (bool_decide (length hex = 32%nat)) then None else
  let data := pair_bytes hex in
  Some {| Data1 := be_number (take 4 data); Data2 := be_number (take 2 (drop 4 data));
          Data3 := be_number (take 2 (drop 6 data)); Data4 := drop 8 data |}.

(** ** Printed numbers *)

Lemma pretty_go_length (w : nat) : ∀ x s, (x < 10 ^ N.of_nat w)%N →
  (length (String.list_byte_of_string (pretty_N_go x s)) <= w + length (String.list_byte_of_string s))%nat.
Proof.
  induction w as [|w IH]; intros x s Hx.
  { change (10 ^ N.of_nat 0)%N with 1%N in Hx. replace x with 0%N by lia. by rewrite pretty_N_go_0. }
  destruct (decide (x = 0%N)) as [->|H0]; [rewrite pretty_N_go_0; lia|].
  rewrite pretty_N_go_step by lia.
  assert (E : ∀ c t, length (String.list_byte_of_string (String c t)) = S (length (String.list_byte_of_string t))) by done.
  etransitivity; [apply IH|rewrite E; lia].
  rewrite Nat2N.inj_succ, N.pow_succ_r' in Hx. apply N.Div0.div_lt_upper_bound. lia.
Qed.

Lemma length_dec (w : nat) z : (0 < w)%nat → 0 <= z < 10 ^ Z.of_nat w → (length (dec z) <= w)%nat.
Proof.
  intros Hw Hz. unfold dec, pretty, pretty_N. case_decide; [cbn; lia|].
  etransitivity; [apply (pretty_go_length w)|cbn; lia]. apply N2Z.inj_lt. rewrite N2Z.inj_pow, nat_N_Z, Z2N.id by lia. lia.
Qed.

Definition all_digits (s : bytes) : Prop := Forall (λ b, is_Some (digit_of b)) s.

Lemma scan_zeros n s : scan_digits 0 (replicate n "0"%byte ++ s) = scan_digits 0 s.
Proof. induction n as [|n IH]; [done|]. cbn. apply IH. Qed.

(** A number padded to [w] digits is that many digits with its value. *)
Lemma put_spec (w : nat) z : (0 < w)%nat → 0 <= z < 10 ^ Z.of_nat w →
  length (put w z) = w ∧ all_digits (put w z) ∧ ∀ t, scan_digits 0 (put w z ++ t) = scan_digits z t.
Proof.
  intros Hw Hz. unfold put, pad, to_string. guard_false. pose proof (length_dec w z Hw Hz).
  rewrite length_app, length_replicate. split_and!; [lia| |].
  - apply Forall_app. split; [|apply dec_digits]. apply Forall_replicate. by eexists.
  - intros t. rewrite <-app_assoc, scan_zeros, scan_dec by lia. done.
Qed.

Lemma put_two z : 0 <= z < 100 →
  ∃ a b x y, put 2 z = [a; b] ∧ digit_of a = Some x ∧ digit_of b = Some y ∧ 10 * x + y = z.
Proof.
  intros Hz. destruct (put_spec 2 z ltac:(lia) Hz) as (Hl & Hd & Hs). specialize (Hs []). rewrite app_nil_r in Hs.
  destruct (put 2 z) as [|a [|b [|]]]; try done. apply Forall_cons in Hd as [[x Hx] Hd]. apply Forall_cons in Hd as [[y Hy] _].
  exists a, b, x, y. split_and!; [done..|]. cbn [scan_digits] in Hs. rewrite Hx, Hy in Hs. injection Hs. lia.
Qed.

Lemma digit_of_inj a b d : digit_of a = Some d → digit_of b = Some d → a = b.
Proof.
  unfold digit_of. destruct ((0 <=? byte_val a - 48) && _); [|done]. destruct ((0 <=? byte_val b - 48) && _); [|done].
  intros [= Ha] [= Hb]. rewrite <-(byte_of_val a), <-(byte_of_val b). f_equal. lia.
Qed.

Lemma scan_app s t acc : all_digits s → scan_digits acc (s ++ t) = scan_digits (scan_digits acc s).1 t.
Proof.
  intros Hs. revert acc. induction Hs as [|b s [d Hd] Hs IH]; intros acc; [done|]. cbn [app scan_digits]. by rewrite Hd, IH.
Qed.

Lemma digits_inj s : ∀ t, all_digits s → all_digits t → length s = length t →
  (scan_digits 0 s).1 = (scan_digits 0 t).1 → s = t.
Proof.
  induction s as [|b s IH] using rev_ind; intros t Hs Ht Hl He.
  { by destruct t. }
  destruct t as [|c t _] using rev_ind; [rewrite length_app in Hl; cbn in Hl; lia|].
  rewrite !length_app in Hl. cbn in Hl. apply Forall_app in Hs as [Hs [[d Hd] _]%Forall_cons], Ht as [Ht [[e He'] _]%Forall_cons].
  rewrite !scan_app in He by done. cbn [scan_digits] in He. rewrite Hd, He' in He. cbn [fst] in He.
  pose proof (digit_of_range _ _ Hd). pose proof (digit_of_range _ _ He').
  assert ((scan_digits 0 s).1 = (scan_digits 0 t).1) by lia. assert (d = e) as -> by lia.
  rewrite (IH t) by (done || lia). by rewrite (digit_of_inj _ _ _ Hd He').
Qed.

Lemma put_four z : 0 <= z < 10000 → put 4 z = put 2 (z / 100) ++ put 2 (z mod 100).
Proof.
  intros Hz. destruct (put_spec 4 z ltac:(lia) Hz) as (Hl & Hd & Hs).
  destruct (put_spec 2 (z / 100) ltac:(lia) ltac:(split; Z.div_mod_to_equations; lia)) as (Hl1 & Hd1 & Hs1).
  destruct (put_spec 2 (z mod 100) ltac:(lia) ltac:(apply Z.mod_pos_bound; lia)) as (Hl2 & Hd2 & Hs2).
  specialize (Hs []). rewrite app_nil_r in Hs. specialize (Hs1 (put 2 (z mod 100))). specialize (Hs2 []). rewrite app_nil_r in Hs2.
  apply digits_inj; [done|by apply Forall_app|by rewrite length_app, Hl, Hl1, Hl2|].
  rewrite Hs, Hs1. cbn [scan_digits fst].
  destruct (put 2 (z mod 100)) as [|a [|b [|]]]; try done. apply Forall_cons in Hd2 as [[x Hx] Hd2]. apply Forall_cons in Hd2 as [[y Hy] _].
  cbn [scan_digits] in *. rewrite Hx, Hy in *. injection Hs2 as Hs2. cbn [fst]. Z.div_mod_to_equations. lia.
Qed.

Definition date_ok (d : SQL_DATE_STRUCT) : Prop := 0 <= year d < 10000 ∧ 0 <= month d < 100 ∧ 0 <= day d < 100.
Definition time_ok (t : SQL_TIME_STRUCT) : Prop := 0 <= hour t < 100 ∧ 0 <= minute t < 100 ∧ 0 <= second t < 100.

#[export] Instance date_ok_dec d : Decision (date_ok d).
Proof. unfold date_ok. apply _. Defined.
#[export] Instance time_ok_dec t : Decision (time_ok t).
Proof. unfold time_ok. apply _. Defined.

(** Replace the two digits printed for a field by two bytes and their values. *)
Ltac two_bytes H :=
  let a := fresh "a" in let b := fresh "b" in let x := fresh "x" in let y := fresh "y" in
  let E := fresh "E" in let Hx := fresh "Hx" in let Hy := fresh "Hy" in let Hz := fresh "Hz" in
  destruct (put_two _ H) as (a & b & x & y & E & Hx & Hy & Hz); rewrite E.

Lemma parse_put_date d r : date_ok d → parseDateYMD (formatDateStruct d ++ r) = Some d.
Proof.
  intros (Hy & Hm & Hd). unfold formatDateStruct, put_date. rewrite put_four by done.
  assert (Hc : 0 <= year d / 100 < 100) by (split; Z.div_mod_to_equations; lia).
  assert (Hr : 0 <= year d mod 100 < 100) by (apply Z.mod_pos_bound; lia).
  two_bytes Hc. two_bytes Hr. two_bytes Hm. two_bytes Hd. cbn [app].
  unfold parseDateYMD, two_digits, digit_at, char_at. cbn [lookup list_lookup mbind option_bind]. simplify_option_eq.
  destruct d as [yr mo da]. cbn [year month day] in *. do 2 f_equal; Z.div_mod_to_equations; lia.
Qed.

Lemma parse_put_time t r : time_ok t →
  parseTimeHMS (formatTimeStruct t ++ r) = Some (t, parse_fraction (replicate 8 Byte.x00 ++ r)).
Proof.
  intros (Hh & Hm & Hs). unfold formatTimeStruct, put_time. two_bytes Hh. two_bytes Hm. two_bytes Hs. cbn [app].
  unfold parseTimeHMS, two_digits, digit_at, char_at. cbn [lookup list_lookup mbind option_bind]. simplify_option_eq.
  destruct t as [ho mi se]. cbn [hour minute second] in *. do 2 f_equal. by subst.
Qed.

(** ** Texts that begin and end with a digit *)

Definition is_digit_option (o : option byte) : Prop := ∃ c d, o = Some c ∧ digit_of c = Some d.

Lemma digit_not_blank c d : digit_of c = Some d → is_trim_blank c = false.
Proof. unfold digit_of, is_trim_blank. destruct ((0 <=? _) && _) eqn:E; [|done]. intros _. lia. Qed.

Lemma digit_not_space c d : digit_of c = Some d → " "%byte ≠ c.
Proof. by intros H <-. Qed.

Lemma trim_digits s : is_digit_option (head s) → is_digit_option (last s) → trimString s = s.
Proof.
  intros (c & d & Hc & Hd) (c' & d' & Hc' & Hd'). apply trim_with_fixed.
  - intros b r ->. cbn in Hc. injection Hc as ->. by eapply digit_not_blank.
  - intros b r ->. rewrite last_snoc in Hc'. injection Hc' as ->. by eapply digit_not_blank.
Qed.

Lemma no_call name s : is_digit_option (head s) → head name ≫= digit_of = None → name ≠ [] → call_argument name s = None.
Proof.
  intros (c & d & Hc & Hd) Hn Hne. destruct name as [|n name]; [done|]. cbn in Hn. unfold call_argument, starts_with. destruct s as [|c' s]; [done|]. injection Hc as ->.
  cbn [app length take]. rewrite bool_decide_eq_false_2; [done|]. intros [= <- _]. congruence.
Qed.

Lemma date_text_shape d : date_ok d →
  is_digit_option (head (formatDateStruct d)) ∧ is_digit_option (last (formatDateStruct d)) ∧
  length (formatDateStruct d) = 10%nat ∧ " "%byte ∉ formatDateStruct d.
Proof.
  intros (Hy & Hm & Hd). unfold formatDateStruct, put_date. rewrite put_four by done.
  assert (Hc : 0 <= year d / 100 < 100) by (split; Z.div_mod_to_equations; lia).
  assert (Hr : 0 <= year d mod 100 < 100) by (apply Z.mod_pos_bound; lia).
  two_bytes Hc. two_bytes Hr. two_bytes Hm. two_bytes Hd. cbn [app]. split_and!; [by eexists _, _|by eexists _, _|done|].
  rewrite !not_elem_of_cons. split_and!; first [by eapply digit_not_space|done|apply not_elem_of_nil].
Qed.

Lemma time_text_shape t : time_ok t →
  is_digit_option (head (formatTimeStruct t)) ∧ is_digit_option (last (formatTimeStruct t)).
Proof.
  intros (Hh & Hm & Hs). unfold formatTimeStruct, put_time.
  two_bytes Hh. two_bytes Hm. two_bytes Hs. cbn [app]. split; by eexists _, _.
Qed.

(** The digits of the fraction that are printed are read. *)
Lemma parse_fraction_put micros : 0 <= micros < 1000000 →
  parse_fraction (replicate 8 Byte.x00 ++ (if 0 <? micros then "."%byte :: put 6 micros else [])) = micros * 1000.
Proof.
  intros Hm. unfold parse_fraction. rewrite drop_app_length' by done. destruct (Z.ltb_spec 0 micros) as [Hp|Hp].
  - destruct (put_spec 6 micros ltac:(lia) ltac:(done)) as (Hl & _ & Hs). specialize (Hs []). rewrite app_nil_r in Hs.
    cbv beta iota zeta. rewrite take_ge by (rewrite Hl; lia). rewrite Hl, Hs. cbn [scan_digits fst]. change (10 ^ (9 - Z.of_nat 6)) with 1000.
    unfold u32. rewrite (Z.mod_small micros) by lia. apply Z.mod_small. lia.
  - cbn. lia.
Qed.

Lemma last_app_digit s t : is_digit_option (last t) → is_digit_option (last (s ++ t)).
Proof. intros (c & d & Hc & Hd). exists c, d. split; [|done]. by rewrite last_app, Hc. Qed.

Lemma date_literal_read d : date_ok d → parseDateLiteral (formatDateStruct d) = Some d.
Proof.
  intros Hd. destruct (date_text_shape _ Hd) as (Hh & Hl & _). pose proof (parse_put_date _ [] Hd) as Ed. rewrite app_nil_r in Ed.
  unfold parseDateLiteral. by rewrite trim_digits, no_call, Ed.
Qed.

(** ** Theorems *)

(** Dates, times and time stamps passed as parameters are read back from their
    text; a time stamp keeps its microseconds. *)
Lemma datetime_literals_read ts :
  date_ok (ts_date ts) → time_ok (ts_time ts) → 0 <= fraction ts < 1000000000 →
  parseDateLiteral (formatDateStruct (ts_date ts)) = Some (ts_date ts) ∧
  parseTimeLiteral (formatTimeStruct (ts_time ts)) = Some (ts_time ts) ∧
  parseTimestampLiteral (formatTimestampStruct ts) =
    Some {| ts_date := ts_date ts; ts_time := ts_time ts; fraction := fraction ts / 1000 * 1000 |}.
Proof.
  intros Hd Ht Hf. destruct (date_text_shape _ Hd) as (Hdh & Hdl & Hd10 & Hds). destruct (time_text_shape _ Ht) as (Hth & Htl).
  pose proof (parse_put_date _ [] Hd) as Ed. rewrite app_nil_r in Ed.
  pose proof (parse_put_time _ [] Ht) as Et. rewrite app_nil_r in Et. split_and!.
  - by apply date_literal_read.
  - unfold parseTimeLiteral. rewrite trim_digits, no_call by done. by rewrite Et.
  - set (micros := fraction ts / 1000). assert (Hm : 0 <= micros < 1000000) by (unfold micros; split; Z.div_mod_to_equations; lia).
    set (F := if 0 <? micros then "."%byte :: put 6 micros else []).
    assert (Hh : is_digit_option (head (formatTimestampStruct ts))).
    { unfold formatTimestampStruct. destruct (formatDateStruct (ts_date ts)); [by destruct Hdh as (? & ? & ? & _)|done]. }
    assert (Hl : is_digit_option (last (formatTimestampStruct ts))).
    { unfold formatTimestampStruct. apply (last_app_digit _ (" "%byte :: _)), (last_app_digit [" "%byte]). fold micros. destruct (0 <? micros) eqn:E.
      - apply last_app_digit, (last_app_digit ["."%byte]). destruct (put_spec 6 micros ltac:(lia) Hm) as (Hl & Hg & _).
        destruct (put 6 micros) as [|x s _] using rev_ind; [done|]. apply Forall_app in Hg as [_ [[z Hz] _]%Forall_cons].
        exists x, z. by rewrite last_snoc.
      - by rewrite app_nil_r. }
    unfold parseTimestampLiteral. rewrite trim_digits, no_call by done. unfold formatTimestampStruct. fold micros. fold F.
    rewrite find_byte_app by done. cbn [mbind option_bind].
    rewrite take_app_length, (cons_middle " "%byte), app_assoc, drop_app_length' by (rewrite length_app; cbn; lia).
    rewrite Ed, parse_put_time by done. cbn [mbind option_bind]. do 2 f_equal. by apply parse_fraction_put.
Qed.

(** *** Identifiers *)

Definition guid_ok (g : SQLGUID) : Prop :=
  in_u32 (Data1 g) ∧ in_u16 (Data2 g) ∧ in_u16 (Data3 g) ∧ length (Data4 g) = 8%nat.

Lemma pair_hex data rest : pair_bytes (omap hex_value (hex_text data) ++ rest) = data ++ pair_bytes rest.
Proof.
  induction data as [|b data IH]; [done|]. unfold hex_text in *. rewrite bind_cons, omap_app, <-app_assoc.
  assert (Hb : ∀ l, pair_bytes (omap hex_value (hex_byte b) ++ l) = b :: pair_bytes l) by by destruct b.
  rewrite Hb, IH. done.
Qed.

Lemma length_omap_hex data : length (omap hex_value (hex_text data)) = (2 * length data)%nat.
Proof.
  induction data as [|b data IH]; [done|]. unfold hex_text in *. rewrite bind_cons, omap_app, length_app, IH.
  assert (length (omap hex_value (hex_byte b)) = 2%nat) as -> by by destruct b. cbn. lia.
Qed.

Lemma be_number_bytes n z : 0 <= z < 256 ^ Z.of_nat n → be_number (be_bytes n z) = z.
Proof. intros Hz. unfold be_number, be_bytes. rewrite reverse_involutive, le_val_le_bytes. by apply Z.mod_small. Qed.

Lemma length_be_bytes n z : length (be_bytes n z) = n.
Proof. unfold be_bytes. by rewrite length_reverse, length_le_bytes. Qed.

(** An identifier is read back from its text. *)
Lemma guid_literal_read g : guid_ok g → parseGuidString (formatGuidStruct g) = Some g.
Proof.
  intros (H1 & H2 & H3 & H4). unfold parseGuidString, formatGuidStruct, put_hex.
  assert (Hd : ∀ l, omap hex_value (dash :: l) = omap hex_value l) by done.
  rewrite !omap_app, !Hd, !omap_app, !Hd, !omap_app, !Hd, !omap_app, Hd, !length_app, !length_omap_hex, !length_be_bytes.
  rewrite length_take, length_drop, H4. cbn [Nat.mul Nat.add Nat.min Nat.sub]. rewrite bool_decide_eq_true_2 by done. cbn [negb].
  rewrite !pair_hex. rewrite <-(app_nil_r (omap _ (hex_text (drop 2 _)))), pair_hex. cbn [pair_bytes]. rewrite app_nil_r, take_drop.
  set (a := be_bytes 4 (Data1 g)). set (b := be_bytes 2 (Data2 g)). set (c := be_bytes 2 (Data3 g)).
  assert (length a = 4%nat ∧ length b = 2%nat ∧ length c = 2%nat) as (Ha & Hb & Hc) by (split_and!; apply length_be_bytes).
  rewrite (take_app_length' a) by done.
  rewrite (drop_app_length' a) by done. rewrite (take_app_length' b) by done.
  replace (drop 6 (a ++ b ++ c ++ Data4 g)) with (c ++ Data4 g) by (rewrite app_assoc, drop_app_length'; [done|by rewrite length_app, Ha, Hb]).
  rewrite (take_app_length' c) by done.
  replace (drop 8 (a ++ b ++ c ++ Data4 g)) with (Data4 g)
    by (rewrite !app_assoc, drop_app_length'; [done|by rewrite !length_app, Ha, Hb, Hc]).
  unfold a, b, c. rewrite !be_number_bytes by done. by destruct g.
Qed.

(** *** Values of the server *)

(** A date of the server reaches [SQL_C_DATE] as the date of the calendar,
    apart from 29 February, which the decoder of days turns into "March 0". *)
Theorem server_date_read days y m d :
  day_range days → civil days = (y, m, d) → 0 <= y < 10000 →
  parseDateLiteral (formatDateFromEpochDays days) =
    Some (if (m =? 2) && (d =? 29) then {| year := y; month := 3; day := if y mod 400 =? 0 then 1 else 0 |}
          else {| year := y; month := m; day := d |}).
Proof.
  intros Hd Hc Hy. destruct (daysToYMD_spec days y m d Hd Hc) as [E _].
  destruct (civil_components days y m d Hd Hc) as (Hm & Hdd & _).
  set (D := {| year := extractYear days; month := extractMonth days; day := extractDay days |}).
  change (formatDateFromEpochDays days) with (formatDateStruct D).
  assert (HD : D = if (m =? 2) && (d =? 29) then {| year := y; month := 3; day := if y mod 400 =? 0 then 1 else 0 |}
                   else {| year := y; month := m; day := d |}).
  { unfold D. destruct ((m =? 2) && (d =? 29)); by injection E as -> -> ->. }
  rewrite date_literal_read; [by f_equal|]. rewrite HD. unfold date_ok.
  destruct ((m =? 2) && (d =? 29)); cbn [year month day]; [destruct (y mod 400 =? 0)|]; lia.
Qed.

Lemma server_date_read_witness :
  parseDateLiteral (formatDateFromEpochDays 19000) = Some {| year := 2022; month := 1; day := 8 |}.
Proof. apply (server_date_read 19000 2022 1 8); [unfold day_range; lia|reflexivity|lia]. Defined.

(** ** Where it falls short *)

(** The fraction is scaled by the length of all that follows the point, not of
    its digits: with a zone after it, half a second is read as half a
    millisecond. *)
Lemma zone_suffix_shrinks_fraction :
  (fraction <$> parseTimestampLiteral "2024-01-02 03:04:05.5") = Some 500000000 ∧
  (fraction <$> parseTimestampLiteral "2024-01-02 03:04:05.5+00") = Some 500000.
Proof. split; reflexivity. Qed.

(** One microsecond before 1970 has no valid fraction. *)
Lemma timestamp_before_epoch :
  (fraction <$> parseTimestampLiteral "TIMESTAMP(-1)") = Some 4294966296.
Proof. reflexivity. Qed.
