(* ===== verification/OdbcTypes.v ===== *)
(** * ODBC driver: types, codes and tables

    The constants of [include/scratchbird/odbc/odbc_types.h] that the model uses,
    and the tables of [src/odbc_handles.cpp] and [src/odbc_client_bridge.cpp] of
    [src/tracks/p3/drivers/odbc]: SQLSTATE of a status, types of the server as SQL
    types and names, the types that [SQLGetTypeInfo] lists, and the statements
    that set attributes of a transaction. *)

From S2P Require Import Prelude.
From S2P Require Import Text.
From S2P Require Import Sqlstate.
From S2P Require Import Oids.
From S2P Require Import OdbcText.
From S2P Require Import OdbcDates.

(** ** Constants *)

Definition SQL_SUCCESS : Z := 0.
Definition SQL_SUCCESS_WITH_INFO : Z := 1.
Definition SQL_NO_DATA : Z := 100.
Definition SQL_ERROR : Z := -1.
Definition SQL_INVALID_HANDLE : Z := -2.
Definition SQL_NEED_DATA : Z := 99.
Definition SQL_UNKNOWN_TYPE : Z := 0.
Definition SQL_CHAR : Z := 1.
Definition SQL_NUMERIC : Z := 2.
Definition SQL_DECIMAL : Z := 3.
Definition SQL_INTEGER : Z := 4.
Definition SQL_SMALLINT : Z := 5.
Definition SQL_FLOAT : Z := 6.
Definition SQL_REAL : Z := 7.
Definition SQL_DOUBLE : Z := 8.
Definition SQL_VARCHAR : Z := 12.
Definition SQL_TYPE_DATE : Z := 91.
Definition SQL_TYPE_TIME : Z := 92.
Definition SQL_TYPE_TIMESTAMP : Z := 93.
Definition SQL_LONGVARCHAR : Z := -1.
Definition SQL_BINARY : Z := -2.
Definition SQL_VARBINARY : Z := -3.
Definition SQL_LONGVARBINARY : Z := -4.
Definition SQL_BIGINT : Z := -5.
Definition SQL_TINYINT : Z := -6.
Definition SQL_BIT : Z := -7.
Definition SQL_WCHAR : Z := -8.
Definition SQL_GUID : Z := -11.
Definition SQL_C_CHAR : Z := SQL_CHAR.
Definition SQL_C_WCHAR : Z := SQL_WCHAR.
Definition SQL_C_LONG : Z := SQL_INTEGER.
Definition SQL_C_SHORT : Z := SQL_SMALLINT.
Definition SQL_C_FLOAT : Z := SQL_REAL.
Definition SQL_C_DOUBLE : Z := SQL_DOUBLE.
Definition SQL_C_DEFAULT : Z := 99.
Definition SQL_SIGNED_OFFSET : Z := -20.
Definition SQL_UNSIGNED_OFFSET : Z := -22.
Definition SQL_C_DATE : Z := SQL_TYPE_DATE.
Definition SQL_C_TIME : Z := SQL_TYPE_TIME.
Definition SQL_C_TIMESTAMP : Z := SQL_TYPE_TIMESTAMP.
Definition SQL_C_BINARY : Z := SQL_BINARY.
Definition SQL_C_BIT : Z := SQL_BIT.
Definition SQL_C_UTINYINT : Z := SQL_TINYINT + SQL_UNSIGNED_OFFSET.
Definition SQL_C_SBIGINT : Z := SQL_BIGINT + SQL_SIGNED_OFFSET.
Definition SQL_C_UBIGINT : Z := SQL_BIGINT + SQL_UNSIGNED_OFFSET.
Definition SQL_C_SLONG : Z := SQL_INTEGER + SQL_SIGNED_OFFSET.
Definition SQL_C_SSHORT : Z := SQL_SMALLINT + SQL_SIGNED_OFFSET.
Definition SQL_C_ULONG : Z := SQL_INTEGER + SQL_UNSIGNED_OFFSET.
Definition SQL_C_USHORT : Z := SQL_SMALLINT + SQL_UNSIGNED_OFFSET.
Definition SQL_C_GUID : Z := SQL_GUID.
Definition SQL_NULL_DATA : Z := -1.
Definition SQL_DATA_AT_EXEC : Z := -2.
Definition SQL_NTS : Z := -3.
Definition SQL_AUTOCOMMIT_OFF : Z := 0.
Definition SQL_AUTOCOMMIT_ON : Z := 1.
Definition SQL_TXN_READ_UNCOMMITTED : Z := 1.
Definition SQL_TXN_READ_COMMITTED : Z := 2.
Definition SQL_TXN_REPEATABLE_READ : Z := 4.
Definition SQL_TXN_SERIALIZABLE : Z := 8.
Definition SQL_CURSOR_FORWARD_ONLY : Z := 0.
Definition SQL_CURSOR_STATIC : Z := 3.
Definition SQL_CONCUR_READ_ONLY : Z := 1.
Definition SQL_ROW_SUCCESS : Z := 0.
Definition SQL_ROW_DELETED : Z := 1.
Definition SQL_ROW_UPDATED : Z := 2.
Definition SQL_PARAM_SUCCESS : Z := 0.
Definition SQL_PARAM_SUCCESS_WITH_INFO : Z := 6.
Definition SQL_PARAM_ERROR : Z := 5.
Definition SQL_ROW_NOROW : Z := 3.
Definition SQL_FETCH_NEXT : Z := 1.
Definition SQL_FETCH_FIRST : Z := 2.
Definition SQL_FETCH_LAST : Z := 3.
Definition SQL_FETCH_PRIOR : Z := 4.
Definition SQL_FETCH_ABSOLUTE : Z := 5.
Definition SQL_FETCH_RELATIVE : Z := 6.
Definition SQL_FETCH_BOOKMARK : Z := 8.
Definition SQL_PARAM_INPUT : Z := 1.
Definition SQL_CLOSE : Z := 0.
Definition SQL_DROP : Z := 1.
Definition SQL_UNBIND : Z := 2.
Definition SQL_RESET_PARAMS : Z := 3.
Definition SQL_NULLABLE : Z := 1.
Definition SQL_NULLABLE_UNKNOWN : Z := 2.
Definition SQL_COMMIT : Z := 0.
Definition SQL_ROLLBACK : Z := 1.

(** ** Status codes *)

(** Every enumerator has a case. *)
Definition mapStatusToSqlState (status : Status) : bytes :=
  match status with
  | OK => "00000"
  | FILE_NOT_FOUND => "HY000"
  | FILE_EXISTS => "HY000"
  | IO_ERROR => "58030"
  | INVALID_PATH => "HY000"
  | PERMISSION_DENIED => "42501"
  | PAGE_CORRUPT | CHECKSUM_MISMATCH | INDEX_CORRUPTED | DATA_CORRUPTED => "XX001"
  | CONNECTION_FAILURE => "08001"
  | CONNECTION_DOES_NOT_EXIST => "08003"
  | PROTOCOL_VIOLATION => "08S01"
  | TOO_MANY_CONNECTIONS => "08004"
  | INVALID_PASSWORD | INVALID_AUTHORIZATION => "28000"
  | INVALID_TRANSACTION_STATE | NO_ACTIVE_TRANSACTION | TRANSACTION_ABORTED => "25000"
  | READ_ONLY_TRANSACTION => "25006"
  | DEADLOCK | LOCK_CONFLICT | SERIALIZATION_FAILURE => "40001"
  | LOCK_TIMEOUT => "HYT00"
  | CANCELLED | QUERY_CANCELED => "HY008"
  | OOM => "HY001"
  | PAGE_FULL | DISK_FULL => "53100"
  | NOT_FOUND | NO_DATA_FOUND => "02000"
  | NOT_IMPLEMENTED | NOT_SUPPORTED => "HYC00"
  | TYPE_MISMATCH | DATATYPE_MISMATCH => "22005"
  | SYNTAX_ERROR => "42000"
  | UNDEFINED_TABLE => "42S02"
  | UNDEFINED_COLUMN => "42S22"
  | UNDEFINED_FUNCTION => "42883"
  | UNDEFINED_OBJECT | INDEX_NOT_FOUND => "42704"
  | DUPLICATE_TABLE => "42S01"
  | DUPLICATE_COLUMN => "42S21"
  | DUPLICATE_OBJECT => "42710"
  | AMBIGUOUS_COLUMN | AMBIGUOUS_FUNCTION => "42702"
  | WRONG_OBJECT_TYPE => "42809"
  | INSUFFICIENT_PRIVILEGE => "42501"
  | INVALID_CURSOR_STATE | CURSOR_ALREADY_OPEN | CURSOR_NOT_OPEN => "24000"
  | INVALID_CURSOR_NAME | CURSOR_NOT_FOUND => "34000"
  | TOO_MANY_ROWS => "21000"
  | RAISE_EXCEPTION | ASSERT_FAILURE => "P0001"
  | CONSTRAINT_VIOLATION => "23000"
  | NOT_NULL_VIOLATION => "23502"
  | FOREIGN_KEY_VIOLATION => "23503"
  | UNIQUE_VIOLATION => "23505"
  | CHECK_VIOLATION => "23514"
  | EXCLUSION_VIOLATION => "23P01"
  | DIVISION_BY_ZERO => "22012"
  | NUMERIC_VALUE_OUT_OF_RANGE | OUT_OF_RANGE => "22003"
  | STRING_DATA_RIGHT_TRUNCATION => "22001"
  | DATETIME_FIELD_OVERFLOW => "22008"
  | INVALID_DATETIME_FORMAT => "22007"
  | INVALID_TEXT_REPRESENTATION => "22018"
  | NULL_VALUE_NOT_ALLOWED => "22004"
  | CONFIGURATION_LIMIT_EXCEEDED | STATEMENT_TOO_COMPLEX | TOO_MANY_COLUMNS => "54000"
  | COMPRESSION_ERROR | INTERNAL_ERROR => "HY000"
  | ADMIN_SHUTDOWN | CRASH_SHUTDOWN | DATABASE_DROPPED => "08006"
  | OBJECT_IN_USE => "55006"
  | LOCK_NOT_AVAILABLE => "55P03"
  | INVALID_ARGUMENT => "HY009"
  end.

(** ** Types of the server *)

(** The first case that lists the identifier, or the default. *)
Fixpoint oid_case {A} (type_oid : Z) (cases : list (list Z * A)) (otherwise : A) : A :=
  match cases with
  | [] => otherwise
  | (oids, a) :: cases => if bool_decide (type_oid ∈ oids) then a else oid_case type_oid cases otherwise
  end.

Definition mapTypeOid (type_oid : Z) : Z :=
  oid_case type_oid
    [([kOidBool], SQL_BIT);
     ([kOidInt2], SQL_SMALLINT);
     ([kOidInt4], SQL_INTEGER);
     ([kOidInt8], SQL_BIGINT);
     ([kOidFloat4], SQL_REAL);
     ([kOidFloat8], SQL_DOUBLE);
     ([kOidNumeric; kOidMoney], SQL_DECIMAL);
     ([kOidChar; kOidBpChar], SQL_CHAR);
     ([kOidVarchar; kOidText; kOidJson; kOidJsonb; kOidXml; kOidTsVector; kOidTsQuery; kOidRecord; kOidInt4Range; kOidNumRange; kOidTsRange; kOidTstzRange; kOidDateRange; kOidInt8Range], SQL_LONGVARCHAR);
     ([kOidBytea; kOidPoint; kOidLseg; kOidPath; kOidBox; kOidPolygon; kOidLine; kOidCircle; kOidSbVector], SQL_LONGVARBINARY);
     ([kOidDate], SQL_TYPE_DATE);
     ([kOidTime], SQL_TYPE_TIME);
     ([kOidTimestamp; kOidTimestamptz], SQL_TYPE_TIMESTAMP);
     ([kOidInterval], SQL_VARCHAR);
     ([kOidUuid], SQL_GUID);
     ([kOidInet; kOidCidr; kOidMacaddr; kOidMacaddr8], SQL_VARCHAR)] SQL_VARCHAR.

Definition typeOidToString (type_oid : Z) : bytes :=
  oid_case type_oid
    [([kOidBool], "BOOLEAN" : bytes);
     ([kOidInt2], "SMALLINT" : bytes);
     ([kOidInt4], "INTEGER" : bytes);
     ([kOidInt8], "BIGINT" : bytes);
     ([kOidFloat4], "REAL" : bytes);
     ([kOidFloat8], "DOUBLE" : bytes);
     ([kOidNumeric], "DECIMAL" : bytes);
     ([kOidMoney], "MONEY" : bytes);
     ([kOidChar], "CHAR" : bytes);
     ([kOidBpChar], "CHAR" : bytes);
     ([kOidVarchar], "VARCHAR" : bytes);
     ([kOidText], "TEXT" : bytes);
     ([kOidJson], "JSON" : bytes);
     ([kOidJsonb], "JSONB" : bytes);
     ([kOidXml], "XML" : bytes);
     ([kOidBytea], "BYTEA" : bytes);
     ([kOidDate], "DATE" : bytes);
     ([kOidTime], "TIME" : bytes);
     ([kOidTimestamp], "TIMESTAMP" : bytes);
     ([kOidTimestamptz], "TIMESTAMPTZ" : bytes);
     ([kOidInterval], "INTERVAL" : bytes);
     ([kOidUuid], "UUID" : bytes);
     ([kOidInet], "INET" : bytes);
     ([kOidCidr], "CIDR" : bytes);
     ([kOidMacaddr], "MACADDR" : bytes);
     ([kOidMacaddr8], "MACADDR8" : bytes);
     ([kOidTsVector], "TSVECTOR" : bytes);
     ([kOidTsQuery], "TSQUERY" : bytes);
     ([kOidRecord], "RECORD" : bytes);
     ([kOidInt4Range], "INT4RANGE" : bytes);
     ([kOidInt8Range], "INT8RANGE" : bytes);
     ([kOidNumRange], "NUMRANGE" : bytes);
     ([kOidTsRange], "TSRANGE" : bytes);
     ([kOidTstzRange], "TSTZRANGE" : bytes);
     ([kOidDateRange], "DATERANGE" : bytes);
     ([kOidSbVector], "VECTOR" : bytes)] "TEXT".

(** ** Types by name *)

Definition isBinarySqlType (type : Z) : bool := bool_decide (type ∈ [SQL_BINARY; SQL_VARBINARY; SQL_LONGVARBINARY]).

Definition isCharacterSqlType (type : Z) : bool := bool_decide (type ∈ [SQL_CHAR; SQL_VARCHAR; SQL_LONGVARCHAR]).

Record ParsedTypeInfo := mkTypeInfo {
  pt_sql_type : Z; pt_type_name : bytes; pt_column_size : Z; pt_decimal_digits : Z; pt_num_prec_radix : Z }.

Fixpoint name_case {A} (name : bytes) (cases : list (list bytes * A)) (otherwise : A) : A :=
  match cases with
  | [] => otherwise
  | (names, a) :: cases => if bool_decide (name ∈ names) then a else name_case name cases otherwise
  end.

Definition base_type (upper : bytes) : Z :=
  name_case upper
    [(["TINYINT" : bytes], SQL_TINYINT);
     (["SMALLINT" : bytes; "INT2" : bytes], SQL_SMALLINT);
     (["INT" : bytes; "INTEGER" : bytes; "INT4" : bytes], SQL_INTEGER);
     (["BIGINT" : bytes; "INT8" : bytes], SQL_BIGINT);
     (["FLOAT" : bytes; "REAL" : bytes; "FLOAT4" : bytes], SQL_REAL);
     (["DOUBLE" : bytes; "DOUBLE PRECISION" : bytes; "FLOAT8" : bytes], SQL_DOUBLE);
     (["DECIMAL" : bytes; "NUMERIC" : bytes; "MONEY" : bytes], SQL_DECIMAL);
     (["BOOLEAN" : bytes; "BOOL" : bytes], SQL_BIT);
     (["CHAR" : bytes; "BPCHAR" : bytes], SQL_CHAR);
     (["VARCHAR" : bytes], SQL_VARCHAR);
     (["TEXT" : bytes; "TSVECTOR" : bytes; "TSQUERY" : bytes; "RECORD" : bytes; "INT4RANGE" : bytes; "INT8RANGE" : bytes; "NUMRANGE" : bytes; "TSRANGE" : bytes; "TSTZRANGE" : bytes; "DATERANGE" : bytes; "ARRAY" : bytes; "COMPOSITE" : bytes], SQL_LONGVARCHAR);
     (["BINARY" : bytes], SQL_BINARY);
     (["VARBINARY" : bytes], SQL_VARBINARY);
     (["BLOB" : bytes; "BYTEA" : bytes; "VECTOR" : bytes; "POINT" : bytes; "LSEG" : bytes; "PATH" : bytes; "BOX" : bytes; "POLYGON" : bytes; "LINE" : bytes; "CIRCLE" : bytes; "LINESTRING" : bytes], SQL_LONGVARBINARY);
     (["DATE" : bytes], SQL_TYPE_DATE);
     (["TIME" : bytes], SQL_TYPE_TIME);
     (["TIMESTAMP" : bytes; "TIMESTAMPTZ" : bytes], SQL_TYPE_TIMESTAMP);
     (["INTERVAL" : bytes; "INET" : bytes; "CIDR" : bytes; "MACADDR" : bytes; "MACADDR8" : bytes], SQL_VARCHAR);
     (["UUID" : bytes], SQL_GUID);
     (["JSON" : bytes; "JSONB" : bytes; "XML" : bytes], SQL_LONGVARCHAR)] SQL_VARCHAR.

(** What stands between the parentheses: precision and scale. A number that is
    not read leaves zero. *)
Definition type_arguments (trimmed : bytes) : Z * Z :=
  match find_byte "("%byte trimmed with
  | None => (0, 0)
  | Some paren =>
      let after := drop (S paren) trimmed in
      let args := match find_byte ")"%byte after with None => after | Some close => take close after end in
      match find_byte ","%byte args with
      | None => (default 0 (parseUInt32 args), 0)
      | Some comma => (default 0 (parseUInt32 (take comma args)), default 0 (parseUInt32 (drop (S comma) args)))
      end
  end.

Definition parseTypeString (type_str : bytes) : ParsedTypeInfo :=
  let trimmed := trimString type_str in
  if bool_decide (trimmed = []) then mkTypeInfo SQL_VARCHAR "UNKNOWN" 0 0 0 else
  let base := trimString (match find_byte "("%byte trimmed with None => trimmed | Some paren => take paren trimmed end) in
  let upper := toUpper base in
  let '(precision, scale) := type_arguments trimmed in
  let sql_type := base_type upper in
  mkTypeInfo sql_type upper (if 0 <? precision then precision else 0)
    (if sql_type =? SQL_DECIMAL then SQLSMALLINT scale else 0)
    (if sql_type =? SQL_DECIMAL then 10
     else if bool_decide (sql_type ∈ [SQL_INTEGER; SQL_SMALLINT; SQL_TINYINT; SQL_BIGINT]) then 10
     else if isBinarySqlType sql_type then 2 else 0).

Definition sqlTypeName (type : Z) : bytes :=
  oid_case type
    [([SQL_CHAR], "CHAR" : bytes); ([SQL_VARCHAR], "VARCHAR" : bytes); ([SQL_LONGVARCHAR], "LONGVARCHAR" : bytes); ([SQL_TINYINT], "TINYINT" : bytes); ([SQL_SMALLINT], "SMALLINT" : bytes); ([SQL_INTEGER], "INTEGER" : bytes); ([SQL_BIGINT], "BIGINT" : bytes); ([SQL_DECIMAL], "DECIMAL" : bytes); ([SQL_NUMERIC], "NUMERIC" : bytes); ([SQL_REAL], "REAL" : bytes); ([SQL_DOUBLE], "DOUBLE" : bytes); ([SQL_BIT], "BIT" : bytes); ([SQL_BINARY], "BINARY" : bytes); ([SQL_VARBINARY], "VARBINARY" : bytes); ([SQL_LONGVARBINARY], "LONGVARBINARY" : bytes); ([SQL_TYPE_DATE], "DATE" : bytes); ([SQL_TYPE_TIME], "TIME" : bytes); ([SQL_TYPE_TIMESTAMP], "TIMESTAMP" : bytes); ([SQL_GUID], "GUID" : bytes)] "UNKNOWN".

(** ** [SQLGetTypeInfo] *)

Record TypeInfoEntry := mkEntry {
  ti_type_name : bytes; ti_data_type : Z; ti_column_size : Z; ti_literal_prefix : bytes; ti_literal_suffix : bytes;
  ti_create_params : bytes; ti_nullable : Z; ti_case_sensitive : Z; ti_searchable : Z; ti_unsigned_attr : Z;
  ti_fixed_prec_scale : Z; ti_auto_unique : Z; ti_local_type_name : bytes; ti_min_scale : Z; ti_max_scale : Z;
  ti_sql_data_type : Z; ti_sql_datetime_sub : Z; ti_num_prec_radix : Z; ti_interval_precision : Z }.

Definition kTypeInfoEntries : list TypeInfoEntry :=
  [mkEntry "CHAR" SQL_CHAR 255 "'" "'" "length" SQL_NULLABLE 1 3 0 0 0 "CHAR" 0 0 SQL_CHAR 0 0 0;
   mkEntry "VARCHAR" SQL_VARCHAR 65535 "'" "'" "length" SQL_NULLABLE 1 3 0 0 0 "VARCHAR" 0 0 SQL_VARCHAR 0 0 0;
   mkEntry "TEXT" SQL_LONGVARCHAR 2147483647 "'" "'" [] SQL_NULLABLE 1 3 0 0 0 "TEXT" 0 0 SQL_LONGVARCHAR 0 0 0;
   mkEntry "JSON" SQL_LONGVARCHAR 2147483647 "'" "'" [] SQL_NULLABLE 1 3 0 0 0 "JSON" 0 0 SQL_LONGVARCHAR 0 0 0;
   mkEntry "JSONB" SQL_LONGVARCHAR 2147483647 "'" "'" [] SQL_NULLABLE 1 3 0 0 0 "JSONB" 0 0 SQL_LONGVARCHAR 0 0 0;
   mkEntry "XML" SQL_LONGVARCHAR 2147483647 "'" "'" [] SQL_NULLABLE 1 3 0 0 0 "XML" 0 0 SQL_LONGVARCHAR 0 0 0;
   mkEntry "TSVECTOR" SQL_LONGVARCHAR 2147483647 "'" "'" [] SQL_NULLABLE 1 3 0 0 0 "TSVECTOR" 0 0 SQL_LONGVARCHAR 0 0 0;
   mkEntry "TSQUERY" SQL_LONGVARCHAR 2147483647 "'" "'" [] SQL_NULLABLE 1 3 0 0 0 "TSQUERY" 0 0 SQL_LONGVARCHAR 0 0 0;
   mkEntry "RECORD" SQL_LONGVARCHAR 2147483647 "'" "'" [] SQL_NULLABLE 1 3 0 0 0 "RECORD" 0 0 SQL_LONGVARCHAR 0 0 0;
   mkEntry "INT4RANGE" SQL_LONGVARCHAR 2147483647 "'" "'" [] SQL_NULLABLE 1 3 0 0 0 "INT4RANGE" 0 0 SQL_LONGVARCHAR 0 0 0;
   mkEntry "INT8RANGE" SQL_LONGVARCHAR 2147483647 "'" "'" [] SQL_NULLABLE 1 3 0 0 0 "INT8RANGE" 0 0 SQL_LONGVARCHAR 0 0 0;
   mkEntry "NUMRANGE" SQL_LONGVARCHAR 2147483647 "'" "'" [] SQL_NULLABLE 1 3 0 0 0 "NUMRANGE" 0 0 SQL_LONGVARCHAR 0 0 0;
   mkEntry "TSRANGE" SQL_LONGVARCHAR 2147483647 "'" "'" [] SQL_NULLABLE 1 3 0 0 0 "TSRANGE" 0 0 SQL_LONGVARCHAR 0 0 0;
   mkEntry "TSTZRANGE" SQL_LONGVARCHAR 2147483647 "'" "'" [] SQL_NULLABLE 1 3 0 0 0 "TSTZRANGE" 0 0 SQL_LONGVARCHAR 0 0 0;
   mkEntry "DATERANGE" SQL_LONGVARCHAR 2147483647 "'" "'" [] SQL_NULLABLE 1 3 0 0 0 "DATERANGE" 0 0 SQL_LONGVARCHAR 0 0 0;
   mkEntry "BINARY" SQL_BINARY 255 "0x" [] "length" SQL_NULLABLE 0 3 0 0 0 "BINARY" 0 0 SQL_BINARY 0 0 0;
   mkEntry "VARBINARY" SQL_VARBINARY 65535 "0x" [] "length" SQL_NULLABLE 0 3 0 0 0 "VARBINARY" 0 0 SQL_VARBINARY 0 0 0;
   mkEntry "BLOB" SQL_LONGVARBINARY 2147483647 "0x" [] [] SQL_NULLABLE 0 3 0 0 0 "BLOB" 0 0 SQL_LONGVARBINARY 0 0 0;
   mkEntry "BYTEA" SQL_LONGVARBINARY 2147483647 "0x" [] [] SQL_NULLABLE 0 3 0 0 0 "BYTEA" 0 0 SQL_LONGVARBINARY 0 0 0;
   mkEntry "POINT" SQL_LONGVARBINARY 2147483647 "0x" [] [] SQL_NULLABLE 0 3 0 0 0 "POINT" 0 0 SQL_LONGVARBINARY 0 0 0;
   mkEntry "LSEG" SQL_LONGVARBINARY 2147483647 "0x" [] [] SQL_NULLABLE 0 3 0 0 0 "LSEG" 0 0 SQL_LONGVARBINARY 0 0 0;
   mkEntry "PATH" SQL_LONGVARBINARY 2147483647 "0x" [] [] SQL_NULLABLE 0 3 0 0 0 "PATH" 0 0 SQL_LONGVARBINARY 0 0 0;
   mkEntry "BOX" SQL_LONGVARBINARY 2147483647 "0x" [] [] SQL_NULLABLE 0 3 0 0 0 "BOX" 0 0 SQL_LONGVARBINARY 0 0 0;
   mkEntry "POLYGON" SQL_LONGVARBINARY 2147483647 "0x" [] [] SQL_NULLABLE 0 3 0 0 0 "POLYGON" 0 0 SQL_LONGVARBINARY 0 0 0;
   mkEntry "LINE" SQL_LONGVARBINARY 2147483647 "0x" [] [] SQL_NULLABLE 0 3 0 0 0 "LINE" 0 0 SQL_LONGVARBINARY 0 0 0;
   mkEntry "CIRCLE" SQL_LONGVARBINARY 2147483647 "0x" [] [] SQL_NULLABLE 0 3 0 0 0 "CIRCLE" 0 0 SQL_LONGVARBINARY 0 0 0;
   mkEntry "VECTOR" SQL_LONGVARBINARY 2147483647 "0x" [] [] SQL_NULLABLE 0 3 0 0 0 "VECTOR" 0 0 SQL_LONGVARBINARY 0 0 0;
   mkEntry "BOOLEAN" SQL_BIT 1 [] [] [] SQL_NULLABLE 0 3 0 0 0 "BOOLEAN" 0 0 SQL_BIT 0 0 0;
   mkEntry "TINYINT" SQL_TINYINT 3 [] [] [] SQL_NULLABLE 0 3 0 0 0 "TINYINT" 0 0 SQL_TINYINT 0 10 0;
   mkEntry "SMALLINT" SQL_SMALLINT 5 [] [] [] SQL_NULLABLE 0 3 0 0 0 "SMALLINT" 0 0 SQL_SMALLINT 0 10 0;
   mkEntry "INTEGER" SQL_INTEGER 10 [] [] [] SQL_NULLABLE 0 3 0 0 0 "INTEGER" 0 0 SQL_INTEGER 0 10 0;
   mkEntry "BIGINT" SQL_BIGINT 19 [] [] [] SQL_NULLABLE 0 3 0 0 0 "BIGINT" 0 0 SQL_BIGINT 0 10 0;
   mkEntry "DECIMAL" SQL_DECIMAL 38 [] [] "precision,scale" SQL_NULLABLE 0 3 0 0 0 "DECIMAL" 0 9 SQL_DECIMAL 0 10 0;
   mkEntry "NUMERIC" SQL_NUMERIC 38 [] [] "precision,scale" SQL_NULLABLE 0 3 0 0 0 "NUMERIC" 0 9 SQL_NUMERIC 0 10 0;
   mkEntry "MONEY" SQL_DECIMAL 19 [] [] [] SQL_NULLABLE 0 3 0 1 0 "MONEY" 2 2 SQL_DECIMAL 0 10 0;
   mkEntry "REAL" SQL_REAL 7 [] [] [] SQL_NULLABLE 0 3 0 0 0 "REAL" 0 0 SQL_REAL 0 2 0;
   mkEntry "FLOAT" SQL_FLOAT 15 [] [] [] SQL_NULLABLE 0 3 0 0 0 "FLOAT" 0 0 SQL_FLOAT 0 2 0;
   mkEntry "DOUBLE" SQL_DOUBLE 15 [] [] [] SQL_NULLABLE 0 3 0 0 0 "DOUBLE" 0 0 SQL_DOUBLE 0 2 0;
   mkEntry "INET" SQL_VARCHAR 64 "'" "'" [] SQL_NULLABLE 1 3 0 0 0 "INET" 0 0 SQL_VARCHAR 0 0 0;
   mkEntry "CIDR" SQL_VARCHAR 64 "'" "'" [] SQL_NULLABLE 1 3 0 0 0 "CIDR" 0 0 SQL_VARCHAR 0 0 0;
   mkEntry "MACADDR" SQL_VARCHAR 32 "'" "'" [] SQL_NULLABLE 1 3 0 0 0 "MACADDR" 0 0 SQL_VARCHAR 0 0 0;
   mkEntry "MACADDR8" SQL_VARCHAR 32 "'" "'" [] SQL_NULLABLE 1 3 0 0 0 "MACADDR8" 0 0 SQL_VARCHAR 0 0 0;
   mkEntry "DATE" SQL_TYPE_DATE 10 "'" "'" [] SQL_NULLABLE 0 3 0 0 0 "DATE" 0 0 SQL_TYPE_DATE 0 0 0;
   mkEntry "TIME" SQL_TYPE_TIME 8 "'" "'" [] SQL_NULLABLE 0 3 0 0 0 "TIME" 0 0 SQL_TYPE_TIME 0 0 0;
   mkEntry "TIMESTAMP" SQL_TYPE_TIMESTAMP 26 "'" "'" [] SQL_NULLABLE 0 3 0 0 0 "TIMESTAMP" 0 6 SQL_TYPE_TIMESTAMP 0 0 0;
   mkEntry "TIMESTAMPTZ" SQL_TYPE_TIMESTAMP 35 "'" "'" [] SQL_NULLABLE 0 3 0 0 0 "TIMESTAMPTZ" 0 6 SQL_TYPE_TIMESTAMP 0 0 0;
   mkEntry "INTERVAL" SQL_VARCHAR 64 "'" "'" [] SQL_NULLABLE 1 3 0 0 0 "INTERVAL" 0 0 SQL_VARCHAR 0 0 0;
   mkEntry "UUID" SQL_GUID 36 "'" "'" [] SQL_NULLABLE 0 3 0 0 0 "UUID" 0 0 SQL_GUID 0 0 0].

(** A row of the result. *)
Definition type_info_row (entry : TypeInfoEntry) : list bytes :=
  [ti_type_name entry; to_string (ti_data_type entry); to_string (ti_column_size entry); ti_literal_prefix entry;
   ti_literal_suffix entry; ti_create_params entry; to_string (ti_nullable entry); to_string (ti_case_sensitive entry);
   to_string (ti_searchable entry); to_string (ti_unsigned_attr entry); to_string (ti_fixed_prec_scale entry);
   to_string (ti_auto_unique entry); ti_local_type_name entry; to_string (ti_min_scale entry); to_string (ti_max_scale entry);
   to_string (ti_sql_data_type entry); to_string (ti_sql_datetime_sub entry); to_string (ti_num_prec_radix entry);
   to_string (ti_interval_precision entry)].

Definition type_info_rows (data_type : Z) : list (list bytes) :=
  type_info_row <$> filter (λ entry, data_type = SQL_UNKNOWN_TYPE ∨ ti_data_type entry = data_type) kTypeInfoEntries.

(** ** Columns *)

Record ColumnMetadata := mkColumnMetadata {
  name : bytes; type_name : bytes; table_name : bytes; schema_name : bytes; catalog_name : bytes; label : bytes;
  sql_type : Z; column_size : Z; col_decimal_digits : Z; nullable : Z;
  unsigned_flag : bool; auto_increment : bool; case_sensitive : bool; searchable : Z; display_size : Z; octet_length : Z }.

(** The fields that are not given have their initial values. *)
Definition mkColumn (name type_name : bytes) (sql_type column_size nullable : Z) : ColumnMetadata :=
  mkColumnMetadata name type_name [] [] [] [] sql_type column_size 0 nullable false false true 2 0 0.

Definition makeCatalogColumn (name : bytes) (type size : Z) : ColumnMetadata :=
  mkColumn name (sqlTypeName type) type size SQL_NULLABLE.

Definition type_info_columns : list ColumnMetadata :=
  [makeCatalogColumn "TYPE_NAME" SQL_VARCHAR 64;
   makeCatalogColumn "DATA_TYPE" SQL_SMALLINT 0;
   makeCatalogColumn "COLUMN_SIZE" SQL_INTEGER 0;
   makeCatalogColumn "LITERAL_PREFIX" SQL_VARCHAR 32;
   makeCatalogColumn "LITERAL_SUFFIX" SQL_VARCHAR 32;
   makeCatalogColumn "CREATE_PARAMS" SQL_VARCHAR 32;
   makeCatalogColumn "NULLABLE" SQL_SMALLINT 0;
   makeCatalogColumn "CASE_SENSITIVE" SQL_SMALLINT 0;
   makeCatalogColumn "SEARCHABLE" SQL_SMALLINT 0;
   makeCatalogColumn "UNSIGNED_ATTRIBUTE" SQL_SMALLINT 0;
   makeCatalogColumn "FIXED_PREC_SCALE" SQL_SMALLINT 0;
   makeCatalogColumn "AUTO_UNIQUE_VALUE" SQL_SMALLINT 0;
   makeCatalogColumn "LOCAL_TYPE_NAME" SQL_VARCHAR 64;
   makeCatalogColumn "MINIMUM_SCALE" SQL_SMALLINT 0;
   makeCatalogColumn "MAXIMUM_SCALE" SQL_SMALLINT 0;
   makeCatalogColumn "SQL_DATA_TYPE" SQL_SMALLINT 0;
   makeCatalogColumn "SQL_DATETIME_SUB" SQL_SMALLINT 0;
   makeCatalogColumn "NUM_PREC_RADIX" SQL_SMALLINT 0;
   makeCatalogColumn "INTERVAL_PRECISION" SQL_SMALLINT 0].

(** ** Rules of foreign keys and kinds of routines *)

Definition kOdbcFkCascade : Z := 0.
Definition kOdbcFkRestrict : Z := 1.
Definition kOdbcFkSetNull : Z := 2.
Definition kOdbcFkNoAction : Z := 3.
Definition kOdbcFkSetDefault : Z := 4.
Definition kOdbcNotDeferrable : Z := 7.
Definition kOdbcInitiallyDeferred : Z := 5.
Definition kOdbcInitiallyImmediate : Z := 6.

Definition mapFkRuleToOdbc (value : bytes) : Z :=
  match parseInt64 value with
  | Some numeric =>
      oid_case numeric [([0], kOdbcFkNoAction); ([1], kOdbcFkRestrict); ([2], kOdbcFkCascade); ([3], kOdbcFkSetNull);
                        ([4], kOdbcFkSetDefault)] kOdbcFkNoAction
  | None =>
      name_case (toUpper (trimString value))
        [(["CASCADE" : bytes], kOdbcFkCascade); (["RESTRICT" : bytes], kOdbcFkRestrict);
         (["SET NULL" : bytes; "SET_NULL" : bytes], kOdbcFkSetNull);
         (["SET DEFAULT" : bytes; "SET_DEFAULT" : bytes], kOdbcFkSetDefault);
         (["NO ACTION" : bytes; "NO_ACTION" : bytes], kOdbcFkNoAction)] kOdbcFkNoAction
  end.

Definition mapDeferrabilityToOdbc (value : bytes) : Z :=
  name_case (toUpper (trimString value))
    [(["INITIALLY DEFERRED" : bytes; "DEFERRED" : bytes], kOdbcInitiallyDeferred);
     (["INITIALLY IMMEDIATE" : bytes; "IMMEDIATE" : bytes], kOdbcInitiallyImmediate);
     (["NOT DEFERRABLE" : bytes; "NOT_DEFERRABLE" : bytes], kOdbcNotDeferrable)] kOdbcNotDeferrable.

Definition kOdbcProcedureTypeUnknown : Z := 0.
Definition kOdbcProcedureTypeProcedure : Z := 1.
Definition kOdbcProcedureTypeFunction : Z := 2.

Definition parseProcedureType (routine_type : bytes) : Z :=
  let raw := toUpper (trimString routine_type) in
  match (if bool_decide (raw = []) then None else parseInt64 raw) with
  | Some numeric_type =>
      if numeric_type =? 1 then kOdbcProcedureTypeFunction
      else if numeric_type =? 0 then kOdbcProcedureTypeProcedure
      else kOdbcProcedureTypeUnknown
  | None =>
      name_case raw [(["PROCEDURE" : bytes; "PROC" : bytes], kOdbcProcedureTypeProcedure);
                     (["FUNCTION" : bytes; "FUNC" : bytes], kOdbcProcedureTypeFunction)] kOdbcProcedureTypeUnknown
  end.

Definition kOdbcProcedureColumnTypeUnknown : Z := 0.
Definition kOdbcProcedureColumnInput : Z := 1.
Definition kOdbcProcedureColumnInputOutput : Z := 2.
Definition kOdbcProcedureColumnOutput : Z := 4.
Definition kOdbcProcedureColumnReturn : Z := 5.

Definition parseProcedureColumnMode (mode : bytes) : Z :=
  let normalized := toUpper (trimString mode) in
  if bool_decide (normalized = []) then kOdbcProcedureColumnTypeUnknown else
  match parseInt64 normalized with
  | Some numeric_mode =>
      if bool_decide (numeric_mode ∈ [kOdbcProcedureColumnInput; kOdbcProcedureColumnInputOutput;
                                      kOdbcProcedureColumnOutput; kOdbcProcedureColumnReturn])
      then numeric_mode else kOdbcProcedureColumnTypeUnknown
  | None =>
      if contains "INOUT" normalized then kOdbcProcedureColumnInputOutput
      else name_case normalized
        [(["IN" : bytes], kOdbcProcedureColumnInput); (["OUT" : bytes], kOdbcProcedureColumnOutput);
         (["IN OUT" : bytes; "OUTPUT" : bytes], kOdbcProcedureColumnOutput); (["RETURN" : bytes], kOdbcProcedureColumnReturn)]
        kOdbcProcedureColumnTypeUnknown
  end.

(** ** Attributes of transactions *)

Definition buildAutocommitSql (mode : Z) : bytes :=
  if mode =? SQL_AUTOCOMMIT_ON then "SET AUTOCOMMIT ON ON CONFLICT COMMIT" else "SET AUTOCOMMIT OFF ON CONFLICT KEEP".

(** One bit must be set. *)
Definition buildIsolationSql (isolation : Z) : option bytes :=
  if (isolation =? 0) || negb (Z.land isolation (u32 (isolation - 1)) =? 0) then None
  else if isolation =? SQL_TXN_READ_UNCOMMITTED then Some ("SET TRANSACTION ISOLATION LEVEL READ UNCOMMITTED ON CONFLICT COMMIT" : bytes)
  else if isolation =? SQL_TXN_READ_COMMITTED then Some ("SET TRANSACTION ISOLATION LEVEL READ COMMITTED ON CONFLICT COMMIT" : bytes)
  else if isolation =? SQL_TXN_REPEATABLE_READ then Some ("SET TRANSACTION ISOLATION LEVEL REPEATABLE READ ON CONFLICT COMMIT" : bytes)
  else if isolation =? SQL_TXN_SERIALIZABLE then Some ("SET TRANSACTION ISOLATION LEVEL SERIALIZABLE ON CONFLICT COMMIT" : bytes)
  else None.

(** ** Theorems *)

(** Everything but success has a state of five characters that says so. *)
Lemma error_states status : length (mapStatusToSqlState status) = 5%nat ∧
  (mapStatusToSqlState status = "00000" ↔ status = OK).
Proof. destruct status; by repeat split. Qed.

(** The types of the server whose name, parsed, is the type they are reported
    with; the others are named [TEXT], or are longer than their name. *)
Definition known_oids : list Z :=
  [kOidBool; kOidInt2; kOidInt4; kOidInt8; kOidFloat4; kOidFloat8; kOidNumeric; kOidMoney; kOidChar; kOidBpChar;
   kOidVarchar; kOidText; kOidJson; kOidJsonb; kOidXml; kOidBytea; kOidDate; kOidTime; kOidTimestamp; kOidTimestamptz;
   kOidInterval; kOidUuid; kOidInet; kOidCidr; kOidMacaddr; kOidMacaddr8; kOidTsVector; kOidTsQuery; kOidRecord;
   kOidInt4Range; kOidInt8Range; kOidNumRange; kOidTsRange; kOidTstzRange; kOidDateRange; kOidSbVector;
   kOidPoint; kOidLseg; kOidPath; kOidBox; kOidPolygon; kOidLine; kOidCircle].

Lemma type_names_agree :
  filter (λ oid, pt_sql_type (parseTypeString (typeOidToString oid)) ≠ mapTypeOid oid) known_oids =
  [kOidVarchar; kOidPoint; kOidLseg; kOidPath; kOidBox; kOidPolygon; kOidLine; kOidCircle].
Proof. vm_compute. reflexivity. Qed.

(** Two types of [SQLGetTypeInfo] are not the types that columns with their name
    are reported with. *)
Lemma type_info_agrees :
  ti_type_name <$> filter (λ e, pt_sql_type (parseTypeString (ti_type_name e)) ≠ ti_data_type e) kTypeInfoEntries =
  ["NUMERIC" : bytes; "FLOAT" : bytes].
Proof. vm_compute. reflexivity. Qed.
