(* ===== verification/OdbcRun.v ===== *)
(** * ODBC driver: memory and executions

    The handles of the ODBC driver read and write buffers of the application:
    memory is a list of blocks, and an access outside of every block is
    undefined. Operations are computations over a state that may also throw an
    exception, or run out of the fuel of the message loops. *)

From S2P Require Import Prelude.

(** ** Memory *)

Record block := mkBlock { base : Z; cells : bytes }.

Definition memory := list block.

Definition inside (addr n : Z) (b : block) : bool := (base b <=? addr) && (addr + n <=? base b + blen (cells b)).

Definition stored (addr : Z) (data : bytes) (b : block) : block :=
  let i := Z.to_nat (addr - base b) in
  mkBlock (base b) (take i (cells b) ++ data ++ drop (i + length data) (cells b)).

Fixpoint read_bytes (m : memory) (addr n : Z) : option bytes :=
  match m with
  | [] => None
  | b :: m => if inside addr n b then Some (take (Z.to_nat n) (drop (Z.to_nat (addr - base b)) (cells b))) else read_bytes m addr n
  end.

Fixpoint write_bytes (m : memory) (addr : Z) (data : bytes) : option memory :=
  match m with
  | [] => None
  | b :: m => if inside addr (blen data) b then Some (stored addr data b :: m) else (b ::.) <$> write_bytes m addr data
  end.

(** The C string at an address. *)
Fixpoint before_nul (s : bytes) : option bytes :=
  match s with
  | [] => None
  | b :: r => if bool_decide (b = Byte.x00) then Some [] else (b ::.) <$> before_nul r
  end.

Fixpoint read_string (m : memory) (addr : Z) : option bytes :=
  match m with
  | [] => None
  | b :: m => if inside addr 1 b then before_nul (drop (Z.to_nat (addr - base b)) (cells b)) else read_string m addr
  end.

(** ** Executions *)

Inductive result (W A : Type) :=
  | Returns (a : A) (w : W)
  | Undefined
  | Throws
  | NoFuel.
Arguments Returns {W A}.
Arguments Undefined {W A}.
Arguments Throws {W A}.
Arguments NoFuel {W A}.

Definition prog (W A : Type) : Type := W → result W A.

#[export] Instance prog_ret W : MRet (prog W) := λ A a w, Returns a w.
#[export] Instance prog_bind W : MBind (prog W) := λ A B f m w,
  match m w with
  | Returns a w => f a w
  | Undefined => Undefined
  | Throws => Throws
  | NoFuel => NoFuel
  end.

Definition reads {W A} (f : W → A) : prog W A := λ w, Returns (f w) w.
Definition update {W} (f : W → W) : prog W unit := λ w, Returns tt (f w).
Definition undefined {W A} : prog W A := λ _, Undefined.
Definition throws {W A} : prog W A := λ _, Throws.

(** [None] is an access outside of memory. *)
Definition access {W A} (o : option A) : prog W A := match o with Some a => mret a | None => undefined end.

(** [None] is an exception. *)
Definition or_throw {W A} (o : option A) : prog W A := match o with Some a => mret a | None => throws end.

(** A computation on a part of the state. *)
Definition zoom {W V A} (get : W → V) (put : V → W → W) (m : prog V A) : prog W A := λ w,
  match m (get w) with
  | Returns a v => Returns a (put v w)
  | Undefined => Undefined
  | Throws => Throws
  | NoFuel => NoFuel
  end.

Lemma run_bind {W A B} (m : prog W A) (f : A → prog W B) w a w' : m w = Returns a w' → (m ≫= f) w = f a w'.
Proof. unfold mbind, prog_bind. by intros ->. Qed.

(** ** Lemmas on memory *)

Lemma length_stored addr data b : inside addr (blen data) b = true → length (cells (stored addr data b)) = length (cells b).
Proof. unfold inside, stored. intros H. cbn. rewrite !length_app, length_take, length_drop. lia. Qed.

(** What is written is read back, and nothing else of the memory changes. *)
Lemma read_written m addr data m' : write_bytes m addr data = Some m' → read_bytes m' addr (blen data) = Some data.
Proof.
  revert m'. induction m as [|b m IH]; [done|]. intros m'. cbn [write_bytes].
  destruct (inside addr (blen data) b) eqn:Hi.
  - intros [= <-]. cbn [read_bytes]. pose proof (length_stored _ _ _ Hi) as Hl.
    replace (inside addr (blen data) (stored addr data b)) with true by (unfold inside in *; cbn [base stored] in *; rewrite Hl; lia).
    f_equal. unfold inside, stored in *. cbn [base cells].
    rewrite drop_app_length' by (rewrite length_take; lia). by rewrite Nat2Z.id, take_app_length.
  - destruct (write_bytes m addr data) as [m1|]; [|done]. intros [= <-]. cbn [read_bytes]. rewrite Hi. by apply IH.
Qed.

Lemma write_succeeds m addr data d : read_bytes m addr (blen data) = Some d → is_Some (write_bytes m addr data).
Proof.
  induction m as [|b m IH]; [done|]. cbn [read_bytes write_bytes]. destruct (inside _ _ _); [by eexists|].
  intros H. destruct (IH H) as [m' ->]. by eexists.
Qed.

Lemma read_succeeds m addr n k : 0 <= k <= n → is_Some (read_bytes m addr n) → is_Some (read_bytes m addr k).
Proof.
  intros Hk. induction m as [|b m IH]; [by intros [? ?]|]. cbn [read_bytes]. intros [d H].
  destruct (inside addr k b) eqn:E; [by eexists|]. destruct (inside addr n b) eqn:E'; [unfold inside in *; lia|].
  apply IH. by eexists.
Qed.

Lemma inside_stored a n addr data b :
  inside addr (blen data) b = true → inside a n (stored addr data b) = inside a n b.
Proof. intros H. unfold inside. rewrite length_stored by done. done. Qed.

(** What does not overlap the written bytes reads as before. *)
Lemma read_frame m addr data m' a n :
  write_bytes m addr data = Some m' → 0 <= n → a + n <= addr ∨ addr + blen data <= a → read_bytes m' a n = read_bytes m a n.
Proof.
  intros H Hn Hd. revert m' H. induction m as [|b m IH]; [done|]. intros m'. cbn [write_bytes].
  destruct (inside addr (blen data) b) eqn:Hi.
  - intros [= <-]. cbn [read_bytes]. rewrite inside_stored by done. destruct (inside a n b) eqn:Ha; [|done]. f_equal.
    unfold inside, stored in *. cbn [cells base]. set (i := Z.to_nat (addr - base b)). set (j := Z.to_nat (a - base b)).
    destruct Hd as [Hd|Hd].
    + assert (Hk : (j + Z.to_nat n <= i)%nat) by lia.
      rewrite drop_app_le by (rewrite length_take; lia). rewrite take_app_le by (rewrite length_drop, length_take; lia).
      rewrite <-(take_drop i (cells b)) at 2. rewrite drop_app_le by (rewrite length_take; lia).
      by rewrite take_app_le by (rewrite length_drop, length_take; lia).
    + assert (Hk : (i + length data <= j)%nat) by lia.
      rewrite !app_assoc, drop_app_ge by (rewrite length_app, length_take; lia).
      rewrite length_app, length_take, Nat.min_l by lia. rewrite drop_drop. do 2 f_equal. lia.
  - destruct (write_bytes m addr data) as [m1|]; [|done]. intros [= <-]. cbn [read_bytes]. destruct (inside a n b); [done|]. by apply IH.
Qed.

Lemma write_keeps_readable m addr data m' a n :
  write_bytes m addr data = Some m' → is_Some (read_bytes m a n) → is_Some (read_bytes m' a n).
Proof.
  revert m'. induction m as [|b m IH]; [done|]. intros m'. cbn [write_bytes]. destruct (inside addr (blen data) b) eqn:Hi.
  - intros [= <-]. cbn [read_bytes]. rewrite inside_stored by done. destruct (inside a n b); [by eexists|done].
  - destruct (write_bytes m addr data) as [m1|]; [|done]. intros [= <-]. cbn [read_bytes]. destruct (inside a n b); [done|]. by apply IH.
Qed.

Lemma read_length m addr n d : 0 <= n → read_bytes m addr n = Some d → blen d = n.
Proof.
  intros Hn. induction m as [|b m IH]; [done|]. cbn [read_bytes]. destruct (inside addr n b) eqn:E; [|done].
  intros [= <-]. unfold inside in E. rewrite length_take, length_drop. lia.
Qed.

(** ** Reasoning about executions *)

(** The outcome of a run: a state that it returns in satisfies [Q], and undefined
    behaviour happens only if [U]. *)
Definition post {W A} (U : Prop) (m : prog W A) (w : W) (Q : A → W → Prop) : Prop :=
  match m w with Returns a w => Q a w | Undefined => U | Throws | NoFuel => True end.

Lemma post_bind {W A B} U (m : prog W A) (f : A → prog W B) w Q R :
  post U m w Q → (∀ a w, Q a w → post U (f a) w R) → post U (m ≫= f) w R.
Proof. unfold post, mbind, prog_bind. destruct (m w) as [a w'| | |]; try done. intros H Hf. by apply Hf. Qed.

Lemma post_weaken {W A} U (m : prog W A) w (Q R : A → W → Prop) : post U m w Q → (∀ a w, Q a w → R a w) → post U m w R.
Proof. unfold post. destruct (m w); auto. Qed.

Definition keeps {W A} (U : Prop) (I : W → Prop) (m : prog W A) : Prop := ∀ w, I w → post U m w (λ _, I).

Lemma kept_bind {W A B} (U : Prop) (I : W → Prop) (m : prog W A) (f : A → prog W B) :
  keeps U I m → (∀ a, keeps U I (f a)) → keeps U I (m ≫= f).
Proof. intros Hm Hf w Hw. eapply post_bind; [by apply Hm|]. intros a w' Hw'. by apply Hf. Qed.

Lemma kept_ret {W A} U (I : W → Prop) (a : A) : keeps U I (mret a).
Proof. by intros w Hw. Qed.

Lemma kept_access {W A} (I : W → Prop) (o : option A) : keeps True I (access o).
Proof. by intros w Hw; destruct o. Qed.

Lemma kept_or_throw {W A} U (I : W → Prop) (o : option A) : keeps U I (or_throw o).
Proof. by intros w Hw; destruct o. Qed.

Lemma kept_throws {W A} U (I : W → Prop) : keeps U I (throws : prog W A).
Proof. by intros w Hw. Qed.

(** A computation on a part that the invariant does not look at. *)
Lemma kept_zoom {W V A} (I : W → Prop) (get : W → V) put (m : prog V A) :
  (∀ v w, I w → I (put v w)) → keeps True I (zoom get put m).
Proof. intros H w Hw. unfold post, zoom. destruct (m (get w)); auto. Qed.

Create HintDb keeps.
#[export] Hint Resolve kept_ret kept_access kept_or_throw kept_throws : keeps.

Ltac keep :=
  repeat match goal with
  | |- keeps _ _ (_ ≫= _) => apply kept_bind; [|intros]
  | |- keeps _ _ (let '(_, _) := ?x in _) => destruct x
  | |- keeps _ _ (if ?b then _ else _) => destruct b
  | |- keeps _ _ (match ?x with _ => _ end) => destruct x
  end; eauto with keeps.

(** ** Memory without overlaps *)

Definition disjoint_blocks (b c : block) : Prop := base b + blen (cells b) <= base c ∨ base c + blen (cells c) <= base b.

Fixpoint apart (m : memory) : Prop :=
  match m with [] => True | b :: m => Forall (disjoint_blocks b) m ∧ apart m end.

Lemma read_inside m a n d : read_bytes m a n = Some d → Exists (λ c, inside a n c = true) m.
Proof.
  induction m as [|b m IH]; [done|]. cbn [read_bytes]. destruct (inside a n b) eqn:E; [by left|]. intros H. right. by apply IH.
Qed.

Lemma apart_write m addr data m' : write_bytes m addr data = Some m' → apart m → apart m'.
Proof.
  revert m'. induction m as [|b m IH]; [done|]. intros m'. cbn [write_bytes apart].
  destruct (inside addr (blen data) b) eqn:Hi.
  - intros [= <-] [Hb Hm]. split; [|done]. eapply Forall_impl; [exact Hb|]. intros c. unfold disjoint_blocks.
    by rewrite (length_stored _ _ _ Hi).
  - destruct (write_bytes m addr data) as [m1|] eqn:E; [|done]. intros [= <-] [Hb Hm]. split; [|by apply IH].
    clear IH. revert m1 E. induction m as [|c m IHm]; [done|]. intros m1. cbn [write_bytes]. apply Forall_cons in Hb as [Hc Hb].
    destruct (inside addr (blen data) c) eqn:Hic.
    + intros [= <-]. constructor; [|done]. unfold disjoint_blocks in *. by rewrite (length_stored _ _ _ Hic).
    + destruct (write_bytes m addr data) as [m2|]; [|done]. intros [= <-]. constructor; [done|]. apply IHm; [done|by destruct Hm|done].
Qed.

Lemma before_nul_app s r : Byte.x00 ∉ s → before_nul (s ++ Byte.x00 :: r) = Some s.
Proof.
  induction s as [|b s IH]; [done|]. intros [Hb Hs]%not_elem_of_cons. cbn [app before_nul].
  by rewrite bool_decide_eq_false_2, IH.
Qed.

(** A string is read where it is stored. *)
Lemma apart_string m addr s : apart m → Byte.x00 ∉ s →
  read_bytes m addr (blen s + 1) = Some (s ++ [Byte.x00]) → read_string m addr = Some s.
Proof.
  intros Hm Hs. induction m as [|b m IH]; [done|]. destruct Hm as [Hb Hm]. cbn [read_bytes read_string].
  destruct (inside addr (blen s + 1) b) eqn:Hi.
  - replace (inside addr 1 b) with true by (unfold inside in *; lia). intros [= H].
    rewrite <-(take_drop (Z.to_nat (blen s + 1)) (drop _ (cells b))), H, <-app_assoc. by apply before_nul_app.
  - intros H. replace (inside addr 1 b) with false; [by apply IH|]. apply read_inside, Exists_exists in H as (c & Hc & Hic).
    pose proof (proj1 (Forall_forall _ _) Hb c Hc) as Hd. unfold disjoint_blocks, inside in *. lia.
Qed.

(** ** Bytes of numbers *)

Lemma le_val_inj a b : length a = length b → le_val a = le_val b → a = b.
Proof. intros Hl Hv. rewrite (le_bytes_of (length a) a), (le_bytes_of (length a) b) by done. by rewrite Hv. Qed.

Lemma le_bytes_read n d : length d = n → le_bytes n (le_val d) = d.
Proof. intros Hd. symmetry. by apply le_bytes_of. Qed.

Lemma signed_bytes n d : (0 < n)%nat → length d = n → le_bytes n (to_signed (8 * Z.of_nat n) (le_val d)) = d.
Proof.
  intros Hn Hd. apply le_val_inj; [by rewrite length_le_bytes|]. rewrite le_val_le_bytes. pose proof (le_val_range n d Hd) as Hr.
  replace (256 ^ Z.of_nat n) with (2 ^ (8 * Z.of_nat n)) in * by (by rewrite Z.pow_mul_r by lia).
  unfold to_signed. rewrite (Z.mod_small (le_val d)) by lia. destruct (_ <? _); [by apply Z.mod_small|].
  rewrite <-(Z.mod_add _ 1) by lia. replace (_ + 1 * _) with (le_val d) by lia. by apply Z.mod_small.
Qed.

Lemma signed_range w z : 0 < w → - 2 ^ (w - 1) <= to_signed w z < 2 ^ (w - 1).
Proof.
  intros Hw. unfold to_signed. pose proof (Z.mod_pos_bound z (2 ^ w) ltac:(lia)).
  assert (2 ^ w = 2 * 2 ^ (w - 1)) by (rewrite <-Z.pow_succ_r by lia; f_equal; lia).
  destruct (Z.ltb_spec (z mod 2 ^ w) (2 ^ (w - 1))); lia.
Qed.
