(* ===== verification/OdbcNumbers.v ===== *)
(** * ODBC driver: numbers read from and written as text

    The conversions of the C++ library that [getDataInternal] and
    [buildParameterData] call: [std::stoi], [std::stoll], [std::stod],
    [std::stof], and [std::to_string] of a floating-point number. Numbers of IEEE
    754 are given by their bits. [None] is an exception. *)

From S2P Require Import Prelude.
From S2P Require Import Text.
From S2P Require Import Values.
From S2P Require Import OdbcText.
From S2P Require Import OdbcDates.

(** ** Integers *)

Definition stoll (value : bytes) : option Z :=
  match strtoll (c_str value) with
  | Some (z, false, _) => Some z
  | _ => None
  end.

Definition stoi (value : bytes) : option Z :=
  z ← stoll value; if (- 2 ^ 31 <=? z) && (z <? 2 ^ 31) then Some z else None.

(** ** Rounding to [eb] exponent and [mb] mantissa bits *)

Definition exponent_bias (eb : Z) : Z := 2 ^ (eb - 1) - 1.

(** The exponent of the leading bit of a positive rational. *)
Definition floor_log2 (num den : Z) : Z :=
  let l := Z.log2 num - Z.log2 den in
  if num * 2 ^ Z.max (- l) 0 <? den * 2 ^ Z.max l 0 then l - 1 else l.

(** To nearest, ties to even; a value that is too large, or too small and not
    exact, is out of range. *)
Definition round_float (eb mb num den : Z) : option Z :=
  if num =? 0 then Some 0 else
  let e := Z.max (floor_log2 num den) (1 - exponent_bias eb) in
  let k := mb - e in
  let n := num * 2 ^ Z.max k 0 in
  let d := den * 2 ^ Z.max (- k) 0 in
  let m := round_div n d in
  let '(m, e) := if m =? 2 ^ (mb + 1) then (2 ^ mb, e + 1) else (m, e) in
  if exponent_bias eb <? e then None
  else if m <? 2 ^ mb then if n mod d =? 0 then Some m else None
  else Some ((e + exponent_bias eb) * 2 ^ mb + (m - 2 ^ mb)).

(** ** [std::strtod] *)

(** Digits of a base: their value after [acc], their number, and the rest. *)
Fixpoint scan_base (digit : byte → option Z) (radix acc : Z) (n : nat) (s : bytes) : Z * nat * bytes :=
  match s with
  | b :: r => match digit b with Some d => scan_base digit radix (acc * radix + d) (S n) r | None => (acc, n, s) end
  | [] => (acc, n, [])
  end.

(** Digits with a point: the value without the point, how many digits follow
    it, and how many there are. *)
Definition scan_mantissa (digit : byte → option Z) (radix : Z) (s : bytes) : Z * nat * nat * bytes :=
  let '(m, n, s) := scan_base digit radix 0 0 s in
  match s with
  | "."%byte :: r => let '(m, k, r) := scan_base digit radix m 0 r in (m, k, (n + k)%nat, r)
  | _ => (m, O, n, s)
  end.

(** An exponent after [letter], if one is there. *)
Definition scan_exponent (letter : byte) (s : bytes) : Z :=
  match s with
  | b :: r =>
      if bool_decide (tolower b = letter) then
        let '(negative, r) :=
          match r with "-"%byte :: r => (true, r) | "+"%byte :: r => (false, r) | _ => (false, r) end in
        match r with
        | c :: _ => if bool_decide (digit_of c = None) then 0
                    else let '(e, _) := scan_digits 0 r in if negative : bool then - e else e
        | [] => 0
        end
      else 0
  | [] => 0
  end.

(** The bits of the number at the head of a text. *)
Definition strtod (eb mb : Z) (s : bytes) : option Z :=
  let s := drop_while isspace s in
  let '(negative, s) :=
    match s with "-"%byte :: r => (true, r) | "+"%byte :: r => (false, r) | _ => (false, s) end in
  let signed bits := (if negative : bool then 2 ^ (eb + mb) else 0) + bits in
  let infinity := (2 ^ eb - 1) * 2 ^ mb in
  let lower := toLower s in
  let hexadecimal := scan_mantissa hex_value 16 (drop 2 s) in
  if starts_with "inf" lower then Some (signed infinity)
  else if starts_with "nan" lower then Some (signed (infinity + 2 ^ (mb - 1)))
  else if starts_with "0x" lower && (0 <? hexadecimal.1.2)%nat then
    let '(m, k, _, r) := hexadecimal in
    let e := scan_exponent "p" r - 4 * Z.of_nat k in
    signed <$> round_float eb mb (m * 2 ^ Z.max e 0) (2 ^ Z.max (- e) 0)
  else
    let '(m, k, n, r) := scan_mantissa digit_of 10 s in
    if (n =? 0)%nat then None else
    let e := scan_exponent "e" r - Z.of_nat k in
    signed <$> round_float eb mb (m * 10 ^ Z.max e 0) (10 ^ Z.max (- e) 0).

Definition stod (value : bytes) : option Z := strtod 11 52 (c_str value).
Definition stof (value : bytes) : option Z := strtod 8 23 (c_str value).

(** ** [std::to_string] of a floating-point number: [%f] *)

Definition fixed6 (num den : Z) : bytes :=
  let d := round_div (num * 10 ^ 6) den in dec (d / 10 ^ 6) ++ "."%byte :: put 6 (d mod 10 ^ 6).

Definition float_to_string (eb mb bits : Z) : bytes :=
  let e := Z.land (Z.shiftr bits mb) (Z.ones eb) in
  let m := Z.land bits (Z.ones mb) in
  (if Z.testbit bits (eb + mb) then ["-"%byte] else []) ++
  (if e =? Z.ones eb then if m =? 0 then ("inf" : bytes) else ("nan" : bytes)
   else
     let mantissa := if e =? 0 then m else m + 2 ^ mb in
     let exponent := Z.max e 1 - exponent_bias eb - mb in
     fixed6 (mantissa * 2 ^ Z.max exponent 0) (2 ^ Z.max (- exponent) 0)).

(** A [float] is converted to [double], which is exact. *)
Definition double_to_string (bits : Z) : bytes := float_to_string 11 52 bits.
Definition single_to_string (bits : Z) : bytes := float_to_string 8 23 bits.

Example stod_tenth : stod " 0.1xyz" = Some 4591870180066957722.
Proof. vm_compute. reflexivity. Qed.
Example stod_hex : stod "-0x1.8p1" = Some (2 ^ 63 + 4613937818241073152).
Proof. vm_compute. reflexivity. Qed.
Example stod_large : stod "1e999" = None.
Proof. vm_compute. reflexivity. Qed.
Example stod_big : stod "1.7976931348623157e308" = Some 9218868437227405311.
Proof. vm_compute. reflexivity. Qed.
Example stof_third : stof "0.3333333333" = Some 1051372203.
Proof. vm_compute. reflexivity. Qed.
Example string_of_tenth : double_to_string 4591870180066957722 = "0.100000".
Proof. vm_compute. reflexivity. Qed.

(** ** Lemmas *)

Lemma c_str_free s : Byte.x00 ∉ s → c_str s = s.
Proof.
  induction s as [|b s IH]; [done|]. intros [Hb Hs]%not_elem_of_cons. cbn [c_str].
  rewrite bool_decide_eq_false_2 by done. by rewrite IH.
Qed.

Lemma digits_free (c : byte) s : all_digits s → digit_of c = None → c ∉ s.
Proof. intros Hs Hc Hin. destruct (proj1 (Forall_forall _ _) Hs c Hin). congruence. Qed.

Lemma to_string_free z : Byte.x00 ∉ to_string z.
Proof.
  assert (Hd : ∀ n, Byte.x00 ∉ dec n) by (intros n; apply digits_free; [apply dec_digits|done]).
  unfold to_string. destruct (z <? 0); [|done]. by apply not_elem_of_cons.
Qed.

(** An integer is read back from its text. *)
Lemma strtoll_to_string z : - 2 ^ 63 <= z < 2 ^ 63 → strtoll (to_string z) = Some (z, false, []).
Proof.
  intros Hz. unfold to_string. assert (Hs : ∀ n, 0 <= n → scan_digits 0 (dec n) = (n, [])).
  { intros n Hn. pose proof (scan_dec n [] Hn) as H. rewrite app_nil_r in H. exact H. }
  destruct (Z.ltb_spec z 0) as [Hn|Hn]; unfold strtoll.
  - cbn [drop_while]. change (isspace "-") with false. cbv iota. rewrite bool_decide_eq_true_2 by done.
    specialize (Hs (- z) ltac:(lia)). destruct (dec_head (- z)) as (b & r & d & E & Hd). rewrite E in *. rewrite Hd, Hs.
    repeat guard_false. do 3 f_equal. lia.
  - specialize (Hs z ltac:(lia)). destruct (dec_head z) as (b & r & d & E & Hd). rewrite E in *.
    assert (Hb : 48 <= byte_val b <= 57).
    { revert Hd. unfold digit_of. destruct ((0 <=? _) && _) eqn:Hr; [lia|done]. }
    cbn [drop_while]. replace (isspace b) with false by (unfold isspace; lia).
    rewrite !bool_decide_eq_false_2 by (intros ->; cbn in Hb; lia). rewrite Hd, Hs. repeat guard_false. done.
Qed.

Lemma stoll_to_string z : - 2 ^ 63 <= z < 2 ^ 63 → stoll (to_string z) = Some z.
Proof. intros Hz. unfold stoll. rewrite c_str_free by apply to_string_free. by rewrite strtoll_to_string. Qed.

Lemma stoi_to_string z : - 2 ^ 31 <= z < 2 ^ 31 → stoi (to_string z) = Some z.
Proof. intros Hz. unfold stoi. rewrite stoll_to_string by lia. cbn [mbind option_bind]. by guard_true. Qed.

(** A small number is sent as zero: six digits after the point. *)
Lemma small_double_is_zero : stod "0.0000001" = Some 4502148214488346440 ∧ double_to_string 4502148214488346440 = "0.000000".
Proof. split; vm_compute; reflexivity. Qed.
