(* ===== verification/OdbcConnection.v ===== *)
(** * ODBC driver: connections

    Models [OdbcClientBridge] ([src/odbc_client_bridge.cpp]) and the requests of
    [OdbcConnection] ([src/odbc_handles.cpp]) of [src/tracks/p3/drivers/odbc]:
    statements, transactions, the attributes that are sent to the server, and the
    prepared texts. The bridge owns a network client of the C++ driver
    ([NetworkClient]). The circuit breaker of the ODBC driver is the one of the
    C++ driver, with other names. *)

From S2P Require Import Prelude.
From S2P Require Import Sqlstate.
From S2P Require Import ErrorContext.
From S2P Require Import Oids.
From S2P Require Import WireParse.
From S2P Require Import Values.
From S2P Require Import CircuitBreaker.
From S2P Require Import NetworkClient.
From S2P Require Import OdbcText.
From S2P Require Import OdbcTypes.
From S2P Require Import OdbcRun.

(** ** State *)

Record DiagnosticRecord := mkDiagnostic { sqlstate : bytes; native_error : Z; message : bytes }.

Record OdbcClientBridge := mkBridge { client_ : NetworkClient; last_status_ : Status; last_error_ : bytes }.

#[export] Instance OdbcClientBridge_eta : Eta OdbcClientBridge :=
  λ b, mkBridge (client_ b) (last_status_ b) (last_error_ b).

(** The fields that requests use; [next_stmt_id] is the static counter of
    [prepareSQL], [clock_reads] counts readings of the steady clock. *)
Record OdbcConnection := mkOdbcConnection {
  client_bridge_ : OdbcClientBridge;
  connected_ : bool;
  auto_commit_ : Z;
  txn_isolation_ : Z;
  in_transaction_ : bool;
  connection_dead_ : bool;
  current_database_ : bytes;
  current_schema_ : bytes;
  prepared_sql_ : gmap Z bytes;
  circuit_breaker_ : CircuitBreaker;
  diagnostics_ : list DiagnosticRecord;
  next_stmt_id : Z;
  clock_reads : nat
}.

#[export] Instance OdbcConnection_eta : Eta OdbcConnection := λ c,
  mkOdbcConnection (client_bridge_ c) (connected_ c) (auto_commit_ c) (txn_isolation_ c) (in_transaction_ c)
    (connection_dead_ c) (current_database_ c) (current_schema_ c) (prepared_sql_ c) (circuit_breaker_ c)
    (diagnostics_ c) (next_stmt_id c) (clock_reads c).

(** A connection that is not open. *)
Definition new_connection : OdbcConnection :=
  mkOdbcConnection (mkBridge new_client OK []) false SQL_AUTOCOMMIT_ON SQL_TXN_READ_COMMITTED false false [] [] ∅
    (new_breaker sb_circuit_breaker_config_default "default") [] 1 0.

Definition SQLRETURN := Z.

Definition clearDiagnostics : prog OdbcConnection () := update (λ c, c <| diagnostics_ := [] |>).

(** [setError] *)
Definition report (sqlstate : bytes) (native_error : Z) (message : bytes) : prog OdbcConnection () :=
  update (λ c, c <| diagnostics_ := diagnostics_ c ++ [mkDiagnostic sqlstate native_error message] |>).

(** [setError(...); return SQL_ERROR;] *)
Definition refuse (sqlstate message : bytes) : prog OdbcConnection SQLRETURN :=
  _ ← report sqlstate 0 message; mret SQL_ERROR.

Definition closed_text : bytes := "Connection not open".

(** ** The bridge *)

Definition statusToReturn (status : Status) : SQLRETURN := if bool_decide (status = OK) then SQL_SUCCESS else SQL_ERROR.

(** A call of the client, with an error context or without. *)
Definition with_client {A} (ctx : option ErrorContext) (m : M A) : prog OdbcConnection (A * option ErrorContext) := λ c,
  match m (client_ (client_bridge_ c)) ctx with
  | Done a client ctx => Returns (a, ctx) (c <| client_bridge_ := client_bridge_ c <| client_ := client |> |>)
  | Crash => OdbcRun.Undefined
  | NetworkClient.NoFuel => OdbcRun.NoFuel
  end.

Definition set_last (status : Status) (text : bytes) : prog OdbcConnection () :=
  update (λ c, c <| client_bridge_ := client_bridge_ c <| last_status_ := status |> <| last_error_ := text |> |>).

(** [ctx.message.empty() ? client_.lastError() : ctx.message] *)
Definition context_text (ctx : option ErrorContext) : bytes :=
  let text := from_option c_message [] ctx in if bool_decide (text = []) then lastError else text.

Definition mapColumn (col : NetworkColumn) : ColumnMetadata :=
  mkColumn (nc_name col) (typeOidToString (nc_type_oid col)) (mapTypeOid (nc_type_oid col)) 0 SQL_NULLABLE_UNKNOWN.

(** The conversion of the C++ driver, of which the bridge has a copy. *)
Definition stringifyValue (val : ColumnValue) (type_oid : Z) : outcome bytes := Values.stringifyValue val type_oid.

(** A cell without a column has the type zero. *)
Fixpoint stringify_row (columns : list NetworkColumn) (row : list ColumnValue) : outcome (list bytes) :=
  match row with
  | [] => Ret []
  | v :: row =>
      text ← stringifyValue v (from_option nc_type_oid 0 (head columns));
      texts ← stringify_row (tail columns) row; Ret (text :: texts)
  end.

(** What a statement returns. *)
Record Results := mkResultsOf { r_columns : list ColumnMetadata; r_rows : list (list bytes); r_affected : Z }.

Definition empty_results : Results := mkResultsOf [] [] 0.

Definition from_outcome {W A} (o : outcome A) : prog W A := match o with Ret a => mret a | UB => undefined end.

Definition bridge_executeSQL (fuel : nat) (sql : bytes) : prog OdbcConnection (SQLRETURN * Results) :=
  '((status, net_results), ctx) ← with_client (Some fresh_context) (NetworkClient.executeQuery fuel sql);
  if bool_decide (status ≠ OK) then
    _ ← set_last status (context_text ctx); mret (statusToReturn status, empty_results)
  else
    _ ← set_last OK [];
    rows ← from_outcome (mapM (stringify_row (NetworkClient.columns net_results)) (NetworkClient.rows net_results));
    mret (SQL_SUCCESS, mkResultsOf (mapColumn <$> NetworkClient.columns net_results) rows (rows_affected net_results)).

Definition bridge_cancel : prog OdbcConnection SQLRETURN :=
  '(status, ctx) ← with_client (Some fresh_context) sendQueryCancel;
  _ ← set_last status (if bool_decide (status = OK) then [] else context_text ctx);
  mret (statusToReturn status).

(** [beginTransaction], [commit] and [rollback] of the bridge. *)
Definition bridge_transaction (m : M Status) : prog OdbcConnection SQLRETURN :=
  '(status, _) ← with_client None m;
  _ ← set_last status (if bool_decide (status = OK) then [] else lastError);
  mret (statusToReturn status).

(** ** Requests *)

Section requests.
Context (clock : nat → Z) (fuel : nat).

(** [steady_clock::now()] *)
Definition now : prog OdbcConnection Z := λ c, Returns (clock (clock_reads c)) (c <| clock_reads := S (clock_reads c) |>).

Definition allowRequest : prog OdbcConnection bool :=
  t ← now;
  c ← reads id;
  let '(allowed, breaker) := AllowRequest t (circuit_breaker_ c) in
  _ ← update (λ c, c <| circuit_breaker_ := breaker |>);
  if allowed : bool then mret true else _ ← report "08006" 0 "Circuit breaker is OPEN"; mret false.

Definition recordSuccess : prog OdbcConnection () := update (λ c, c <| circuit_breaker_ := RecordSuccess (circuit_breaker_ c) |>).

Definition recordFailure : prog OdbcConnection () :=
  t ← now; update (λ c, c <| circuit_breaker_ := RecordFailure t (circuit_breaker_ c) |>).

(** [setError(mapStatusToSqlState(lastStatus()), ...)] with the text of the
    bridge or a default. *)
Definition report_bridge (otherwise : bytes) : prog OdbcConnection () :=
  b ← reads client_bridge_;
  report (mapStatusToSqlState (last_status_ b)) (status_code (last_status_ b))
    (if bool_decide (last_error_ b = []) then otherwise else last_error_ b).

Definition executeSQL (sql : bytes) : prog OdbcConnection (SQLRETURN * Results) :=
  allowed ← allowRequest;
  if negb allowed then mret (SQL_ERROR, empty_results) else
  '(status, results) ← bridge_executeSQL fuel sql;
  if (status =? SQL_SUCCESS) || (status =? SQL_SUCCESS_WITH_INFO) then
    _ ← recordSuccess; mret (status, results)
  else
    _ ← report_bridge "Execution failed"; _ ← recordFailure; mret (status, results).

Definition cancel : prog OdbcConnection SQLRETURN :=
  status ← bridge_cancel;
  if status =? SQL_SUCCESS then mret status else _ ← report_bridge "Cancel failed"; mret status.

(** A transaction is sent and its end recorded. *)
Definition transact (m : M Status) (after : OdbcConnection → bool) (otherwise : bytes) : prog OdbcConnection SQLRETURN :=
  status ← bridge_transaction m;
  if status =? SQL_SUCCESS then
    _ ← update (λ c, c <| in_transaction_ := after c |>); _ ← recordSuccess; mret status
  else _ ← report_bridge otherwise; _ ← recordFailure; mret status.

Definition manual (c : OdbcConnection) : bool := auto_commit_ c =? SQL_AUTOCOMMIT_OFF.

Definition endTransaction (completion_type : Z) : prog OdbcConnection SQLRETURN :=
  _ ← clearDiagnostics;
  connected ← reads connected_;
  if negb connected then refuse "08003" closed_text else
  allowed ← allowRequest;
  if negb allowed then mret SQL_ERROR else
  c ← reads id;
  if (auto_commit_ c =? SQL_AUTOCOMMIT_ON) && negb (in_transaction_ c) then mret SQL_SUCCESS
  else if completion_type =? SQL_COMMIT then transact (NetworkClient.commit fuel) manual "Commit failed"
  else if completion_type =? SQL_ROLLBACK then transact (NetworkClient.rollback fuel) manual "Rollback failed"
  else
    _ ← report "HY012" 0 "Invalid transaction operation code"; _ ← recordFailure; mret SQL_ERROR.

Definition beginTransaction : prog OdbcConnection SQLRETURN :=
  _ ← clearDiagnostics;
  connected ← reads connected_;
  if negb connected then refuse "08003" closed_text else
  allowed ← allowRequest;
  if negb allowed then mret SQL_ERROR else
  c ← reads id;
  if in_transaction_ c then mret SQL_SUCCESS
  else transact (NetworkClient.beginTransaction fuel default_options) (λ _, true) "Begin transaction failed".

Definition applyAutocommitSetting : prog OdbcConnection SQLRETURN :=
  c ← reads id;
  if negb (connected_ c) then refuse "08003" closed_text else
  '(status, _) ← executeSQL (buildAutocommitSql (auto_commit_ c)); mret status.

Definition applyIsolationSetting : prog OdbcConnection SQLRETURN :=
  c ← reads id;
  if negb (connected_ c) then refuse "08003" closed_text else
  match buildIsolationSql (txn_isolation_ c) with
  | None => refuse "HY024" "Invalid attribute value"
  | Some sql => '(status, _) ← executeSQL sql; mret status
  end.

Definition succeeded (status : SQLRETURN) : bool := (status =? SQL_SUCCESS) || (status =? SQL_SUCCESS_WITH_INFO).

(** [setAttribute] for [SQL_ATTR_AUTOCOMMIT]. *)
Definition setAutocommit (new_value : Z) : prog OdbcConnection SQLRETURN :=
  _ ← clearDiagnostics;
  if negb (new_value =? SQL_AUTOCOMMIT_ON) && negb (new_value =? SQL_AUTOCOMMIT_OFF)
  then refuse "HY024" "Invalid attribute value" else
  _ ← update (λ c, c <| auto_commit_ := new_value |>);
  connected ← reads connected_;
  result ← (if connected : bool then applyAutocommitSetting else mret SQL_SUCCESS);
  if negb (succeeded result) then mret result else
  _ ← update (λ c, c <| in_transaction_ := manual c |>);
  mret SQL_SUCCESS.

(** [setAttribute] for [SQL_ATTR_TXN_ISOLATION]. *)
Definition setIsolation (new_value : Z) : prog OdbcConnection SQLRETURN :=
  _ ← clearDiagnostics;
  match buildIsolationSql new_value with
  | None => refuse "HY024" "Invalid attribute value"
  | Some _ =>
      _ ← update (λ c, c <| txn_isolation_ := new_value |>);
      c ← reads id;
      if negb (connected_ c) then mret SQL_SUCCESS else
      result ← applyIsolationSetting;
      if negb (succeeded result) then mret result
      else if auto_commit_ c =? SQL_AUTOCOMMIT_ON then
        result ← applyAutocommitSetting;
        mret (if negb (succeeded result) then result else SQL_SUCCESS)
      else mret SQL_SUCCESS
  end.

(** [setAttribute] for [SQL_ATTR_CURRENT_CATALOG] with a string. *)
Definition setCatalog (value : bytes) : prog OdbcConnection SQLRETURN :=
  _ ← clearDiagnostics;
  _ ← update (λ c, c <| current_database_ := value |>);
  connected ← reads connected_;
  if negb connected then mret SQL_SUCCESS else
  '(result, _) ← executeSQL ("SET search_path TO " ++ quoteSqlLiteral value);
  if negb (succeeded result) then mret result else
  _ ← update (λ c, c <| current_schema_ := current_database_ c |>);
  mret SQL_SUCCESS.

(** [disconnect]; the statements that it closes and the registrations it ends
    belong to other handles. *)
Definition disconnect : prog OdbcConnection SQLRETURN :=
  _ ← clearDiagnostics;
  connected ← reads connected_;
  if negb connected then refuse "08003" closed_text else
  _ ← update (λ c, c <| prepared_sql_ := ∅ |>
                     <| client_bridge_ := client_bridge_ c <| client_ := NetworkClient.disconnect (client_ (client_bridge_ c)) |> |>
                     <| connected_ := false |> <| connection_dead_ := false |> <| in_transaction_ := false |>);
  mret SQL_SUCCESS.

(** ** Prepared texts *)

Definition prepareSQL (sql : bytes) : prog OdbcConnection Z := λ c,
  let stmt_id := next_stmt_id c in
  Returns stmt_id (c <| next_stmt_id := u64 (stmt_id + 1) |> <| prepared_sql_ := <[stmt_id := sql]> (prepared_sql_ c) |>).

(** The text, or [None] after the error. *)
Definition buildPreparedSQL (stmt_id : Z) (params : list ParameterLiteral) : prog OdbcConnection (option bytes) :=
  c ← reads id;
  match prepared_sql_ c !! stmt_id with
  | None => _ ← report "HY000" 0 "Unknown prepared statement"; mret None
  | Some sql => mret (Some (prepared_text sql params))
  end.

Definition executePrepared (stmt_id : Z) (params : list ParameterLiteral) : prog OdbcConnection (SQLRETURN * Results) :=
  sql ← buildPreparedSQL stmt_id params;
  match sql with
  | None => mret (SQL_ERROR, empty_results)
  | Some sql => executeSQL sql
  end.
End requests.
