(* ===== verification/OdbcDescriptor.v ===== *)
(** * ODBC driver: descriptors

    Models [OdbcDescriptor] of [src/tracks/p3/drivers/odbc/src/odbc_handles.cpp]: a
    descriptor has a header and a record for each column or parameter, whose
    fields are set and read by numeric identifiers. The two [switch] statements of
    [setField] and [getField] have the same cases: they are a table of slots. *)

From S2P Require Import Prelude.
From S2P Require Import OdbcTypes.
From S2P Require Import OdbcRun.
From S2P Require Import OdbcConnection.

(** ** Identifiers *)

Definition SQL_COLUMN_TYPE : Z := 2.
Definition SQL_COLUMN_DISPLAY_SIZE : Z := 6.
Definition SQL_COLUMN_UNSIGNED : Z := 8.
Definition SQL_COLUMN_MONEY : Z := 9.
Definition SQL_COLUMN_UPDATABLE : Z := 10.
Definition SQL_COLUMN_AUTO_INCREMENT : Z := 11.
Definition SQL_COLUMN_CASE_SENSITIVE : Z := 12.
Definition SQL_COLUMN_SEARCHABLE : Z := 13.
Definition SQL_COLUMN_TYPE_NAME : Z := 14.
Definition SQL_COLUMN_TABLE_NAME : Z := 15.
Definition SQL_COLUMN_OWNER_NAME : Z := 16.
Definition SQL_COLUMN_QUALIFIER_NAME : Z := 17.
Definition SQL_COLUMN_LABEL : Z := 18.
Definition SQL_COLUMN_NAME : Z := 1.
Definition SQL_DESC_ALLOC_AUTO : Z := 1.
Definition SQL_DESC_ALLOC_USER : Z := 2.
Definition SQL_DESC_COUNT : Z := 1001.
Definition SQL_DESC_TYPE : Z := 1002.
Definition SQL_DESC_LENGTH : Z := 1003.
Definition SQL_DESC_OCTET_LENGTH_PTR : Z := 1004.
Definition SQL_DESC_PRECISION : Z := 1005.
Definition SQL_DESC_SCALE : Z := 1006.
Definition SQL_DESC_DATETIME_INTERVAL_CODE : Z := 1007.
Definition SQL_DESC_ARRAY_SIZE : Z := 1098.
Definition SQL_DESC_ARRAY_STATUS_PTR : Z := 1097.
Definition SQL_DESC_BIND_OFFSET_PTR : Z := 24.
Definition SQL_DESC_BIND_TYPE : Z := 25.
Definition SQL_DESC_DATETIME_INTERVAL_PRECISION : Z := 26.
Definition SQL_DESC_MAXIMUM_SCALE : Z := 30.
Definition SQL_DESC_MINIMUM_SCALE : Z := 31.
Definition SQL_DESC_ROWS_PROCESSED_PTR : Z := 34.
Definition SQL_DESC_PARAMETER_TYPE : Z := 33.
Definition SQL_DESC_NULLABLE : Z := 1008.
Definition SQL_DESC_INDICATOR_PTR : Z := 1009.
Definition SQL_DESC_DATA_PTR : Z := 1010.
Definition SQL_DESC_NAME : Z := 1011.
Definition SQL_DESC_UNNAMED : Z := 1012.
Definition SQL_DESC_OCTET_LENGTH : Z := 1013.
Definition SQL_DESC_ALLOC_TYPE : Z := 1099.
Definition SQL_DESC_CONCISE_TYPE : Z := SQL_COLUMN_TYPE.
Definition SQL_DESC_DISPLAY_SIZE : Z := SQL_COLUMN_DISPLAY_SIZE.
Definition SQL_DESC_UNSIGNED : Z := SQL_COLUMN_UNSIGNED.
Definition SQL_DESC_UPDATABLE : Z := SQL_COLUMN_UPDATABLE.
Definition SQL_DESC_AUTO_UNIQUE_VALUE : Z := SQL_COLUMN_AUTO_INCREMENT.
Definition SQL_DESC_CASE_SENSITIVE : Z := SQL_COLUMN_CASE_SENSITIVE.
Definition SQL_DESC_SEARCHABLE : Z := SQL_COLUMN_SEARCHABLE.
Definition SQL_DESC_TYPE_NAME : Z := SQL_COLUMN_TYPE_NAME.
Definition SQL_DESC_TABLE_NAME : Z := SQL_COLUMN_TABLE_NAME.
Definition SQL_DESC_SCHEMA_NAME : Z := SQL_COLUMN_OWNER_NAME.
Definition SQL_DESC_CATALOG_NAME : Z := SQL_COLUMN_QUALIFIER_NAME.
Definition SQL_DESC_LABEL : Z := SQL_COLUMN_LABEL.
Definition SQL_DESC_BASE_COLUMN_NAME : Z := 22.
Definition SQL_DESC_BASE_TABLE_NAME : Z := 23.
Definition SQL_DESC_LITERAL_PREFIX : Z := 27.
Definition SQL_DESC_LITERAL_SUFFIX : Z := 28.
Definition SQL_DESC_LOCAL_TYPE_NAME : Z := 29.
Definition SQL_DESC_NUM_PREC_RADIX : Z := 32.
Definition SQL_DESC_FIXED_PREC_SCALE : Z := 9.

(** ** State *)

Record DescriptorRecord := mkDescriptorRecord {
  r_type : Z; r_concise_type : Z; r_datetime_interval_code : Z; r_datetime_interval_precision : Z;
  r_maximum_scale : Z; r_minimum_scale : Z; r_nullable : Z; r_precision : Z; r_scale : Z; r_unnamed : Z;
  r_unsigned_ : Z; r_fixed_prec_scale : Z; r_auto_unique_value : Z; r_case_sensitive : Z; r_searchable : Z;
  r_updatable : Z; r_num_prec_radix : Z; r_length : Z; r_octet_length : Z; r_display_size : Z; r_name : bytes;
  r_base_column_name : bytes; r_base_table_name : bytes; r_catalog_name : bytes; r_label : bytes;
  r_literal_prefix : bytes; r_literal_suffix : bytes; r_local_type_name : bytes; r_schema_name : bytes;
  r_table_name : bytes; r_type_name : bytes; r_data_ptr : Z; r_indicator_ptr : Z; r_octet_length_ptr : Z }.

#[export] Instance DescriptorRecord_eta : Eta DescriptorRecord := λ r,
  mkDescriptorRecord (r_type r) (r_concise_type r) (r_datetime_interval_code r) (r_datetime_interval_precision r) (r_maximum_scale
    r) (r_minimum_scale r) (r_nullable r) (r_precision r) (r_scale r) (r_unnamed r) (r_unsigned_ r)
    (r_fixed_prec_scale r) (r_auto_unique_value r) (r_case_sensitive r) (r_searchable r) (r_updatable r)
    (r_num_prec_radix r) (r_length r) (r_octet_length r) (r_display_size r) (r_name r) (r_base_column_name r)
    (r_base_table_name r) (r_catalog_name r) (r_label r) (r_literal_prefix r) (r_literal_suffix r)
    (r_local_type_name r) (r_schema_name r) (r_table_name r) (r_type_name r) (r_data_ptr r) (r_indicator_ptr r)
    (r_octet_length_ptr r).

(** [DescriptorRecord{}] *)
Definition new_record : DescriptorRecord :=
  mkDescriptorRecord SQL_UNKNOWN_TYPE SQL_UNKNOWN_TYPE 0 0 0 0 SQL_NULLABLE_UNKNOWN 0 0 1 0 0 0 1 2 0 10 0 0 0 [] [] [] [] [] [] []
    [] [] [] [] 0 0 0.

Inductive DescriptorType := APD | IPD | ARD | IRD.

#[export] Instance DescriptorType_eq_dec : EqDecision DescriptorType.
Proof. solve_decision. Defined.

(** [d_conn_] is the connection, by its address. *)
Record OdbcDescriptor := mkDescriptor {
  d_conn_ : Z; desc_type_ : DescriptorType; implicit_ : bool;
  count_ : Z; array_size_ : Z; alloc_type_ : Z; array_status_ptr_ : Z; bind_offset_ptr_ : Z; bind_type_ : Z;
  rows_processed_ptr_ : Z; records_ : list DescriptorRecord; d_diagnostics_ : list DiagnosticRecord }.

#[export] Instance OdbcDescriptor_eta : Eta OdbcDescriptor := λ d,
  mkDescriptor (d_conn_ d) (desc_type_ d) (implicit_ d) (count_ d) (array_size_ d) (alloc_type_ d) (array_status_ptr_ d)
    (bind_offset_ptr_ d) (bind_type_ d) (rows_processed_ptr_ d) (records_ d) (d_diagnostics_ d).

Definition new_descriptor (conn : Z) (type : DescriptorType) (implicit : bool) : OdbcDescriptor :=
  mkDescriptor conn type implicit 0 1 (if implicit then SQL_DESC_ALLOC_AUTO else SQL_DESC_ALLOC_USER) 0 0 0 0 [] [].

(** A descriptor and the memory of the application. *)
Record desk := mkDesk { desc : OdbcDescriptor; app_memory : memory }.

#[export] Instance desk_eta : Eta desk := λ w, mkDesk (desc w) (app_memory w).

Definition Desc (A : Type) : Type := prog desk A.

(** ** Operations on the parts *)

Definition revise (f : OdbcDescriptor → OdbcDescriptor) : Desc () := update (λ w, w <| desc := f (desc w) |>).

Definition peek (addr n : Z) : Desc bytes := λ w,
  if n =? 0 then Returns [] w else
  match read_bytes (app_memory w) addr n with Some d => Returns d w | None => Undefined end.
Definition poke (addr : Z) (data : bytes) : Desc () := λ w,
  match write_bytes (app_memory w) addr data with Some m => Returns tt (w <| app_memory := m |>) | None => Undefined end.
Definition poke_to (pointer : Z) (n : nat) (z : Z) : Desc () := if pointer =? 0 then mret tt else poke pointer (le_bytes n z).

Definition clear_desc : Desc () := revise (λ d, d <| d_diagnostics_ := [] |>).
Definition warn (sqlstate message : bytes) : Desc () :=
  revise (λ d, d <| d_diagnostics_ := d_diagnostics_ d ++ [mkDiagnostic sqlstate 0 message] |>).
Definition reject (sqlstate message : bytes) : Desc SQLRETURN := _ ← warn sqlstate message; mret SQL_ERROR.

(** What a pointer given to [setField] points to: memory of the application, or a
    variable of the driver. *)
Record source := mkSource { address : Z; bytes_at : Z → Desc bytes; string_at : Desc bytes }.

Definition application (addr : Z) : source :=
  mkSource addr (peek addr) (λ w, match read_string (app_memory w) addr with Some d => Returns d w | None => Undefined end).
(** A pointer that is only stored. *)
Definition pointer (addr : Z) : source := mkSource addr (λ _, undefined) undefined.
Definition variable (n : nat) (z : Z) : source :=
  mkSource 1 (λ k, if k =? Z.of_nat n then mret (le_bytes n z) else undefined) undefined.

(** ** Slots *)

Inductive width := W16 | W64 | U64.

Definition size_of (w : width) : nat := match w with W16 => 2 | W64 | U64 => 8 end.
Definition decode (w : width) (data : bytes) : Z :=
  match w with W16 => i16 (le_val data) | W64 => i64 (le_val data) | U64 => le_val data end.

(** A number is read through the pointer, a text copied, a pointer kept; reading
    a pointer may give what it points to. *)
Inductive slot (R : Type) :=
  | Number (w : width) (get : R → Z) (set : Z → R → R)
  | Text (get : R → bytes) (set : bytes → R → R)
  | Pointer (dereferenced : bool) (get : R → Z) (set : Z → R → R)
  | ReadOnly (w : width) (get : R → Z).
Arguments Number {R}.
Arguments Text {R}.
Arguments Pointer {R}.
Arguments ReadOnly {R}.

Definition header_slots : list (Z * bytes * slot OdbcDescriptor) :=
  [(SQL_DESC_COUNT, "SQL_DESC_COUNT" : bytes, Number W16 count_ (λ v d, d <| count_ := v |>));
   (SQL_DESC_ALLOC_TYPE, "SQL_DESC_ALLOC_TYPE" : bytes, ReadOnly W16 alloc_type_);
   (SQL_DESC_ARRAY_SIZE, "SQL_DESC_ARRAY_SIZE" : bytes, Number U64 array_size_ (λ v d, d <| array_size_ := v |>));
   (SQL_DESC_ARRAY_STATUS_PTR, "SQL_DESC_ARRAY_STATUS_PTR" : bytes, Pointer false array_status_ptr_ (λ v d, d <| array_status_ptr_ := v |>));
   (SQL_DESC_BIND_OFFSET_PTR, "SQL_DESC_BIND_OFFSET_PTR" : bytes, Pointer true bind_offset_ptr_ (λ v d, d <| bind_offset_ptr_ := v |>));
   (SQL_DESC_BIND_TYPE, "SQL_DESC_BIND_TYPE" : bytes, Number U64 bind_type_ (λ v d, d <| bind_type_ := v |>));
   (SQL_DESC_ROWS_PROCESSED_PTR, "SQL_DESC_ROWS_PROCESSED_PTR" : bytes, Pointer false rows_processed_ptr_ (λ v d, d <| rows_processed_ptr_ := v |>))].

Definition record_slots : list (Z * bytes * slot DescriptorRecord) :=
  [(SQL_DESC_TYPE, "SQL_DESC_TYPE" : bytes, Number W16 r_type (λ v r, r <| r_type := v |>));
   (SQL_DESC_CONCISE_TYPE, "SQL_DESC_CONCISE_TYPE" : bytes, Number W16 r_concise_type (λ v r, r <| r_concise_type := v |>));
   (SQL_DESC_LENGTH, "SQL_DESC_LENGTH" : bytes, Number W64 r_length (λ v r, r <| r_length := v |>));
   (SQL_DESC_OCTET_LENGTH, "SQL_DESC_OCTET_LENGTH" : bytes, Number W64 r_octet_length (λ v r, r <| r_octet_length := v |>));
   (SQL_DESC_PRECISION, "SQL_DESC_PRECISION" : bytes, Number W16 r_precision (λ v r, r <| r_precision := v |>));
   (SQL_DESC_SCALE, "SQL_DESC_SCALE" : bytes, Number W16 r_scale (λ v r, r <| r_scale := v |>));
   (SQL_DESC_UNSIGNED, "SQL_DESC_UNSIGNED" : bytes, Number W16 r_unsigned_ (λ v r, r <| r_unsigned_ := v |>));
   (SQL_DESC_FIXED_PREC_SCALE, "SQL_DESC_FIXED_PREC_SCALE" : bytes, Number W16 r_fixed_prec_scale (λ v r, r <| r_fixed_prec_scale := v |>));
   (SQL_DESC_AUTO_UNIQUE_VALUE, "SQL_DESC_AUTO_UNIQUE_VALUE" : bytes, Number W16 r_auto_unique_value (λ v r, r <| r_auto_unique_value := v |>));
   (SQL_DESC_CASE_SENSITIVE, "SQL_DESC_CASE_SENSITIVE" : bytes, Number W16 r_case_sensitive (λ v r, r <| r_case_sensitive := v |>));
   (SQL_DESC_SEARCHABLE, "SQL_DESC_SEARCHABLE" : bytes, Number W16 r_searchable (λ v r, r <| r_searchable := v |>));
   (SQL_DESC_UPDATABLE, "SQL_DESC_UPDATABLE" : bytes, Number W16 r_updatable (λ v r, r <| r_updatable := v |>));
   (SQL_DESC_NUM_PREC_RADIX, "SQL_DESC_NUM_PREC_RADIX" : bytes, Number W16 r_num_prec_radix (λ v r, r <| r_num_prec_radix := v |>));
   (SQL_DESC_DISPLAY_SIZE, "SQL_DESC_DISPLAY_SIZE" : bytes, Number W64 r_display_size (λ v r, r <| r_display_size := v |>));
   (SQL_DESC_DATETIME_INTERVAL_CODE, "SQL_DESC_DATETIME_INTERVAL_CODE" : bytes, Number W16 r_datetime_interval_code (λ v r, r <| r_datetime_interval_code := v |>));
   (SQL_DESC_DATETIME_INTERVAL_PRECISION, "SQL_DESC_DATETIME_INTERVAL_PRECISION" : bytes, Number W16 r_datetime_interval_precision (λ v r, r <| r_datetime_interval_precision := v |>));
   (SQL_DESC_MAXIMUM_SCALE, "SQL_DESC_MAXIMUM_SCALE" : bytes, Number W16 r_maximum_scale (λ v r, r <| r_maximum_scale := v |>));
   (SQL_DESC_MINIMUM_SCALE, "SQL_DESC_MINIMUM_SCALE" : bytes, Number W16 r_minimum_scale (λ v r, r <| r_minimum_scale := v |>));
   (SQL_DESC_PARAMETER_TYPE, "SQL_DESC_PARAMETER_TYPE" : bytes, Number W16 r_concise_type (λ v r, r <| r_concise_type := v |>));
   (SQL_DESC_NAME, "SQL_DESC_NAME" : bytes, Text r_name (λ v r, r <| r_name := v |>));
   (SQL_DESC_LABEL, "SQL_DESC_LABEL" : bytes, Text r_label (λ v r, r <| r_label := v |>));
   (SQL_DESC_TYPE_NAME, "SQL_DESC_TYPE_NAME" : bytes, Text r_type_name (λ v r, r <| r_type_name := v |>));
   (SQL_DESC_TABLE_NAME, "SQL_DESC_TABLE_NAME" : bytes, Text r_table_name (λ v r, r <| r_table_name := v |>));
   (SQL_DESC_SCHEMA_NAME, "SQL_DESC_SCHEMA_NAME" : bytes, Text r_schema_name (λ v r, r <| r_schema_name := v |>));
   (SQL_DESC_CATALOG_NAME, "SQL_DESC_CATALOG_NAME" : bytes, Text r_catalog_name (λ v r, r <| r_catalog_name := v |>));
   (SQL_DESC_BASE_COLUMN_NAME, "SQL_DESC_BASE_COLUMN_NAME" : bytes, Text r_base_column_name (λ v r, r <| r_base_column_name := v |>));
   (SQL_DESC_BASE_TABLE_NAME, "SQL_DESC_BASE_TABLE_NAME" : bytes, Text r_base_table_name (λ v r, r <| r_base_table_name := v |>));
   (SQL_DESC_LITERAL_PREFIX, "SQL_DESC_LITERAL_PREFIX" : bytes, Text r_literal_prefix (λ v r, r <| r_literal_prefix := v |>));
   (SQL_DESC_LITERAL_SUFFIX, "SQL_DESC_LITERAL_SUFFIX" : bytes, Text r_literal_suffix (λ v r, r <| r_literal_suffix := v |>));
   (SQL_DESC_LOCAL_TYPE_NAME, "SQL_DESC_LOCAL_TYPE_NAME" : bytes, Text r_local_type_name (λ v r, r <| r_local_type_name := v |>));
   (SQL_DESC_UNNAMED, "SQL_DESC_UNNAMED" : bytes, Number W16 r_unnamed (λ v r, r <| r_unnamed := v |>));
   (SQL_DESC_DATA_PTR, "SQL_DESC_DATA_PTR" : bytes, Pointer false r_data_ptr (λ v r, r <| r_data_ptr := v |>));
   (SQL_DESC_INDICATOR_PTR, "SQL_DESC_INDICATOR_PTR" : bytes, Pointer true r_indicator_ptr (λ v r, r <| r_indicator_ptr := v |>));
   (SQL_DESC_OCTET_LENGTH_PTR, "SQL_DESC_OCTET_LENGTH_PTR" : bytes, Pointer true r_octet_length_ptr (λ v r, r <| r_octet_length_ptr := v |>));
   (SQL_DESC_NULLABLE, "SQL_DESC_NULLABLE" : bytes, Number W16 r_nullable (λ v r, r <| r_nullable := v |>))].

Fixpoint find_slot {R} (field_identifier : Z) (slots : list (Z * bytes * slot R)) : option (bytes * slot R) :=
  match slots with
  | [] => None
  | (id, name, s) :: slots => if id =? field_identifier then Some (name, s) else find_slot field_identifier slots
  end.

(** ** Setting *)

Definition assign {R} (name : bytes) (s : slot R) (value : source) (buffer_length : Z) (put : (R → R) → Desc ()) : Desc SQLRETURN :=
  match s with
  | Number w _ set =>
      if address value =? 0 then reject "HY009" ("Invalid use of null pointer: " ++ name) else
      data ← bytes_at value (Z.of_nat (size_of w)); _ ← put (set (decode w data)); mret SQL_SUCCESS
  | Text _ set =>
      text ← (if address value =? 0 then mret []
              else if (buffer_length <? 0) || (buffer_length =? SQL_NTS) then string_at value
              else bytes_at value buffer_length);
      _ ← put (set text); mret SQL_SUCCESS
  | Pointer _ _ set => _ ← put (set (address value)); mret SQL_SUCCESS
  | ReadOnly _ _ => mret SQL_SUCCESS
  end.

Definition unknown_field : Desc SQLRETURN := reject "HY091" "Invalid descriptor field identifier".

(** Records up to the one that is named exist. *)
Definition extended (rec_number : Z) (d : OdbcDescriptor) : OdbcDescriptor :=
  d <| records_ := records_ d ++ replicate (Z.to_nat rec_number - length (records_ d)) new_record |>
    <| count_ := Z.max (count_ d) rec_number |>.

Definition alter_record (rec_number : Z) (f : DescriptorRecord → DescriptorRecord) : Desc () :=
  revise (λ d, d <| records_ := list_alter f (Z.to_nat (rec_number - 1)) (records_ d) |>).

Definition setField (rec_number field_identifier : Z) (value : source) (buffer_length : Z) : Desc SQLRETURN :=
  _ ← clear_desc;
  if rec_number <? 0 then reject "07009" "Invalid descriptor index" else
  if rec_number =? 0 then
    match find_slot field_identifier header_slots with
    | None => unknown_field
    | Some (name, s) => assign name s value buffer_length revise
    end
  else
    _ ← revise (extended rec_number);
    match find_slot field_identifier record_slots with
    | None => unknown_field
    | Some (name, s) => assign name s value buffer_length (alter_record rec_number)
    end.

(** ** Reading *)

(** [copyString]: as much as fits, with a terminator. *)
Definition copy_string (text : bytes) (value buffer_length string_length : Z) : Desc SQLRETURN :=
  _ ← poke_to string_length 4 (blen text);
  if (value =? 0) || (buffer_length <=? 0) then mret SQL_SUCCESS else
  _ ← poke value (take (Z.to_nat (buffer_length - 1)) text ++ [Byte.x00]);
  if buffer_length <=? blen text then _ ← warn "01004" "String data, right truncated"; mret SQL_SUCCESS_WITH_INFO
  else mret SQL_SUCCESS.

Definition put_number (w : width) (z value string_length : Z) : Desc SQLRETURN :=
  _ ← poke_to value (size_of w) z; _ ← poke_to string_length 4 (Z.of_nat (size_of w)); mret SQL_SUCCESS.

Definition report_slot {R} (s : slot R) (r : R) (value buffer_length string_length : Z) : Desc SQLRETURN :=
  match s with
  | Number w get _ | ReadOnly w get => put_number w (get r) value string_length
  | Text get _ => copy_string (get r) value buffer_length string_length
  | Pointer false get _ => put_number U64 (get r) value string_length
  | Pointer true get _ =>
      z ← (if (value =? 0) || (get r =? 0) then mret 0 else d ← peek (get r) 8; mret (i64 (le_val d)));
      put_number W64 z value string_length
  end.

(** The record, if its number is one of the count. *)
Definition described (rec_number : Z) (d : OdbcDescriptor) : option DescriptorRecord :=
  if (rec_number <? 1) || (count_ d <? rec_number) || (blen (records_ d) <? rec_number) then None
  else records_ d !! Z.to_nat (rec_number - 1).

Definition getField (rec_number field_identifier value buffer_length string_length : Z) : Desc SQLRETURN :=
  _ ← clear_desc;
  d ← reads desc;
  if rec_number =? 0 then
    match find_slot field_identifier header_slots with
    | None => unknown_field
    | Some (_, s) => report_slot s d value buffer_length string_length
    end
  else
    match described rec_number d with
    | None => reject "07009" "Invalid descriptor index"
    | Some r =>
        match find_slot field_identifier record_slots with
        | None => unknown_field
        | Some (_, s) => report_slot s r value buffer_length string_length
        end
    end.

(** ** Whole records *)

Definition setRec (rec_number type sub_type length precision scale data string_length indicator : Z) : Desc SQLRETURN :=
  _ ← clear_desc;
  if rec_number <? 1 then reject "07009" "Invalid descriptor index" else
  _ ← revise (extended rec_number);
  _ ← alter_record rec_number (λ r, r <| r_type := type |> <| r_concise_type := type |> <| r_datetime_interval_code := sub_type |>
        <| r_length := length |> <| r_octet_length := length |> <| r_precision := precision |> <| r_scale := scale |>
        <| r_data_ptr := data |> <| r_octet_length_ptr := string_length |> <| r_indicator_ptr := indicator |>);
  mret SQL_SUCCESS.

Definition getRec (rec_number name buffer_length string_length type sub_type length precision scale nullable : Z) : Desc SQLRETURN :=
  _ ← clear_desc;
  d ← reads desc;
  match described rec_number d with
  | None => reject "07009" "Invalid descriptor index"
  | Some r =>
      _ ← poke_to string_length 2 (blen (r_name r));
      result ← (if (name =? 0) || (buffer_length <=? 0) then mret SQL_SUCCESS else copy_string (r_name r) name buffer_length 0);
      _ ← poke_to type 2 (r_type r); _ ← poke_to sub_type 2 (r_datetime_interval_code r); _ ← poke_to length 8 (r_length r);
      _ ← poke_to precision 2 (r_precision r); _ ← poke_to scale 2 (r_scale r); _ ← poke_to nullable 2 (r_nullable r);
      mret result
  end.

(** The target keeps its connection and its type. *)
Definition copied (s target : OdbcDescriptor) : OdbcDescriptor :=
  target <| count_ := count_ s |> <| array_size_ := array_size_ s |> <| alloc_type_ := alloc_type_ s |>
    <| array_status_ptr_ := array_status_ptr_ s |> <| bind_offset_ptr_ := bind_offset_ptr_ s |> <| bind_type_ := bind_type_ s |>
    <| rows_processed_ptr_ := rows_processed_ptr_ s |> <| records_ := records_ s |>.

Definition resetDescriptor (d : OdbcDescriptor) : OdbcDescriptor := d <| count_ := 0 |> <| records_ := [] |>.

(** ** Specification: a descriptor is a map from fields to the values last given *)

Record set_call := mkSet { set_rec : Z; set_field : Z; set_address : Z; set_length : Z }.

(** Whatever they return. *)
Fixpoint set_all (calls : list set_call) : Desc () :=
  match calls with
  | [] => mret tt
  | c :: calls =>
      _ ← setField (set_rec c) (set_field c) (application (set_address c)) (set_length c); set_all calls
  end.

(** Two identifiers name one field. *)
Definition canonical (field : Z) : Z := if field =? SQL_DESC_PARAMETER_TYPE then SQL_DESC_CONCISE_TYPE else field.

(** What a slot holds, and what a call gives it. *)
Definition shown {R} (s : slot R) (r : R) : bytes :=
  match s with
  | Number w get _ | ReadOnly w get => le_bytes (size_of w) (get r)
  | Text get _ => get r
  | Pointer _ get _ => le_bytes 8 (get r)
  end.

Definition supplied {R} (m : memory) (s : slot R) (addr len : Z) : option bytes :=
  match s with
  | Number w _ _ => if addr =? 0 then None else read_bytes m addr (Z.of_nat (size_of w))
  | Text _ _ =>
      if (addr =? 0) || (len =? 0) then Some []
      else if len <? 0 then read_string m addr else read_bytes m addr len
  | Pointer _ _ _ => Some (le_bytes 8 addr)
  | ReadOnly _ _ => None
  end.

Definition given (m : memory) (rec field : Z) (c : set_call) : option bytes :=
  if (set_rec c =? rec) && (canonical (set_field c) =? canonical field) then
    '(_, s) ← find_slot (set_field c) record_slots; supplied m s (set_address c) (set_length c)
  else None.

Definition last_given (m : memory) (rec field : Z) (calls : list set_call) : option bytes := last (omap (given m rec field) calls).

(** As [getField] writes it. *)
Definition written {R} (s : slot R) (data : bytes) : bytes := match s with Text _ _ => data ++ [Byte.x00] | _ => data end.

Definition dereferences {R} (s : slot R) : bool := match s with Pointer b _ _ => b | _ => false end.

(** ** Lemmas *)

Definition placed {R} (s : slot R) (data : bytes) : R → R :=
  match s with
  | Number w _ set => set (decode w data)
  | Text _ set => set data
  | Pointer _ _ set => set (le_val data)
  | ReadOnly _ _ => id
  end.

Definition fits {R} (s : slot R) (data : bytes) : Prop :=
  match s with
  | Number w _ _ => length data = size_of w
  | Text _ _ => True
  | Pointer _ _ _ => length data = 8%nat
  | ReadOnly _ _ => False
  end.

Lemma decoded w data : length data = size_of w → le_bytes (size_of w) (decode w data) = data.
Proof. intros H. destruct w; [exact (signed_bytes 2 data ltac:(lia) H)|exact (signed_bytes 8 data ltac:(lia) H)|exact (le_bytes_read 8 data H)]. Qed.

(** Setting a slot changes it, and no other. *)
Lemma slots_independent :
  Forall (λ x, Forall (λ y, ∀ data r, fits y.2 data →
    shown x.2 (placed y.2 data r) = if canonical y.1.1 =? canonical x.1.1 then data else shown x.2 r) record_slots) record_slots.
Proof.
  repeat (apply Forall_cons; split); try apply Forall_nil; try done; intros data r Hd; cbn [snd fst];
    match goal with |- context [canonical ?a =? canonical ?b] =>
      let v := eval vm_compute in (canonical a =? canonical b) in change (canonical a =? canonical b) with v end;
    cbv iota; try reflexivity; first [exact (decoded W16 data Hd)|exact (decoded W64 data Hd)|exact (le_bytes_read 8 data Hd)].
Qed.

(** A record that does not exist yet is as a new one. *)
Definition record_at (k : Z) (d : OdbcDescriptor) : DescriptorRecord := default new_record (records_ d !! Z.to_nat (k - 1)).

Lemma record_extended k n d : record_at k (extended n d) = record_at k d.
Proof.
  unfold record_at. set (i := Z.to_nat (k - 1)). set (j := (Z.to_nat n - length (records_ d))%nat).
  change (records_ (extended n d)) with (records_ d ++ replicate j new_record).
  destruct (decide (i < length (records_ d))%nat); [by rewrite lookup_app_l|].
  rewrite lookup_app_r by lia. rewrite (lookup_ge_None_2 (records_ d) i) by lia.
  destruct (replicate _ _ !! _) as [r|] eqn:E; [|done]. by apply lookup_replicate in E as [-> _].
Qed.

Lemma record_altered k n f d : 0 < k → 0 < n →
  record_at k (extended n d <| records_ := list_alter f (Z.to_nat (n - 1)) (records_ (extended n d)) |>) =
  if n =? k then f (record_at k d) else record_at k d.
Proof.
  intros Hk Hn. rewrite <-(record_extended k n d). unfold record_at. cbn [records_].
  set (l := records_ (extended n d)). assert (Hl : (Z.to_nat n <= length l)%nat).
  { change l with (records_ d ++ replicate (Z.to_nat n - length (records_ d)) new_record). rewrite length_app, length_replicate. lia. }
  clearbody l. destruct (Z.eqb_spec n k) as [->|Hne].
  - destruct (lookup_lt_is_Some_2 l (Z.to_nat (k - 1)) ltac:(lia)) as [r Hr].
    change (default new_record (alter f (Z.to_nat (k - 1)) l !! Z.to_nat (k - 1)) = f (default new_record (l !! Z.to_nat (k - 1)))).
    by rewrite list_lookup_alter_eq, Hr.
  - change (default new_record (alter f (Z.to_nat (n - 1)) l !! Z.to_nat (k - 1)) = default new_record (l !! Z.to_nat (k - 1))).
    by rewrite list_lookup_alter_ne by lia.
Qed.

(** *** One call *)

Definition application_address (c : set_call) : Prop := 0 <= set_address c < 2 ^ 64.

Lemma put_done (m : Desc ()) w rc w' : (_ ← m; mret SQL_SUCCESS) w = Returns rc w' → m w = Returns tt w'.
Proof. unfold mbind, prog_bind. destruct (m w) as [[] w1| | |]; try done. by intros [= _ <-]. Qed.

Lemma assigned {R} name (s : slot R) addr len put w rc w' : 0 <= addr < 2 ^ 64 →
  assign name s (application addr) len put w = Returns rc w' →
  match supplied (app_memory w) s addr len with
  | Some data => fits s data ∧ put (placed s data) w = Returns tt w'
  | None => records_ (desc w') = records_ (desc w) ∧ app_memory w' = app_memory w
  end.
Proof.
  intros Ha H. destruct s as [wd get set|get set|b get set|wd get]; cbn [assign application address bytes_at string_at supplied] in *.
  - destruct (addr =? 0); [by injection H as _ <-|]. unfold mbind at 1, prog_bind at 1, peek in H.
    replace (Z.of_nat (size_of wd) =? 0) with false in H by (by destruct wd).
    destruct (read_bytes _ _ _) as [data|] eqn:E; [|done]. split; [apply read_length in E; cbn [fits]; lia|]. by apply put_done in H.
  - unfold mbind at 1, prog_bind at 1 in H. destruct (addr =? 0); cbn [orb]; [split; [done|]; by apply put_done in H|].
    unfold peek in H. destruct (Z.eqb_spec len 0) as [->|Hl]; [split; [done|]; by apply put_done in H|].
    replace ((len <? 0) || (len =? SQL_NTS)) with (len <? 0) in H by (change SQL_NTS with (-3); lia).
    destruct (len <? 0); [destruct (read_string _ _)|destruct (read_bytes _ _ _)]; try done; (split; [done|]); by apply put_done in H.
  - split; [by cbn [fits]; rewrite length_le_bytes|]. cbn [placed].
    rewrite le_val_le_bytes, Z.mod_small by (change (256 ^ Z.of_nat 8) with (2 ^ 64); lia). by apply put_done in H.
  - by injection H as _ <-.
Qed.

Lemma find_slot_elem {R} f (slots : list (Z * bytes * slot R)) name s : find_slot f slots = Some (name, s) → (f, name, s) ∈ slots.
Proof.
  induction slots as [|[[id n] t] slots IH]; [done|]. cbn [find_slot]. destruct (Z.eqb_spec id f) as [->|].
  - intros [= -> ->]. apply list_elem_of_here.
  - intros H. apply list_elem_of_further. by apply IH.
Qed.

Lemma header_keeps_records : Forall (λ x, ∀ data d, records_ (placed x.2 data d) = records_ d) header_slots.
Proof. by repeat (apply Forall_cons; split). Qed.

Lemma slot_after f g name name' (s t : slot DescriptorRecord) data r :
  find_slot f record_slots = Some (name, s) → find_slot g record_slots = Some (name', t) → fits t data →
  shown s (placed t data r) = if canonical g =? canonical f then data else shown s r.
Proof.
  intros Hf%find_slot_elem Hg%find_slot_elem Hd. pose proof slots_independent as H.
  rewrite Forall_forall in H. specialize (H _ Hf). rewrite Forall_forall in H. exact (H _ Hg data r Hd).
Qed.

(** A call changes the fields that it names. *)
Lemma set_step c w rc w' : application_address c →
  setField (set_rec c) (set_field c) (application (set_address c)) (set_length c) w = Returns rc w' →
  app_memory w' = app_memory w ∧ ∀ k field name s, 0 < k → find_slot field record_slots = Some (name, s) →
    shown s (record_at k (desc w')) = default (shown s (record_at k (desc w))) (given (app_memory w) k field c).
Proof.
  intros Ha. unfold setField. unfold mbind at 1, prog_bind at 1. set (w0 := w <| desc := desc w <| d_diagnostics_ := [] |> |>).
  change (clear_desc w) with (Returns (W := desk) tt w0). cbv beta iota. destruct c as [n g addr len]; unfold application_address in Ha; cbn [set_rec set_field set_address set_length] in *.
  assert (Hother : ∀ k field, 0 < k → n ≠ k → given (app_memory w) k field (mkSet n g addr len) = None).
  { intros k field Hk Hne. unfold given. cbn [set_rec]. by replace (n =? k) with false by lia. }
  destruct (Z.ltb_spec n 0).
  { intros [= _ <-]. split; [done|]. intros k field name s Hk _. by rewrite Hother by lia. }
  destruct (Z.eqb_spec n 0) as [->|Hn].
  - intros H0. assert (E : records_ (desc w') = records_ (desc w) ∧ app_memory w' = app_memory w).
    { destruct (find_slot g header_slots) as [[name s]|] eqn:Hf; [|by injection H0 as _ <-].
      apply (assigned _ _ _ _ _ _ _ _ Ha) in H0. destruct (supplied _ _ _ _) as [data|]; [|done].
      destruct H0 as [_ [= <-]]. split; [|done]. apply find_slot_elem in Hf.
      exact (proj1 (Forall_forall _ _) header_keeps_records _ Hf data _). }
    destruct E as [Er Em]. split; [done|]. intros k field name s Hk _. rewrite Hother by lia. unfold record_at. by rewrite Er.
  - unfold mbind at 1, prog_bind at 1. set (w1 := w0 <| desc := extended n (desc w0) |>).
    change (revise (extended n) w0) with (Returns (W := desk) tt w1). cbv beta iota. intros H1.
    assert (Hrec : ∀ k, record_at k (desc w1) = record_at k (desc w)) by (intros k; etrans; [apply (record_extended k n (desc w0))|done]).
    destruct (find_slot g record_slots) as [[name' t]|] eqn:Hg.
    + apply (assigned _ _ _ _ _ _ _ _ Ha) in H1. change (app_memory w1) with (app_memory w) in H1.
      assert (Hgiven : ∀ k field, given (app_memory w) k field (mkSet n g addr len) =
        if (n =? k) && (canonical g =? canonical field) then supplied (app_memory w) t addr len else None).
      { intros k field. unfold given. cbn [set_rec set_field set_address set_length]. by rewrite Hg. }
      destruct (supplied (app_memory w) t addr len) as [data|] eqn:Hs.
      * destruct H1 as [Hfit [= <-]]. split; [done|]. intros k field name s Hk Hf. rewrite Hgiven.
        change (desc _) with (extended n (desc w0) <| records_ := list_alter (placed t data) (Z.to_nat (n - 1)) (records_ (extended n (desc w0))) |>) at 1.
        rewrite record_altered by lia. change (record_at k (desc w0)) with (record_at k (desc w)).
        destruct (n =? k); [|done]. cbn [andb]. rewrite (slot_after _ _ _ _ _ _ _ _ Hf Hg Hfit). by destruct (_ =? _).
      * destruct H1 as [Er Em]. split; [done|]. intros k field name s Hk Hf. rewrite Hgiven.
        replace (record_at k (desc w')) with (record_at k (desc w1)) by (unfold record_at; by rewrite Er). rewrite Hrec.
        by destruct (_ && _).
    + injection H1 as _ <-. split; [done|]. intros k field name s Hk Hf. unfold given. cbn [set_rec set_field]. rewrite Hg.
      change (record_at k (desc _)) with (record_at k (desc w1)) at 1. rewrite Hrec. by destruct (_ && _).
Qed.

(** *** Sequences of calls *)

Lemma last_given_cons m k field c calls :
  last_given m k field (c :: calls) = match last_given m k field calls with Some d => Some d | None => given m k field c end.
Proof.
  unfold last_given. cbn [omap list_omap]. change (list_omap _ _ (given m k field) calls) with (omap (given m k field) calls).
  destruct (given m k field c) as [d|]; [rewrite last_cons|]; by destruct (last _).
Qed.

Lemma set_all_fields calls w w' : Forall application_address calls → set_all calls w = Returns tt w' →
  app_memory w' = app_memory w ∧ ∀ k field name s, 0 < k → find_slot field record_slots = Some (name, s) →
    shown s (record_at k (desc w')) = default (shown s (record_at k (desc w))) (last_given (app_memory w) k field calls).
Proof.
  revert w. induction calls as [|c calls IH]; intros w; [by intros _ [= <-]|]. intros [Hc Hcalls]%Forall_cons. cbn [set_all].
  unfold mbind, prog_bind. destruct (setField _ _ _ _ w) as [rc w1| | |] eqn:E; try done. intros H.
  destruct (set_step c w rc w1 Hc E) as [Em1 Hs1]. destruct (IH w1 Hcalls H) as [Em Hs]. split; [congruence|].
  intros k field name s Hk Hf. rewrite (Hs k field name s Hk Hf), Em1, last_given_cons, (Hs1 k field name s Hk Hf).
  by destruct (last_given _ _ _ _).
Qed.

Lemma poked value data w : is_Some (read_bytes (app_memory w) value (blen data)) →
  ∃ w', poke value data w = Returns tt w' ∧ read_bytes (app_memory w') value (blen data) = Some data.
Proof.
  intros [d Hd]. destruct (write_succeeds _ _ _ _ Hd) as [m Hm]. exists (w <| app_memory := m |>).
  unfold poke. rewrite Hm. split; [done|]. by apply (read_written (app_memory w)).
Qed.

Lemma number_put wd z value w : value ≠ 0 → is_Some (read_bytes (app_memory w) value (Z.of_nat (size_of wd))) →
  ∃ w', put_number wd z value 0 w = Returns SQL_SUCCESS w' ∧
    read_bytes (app_memory w') value (Z.of_nat (size_of wd)) = Some (le_bytes (size_of wd) z).
Proof.
  intros Hv Hr. rewrite <-(length_le_bytes (size_of wd) z) in Hr. destruct (poked value _ w Hr) as (w' & E & Hm). exists w'.
  rewrite length_le_bytes in Hm. split; [|done]. unfold put_number, poke_to. replace (value =? 0) with false by lia.
  by rewrite (run_bind _ _ _ _ _ E).
Qed.

Lemma slot_reported {R} (s : slot R) r value w : dereferences s = false → value ≠ 0 →
  is_Some (read_bytes (app_memory w) value (blen (written s (shown s r)))) →
  ∃ w', report_slot s r value (blen (written s (shown s r))) 0 w = Returns SQL_SUCCESS w' ∧
    read_bytes (app_memory w') value (blen (written s (shown s r))) = Some (written s (shown s r)).
Proof.
  intros Hd Hv Hr. destruct s as [wd get set|get set|[] get set|wd get]; cbn [written shown report_slot] in *; try done;
    try (rewrite length_le_bytes in *; by apply (number_put _ _ _ _ Hv)).
  - destruct (poked value _ w Hr) as (w' & E & Hm). exists w'. split; [|done]. unfold copy_string.
    rewrite length_app in *. cbn [length] in *. rewrite (run_bind _ _ _ tt w) by done.
    replace ((value =? 0) || _) with false by lia. rewrite take_ge by lia. rewrite (run_bind _ _ _ _ _ E).
    by replace (_ <=? _) with false by lia.
  - rewrite length_le_bytes in *. by apply (number_put U64 _ _ _ Hv).
Qed.

(** *** What stays *)

(** No operation changes the connection, the type or the origin of a descriptor. *)
Definition identity (d : OdbcDescriptor) : Z * DescriptorType * bool := (d_conn_ d, desc_type_ d, implicit_ d).

Definition identified (i : Z * DescriptorType * bool) (k : desk) : Prop := identity (desc k) = i.

(** Reading through a pointer leaves the descriptor as it is. *)
Definition harmless (v : source) : Prop := ∀ i, (∀ n, keeps True (identified i) (bytes_at v n)) ∧ keeps True (identified i) (string_at v).

Lemma kept_desc_undefined {A} i : keeps True (identified i) (undefined : Desc A).
Proof. by intros k Hk. Qed.

Lemma kept_peek i addr n : keeps True (identified i) (peek addr n).
Proof. intros k Hk. unfold post, peek. destruct (n =? 0); [done|]. by destruct (read_bytes _ _ _). Qed.

Lemma kept_poke_to i pointer n z : keeps True (identified i) (poke_to pointer n z).
Proof. intros k Hk. unfold post, poke_to, poke. destruct (pointer =? 0); [done|]. by destruct (write_bytes _ _ _). Qed.

Lemma kept_poke i addr data : keeps True (identified i) (poke addr data).
Proof. intros k Hk. unfold post, poke. by destruct (write_bytes _ _ _). Qed.

Lemma kept_revise i f : (∀ d, identity (f d) = identity d) → keeps True (identified i) (revise f).
Proof. intros H k Hk. unfold post, revise, update, identified. cbn. by rewrite H. Qed.

#[export] Hint Resolve kept_desc_undefined kept_peek kept_poke_to kept_poke : keeps.
#[export] Hint Extern 1 (keeps True (identified _) (revise _)) => by apply kept_revise : keeps.

Lemma kept_clear_desc i : keeps True (identified i) clear_desc.
Proof. unfold clear_desc. keep. Qed.

Lemma kept_warn i sqlstate text : keeps True (identified i) (warn sqlstate text).
Proof. unfold warn. keep. Qed.

Lemma kept_reads i {A} (f : desk → A) : keeps True (identified i) (reads f).
Proof. by intros k Hk. Qed.

Lemma harmless_application addr : harmless (application addr).
Proof. intros i. split; [intros n; apply kept_peek|]. intros k Hk. unfold post, application. cbn. by destruct (read_string _ _). Qed.

Lemma harmless_pointer addr : harmless (pointer addr).
Proof. intros i. split; [intros n|]; apply kept_desc_undefined. Qed.

Lemma harmless_variable n z : harmless (variable n z).
Proof. intros i. split; [intros k; cbn; keep|apply kept_desc_undefined]. Qed.

#[export] Hint Resolve kept_clear_desc kept_warn kept_reads : keeps.
#[export] Hint Resolve harmless_application harmless_pointer harmless_variable : keeps.

Lemma kept_reject i sqlstate text : keeps True (identified i) (reject sqlstate text).
Proof. unfold reject. keep. Qed.

#[export] Hint Resolve kept_reject : keeps.

(** The changes that a slot makes. *)
Definition changes {R} (s : slot R) (f : R → R) : Prop :=
  match s with
  | Number _ _ set | Pointer _ _ set => ∃ v, f = set v
  | Text _ set => ∃ text, f = set text
  | ReadOnly _ _ => False
  end.

Lemma kept_assign i {R} name (s : slot R) v len put : harmless v → (∀ f, changes s f → keeps True (identified i) (put f)) →
  keeps True (identified i) (assign name s v len put).
Proof.
  intros Hv Hput. destruct (Hv i) as [Hb Hs]. destruct s as [w get set|get set|b get set|w get]; cbn [assign changes] in *; keep.
Qed.

Lemma header_changes_keep : Forall (λ x, ∀ f d, changes x.2 f → identity (f d) = identity d) header_slots.
Proof. repeat (apply Forall_cons; split; [by intros f d; cbn; intros [? ->] || intros []|]). apply Forall_nil_2. Qed.

Lemma kept_set_field i n field v len : harmless v → keeps True (identified i) (setField n field v len).
Proof.
  intros Hv. unfold setField, unknown_field. apply kept_bind; [keep|intros _]. destruct (_ <? _); [keep|]. destruct (_ =? _).
  - destruct (find_slot field header_slots) as [[name s]|] eqn:E; [|keep]. apply kept_assign; [done|]. intros f Hf.
    apply kept_revise. intros d. apply find_slot_elem in E. exact (proj1 (Forall_forall _ _) header_changes_keep _ E f d Hf).
  - apply kept_bind; [keep|intros _]. destruct (find_slot field record_slots) as [[name s]|]; [|keep].
    apply kept_assign; [done|]. intros f _. unfold alter_record. keep.
Qed.

Lemma kept_copy_string i text value len out : keeps True (identified i) (copy_string text value len out).
Proof. unfold copy_string. keep. Qed.

Lemma kept_put_number i w z value out : keeps True (identified i) (put_number w z value out).
Proof. unfold put_number. keep. Qed.

#[export] Hint Resolve kept_set_field kept_copy_string kept_put_number : keeps.

Lemma kept_report_slot i {R} (s : slot R) r value len out : keeps True (identified i) (report_slot s r value len out).
Proof. unfold report_slot. keep. Qed.

#[export] Hint Resolve kept_report_slot : keeps.

Lemma kept_get_field i n field value len out : keeps True (identified i) (getField n field value len out).
Proof. unfold getField, unknown_field. keep. Qed.

Lemma kept_set_rec i n type sub len precision scale data string_length indicator :
  keeps True (identified i) (setRec n type sub len precision scale data string_length indicator).
Proof. unfold setRec, alter_record. keep. Qed.

Lemma kept_get_rec i n name len out type sub length precision scale nullable :
  keeps True (identified i) (getRec n name len out type sub length precision scale nullable).
Proof. unfold getRec. keep. Qed.

#[export] Hint Resolve kept_get_field kept_set_rec kept_get_rec : keeps.

(** ** Theorems *)



(** ** Where it falls short *)

(** A pointer to an indicator is kept, but what it points to is read back. *)
Lemma indicator_is_dereferenced :
  match (_ ← setField 1 SQL_DESC_INDICATOR_PTR (pointer 16) 0; _ ← getField 1 SQL_DESC_INDICATOR_PTR 24 8 0; peek 24 8)
          (mkDesk (new_descriptor 1 APD true) [mkBlock 16 (le_bytes 8 7 ++ zeros 8)]) with
  | Returns d w => d = le_bytes 8 7
  | _ => False
  end.
Proof. by vm_compute. Qed.

(** A call that is refused adds the record that it names. *)
Lemma refused_call_adds_record :
  match setField 3 0 (pointer 0) 0 (mkDesk (new_descriptor 1 APD true) []) with
  | Returns rc w => rc = SQL_ERROR ∧ count_ (desc w) = 3 ∧ length (records_ (desc w)) = 3%nat
  | _ => False
  end.
Proof. by vm_compute. Qed.
