(* ===== verification/OdbcStatement.v ===== *)
(** * ODBC driver: statements

    Models [OdbcStatement] of [src/tracks/p3/drivers/odbc/src/odbc_handles.cpp]:
    preparing and executing, the cursor, reading values in chunks ([SQLGetData])
    and into bound columns, parameters bound in memory and streamed
    ([SQLPutData]), batches of results and positioned operations. Buffers of the
    application are memory ([OdbcRun]); a null pointer is the address 0.
    The descriptors ([OdbcDescriptor]) mirror the bindings. *)

From S2P Require Import Prelude.
From S2P Require Import Text.
From S2P Require Import Sqlstate.
From S2P Require Import Values.
From S2P Require Import OdbcText.
From S2P Require Import OdbcDates.
From S2P Require Import OdbcNumbers.
From S2P Require Import OdbcTypes.
From S2P Require Import OdbcRun.
From S2P Require Import OdbcConnection.
From S2P Require Import OdbcDescriptor.

(** ** State *)

Record ParameterBinding := mkParameter {
  input_output_type : Z; value_type : Z; parameter_type : Z; p_column_size : Z; decimal_digits : Z;
  parameter_value : Z; p_buffer_length : Z; p_str_len_or_ind : Z }.

Record ColumnBinding := mkColumnBinding {
  target_type : Z; target_value : Z; buffer_length : Z; str_len_or_ind : Z }.

(** [ColumnBinding{}] *)
Definition no_binding : ColumnBinding := mkColumnBinding SQL_C_DEFAULT 0 0 0.

Record ResultSet := mkResultSet { rs_columns : list ColumnMetadata; rs_rows : list (list bytes); rs_row_count : Z }.

Record GetDataStreamState := mkGetStream { gs_value : bytes; gs_offset : nat }.

Record PutDataStreamState := mkPutStream {
  value : bytes; expected_length : Z; expected_length_known : bool; complete : bool; truncated : bool }.

#[export] Instance PutDataStreamState_eta : Eta PutDataStreamState := λ s,
  mkPutStream (value s) (expected_length s) (expected_length_known s) (complete s) (truncated s).

(** [descriptors_] are the descriptors that exist, by address: those that the
    statement owns and those that the application made. *)
Record OdbcStatement := mkOdbcStatement {
  sql_ : bytes; prepared_ : bool; executed_ : bool; has_results_ : bool; server_stmt_id_ : Z;
  param_bindings_ : gmap Z ParameterBinding; paramset_size_ : Z; params_processed_ptr_ : Z; param_status_ptr_ : Z;
  param_bind_offset_ : Z; param_bind_type_ : Z;
  col_bindings_ : gmap Z ColumnBinding; bookmark_binding_ : ColumnBinding; bookmark_bound_ : bool;
  row_array_size_ : Z; rows_fetched_ptr_ : Z; row_status_ptr_ : Z; row_bind_offset_ : Z; fetch_bookmark_ptr_ : Z;
  columns_ : list ColumnMetadata; rows_ : list (list bytes); current_row_ : nat; row_count_ : Z;
  result_sets_ : list ResultSet; current_result_index_ : nat;
  cursor_type_ : Z; concurrency_ : Z;
  cursor_scrollable_ : Z; cursor_sensitivity_ : Z; row_bind_type_ : Z;
  query_timeout_ : Z; max_rows_ : Z; max_length_ : Z; noscan_ : bool; use_bookmarks_ : bool; retrieve_data_ : bool;
  cursor_name_ : bytes;
  conn_ : Z; descriptors_ : gmap Z OdbcDescriptor;
  app_param_desc_ : Z; ipd_desc_ : Z; app_row_desc_ : Z; ird_desc_ : Z;
  get_data_stream_ : gmap Z GetDataStreamState;
  put_data_stream_ : gmap Z PutDataStreamState; data_at_exec_params_ : list Z; data_at_exec_index_ : nat;
  data_at_exec_active_ : bool; data_at_exec_row_offset_ : Z;
  diagnostics_ : list DiagnosticRecord
}.

#[export] Instance OdbcStatement_eta : Eta OdbcStatement := λ s,
  mkOdbcStatement (sql_ s) (prepared_ s) (executed_ s) (has_results_ s) (server_stmt_id_ s)
    (param_bindings_ s) (paramset_size_ s) (params_processed_ptr_ s) (param_status_ptr_ s)
    (param_bind_offset_ s) (param_bind_type_ s) (col_bindings_ s) (bookmark_binding_ s) (bookmark_bound_ s)
    (row_array_size_ s) (rows_fetched_ptr_ s) (row_status_ptr_ s) (row_bind_offset_ s) (fetch_bookmark_ptr_ s)
    (columns_ s) (rows_ s) (current_row_ s) (row_count_ s) (result_sets_ s) (current_result_index_ s)
    (cursor_type_ s) (concurrency_ s) (cursor_scrollable_ s) (cursor_sensitivity_ s) (row_bind_type_ s)
    (query_timeout_ s) (max_rows_ s) (max_length_ s) (noscan_ s) (use_bookmarks_ s) (retrieve_data_ s) (cursor_name_ s)
    (conn_ s) (descriptors_ s) (app_param_desc_ s) (ipd_desc_ s) (app_row_desc_ s) (ird_desc_ s) (get_data_stream_ s) (put_data_stream_ s) (data_at_exec_params_ s)
    (data_at_exec_index_ s) (data_at_exec_active_ s) (data_at_exec_row_offset_ s) (diagnostics_ s).

(** The four descriptors that a statement owns, by address. *)
Definition owned_app_param_desc_ : Z := 1.
Definition owned_imp_param_desc_ : Z := 2.
Definition owned_app_row_desc_ : Z := 3.
Definition owned_ird_desc_ : Z := 4.

Definition owned_descriptors (conn : Z) : gmap Z OdbcDescriptor :=
  <[owned_app_param_desc_ := new_descriptor conn APD true]> (<[owned_imp_param_desc_ := new_descriptor conn IPD true]>
    (<[owned_app_row_desc_ := new_descriptor conn ARD true]> (<[owned_ird_desc_ := new_descriptor conn IRD true]> ∅))).

(** [OdbcStatement(conn)], on a connection at the address 1; the number in the
    name of the cursor comes from a counter of the process. *)
Definition new_statement : OdbcStatement :=
  mkOdbcStatement [] false false false 0 ∅ 1 0 0 0 0 ∅ no_binding false 1 0 0 0 0 [] [] 0 (-1) [] 0
    SQL_CURSOR_FORWARD_ONLY SQL_CONCUR_READ_ONLY 0 0 0 0 0 0 false false true "SB_CUR_1"
    1 (owned_descriptors 1) owned_app_param_desc_ owned_imp_param_desc_ owned_app_row_desc_ owned_ird_desc_
    ∅ ∅ [] 0 false 0 [].

(** A statement, its connection, and the memory of the application. *)
Record world := mkWorld { stmt : OdbcStatement; conn : OdbcConnection; mem : memory }.

#[export] Instance world_eta : Eta world := λ w, mkWorld (stmt w) (conn w) (mem w).

Definition Stmt (A : Type) : Type := prog world A.

(** ** Operations on the parts *)

Definition field {A} (f : OdbcStatement → A) : Stmt A := λ w, Returns (f (stmt w)) w.
Definition change (f : OdbcStatement → OdbcStatement) : Stmt () := λ w, Returns tt (w <| stmt := f (stmt w) |>).
Definition on_connection {A} (m : prog OdbcConnection A) : Stmt A := zoom conn (λ c w, w <| conn := c |>) m.

Definition clearDiagnostics : Stmt () := change (λ s, s <| diagnostics_ := [] |>).

Definition setError (sqlstate : bytes) (native_error : Z) (message : bytes) : Stmt () :=
  change (λ s, s <| diagnostics_ := diagnostics_ s ++ [mkDiagnostic sqlstate native_error message] |>).

(** [setError(sqlstate, 0, message); return SQL_ERROR;] *)
Definition refuse (sqlstate message : bytes) : Stmt SQLRETURN := _ ← setError sqlstate 0 message; mret SQL_ERROR.

Definition truncation : Stmt () := setError "01004" 0 "String data, right truncated".

(** Nothing is accessed for no bytes. *)
Definition load (addr n : Z) : Stmt bytes := λ w,
  if n =? 0 then Returns [] w else
  match read_bytes (mem w) addr n with Some d => Returns d w | None => Undefined end.
Definition store (addr : Z) (data : bytes) : Stmt () := λ w,
  if bool_decide (data = []) then Returns tt w else
  match write_bytes (mem w) addr data with Some m => Returns tt (w <| mem := m |>) | None => Undefined end.
Definition load_string (addr : Z) : Stmt bytes := λ w,
  match read_string (mem w) addr with Some d => Returns d w | None => Undefined end.

(** [if (pointer) *pointer = z;] for a number of [n] bytes. *)
Definition store_to (pointer : Z) (n : nat) (z : Z) : Stmt () := if pointer =? 0 then mret tt else store pointer (le_bytes n z).

Definition load_i64 (addr : Z) : Stmt Z := d ← load addr 8; mret (i64 (le_val d)).

(** A string given by its address and a length, or [SQL_NTS]; another negative
    length is too large for a string. *)
Definition argument_text (addr len : Z) : Stmt bytes :=
  if len =? SQL_NTS then load_string addr else if len <? 0 then throws else load addr len.

(** ** Descriptors *)

(** A descriptor that no longer exists is not to be used. *)
Definition on_descriptor {A} (handle : Z) (m : Desc A) : Stmt A := λ w,
  match descriptors_ (stmt w) !! handle with
  | None => Undefined
  | Some d =>
      match m (mkDesk d (mem w)) with
      | Returns a k =>
          Returns a (w <| stmt := stmt w <| descriptors_ := <[handle := desc k]> (descriptors_ (stmt w)) |> |> <| mem := app_memory k |>)
      | Undefined => Undefined
      | Throws => Throws
      | NoFuel => NoFuel
      end
  end.

Definition reset_descriptor (which : OdbcStatement → Z) : Stmt () :=
  handle ← field which; on_descriptor handle (revise resetDescriptor).

(** Fields of a descriptor, set until one is refused. *)
Fixpoint set_fields (handle : Z) (fields : list (Z * Z * source)) : Stmt SQLRETURN :=
  match fields with
  | [] => mret SQL_SUCCESS
  | (rec_number, field_identifier, value) :: fields =>
      rc ← on_descriptor handle (setField rec_number field_identifier value 0);
      if negb (rc =? SQL_SUCCESS) then mret SQL_ERROR else set_fields handle fields
  end.

(** Both descriptors, until a field is refused. *)
Definition set_both (first second : OdbcStatement → Z) (fields : list (Z * Z * source)) : Stmt bool :=
  handle ← field first;
  rc ← set_fields handle fields;
  if negb (rc =? SQL_SUCCESS) then mret false else
  handle ← field second;
  rc ← set_fields handle fields;
  mret (rc =? SQL_SUCCESS).

(** ** Clearing *)

Definition clearGetDataState : Stmt () := change (λ s, s <| get_data_stream_ := ∅ |>).

Definition clearPutDataState : Stmt () :=
  change (λ s, s <| put_data_stream_ := ∅ |> <| data_at_exec_params_ := [] |> <| data_at_exec_index_ := O |>
                 <| data_at_exec_active_ := false |> <| data_at_exec_row_offset_ := 0 |>).

Definition no_rows (s : OdbcStatement) : OdbcStatement :=
  s <| get_data_stream_ := ∅ |> <| columns_ := [] |> <| rows_ := [] |> <| result_sets_ := [] |> <| current_row_ := O |>
    <| row_count_ := -1 |> <| has_results_ := false |> <| current_result_index_ := O |>.

Definition resetResults : Stmt () := change no_rows.

(** ** Results of a batch *)

(** Columns and rows are moved out of the list. *)
Definition applyResultSet (index : nat) : Stmt () :=
  sets ← field result_sets_;
  match sets !! index with
  | None => resetResults
  | Some rs =>
      change (λ s, s <| get_data_stream_ := ∅ |> <| columns_ := rs_columns rs |> <| rows_ := rs_rows rs |>
                     <| row_count_ := rs_row_count rs |> <| current_row_ := O |>
                     <| has_results_ := negb (bool_decide (rs_columns rs = [])) |>
                     <| result_sets_ := <[index := mkResultSet [] [] (rs_row_count rs)]> sets |>)
  end.

Definition setCatalogResult (columns : list ColumnMetadata) (rows : list (list bytes)) : Stmt () :=
  _ ← resetResults;
  _ ← change (λ s, s <| result_sets_ := [mkResultSet columns rows (blen rows)] |> <| current_result_index_ := O |>);
  _ ← applyResultSet O;
  change (λ s, s <| executed_ := true |> <| prepared_ := false |>).

Definition moreResults : Stmt SQLRETURN :=
  _ ← clearDiagnostics;
  s ← field id;
  if bool_decide (result_sets_ s = []) then mret SQL_NO_DATA else
  let next_index := S (current_result_index_ s) in
  if (length (result_sets_ s) <=? next_index)%nat then mret SQL_NO_DATA else
  _ ← change (λ s, s <| current_result_index_ := next_index |>);
  _ ← applyResultSet next_index;
  mret SQL_SUCCESS.

Definition closeCursor : Stmt SQLRETURN :=
  _ ← clearDiagnostics;
  has_results ← field has_results_;
  if negb has_results then refuse "24000" "Invalid cursor state" else
  _ ← resetResults; mret SQL_SUCCESS.

Definition freeStmt (option : Z) : Stmt SQLRETURN :=
  _ ← clearDiagnostics;
  if option =? SQL_CLOSE then
    has_results ← field has_results_;
    if has_results : bool then _ ← closeCursor; mret SQL_SUCCESS else mret SQL_SUCCESS
  else if option =? SQL_DROP then mret SQL_SUCCESS
  else if option =? SQL_UNBIND then
    _ ← change (λ s, s <| col_bindings_ := ∅ |>);
    _ ← reset_descriptor app_row_desc_; _ ← reset_descriptor ird_desc_; mret SQL_SUCCESS
  else if option =? SQL_RESET_PARAMS then
    _ ← change (λ s, s <| param_bindings_ := ∅ |>);
    _ ← reset_descriptor app_param_desc_; _ ← reset_descriptor ipd_desc_; _ ← clearPutDataState; mret SQL_SUCCESS
  else refuse "HY092" "Invalid attribute identifier".

Definition rowCount (row_count_ptr : Z) : Stmt SQLRETURN :=
  _ ← clearDiagnostics;
  if row_count_ptr =? 0 then refuse "HY009" "Invalid use of null pointer" else
  n ← field row_count_; _ ← store_to row_count_ptr 8 n; mret SQL_SUCCESS.

Definition numResultCols (column_count : Z) : Stmt SQLRETURN :=
  _ ← clearDiagnostics;
  if column_count =? 0 then refuse "HY009" "Invalid use of null pointer" else
  columns ← field columns_; _ ← store_to column_count 2 (blen columns); mret SQL_SUCCESS.

(** ** Binding *)

Definition small_size (size : Z) : Z := if size <=? 32767 then size else 32767.

(** [SQL_SEARCHABLE] is a code of the system's [sqlext.h]. *)
Definition parameter_fields (SQL_SEARCHABLE parameter_number : Z) (binding : ParameterBinding) : list (Z * Z * source) :=
  let n := SQLSMALLINT parameter_number in
  let unsigned_flag :=
    if bool_decide (value_type binding ∈ [SQL_C_UTINYINT; SQL_C_USHORT; SQL_C_ULONG; SQL_C_UBIGINT]) then 1 else 0 in
  [(0, SQL_DESC_COUNT, variable 2 parameter_number);
   (n, SQL_DESC_TYPE, variable 2 (parameter_type binding));
   (n, SQL_DESC_CONCISE_TYPE, variable 2 (parameter_type binding));
   (n, SQL_DESC_DATA_PTR, pointer (parameter_value binding));
   (n, SQL_DESC_INDICATOR_PTR, pointer (p_str_len_or_ind binding));
   (n, SQL_DESC_OCTET_LENGTH_PTR, pointer (p_str_len_or_ind binding));
   (n, SQL_DESC_LENGTH, variable 8 (p_buffer_length binding));
   (n, SQL_DESC_OCTET_LENGTH, variable 8 (p_buffer_length binding));
   (n, SQL_DESC_PRECISION, variable 2 (small_size (p_column_size binding)));
   (n, SQL_DESC_SCALE, variable 2 (decimal_digits binding));
   (n, SQL_DESC_UNSIGNED, variable 2 unsigned_flag);
   (n, SQL_DESC_NULLABLE, variable 2 SQL_NULLABLE_UNKNOWN);
   (n, SQL_DESC_SEARCHABLE, variable 2 SQL_SEARCHABLE)].

Definition bindParameter (SQL_SEARCHABLE parameter_number : Z) (binding : ParameterBinding) : Stmt SQLRETURN :=
  _ ← clearDiagnostics; _ ← clearPutDataState;
  if parameter_number =? 0 then refuse "HY000" "Invalid parameter number" else
  _ ← change (λ s, s <| param_bindings_ := <[parameter_number := binding]> (param_bindings_ s) |>);
  updated ← set_both app_param_desc_ ipd_desc_ (parameter_fields SQL_SEARCHABLE parameter_number binding);
  if updated : bool then mret SQL_SUCCESS else refuse "HY000" "Failed to update descriptor metadata".

Definition column_fields (column_number : Z) (binding : ColumnBinding) (col : option ColumnMetadata) : list (Z * Z * source) :=
  let n := SQLSMALLINT column_number in
  [(0, SQL_DESC_COUNT, variable 2 column_number);
   (n, SQL_DESC_DATA_PTR, pointer (target_value binding));
   (n, SQL_DESC_OCTET_LENGTH_PTR, pointer 0);
   (n, SQL_DESC_INDICATOR_PTR, pointer (str_len_or_ind binding));
   (n, SQL_DESC_OCTET_LENGTH, variable 8 (buffer_length binding))] ++
  match col with
  | None => []
  | Some col =>
      [(n, SQL_DESC_TYPE, variable 2 (sql_type col));
       (n, SQL_DESC_PRECISION, variable 2 (small_size (column_size col)));
       (n, SQL_DESC_SCALE, variable 2 (col_decimal_digits col));
       (n, SQL_DESC_NULLABLE, variable 2 (nullable col));
       (n, SQL_DESC_LENGTH, variable 8 (column_size col));
       (n, SQL_DESC_DISPLAY_SIZE, variable 8 (column_size col));
       (n, SQL_DESC_SEARCHABLE, variable 2 (searchable col));
       (n, SQL_DESC_UPDATABLE, variable 2 0)]
  end.

Definition bindCol (column_number : Z) (binding : ColumnBinding) : Stmt SQLRETURN :=
  _ ← clearDiagnostics;
  if column_number =? 0 then
    if (target_value binding =? 0) && (str_len_or_ind binding =? 0)
    then _ ← change (λ s, s <| bookmark_bound_ := false |> <| bookmark_binding_ := no_binding |>); mret SQL_SUCCESS
    else _ ← change (λ s, s <| bookmark_binding_ := binding |> <| bookmark_bound_ := true |>); mret SQL_SUCCESS
  else
    _ ← change (λ s, s <| col_bindings_ := <[column_number := binding]> (col_bindings_ s) |>);
    columns ← field columns_;
    updated ← set_both app_row_desc_ ird_desc_ (column_fields column_number binding (columns !! Z.to_nat (column_number - 1)));
    if updated : bool then mret SQL_SUCCESS else refuse "HY000" "Failed to update row descriptor metadata".

Definition numParams (param_count : Z) : Stmt SQLRETURN :=
  _ ← clearDiagnostics;
  if param_count =? 0 then refuse "HY009" "Invalid use of null pointer" else
  bindings ← field param_bindings_; _ ← store_to param_count 2 (Z.of_nat (size bindings)); mret SQL_SUCCESS.

(** ** Parameters given at execution *)

Definition kDataAtExecLenOffset : Z := -100.

Definition isDataAtExecIndicatorValue (indicator : Z) : bool :=
  (indicator =? SQL_DATA_AT_EXEC) ||
  ((indicator <=? kDataAtExecLenOffset) && negb (indicator =? SQL_NULL_DATA) && negb (indicator =? SQL_NTS)).

(** The length that the indicator announces; the negation overflows for the
    least value. *)
Definition parseDataAtExecLength (indicator : Z) : outcome (option Z) :=
  if indicator =? SQL_DATA_AT_EXEC then Ret None
  else if (indicator <=? kDataAtExecLenOffset) && negb (indicator =? SQL_NTS) && negb (indicator =? SQL_NULL_DATA) then
    if indicator =? - 2 ^ 63 then UB else
    let length := - indicator - 100 in Ret (if length <? 0 then None else Some length)
  else Ret None.

Definition putDataStreamKey (parameter_number row_offset : Z) : Z := Z.lor (u64 (Z.shiftl row_offset 16)) parameter_number.

(** The address of the indicator of a row, 0 without one. *)
Definition indicatorForRow (s : OdbcStatement) (binding : ParameterBinding) (row_offset : Z) : Z :=
  if p_str_len_or_ind binding =? 0 then 0 else
  let indicator_stride :=
    if negb (param_bind_type_ s =? 0) then param_bind_type_ s
    else if 0 <? param_bind_offset_ s then param_bind_offset_ s else 8 in
  let indicator_base_offset :=
    if negb (param_bind_type_ s =? 0) && (0 <? param_bind_offset_ s) then param_bind_offset_ s else 0 in
  p_str_len_or_ind binding + indicator_base_offset + row_offset * indicator_stride.

Definition load_indicator (binding : ParameterBinding) (row_offset : Z) : Stmt (option Z) :=
  s ← field id;
  let addr := indicatorForRow s binding row_offset in
  if addr =? 0 then mret None else ind ← load_i64 addr; mret (Some ind).

Definition set_stream (key : Z) (state : PutDataStreamState) : Stmt () :=
  change (λ s, s <| put_data_stream_ := <[key := state]> (put_data_stream_ s) |>).

(** The body of the loop over the bindings: whether the parameter is pending. *)
Definition note_stream (row_offset parameter_number : Z) (binding : ParameterBinding) : Stmt bool :=
  ind ← load_indicator binding row_offset;
  match ind with
  | None => mret false
  | Some ind =>
      if negb (isDataAtExecIndicatorValue ind) then mret false else
      let key := putDataStreamKey parameter_number row_offset in
      streams ← field put_data_stream_;
      if from_option complete false (streams !! key) then mret false else
      expected ← from_outcome (parseDataAtExecLength ind);
      match streams !! key, expected with
      | None, _ => _ ← set_stream key (mkPutStream [] (default 0 expected) (bool_decide (is_Some expected)) false false); mret true
      | Some state, Some n => _ ← set_stream key (state <| expected_length := n |> <| expected_length_known := true |>); mret true
      | Some _, None => mret true
      end
  end.

Fixpoint note_streams (row_offset : Z) (bindings : list (Z * ParameterBinding)) : Stmt (list Z) :=
  match bindings with
  | [] => mret []
  | (parameter_number, binding) :: bindings =>
      pending ← note_stream row_offset parameter_number binding;
      rest ← note_streams row_offset bindings;
      mret (if pending : bool then parameter_number :: rest else rest)
  end.

Definition validateOrInitDataAtExecStateForRow (row_offset : Z) : Stmt SQLRETURN :=
  s ← field id;
  if negb (prepared_ s) then refuse "HY010" "Function sequence error" else
  if data_at_exec_active_ s && negb (bool_decide (data_at_exec_params_ s = [])) &&
     (data_at_exec_index_ s <? length (data_at_exec_params_ s))%nat && (data_at_exec_row_offset_ s =? row_offset)
  then mret SQL_NEED_DATA else
  _ ← change (λ s, s <| data_at_exec_active_ := false |> <| data_at_exec_params_ := [] |> <| data_at_exec_index_ := O |>
                     <| data_at_exec_row_offset_ := row_offset |>);
  pending ← note_streams row_offset (map_to_list (param_bindings_ s));
  if bool_decide (pending = []) then mret SQL_SUCCESS else
  _ ← change (λ s, s <| data_at_exec_params_ := merge_sort Z.le pending |> <| data_at_exec_active_ := true |>);
  mret SQL_NEED_DATA.

(** The parameter that is being given, 0 without one. *)
Definition getCurrentDataAtExecParameter (s : OdbcStatement) : Z :=
  if data_at_exec_active_ s then default 0 (data_at_exec_params_ s !! data_at_exec_index_ s) else 0.

Definition paramData (token : Z) : Stmt SQLRETURN :=
  _ ← clearDiagnostics;
  if token =? 0 then refuse "HY009" "Invalid use of null pointer" else
  s ← field id;
  if negb (prepared_ s) then refuse "HY010" "Function sequence error" else
  if negb (data_at_exec_active_ s) then
    status ← validateOrInitDataAtExecStateForRow 0;
    if status =? SQL_SUCCESS then _ ← store_to token 8 0; mret SQL_SUCCESS
    else if status =? SQL_NEED_DATA then
      current_param ← field getCurrentDataAtExecParameter;
      if current_param =? 0 then refuse "HY000" "Failed to initialize SQLDataAtExec state"
      else _ ← store_to token 8 current_param; mret SQL_NEED_DATA
    else mret status
  else
    let current_param := getCurrentDataAtExecParameter s in
    if current_param =? 0 then refuse "HY010" "Function sequence error"
    else _ ← store_to token 8 current_param; mret SQL_NEED_DATA.

(** On to the next pending parameter; after the last one none is active. *)
Definition next_parameter : Stmt () :=
  change (λ s, if (S (data_at_exec_index_ s) <? length (data_at_exec_params_ s))%nat
               then s <| data_at_exec_index_ := S (data_at_exec_index_ s) |>
               else s <| data_at_exec_active_ := false |>).

(** The bytes of a chunk, or [None] after the error. *)
Definition put_chunk (binding : ParameterBinding) (data len : Z) : Stmt (option bytes) :=
  if (len =? SQL_NTS) && (value_type binding =? SQL_C_CHAR) then
    if data =? 0 then _ ← refuse "HY009" "Invalid use of null pointer"; mret None
    else chunk ← load_string data; mret (Some chunk)
  else if 0 <? len then
    if data =? 0 then _ ← refuse "HY009" "Invalid use of null pointer"; mret None
    else chunk ← load data len; mret (Some chunk)
  else if len =? 0 then mret (Some [])
  else _ ← refuse "HY009" "Invalid use of negative length"; mret None.

(** What a chunk does to a stream: the stream, whether its parameter is done,
    and whether bytes were cut off. *)
Definition append_chunk (len : Z) (chunk : bytes) (stream : PutDataStreamState) : PutDataStreamState * bool * bool :=
  if expected_length_known stream then
    let remaining := expected_length stream - blen (value stream) in
    if (0 <? remaining) && (remaining <? blen chunk) then
      (stream <| value := value stream ++ take (Z.to_nat remaining) chunk |> <| truncated := true |> <| complete := true |>,
       true, true)
    else
      let stream := if remaining <=? 0 then stream <| complete := true |> else stream <| value := value stream ++ chunk |> in
      if expected_length stream <=? blen (value stream) then (stream <| complete := true |>, true, false)
      else (stream, false, false)
  else
    let stream := stream <| value := value stream ++ chunk |> in
    if len =? 0 then (stream <| complete := true |>, true, false) else (stream, false, false).

Definition putData (data len : Z) : Stmt SQLRETURN :=
  _ ← clearDiagnostics;
  s ← field id;
  if negb (prepared_ s) then refuse "HY010" "Function sequence error" else
  if negb (data_at_exec_active_ s) then refuse "HY010" "Function sequence error" else
  let current_param := getCurrentDataAtExecParameter s in
  if current_param =? 0 then refuse "HY010" "Function sequence error" else
  match param_bindings_ s !! current_param with
  | None => refuse "07009" "Invalid descriptor index"
  | Some binding =>
      ind ← load_indicator binding (data_at_exec_row_offset_ s);
      match ind with
      | None => refuse "HY000" "Missing parameter indicator for SQL_DATA_AT_EXEC"
      | Some ind =>
          if negb (isDataAtExecIndicatorValue ind) then refuse "HY000" "Parameter is not marked SQL_DATA_AT_EXEC" else
          let key := putDataStreamKey current_param (data_at_exec_row_offset_ s) in
          match put_data_stream_ s !! key with
          | None => refuse "HY000" "Invalid SQL_DATA_AT_EXEC parameter state"
          | Some stream =>
              if complete stream then refuse "HY010" "Function sequence error" else
              chunk ← put_chunk binding data len;
              match chunk with
              | None => mret SQL_ERROR
              | Some chunk =>
                  let '(stream, finished, cut) := append_chunk len chunk stream in
                  _ ← set_stream key stream;
                  _ ← (if cut : bool then truncation else mret tt);
                  _ ← (if finished : bool then next_parameter else mret tt);
                  mret (if cut : bool then SQL_SUCCESS_WITH_INFO else SQL_SUCCESS)
              end
          end
      end
  end.

(** ** Reading values *)

Definition date_bytes (d : SQL_DATE_STRUCT) : bytes := le_bytes 2 (year d) ++ le_bytes 2 (month d) ++ le_bytes 2 (day d).
Definition time_bytes (t : SQL_TIME_STRUCT) : bytes := le_bytes 2 (hour t) ++ le_bytes 2 (minute t) ++ le_bytes 2 (second t).
Definition timestamp_bytes (ts : SQL_TIMESTAMP_STRUCT) : bytes :=
  date_bytes (ts_date ts) ++ time_bytes (ts_time ts) ++ le_bytes 4 (fraction ts).
Definition guid_bytes (g : SQLGUID) : bytes := le_bytes 4 (Data1 g) ++ le_bytes 2 (Data2 g) ++ le_bytes 2 (Data3 g) ++ Data4 g.

(** The next piece of a value: the return code and the length that is reported.
    [initial] is the value as it is streamed, if its stream is not open yet. *)
Definition streamChunk (column : Z) (initial : bytes) (is_text : bool) (target buffer_length : Z) (stream_chunks : bool)
    : Stmt (SQLRETURN * Z) :=
  streams ← field get_data_stream_;
  let state := default (mkGetStream initial O) (streams !! column) in
  let source := gs_value state in
  let total_size := length source in
  let offset := gs_offset state in
  if (total_size <=? offset)%nat then
    _ ← change (λ s, s <| get_data_stream_ := delete column streams |>); mret (SQL_SUCCESS, 0)
  else if buffer_length <=? 0 then
    _ ← change (λ s, s <| get_data_stream_ := <[column := state]> streams |>); mret (SQL_SUCCESS, blen source)
  else
    let capacity := (if is_text then Z.to_nat buffer_length - 1 else Z.to_nat buffer_length)%nat in
    let remaining := (total_size - offset)%nat in
    let copy_size := Nat.min capacity remaining in
    let reported :=
      if is_text && stream_chunks && negb (offset =? 0)%nat && negb (copy_size <? remaining)%nat then 0 else blen source in
    let chunk := take copy_size (drop offset source) in
    _ ← (if target =? 0 then mret tt else store target (if is_text then chunk ++ [Byte.x00] else chunk));
    _ ← change (λ s, s <| get_data_stream_ := <[column := mkGetStream source (offset + copy_size)]> streams |>);
    if (offset + copy_size <? total_size)%nat then _ ← truncation; mret (SQL_SUCCESS_WITH_INFO, reported)
    else mret (SQL_SUCCESS, reported).

(** A number or structure of fixed size; without a target the value is not
    looked at. *)
Definition store_fixed (target ind : Z) (data : option bytes) (size : Z) : Stmt SQLRETURN :=
  _ ← (if target =? 0 then mret tt else d ← or_throw data; store target d);
  _ ← store_to ind 8 size; mret SQL_SUCCESS.

(** A structure that is read from text. *)
Definition store_parsed (target ind : Z) (data : option bytes) (sqlstate message : bytes) : Stmt SQLRETURN :=
  if target =? 0 then refuse "HY009" "Invalid use of null pointer" else
  match data with
  | None => refuse sqlstate message
  | Some d => _ ← store target d; _ ← store_to ind 8 (blen d); mret SQL_SUCCESS
  end.

Definition bit_value (value : bytes) : Z := if bool_decide (value ∈ ["1" : bytes; "true" : bytes; "t" : bytes]) then 1 else 0.

(** The [switch] over the type of the target. *)
Definition convert (column type : Z) (value : bytes) (is_binary_column : bool) (target buffer_length ind : Z) (stream_chunks : bool)
    : Stmt SQLRETURN :=
  if bool_decide (type ∈ [SQL_C_CHAR; SQL_C_DEFAULT]) then
    '(result, total_length) ← streamChunk column (if is_binary_column then bytesToHexString value else value) true
                                target buffer_length stream_chunks;
    _ ← store_to ind 8 total_length; mret result
  else if bool_decide (type ∈ [SQL_C_LONG; SQL_C_SLONG]) then store_fixed target ind (le_bytes 4 <$> stoi value) 4
  else if bool_decide (type ∈ [SQL_C_SHORT; SQL_C_SSHORT]) then store_fixed target ind (le_bytes 2 <$> stoi value) 2
  else if type =? SQL_C_SBIGINT then store_fixed target ind (le_bytes 8 <$> stoll value) 8
  else if type =? SQL_C_DOUBLE then store_fixed target ind (le_bytes 8 <$> stod value) 8
  else if type =? SQL_C_FLOAT then store_fixed target ind (le_bytes 4 <$> stof value) 4
  else if type =? SQL_C_BIT then store_fixed target ind (Some (le_bytes 1 (bit_value value))) 1
  else if type =? SQL_C_BINARY then
    '(result, total_length) ← streamChunk column value false target buffer_length stream_chunks;
    _ ← store_to ind 8 total_length; mret result
  else if type =? SQL_C_DATE then
    store_parsed target ind (date_bytes <$> parseDateLiteral value) "22007" "Invalid datetime format"
  else if type =? SQL_C_TIME then
    store_parsed target ind (time_bytes <$> parseTimeLiteral value) "22007" "Invalid datetime format"
  else if type =? SQL_C_TIMESTAMP then
    store_parsed target ind (timestamp_bytes <$> parseTimestampLiteral value) "22007" "Invalid datetime format"
  else if type =? SQL_C_GUID then
    store_parsed target ind
      (guid_bytes <$> parseGuidString (if bool_decide (length value = 16%nat) then bytesToHexString value else value))
      "22018" "Invalid GUID format"
  else refuse "HY003" "Program type out of range".

Definition getDataInternal (column_number type target buffer_length ind : Z) (stream_chunks : bool) : Stmt SQLRETURN :=
  _ ← clearDiagnostics;
  s ← field id;
  if negb (has_results_ s) then refuse "24000" "Invalid cursor state" else
  if (current_row_ s =? 0)%nat || (length (rows_ s) <? current_row_ s)%nat then refuse "HY109" "Invalid cursor position" else
  if (column_number =? 0) || (blen (columns_ s) <? column_number) then refuse "07009" "Invalid descriptor index" else
  value ← access (rows_ s !! (current_row_ s - 1)%nat ≫= λ row, row !! Z.to_nat (column_number - 1));
  column_meta ← access (columns_ s !! Z.to_nat (column_number - 1));
  if bool_decide (value = []) then _ ← store_to ind 8 SQL_NULL_DATA; mret SQL_SUCCESS
  else convert column_number type value (isBinarySqlType (sql_type column_meta)) target buffer_length ind stream_chunks.

Definition getData (column_number type target buffer_length ind : Z) : Stmt SQLRETURN :=
  getDataInternal column_number type target buffer_length ind true.

(** ** Bound columns *)

(** The bindings in the order in which the hash map of the columns lists them. *)
Section columns.
Context (order : gmap Z ColumnBinding → list (Z * ColumnBinding)).

(** A target and an indicator, moved by the offset of row-wise binding; without
    a target neither moves. *)
Definition bound_at (s : OdbcStatement) (binding : ColumnBinding) : Z * Z :=
  let target := target_value binding in
  let ind := str_len_or_ind binding in
  if negb (row_bind_offset_ s =? 0) && negb (target =? 0)
  then (target + row_bind_offset_ s, if ind =? 0 then 0 else ind + row_bind_offset_ s)
  else (target, ind).

(** The number of the row, which is its bookmark. *)
Definition bind_bookmark (s : OdbcStatement) : Stmt SQLRETURN :=
  let binding := bookmark_binding_ s in
  let '(target, ind) := bound_at s binding in
  let bookmark_value := Z.of_nat (current_row_ s) in
  let fixed n := _ ← store_to target n bookmark_value; _ ← store_to ind 8 (Z.of_nat n); mret SQL_SUCCESS in
  if bool_decide (target_type binding ∈ [SQL_C_SBIGINT; SQL_C_UBIGINT]) then fixed 8%nat
  else if bool_decide (target_type binding ∈ [SQL_C_LONG; SQL_C_SLONG; SQL_C_ULONG]) then fixed 4%nat
  else if bool_decide (target_type binding ∈ [SQL_C_CHAR; SQL_C_DEFAULT]) then
    let bookmark_text := dec bookmark_value in
    if negb (target =? 0) && (0 <? buffer_length binding) then
      _ ← store target (take (Z.to_nat (buffer_length binding) - 1) bookmark_text ++ [Byte.x00]);
      _ ← store_to ind 8 (blen bookmark_text);
      if buffer_length binding <=? blen bookmark_text then _ ← truncation; mret SQL_SUCCESS_WITH_INFO else mret SQL_SUCCESS
    else _ ← store_to ind 8 (blen bookmark_text); mret SQL_SUCCESS
  else refuse "HY003" "Program type out of range for bookmark".

(** One bound column: [SQL_ERROR] ends the loop. *)
Definition bind_column (row : list bytes) (col_num : Z) (binding : ColumnBinding) : Stmt SQLRETURN :=
  if (col_num =? 0) || (blen row <? col_num) then mret SQL_SUCCESS else
  value ← access (row !! Z.to_nat (col_num - 1));
  s ← field id;
  let '(target, ind) := bound_at s binding in
  if bool_decide (value = []) then _ ← store_to ind 8 SQL_NULL_DATA; mret SQL_SUCCESS
  else getDataInternal col_num (target_type binding) target (buffer_length binding) ind false.

Fixpoint bind_columns (row : list bytes) (result : SQLRETURN) (bindings : list (Z * ColumnBinding)) : Stmt SQLRETURN :=
  match bindings with
  | [] => mret result
  | (col_num, binding) :: bindings =>
      conv_result ← bind_column row col_num binding;
      if conv_result =? SQL_ERROR then mret SQL_ERROR
      else bind_columns row (if conv_result =? SQL_SUCCESS_WITH_INFO then SQL_SUCCESS_WITH_INFO else result) bindings
  end.

Definition bindResultData : Stmt SQLRETURN :=
  s ← field id;
  if (current_row_ s =? 0)%nat || (length (rows_ s) <? current_row_ s)%nat then mret SQL_NO_DATA else
  row ← access (rows_ s !! (current_row_ s - 1)%nat);
  result ← (if bookmark_bound_ s then bind_bookmark s else mret SQL_SUCCESS);
  if result =? SQL_ERROR then mret SQL_ERROR else
  result ← bind_columns row result (order (col_bindings_ s));
  if result =? SQL_ERROR then mret SQL_ERROR else
  _ ← store_to (row_status_ptr_ s) 2 SQL_ROW_SUCCESS;
  _ ← store_to (rows_fetched_ptr_ s) 8 1;
  mret result.

(** ** The cursor *)

Definition position (row : nat) : Stmt () := change (λ s, s <| current_row_ := row |>).

Definition fetch : Stmt SQLRETURN :=
  _ ← clearDiagnostics;
  s ← field id;
  if negb (has_results_ s) then refuse "24000" "Invalid cursor state" else
  let next_index := current_row_ s in
  if (length (rows_ s) <=? next_index)%nat then mret SQL_NO_DATA else
  _ ← position (S next_index); _ ← clearGetDataState;
  bindResultData.

Definition int64_sum (a b : Z) : outcome Z := if (- 2 ^ 63 <=? a + b) && (a + b <? 2 ^ 63) then Ret (a + b) else UB.

(** The index that is asked for, or what is returned without one. *)
Definition target_index (s : OdbcStatement) (fetch_orientation fetch_offset : Z) : Stmt (Z + SQLRETURN) :=
  let current_index := Z.of_nat (current_row_ s) - 1 in
  if fetch_orientation =? SQL_FETCH_NEXT then mret (inl (current_index + 1))
  else if fetch_orientation =? SQL_FETCH_FIRST then mret (inl 0)
  else if fetch_orientation =? SQL_FETCH_LAST then mret (inl (blen (rows_ s) - 1))
  else if fetch_orientation =? SQL_FETCH_PRIOR then mret (inl (current_index - 1))
  else if fetch_orientation =? SQL_FETCH_ABSOLUTE then
    if 0 <? fetch_offset then mret (inl (fetch_offset - 1))
    else if fetch_offset <? 0 then mret (inl (blen (rows_ s) + fetch_offset))
    else mret (inr SQL_NO_DATA)
  else if fetch_orientation =? SQL_FETCH_RELATIVE then
    new_index ← from_outcome (int64_sum current_index fetch_offset); mret (inl new_index)
  else if fetch_orientation =? SQL_FETCH_BOOKMARK then
    if fetch_bookmark_ptr_ s =? 0 then rc ← refuse "HY024" "Fetch bookmark pointer not set"; mret (inr rc) else
    bookmark_index ← load_i64 (fetch_bookmark_ptr_ s);
    if bookmark_index <=? 0 then mret (inr SQL_NO_DATA) else
    new_index ← from_outcome (int64_sum (bookmark_index - 1) fetch_offset); mret (inl new_index)
  else rc ← refuse "HY106" "Fetch type out of range"; mret (inr rc).

Definition fetchScroll (fetch_orientation fetch_offset : Z) : Stmt SQLRETURN :=
  _ ← clearDiagnostics;
  s ← field id;
  if negb (has_results_ s) then refuse "24000" "Invalid cursor state" else
  if bool_decide (rows_ s = []) then mret SQL_NO_DATA else
  if (cursor_type_ s =? SQL_CURSOR_FORWARD_ONLY) && negb (fetch_orientation =? SQL_FETCH_NEXT)
  then refuse "HY106" "Forward-only cursor does not support scroll fetch" else
  target ← target_index s fetch_orientation fetch_offset;
  match target with
  | inr rc => mret rc
  | inl new_index =>
      if (new_index <? 0) || (blen (rows_ s) <=? new_index) then mret SQL_NO_DATA else
      _ ← position (S (Z.to_nat new_index)); _ ← clearGetDataState;
      bindResultData
  end.

(** ** Positioned operations *)

(** Codes of the system's [sqlext.h], which is not part of the sources. *)
Record PositionCodes := mkPositionCodes {
  SQL_ENTIRE_ROWSET : Z; SQL_POSITION : Z; SQL_REFRESH : Z; SQL_UPDATE : Z; SQL_DELETE : Z; lock_types : list Z }.

Context (codes : PositionCodes).

Fixpoint store_all (pointer : Z) (n : nat) (status : Z) (count : nat) : Stmt () :=
  match count with
  | O => mret tt
  | S count => _ ← store pointer (le_bytes n status); store_all (pointer + Z.of_nat n) n status count
  end.

Definition setStatusForEntireRowset (status : Z) : Stmt () :=
  s ← field id;
  if row_status_ptr_ s =? 0 then mret tt else
  store_all (row_status_ptr_ s) 2 status (if 0 <? row_array_size_ s then Z.to_nat (row_array_size_ s) else 1).

Definition setStatusForRow (row status : Z) : Stmt () :=
  s ← field id;
  _ ← store_to (row_status_ptr_ s) 2 status;
  if (row_status_ptr_ s =? 0) || (row <=? 0) then mret tt
  else if blen (rows_ s) <=? row - 1 then mret tt
  else if (row_array_size_ s =? 0) || (row - 1 <? row_array_size_ s)
  then store (row_status_ptr_ s + 2 * (row - 1)) (le_bytes 2 status)
  else mret tt.

Definition valid_row (s : OdbcStatement) (row : Z) : bool := (1 <=? row) && (row <=? blen (rows_ s)).

Definition invalid_position : Stmt (Z + SQLRETURN) := rc ← refuse "HY109" "Invalid cursor position"; mret (inr rc).

(** The body of the [switch]: the number of rows, or what is returned. *)
Definition apply_operation (s : OdbcStatement) (row_number operation : Z) : Stmt (Z + SQLRETURN) :=
  let entire := row_number =? SQL_ENTIRE_ROWSET codes in
  let read_only := concurrency_ s =? SQL_CONCUR_READ_ONLY in
  if operation =? SQL_POSITION codes then
    if entire || negb (valid_row s row_number) then invalid_position else
    _ ← position (Z.to_nat row_number); _ ← setStatusForRow row_number SQL_ROW_SUCCESS; mret (inl 0)
  else if operation =? SQL_REFRESH codes then
    if entire || negb (valid_row s row_number) then invalid_position else
    _ ← position (Z.to_nat row_number);
    bind_result ← bindResultData;
    if negb (succeeded bind_result) then mret (inr bind_result) else
    _ ← setStatusForRow row_number SQL_ROW_SUCCESS; mret (inl 1)
  else if operation =? SQL_UPDATE codes then
    if entire then invalid_position else
    if read_only then rc ← refuse "25001" "Read-only cursor does not support update"; mret (inr rc) else
    if negb (valid_row s row_number) then invalid_position else
    _ ← position (Z.to_nat row_number); _ ← setStatusForRow row_number SQL_ROW_UPDATED; mret (inl 1)
  else if operation =? SQL_DELETE codes then
    if read_only then rc ← refuse "25001" "Read-only cursor does not support delete"; mret (inr rc) else
    if entire then
      _ ← change (λ s, s <| row_count_ := blen (rows_ s) |> <| rows_ := [] |> <| current_row_ := O |>);
      _ ← setStatusForEntireRowset SQL_ROW_DELETED; mret (inl (blen (rows_ s)))
    else if negb (valid_row s row_number) then invalid_position else
    _ ← change (λ s, s <| rows_ := delete (Z.to_nat row_number - 1)%nat (rows_ s) |>);
    _ ← setStatusForRow row_number SQL_ROW_DELETED;
    _ ← change (λ s, s <| current_row_ := if bool_decide (rows_ s = []) then O
                                          else Nat.min (Z.to_nat row_number) (length (rows_ s)) |>);
    mret (inl 1)
  else rc ← refuse "HY092" "Invalid SQLSetPos operation"; mret (inr rc).

Definition setPos (row_number operation lock_type : Z) : Stmt SQLRETURN :=
  _ ← clearDiagnostics;
  s ← field id;
  if negb (has_results_ s) || bool_decide (rows_ s = []) then refuse "24000" "Invalid cursor state" else
  if cursor_type_ s =? SQL_CURSOR_FORWARD_ONLY
  then refuse "HY106" "Forward-only cursor does not support positioned operations" else
  if negb (bool_decide (lock_type ∈ lock_types codes)) then refuse "HY024" "Invalid lock type" else
  _ ← clearGetDataState;
  result ← apply_operation s row_number operation;
  match result with
  | inr rc => mret rc
  | inl affected_count =>
      _ ← (if 0 <? affected_count then change (λ s, s <| row_count_ := affected_count |>) else mret tt);
      _ ← store_to (rows_fetched_ptr_ s) 8 (if 0 <? affected_count then affected_count else 1);
      mret SQL_SUCCESS
  end.
End columns.

(** ** Parameters *)

Definition date_of_bytes (d : bytes) : SQL_DATE_STRUCT :=
  {| year := i16 (le_val (take 2 d)); month := le_val (take 2 (drop 2 d)); day := le_val (take 2 (drop 4 d)) |}.
Definition time_of_bytes (d : bytes) : SQL_TIME_STRUCT :=
  {| hour := le_val (take 2 d); minute := le_val (take 2 (drop 2 d)); second := le_val (take 2 (drop 4 d)) |}.
Definition timestamp_of_bytes (d : bytes) : SQL_TIMESTAMP_STRUCT :=
  {| ts_date := date_of_bytes d; ts_time := time_of_bytes (drop 6 d); fraction := le_val (take 4 (drop 12 d)) |}.
Definition guid_of_bytes (d : bytes) : SQLGUID :=
  {| Data1 := le_val (take 4 d); Data2 := le_val (take 2 (drop 4 d)); Data3 := le_val (take 2 (drop 6 d)); Data4 := take 8 (drop 8 d) |}.

Definition bytesPerValue (binding : ParameterBinding) : Z :=
  if 0 <? p_buffer_length binding then p_buffer_length binding
  else oid_case (value_type binding)
    [([SQL_C_CHAR; SQL_C_WCHAR], 1); ([SQL_C_SHORT; SQL_C_SSHORT; SQL_C_USHORT], 2);
     ([SQL_C_LONG; SQL_C_SLONG; SQL_C_ULONG], 4); ([SQL_C_SBIGINT; SQL_C_UBIGINT], 8); ([SQL_C_FLOAT], 4);
     ([SQL_C_DOUBLE], 8); ([SQL_C_BIT], 1); ([SQL_C_BINARY; SQL_C_DATE], 6); ([SQL_C_TIME], 6);
     ([SQL_C_TIMESTAMP], 16); ([SQL_C_GUID], 16)] 1.

Definition rowStride (s : OdbcStatement) (binding : ParameterBinding) : Z :=
  if negb (param_bind_type_ s =? 0) then param_bind_type_ s
  else if 0 <? param_bind_offset_ s then param_bind_offset_ s
  else bytesPerValue binding.

Definition rowBaseOffset (s : OdbcStatement) : Z :=
  if negb (param_bind_type_ s =? 0) && (0 <? param_bind_offset_ s) then param_bind_offset_ s else 0.

(** The literals of a parameter, and whether something was cut off. *)
Definition literals_of : Type := list ParameterLiteral * bool.

Definition plain (text : bytes) : literals_of := ([{| text := text; quoted := false |}], false).
Definition quote (text : bytes) : literals_of := ([{| text := text; quoted := true |}], false).

(** No string is that long: [std::length_error]. *)
Definition too_long (n : Z) : bool := 2 ^ 62 <=? u64 n.

Definition char_parameter (binding : ParameterBinding) (ind : option Z) (addr : Z) : Stmt literals_of :=
  match ind with
  | Some len =>
      if len =? SQL_NTS then text ← load_string addr; mret ([{| text := text; quoted := true |}],
                                                           u64 (p_buffer_length binding) <? blen text)
      else if len <? 0 then mret ([null_literal; {| text := []; quoted := true |}], false)
      else text ← load addr len; mret ([{| text := text; quoted := true |}], u64 (p_buffer_length binding) <? len)
  | None => text ← load_string addr; mret (quote text)
  end.

Definition binary_text (data : bytes) : bytes := "X'" ++ bytesToHexString data ++ "'".

Definition binary_parameter (binding : ParameterBinding) (ind : option Z) (addr : Z) : Stmt literals_of :=
  let len := match ind with Some n => if 0 <=? n then n else p_buffer_length binding | None => p_buffer_length binding end in
  if too_long (len * 2) then throws else
  data ← load addr (Z.max len 0);
  mret ([{| text := binary_text data; quoted := false |}],
        bool_decide (is_Some ind) && (u64 (p_buffer_length binding) <? u64 len)).

(** A value in memory. *)
Definition memory_parameter (binding : ParameterBinding) (ind : option Z) (addr : Z) : Stmt literals_of :=
  let type := value_type binding in
  if type =? SQL_C_CHAR then char_parameter binding ind addr
  else if bool_decide (type ∈ [SQL_C_LONG; SQL_C_SLONG]) then d ← load addr 4; mret (plain (to_string (i32 (le_val d))))
  else if bool_decide (type ∈ [SQL_C_SHORT; SQL_C_SSHORT]) then d ← load addr 2; mret (plain (to_string (i16 (le_val d))))
  else if type =? SQL_C_SBIGINT then d ← load addr 8; mret (plain (to_string (i64 (le_val d))))
  else if type =? SQL_C_DOUBLE then d ← load addr 8; mret (plain (double_to_string (le_val d)))
  else if type =? SQL_C_FLOAT then d ← load addr 4; mret (plain (single_to_string (le_val d)))
  else if type =? SQL_C_BIT then d ← load addr 1; mret (plain (if le_val d =? 0 then "0" else "1"))
  else if type =? SQL_C_BINARY then binary_parameter binding ind addr
  else if type =? SQL_C_DATE then d ← load addr 6; mret (quote (formatDateStruct (date_of_bytes d)))
  else if type =? SQL_C_TIME then d ← load addr 6; mret (quote (formatTimeStruct (time_of_bytes d)))
  else if type =? SQL_C_TIMESTAMP then d ← load addr 16; mret (quote (formatTimestampStruct (timestamp_of_bytes d)))
  else if type =? SQL_C_GUID then d ← load addr 16; mret (quote (formatGuidStruct (guid_of_bytes d)))
  else d ← load addr (Z.max (p_buffer_length binding) 0); mret (quote d).

Definition stream_parameter (binding : ParameterBinding) (stream : PutDataStreamState) : literals_of :=
  ([if value_type binding =? SQL_C_BINARY
    then {| text := binary_text (value stream); quoted := false |}
    else {| text := value stream; quoted := true |}], truncated stream).

(** A streamed value, or what is returned while it is not complete. *)
Definition streamed_parameter (i : Z) (binding : ParameterBinding) (row_offset : Z) : Stmt (literals_of + SQLRETURN) :=
  let key := putDataStreamKey i row_offset in
  let ready (streams : gmap Z PutDataStreamState) :=
    match streams !! key with Some stream => if complete stream then Some stream else None | None => None end in
  streams ← field put_data_stream_;
  match ready streams with
  | Some stream => mret (inl (stream_parameter binding stream))
  | None =>
      init_status ← validateOrInitDataAtExecStateForRow row_offset;
      if negb (init_status =? SQL_SUCCESS) then mret (inr init_status) else
      streams ← field put_data_stream_;
      match ready streams with
      | Some stream => mret (inl (stream_parameter binding stream))
      | None => _ ← change (λ s, s <| data_at_exec_active_ := true |>); mret (inr SQL_NEED_DATA)
      end
  end.

(** The body of the loop. *)
Definition parameter_literals (i row_offset : Z) : Stmt (literals_of + SQLRETURN) :=
  s ← field id;
  match param_bindings_ s !! i with
  | None => mret (inl ([null_literal], false))
  | Some binding =>
      ind ← load_indicator binding row_offset;
      if from_option isDataAtExecIndicatorValue false ind then streamed_parameter i binding row_offset
      else if bool_decide (ind = Some SQL_NULL_DATA) || (parameter_value binding =? 0) then mret (inl ([null_literal], false))
      else
        let offset := u64 (rowBaseOffset s + row_offset * rowStride s binding) in
        literals ← memory_parameter binding ind (parameter_value binding + offset); mret (inl literals)
  end.

Fixpoint parameters_loop (numbers : list Z) (row_offset : Z) (literals : list ParameterLiteral) (has_info : bool)
    : Stmt (SQLRETURN * list ParameterLiteral) :=
  match numbers with
  | [] => mret (if has_info then SQL_SUCCESS_WITH_INFO else SQL_SUCCESS, literals)
  | i :: numbers =>
      result ← parameter_literals i row_offset;
      match result with
      | inr rc => mret (rc, literals)
      | inl (ls, info) => parameters_loop numbers row_offset (literals ++ ls) (has_info || info)
      end
  end.

(** The counter is a 16-bit number: with 65535 bindings the loop has no end, and
    the literals fill the memory ([std::bad_alloc]). *)
Definition buildParameterData (row_offset : Z) : Stmt (SQLRETURN * list ParameterLiteral) :=
  bindings ← field param_bindings_;
  if 65535 <=? Z.of_nat (size bindings) then throws else
  parameters_loop (Z.of_nat <$> seq 1 (size bindings)) row_offset [] false.

(** ** Execution *)

Section execution.
Context (clock : nat → Z) (fuel : nat).

(** A null pointer is refused; the text is kept. *)
Definition take_sql (sql sql_len : Z) : Stmt () :=
  text ← argument_text sql sql_len; change (λ s, s <| sql_ := text |>).

Definition prepare (sql sql_len : Z) : Stmt SQLRETURN :=
  _ ← clearDiagnostics;
  if sql =? 0 then refuse "HY009" "Invalid use of null pointer" else
  _ ← take_sql sql sql_len;
  text ← field sql_;
  stmt_id ← on_connection (prepareSQL text);
  _ ← change (λ s, s <| server_stmt_id_ := stmt_id |> <| prepared_ := true |> <| executed_ := false |>);
  _ ← clearPutDataState;
  mret SQL_SUCCESS.

(** The loop over the statements: the overall status, or the one that ends it. *)
Fixpoint run_statements (overall_status : SQLRETURN) (statements : list bytes) : Stmt (SQLRETURN * bool) :=
  match statements with
  | [] => mret (overall_status, true)
  | statement :: statements =>
      '(status, r) ← on_connection (OdbcConnection.executeSQL clock fuel statement);
      if negb (succeeded status) then mret (status, false) else
      let row_count := if bool_decide (r_columns r = []) then r_affected r else blen (r_rows r) in
      _ ← change (λ s, s <| result_sets_ := result_sets_ s ++ [mkResultSet (r_columns r) (r_rows r) row_count] |>);
      run_statements (if status =? SQL_SUCCESS_WITH_INFO then SQL_SUCCESS_WITH_INFO else overall_status) statements
  end.

Definition executeSqlStatements (sql : bytes) : Stmt SQLRETURN :=
  _ ← resetResults;
  let statements := splitSqlStatements sql in
  if bool_decide (statements = []) then refuse "HY000" "Empty SQL statement" else
  '(status, finished) ← run_statements SQL_SUCCESS statements;
  if negb finished then mret status else
  _ ← change (λ s, s <| current_result_index_ := O |>);
  _ ← applyResultSet O;
  _ ← change (λ s, s <| executed_ := true |>);
  mret status.

Definition execute : Stmt SQLRETURN :=
  _ ← clearDiagnostics;
  s ← field id;
  if negb (prepared_ s) then refuse "HY010" "Function sequence error" else
  if data_at_exec_active_ s then mret SQL_NEED_DATA else
  init_data_at_exec ← validateOrInitDataAtExecStateForRow 0;
  if negb (init_data_at_exec =? SQL_SUCCESS) then mret init_data_at_exec else
  '(build_status, params) ← buildParameterData 0;
  if negb (succeeded build_status) then mret build_status else
  sql ← on_connection (buildPreparedSQL (server_stmt_id_ s) params);
  match sql with
  | None => _ ← clearPutDataState; mret SQL_ERROR
  | Some sql =>
      execute_status ← executeSqlStatements sql;
      _ ← clearPutDataState;
      mret execute_status
  end.

Definition execDirect (sql sql_len : Z) : Stmt SQLRETURN :=
  _ ← clearDiagnostics;
  if sql =? 0 then refuse "HY009" "Invalid use of null pointer" else
  _ ← take_sql sql sql_len;
  text ← field sql_;
  result ← executeSqlStatements text;
  _ ← clearPutDataState;
  _ ← (if succeeded result then change (λ s, s <| prepared_ := false |>) else mret tt);
  mret result.

Definition cancel : Stmt SQLRETURN := _ ← clearDiagnostics; on_connection OdbcConnection.cancel.
End execution.
