(* ===== verification/OdbcAttributes.v ===== *)
(** * ODBC driver: attributes, names and descriptions of a statement

    Models [setAttribute], [getAttribute], the descriptions of columns and
    parameters and the name of the cursor of [OdbcStatement]
    ([src/tracks/p3/drivers/odbc/src/odbc_handles.cpp]), and the handles of
    descriptors of [src/tracks/p3/drivers/odbc/src/odbc_driver.cpp]. *)

From S2P Require Import Prelude.
From S2P Require Import OdbcTypes.
From S2P Require Import OdbcRun.
From S2P Require Import OdbcConnection.
From S2P Require Import OdbcDescriptor.
From S2P Require Import OdbcStatement.

(** ** Identifiers *)

Definition SQL_ATTR_APP_ROW_DESC : Z := 10010.
Definition SQL_ATTR_APP_PARAM_DESC : Z := 10011.
Definition SQL_ATTR_IMP_ROW_DESC : Z := 10012.
Definition SQL_ATTR_IMP_PARAM_DESC : Z := 10013.
Definition SQL_ATTR_CURSOR_SCROLLABLE : Z := -1.
Definition SQL_ATTR_CURSOR_SENSITIVITY : Z := -2.
Definition SQL_ATTR_CURSOR_TYPE : Z := 6.
Definition SQL_ATTR_CONCURRENCY : Z := 7.
Definition SQL_ATTR_ROW_NUMBER : Z := 14.
Definition SQL_ATTR_ROW_BIND_OFFSET_PTR : Z := 23.
Definition SQL_ATTR_ROW_BIND_TYPE : Z := 5.
Definition SQL_ATTR_ROW_ARRAY_SIZE : Z := 27.
Definition SQL_ATTR_ROW_STATUS_PTR : Z := 25.
Definition SQL_ATTR_ROWS_FETCHED_PTR : Z := 26.
Definition SQL_ATTR_PARAM_BIND_OFFSET_PTR : Z := 17.
Definition SQL_ATTR_PARAM_BIND_TYPE : Z := 18.
Definition SQL_ATTR_PARAMSET_SIZE : Z := 22.
Definition SQL_ATTR_PARAM_STATUS_PTR : Z := 20.
Definition SQL_ATTR_PARAMS_PROCESSED_PTR : Z := 21.
Definition SQL_ATTR_QUERY_TIMEOUT : Z := 0.
Definition SQL_ATTR_MAX_ROWS : Z := 1.
Definition SQL_ATTR_MAX_LENGTH : Z := 3.
Definition SQL_ATTR_NOSCAN : Z := 2.
Definition SQL_ATTR_RETRIEVE_DATA : Z := 11.
Definition SQL_ATTR_USE_BOOKMARKS : Z := 12.
Definition SQL_ATTR_FETCH_BOOKMARK_PTR : Z := 16.
Definition SQL_CURSOR_KEYSET_DRIVEN : Z := 1.
Definition SQL_CURSOR_DYNAMIC : Z := 2.
Definition SQL_CONCUR_LOCK : Z := 2.
Definition SQL_CONCUR_ROWVER : Z := 3.
Definition SQL_CONCUR_VALUES : Z := 4.

(** Codes of the system's [sqlext.h]. *)
Record AttributeCodes := mkAttributeCodes {
  scrollable_codes : list Z; sensitivity_codes : list Z; SQL_SEARCHABLE : Z }.

(** ** Attributes *)

(** An attribute is a number, or an address given as one. *)
Definition accept (f : OdbcStatement → OdbcStatement) : Stmt SQLRETURN := _ ← change f; mret SQL_SUCCESS.

Definition set_one_of (codes : list Z) (value : Z) (f : OdbcStatement → OdbcStatement) : Stmt SQLRETURN :=
  if bool_decide (value ∈ codes) then accept f else refuse "HY024" "Invalid attribute value".

(** What the address holds; nothing is set for a null one. *)
Definition set_from (value : Z) (f : Z → OdbcStatement → OdbcStatement) : Stmt SQLRETURN :=
  if value =? 0 then mret SQL_SUCCESS else z ← load_i64 value; accept (f z).

(** [resolveDescriptorHandle], for a handle that is not null. *)
Definition resolveDescriptorHandle (descriptor_handle : Z) (expected_type : DescriptorType)
    (f : Z → OdbcStatement → OdbcStatement) : Stmt SQLRETURN :=
  s ← field id;
  match descriptors_ s !! descriptor_handle with
  | None => undefined
  | Some candidate =>
      if negb (d_conn_ candidate =? conn_ s) then refuse "HY024" "Descriptor belongs to different connection" else
      if negb (bool_decide (desc_type_ candidate = expected_type)) then refuse "HY024" "Descriptor type mismatch" else
      accept (f descriptor_handle)
  end.

Definition set_descriptor (value owned : Z) (type : DescriptorType) (f : Z → OdbcStatement → OdbcStatement) : Stmt SQLRETURN :=
  if value =? 0 then accept (f owned) else resolveDescriptorHandle value type f.

Section attributes.
Context (codes : AttributeCodes).

Definition setAttribute (attribute value : Z) : Stmt SQLRETURN :=
  _ ← clearDiagnostics;
  if attribute =? SQL_ATTR_CURSOR_TYPE then 
    set_one_of [SQL_CURSOR_FORWARD_ONLY; SQL_CURSOR_KEYSET_DRIVEN; SQL_CURSOR_DYNAMIC; SQL_CURSOR_STATIC] value
      (λ s, s <| cursor_type_ := value |>) else
  if attribute =? SQL_ATTR_CONCURRENCY then 
    set_one_of [SQL_CONCUR_READ_ONLY; SQL_CONCUR_LOCK; SQL_CONCUR_ROWVER; SQL_CONCUR_VALUES] value
      (λ s, s <| concurrency_ := value |>) else
  if attribute =? SQL_ATTR_QUERY_TIMEOUT then accept (λ s, s <| query_timeout_ := value |>) else
  if attribute =? SQL_ATTR_MAX_ROWS then accept (λ s, s <| max_rows_ := value |>) else
  if attribute =? SQL_ATTR_MAX_LENGTH then accept (λ s, s <| max_length_ := value |>) else
  if attribute =? SQL_ATTR_ROW_ARRAY_SIZE then accept (λ s, s <| row_array_size_ := value |>) else
  if attribute =? SQL_ATTR_ROWS_FETCHED_PTR then accept (λ s, s <| rows_fetched_ptr_ := value |>) else
  if attribute =? SQL_ATTR_ROW_STATUS_PTR then accept (λ s, s <| row_status_ptr_ := value |>) else
  if attribute =? SQL_ATTR_ROW_BIND_OFFSET_PTR then set_from value (λ z s, s <| row_bind_offset_ := z |>) else
  if attribute =? SQL_ATTR_ROW_BIND_TYPE then accept (λ s, s <| row_bind_type_ := value |>) else
  if attribute =? SQL_ATTR_PARAMSET_SIZE then accept (λ s, s <| paramset_size_ := value |>) else
  if attribute =? SQL_ATTR_PARAMS_PROCESSED_PTR then accept (λ s, s <| params_processed_ptr_ := value |>) else
  if attribute =? SQL_ATTR_PARAM_STATUS_PTR then accept (λ s, s <| param_status_ptr_ := value |>) else
  if attribute =? SQL_ATTR_PARAM_BIND_OFFSET_PTR then set_from value (λ z s, s <| param_bind_offset_ := z |>) else
  if attribute =? SQL_ATTR_PARAM_BIND_TYPE then accept (λ s, s <| param_bind_type_ := value |>) else
  if attribute =? SQL_ATTR_NOSCAN then accept (λ s, s <| noscan_ := negb (value =? 0) |>) else
  if attribute =? SQL_ATTR_USE_BOOKMARKS then accept (λ s, s <| use_bookmarks_ := negb (value =? 0) |>) else
  if attribute =? SQL_ATTR_FETCH_BOOKMARK_PTR then accept (λ s, s <| fetch_bookmark_ptr_ := value |>) else
  if attribute =? SQL_ATTR_RETRIEVE_DATA then accept (λ s, s <| retrieve_data_ := negb (value =? 0) |>) else
  if attribute =? SQL_ATTR_CURSOR_SCROLLABLE then set_one_of (scrollable_codes codes) value (λ s, s <| cursor_scrollable_ := value |>) else
  if attribute =? SQL_ATTR_CURSOR_SENSITIVITY then set_one_of (sensitivity_codes codes) value (λ s, s <| cursor_sensitivity_ := value |>) else
  if attribute =? SQL_ATTR_APP_ROW_DESC then set_descriptor value owned_app_row_desc_ ARD (λ v s, s <| app_row_desc_ := v |>) else
  if attribute =? SQL_ATTR_APP_PARAM_DESC then set_descriptor value owned_app_param_desc_ APD (λ v s, s <| app_param_desc_ := v |>) else
  if attribute =? SQL_ATTR_IMP_ROW_DESC then set_descriptor value owned_ird_desc_ IRD (λ v s, s <| ird_desc_ := v |>) else
  if attribute =? SQL_ATTR_IMP_PARAM_DESC then set_descriptor value owned_imp_param_desc_ IPD (λ v s, s <| ipd_desc_ := v |>) else
  refuse "HY092" "Invalid attribute identifier".
End attributes.

(** A number of 64 bits or an address. *)
Definition report (value string_length z : Z) : Stmt SQLRETURN :=
  _ ← store_to value 8 z; _ ← store_to string_length 4 8; mret SQL_SUCCESS.

Definition report_descriptor (value string_length handle : Z) : Stmt SQLRETURN :=
  if value =? 0 then refuse "HY009" "Invalid use of null pointer" else report value string_length handle.

Definition getAttribute (attribute value string_length : Z) : Stmt SQLRETURN :=
  _ ← clearDiagnostics;
  s ← field id;
  if attribute =? SQL_ATTR_CURSOR_TYPE then report value string_length (cursor_type_ s) else
  if attribute =? SQL_ATTR_CONCURRENCY then report value string_length (concurrency_ s) else
  if attribute =? SQL_ATTR_QUERY_TIMEOUT then report value string_length (query_timeout_ s) else
  if attribute =? SQL_ATTR_MAX_ROWS then report value string_length (max_rows_ s) else
  if attribute =? SQL_ATTR_MAX_LENGTH then report value string_length (max_length_ s) else
  if attribute =? SQL_ATTR_USE_BOOKMARKS then report value string_length (if use_bookmarks_ s then 1 else 0) else
  if attribute =? SQL_ATTR_FETCH_BOOKMARK_PTR then report value string_length (fetch_bookmark_ptr_ s) else
  if attribute =? SQL_ATTR_CURSOR_SCROLLABLE then report value string_length (cursor_scrollable_ s) else
  if attribute =? SQL_ATTR_CURSOR_SENSITIVITY then report value string_length (cursor_sensitivity_ s) else
  if attribute =? SQL_ATTR_ROW_ARRAY_SIZE then report value string_length (row_array_size_ s) else
  if attribute =? SQL_ATTR_ROW_NUMBER then report value string_length (Z.of_nat (current_row_ s)) else
  if attribute =? SQL_ATTR_PARAMSET_SIZE then report value string_length (paramset_size_ s) else
  if attribute =? SQL_ATTR_IMP_ROW_DESC then report_descriptor value string_length (ird_desc_ s) else
  if attribute =? SQL_ATTR_IMP_PARAM_DESC then report_descriptor value string_length (ipd_desc_ s) else
  if attribute =? SQL_ATTR_APP_ROW_DESC then report_descriptor value string_length (app_row_desc_ s) else
  if attribute =? SQL_ATTR_APP_PARAM_DESC then report_descriptor value string_length (app_param_desc_ s) else
  refuse "HY092" "Invalid attribute identifier".

(** ** Descriptions *)

(** A text with its terminator, as much as fits. *)
Definition copy_text (text : bytes) (target buffer_length : Z) : Stmt SQLRETURN :=
  _ ← store target (take (Z.to_nat (buffer_length - 1)) text ++ [Byte.x00]);
  if buffer_length <=? blen text then _ ← truncation; mret SQL_SUCCESS_WITH_INFO else mret SQL_SUCCESS.

Definition copyString (text : bytes) (target buffer_length string_length : Z) : Stmt SQLRETURN :=
  _ ← store_to string_length 2 (blen text);
  if (target =? 0) || (buffer_length <=? 0) then mret SQL_SUCCESS else copy_text text target buffer_length.

Definition describeParam (parameter_number data_type parameter_size decimal_digits_ptr nullable_ptr : Z) : Stmt SQLRETURN :=
  _ ← clearDiagnostics;
  bindings ← field param_bindings_;
  match bindings !! parameter_number with
  | None => refuse "07009" "Invalid descriptor index"
  | Some binding =>
      _ ← store_to data_type 2 (parameter_type binding); _ ← store_to parameter_size 8 (p_column_size binding);
      _ ← store_to decimal_digits_ptr 2 (decimal_digits binding); _ ← store_to nullable_ptr 2 SQL_NULLABLE_UNKNOWN;
      mret SQL_SUCCESS
  end.

(** The columns are numbered from 1. *)
Definition column_at (column_number : Z) (columns : list ColumnMetadata) : option ColumnMetadata :=
  if column_number =? 0 then None else columns !! Z.to_nat (column_number - 1).

Definition describeCol (column_number column_name buffer_length name_length data_type column_size_ptr decimal_digits_ptr
    nullable_ptr : Z) : Stmt SQLRETURN :=
  _ ← clearDiagnostics;
  columns ← field columns_;
  match column_at column_number columns with
  | None => refuse "07009" "Invalid descriptor index"
  | Some col =>
      result ← copyString (name col) column_name buffer_length name_length;
      _ ← store_to data_type 2 (sql_type col); _ ← store_to column_size_ptr 8 (column_size col);
      _ ← store_to decimal_digits_ptr 2 (col_decimal_digits col); _ ← store_to nullable_ptr 2 (nullable col);
      mret result
  end.

Definition text_attribute (col : ColumnMetadata) (field_identifier : Z) : option bytes :=
  if field_identifier =? SQL_DESC_NAME then Some (name col)
  else if field_identifier =? SQL_DESC_LABEL then Some (if bool_decide (label col = []) then name col else label col)
  else if field_identifier =? SQL_DESC_TYPE_NAME then Some (type_name col)
  else if field_identifier =? SQL_DESC_TABLE_NAME then Some (table_name col)
  else if field_identifier =? SQL_DESC_SCHEMA_NAME then Some (schema_name col)
  else if field_identifier =? SQL_DESC_CATALOG_NAME then Some (catalog_name col)
  else None.

Definition numeric_attribute (columns : list ColumnMetadata) (col : ColumnMetadata) (field_identifier : Z) : option Z :=
  if field_identifier =? SQL_DESC_TYPE then Some (sql_type col)
  else if field_identifier =? SQL_DESC_LENGTH then Some (column_size col)
  else if field_identifier =? SQL_DESC_PRECISION then Some (column_size col)
  else if field_identifier =? SQL_DESC_SCALE then Some (col_decimal_digits col)
  else if field_identifier =? SQL_DESC_NULLABLE then Some (nullable col)
  else if field_identifier =? SQL_DESC_UNSIGNED then Some (if unsigned_flag col then 1 else 0)
  else if field_identifier =? SQL_DESC_AUTO_UNIQUE_VALUE then Some (if auto_increment col then 1 else 0)
  else if field_identifier =? SQL_DESC_CASE_SENSITIVE then Some (if case_sensitive col then 1 else 0)
  else if field_identifier =? SQL_DESC_SEARCHABLE then Some (searchable col)
  else if field_identifier =? SQL_DESC_DISPLAY_SIZE then Some (display_size col)
  else if field_identifier =? SQL_DESC_OCTET_LENGTH then Some (octet_length col)
  else if field_identifier =? SQL_DESC_COUNT then Some (blen columns)
  else if field_identifier =? SQL_COLUMN_UPDATABLE then Some 0
  else if field_identifier =? SQL_COLUMN_MONEY then Some 0
  else None.

Definition colAttribute (column_number field_identifier char_attr buffer_length string_length numeric_attr : Z) : Stmt SQLRETURN :=
  _ ← clearDiagnostics;
  columns ← field columns_;
  match column_at column_number columns with
  | None =>
      if field_identifier =? SQL_DESC_COUNT then _ ← store_to numeric_attr 8 (blen columns); mret SQL_SUCCESS
      else refuse "07009" "Invalid descriptor index"
  | Some col =>
      match text_attribute col field_identifier, numeric_attribute columns col field_identifier with
      | Some text, _ => copyString text char_attr buffer_length string_length
      | None, Some z => _ ← store_to numeric_attr 8 z; mret SQL_SUCCESS
      | None, None => refuse "HY091" "Invalid descriptor field identifier"
      end
  end.

(** ** The name of the cursor *)

Definition setCursorName (cursor_name name_length : Z) : Stmt SQLRETURN :=
  _ ← clearDiagnostics;
  if cursor_name =? 0 then refuse "HY009" "Invalid use of null pointer" else
  if negb (name_length =? SQL_NTS) && (name_length <? 0) then refuse "HY090" "Invalid string or buffer length" else
  requested_name ← (if name_length =? SQL_NTS then load_string cursor_name else load cursor_name name_length);
  if bool_decide (requested_name = []) then refuse "34000" "Invalid cursor name" else
  accept (λ s, s <| cursor_name_ := requested_name |>).

Definition getCursorName (cursor_name buffer_length name_length : Z) : Stmt SQLRETURN :=
  _ ← clearDiagnostics;
  text ← field cursor_name_;
  _ ← store_to name_length 2 (blen text);
  if cursor_name =? 0 then mret SQL_SUCCESS else
  if buffer_length <=? 0 then refuse "HY090" "Invalid string or buffer length" else
  copy_text text cursor_name buffer_length.

(** ** Handles of descriptors *)

(** [SQLAllocHandle] for a descriptor: [handle] is the address that [new] gives,
    one that is not in use. *)
Definition allocDescriptor (handle : Z) : Stmt SQLRETURN :=
  s ← field id;
  if (handle =? 0) || bool_decide (is_Some (descriptors_ s !! handle)) then undefined else
  accept (λ s, s <| descriptors_ := <[handle := new_descriptor (conn_ s) APD false]> (descriptors_ s) |>).

(** [SQLFreeHandle]: the descriptors of the statement stay. *)
Definition freeDescriptor (handle : Z) : Stmt SQLRETURN :=
  if handle =? 0 then mret SQL_INVALID_HANDLE else
  s ← field id;
  match descriptors_ s !! handle with
  | None => undefined
  | Some d => if implicit_ d then mret SQL_SUCCESS else accept (λ s, s <| descriptors_ := delete handle (descriptors_ s) |>)
  end.

(** [SQLSetDescField] and the like. *)
Definition with_descriptor (handle : Z) (m : Desc SQLRETURN) : Stmt SQLRETURN :=
  if handle =? 0 then mret SQL_INVALID_HANDLE else on_descriptor handle m.

Definition copyDesc (source target : Z) : Stmt SQLRETURN :=
  if (source =? 0) || (target =? 0) then mret SQL_INVALID_HANDLE else
  s ← on_descriptor source (_ ← clear_desc; reads desc);
  on_descriptor target (_ ← revise (copied s); mret SQL_SUCCESS).

(** ** Where it falls short *)

Definition outcome_of {A B} (m : Stmt A) (f : A → OdbcStatement → B) (s : OdbcStatement) (memory : memory) : result () B :=
  match m (mkWorld s new_connection memory) with
  | Returns a w => Returns (f a (stmt w)) tt
  | Undefined => Undefined
  | Throws => Throws
  | NoFuel => NoFuel
  end.

(** After a column is bound, the descriptor counts the columns up to it: those
    above can no longer be read. *)
Lemma rebinding_hides_columns :
  let binding := mkColumnBinding SQL_C_CHAR 16 4 0 in
  outcome_of (_ ← bindCol 2 binding; _ ← bindCol 1 binding; with_descriptor owned_app_row_desc_ (getField 2 SQL_DESC_OCTET_LENGTH 0 0 0))
    (λ rc s, (rc, d_diagnostics_ <$> descriptors_ s !! owned_app_row_desc_, bool_decide (is_Some (col_bindings_ s !! 2)))) new_statement [] =
  Returns (SQL_ERROR, Some [mkDiagnostic "07009" 0 "Invalid descriptor index"], true) tt.
Proof. by vm_compute. Qed.

(** The record numbers of a descriptor have 16 bits with a sign, those of the
    bindings have none: the binding is kept, and its call refused. *)
Lemma large_number_is_refused :
  outcome_of (bindCol 40000 (mkColumnBinding SQL_C_CHAR 16 4 0)) (λ rc s, (rc, bool_decide (is_Some (col_bindings_ s !! 40000)))) new_statement [] =
  Returns (SQL_ERROR, true) tt.
Proof. by vm_compute. Qed.

(** A descriptor that the application made is for parameters only, and a
    statement goes on using it when it was freed. *)
Lemma made_descriptor_is_no_row_descriptor :
  outcome_of (_ ← allocDescriptor 99; setAttribute (mkAttributeCodes [] [] 3) SQL_ATTR_APP_ROW_DESC 99)
    (λ rc s, (rc, diagnostics_ s)) new_statement [] =
  Returns (SQL_ERROR, [mkDiagnostic "HY024" 0 "Descriptor type mismatch"]) tt.
Proof. by vm_compute. Qed.

Lemma freed_descriptor_is_used :
  outcome_of (_ ← allocDescriptor 99; _ ← setAttribute (mkAttributeCodes [] [] 3) SQL_ATTR_APP_PARAM_DESC 99; _ ← freeDescriptor 99;
              freeStmt SQL_RESET_PARAMS) (λ rc _, rc) new_statement [] = Undefined.
Proof. by vm_compute. Qed.

(** The concise type of a column is refused. *)
Lemma concise_type_is_refused :
  outcome_of (colAttribute 1 SQL_DESC_CONCISE_TYPE 0 0 0 0) (λ rc s, (rc, diagnostics_ s))
    (new_statement <| columns_ := [mkColumn "a" "TEXT" SQL_VARCHAR 0 SQL_NULLABLE] |>) [] =
  Returns (SQL_ERROR, [mkDiagnostic "HY091" 0 "Invalid descriptor field identifier"]) tt.
Proof. by vm_compute. Qed.

(** A copy of a descriptor of the statement says that it was allocated with it. *)
Lemma copied_descriptor_is_automatic :
  outcome_of (_ ← allocDescriptor 99; copyDesc owned_app_param_desc_ 99) (λ rc s, (rc, alloc_type_ <$> descriptors_ s !! 99)) new_statement [] =
  Returns (SQL_SUCCESS, Some SQL_DESC_ALLOC_AUTO) tt.
Proof. by vm_compute. Qed.
