(* ===== verification/OdbcBulk.v ===== *)
(** * ODBC driver: bulk operations

    Models [OdbcStatement::bulkOperations] of
    [src/tracks/p3/drivers/odbc/src/odbc_handles.cpp]: the prepared text is
    executed once for each row of an array of parameters. All rows are built
    before the first is executed; after a failure the rows that were executed are
    to be rolled back. *)

From S2P Require Import Prelude.
From S2P Require Import OdbcText.
From S2P Require Import OdbcTypes.
From S2P Require Import OdbcRun.
From S2P Require Import OdbcConnection.
From S2P Require Import OdbcStatement.

(** Codes of the system's [sqlext.h]; [SQL_FETCH_BY_BOOKMARK] may be absent. *)
Record BulkCodes := mkBulkCodes { row_operations : list Z; SQL_FETCH_BY_BOOKMARK : option Z }.

Section bulk.
Context (order : gmap Z ColumnBinding → list (Z * ColumnBinding)) (codes : BulkCodes) (clock : nat → Z) (fuel : nat).

Definition finish (rc : SQLRETURN) : Stmt SQLRETURN :=
  _ ← (if negb (rc =? SQL_NEED_DATA) then clearPutDataState else mret tt); mret rc.

(** [*params_processed_ptr_ = n; *rows_fetched_ptr_ = n;] *)
Definition report_counts (n : Z) : Stmt () :=
  s ← field id; _ ← store_to (params_processed_ptr_ s) 8 n; store_to (rows_fetched_ptr_ s) 8 n.

(** [if (param_status_ptr_) param_status_ptr_[row] = status;] *)
Definition set_param_status (row status : Z) : Stmt () :=
  s ← field id;
  if param_status_ptr_ s =? 0 then mret tt else store (param_status_ptr_ s + 2 * row) (le_bytes 2 status).

Definition fail_row (row processed : Z) (rc : SQLRETURN) : Stmt SQLRETURN :=
  _ ← set_param_status row SQL_PARAM_ERROR; _ ← report_counts processed; mret rc.

Definition fetchByBookmark : Stmt SQLRETURN :=
  s ← field id;
  if negb (has_results_ s) || bool_decide (rows_ s = []) then refuse "24000" "Invalid cursor state" else
  if fetch_bookmark_ptr_ s =? 0 then refuse "HY024" "Fetch bookmark pointer not set" else
  bookmark_index ← load_i64 (fetch_bookmark_ptr_ s);
  if bookmark_index <=? 0 then refuse "HY109" "Invalid cursor position" else
  if blen (rows_ s) <? bookmark_index then
    _ ← store_to (row_status_ptr_ s) 2 SQL_ROW_NOROW; _ ← store_to (rows_fetched_ptr_ s) 8 0;
    _ ← store_to (params_processed_ptr_ s) 8 0; mret SQL_NO_DATA
  else
    _ ← position (Z.to_nat bookmark_index);
    bind_rc ← bindResultData order;
    if negb (succeeded bind_rc) then mret bind_rc else
    _ ← change (λ s, s <| row_count_ := 1 |>); _ ← store_to (params_processed_ptr_ s) 8 0; mret bind_rc.

(** The first loop: [None] when every row can be built. *)
Fixpoint preflight (rows : list Z) : Stmt (option SQLRETURN) :=
  match rows with
  | [] => mret None
  | row :: rows =>
      '(build_status, _) ← buildParameterData row;
      if build_status =? SQL_NEED_DATA then _ ← report_counts 0; mret (Some SQL_NEED_DATA)
      else if negb (succeeded build_status) then rc ← fail_row row 0 build_status; mret (Some rc)
      else preflight rows
  end.

Definition add_diagnostic (d : DiagnosticRecord) : Stmt () :=
  change (λ s, s <| diagnostics_ := OdbcStatement.diagnostics_ s ++ [d] |>).

Definition connection_diagnostic : Stmt (option DiagnosticRecord) := λ w, Returns (head (OdbcConnection.diagnostics_ (conn w))) w.

(** After a failed row: the error of the connection, and the rollback of the
    rows that were executed. *)
Definition report_failure (processed : Z) : Stmt () :=
  primary ← connection_diagnostic;
  _ ← add_diagnostic (default (mkDiagnostic "HY000" 0 "Bulk operation failed") primary);
  if processed =? 0 then mret tt else
  rollback_rc ← on_connection (endTransaction clock fuel SQL_ROLLBACK);
  if negb (succeeded rollback_rc) then
    d ← connection_diagnostic;
    add_diagnostic
      match d with
      | None => mkDiagnostic "HY000" 0 "Rollback after partial batch failure failed"
      | Some d => mkDiagnostic (OdbcConnection.sqlstate d) (native_error d)
                    ("Rollback after partial batch failure failed: " ++ message d)
      end
  else add_diagnostic (mkDiagnostic "01000" 0 "Partially applied batch was rolled back").

(** The body of the second loop: what it returns, or whether there was a warning. *)
Definition run_row (row processed : Z) : Stmt (bool + SQLRETURN) :=
  '(build_status, params) ← buildParameterData row;
  if build_status =? SQL_NEED_DATA then _ ← report_counts processed; mret (inr SQL_NEED_DATA)
  else if negb (succeeded build_status) then rc ← fail_row row processed build_status; mret (inr rc)
  else
    let row_has_info := build_status =? SQL_SUCCESS_WITH_INFO in
    s ← field id;
    sql ← on_connection (buildPreparedSQL (server_stmt_id_ s) params);
    match sql with
    | None => rc ← fail_row row processed SQL_ERROR; mret (inr rc)
    | Some sql =>
        '(rc, _) ← on_connection (executeSQL clock fuel sql);
        if negb (succeeded rc) then
          _ ← report_failure processed; rc ← fail_row row processed rc; mret (inr rc)
        else
          let info := row_has_info || (rc =? SQL_SUCCESS_WITH_INFO) in
          _ ← set_param_status row (if info then SQL_PARAM_SUCCESS_WITH_INFO else SQL_PARAM_SUCCESS);
          mret (inl (row_has_info || (info && negb (param_status_ptr_ s =? 0))))
    end.

Fixpoint run_rows (rows : list Z) (processed : Z) (info_seen : bool) : Stmt SQLRETURN :=
  match rows with
  | [] =>
      _ ← change (λ s, s <| row_count_ := i64 processed |>); _ ← report_counts processed;
      mret (if info_seen then SQL_SUCCESS_WITH_INFO else SQL_SUCCESS)
  | row :: rows =>
      result ← run_row row processed;
      match result with
      | inr rc => mret rc
      | inl info => run_rows rows (processed + 1) (info_seen || info)
      end
  end.

Definition zero_param_status : Stmt () :=
  s ← field id;
  if param_status_ptr_ s =? 0 then mret tt else store_all (param_status_ptr_ s) 2 0 (Z.to_nat (paramset_size_ s)).

Definition bulkOperations (operation : Z) : Stmt SQLRETURN :=
  _ ← clearDiagnostics;
  if bool_decide (SQL_FETCH_BY_BOOKMARK codes = Some operation) then rc ← fetchByBookmark; finish rc else
  if negb (bool_decide (operation ∈ row_operations codes))
  then rc ← refuse "HY092" "Invalid SQLBulkOperations operation"; finish rc else
  s ← field id;
  if negb (prepared_ s) then rc ← refuse "HY010" "Function sequence error"; finish rc else
  if paramset_size_ s =? 0 then _ ← report_counts 0; finish SQL_SUCCESS else
  _ ← zero_param_status;
  let rows := Z.of_nat <$> seq 0 (Z.to_nat (paramset_size_ s)) in
  refused ← preflight rows;
  match refused with
  | Some rc => finish rc
  | None => rc ← run_rows rows 0 false; finish rc
  end.
End bulk.
