(* ===== verification/OdbcCursor.v ===== *)
(** * ODBC driver: the state of a statement stays consistent

    Whatever calls are made on a statement, in whatever order and with whatever
    answers of the server, its cursor stands inside its rows, its streams inside
    their values and its batch inside its results. The positions are what keeps
    the accesses of [getDataInternal] and [bindResultData] inside their
    containers. *)

From S2P Require Import Prelude.
From S2P Require Import OdbcRun.
From S2P Require Import OdbcTypes.
From S2P Require Import OdbcConnection.
From S2P Require Import OdbcDescriptor.
From S2P Require Import OdbcStatement.
From S2P Require Import OdbcAttributes.
From S2P Require Import OdbcBulk.

(** ** The invariant *)

(** What a descriptor at an address is: the four that the statement owns, and
    those that the application made. *)
Definition expected_identity (conn handle : Z) : Z * DescriptorType * bool :=
  if handle =? owned_app_param_desc_ then (conn, APD, true)
  else if handle =? owned_imp_param_desc_ then (conn, IPD, true)
  else if handle =? owned_app_row_desc_ then (conn, ARD, true)
  else if handle =? owned_ird_desc_ then (conn, IRD, true)
  else (conn, APD, false).

Record cursor_ok (s : OdbcStatement) : Prop := mkCursorOk {
  row_inside : (current_row_ s <= length (rows_ s))%nat;
  results_have_columns : has_results_ s = negb (bool_decide (columns_ s = []));
  streams_inside : map_Forall (λ _ g, (gs_offset g <= length (gs_value g))%nat) (get_data_stream_ s);
  result_inside : result_sets_ s = [] ∧ current_result_index_ s = O ∨ (current_result_index_ s < length (result_sets_ s))%nat;
  parameter_inside : data_at_exec_active_ s = true → data_at_exec_params_ s ≠ [] →
    (data_at_exec_index_ s < length (data_at_exec_params_ s))%nat;
  cursor_type_known : cursor_type_ s ∈ [SQL_CURSOR_FORWARD_ONLY; SQL_CURSOR_KEYSET_DRIVEN; SQL_CURSOR_DYNAMIC; SQL_CURSOR_STATIC];
  concurrency_known : concurrency_ s ∈ [SQL_CONCUR_READ_ONLY; SQL_CONCUR_LOCK; SQL_CONCUR_ROWVER; SQL_CONCUR_VALUES];
  cursor_named : cursor_name_ s ≠ [];
  descriptors_kind : map_Forall (λ handle d, identity d = expected_identity (conn_ s) handle) (descriptors_ s);
  descriptors_owned : ∀ handle, 1 <= handle <= 4 → is_Some (descriptors_ s !! handle);
  row_descriptors : app_row_desc_ s = owned_app_row_desc_ ∧ ird_desc_ s = owned_ird_desc_;
  parameter_descriptors : ipd_desc_ s = owned_imp_param_desc_ ∧
    app_param_desc_ s ∉ [owned_imp_param_desc_; owned_app_row_desc_; owned_ird_desc_]
}.

Definition inv (w : world) : Prop := cursor_ok (stmt w).

(** ** The calls *)

Inductive call :=
  | Prepare (sql len : Z)
  | ExecDirect (sql len : Z)
  | Execute
  | BulkOperations (operation : Z)
  | Fetch
  | FetchScroll (orientation offset : Z)
  | SetPos (row operation lock : Z)
  | GetData (column type target size ind : Z)
  | MoreResults
  | CloseCursor
  | FreeStmt (option : Z)
  | BindParameter (number : Z) (binding : ParameterBinding)
  | BindCol (number : Z) (binding : ColumnBinding)
  | ParamData (token : Z)
  | PutData (data len : Z)
  | RowCount (count : Z)
  | NumResultCols (count : Z)
  | NumParams (count : Z)
  | Cancel
  | SetAttribute (attribute value : Z)
  | GetAttribute (attribute value len : Z)
  | DescribeParam (number type size digits nullable : Z)
  | DescribeCol (number name size len type column_size digits nullable : Z)
  | ColAttribute (number field text size len numeric : Z)
  | SetCursorName (name len : Z)
  | GetCursorName (name size len : Z)
  | AllocDescriptor (handle : Z)
  | FreeDescriptor (handle : Z)
  | SetDescField (handle rec field value len : Z)
  | GetDescField (handle rec field value size len : Z)
  | SetDescRec (handle rec type sub_type len precision scale data string_length indicator : Z)
  | GetDescRec (handle rec name size string_length type sub_type len precision scale nullable : Z)
  | CopyDesc (source target : Z)
  | Catalog (columns : list ColumnMetadata) (rows : list (list bytes)).

Section calls.
Context (order : gmap Z ColumnBinding → list (Z * ColumnBinding)) (positions : PositionCodes) (bulk : BulkCodes)
  (attributes : AttributeCodes).
Context (clock : nat → Z) (fuel : nat).

Definition perform (c : call) : Stmt SQLRETURN :=
  match c with
  | Prepare sql len => prepare sql len
  | ExecDirect sql len => execDirect clock fuel sql len
  | Execute => execute clock fuel
  | BulkOperations operation => bulkOperations order bulk clock fuel operation
  | Fetch => fetch order
  | FetchScroll orientation offset => fetchScroll order orientation offset
  | SetPos row operation lock => setPos order positions row operation lock
  | GetData column type target size ind => getData column type target size ind
  | MoreResults => moreResults
  | CloseCursor => closeCursor
  | FreeStmt option => freeStmt option
  | BindParameter number binding => bindParameter (SQL_SEARCHABLE attributes) number binding
  | BindCol number binding => bindCol number binding
  | ParamData token => paramData token
  | PutData data len => putData data len
  | RowCount count => rowCount count
  | NumResultCols count => numResultCols count
  | NumParams count => numParams count
  | Cancel => cancel
  | SetAttribute attribute value => setAttribute attributes attribute value
  | GetAttribute attribute value len => getAttribute attribute value len
  | DescribeParam number type size digits nullable => describeParam number type size digits nullable
  | DescribeCol number name size len type column_size digits nullable =>
      describeCol number name size len type column_size digits nullable
  | ColAttribute number field text size len numeric => colAttribute number field text size len numeric
  | SetCursorName name len => setCursorName name len
  | GetCursorName name size len => getCursorName name size len
  | AllocDescriptor handle => allocDescriptor handle
  | FreeDescriptor handle => freeDescriptor handle
  | SetDescField handle rec field value len => with_descriptor handle (setField rec field (application value) len)
  | GetDescField handle rec field value size len => with_descriptor handle (getField rec field value size len)
  | SetDescRec handle rec type sub_type len precision scale data string_length indicator =>
      with_descriptor handle (setRec rec type sub_type len precision scale data string_length indicator)
  | GetDescRec handle rec name size string_length type sub_type len precision scale nullable =>
      with_descriptor handle (getRec rec name size string_length type sub_type len precision scale nullable)
  | CopyDesc source target => copyDesc source target
  | Catalog columns rows => _ ← setCatalogResult columns rows; mret SQL_SUCCESS
  end.

Fixpoint perform_all (calls : list call) : Stmt () :=
  match calls with [] => mret tt | c :: calls => _ ← perform c; perform_all calls end.
End calls.

(** ** Steps that keep it *)

Lemma kept_change f : (∀ s, cursor_ok s → cursor_ok (f s)) → keeps True inv (change f).
Proof. intros H w Hw. by apply H. Qed.

Lemma kept_field {A} (f : OdbcStatement → A) : keeps True inv (field f).
Proof. by intros w Hw. Qed.

(** A step may use what it has read. *)
Lemma kept_read {A B} (g : OdbcStatement → A) (f : A → Stmt B) :
  (∀ w, inv w → post True (f (g (stmt w))) w (λ _, inv)) → keeps True inv (field g ≫= f).
Proof. intros H w Hw. by apply H. Qed.

Lemma kept_load addr n : keeps True inv (load addr n).
Proof. intros w Hw. unfold post, load. destruct (n =? 0); [done|]. by destruct (read_bytes _ _ _). Qed.

Lemma kept_store addr data : keeps True inv (store addr data).
Proof. intros w Hw. unfold post, store. case_bool_decide; [done|]. by destruct (write_bytes _ _ _). Qed.

Lemma kept_load_string addr : keeps True inv (load_string addr).
Proof. intros w Hw. unfold post, load_string. by destruct (read_string _ _). Qed.

Lemma kept_connection {A} (m : prog OdbcConnection A) : keeps True inv (on_connection m).
Proof. by apply kept_zoom. Qed.

Lemma kept_outcome {A} (o : outcome A) : keeps True inv (from_outcome o).
Proof. by intros w Hw; destruct o. Qed.

#[export] Hint Resolve kept_field kept_load kept_store kept_load_string kept_connection kept_outcome : keeps.
#[export] Hint Extern 1 (keeps True inv (change _)) => apply kept_change; intros ? H; solve [exact H | by destruct H; constructor] : keeps.

Lemma kept_store_to pointer n z : keeps True inv (store_to pointer n z).
Proof. unfold store_to. keep. Qed.

Lemma kept_load_i64 addr : keeps True inv (load_i64 addr).
Proof. unfold load_i64. keep. Qed.

Lemma kept_refuse sqlstate text : keeps True inv (refuse sqlstate text).
Proof. unfold refuse, setError. keep. Qed.

Lemma kept_truncation : keeps True inv truncation.
Proof. unfold truncation, setError. keep. Qed.

Lemma kept_clear : keeps True inv clearDiagnostics.
Proof. unfold clearDiagnostics. keep. Qed.

Lemma kept_argument addr len : keeps True inv (argument_text addr len).
Proof. unfold argument_text. keep. Qed.

#[export] Hint Resolve kept_store_to kept_load_i64 kept_refuse kept_truncation kept_clear kept_argument : keeps.

Lemma kept_clear_get : keeps True inv clearGetDataState.
Proof. apply kept_change. intros s []. constructor; cbn; auto. apply map_Forall_empty. Qed.

Lemma kept_clear_put : keeps True inv clearPutDataState.
Proof. apply kept_change. intros s []. by constructor. Qed.

Lemma kept_reset : keeps True inv resetResults.
Proof. apply kept_change. intros s []. constructor; cbn; auto; lia || apply map_Forall_empty. Qed.

#[export] Hint Resolve kept_clear_get kept_clear_put kept_reset : keeps.

Lemma kept_apply index : keeps True inv (applyResultSet index).
Proof.
  apply kept_read. intros w Hw. destruct (result_sets_ (stmt w) !! index) as [rs|] eqn:E; [|by apply kept_reset].
  unfold post, change. destruct Hw. constructor; cbn; auto; [lia|apply map_Forall_empty|].
  rewrite length_insert. right. destruct result_inside0 as [[H H']|]; [by rewrite H in E|done].
Qed.

Lemma kept_index_zero : keeps True inv (change (λ s, s <| current_result_index_ := O |>)).
Proof.
  apply kept_change. intros s []. constructor; cbn; auto. destruct (result_sets_ s); [auto|right; cbn; lia].
Qed.

#[export] Hint Resolve kept_apply kept_index_zero : keeps.

Lemma kept_more_results : keeps True inv moreResults.
Proof.
  unfold moreResults. apply kept_bind; [keep|intros _]. apply kept_read. intros w Hw. cbn [id]. case_bool_decide as Hn; [done|].
  destruct (Nat.leb_spec (length (result_sets_ (stmt w))) (S (current_result_index_ (stmt w)))) as [|Hl]; [done|].
  apply (post_bind _ _ _ _ (λ _, inv)); [destruct Hw; constructor; cbn; auto|]. intros _ w' Hw'.
  by apply (kept_bind True inv); [apply kept_apply|intros; keep|].
Qed.

(** Reading one part after another does not lose what was read before. *)
Lemma post_read {A B} (g : OdbcStatement → A) (f : A → Stmt B) U w Q : post U (f (g (stmt w))) w Q → post U (field g ≫= f) w Q.
Proof. done. Qed.

(** *** Executing *)

Lemma kept_run_statements clock fuel statements overall : keeps True inv (run_statements clock fuel overall statements).
Proof.
  revert overall. induction statements as [|statement statements IH]; intros overall; cbn [run_statements]; [keep|].
  apply kept_bind; [apply kept_connection|intros [status r]]. keep. apply kept_change. intros s []. constructor; cbn; auto.
  rewrite length_app. cbn. lia.
Qed.

#[export] Hint Resolve kept_run_statements kept_more_results : keeps.

Lemma kept_execute_statements clock fuel sql : keeps True inv (executeSqlStatements clock fuel sql).
Proof. unfold executeSqlStatements. keep. Qed.

#[export] Hint Resolve kept_execute_statements : keeps.

Lemma kept_prepare sql len : keeps True inv (prepare sql len).
Proof. unfold prepare, take_sql. keep. Qed.

Lemma kept_exec_direct clock fuel sql len : keeps True inv (execDirect clock fuel sql len).
Proof. unfold execDirect, take_sql. keep. Qed.

Lemma kept_catalog columns rows : keeps True inv (setCatalogResult columns rows).
Proof.
  unfold setCatalogResult. apply kept_bind; [keep|intros _]. apply kept_bind; [|intros _; keep].
  apply kept_change. intros s []. constructor; cbn; auto.
Qed.

(** *** Parameters *)

Lemma kept_load_indicator binding row : keeps True inv (load_indicator binding row).
Proof. unfold load_indicator. keep. Qed.

Lemma kept_set_stream key stream : keeps True inv (set_stream key stream).
Proof. unfold set_stream. keep. Qed.

#[export] Hint Resolve kept_load_indicator kept_set_stream : keeps.

(** Looking for streamed parameters changes the streams only. *)
Definition same_but_streams (w w' : world) : Prop :=
  ∃ streams, w' = w <| stmt := stmt w <| put_data_stream_ := streams |> |>.

Lemma same_refl w : same_but_streams w w.
Proof. exists (put_data_stream_ (stmt w)). by destruct w as [[] ? ?]. Qed.

Lemma same_trans w w' w'' : same_but_streams w w' → same_but_streams w' w'' → same_but_streams w w''.
Proof. intros [a ->] [b ->]. by exists b. Qed.

Lemma same_inv w w' : same_but_streams w w' → inv w → inv w'.
Proof. intros [? ->] []. by constructor. Qed.

Lemma load_reads w addr : post True (load_i64 addr) w (λ _ w', w' = w).
Proof. unfold load_i64, load, post, mbind, prog_bind. cbn. by destruct (read_bytes (mem w) _ 8). Qed.

Lemma indicator_reads w binding row : post True (load_indicator binding row) w (λ _ w', w' = w).
Proof. apply post_read; cbv beta zeta. destruct (_ =? 0); [done|]. eapply post_bind; [apply load_reads|]. by intros ind ? ->. Qed.

Lemma note_stream_frame w row number binding : post True (note_stream row number binding) w (λ _, same_but_streams w).
Proof.
  unfold note_stream. eapply post_bind; [apply indicator_reads|]. intros ind ? ->. pose proof (same_refl w) as Hr.
  destruct ind as [ind|]; [|done]. destruct (negb _); [done|]. apply post_read. destruct (from_option _ _ _); [done|].
  destruct (parseDataAtExecLength ind) as [expected|]; [|done].
  destruct (put_data_stream_ (stmt w) !! _), expected; try done; by eexists.
Qed.

Lemma note_streams_frame bindings : ∀ w row, post True (note_streams row bindings) w (λ _, same_but_streams w).
Proof.
  induction bindings as [|[number binding] bindings IH]; intros w row; cbn [note_streams]; [apply same_refl|].
  eapply post_bind; [apply note_stream_frame|]. intros pending w1 H1. eapply post_bind; [apply IH|]. intros rest w2 H2.
  by apply (same_trans w w1).
Qed.

(** [SQL_SUCCESS] means that no parameter is pending. *)
Lemma validate_post w row : inv w →
  post True (validateOrInitDataAtExecStateForRow row) w
    (λ rc w', inv w' ∧ (rc = SQL_SUCCESS → data_at_exec_params_ (stmt w') = [])).
Proof.
  intros Hw. apply post_read. destruct (negb _); [split; [by destruct Hw; constructor|discriminate]|].
  destruct (_ && _); [split; [done|discriminate]|].
  apply (post_bind _ _ _ _ (λ _ w', w' = w <| stmt := stmt w <| data_at_exec_active_ := false |> <| data_at_exec_params_ := [] |>
    <| data_at_exec_index_ := O |> <| data_at_exec_row_offset_ := row |> |>)); [done|]. intros [] w1 ->.
  eapply post_bind; [apply note_streams_frame|]. intros pending w2 [streams ->].
  case_bool_decide as Hp; unfold post, change; (split; [|done]); destruct Hw; constructor; cbn; auto; [done|]. intros _ _.
  rewrite (Permutation_length (merge_sort_Permutation Z.le pending)). destruct pending; [done|]. cbn. lia.
Qed.

Lemma kept_validate row : keeps True inv (validateOrInitDataAtExecStateForRow row).
Proof. intros w Hw. eapply post_weaken; [by apply validate_post|]. by intros ? ? []. Qed.

#[export] Hint Resolve kept_validate : keeps.

Lemma kept_param_data token : keeps True inv (paramData token).
Proof. unfold paramData. keep. Qed.

Lemma kept_next_parameter : keeps True inv next_parameter.
Proof.
  apply kept_change. intros s []. destruct (Nat.ltb_spec (S (data_at_exec_index_ s)) (length (data_at_exec_params_ s))); by constructor.
Qed.

#[export] Hint Resolve kept_next_parameter : keeps.

Lemma kept_put_chunk binding data len : keeps True inv (put_chunk binding data len).
Proof. unfold put_chunk. keep. Qed.

#[export] Hint Resolve kept_put_chunk : keeps.

Lemma kept_put_data data len : keeps True inv (putData data len).
Proof. unfold putData. keep. Qed.

Lemma kept_char_parameter binding ind addr : keeps True inv (char_parameter binding ind addr).
Proof. unfold char_parameter. keep. Qed.

Lemma kept_binary_parameter binding ind addr : keeps True inv (binary_parameter binding ind addr).
Proof. unfold binary_parameter. keep. Qed.

#[export] Hint Resolve kept_char_parameter kept_binary_parameter : keeps.

Lemma kept_memory_parameter binding ind addr : keeps True inv (memory_parameter binding ind addr).
Proof. unfold memory_parameter. keep. Qed.

Lemma kept_streamed_parameter i binding row : keeps True inv (streamed_parameter i binding row).
Proof.
  unfold streamed_parameter. apply kept_bind; [keep|intros streams].
  match goal with |- context [match ?x with Some _ => _ | None => _ end] => destruct x end; [keep|].
  intros w Hw. eapply post_bind; [by apply validate_post|]. intros rc w' [Hw' Hp]. destruct (Z.eqb_spec rc SQL_SUCCESS); [|done].
  apply post_read. match goal with |- context [match ?x with Some _ => _ | None => _ end] => destruct x end; [done|].
  unfold post, change. specialize (Hp e). destruct Hw'. by constructor.
Qed.

#[export] Hint Resolve kept_memory_parameter kept_streamed_parameter : keeps.

Lemma kept_parameter_literals i row : keeps True inv (parameter_literals i row).
Proof. unfold parameter_literals. keep. Qed.

#[export] Hint Resolve kept_parameter_literals : keeps.

Lemma kept_parameters_loop numbers : ∀ row literals info, keeps True inv (parameters_loop numbers row literals info).
Proof. induction numbers as [|i numbers IH]; intros row literals info; cbn [parameters_loop]; keep. Qed.

#[export] Hint Resolve kept_parameters_loop : keeps.

Lemma kept_build row : keeps True inv (buildParameterData row).
Proof. unfold buildParameterData. keep. Qed.

#[export] Hint Resolve kept_build : keeps.

Lemma kept_execute clock fuel : keeps True inv (execute clock fuel).
Proof. unfold execute. keep. Qed.

(** *** Reading *)

Lemma kept_stream column initial is_text target size chunks : keeps True inv (streamChunk column initial is_text target size chunks).
Proof.
  unfold streamChunk. apply kept_read. intros w Hw.
  set (state := default _ _). assert (Hs : (gs_offset state <= length (gs_value state))%nat).
  { unfold state. destruct (get_data_stream_ (stmt w) !! column) as [g|] eqn:E; cbn; [|lia]. by apply (streams_inside _ Hw column). }
  assert (Hd : ∀ w g, inv w → (gs_offset g <= length (gs_value g))%nat →
    inv (w <| stmt := stmt w <| get_data_stream_ := <[column := g]> (get_data_stream_ (stmt w)) |> |>)).
  { intros w' g [] Hg. constructor; cbn; auto. by apply map_Forall_insert_2. }
  destruct (Nat.leb_spec (length (gs_value state)) (gs_offset state)) as [|Ho].
  - unfold post. cbn. destruct Hw. constructor; cbn; auto. by apply map_Forall_delete.
  - destruct (_ <=? 0); [unfold post; cbn; by apply Hd|]. cbv zeta.
    apply (post_bind _ _ _ _ (λ _ w', inv w' ∧ stmt w' = stmt w)).
    { destruct (target =? 0); [done|]. unfold post, store. case_bool_decide; [done|]. by destruct (write_bytes _ _ _). }
    intros [] w1 [Hw1 E]. apply (post_bind _ _ _ _ (λ _, inv)).
    { unfold post, change. rewrite <-E. apply Hd; [done|]. cbn. lia. }
    intros [] w2 Hw2. destruct (_ <? _)%nat; [|done]. by apply (kept_bind True inv); [apply kept_truncation|intros; keep|].
Qed.

#[export] Hint Resolve kept_stream : keeps.

Lemma kept_store_fixed target ind data size : keeps True inv (store_fixed target ind data size).
Proof. unfold store_fixed. keep. Qed.

Lemma kept_store_parsed target ind data sqlstate text : keeps True inv (store_parsed target ind data sqlstate text).
Proof. unfold store_parsed. keep. Qed.

#[export] Hint Resolve kept_store_fixed kept_store_parsed : keeps.

Lemma kept_get_data column type target size ind chunks : keeps True inv (getDataInternal column type target size ind chunks).
Proof. unfold getDataInternal, convert. keep. Qed.

#[export] Hint Resolve kept_get_data : keeps.

Lemma kept_bookmark s : keeps True inv (bind_bookmark s).
Proof. unfold bind_bookmark. cbv zeta. keep. Qed.

Lemma kept_bind_column row col binding : keeps True inv (bind_column row col binding).
Proof. unfold bind_column. keep. Qed.

#[export] Hint Resolve kept_bookmark kept_bind_column : keeps.

Lemma kept_bind_columns row bindings : ∀ result, keeps True inv (bind_columns row result bindings).
Proof. induction bindings as [|[col binding] bindings IH]; intros result; cbn [bind_columns]; keep. Qed.

#[export] Hint Resolve kept_bind_columns : keeps.

Lemma kept_bind_data order : keeps True inv (bindResultData order).
Proof. unfold bindResultData. keep. Qed.

#[export] Hint Resolve kept_bind_data : keeps.

(** *** Moving *)

(** To a row that the statement has. *)
Lemma position_post {A} U w row (f : Stmt A) Q : inv w → (row <= length (rows_ (stmt w)))%nat →
  (∀ w', inv w' → rows_ (stmt w') = rows_ (stmt w) → post U f w' Q) → post U (_ ← position row; f) w Q.
Proof. intros Hw Hr Hf. apply Hf; [|done]. destruct Hw. by constructor. Qed.

Lemma kept_fetch order : keeps True inv (fetch order).
Proof.
  unfold fetch. apply kept_bind; [keep|intros _]. apply kept_read. intros w Hw. cbn [id]. destruct (negb _); [by apply kept_refuse|].
  destruct (Nat.leb_spec (length (rows_ (stmt w))) (current_row_ (stmt w))) as [|Hl]; [done|].
  apply position_post; [done|lia|]. intros w' Hw' _. by apply (kept_bind True inv); [apply kept_clear_get|intros; keep|].
Qed.

(** The index that is asked for is computed without a change of the rows. *)
Lemma target_index_post w orientation offset : inv w →
  post True (target_index (stmt w) orientation offset) w (λ _ w', inv w' ∧ rows_ (stmt w') = rows_ (stmt w)).
Proof.
  intros Hw. unfold target_index, refuse, setError, load_i64, load.
  assert (Hd : ∀ d, inv (w <| stmt := stmt w <| diagnostics_ := diagnostics_ (stmt w) ++ d |> |>)) by (intros d; destruct Hw; by constructor).
  repeat match goal with |- post _ (if ?b then _ else _) _ _ => destruct b end; try done;
    try (unfold post, mbind, prog_bind; cbn; split; [by apply Hd|done]).
  - unfold post, mbind, prog_bind. destruct (int64_sum _ _); cbn; done.
  - unfold post, mbind, prog_bind. cbn. destruct (read_bytes (mem w) _ 8) as [d|]; [|done]. cbn.
    destruct (_ <=? 0); [done|]. by destruct (int64_sum _ _).
Qed.

Lemma kept_fetch_scroll order orientation offset : keeps True inv (fetchScroll order orientation offset).
Proof.
  unfold fetchScroll. apply kept_bind; [keep|intros _]. apply kept_read. intros w Hw. cbn [id].
  destruct (negb _); [by apply kept_refuse|]. case_bool_decide; [done|]. destruct (_ && _); [by apply kept_refuse|].
  eapply post_bind; [by apply target_index_post|]. intros [new_index|rc] w' [Hw' Er]; [|done].
  destruct ((new_index <? 0) || (blen (rows_ (stmt w)) <=? new_index)) eqn:Hi; [done|].
  apply position_post; [done|rewrite Er; lia|]. intros w'' Hw'' _. by apply (kept_bind True inv); [apply kept_clear_get|intros; keep|].
Qed.

Lemma kept_store_all n status count : ∀ pointer, keeps True inv (store_all pointer n status count).
Proof. induction count as [|count IH]; intros pointer; cbn [store_all]; keep. Qed.

#[export] Hint Resolve kept_store_all : keeps.

Lemma kept_rowset status : keeps True inv (setStatusForEntireRowset status).
Proof. unfold setStatusForEntireRowset. keep. Qed.

Lemma kept_row_status row status : keeps True inv (setStatusForRow row status).
Proof. unfold setStatusForRow. keep. Qed.

Lemma kept_invalid_position : keeps True inv invalid_position.
Proof. unfold invalid_position. keep. Qed.

#[export] Hint Resolve kept_rowset kept_row_status kept_invalid_position : keeps.

(** The status of a row is memory of the application. *)
Lemma row_status_frame w row status : post True (setStatusForRow row status) w (λ _ w', stmt w' = stmt w).
Proof.
  assert (Hs : ∀ w addr data, post True (store addr data) w (λ _ w', stmt w' = stmt w)).
  { intros w1 addr data. unfold post, store. case_bool_decide; [done|]. by destruct (write_bytes _ _ _). }
  apply post_read. apply (post_bind _ _ _ _ (λ _ w1, stmt w1 = stmt w)); [unfold store_to; destruct (_ =? 0); [exact eq_refl|apply Hs]|]. intros [] w1 <-.
  repeat match goal with |- post _ (if ?b then _ else _) _ _ => destruct b end; first [exact eq_refl | apply Hs].
Qed.

(** The deletion of a row leaves the cursor on a row, or before the first. *)
Lemma kept_delete w row : inv w →
  post True (_ ← change (λ s, s <| rows_ := delete (Z.to_nat row - 1)%nat (rows_ s) |>);
             _ ← setStatusForRow row SQL_ROW_DELETED;
             _ ← change (λ s, s <| current_row_ := if bool_decide (rows_ s = []) then O
                                                   else Nat.min (Z.to_nat row) (length (rows_ s)) |>);
             mret (inl 1 : Z + SQLRETURN)) w (λ _, inv).
Proof.
  intros Hw. apply (post_bind _ _ _ _ (λ _ w', stmt w' = stmt w <| rows_ := delete (Z.to_nat row - 1)%nat (rows_ (stmt w)) |>)); [done|].
  intros [] w1 E1. eapply post_bind; [apply row_status_frame|]. intros [] w2 E2. rewrite E1 in E2.
  unfold post, mbind, prog_bind, change. unfold inv. cbn. rewrite E2. destruct Hw. constructor; cbn; auto.
  match goal with |- ((if ?b then _ else _) <= _)%nat => destruct b end; lia.
Qed.

Lemma kept_apply_operation positions order w s row operation : inv w → rows_ s = rows_ (stmt w) →
  post True (apply_operation order positions s row operation) w (λ _, inv).
Proof.
  intros Hw Hrows. assert (Hk : ∀ A (m : Stmt A), keeps True inv m → post True m w (λ _, inv)) by auto. unfold apply_operation.
  assert (Hv : negb (valid_row s row) = false → (Z.to_nat row <= length (rows_ (stmt w)))%nat)
    by (unfold valid_row; rewrite <-Hrows; lia).
  destruct (_ =? _).
  { destruct (_ || _) eqn:E; [by apply Hk, kept_invalid_position|]. apply orb_false_iff in E as [_ E].
    apply position_post; [done|by apply Hv|]. intros w' Hw' _. by apply (kept_bind True inv); [apply kept_row_status|intros; keep|]. }
  destruct (_ =? _).
  { destruct (_ || _) eqn:E; [by apply Hk, kept_invalid_position|]. apply orb_false_iff in E as [_ E].
    apply position_post; [done|by apply Hv|]. intros w' Hw' _. by apply (kept_bind True inv); [apply kept_bind_data|intros; keep|]. }
  destruct (_ =? _).
  { destruct (_ =? _); [by apply Hk, kept_invalid_position|]. destruct (_ =? _); [by apply Hk; keep|].
    destruct (negb _) eqn:E; [by apply Hk, kept_invalid_position|].
    apply position_post; [done|by apply Hv|]. intros w' Hw' _. by apply (kept_bind True inv); [apply kept_row_status|intros; keep|]. }
  destruct (_ =? _); [|by apply Hk; keep]. destruct (_ =? _); [by apply Hk; keep|]. destruct (_ =? _).
  { by apply Hk; keep. }
  destruct (negb _); [by apply Hk, kept_invalid_position|by apply kept_delete].
Qed.

Lemma kept_set_pos order positions row operation lock : keeps True inv (setPos order positions row operation lock).
Proof.
  unfold setPos. apply kept_bind; [keep|intros _]. apply kept_read. intros w Hw. cbn [id].
  destruct (_ || _); [by apply kept_refuse|]. destruct (_ =? _); [by apply kept_refuse|]. destruct (negb _); [by apply kept_refuse|].
  apply (post_bind _ _ _ _ (λ _ w', inv w' ∧ rows_ (stmt w) = rows_ (stmt w'))); [by split; [apply kept_clear_get|]|].
  intros [] w1 [Hw1 E]. eapply post_bind; [by apply kept_apply_operation|].
  intros result w2 Hw2. apply (λ H : keeps True inv _, H w2 Hw2). keep.
Qed.

#[export] Hint Resolve kept_fetch kept_fetch_scroll kept_set_pos : keeps.

(** *** Bulk operations *)

Lemma kept_finish rc : keeps True inv (finish rc).
Proof. unfold finish. keep. Qed.

Lemma kept_counts n : keeps True inv (report_counts n).
Proof. unfold report_counts. keep. Qed.

Lemma kept_param_status row status : keeps True inv (set_param_status row status).
Proof. unfold set_param_status. keep. Qed.

#[export] Hint Resolve kept_finish kept_counts kept_param_status : keeps.

Lemma kept_fail row processed rc : keeps True inv (fail_row row processed rc).
Proof. unfold fail_row. keep. Qed.

#[export] Hint Resolve kept_fail : keeps.

Lemma kept_by_bookmark order : keeps True inv (fetchByBookmark order).
Proof.
  unfold fetchByBookmark. apply kept_read. intros w Hw. cbn [id]. destruct (_ || _); [by apply kept_refuse|].
  destruct (_ =? 0); [by apply kept_refuse|]. eapply post_bind; [apply load_reads|]. intros index ? ->.
  destruct (_ <=? 0); [by apply kept_refuse|]. destruct (Z.ltb_spec (blen (rows_ (stmt w))) index) as [|Hi].
  - by apply (λ H : keeps True inv _, H w Hw); keep.
  - apply position_post; [done|lia|]. intros w' Hw' _. by apply (λ H : keeps True inv _, H w' Hw'); keep.
Qed.

Lemma kept_preflight rows : keeps True inv (preflight rows).
Proof. induction rows as [|row rows IH]; cbn [preflight]; keep. Qed.

Lemma kept_report_failure clock fuel processed : keeps True inv (report_failure clock fuel processed).
Proof.
  assert (Hd : keeps True inv connection_diagnostic) by (by intros w Hw). unfold report_failure, add_diagnostic. keep.
Qed.

#[export] Hint Resolve kept_preflight kept_report_failure kept_by_bookmark : keeps.

Lemma kept_run_row clock fuel row processed : keeps True inv (run_row clock fuel row processed).
Proof. unfold run_row. keep. Qed.

#[export] Hint Resolve kept_run_row : keeps.

Lemma kept_run_rows clock fuel rows : ∀ processed info, keeps True inv (run_rows clock fuel rows processed info).
Proof. induction rows as [|row rows IH]; intros processed info; cbn [run_rows]; keep. Qed.

#[export] Hint Resolve kept_run_rows : keeps.

Lemma kept_bulk order codes clock fuel operation : keeps True inv (bulkOperations order codes clock fuel operation).
Proof. unfold bulkOperations, zero_param_status. keep. Qed.

(** *** Descriptors *)

Lemma kept_on_descriptor {A} handle (m : Desc A) : (∀ i, keeps True (identified i) m) → keeps True inv (on_descriptor handle m).
Proof.
  intros Hm w Hw. unfold post, on_descriptor. destruct (descriptors_ (stmt w) !! handle) as [d|] eqn:E; [|done].
  pose proof (descriptors_kind _ Hw _ _ E) as Hd. specialize (Hm _ (mkDesk d (mem w)) Hd). unfold post in Hm.
  destruct (m (mkDesk d (mem w))) as [a k| | |]; try done. destruct Hw. constructor; cbn; auto; [by apply map_Forall_insert_2|].
  intros h Hh. apply lookup_insert_is_Some'. by right; auto.
Qed.

Lemma kept_reset_descriptor which : keeps True inv (reset_descriptor which).
Proof. unfold reset_descriptor. keep. apply kept_on_descriptor. intros i. keep. Qed.

Definition harmless_fields (fields : list (Z * Z * source)) : Prop := Forall (λ x, harmless x.2) fields.

Lemma kept_set_fields handle fields : harmless_fields fields → keeps True inv (set_fields handle fields).
Proof.
  induction 1 as [|[[n field] v] fields Hv Hfields IH]; cbn [set_fields]; [keep|].
  apply kept_bind; [|intros; keep]. apply kept_on_descriptor. intros i. by apply kept_set_field.
Qed.

Lemma kept_set_both first second fields : harmless_fields fields → keeps True inv (set_both first second fields).
Proof. intros H. pose proof kept_set_fields as Hs. unfold set_both. keep. Qed.

Lemma harmless_parameter SQL_SEARCHABLE number binding : harmless_fields (parameter_fields SQL_SEARCHABLE number binding).
Proof. repeat constructor; apply harmless_variable || apply harmless_pointer. Qed.

Lemma harmless_column number binding col : harmless_fields (column_fields number binding col).
Proof. destruct col; repeat constructor; apply harmless_variable || apply harmless_pointer. Qed.

#[export] Hint Resolve kept_reset_descriptor kept_set_both harmless_parameter harmless_column : keeps.

Lemma kept_with handle (m : Desc SQLRETURN) : (∀ i, keeps True (identified i) m) → keeps True inv (with_descriptor handle m).
Proof. intros Hm. unfold with_descriptor. keep. by apply kept_on_descriptor. Qed.

Lemma kept_copy source target : keeps True inv (copyDesc source target).
Proof.
  unfold copyDesc. keep; apply kept_on_descriptor; intros i; keep.
Qed.

#[export] Hint Resolve kept_copy : keeps.

Lemma kept_accept f : (∀ s, cursor_ok s → cursor_ok (f s)) → keeps True inv (accept f).
Proof. intros H. apply kept_bind; [by apply kept_change|intros; keep]. Qed.

#[export] Hint Extern 1 (keeps True inv (accept _)) => apply kept_accept; intros ? H; solve [exact H | by destruct H; constructor] : keeps.

(** An address that is not one of the statement's own. *)
Lemma expected_other conn handle : ¬ 1 <= handle <= 4 → expected_identity conn handle = (conn, APD, false).
Proof.
  intros H. unfold expected_identity, owned_app_param_desc_, owned_imp_param_desc_, owned_app_row_desc_, owned_ird_desc_.
  repeat match goal with |- context [?a =? ?b] => destruct (Z.eqb_spec a b); [lia|] end. done.
Qed.

(** The application makes parameter descriptors only. *)
Lemma kept_alloc handle : keeps True inv (allocDescriptor handle).
Proof.
  apply kept_read. intros w Hw. cbn [id]. destruct (_ || _) eqn:E; [done|]. apply orb_false_iff in E as [_ E].
  apply bool_decide_eq_false in E. unfold post, accept, mbind, prog_bind, change. destruct Hw. constructor; cbn; auto.
  - apply map_Forall_insert_2; [|done]. symmetry. apply expected_other. intros H. by apply E, descriptors_owned0.
  - intros h Hh. apply lookup_insert_is_Some'. by right; auto.
Qed.

Lemma kept_free handle : keeps True inv (freeDescriptor handle).
Proof.
  unfold freeDescriptor. destruct (_ =? 0); [keep|]. apply kept_read. intros w Hw. cbn [id].
  destruct (_ !! handle) as [d|] eqn:E; [|done]. destruct (implicit_ d) eqn:Ed; [done|].
  pose proof (descriptors_kind _ Hw _ _ E) as Hd. cbv beta in Hd.
  unfold post, accept, mbind, prog_bind, change. destruct Hw. constructor; cbn; auto.
  - by apply map_Forall_delete.
  - intros h Hh. rewrite lookup_delete_ne; [by auto|]. intros <-. unfold identity in Hd. rewrite Ed in Hd.
    unfold expected_identity, owned_app_param_desc_, owned_imp_param_desc_, owned_app_row_desc_, owned_ird_desc_ in Hd.
    repeat match type of Hd with context [?a =? ?b] => destruct (Z.eqb_spec a b); [done|] end. lia.
Qed.

(** A descriptor that is chosen has the type that is asked for. *)
Lemma kept_set_descriptor value own type f : (∀ s, cursor_ok s → cursor_ok (f own s)) →
  (∀ s handle conn, cursor_ok s → (expected_identity conn handle).1.2 = type → cursor_ok (f handle s)) →
  keeps True inv (set_descriptor value own type f).
Proof.
  intros Hown Hf. unfold set_descriptor. destruct (_ =? 0); [by apply kept_accept|]. apply kept_read. intros w Hw. cbn [id].
  destruct (_ !! _) as [d|] eqn:E; [|done]. destruct (negb _); [by apply kept_refuse|].
  case_bool_decide as Ht; [|by apply kept_refuse]. apply (Hf _ _ (conn_ (stmt w)) Hw).
  pose proof (descriptors_kind _ Hw _ _ E) as Hd. cbv beta in Hd. by rewrite <-Hd.
Qed.

Lemma expected_type conn handle type : (expected_identity conn handle).1.2 = type →
  (type = ARD → handle = owned_app_row_desc_) ∧ (type = IRD → handle = owned_ird_desc_) ∧
  (type = IPD → handle = owned_imp_param_desc_) ∧
  (type = APD → handle ∉ [owned_imp_param_desc_; owned_app_row_desc_; owned_ird_desc_]).
Proof.
  intros <-. rewrite !not_elem_of_cons. unfold expected_identity.
  repeat match goal with |- context [handle =? ?b] => destruct (Z.eqb_spec handle b) as [->|] end.
  all: cbn; split_and!; intros H; try discriminate H; try reflexivity; split_and!; try done; apply not_elem_of_nil.
Qed.

Lemma kept_set_one_of codes value f : (∀ s, cursor_ok s → value ∈ codes → cursor_ok (f s)) → keeps True inv (set_one_of codes value f).
Proof. intros H. unfold set_one_of. case_bool_decide; [apply kept_accept; auto|keep]. Qed.

Lemma kept_set_attribute codes attribute value : keeps True inv (setAttribute codes attribute value).
Proof.
  unfold setAttribute, set_from. apply kept_bind; [keep|intros _].
  repeat match goal with |- keeps _ _ (if attribute =? ?b then _ else _) => destruct (attribute =? b) end;
    try (keep; fail); try (apply kept_set_one_of; intros s [] Hv; by constructor).
  all: apply kept_set_descriptor; [intros s []|intros s handle c [] (H1 & H2 & H3 & H4)%expected_type];
    constructor; cbn; auto; destruct row_descriptors0, parameter_descriptors0; auto.
  split; [done|]. by apply (bool_decide_unpack _).
Qed.

Lemma kept_set_name name len : keeps True inv (setCursorName name len).
Proof.
  unfold setCursorName. apply kept_bind; [keep|intros _]. destruct (_ =? _); [keep|]. destruct (_ && _); [keep|].
  apply kept_bind; [keep|intros text]. case_bool_decide; [keep|]. apply kept_accept. intros s []. by constructor.
Qed.

Lemma kept_copy_text text target size : keeps True inv (copy_text text target size).
Proof. unfold copy_text. keep. Qed.

#[export] Hint Resolve kept_copy_text : keeps.

Lemma kept_copyString text target size len : keeps True inv (copyString text target size len).
Proof. unfold copyString. keep. Qed.

#[export] Hint Resolve kept_copyString : keeps.

(** *** The other calls *)

Lemma kept_close_cursor : keeps True inv closeCursor.
Proof. unfold closeCursor. keep. Qed.

#[export] Hint Resolve kept_close_cursor : keeps.

Lemma kept_call order positions bulk attributes clock fuel c : keeps True inv (perform order positions bulk attributes clock fuel c).
Proof.
  destruct c; cbn [perform]; eauto using kept_prepare, kept_exec_direct, kept_execute, kept_bulk, kept_param_data, kept_put_data with keeps.
  - unfold freeStmt. keep.
  - unfold bindParameter. keep.
  - unfold bindCol. keep.
  - unfold rowCount. keep.
  - unfold numResultCols. keep.
  - unfold numParams. keep.
  - unfold cancel. keep.
  - apply kept_set_attribute.
  - unfold getAttribute, report_descriptor, report. keep.
  - unfold describeParam. keep.
  - unfold describeCol. keep.
  - unfold colAttribute. keep.
  - apply kept_set_name.
  - unfold getCursorName. keep.
  - apply kept_alloc.
  - apply kept_free.
  - apply kept_with. keep.
  - apply kept_with. keep.
  - apply kept_with. keep.
  - apply kept_with. keep.
  - apply kept_bind; [apply kept_catalog|intros; keep].
Qed.

Lemma kept_calls order positions bulk attributes clock fuel calls : keeps True inv (perform_all order positions bulk attributes clock fuel calls).
Proof. induction calls as [|c calls IH]; cbn [perform_all]; [keep|]. apply kept_bind; [apply kept_call|by intros]. Qed.

Lemma new_statement_ok : cursor_ok new_statement.
Proof.
  constructor; cbn; auto; try (by apply (bool_decide_unpack _)).
  intros handle Hh. rewrite !lookup_insert_is_Some'. unfold owned_imp_param_desc_, owned_app_row_desc_, owned_ird_desc_. lia.
Qed.

(** ** The theorem *)

(** C8: Whatever calls are made on a new statement, and whatever the server and the
    memory of the application hold, the state that they leave is consistent: the
    cursor is before the first row or on a row, each open stream of
    [SQLGetData] is within its value, the current result is one of the batch, the
    parameter that is awaited is one of the pending, and there are results
    exactly when there are columns. The type of the cursor and the concurrency are
    known ones, the cursor has a name, the four descriptors of the statement exist
    with their types, and no other descriptor takes the place of one that is not
    for the parameters of the application. *)
Theorem statement_consistent order positions bulk attributes clock fuel calls connection memory w :
  perform_all order positions bulk attributes clock fuel calls (mkWorld new_statement connection memory) = Returns tt w →
  cursor_ok (stmt w).
Proof.
  intros H. pose proof (kept_calls order positions bulk attributes clock fuel calls (mkWorld new_statement connection memory) new_statement_ok) as Hk.
  unfold post in Hk. by rewrite H in Hk.
Qed.

(** A cursor that can be positioned, a descriptor of the application for the
    parameters; the cursor moves to the second of two rows, which is deleted. *)
Lemma statement_consistent_witness :
  let column := mkColumn "a" "TEXT" SQL_VARCHAR 0 SQL_NULLABLE in
  let codes := mkAttributeCodes [0; 1] [0; 1; 2] 3 in
  let calls := [AllocDescriptor 99; SetAttribute SQL_ATTR_APP_PARAM_DESC 99; SetAttribute SQL_ATTR_CURSOR_TYPE SQL_CURSOR_STATIC;
    SetAttribute SQL_ATTR_CONCURRENCY SQL_CONCUR_LOCK; BindParameter 1 (mkParameter 1 SQL_C_CHAR SQL_VARCHAR 0 0 0 0 0);
    Catalog [column] [["x" : bytes]; ["y" : bytes]]; Fetch; Fetch; GetData 1 SQL_C_CHAR 16 2 0; SetPos 2 3 0] in
  match perform_all map_to_list (mkPositionCodes 0 0 1 2 3 [0; 1; 2]) (mkBulkCodes [] None) codes (λ _, 0) 1 calls
          (mkWorld new_statement new_connection [mkBlock 16 ["?"%byte; "?"%byte]]) with
  | Returns _ w => cursor_ok (stmt w) ∧ current_row_ (stmt w) = 1%nat ∧ rows_ (stmt w) = [["x" : bytes]] ∧
      mem w = [mkBlock 16 ["y"%byte; Byte.x00]] ∧ app_param_desc_ (stmt w) = 99
  | _ => False
  end.
Proof.
  intros column codes calls. pose proof (statement_consistent map_to_list (mkPositionCodes 0 0 1 2 3 [0; 1; 2]) (mkBulkCodes [] None)
    codes (λ _, 0) 1 calls new_connection [mkBlock 16 ["?"%byte; "?"%byte]]) as H.
  destruct (perform_all _ _ _ _ _ _ _ _) as [[] w| | |] eqn:E; try (vm_compute in E; discriminate E).
  split; [by apply H|]. vm_compute in E. injection E as <-. by split_and!.
Defined.
