(* ===== verification/OdbcResults.v ===== *)
(** * ODBC driver: from the server to the results of a statement

    A batch given to [SQLExecDirect] is split, each statement is a request of the
    network client behind the circuit breaker, and its rows become text: against
    a server that answers each request, the results of the batch are those of
    the replies. *)

From S2P Require Import Prelude.
From S2P Require Import Text.
From S2P Require Import Sqlstate.
From S2P Require Import ErrorContext.
From S2P Require Import Wire.
From S2P Require Import WireParse.
From S2P Require Import Values.
From S2P Require Import CircuitBreaker.
From S2P Require Import Transport.
From S2P Require Import WireServer.
From S2P Require Import NetworkClient.
From S2P Require Import NetworkClientSpec.
From S2P Require Import OdbcText.
From S2P Require Import OdbcTypes.
From S2P Require Import OdbcRun.
From S2P Require Import OdbcConnection.
From S2P Require Import OdbcStatement.

(** ** One request *)

(** What the driver makes of a reply, [None] when the text of a value is
    undefined behaviour. *)
Definition delivered (x : exchange) : option Results :=
  let results := reply_results (x_reply x) no_results in
  match mapM (stringify_row (columns results)) (rows results) with
  | Ret texts => Some (mkResultsOf (mapColumn <$> columns results) texts (rows_affected results))
  | UB => None
  end.

(** A connection on which requests are admitted. *)
Definition ready_connection (c : OdbcConnection) : Prop :=
  wf_session (client_ (client_bridge_ c)) ∧ CircuitBreaker.state_ (circuit_breaker_ c) = SB_CIRCUIT_CLOSED.

Definition server_sends (c : OdbcConnection) (s : bytes) : Prop := stream (incoming (wire (client_ (client_bridge_ c)))) s.

Lemma allow_closed clock c : CircuitBreaker.state_ (circuit_breaker_ c) = SB_CIRCUIT_CLOSED →
  allowRequest clock c = Returns true (c <| clock_reads := S (clock_reads c) |>).
Proof.
  intros Hb. unfold allowRequest. rewrite (run_bind _ _ _ (clock (clock_reads c)) (c <| clock_reads := S (clock_reads c) |>)) by done.
  rewrite (run_bind _ _ _ (c <| clock_reads := S (clock_reads c) |>) (c <| clock_reads := S (clock_reads c) |>)) by done.
  change (circuit_breaker_ (c <| clock_reads := S (clock_reads c) |>)) with (circuit_breaker_ c).
  unfold AllowRequest. rewrite Hb. by destruct c.
Qed.

(** The bridge after a request that succeeded. *)
Definition after_request (client' : NetworkClient) (c : OdbcConnection) : OdbcConnection :=
  c <| client_bridge_ := mkBridge client' OK [] |>.

Lemma bridge_reply fuel x r c rest :
  wf_session (client_ (client_bridge_ c)) → wf_exchange fuel x → delivered x = Some r → server_sends c (encode_exchange x ++ rest) →
  ∃ client', wf_session client' ∧ stream (incoming (wire client')) rest ∧
    bridge_executeSQL fuel (x_sql x) c = Returns (SQL_SUCCESS, r) (after_request client' c).
Proof.
  intros Hc (Hlen & Hms & Hr & Hfuel) Hd Hs. unfold server_sends, encode_exchange in Hs. rewrite <-!app_assoc in Hs.
  destruct (execute_query_done fuel (x_sql x) (x_reply x) (x_ready x) (client_ (client_bridge_ c)) (Some fresh_context) rest
    Hc Hlen Hms Hr Hfuel Hs) as (inc & Hrest & E).
  set (client' := after_reply _ _ _ _ _) in E. exists client'. split_and!; [by apply after_reply_wf, sent_wf|done|].
  unfold bridge_executeSQL. set (results := reply_results (x_reply x) no_results) in *.
  rewrite (run_bind _ _ _ ((OK, results), Some fresh_context) (c <| client_bridge_ := client_bridge_ c <| client_ := client' |> |>))
    by (unfold with_client; by rewrite E).
  cbv beta iota. rewrite bool_decide_eq_false_2 by (by intros []).
  rewrite (run_bind _ _ _ tt (after_request client' c)) by done.
  unfold delivered in Hd. fold results in Hd. destruct (mapM _ _) as [texts|]; [|done]. by injection Hd as <-.
Qed.

Lemma executeSQL_reply clock fuel x r c rest :
  ready_connection c → wf_exchange fuel x → delivered x = Some r → server_sends c (encode_exchange x ++ rest) →
  ∃ c', ready_connection c' ∧ server_sends c' rest ∧ executeSQL clock fuel (x_sql x) c = Returns (SQL_SUCCESS, r) c'.
Proof.
  intros [Hc Hb] Hx Hd Hs. set (c1 := c <| clock_reads := S (clock_reads c) |>).
  destruct (bridge_reply fuel x r c1 rest Hc Hx Hd Hs) as (client' & Hc' & Hrest & E).
  exists (after_request client' c1 <| circuit_breaker_ := set_failures 0 (circuit_breaker_ c) |>). split_and!; [by split|done|].
  unfold executeSQL. rewrite (run_bind _ _ _ _ _ (allow_closed clock c Hb)). cbn [negb].
  rewrite (run_bind _ _ _ _ _ E). cbn. unfold recordSuccess, update, mbind, prog_bind, RecordSuccess. cbn. by rewrite Hb.
Qed.

(** ** A batch *)

(** The rows of a reply are counted, if it has columns. *)
Definition result_set (r : Results) : ResultSet :=
  mkResultSet (r_columns r) (r_rows r) (if bool_decide (r_columns r = []) then r_affected r else blen (r_rows r)).

Lemma run_statements_replies clock fuel xs : ∀ rs w rest,
  ready_connection (conn w) → Forall (wf_exchange fuel) xs → mapM delivered xs = Some rs →
  server_sends (conn w) (concat (encode_exchange <$> xs) ++ rest) →
  ∃ c, ready_connection c ∧ server_sends c rest ∧
    run_statements clock fuel SQL_SUCCESS (x_sql <$> xs) w =
      Returns (SQL_SUCCESS, true)
        (w <| conn := c |> <| stmt := stmt w <| result_sets_ := result_sets_ (stmt w) ++ (result_set <$> rs) |> |>).
Proof.
  induction xs as [|x xs IH]; intros rs w rest Hc Hx Hd Hs.
  { injection Hd as <-. exists (conn w). split_and!; [done|done|]. cbn. rewrite app_nil_r. by destruct w as [[] ? ?]. }
  apply Forall_cons in Hx as [Hx Hxs]. cbn in Hd. destruct (delivered x) as [r|] eqn:Er; [|done]. cbn in Hd.
  destruct (mapM delivered xs) as [rs'|] eqn:Ers; [|done]. injection Hd as <-.
  rewrite fmap_cons, concat_cons, <-app_assoc in Hs.
  destruct (executeSQL_reply clock fuel x r (conn w) _ Hc Hx Er Hs) as (c1 & Hc1 & Hs1 & E1).
  set (w1 := w <| conn := c1 |> <| stmt := stmt w <| result_sets_ := result_sets_ (stmt w) ++ [result_set r] |> |>).
  destruct (IH rs' w1 rest Hc1 Hxs eq_refl Hs1) as (c & Hc' & Hrest & E).
  exists c. split_and!; [done|done|]. rewrite fmap_cons. cbn [run_statements].
  rewrite (run_bind _ _ _ (SQL_SUCCESS, r) (w <| conn := c1 |>)) by (unfold on_connection, zoom; by rewrite E1).
  cbv beta iota. cbn [succeeded Z.eqb negb orb]. change (negb (succeeded SQL_SUCCESS)) with false. cbv iota.
  etrans; [exact E|]. unfold w1. cbn. by rewrite <-app_assoc.
Qed.

(** ** The results, one after the other *)

Definition current_set (s : OdbcStatement) : ResultSet := mkResultSet (columns_ s) (rows_ s) (row_count_ s).

(** An application that reads each result and asks for the next. *)
Fixpoint consume (n : nat) : Stmt (list ResultSet) :=
  match n with
  | O => λ _, OdbcRun.NoFuel
  | S n =>
      current ← field current_set;
      rc ← moreResults;
      if rc =? SQL_SUCCESS then rest ← consume n; mret (current :: rest) else mret [current]
  end.

(** The next result is made the current one. *)
Lemma more_results_next pre rs post w :
  result_sets_ (stmt w) = pre ++ rs :: post → S (current_result_index_ (stmt w)) = length pre →
  ∃ s, moreResults w = Returns SQL_SUCCESS (w <| stmt := s |>) ∧ current_set s = rs ∧
    result_sets_ s = (pre ++ [mkResultSet [] [] (rs_row_count rs)]) ++ post ∧ current_result_index_ s = length pre.
Proof.
  intros Hs Hi. destruct w as [s c m]. destruct s. cbn in Hs, Hi. subst. destruct rs as [cols rows count]. eexists. split.
  - unfold moreResults, clearDiagnostics, change, field, mbind, prog_bind. cbn.
    rewrite bool_decide_eq_false_2 by (by destruct pre). rewrite Hi, length_app. cbn.
    replace (length pre + S (length post) <=? length pre)%nat with false by (symmetry; apply Nat.leb_gt; lia). cbn.
    unfold applyResultSet, field, mbind, prog_bind. cbn. rewrite (list_lookup_middle pre post _ (length pre) eq_refl). cbn.
    unfold change. cbn. reflexivity.
  - cbn. rewrite insert_app_r_alt, Nat.sub_diag by lia. cbn. by rewrite <-app_assoc.
Qed.

Lemma more_results_end w :
  (length (result_sets_ (stmt w)) <= S (current_result_index_ (stmt w)))%nat →
  moreResults w = Returns SQL_NO_DATA (w <| stmt := stmt w <| OdbcStatement.diagnostics_ := [] |> |>).
Proof.
  intros Hl. unfold moreResults, clearDiagnostics, change, field, mbind, prog_bind. cbn. case_bool_decide; [done|].
  by replace (_ <=? _)%nat with true by (symmetry; by apply Nat.leb_le).
Qed.

Lemma consume_rest post : ∀ pre w,
  result_sets_ (stmt w) = pre ++ post → S (current_result_index_ (stmt w)) = length pre →
  ∃ s, consume (S (length post)) w = Returns (current_set (stmt w) :: post) (w <| stmt := s |>).
Proof.
  induction post as [|rs post IH]; intros pre w Hs Hi; cbn [consume length].
  - rewrite app_nil_r in Hs. eexists. rewrite (run_bind _ _ _ (current_set (stmt w)) w) by done.
    rewrite (run_bind _ _ _ _ _ (more_results_end w ltac:(rewrite Hs; lia))). reflexivity.
  - destruct (more_results_next pre rs post w Hs Hi) as (s & E & Hc & Hs' & Hi').
    set (w1 := w <| stmt := s |>) in *. destruct (IH (pre ++ [mkResultSet [] [] (rs_row_count rs)]) w1 Hs') as (s' & E').
    { unfold w1. cbn. rewrite Hi', length_app. cbn. lia. }
    exists s'. rewrite (run_bind _ _ _ (current_set (stmt w)) w) by done. rewrite (run_bind _ _ _ _ _ E).
    cbn [Z.eqb]. change (SQL_SUCCESS =? SQL_SUCCESS) with true. cbv iota.
    change (S (length post)) with (S (length post)) in E'. rewrite (run_bind _ _ _ _ _ E'). cbn. by rewrite Hc.
Qed.

(** ** Theorem *)

Lemma argument_loaded addr sql w : sql ≠ [] → read_bytes (mem w) addr (blen sql) = Some sql →
  argument_text addr (blen sql) w = Returns sql w.
Proof.
  intros Hne Hm. assert (0 < blen sql) by (destruct sql; [done|cbn; lia]). unfold argument_text, load, SQL_NTS.
  repeat guard_false. by rewrite Hm.
Qed.

(** The statement stands at the first of these results. *)
Definition at_first (rs : list ResultSet) (s : OdbcStatement) : Prop :=
  ∃ r rest, rs = r :: rest ∧ current_set s = r ∧ result_sets_ s = mkResultSet [] [] (rs_row_count r) :: rest ∧
    current_result_index_ s = O.

Lemma consume_all rs w : at_first rs (stmt w) → ∃ s, consume (length rs) w = Returns rs (w <| stmt := s |>).
Proof. intros (r & rest & -> & <- & Hs & Hi). apply (consume_rest rest [_] w Hs). by rewrite Hi. Qed.

Lemma execute_statements_replies clock fuel sql xs rs w rest :
  ready_connection (conn w) → splitSqlStatements sql = x_sql <$> xs → xs ≠ [] →
  Forall (wf_exchange fuel) xs → mapM delivered xs = Some rs →
  server_sends (conn w) (concat (encode_exchange <$> xs) ++ rest) →
  ∃ w', executeSqlStatements clock fuel sql w = Returns SQL_SUCCESS w' ∧
    ready_connection (conn w') ∧ server_sends (conn w') rest ∧ mem w' = mem w ∧ at_first (result_set <$> rs) (stmt w').
Proof.
  intros Hc Hsplit Hxs Hx Hd Hs. set (w1 := w <| stmt := no_rows (stmt w) |>).
  destruct (run_statements_replies clock fuel xs rs w1 rest Hc Hx Hd Hs) as (c & Hc' & Hrest & E).
  destruct rs as [|r rs]; [by destruct xs; [|apply mapM_Some_1, Forall2_length in Hd]|].
  unfold executeSqlStatements. rewrite Hsplit. rewrite (run_bind _ _ _ tt w1) by done. cbv zeta.
  rewrite bool_decide_eq_false_2 by (by destruct xs). rewrite (run_bind _ _ _ _ _ E). cbv beta iota. cbn [negb].
  eexists. split; [reflexivity|]. split_and!; [done|done|done|]. by eexists _, _.
Qed.

(** Only what describes the parameters and the preparation changes. *)
Lemma at_first_same rs s s' :
  current_set s' = current_set s → result_sets_ s' = result_sets_ s → current_result_index_ s' = current_result_index_ s →
  at_first rs s → at_first rs s'.
Proof. intros H1 H2 H3 (r & rest & E & Hc & Hs & Hi). exists r, rest. split_and!; congruence. Qed.

(** C5: A batch given to [SQLExecDirect] on a connection whose server answers each
    statement: the call succeeds, and the application that takes result after
    result gets those of the replies, each with its columns, the texts of its
    rows and its count, in order, and no more; the connection is left ready,
    at the first byte after the replies. *)
Theorem batch_end_to_end clock fuel addr sql xs rs w rest :
  addr ≠ 0 → sql ≠ [] → read_bytes (mem w) addr (blen sql) = Some sql →
  ready_connection (conn w) → splitSqlStatements sql = x_sql <$> xs → xs ≠ [] →
  Forall (wf_exchange fuel) xs → mapM delivered xs = Some rs →
  server_sends (conn w) (concat (encode_exchange <$> xs) ++ rest) →
  ∃ w', execDirect clock fuel addr (blen sql) w = Returns SQL_SUCCESS w' ∧
    ready_connection (conn w') ∧ server_sends (conn w') rest ∧ mem w' = mem w ∧
    ∃ s, consume (length xs) w' = Returns (result_set <$> rs) (w' <| stmt := s |>).
Proof.
  intros Ha Hne Hm Hc Hsplit Hxs Hx Hd Hs.
  set (w0 := w <| stmt := stmt w <| OdbcStatement.diagnostics_ := [] |> |>).
  set (w1 := w0 <| stmt := stmt w0 <| sql_ := sql |> |>).
  assert (Ht : take_sql addr (blen sql) w0 = Returns tt w1).
  { unfold take_sql. by rewrite (run_bind _ _ _ _ _ (argument_loaded addr sql w0 Hne Hm)). }
  destruct (execute_statements_replies clock fuel sql xs rs w1 rest Hc Hsplit Hxs Hx Hd Hs) as (w2 & E & Hc' & Hrest & Hm' & Hf).
  assert (Hl : length xs = length (result_set <$> rs)) by (rewrite length_fmap; by apply mapM_Some_1, Forall2_length in Hd).
  eexists. split.
  - unfold execDirect. rewrite (run_bind _ _ _ tt w0) by done. guard_false.
    rewrite (run_bind _ _ _ _ _ Ht), (run_bind _ _ _ sql w1) by done. rewrite (run_bind _ _ _ _ _ E). reflexivity.
  - split_and!; [done|done|done|]. rewrite Hl. apply consume_all. by apply (at_first_same _ (stmt w2)).
Qed.

(** ** Prepared statements *)

(** A parameter in memory, without an indicator, gives this literal in this row
    of an array. *)
Definition gives_literal (row : Z) (m : memory) (s : OdbcStatement) (i : Z) (l : ParameterLiteral) : Prop :=
  ∃ b, param_bindings_ s !! i = Some b ∧ p_str_len_or_ind b = 0 ∧ parameter_value b ≠ 0 ∧
    ∀ w, mem w = m →
      memory_parameter b None (parameter_value b + u64 (rowBaseOffset s + row * rowStride s b)) w = Returns ([l], false) w.

Lemma no_indicator b row w : p_str_len_or_ind b = 0 → load_indicator b row w = Returns None w.
Proof. intros Hb. unfold load_indicator, indicatorForRow. rewrite Hb. done. Qed.

Lemma note_streams_none bindings row w :
  Forall (λ '(_, b), p_str_len_or_ind b = 0) bindings → note_streams row bindings w = Returns [] w.
Proof.
  induction 1 as [|[number b] bindings Hb _ IH]; [done|]. cbn [note_streams].
  rewrite (run_bind _ _ _ false w) by (unfold note_stream; by rewrite (run_bind _ _ _ _ _ (no_indicator b row w Hb))).
  by rewrite (run_bind _ _ _ _ _ IH).
Qed.

(** The state of the streams of parameters, which have none. *)
Definition no_streams (row : Z) (s : OdbcStatement) : OdbcStatement :=
  s <| data_at_exec_active_ := false |> <| data_at_exec_params_ := [] |> <| data_at_exec_index_ := O |>
    <| data_at_exec_row_offset_ := row |>.

Lemma validate_none row w :
  prepared_ (stmt w) = true → data_at_exec_active_ (stmt w) = false →
  map_Forall (λ _ b, p_str_len_or_ind b = 0) (param_bindings_ (stmt w)) →
  validateOrInitDataAtExecStateForRow row w = Returns SQL_SUCCESS (w <| stmt := no_streams row (stmt w) |>).
Proof.
  intros Hp Ha Hi. unfold validateOrInitDataAtExecStateForRow. rewrite (run_bind _ _ _ (stmt w) w) by done. rewrite Hp, Ha.
  cbn [negb andb]. set (w1 := w <| stmt := no_streams row (stmt w) |>). rewrite (run_bind _ _ _ tt w1) by done.
  assert (Hf : Forall (λ '(_, b), p_str_len_or_ind b = 0) (map_to_list (param_bindings_ (stmt w)))).
  { apply Forall_forall. intros [i b] Hin%elem_of_map_to_list. by apply (Hi i). }
  by rewrite (run_bind _ _ _ _ _ (note_streams_none _ row w1 Hf)).
Qed.

Lemma parameters_given row (numbers : list Z) (ls : list ParameterLiteral) : ∀ w acc,
  Forall2 (gives_literal row (mem w) (stmt w)) numbers ls →
  parameters_loop numbers row acc false w = Returns (SQL_SUCCESS, acc ++ ls) w.
Proof.
  revert ls. induction numbers as [|i numbers IH]; intros ls w acc H; inversion H as [|? l ? ls' (b & Hb & Hi & Hv & Hl) Hr]; subst; cbn [parameters_loop].
  { by rewrite app_nil_r. }
  rewrite (run_bind _ _ _ (inl ([l], false)) w).
  - cbv beta iota. cbn [orb]. rewrite (IH ls') by done. by rewrite <-app_assoc.
  - unfold parameter_literals. rewrite (run_bind _ _ _ (stmt w) w) by done. cbn [id]. rewrite Hb.
    rewrite (run_bind _ _ _ _ _ (no_indicator b row w Hi)). cbn [from_option]. rewrite bool_decide_eq_false_2 by done.
    cbn [orb]. guard_false. cbv zeta. by rewrite (run_bind _ _ _ _ _ (Hl w eq_refl)).
Qed.

(** All parameters of a row. *)
Definition gives_literals (row : Z) (m : memory) (s : OdbcStatement) (ls : list ParameterLiteral) : Prop :=
  Forall2 (gives_literal row m s) (Z.of_nat <$> seq 1 (size (param_bindings_ s))) ls.

Lemma build_given row ls w :
  Z.of_nat (size (param_bindings_ (stmt w))) < 65535 → gives_literals row (mem w) (stmt w) ls →
  buildParameterData row w = Returns (SQL_SUCCESS, ls) w.
Proof.
  intros Hsize Hls. unfold buildParameterData. rewrite (run_bind _ _ _ (param_bindings_ (stmt w)) w) by done.
  guard_false. by apply (parameters_given row _ ls w []).
Qed.

Lemma built sql id ls w :
  prepared_sql_ (conn w) !! id = Some sql → on_connection (buildPreparedSQL id ls) w = Returns (Some (prepared_text sql ls)) w.
Proof.
  intros H. unfold on_connection, zoom, buildPreparedSQL.
  rewrite (run_bind _ _ _ (conn w) (conn w)) by done. rewrite H. by destruct w.
Qed.


(** *** At a concrete batch *)

Definition sample_world (s : OdbcStatement) (stream_bytes : bytes) (m : memory) : world :=
  mkWorld s (new_connection <| client_bridge_ := mkBridge (sample_session stream_bytes) OK [] |> <| connected_ := true |>
               <| prepared_sql_ := {[ 1 := "SELECT ?; SELECT 2" : bytes ]} |>) m.

Definition sample_set : ResultSet :=
  mkResultSet [mapColumn (network_column sample_column)] [["0" : bytes]; [[] : bytes]] 2.

Lemma batch_end_to_end_witness :
  let sql := "SELECT 1; SELECT 2" : bytes in
  let xs := [sample_exchange "SELECT 1"; sample_exchange "SELECT 2"] in
  let bs := concat (encode_exchange <$> xs) ++ "next" in
  ∃ w', execDirect (λ _, 0) 10 16 18 (sample_world new_statement bs [mkBlock 16 sql]) = Returns SQL_SUCCESS w' ∧
    server_sends (conn w') "next" ∧ ∃ s, consume 2 w' = Returns [sample_set; sample_set] (w' <| stmt := s |>).
Proof.
  intros sql xs bs. assert (Hlen : (50 < length bs)%nat) by by_evaluation.
  assert (Hx : Forall (wf_exchange 10) xs) by (unfold wf_exchange; by_evaluation).
  destruct (batch_end_to_end (λ _, 0) 10 16 sql xs (default [] (mapM delivered xs)) (sample_world new_statement bs [mkBlock 16 sql]) "next")
    as (w' & E & _ & Hs & _ & Hc).
  - done.
  - done.
  - reflexivity.
  - split; [repeat split; done|done].
  - vm_compute. reflexivity.
  - done.
  - exact Hx.
  - vm_compute. reflexivity.
  - exact (sample_stream bs Hlen).
  - exists w'. split; [exact E|]. split; [exact Hs|exact Hc].
Defined.

(** A parameter of four bytes, at address 64. *)
Definition sample_binding : ParameterBinding := mkParameter SQL_PARAM_INPUT SQL_C_SLONG SQL_INTEGER 0 0 64 4 0.

