(* ===== verification/OdbcBuffers.v ===== *)
(** * ODBC driver: values stay in the buffers of the application

    [SQLGetData] and the bound columns of [SQLFetch] write a target and an
    indicator. On results whose rows have a value for each column nothing is read
    or written outside of what the application gave: no behaviour is undefined,
    and the rest of the memory is as it was. *)

From S2P Require Import Prelude.
From S2P Require Import OdbcDates.
From S2P Require Import OdbcNumbers.
From S2P Require Import OdbcTypes.
From S2P Require Import OdbcRun.
From S2P Require Import OdbcConnection.
From S2P Require Import OdbcStatement.
From S2P Require Import OdbcCursor.

(** ** Regions *)

Definition region : Type := Z * Z.

Definition outside (a n : Z) (r : region) : Prop := a + n <= r.1 ∨ r.1 + r.2 <= a.

(** From one memory to another only these regions changed, and what could be
    read still can. *)
Record within (R : list region) (m m' : memory) : Prop := {
  elsewhere : ∀ a n, 0 <= n → Forall (outside a n) R → read_bytes m' a n = read_bytes m a n;
  still_readable : ∀ a n, is_Some (read_bytes m a n) → is_Some (read_bytes m' a n)
}.

Lemma within_refl R m : within R m m.
Proof. by constructor. Qed.

Lemma within_trans R m m' m'' : within R m m' → within R m' m'' → within R m m''.
Proof. intros [E1 S1] [E2 S2]. constructor; [|auto]. intros a n Hn Hr. by rewrite E2, E1. Qed.

Lemma within_more R R' m m' : R ⊆ R' → within R m m' → within R' m m'.
Proof. intros HR [E S]. constructor; [|done]. intros a n Hn Hr. apply E; [done|]. rewrite Forall_forall in *. auto. Qed.

(** A pointer that is null or refers to [n] bytes. *)
Definition usable (m : memory) (pointer n : Z) : Prop := pointer = 0 ∨ is_Some (read_bytes m pointer n).

#[export] Instance usable_dec m pointer n : Decision (usable m pointer n).
Proof. unfold usable. apply _. Defined.

Lemma usable_within R m m' pointer n : within R m m' → usable m pointer n → usable m' pointer n.
Proof. intros [_ S] [H|H]; [by left|right; auto]. Qed.

(** The result that is read. *)
Definition result_of (s : OdbcStatement) : list (list bytes) * list ColumnMetadata * Z := (rows_ s, columns_ s, row_bind_offset_ s).

(** What a computation does to the memory [m0] stays in [R], and it leaves the
    result. *)
Definition in_regions (R : list region) (m0 : memory) (s0 : OdbcStatement) (w : world) : Prop :=
  within R m0 (mem w) ∧ result_of (stmt w) = result_of s0.

Notation contained R m0 s0 := (keeps False (in_regions R m0 s0)).

(** ** Steps *)

Section steps.
Context (R : list region) (m0 : memory) (s0 : OdbcStatement).

Lemma contained_change f : (∀ s, result_of (f s) = result_of s) → contained R m0 s0 (change f).
Proof. intros Hf w [Hm Hs]. split; [done|]. cbn. by rewrite Hf. Qed.

Lemma contained_field {A} (f : OdbcStatement → A) : contained R m0 s0 (field f).
Proof. by intros w Hw. Qed.

Lemma contained_store addr data n : blen data <= n → is_Some (read_bytes m0 addr n) → (addr, n) ∈ R → contained R m0 s0 (store addr data).
Proof.
  intros Hn Hr Hin w Hw. unfold post, store. case_bool_decide; [done|].
  destruct Hw as [Hw Hs]. pose proof (still_readable _ _ _ Hw _ _ Hr) as Hr'. apply (read_succeeds _ _ _ (blen data)) in Hr'; [|lia].
  destruct Hr' as [d Hd]. destruct (write_succeeds _ _ _ _ Hd) as [m1 Hm1]. rewrite Hm1. split; [|done]. cbn.
  eapply within_trans; [exact Hw|]. constructor.
  - intros a k Hk Ho. apply (read_frame _ _ _ _ _ _ Hm1 Hk). rewrite Forall_forall in Ho. specialize (Ho _ Hin). unfold outside in Ho. cbn in Ho. lia.
  - intros a k. by apply (write_keeps_readable _ _ _ _ _ _ Hm1).
Qed.

Lemma contained_store_to pointer n z k :
  Z.of_nat n <= k → usable m0 pointer k → (pointer, k) ∈ R → contained R m0 s0 (store_to pointer n z).
Proof.
  intros Hk [->|Hu] Hin; [by intros w Hw|]. unfold store_to. destruct (pointer =? 0); [by intros w Hw|].
  apply (contained_store _ _ k); [by rewrite length_le_bytes|done|done].
Qed.

End steps.

#[export] Hint Resolve contained_field : keeps.
#[export] Hint Extern 1 (contained _ _ _ (change _)) => apply contained_change; intros; reflexivity : keeps.

Lemma contained_refuse R m0 s0 sqlstate text : contained R m0 s0 (refuse sqlstate text).
Proof. unfold refuse, setError. keep. Qed.

Lemma contained_truncation R m0 s0 : contained R m0 s0 truncation.
Proof. unfold truncation, setError. keep. Qed.

Lemma contained_clear R m0 s0 : contained R m0 s0 clearDiagnostics.
Proof. unfold clearDiagnostics. keep. Qed.

#[export] Hint Resolve contained_refuse contained_truncation contained_clear : keeps.

(** ** Values *)

(** The bytes that a target of a type is to have. *)
Definition capacity (type size : Z) : Z :=
  if bool_decide (type ∈ [SQL_C_CHAR; SQL_C_DEFAULT; SQL_C_BINARY]) then Z.max size 0
  else if bool_decide (type ∈ [SQL_C_SBIGINT; SQL_C_DOUBLE]) then 8
  else if bool_decide (type ∈ [SQL_C_LONG; SQL_C_SLONG; SQL_C_FLOAT]) then 4
  else if bool_decide (type ∈ [SQL_C_SHORT; SQL_C_SSHORT]) then 2
  else if bool_decide (type ∈ [SQL_C_DATE; SQL_C_TIME]) then 6
  else if bool_decide (type ∈ [SQL_C_TIMESTAMP; SQL_C_GUID]) then 16
  else if type =? SQL_C_BIT then 1 else 0.

Section value.
Context (R : list region) (m0 : memory) (s0 : OdbcStatement) (target n ind : Z).
Context (Htarget : usable m0 target n) (Hind : usable m0 ind 8) (Ht : (target, n) ∈ R) (Hi : (ind, 8) ∈ R).

Lemma contained_ind z : contained R m0 s0 (store_to ind 8 z).
Proof. by apply (contained_store_to _ _ _ _ _ _ 8). Qed.

Hint Resolve contained_ind : keeps.

(** A store that the null pointer skips. *)
Lemma contained_target data : blen data <= n → contained R m0 s0 (if target =? 0 then mret tt else store target data).
Proof.
  intros Hn. destruct (Z.eqb_spec target 0); [keep|]. destruct Htarget as [|Hr]; [done|]. by apply (contained_store _ _ _ _ _ n).
Qed.

Lemma contained_stream column initial is_text size chunks : Z.max size 0 <= n →
  contained R m0 s0 (streamChunk column initial is_text target size chunks).
Proof.
  intros Hn. unfold streamChunk. apply kept_bind; [keep|intros streams]. cbv zeta. destruct (_ <=? _)%nat; [keep|].
  destruct (size <=? 0) eqn:Hs; [keep|]. apply kept_bind; [|intros _; keep]. apply contained_target.
  destruct is_text; [rewrite length_app|]; rewrite length_take, length_drop; cbn; lia.
Qed.

Lemma contained_fixed data k : (∀ d, data = Some d → blen d <= n) → contained R m0 s0 (store_fixed target ind data k).
Proof.
  intros Hn. unfold store_fixed. apply kept_bind; [|intros _; keep].
  destruct data as [d|]; [|destruct (target =? 0); [keep|by intros w Hw]].
  pose proof (contained_target d (Hn d eq_refl)) as Hc. by destruct (target =? 0).
Qed.

Lemma contained_parsed data sqlstate text : (∀ d, data = Some d → blen d <= n) →
  contained R m0 s0 (store_parsed target ind data sqlstate text).
Proof.
  intros Hn. unfold store_parsed. destruct (Z.eqb_spec target 0) as [|Hz]; [keep|]. destruct data as [d|]; [|keep].
  apply kept_bind; [|intros _; keep]. pose proof (contained_target d (Hn d eq_refl)) as Hc. by destruct (Z.eqb_spec target 0).
Qed.
End value.

Lemma length_pair_bytes k nibbles : length nibbles = (2 * k)%nat → length (pair_bytes nibbles) = k.
Proof.
  revert nibbles. induction k as [|k IH]; intros [|hi [|lo nibbles]] H; cbn in *; try lia. f_equal. apply IH. cbn. lia.
Qed.

Lemma length_guid value g : parseGuidString value = Some g → length (guid_bytes g) = 16%nat.
Proof.
  unfold parseGuidString. case_bool_decide as Hl; [|done]. cbn [negb]. intros [= <-]. unfold guid_bytes. cbn [Data1 Data2 Data3 Data4].
  rewrite !length_app, !length_le_bytes, length_drop, (length_pair_bytes 16) by done. done.
Qed.

(** A structure of a fixed number of bytes. *)
Lemma fmap_length {A} (f : A → bytes) (o : option A) (k n : Z) :
  (∀ a, o = Some a → blen (f a) = k) → k = n → ∀ d, f <$> o = Some d → blen d <= n.
Proof. intros Hf <- d. destruct o as [a|]; [|done]. intros [= <-]. by rewrite Hf. Qed.

(** One of the types of a case. *)
Ltac one_of H := repeat (apply elem_of_cons in H as [H|H]); [..|by apply elem_of_nil in H]; subst.

Lemma contained_convert R m0 s0 column type value is_binary target size ind chunks :
  usable m0 target (capacity type size) → usable m0 ind 8 → (target, capacity type size) ∈ R → (ind, 8) ∈ R →
  contained R m0 s0 (convert column type value is_binary target size ind chunks).
Proof.
  intros Htarget Hind Ht Hi. unfold convert. pose proof (contained_ind R m0 s0 ind Hind Hi) as Hii.
  assert (Hs : ∀ initial is_text, Z.max size 0 <= capacity type size → contained R m0 s0
    ('(result, total_length) ← streamChunk column initial is_text target size chunks; _ ← store_to ind 8 total_length; mret result)).
  { intros initial is_text Hc. apply kept_bind; [by apply (contained_stream _ _ _ _ _ Htarget Ht)|]. intros [result total]. keep. }
  assert (Hf : ∀ (f : Z → bytes) o (k : Z), (∀ a, o = Some a → blen (f a) = k) → k = capacity type size →
    contained R m0 s0 (store_fixed target ind (f <$> o) k)).
  { intros f o k Hk Hc. apply (contained_fixed _ _ _ _ _ _ Htarget Hind Ht Hi). by apply (fmap_length f o k). }
  assert (Hp : ∀ {A} (f : A → bytes) o (k : Z) sqlstate text, (∀ a, o = Some a → blen (f a) = k) → k = capacity type size →
    contained R m0 s0 (store_parsed target ind (f <$> o) sqlstate text)).
  { intros A f o k sqlstate text Hk Hc. apply (contained_parsed _ _ _ _ _ _ Htarget Hind Ht Hi). by apply (fmap_length f o k). }
  case_bool_decide as H; [by one_of H; apply Hs|clear H].
  case_bool_decide as H; [by one_of H; apply Hf|clear H].
  case_bool_decide as H; [by one_of H; apply Hf|clear H].
  destruct (Z.eqb_spec type SQL_C_SBIGINT); [by subst; apply Hf|].
  destruct (Z.eqb_spec type SQL_C_DOUBLE); [by subst; apply Hf|].
  destruct (Z.eqb_spec type SQL_C_FLOAT); [by subst; apply Hf|].
  destruct (Z.eqb_spec type SQL_C_BIT); [by subst; apply (Hf (le_bytes 1) (Some _))|].
  destruct (Z.eqb_spec type SQL_C_BINARY); [by subst; apply Hs|].
  destruct (Z.eqb_spec type SQL_C_DATE); [by subst; apply (Hp _ _ _ 6)|].
  destruct (Z.eqb_spec type SQL_C_TIME); [by subst; apply (Hp _ _ _ 6)|].
  destruct (Z.eqb_spec type SQL_C_TIMESTAMP); [by subst; apply (Hp _ _ _ 16)|].
  destruct (Z.eqb_spec type SQL_C_GUID); [|keep].
  subst. apply (Hp _ _ _ 16); [|done]. intros g Hg. by apply length_guid in Hg as ->.
Qed.

(** ** Rows *)

(** Every row has a value for each column: the parser of data rows of the
    network client refuses others. *)
Definition rectangular (s : OdbcStatement) : Prop := Forall (λ row, length row = length (columns_ s)) (rows_ s).

Lemma contained_get_data_from R m0 s0 w column type target size ind chunks :
  rectangular (stmt w) → 0 <= column →
  usable m0 target (capacity type size) → usable m0 ind 8 → (target, capacity type size) ∈ R → (ind, 8) ∈ R →
  in_regions R m0 s0 w → post False (getDataInternal column type target size ind chunks) w (λ _, in_regions R m0 s0).
Proof.
  intros Hrect Hcol Htarget Hind Ht Hi Hw. unfold getDataInternal. pose proof (contained_ind R m0 s0 ind Hind Hi) as Hii.
  apply (post_bind _ _ _ _ (λ _ w', in_regions R m0 s0 w' ∧ stmt w' = stmt w <| OdbcStatement.diagnostics_ := [] |>)); [done|].
  intros [] w1 [Hw1 E]. apply post_read. cbn [id]. rewrite E. cbn.
  destruct (negb _); [by apply contained_refuse|]. destruct (_ || _) eqn:Hr; [by apply contained_refuse|].
  destruct ((column =? 0) || _) eqn:Hc; [by apply contained_refuse|].
  apply orb_false_iff in Hr as [Hr1%Nat.eqb_neq Hr2%Nat.ltb_ge].
  destruct (lookup_lt_is_Some_2 (rows_ (stmt w)) (current_row_ (stmt w) - 1)) as [row Hrow]; [lia|].
  pose proof (Forall_lookup_1 _ _ _ _ Hrect Hrow) as Hlen. cbv beta in Hlen.
  destruct (lookup_lt_is_Some_2 row (Z.to_nat (column - 1))) as [value Hv]; [lia|].
  destruct (lookup_lt_is_Some_2 (columns_ (stmt w)) (Z.to_nat (column - 1))) as [meta Hm]; [lia|].
  rewrite Hrow. cbn [mbind option_bind]. rewrite Hv, Hm. cbn [access].
  apply (post_bind _ _ _ _ (λ v w', v = value ∧ in_regions R m0 s0 w')); [done|]. intros ? w2 [-> Hw2].
  apply (post_bind _ _ _ _ (λ v w', v = meta ∧ in_regions R m0 s0 w')); [done|]. intros ? w3 [-> Hw3].
  case_bool_decide; [|by apply contained_convert]. by apply (λ H : contained R m0 s0 _, H w3 Hw3); keep.
Qed.

(** A store of a literal number of bytes. *)
Lemma contained_pointer R m0 s0 pointer n z :
  usable m0 pointer (Z.of_nat n) → (pointer, Z.of_nat n) ∈ R → contained R m0 s0 (store_to pointer n z).
Proof. intros. by apply (contained_store_to _ _ _ _ _ _ (Z.of_nat n)). Qed.

Definition bookmark_capacity (binding : ColumnBinding) : Z :=
  if bool_decide (target_type binding ∈ [SQL_C_SBIGINT; SQL_C_UBIGINT]) then 8
  else if bool_decide (target_type binding ∈ [SQL_C_LONG; SQL_C_SLONG; SQL_C_ULONG]) then 4
  else if bool_decide (target_type binding ∈ [SQL_C_CHAR; SQL_C_DEFAULT]) then Z.max (buffer_length binding) 0
  else 0.

Definition buffer_regions (s : OdbcStatement) (n : Z) (binding : ColumnBinding) : list region :=
  [((bound_at s binding).1, n); ((bound_at s binding).2, 8)].

(** What a fetch may write: the target and the indicator of each binding, the
    status of the row and the number of rows. *)
Definition fetch_regions (s : OdbcStatement) : list region :=
  [(row_status_ptr_ s, 2); (rows_fetched_ptr_ s, 8)] ++
  (if bookmark_bound_ s then buffer_regions s (bookmark_capacity (bookmark_binding_ s)) (bookmark_binding_ s) else []) ++
  (map_to_list (col_bindings_ s) ≫= λ '(_, b), buffer_regions s (capacity (target_type b) (buffer_length b)) b).

Lemma contained_bookmark R m0 s0 s :
  Forall (λ r, usable m0 r.1 r.2 ∧ r ∈ R) (buffer_regions s (bookmark_capacity (bookmark_binding_ s)) (bookmark_binding_ s)) →
  contained R m0 s0 (bind_bookmark s).
Proof.
  unfold buffer_regions, bind_bookmark. destruct (bound_at s (bookmark_binding_ s)) as [target ind]. cbn [fst snd].
  intros [[Htarget Ht] [[Hind Hi] _]%Forall_cons]%Forall_cons. cbv zeta.
  pose proof (contained_ind R m0 s0 ind Hind Hi) as Hii. unfold bookmark_capacity in *.
  case_bool_decide; [keep; by apply (contained_pointer _ _ _ _ 8)|].
  case_bool_decide; [keep; by apply (contained_pointer _ _ _ _ 4)|].
  case_bool_decide; [|keep]. destruct (negb (target =? 0) && _) eqn:Hc; [|keep].
  apply kept_bind; [|intros _; keep]. pose proof (contained_target R m0 s0 target _ Htarget Ht) as Hst.
  specialize (Hst (take (Z.to_nat (buffer_length (bookmark_binding_ s)) - 1) (dec (Z.of_nat (current_row_ s))) ++ [Byte.x00])).
  replace (target =? 0) with false in Hst by lia. apply Hst. rewrite length_app, length_take. cbn. lia.
Qed.

Lemma bound_at_same s s' b : result_of s = result_of s' → bound_at s b = bound_at s' b.
Proof. intros [= _ _ E]. unfold bound_at. by rewrite E. Qed.

Lemma contained_columns R m0 s0 row bindings : ∀ result,
  rectangular s0 → Forall (λ '(i, b), 0 <= i ∧
    Forall (λ r, usable m0 r.1 r.2 ∧ r ∈ R) (buffer_regions s0 (capacity (target_type b) (buffer_length b)) b)) bindings →
  contained R m0 s0 (bind_columns row result bindings).
Proof.
  induction bindings as [|[i b] bindings IH]; intros result Hrect Hb; cbn [bind_columns]; [keep|].
  apply Forall_cons in Hb as [[Hi Hr] Hb]. apply kept_bind; [|intros rc; destruct (_ =? _); [keep|by apply IH]].
  unfold bind_column. destruct (_ || _) eqn:Hc; [keep|].
  destruct (lookup_lt_is_Some_2 row (Z.to_nat (i - 1))) as [value Hv]; [lia|]. rewrite Hv. cbn [access].
  intros w Hw. apply (post_bind _ _ _ _ (λ v w', v = value ∧ in_regions R m0 s0 w')); [done|]. intros ? w1 [-> Hw1].
  apply post_read. cbn [id]. rewrite (bound_at_same _ s0 b) by apply Hw1. revert Hr. unfold buffer_regions.
  destruct (bound_at s0 b) as [target ind]. cbn [fst snd]. intros [[Htarget Ht] [[Hind Hi'] _]%Forall_cons]%Forall_cons.
  pose proof (contained_ind R m0 s0 ind Hind Hi') as Hii. case_bool_decide; [by apply (λ H : contained R m0 s0 _, H w1 Hw1); keep|].
  apply contained_get_data_from; [|done..]. destruct Hw1 as [_ [= E1 E2 _]]. unfold rectangular. by rewrite E1, E2.
Qed.

(** ** Theorems *)

(** C13: Fetching a row writes nothing but the targets and indicators that are bound,
    the row status and the row count, each within its size; no access is
    undefined, whatever the values of the row are. *)
Theorem fetch_stays_in_buffers order w :
  (∀ m, order m ≡ₚ map_to_list m) → rectangular (stmt w) → map_Forall (λ i _, 0 <= i) (col_bindings_ (stmt w)) →
  Forall (λ r, usable (mem w) r.1 r.2) (fetch_regions (stmt w)) →
  post False (fetch order) w (λ _ w', within (fetch_regions (stmt w)) (mem w) (mem w')).
Proof.
  intros Horder Hrect Hcols Husable. set (R := fetch_regions (stmt w)) in *.
  assert (Hin : Forall (λ r, usable (mem w) r.1 r.2 ∧ r ∈ R) R).
  { apply Forall_forall. intros r Hr. split; [|done]. by apply (proj1 (Forall_forall _ _) Husable). }
  apply Forall_app in Hin as [[[Hst Hst'] [[Hnr Hnr'] _]%Forall_cons]%Forall_cons [Hbm Hcb]%Forall_app].
  apply (post_weaken _ _ _ (λ _, in_regions R (mem w) (stmt w))); [|by intros ? ? []].
  assert (Hk : ∀ A (m : Stmt A) w', contained R (mem w) (stmt w) m → in_regions R (mem w) (stmt w) w' →
    post False m w' (λ _, in_regions R (mem w) (stmt w))) by auto.
  assert (Hw : ∀ s, result_of s = result_of (stmt w) → in_regions R (mem w) (stmt w) (w <| stmt := s |>)) by (split; [apply within_refl|done]).
  set (w1 := w <| stmt := stmt w <| OdbcStatement.diagnostics_ := [] |> |>).
  unfold fetch. apply (post_bind _ _ _ _ (λ _ w', w' = w1)); [done|]. intros [] ? ->. apply post_read. cbn [id].
  destruct (negb _); [by apply Hk; [keep|apply Hw]|]. destruct (_ <=? _)%nat; [by apply Hw|].
  set (w2 := w <| stmt := stmt w1 <| current_row_ := S (current_row_ (stmt w1)) |> <| get_data_stream_ := ∅ |> |>).
  apply (post_bind _ _ _ _ (λ _ w', w' = w1 <| stmt := stmt w1 <| current_row_ := S (current_row_ (stmt w1)) |> |>)); [done|]. intros [] ? ->.
  apply (post_bind _ _ _ _ (λ _ w', w' = w2)); [done|]. intros [] ? ->. unfold bindResultData. apply post_read. cbn [id].
  destruct (_ || _) eqn:Hr; [by apply Hw|]. apply orb_false_iff in Hr as [Hr1%Nat.eqb_neq Hr2%Nat.ltb_ge].
  destruct (lookup_lt_is_Some_2 (rows_ (stmt w2)) (current_row_ (stmt w2) - 1)) as [row Hrow]; [lia|]. rewrite Hrow. cbn [access].
  apply (Hk _ (mret row ≫= _)); [|by apply Hw].
  apply kept_bind; [keep|intros row']. apply kept_bind.
  { change (bookmark_bound_ (stmt w2)) with (bookmark_bound_ (stmt w)). destruct (bookmark_bound_ (stmt w)); [|keep].
    by apply contained_bookmark. }
  intros rc. destruct (_ =? _); [keep|]. apply kept_bind.
  { apply contained_columns; [done|]. change (col_bindings_ (stmt w2)) with (col_bindings_ (stmt w)). rewrite (Horder _).
    apply Forall_forall. intros [i b] Hib. split; [by apply elem_of_map_to_list in Hib; apply (Hcols i b)|].
    apply Forall_forall. intros r Hr. apply (proj1 (Forall_forall _ _) Hcb). apply list_elem_of_bind. by exists (i, b). }
  intros rc'. destruct (_ =? _); [keep|].
  apply kept_bind; [by apply (contained_pointer _ _ _ _ 2)|intros _].
  apply kept_bind; [by apply (contained_pointer _ _ _ _ 8)|intros _; keep].
Qed.

(** So does [SQLGetData]. *)
Lemma get_data_stays_in_buffer column type target size ind w :
  rectangular (stmt w) → 0 <= column → usable (mem w) target (capacity type size) → usable (mem w) ind 8 →
  post False (getData column type target size ind) w (λ _ w', within [(target, capacity type size); (ind, 8)] (mem w) (mem w')).
Proof.
  intros Hrect Hc Ht Hi. apply (post_weaken _ _ _ (λ _, in_regions [(target, capacity type size); (ind, 8)] (mem w) (stmt w))); [|by intros ? ? []].
  apply contained_get_data_from; [done..|apply elem_of_cons; by left|apply elem_of_cons; right; by apply list_elem_of_singleton|].
  split; [apply within_refl|done].
Qed.

(** Three characters for a target of two bytes, in a block of four. *)
Definition sample_fetch : world :=
  mkWorld (new_statement <| has_results_ := true |> <| columns_ := [mkColumn "a" "TEXT" SQL_VARCHAR 0 SQL_NULLABLE] |>
             <| rows_ := [["abc" : bytes]] |> <| col_bindings_ := {[ 1 := mkColumnBinding SQL_C_CHAR 16 2 32 ]} |>)
    new_connection [mkBlock 16 "????"; mkBlock 32 (zeros 8)].

Lemma fetch_stays_in_buffers_witness :
  post False (fetch map_to_list) sample_fetch (λ _ w', within (fetch_regions (stmt sample_fetch)) (mem sample_fetch) (mem w')) ∧
  match fetch map_to_list sample_fetch with
  | Returns rc w' => rc = SQL_SUCCESS_WITH_INFO ∧ mem w' = [mkBlock 16 ["a"%byte; Byte.x00; "?"%byte; "?"%byte]; mkBlock 32 (le_bytes 8 3)]
  | _ => False
  end.
Proof.
  split; [|by vm_compute]. apply (fetch_stays_in_buffers map_to_list); [done| | |].
  - by repeat constructor.
  - by apply map_Forall_singleton.
  - by_evaluation.
Defined.

(** ** Exceptions *)

(** A text that is no number makes [SQLGetData] throw through the C interface. *)
Lemma not_a_number_throws :
  let w := sample_fetch <| stmt := stmt sample_fetch <| current_row_ := 1%nat |> |> in
  getData 1 SQL_C_SLONG 16 4 0 w = Throws.
Proof. reflexivity. Qed.
