(* ===== verification/OdbcChunks.v ===== *)
(** * ODBC driver: long values in pieces

    [SQLGetData] into a buffer that is too small returns a value piece by piece,
    [SQLPutData] takes a parameter piece by piece: nothing is lost or repeated. *)

From S2P Require Import Prelude.
From S2P Require Import OdbcText.
From S2P Require Import OdbcDates.
From S2P Require Import OdbcTypes.
From S2P Require Import OdbcRun.
From S2P Require Import OdbcConnection.
From S2P Require Import OdbcStatement.

(** ** Reading in pieces *)

(** The text of a cell as [SQL_C_CHAR] streams it. *)
Definition cell_text (s : OdbcStatement) (column : Z) : option bytes :=
  row ← rows_ s !! (current_row_ s - 1)%nat; v ← row !! Z.to_nat (column - 1);
  meta ← columns_ s !! Z.to_nat (column - 1);
  if bool_decide (v = []) then None else Some (if isBinarySqlType (sql_type meta) then bytesToHexString v else v).

(** The statement is on a row, whose column has this text, of which [o] bytes
    have been returned. *)
Record reading (column : Z) (text : bytes) (o : nat) (s : OdbcStatement) : Prop := mkReading {
  r_results : has_results_ s = true;
  r_row : (1 <= current_row_ s <= length (rows_ s))%nat;
  r_column : 1 <= column <= blen (columns_ s);
  r_text : cell_text s column = Some text;
  r_stream : get_data_stream_ s !! column = if (o =? 0)%nat then None else Some (mkGetStream text o)
}.

(** A buffer of the application: it does not overlap the indicator. *)
Record buffer_ok (target size ind : Z) (m : memory) : Prop := mkBufferOk {
  b_apart : apart m;
  b_target : is_Some (read_bytes m target size);
  b_ind : ind = 0 ∨ is_Some (read_bytes m ind 8) ∧ (ind + 8 <= target ∨ target + size <= ind)
}.

(** One piece: as much as the buffer holds beside the terminator. *)
Definition piece (text : bytes) (o : nat) (size : Z) : bytes := take (Nat.min (Z.to_nat size - 1) (length text - o)) (drop o text).

Lemma length_piece text o size : (o <= length text)%nat → length (piece text o size) = Nat.min (Z.to_nat size - 1) (length text - o).
Proof. intros Ho. unfold piece. rewrite length_take, length_drop. lia. Qed.

Lemma buffer_write target size ind m addr data m' : write_bytes m addr data = Some m' → buffer_ok target size ind m → buffer_ok target size ind m'.
Proof.
  intros Hw [Ha Ht Hi]. constructor; [by apply (apart_write _ _ _ _ Hw)|by apply (write_keeps_readable _ _ _ _ _ _ Hw)|].
  destruct Hi as [|[Hi Hd]]; [by left|right]. split; [by apply (write_keeps_readable _ _ _ _ _ _ Hw)|done].
Qed.

(** The indicator is stored beside the target. *)
Lemma store_ind target size ind z s c m : buffer_ok target size ind m → 0 <= size →
  ∃ m', store_to ind 8 z (mkWorld s c m) = Returns tt (mkWorld s c m') ∧ buffer_ok target size ind m' ∧
    ∀ n, 0 <= n <= size → read_bytes m' target n = read_bytes m target n.
Proof.
  intros Hb Hsize. unfold store_to. destruct (Z.eqb_spec ind 0) as [|Hne]; [by exists m|]. destruct (b_ind _ _ _ _ Hb) as [|[[d Hd] Ho]]; [done|].
  destruct (write_succeeds m ind (le_bytes 8 z) d) as [m' Hm']; [by rewrite length_le_bytes|]. exists m'. unfold store.
  rewrite bool_decide_eq_false_2 by (by destruct (le_bytes 8 z) eqn:E; [apply (f_equal length) in E; rewrite length_le_bytes in E|]).
  cbn [mem]. rewrite Hm'. split_and!; [done|by apply (buffer_write _ _ _ _ _ _ _ Hm')|].
  intros n Hn. apply (read_frame _ _ _ _ _ _ Hm'); [lia|]. rewrite length_le_bytes. lia.
Qed.

Lemma stream_piece column initial text o target size ind s c m :
  default (mkGetStream initial O) (get_data_stream_ s !! column) = mkGetStream text o →
  (o < length text)%nat → 2 <= size → target ≠ 0 → buffer_ok target size ind m →
  let k := length (piece text o size) in
  ∃ m' d reported,
    streamChunk column initial true target size true (mkWorld s c m) =
      Returns (if (o + k <? length text)%nat then SQL_SUCCESS_WITH_INFO else SQL_SUCCESS, reported)
        (mkWorld (s <| get_data_stream_ := <[column := mkGetStream text (o + k)]> (get_data_stream_ s) |>
                    <| OdbcStatement.diagnostics_ := d |>) c m') ∧
    buffer_ok target size ind m' ∧ read_bytes m' target (Z.of_nat k + 1) = Some (piece text o size ++ [Byte.x00]).
Proof.
  intros Hst Ho Hsize Ht Hb k. set (copy := Nat.min (Z.to_nat size - 1) (length text - o)).
  assert (Hk : k = copy) by (apply length_piece; lia). set (data := piece text o size ++ [Byte.x00]).
  assert (Hlen : blen data = Z.of_nat k + 1) by (unfold data; rewrite length_app; cbn; lia).
  destruct (read_succeeds m target size (blen data)) as [x Hx]; [lia|by destruct Hb|].
  destruct (write_succeeds m target data x Hx) as [m' Hm']. exists m'.
  unfold streamChunk, field, mbind, prog_bind. cbn [stmt]. rewrite Hst. cbn [gs_value gs_offset].
  replace (length text <=? o)%nat with false by (symmetry; apply Nat.leb_gt; lia). guard_false. cbv zeta.
  fold copy. change (take copy (drop o text) ++ [Byte.x00]) with data. guard_false.
  rewrite Hk. unfold store. rewrite bool_decide_eq_false_2 by (intros E; rewrite E in Hlen; cbn in Hlen; lia). cbn [mem]. rewrite Hm'.
  unfold change. cbn [stmt]. destruct (o + copy <? length text)%nat.
  - eexists _, _. split; [reflexivity|]. split; [by apply (buffer_write _ _ _ _ _ _ _ Hm')|]. rewrite <-Hk, <-Hlen. by apply (read_written _ _ _ _ Hm').
  - exists (OdbcStatement.diagnostics_ s). eexists. split; [reflexivity|].
    split; [by apply (buffer_write _ _ _ _ _ _ _ Hm')|]. rewrite <-Hk, <-Hlen. by apply (read_written _ _ _ _ Hm').
Qed.

(** The cell is read before the conversion. *)
Lemma get_data_cell column text o target size ind s c m :
  reading column text o s →
  ∃ initial, (get_data_stream_ s !! column = None → initial = text) ∧
    getData column SQL_C_CHAR target size ind (mkWorld s c m) =
      ('(result, total_length) ← streamChunk column initial true target size true; _ ← store_to ind 8 total_length; mret result)
        (mkWorld (s <| OdbcStatement.diagnostics_ := [] |>) c m).
Proof.
  intros [Hres Hrow Hcol Htext _]. set (w1 := mkWorld (s <| OdbcStatement.diagnostics_ := [] |>) c m).
  unfold getData, getDataInternal. rewrite (run_bind _ _ _ tt w1), (run_bind _ _ _ (stmt w1) w1) by done.
  change (has_results_ (stmt w1)) with (has_results_ s). rewrite Hres. cbn [negb].
  change (current_row_ (stmt w1)) with (current_row_ s). change (rows_ (stmt w1)) with (rows_ s). change (columns_ (stmt w1)) with (columns_ s).
  replace (current_row_ s =? 0)%nat with false by (symmetry; apply Nat.eqb_neq; lia).
  replace (length (rows_ s) <? current_row_ s)%nat with false by (symmetry; apply Nat.ltb_ge; lia). cbn [orb].
  guard_false. revert Htext. unfold cell_text.
  destruct (rows_ s !! _) as [row|]; [|done]. cbn [mbind option_bind]. destruct (row !! _) as [v|]; [|done]. cbn [mbind option_bind].
  destruct (columns_ s !! _) as [meta|]; [|done]. cbn [mbind option_bind]. destruct (bool_decide (v = [])) eqn:Hv; [done|].
  intros [= Ht]. exists (if isBinarySqlType (sql_type meta) then bytesToHexString v else v). split; [done|].
  rewrite (run_bind (access (Some v)) _ _ v w1), (run_bind (access (Some meta)) _ _ meta w1) by done. by rewrite Hv.
Qed.

Lemma get_data_piece column text o target size ind s c m :
  reading column text o s → (o < length text)%nat → Byte.x00 ∉ text →
  2 <= size → target ≠ 0 → buffer_ok target size ind m →
  let k := length (piece text o size) in
  ∃ s' m', getData column SQL_C_CHAR target size ind (mkWorld s c m) =
      Returns (if (o + k <? length text)%nat then SQL_SUCCESS_WITH_INFO else SQL_SUCCESS) (mkWorld s' c m') ∧
    reading column text (o + k) s' ∧ buffer_ok target size ind m' ∧ read_string m' target = Some (piece text o size).
Proof.
  intros Hr Ho Hz Hsize Ht Hb k. destruct (get_data_cell column text o target size ind s c m Hr) as (initial & Hi & ->).
  assert (Hst : default (mkGetStream initial O) (get_data_stream_ s !! column) = mkGetStream text o).
  { pose proof (r_stream _ _ _ _ Hr) as Hs. destruct (Nat.eqb_spec o 0) as [->|]; rewrite Hs; [by rewrite (Hi Hs)|done]. }
  set (s0 := s <| OdbcStatement.diagnostics_ := [] |>) in *.
  destruct (stream_piece column initial text o target size ind s0 c m Hst Ho Hsize Ht Hb)
    as (m1 & d & reported & E & Hb1 & Hp).
  match type of E with _ = Returns _ ?w => set (w1 := w) in * end.
  assert (Hk : Z.of_nat k + 1 <= size) by (unfold k; rewrite length_piece; lia).
  destruct (store_ind target size ind reported (stmt w1) c m1 Hb1 ltac:(lia)) as (m2 & E2 & Hb2 & Hsame).
  exists (stmt w1), m2. change (mkWorld (stmt w1) c m1) with w1 in E2.
  split; [by rewrite (run_bind _ _ _ _ _ E); cbv beta iota; rewrite (run_bind _ _ _ _ _ E2)|]. split; [|split; [done|]].
  - assert (Hk0 : (0 < k)%nat) by (unfold k; rewrite length_piece; lia). destruct Hr. constructor; try done.
    replace (o + k =? 0)%nat with false by (symmetry; apply Nat.eqb_neq; lia). cbn. by rewrite lookup_insert_eq.
  - apply apart_string; [by destruct Hb2| |by rewrite Hsame by lia].
    intros Hin. apply Hz. rewrite <-(take_drop o text). apply elem_of_app. right.
    rewrite <-(take_drop (Nat.min (Z.to_nat size - 1) (length text - o)) (drop o text)). apply elem_of_app. by left.
Qed.

Lemma text_not_empty column text o s : reading column text o s → (0 < length text)%nat.
Proof.
  intros [_ _ _ Ht _]. revert Ht. unfold cell_text. destruct (rows_ s !! _) as [row|]; [|done]. cbn [mbind option_bind].
  destruct (row !! _) as [v|]; [|done]. cbn [mbind option_bind]. destruct (columns_ s !! _); [|done]. cbn [mbind option_bind].
  case_bool_decide as Hv; [done|]. intros [= <-]. destruct v; [done|]. case_match; cbn; lia.
Qed.

(** An application that collects the pieces while it is told that there is more. *)
Fixpoint get_all (rounds : nat) (column target size ind : Z) : Stmt bytes :=
  match rounds with
  | O => λ _, NoFuel
  | S rounds =>
      rc ← getData column SQL_C_CHAR target size ind;
      text ← load_string target;
      if rc =? SQL_SUCCESS_WITH_INFO then rest ← get_all rounds column target size ind; mret (text ++ rest) else mret text
  end.

Lemma get_all_from rounds column text target size ind c : ∀ o s m,
  reading column text o s → (o < length text)%nat → Byte.x00 ∉ text →
  2 <= size → target ≠ 0 → buffer_ok target size ind m → (length text - o <= rounds * (Z.to_nat size - 1))%nat →
  ∃ s' m', get_all rounds column target size ind (mkWorld s c m) = Returns (drop o text) (mkWorld s' c m') ∧
    reading column text (length text) s'.
Proof.
  induction rounds as [|rounds IH]; intros o s m Hr Ho Hz Hsize Ht Hb Hn; [lia|]. cbn [get_all].
  destruct (get_data_piece column text o target size ind s c m Hr Ho Hz Hsize Ht Hb) as (s1 & m1 & E & Hr1 & Hb1 & Hs1).
  rewrite (run_bind _ _ _ _ _ E), (run_bind _ _ _ (piece text o size) (mkWorld s1 c m1)) by (unfold load_string; cbn; by rewrite Hs1).
  set (k := length (piece text o size)) in *. assert (Hk : k = Nat.min (Z.to_nat size - 1) (length text - o)) by (apply length_piece; lia).
  destruct (Nat.ltb_spec (o + k) (length text)) as [Hl|Hl].
  - change (SQL_SUCCESS_WITH_INFO =? SQL_SUCCESS_WITH_INFO) with true. cbv iota.
    destruct (IH (o + k)%nat s1 m1 Hr1 Hl Hz Hsize Ht Hb1) as (s2 & m2 & E2 & Hr2); [nia|].
    exists s2, m2. split; [|done]. rewrite (run_bind _ _ _ _ _ E2). unfold mret, prog_ret. f_equal.
    rewrite <-drop_drop. unfold piece. rewrite <-Hk. apply take_drop.
  - change (SQL_SUCCESS =? SQL_SUCCESS_WITH_INFO) with false. cbv iota. exists s1, m1. split.
    + unfold mret, prog_ret. f_equal. unfold piece. apply take_ge. rewrite length_drop. lia.
    + by replace (length text) with (o + k)%nat by lia.
Qed.


Definition sample_statement (v : bytes) : OdbcStatement :=
  new_statement <| has_results_ := true |> <| columns_ := [mkColumn "a" "TEXT" SQL_VARCHAR 0 SQL_NULLABLE] |>
    <| rows_ := [[v]] |> <| current_row_ := 1%nat |>.


(** The end is not told: the call after the last piece succeeds with no bytes,
    and the one after that begins again. *)
Lemma get_data_never_ends :
  let w := mkWorld (sample_statement "ab") new_connection [mkBlock 16 "????"; mkBlock 32 (zeros 8)] in
  match (_ ← getData 1 SQL_C_CHAR 16 4 32; rc1 ← getData 1 SQL_C_CHAR 16 4 32; n1 ← load_i64 32;
         rc2 ← getData 1 SQL_C_CHAR 16 4 32; n2 ← load_i64 32; mret (rc1, n1, rc2, n2)) w with
  | Returns r _ => r = (SQL_SUCCESS, 0, SQL_SUCCESS, 2)
  | _ => False
  end.
Proof. vm_compute. reflexivity. Qed.

(** The last piece of several is reported with the length zero, the others with
    that of the whole value. *)
Lemma last_piece_has_no_length :
  let w := mkWorld (sample_statement "abcde") new_connection [mkBlock 16 "????"; mkBlock 32 (zeros 8)] in
  match (_ ← getData 1 SQL_C_CHAR 16 4 32; n1 ← load_i64 32; rc ← getData 1 SQL_C_CHAR 16 4 32; text ← load_string 16;
         n2 ← load_i64 32; mret (n1, rc, text, n2)) w with
  | Returns r _ => r = (5, SQL_SUCCESS, "de" : bytes, 0)
  | _ => False
  end.
Proof. vm_compute. reflexivity. Qed.

(** An empty text is not told from NULL. *)
Lemma empty_text_is_read_as_null :
  let w := mkWorld (sample_statement []) new_connection [mkBlock 32 (zeros 8)] in
  match (rc ← getData 1 SQL_C_CHAR 0 0 32; n ← load_i64 32; mret (rc, n)) w with
  | Returns r _ => r = (SQL_SUCCESS, SQL_NULL_DATA)
  | _ => False
  end.
Proof. vm_compute. reflexivity. Qed.

(** ** Writing in pieces *)

(** The parameter [i], announced without a length, is being given: [v] so far. *)
Record awaiting (i : Z) (b : ParameterBinding) (row : Z) (v : bytes) (m : memory) (s : OdbcStatement) : Prop := mkAwaiting {
  a_prepared : prepared_ s = true;
  a_active : data_at_exec_active_ s = true;
  a_current : getCurrentDataAtExecParameter s = i;
  a_number : i ≠ 0;
  a_binding : param_bindings_ s !! i = Some b;
  a_row : data_at_exec_row_offset_ s = row;
  a_indicator : indicatorForRow s b row ≠ 0 ∧ read_bytes m (indicatorForRow s b row) 8 = Some (le_bytes 8 SQL_DATA_AT_EXEC);
  a_stream : put_data_stream_ s !! putDataStreamKey i row = Some (mkPutStream v 0 false false false)
}.

Lemma indicator_loaded b row c m s : indicatorForRow s b row ≠ 0 → read_bytes m (indicatorForRow s b row) 8 = Some (le_bytes 8 SQL_DATA_AT_EXEC) →
  load_indicator b row (mkWorld s c m) = Returns (Some SQL_DATA_AT_EXEC) (mkWorld s c m).
Proof.
  intros Hi Hr. unfold load_indicator. rewrite (run_bind _ _ _ s (mkWorld s c m)) by done. cbv zeta. guard_false.
  rewrite (run_bind _ _ _ SQL_DATA_AT_EXEC (mkWorld s c m)); [done|]. unfold load_i64, load, mbind, prog_bind. cbn [Z.eqb mem]. by rewrite Hr.
Qed.

(** Up to the chunk. *)
Lemma put_data_chunk i b row v m s c data len chunk w' :
  awaiting i b row v m s → put_chunk b data len (mkWorld (s <| OdbcStatement.diagnostics_ := [] |>) c m) = Returns (Some chunk) w' →
  putData data len (mkWorld s c m) =
    (let '(stream, finished, cut) := append_chunk len chunk (mkPutStream v 0 false false false) in
     _ ← set_stream (putDataStreamKey i row) stream;
     _ ← (if cut : bool then truncation else mret tt);
     _ ← (if finished : bool then next_parameter else mret tt);
     mret (if cut : bool then SQL_SUCCESS_WITH_INFO else SQL_SUCCESS)) w'.
Proof.
  intros [Hp Ha Hc Hn Hb Hrow [Hi Hr] Hs] Hk. set (s0 := s <| OdbcStatement.diagnostics_ := [] |>) in *. unfold putData.
  rewrite (run_bind _ _ _ tt (mkWorld s0 c m)), (run_bind _ _ _ s0 (mkWorld s0 c m)) by done.
  change (prepared_ s0) with (prepared_ s). change (data_at_exec_active_ s0) with (data_at_exec_active_ s).
  change (getCurrentDataAtExecParameter s0) with (getCurrentDataAtExecParameter s). rewrite Hp, Ha, Hc. cbn [negb]. cbv zeta.
  guard_false. change (param_bindings_ s0) with (param_bindings_ s). rewrite Hb.
  change (data_at_exec_row_offset_ s0) with (data_at_exec_row_offset_ s). rewrite Hrow.
  rewrite (run_bind _ _ _ (Some SQL_DATA_AT_EXEC) (mkWorld s0 c m)) by (by apply indicator_loaded).
  change (isDataAtExecIndicatorValue SQL_DATA_AT_EXEC) with true. cbn [negb].
  change (put_data_stream_ s0) with (put_data_stream_ s). rewrite Hs. cbn [complete]. by rewrite (run_bind _ _ _ _ _ Hk).
Qed.

Lemma append_open len chunk v :
  append_chunk len chunk (mkPutStream v 0 false false false) = (mkPutStream (v ++ chunk) 0 false (len =? 0) false, len =? 0, false).
Proof. unfold append_chunk. cbn. by destruct (len =? 0). Qed.

Lemma chunk_loaded b data d w : d ≠ [] → data ≠ 0 → read_bytes (mem w) data (blen d) = Some d →
  put_chunk b data (blen d) w = Returns (Some d) w.
Proof.
  intros Hd Hdata Hr. assert (Hlen : 0 < blen d) by (destruct d; [done|cbn; lia]). unfold put_chunk, SQL_NTS.
  replace (blen d =? -3) with false by lia. cbn [andb]. replace (0 <? blen d) with true by lia. guard_false.
  rewrite (run_bind _ _ _ d w); [done|]. unfold load. guard_false. by rewrite Hr.
Qed.

Lemma put_piece i b row v m s c data d :
  awaiting i b row v m s → d ≠ [] → data ≠ 0 → read_bytes m data (blen d) = Some d →
  ∃ s', putData data (blen d) (mkWorld s c m) = Returns SQL_SUCCESS (mkWorld s' c m) ∧ awaiting i b row (v ++ d) m s'.
Proof.
  intros Haw Hd Hdata Hr. assert (Hlen : 0 < blen d) by (destruct d; [done|cbn; lia]).
  eexists. split.
  - rewrite (put_data_chunk i b row v m s c data (blen d) d _ Haw (chunk_loaded b data d (mkWorld _ c m) Hd Hdata Hr)).
    rewrite append_open. replace (blen d =? 0) with false by lia. reflexivity.
  - destruct Haw. constructor; try done. cbn. by rewrite lookup_insert_eq.
Qed.

Fixpoint put_all (pieces : list (Z * Z)) : Stmt () :=
  match pieces with
  | [] => mret tt
  | (data, len) :: pieces => _ ← putData data len; put_all pieces
  end.

(** Where the pieces lie in the memory of the application. *)
Definition piece_at (m : memory) (p : Z * Z) (d : bytes) : Prop := d ≠ [] ∧ p.1 ≠ 0 ∧ p.2 = blen d ∧ read_bytes m p.1 (blen d) = Some d.

Lemma put_pieces i b row m c pieces ds : Forall2 (piece_at m) pieces ds → ∀ v s,
  awaiting i b row v m s →
  ∃ s', put_all pieces (mkWorld s c m) = Returns tt (mkWorld s' c m) ∧ awaiting i b row (v ++ concat ds) m s'.
Proof.
  induction 1 as [|[data len] d pieces ds (Hd & Hdata & Hl & Hr) _ IH]; intros v s Haw; cbn [put_all concat].
  { exists s. by rewrite app_nil_r. }
  cbn in Hdata, Hl, Hr. subst len. destruct (put_piece i b row v m s c data d Haw Hd Hdata Hr) as (s1 & E1 & Haw1).
  destruct (IH (v ++ d) s1 Haw1) as (s2 & E2 & Haw2). exists s2. rewrite (run_bind _ _ _ _ _ E1), E2. by rewrite app_assoc.
Qed.

(** A chunk of no bytes ends the parameter; the next pending one is awaited, or
    none. *)
Lemma put_end i b row v m s c data :
  awaiting i b row v m s →
  ∃ s', putData data 0 (mkWorld s c m) = Returns SQL_SUCCESS (mkWorld s' c m) ∧
    put_data_stream_ s' !! putDataStreamKey i row = Some (mkPutStream v 0 false true false) ∧
    param_bindings_ s' = param_bindings_ s ∧ param_bind_type_ s' = param_bind_type_ s ∧ param_bind_offset_ s' = param_bind_offset_ s ∧
    (data_at_exec_active_ s' = true ↔ (S (data_at_exec_index_ s) < length (data_at_exec_params_ s))%nat).
Proof.
  intros Haw. set (s1 := s <| OdbcStatement.diagnostics_ := [] |>
    <| put_data_stream_ := <[putDataStreamKey i row := mkPutStream v 0 false true false]> (put_data_stream_ s) |>).
  exists (if (S (data_at_exec_index_ s) <? length (data_at_exec_params_ s))%nat
          then s1 <| data_at_exec_index_ := S (data_at_exec_index_ s) |> else s1 <| data_at_exec_active_ := false |>). split.
  - rewrite (put_data_chunk i b row v m s c data 0 [] (mkWorld (s <| OdbcStatement.diagnostics_ := [] |>) c m) Haw eq_refl).
    rewrite append_open, app_nil_r. reflexivity.
  - pose proof (a_active _ _ _ _ _ _ Haw) as Ha.
    destruct (Nat.ltb_spec (S (data_at_exec_index_ s)) (length (data_at_exec_params_ s)));
      (split; [apply lookup_insert_eq|split_and!; try done]); by split; [|lia].
Qed.

(** *** Theorem *)

(** C15: A parameter announced with [SQL_DATA_AT_EXEC] and given in pieces of any
    sizes, ended by an empty one: every call succeeds, the literal that is put
    into the statement holds exactly the bytes of the pieces, in order, and the
    memory is only read. *)
Theorem put_data_reassembles i b row m c s pieces ds data :
  awaiting i b row [] m s → Forall2 (piece_at m) pieces ds →
  ∃ s', (_ ← put_all pieces; putData data 0) (mkWorld s c m) = Returns SQL_SUCCESS (mkWorld s' c m) ∧
    parameter_literals i row (mkWorld s' c m) =
      Returns (inl ([if value_type b =? SQL_C_BINARY then {| text := binary_text (concat ds); quoted := false |}
                     else {| text := concat ds; quoted := true |}], false)) (mkWorld s' c m).
Proof.
  intros Haw Hp. destruct (put_pieces i b row m c pieces ds Hp [] s Haw) as (s1 & E1 & Haw1). cbn [app] in Haw1.
  destruct (put_end i b row _ m s1 c data Haw1) as (s2 & E2 & Hs & Hb & Ht & Ho & _). exists s2.
  split; [by rewrite (run_bind _ _ _ _ _ E1)|]. destruct Haw1 as [_ _ _ _ Hbind _ [Hi Hr] _].
  assert (Hind : indicatorForRow s2 b row = indicatorForRow s1 b row) by (unfold indicatorForRow; by rewrite Ht, Ho).
  unfold parameter_literals. rewrite (run_bind _ _ _ s2 (mkWorld s2 c m)) by done. cbn [id]. rewrite Hb, Hbind.
  rewrite (run_bind _ _ _ (Some SQL_DATA_AT_EXEC) (mkWorld s2 c m)) by (apply indicator_loaded; by rewrite Hind).
  change (from_option isDataAtExecIndicatorValue false (Some SQL_DATA_AT_EXEC)) with true. cbv iota.
  unfold streamed_parameter. rewrite (run_bind _ _ _ (put_data_stream_ s2) (mkWorld s2 c m)) by done. cbv beta zeta. rewrite Hs.
  cbn [complete]. unfold stream_parameter. cbn [value truncated]. by destruct (value_type b =? SQL_C_BINARY).
Qed.

(** A parameter whose indicator, at address 48, is [SQL_DATA_AT_EXEC]. *)
Definition streamed_binding : ParameterBinding := mkParameter SQL_PARAM_INPUT SQL_C_CHAR SQL_VARCHAR 0 0 0 0 48.

Definition streaming_statement : OdbcStatement :=
  new_statement <| prepared_ := true |> <| server_stmt_id_ := 1 |> <| param_bindings_ := {[ 1 := streamed_binding ]} |>.

Definition streaming_memory : memory := [mkBlock 16 "abc"; mkBlock 48 (le_bytes 8 SQL_DATA_AT_EXEC); mkBlock 64 (zeros 8)].

Lemma put_data_reassembles_witness :
  let s := streaming_statement <| data_at_exec_active_ := true |> <| data_at_exec_params_ := [1] |>
             <| put_data_stream_ := {[ putDataStreamKey 1 0 := mkPutStream [] 0 false false false ]} |> in
  ∃ s', (_ ← put_all [(16, 2); (18, 1)]; putData 0 0) (mkWorld s new_connection streaming_memory) =
      Returns SQL_SUCCESS (mkWorld s' new_connection streaming_memory) ∧
    parameter_literals 1 0 (mkWorld s' new_connection streaming_memory) =
      Returns (inl ([{| text := "abc"; quoted := true |}], false)) (mkWorld s' new_connection streaming_memory).
Proof.
  intros s. apply (put_data_reassembles 1 streamed_binding 0 streaming_memory new_connection s [(16, 2); (18, 1)] ["ab" : bytes; "c" : bytes] 0).
  - by constructor.
  - by repeat constructor.
Defined.

(** [SQLParamData] after the last piece succeeds without executing: nothing is
    sent, and the statement is not executed. The application has to call
    [SQLExecute] again. *)
Lemma param_data_does_not_execute :
  match (rc ← execute (λ _, 0) 10; _ ← paramData 64; _ ← putData 16 3; _ ← putData 0 0; rc' ← paramData 64; token ← load_i64 64;
         mret (rc, rc', token)) (mkWorld streaming_statement new_connection streaming_memory) with
  | Returns r w => r = (SQL_NEED_DATA, SQL_SUCCESS, 0) ∧ executed_ (stmt w) = false ∧ conn w = new_connection
  | _ => False
  end.
Proof. by vm_compute. Qed.
