(* ===== verification/OdbcEcho.v ===== *)
(** * ODBC driver: values of the application through text and back

    A parameter reaches the server as a literal, and a result comes back as
    text: a value that the server returns as it was given is the one that was
    bound. *)

From S2P Require Import Prelude.
From S2P Require Import Text.
From S2P Require Import Values.
From S2P Require Import OdbcText.
From S2P Require Import OdbcDates.
From S2P Require Import OdbcNumbers.
From S2P Require Import OdbcTypes.
From S2P Require Import OdbcRun.
From S2P Require Import OdbcConnection.
From S2P Require Import OdbcStatement.

(** ** Bytes of numbers and structures *)

Lemma read_date d : length d = 6%nat → date_bytes (date_of_bytes d) = d.
Proof.
  intros Hd. unfold date_bytes, date_of_bytes. cbn [year month day].
  rewrite (signed_bytes 2), !le_bytes_read by (rewrite ?length_take, ?length_drop; lia).
  rewrite <-(take_drop 2 d) at 4. f_equal. rewrite <-(take_drop 2 (drop 2 d)) at 2. f_equal.
  rewrite drop_drop, take_ge; [done|]. rewrite length_drop. lia.
Qed.

Lemma read_time d : length d = 6%nat → time_bytes (time_of_bytes d) = d.
Proof.
  intros Hd. unfold time_bytes, time_of_bytes. cbn [hour minute second].
  rewrite !le_bytes_read by (rewrite ?length_take, ?length_drop; lia).
  rewrite <-(take_drop 2 d) at 4. f_equal. rewrite <-(take_drop 2 (drop 2 d)) at 2. f_equal.
  rewrite drop_drop, take_ge; [done|]. rewrite length_drop. lia.
Qed.

Lemma date_of_prefix d : (6 <= length d)%nat → date_of_bytes d = date_of_bytes (take 6 d).
Proof. intros Hd. do 6 (destruct d as [|? d]; [cbn in Hd; lia|]). done. Qed.

Lemma time_of_prefix d : (6 <= length d)%nat → time_of_bytes d = time_of_bytes (take 6 d).
Proof. intros Hd. do 6 (destruct d as [|? d]; [cbn in Hd; lia|]). done. Qed.

Lemma read_timestamp d : length d = 16%nat → timestamp_bytes (timestamp_of_bytes d) = d.
Proof.
  intros Hd. unfold timestamp_bytes, timestamp_of_bytes. cbn [ts_date ts_time fraction].
  rewrite date_of_prefix, time_of_prefix by (rewrite ?length_drop; lia).
  rewrite read_date, read_time, le_bytes_read by (rewrite !length_take, ?length_drop; lia).
  rewrite (take_ge (drop 12 d)) by (rewrite length_drop; lia).
  replace (drop 12 d) with (drop 6 (drop 6 d)) by (by rewrite drop_drop). by rewrite !take_drop.
Qed.

Lemma read_guid d : length d = 16%nat → guid_bytes (guid_of_bytes d) = d ∧ guid_ok (guid_of_bytes d).
Proof.
  intros Hd. unfold guid_bytes, guid_of_bytes, guid_ok. cbn [Data1 Data2 Data3 Data4]. split.
  - rewrite !le_bytes_read by (rewrite !length_take, ?length_drop; lia).
    rewrite (take_ge (drop 8 d)) by (rewrite length_drop; lia).
    replace (drop 8 d) with (drop 2 (drop 2 (drop 4 d))) by (by rewrite !drop_drop).
    replace (drop 6 d) with (drop 2 (drop 4 d)) by (by rewrite drop_drop). by rewrite !take_drop.
  - unfold in_u32, in_u16. pose proof (le_val_range 4 (take 4 d)). pose proof (le_val_range 2 (take 2 (drop 4 d))).
    pose proof (le_val_range 2 (take 2 (drop 6 d))). rewrite !length_take, !length_drop in *. lia.
Qed.

(** ** Values that survive *)

(** Bytes of a value whose text says all of it: years of four digits, no
    fraction below a microsecond, a bit that is 0 or 1. *)
Inductive exact_value : Z → bytes → Prop :=
  | exact_long T d : T = SQL_C_LONG ∨ T = SQL_C_SLONG → length d = 4%nat → exact_value T d
  | exact_short T d : T = SQL_C_SHORT ∨ T = SQL_C_SSHORT → length d = 2%nat → exact_value T d
  | exact_bigint d : length d = 8%nat → exact_value SQL_C_SBIGINT d
  | exact_bit d : d = [Byte.x00] ∨ d = [Byte.x01] → exact_value SQL_C_BIT d
  | exact_date d : length d = 6%nat → date_ok (date_of_bytes d) → exact_value SQL_C_DATE d
  | exact_time d : length d = 6%nat → time_ok (time_of_bytes d) → exact_value SQL_C_TIME d
  | exact_timestamp d : length d = 16%nat → date_ok (ts_date (timestamp_of_bytes d)) → time_ok (ts_time (timestamp_of_bytes d)) →
      fraction (timestamp_of_bytes d) < 1000000000 → (1000 | fraction (timestamp_of_bytes d)) →
      exact_value SQL_C_TIMESTAMP d
  | exact_guid d : length d = 16%nat → exact_value SQL_C_GUID d.

(** The text that a parameter of these bytes is sent as. *)
Definition value_text (T : Z) (d : bytes) : bytes :=
  if bool_decide (T ∈ [SQL_C_LONG; SQL_C_SLONG]) then to_string (i32 (le_val d))
  else if bool_decide (T ∈ [SQL_C_SHORT; SQL_C_SSHORT]) then to_string (i16 (le_val d))
  else if T =? SQL_C_SBIGINT then to_string (i64 (le_val d))
  else if T =? SQL_C_BIT then (if le_val d =? 0 then "0" else "1")
  else if T =? SQL_C_DATE then formatDateStruct (date_of_bytes d)
  else if T =? SQL_C_TIME then formatTimeStruct (time_of_bytes d)
  else if T =? SQL_C_TIMESTAMP then formatTimestampStruct (timestamp_of_bytes d)
  else formatGuidStruct (guid_of_bytes d).

Lemma load_given addr d w : d ≠ [] → read_bytes (mem w) addr (blen d) = Some d → load addr (blen d) w = Returns d w.
Proof. intros Hd Hr. unfold load. destruct d; [done|]. guard_false. by rewrite Hr. Qed.

Lemma sent_text binding T d addr w :
  value_type binding = T → exact_value T d → read_bytes (mem w) addr (blen d) = Some d →
  ∃ q, memory_parameter binding None addr w = Returns ([{| text := value_text T d; quoted := q |}], false) w.
Proof.
  intros HT Hx Hr. unfold memory_parameter. rewrite HT.
  assert (Hl : ∀ n, length d = n → (0 < n)%nat → load addr (Z.of_nat n) w = Returns d w).
  { intros n <- Hn. apply load_given; [by destruct d; [cbn in Hn; lia|]|done]. }
  destruct Hx as [T d [-> | ->] Hd|T d [-> | ->] Hd|d Hd|d Hd|d Hd _|d Hd _|d Hd _ _ _ _|d Hd];
    try (specialize (Hl _ Hd ltac:(lia)); eexists; etrans; [exact (run_bind _ _ _ _ _ Hl)|reflexivity]).
  destruct Hd as [-> | ->]; specialize (Hl 1%nat eq_refl ltac:(lia)); eexists; (etrans; [exact (run_bind _ _ _ _ _ Hl)|reflexivity]).
Qed.

Definition after_store (m : memory) (w : world) : world := w <| mem := m |>.

Lemma store_given addr d w : d ≠ [] → is_Some (read_bytes (mem w) addr (blen d)) →
  ∃ m, write_bytes (mem w) addr d = Some m ∧ store addr d w = Returns tt (after_store m w).
Proof.
  intros Hd [x Hx]. destruct (write_succeeds _ _ _ _ Hx) as [m Hm]. exists m. split; [done|].
  unfold store. rewrite bool_decide_eq_false_2 by done. by rewrite Hm.
Qed.

Lemma fixed_given target d k w : target ≠ 0 → d ≠ [] → is_Some (read_bytes (mem w) target (blen d)) →
  ∃ m, write_bytes (mem w) target d = Some m ∧ store_fixed target 0 (Some d) k w = Returns SQL_SUCCESS (after_store m w).
Proof.
  intros Ht Hd Hr. destruct (store_given target d w Hd Hr) as (m & Hm & E). exists m. split; [done|].
  unfold store_fixed. guard_false. rewrite (run_bind _ _ _ tt (after_store m w)); [done|]. exact E.
Qed.

Lemma parsed_given target d sqlstate text w : target ≠ 0 → d ≠ [] → is_Some (read_bytes (mem w) target (blen d)) →
  ∃ m, write_bytes (mem w) target d = Some m ∧ store_parsed target 0 (Some d) sqlstate text w = Returns SQL_SUCCESS (after_store m w).
Proof.
  intros Ht Hd Hr. destruct (store_given target d w Hd Hr) as (m & Hm & E). exists m. split; [done|].
  unfold store_parsed. guard_false. by rewrite (run_bind _ _ _ _ _ E).
Qed.

Lemma long_text d : length d = 4%nat → le_bytes 4 <$> stoi (to_string (i32 (le_val d))) = Some d.
Proof.
  intros Hd. rewrite stoi_to_string by apply (signed_range 32 _ ltac:(lia)). cbn [fmap option_fmap option_map]. f_equal. apply (signed_bytes 4); [lia|done].
Qed.

Lemma short_text d : length d = 2%nat → le_bytes 2 <$> stoi (to_string (i16 (le_val d))) = Some d.
Proof.
  intros Hd. pose proof (signed_range 16 (le_val d) ltac:(lia)) as Hr. fold (i16 (le_val d)) in Hr. rewrite stoi_to_string by lia.
  cbn [fmap option_fmap option_map]. f_equal. apply (signed_bytes 2); [lia|done].
Qed.

Lemma bigint_text d : length d = 8%nat → le_bytes 8 <$> stoll (to_string (i64 (le_val d))) = Some d.
Proof.
  intros Hd. rewrite stoll_to_string by apply (signed_range 64 _ ltac:(lia)). cbn [fmap option_fmap option_map]. f_equal. apply (signed_bytes 8); [lia|done].
Qed.

Lemma parse_date_text d : date_ok (date_of_bytes d) → length d = 6%nat →
  date_bytes <$> parseDateLiteral (formatDateStruct (date_of_bytes d)) = Some d.
Proof. intros Hok Hd. rewrite date_literal_read by done. cbn [fmap option_fmap option_map]. by rewrite read_date. Qed.

Lemma parse_time_text d : time_ok (time_of_bytes d) → length d = 6%nat →
  time_bytes <$> parseTimeLiteral (formatTimeStruct (time_of_bytes d)) = Some d.
Proof.
  intros Hok Hd.
  set (ts := {| ts_date := {| year := 0; month := 0; day := 0 |}; ts_time := time_of_bytes d; fraction := 0 |}).
  destruct (datetime_literals_read ts) as (_ & H & _); [unfold date_ok; cbn; lia|done|cbn; lia|].
  change (ts_time ts) with (time_of_bytes d) in H. rewrite H. cbn [fmap option_fmap option_map]. by rewrite read_time.
Qed.

Lemma parse_timestamp_text d :
  length d = 16%nat → date_ok (ts_date (timestamp_of_bytes d)) → time_ok (ts_time (timestamp_of_bytes d)) →
  fraction (timestamp_of_bytes d) < 1000000000 → (1000 | fraction (timestamp_of_bytes d)) →
  timestamp_bytes <$> parseTimestampLiteral (formatTimestampStruct (timestamp_of_bytes d)) = Some d.
Proof.
  intros Hd Hdate Htime Hf [k Hk]. set (ts := timestamp_of_bytes d) in *.
  assert (H0 : 0 <= fraction ts) by (unfold ts, timestamp_of_bytes; cbn [fraction]; apply le_val_bounds).
  destruct (datetime_literals_read ts Hdate Htime ltac:(lia)) as (_ & _ & H). rewrite H. cbn [fmap option_fmap option_map].
  replace (fraction ts / 1000 * 1000) with (fraction ts) by (rewrite Hk, Z.div_mul; lia).
  replace {| ts_date := ts_date ts; ts_time := ts_time ts; fraction := fraction ts |} with ts by (by destruct ts).
  unfold ts. by rewrite read_timestamp.
Qed.

Lemma parse_guid_text d : length d = 16%nat →
  guid_bytes <$> parseGuidString (if bool_decide (length (formatGuidStruct (guid_of_bytes d)) = 16%nat)
    then bytesToHexString (formatGuidStruct (guid_of_bytes d)) else formatGuidStruct (guid_of_bytes d)) = Some d.
Proof.
  intros Hd. destruct (read_guid d Hd) as [E Hok]. rewrite bool_decide_eq_false_2.
  - rewrite guid_literal_read by done. cbn [fmap option_fmap option_map]. by rewrite E.
  - unfold formatGuidStruct, put_hex.
    repeat (rewrite length_app; cbn [length]). rewrite !length_hex_text, !length_be_bytes. lia.
Qed.

Lemma received_text T d column target size w :
  exact_value T d → target ≠ 0 → is_Some (read_bytes (mem w) target (blen d)) →
  ∃ m, write_bytes (mem w) target d = Some m ∧
    convert column T (value_text T d) false target size 0 true w = Returns SQL_SUCCESS (after_store m w).
Proof.
  intros Hx Ht Hr. assert (Hf : ∀ o k, o = Some d → d ≠ [] → ∃ m, write_bytes (mem w) target d = Some m ∧
    store_fixed target 0 o k w = Returns SQL_SUCCESS (after_store m w)) by (intros o k -> Hd; by apply fixed_given).
  assert (Hp : ∀ o sqlstate text, o = Some d → d ≠ [] → ∃ m, write_bytes (mem w) target d = Some m ∧
    store_parsed target 0 o sqlstate text w = Returns SQL_SUCCESS (after_store m w)) by (intros o sqlstate text -> Hd; by apply parsed_given).
  assert (Hne : ∀ n, length d = S n → d ≠ []) by (by intros n Hn ->).
  destruct Hx as [T d [-> | ->] Hd|T d [-> | ->] Hd|d Hd|d Hd|d Hd Hok|d Hd Hok|d Hd Hdate Htime Hfr Hdiv|d Hd].
  1, 2: apply (Hf (le_bytes 4 <$> stoi (to_string (i32 (le_val d))))); [by apply long_text|by apply (Hne _ Hd)].
  1, 2: apply (Hf (le_bytes 2 <$> stoi (to_string (i16 (le_val d))))); [by apply short_text|by apply (Hne _ Hd)].
  - apply (Hf (le_bytes 8 <$> stoll (to_string (i64 (le_val d))))); [by apply bigint_text|by apply (Hne _ Hd)].
  - apply (Hf (Some (le_bytes 1 (bit_value (value_text SQL_C_BIT d))))); by destruct Hd as [-> | ->].
  - apply (Hp (date_bytes <$> parseDateLiteral (formatDateStruct (date_of_bytes d)))); [by apply parse_date_text|by apply (Hne _ Hd)].
  - apply (Hp (time_bytes <$> parseTimeLiteral (formatTimeStruct (time_of_bytes d)))); [by apply parse_time_text|by apply (Hne _ Hd)].
  - apply (Hp (timestamp_bytes <$> parseTimestampLiteral (formatTimestampStruct (timestamp_of_bytes d))));
      [by apply parse_timestamp_text|by apply (Hne _ Hd)].
  - eapply (Hp _ _ _ (parse_guid_text d Hd)). by apply (Hne _ Hd).
Qed.

(** ** Theorem *)


