(* ===== verification/OdbcLimits.v ===== *)
(** * ODBC driver: requests and the circuit breaker, and where the handles fall short

    Each statement is one step of the circuit breaker. The calls that end or
    begin a transaction are not always; the rest of the file runs the handles on
    inputs for which they do not do what they promise. *)

From S2P Require Import Prelude.
From S2P Require Import Text.
From S2P Require Import Sqlstate.
From S2P Require Import ErrorContext.
From S2P Require Import CircuitBreaker.
From S2P Require Import NetworkClient.
From S2P Require Import NetworkClientSpec.
From S2P Require Import OdbcText.
From S2P Require Import OdbcTypes.
From S2P Require Import OdbcRun.
From S2P Require Import OdbcConnection.
From S2P Require Import OdbcStatement.
From S2P Require Import OdbcBulk.
From S2P Require Import OdbcResults.

(** ** Requests *)

(** The bridge does not touch the breaker or the clock. *)
Lemma bridge_frame fuel sql c :
  post True (bridge_executeSQL fuel sql) c (λ _ c', circuit_breaker_ c' = circuit_breaker_ c ∧ clock_reads c' = clock_reads c).
Proof.
  unfold bridge_executeSQL.
  apply (post_bind _ _ _ _ (λ _ c', circuit_breaker_ c' = circuit_breaker_ c ∧ clock_reads c' = clock_reads c)).
  - unfold post, with_client. by destruct (executeQuery _ _ _ _) as [? ? ?| |].
  - intros [[status results] ctx] c1 [E1 E2]. case_bool_decide.
    + by split.
    + unfold post, mbind, prog_bind, set_last, update, from_outcome. cbn. destruct (mapM _ _); [by split|done].
Qed.

Lemma allow_request clock c :
  let '(allowed, b) := AllowRequest (clock (clock_reads c)) (circuit_breaker_ c) in
  let c' := c <| clock_reads := S (clock_reads c) |> <| circuit_breaker_ := b |> in
  ∃ d, allowRequest clock c = Returns allowed (c' <| OdbcConnection.diagnostics_ := d |>).
Proof.
  destruct (AllowRequest _ _) as [allowed b] eqn:E. cbv zeta. set (c1 := c <| clock_reads := S (clock_reads c) |>). eexists.
  unfold allowRequest. rewrite (run_bind _ _ _ (clock (clock_reads c)) c1), (run_bind _ _ _ c1 c1) by done.
  change (circuit_breaker_ c1) with (circuit_breaker_ c). rewrite E. cbv beta iota.
  rewrite (run_bind _ _ _ tt (c1 <| circuit_breaker_ := b |>)) by done.
  instantiate (1 := if allowed then OdbcConnection.diagnostics_ c
                    else OdbcConnection.diagnostics_ c ++ [mkDiagnostic "08006" 0 "Circuit breaker is OPEN"]).
  by destruct allowed.
Qed.

(** A statement is one step of the breaker: it is run if the breaker lets it, and
    counted as a success or a failure once, at the time it ends; a statement that
    is refused reaches neither the client nor the server. *)
Theorem execute_follows_breaker clock fuel sql c :
  let t := clock (clock_reads c) in
  post True (executeSQL clock fuel sql) c (λ '(status, r) c',
    let ok := succeeded status in
    let step := Execute t (clock (S (clock_reads c))) ok (circuit_breaker_ c) in
    circuit_breaker_ c' = step.2 ∧
    (step.1 = false → status = SQL_ERROR ∧ r = empty_results ∧ client_bridge_ c' = client_bridge_ c)).
Proof.
  intros t. pose proof (allow_request clock c) as Ha. fold t in Ha. unfold Execute.
  destruct (AllowRequest t (circuit_breaker_ c)) as [allowed b]. cbv zeta in Ha. destruct Ha as [d Ha].
  set (c1 := c <| clock_reads := S (clock_reads c) |> <| circuit_breaker_ := b |> <| OdbcConnection.diagnostics_ := d |>) in *.
  unfold executeSQL. apply (post_bind _ _ _ _ (λ a c', a = allowed ∧ c' = c1)); [unfold post; by rewrite Ha|].
  intros ? ? [-> ->]. destruct allowed; cbn [negb]; [|by split].
  eapply post_bind; [apply bridge_frame|]. intros [status results] c2 [E1 E2]. cbv beta iota.
  change (circuit_breaker_ c1) with b in E1. change (clock_reads c1) with (S (clock_reads c)) in E2.
  fold (succeeded status). destruct (succeeded status) eqn:Hs.
  - apply (post_bind _ _ _ _ (λ _ c3, circuit_breaker_ c3 = RecordSuccess b)); [unfold post; cbn; by rewrite E1|].
    intros [] c3 E3. unfold post, mret, prog_ret. rewrite Hs. by split.
  - apply (post_bind _ _ _ _ (λ _ c3, circuit_breaker_ c3 = b ∧ clock_reads c3 = S (clock_reads c))); [by split|].
    intros [] c3 [E3 E4].
    apply (post_bind _ _ _ _ (λ _ c4, circuit_breaker_ c4 = RecordFailure (clock (clock_reads c3)) b)); [by rewrite <-E3|].
    intros [] c4 E5. unfold post, mret, prog_ret. rewrite Hs, E5, E4. by split.
Qed.

(** ** Transactions *)

(** In auto-commit mode outside of a transaction, ending one succeeds without a
    word to the server; if the breaker is half open, the slot of the request is
    not given back: no success and no failure is recorded. *)
Lemma end_transaction_keeps_slot clock fuel type c :
  connected_ c = true → auto_commit_ c = SQL_AUTOCOMMIT_ON → in_transaction_ c = false →
  CircuitBreaker.state_ (circuit_breaker_ c) = SB_CIRCUIT_HALF_OPEN →
  half_open_requests_ (circuit_breaker_ c) < half_open_max_requests (CircuitBreaker.config_ (circuit_breaker_ c)) →
  ∃ c', endTransaction clock fuel type c = Returns SQL_SUCCESS c' ∧ client_bridge_ c' = client_bridge_ c ∧
    circuit_breaker_ c' = set_half_open (half_open_requests_ (circuit_breaker_ c) + 1) (circuit_breaker_ c).
Proof.
  intros Hc Ha Ht Hb Hm. set (c0 := c <| OdbcConnection.diagnostics_ := [] |>).
  pose proof (allow_request clock c0) as Hal. unfold AllowRequest in Hal. change (circuit_breaker_ c0) with (circuit_breaker_ c) in Hal.
  rewrite Hb in Hal. unfold AllowHalfOpenRequest in Hal. replace (_ <=? _) with false in Hal by lia. cbv beta iota zeta in Hal.
  destruct Hal as [d Hal]. match type of Hal with _ = Returns _ ?x => set (c1 := x) in * end. exists c1. split; [|done].
  unfold endTransaction. rewrite (run_bind _ _ _ tt c0), (run_bind _ _ _ (connected_ c0) c0) by done.
  change (connected_ c0) with (connected_ c). rewrite Hc. cbn [negb]. rewrite (run_bind _ _ _ _ _ Hal). cbn [negb].
  rewrite (run_bind _ _ _ c1 c1) by done.
  change (auto_commit_ c1) with (auto_commit_ c). change (in_transaction_ c1) with (in_transaction_ c). by rewrite Ha, Ht.
Qed.

(** After a row of a bulk operation fails in auto-commit mode, the rows before it
    are reported as rolled back, although nothing is sent to the server. *)
Lemma rollback_that_is_not_sent clock fuel processed w :
  processed ≠ 0 → connected_ (conn w) = true → auto_commit_ (conn w) = SQL_AUTOCOMMIT_ON → in_transaction_ (conn w) = false →
  CircuitBreaker.state_ (circuit_breaker_ (conn w)) = SB_CIRCUIT_CLOSED →
  ∃ w', report_failure clock fuel processed w = Returns tt w' ∧ client_bridge_ (conn w') = client_bridge_ (conn w) ∧
    last (OdbcStatement.diagnostics_ (stmt w')) = Some (mkDiagnostic "01000" 0 "Partially applied batch was rolled back").
Proof.
  intros Hp Hc Ha Ht Hb. set (c0 := conn w <| OdbcConnection.diagnostics_ := [] |>).
  pose proof (allow_closed clock c0 Hb) as Hal. set (c1 := c0 <| clock_reads := S (clock_reads c0) |>) in *.
  assert (E : endTransaction clock fuel SQL_ROLLBACK (conn w) = Returns SQL_SUCCESS c1).
  { unfold endTransaction. rewrite (run_bind _ _ _ tt c0), (run_bind _ _ _ (connected_ c0) c0) by done.
    change (connected_ c0) with (connected_ (conn w)). rewrite Hc. cbn [negb]. rewrite (run_bind _ _ _ _ _ Hal). cbn [negb].
    rewrite (run_bind _ _ _ c1 c1) by done.
    change (auto_commit_ c1) with (auto_commit_ (conn w)). change (in_transaction_ c1) with (in_transaction_ (conn w)). by rewrite Ha, Ht. }
  set (d := default (mkDiagnostic "HY000" 0 "Bulk operation failed") (head (OdbcConnection.diagnostics_ (conn w)))).
  set (w1 := w <| stmt := stmt w <| OdbcStatement.diagnostics_ := OdbcStatement.diagnostics_ (stmt w) ++ [d] |> |>).
  set (w2 := w1 <| conn := c1 |>).
  eexists. split.
  - unfold report_failure. rewrite (run_bind _ _ _ (head (OdbcConnection.diagnostics_ (conn w))) w) by done.
    rewrite (run_bind _ _ _ tt w1) by done. guard_false.
    rewrite (run_bind _ _ _ SQL_SUCCESS w2) by (unfold on_connection, zoom; change (conn w1) with (conn w); by rewrite E).
    reflexivity.
  - split; [done|]. cbn. by rewrite last_snoc.
Qed.

(** ** Errors *)

(** A refused statement leaves its error on the connection only. *)
Lemma error_is_not_on_the_statement :
  let c := new_connection <| connected_ := true |> <| circuit_breaker_ := set_state SB_CIRCUIT_OPEN (circuit_breaker_ new_connection) |> in
  match executeSqlStatements (λ _, 0) 1 "SELECT 1" (mkWorld new_statement c []) with
  | Returns rc w => rc = SQL_ERROR ∧ OdbcStatement.diagnostics_ (stmt w) = [] ∧
      OdbcConnection.diagnostics_ (conn w) = [mkDiagnostic "08006" 0 "Circuit breaker is OPEN"]
  | _ => False
  end.
Proof. by vm_compute. Qed.

(** An auto-commit mode that could not be set is kept as if it were. *)
Lemma failed_autocommit_is_kept :
  let c := new_connection <| connected_ := true |> <| circuit_breaker_ := set_state SB_CIRCUIT_OPEN (circuit_breaker_ new_connection) |> in
  match setAutocommit (λ _, 0) 1 SQL_AUTOCOMMIT_OFF c with
  | Returns rc c' => rc = SQL_ERROR ∧ auto_commit_ c = SQL_AUTOCOMMIT_ON ∧ auto_commit_ c' = SQL_AUTOCOMMIT_OFF
  | _ => False
  end.
Proof. by vm_compute. Qed.

(** ** Results *)

Definition two_columns (a b : bytes) : OdbcStatement :=
  new_statement <| has_results_ := true |>
    <| columns_ := [mkColumn "a" "TEXT" SQL_VARCHAR 0 SQL_NULLABLE; mkColumn "b" "TEXT" SQL_VARCHAR 0 SQL_NULLABLE] |>
    <| rows_ := [[a; b]] |>.

(** The warning of a truncated column is cleared by the next column: the call
    returns [SQL_SUCCESS_WITH_INFO] with no diagnostic. *)
Lemma truncation_is_forgotten :
  let s := two_columns "long" "x" <| col_bindings_ := {[ 1 := mkColumnBinding SQL_C_CHAR 16 2 0; 2 := mkColumnBinding SQL_C_CHAR 24 4 0 ]} |> in
  match fetch (λ m, [(1, default no_binding (m !! 1)); (2, default no_binding (m !! 2))])
          (mkWorld s new_connection [mkBlock 16 (zeros 16)]) with
  | Returns rc w => rc = SQL_SUCCESS_WITH_INFO ∧ OdbcStatement.diagnostics_ (stmt w) = []
  | _ => False
  end.
Proof. by vm_compute. Qed.

(** A positioned deletion takes the row out of the memory of the driver and
    reports it as deleted; the server is not asked. *)
Lemma deletion_is_local :
  let s := two_columns "a" "b" <| cursor_type_ := SQL_CURSOR_STATIC |> <| concurrency_ := 2 |> <| current_row_ := 1%nat |> in
  match setPos map_to_list (mkPositionCodes 0 0 1 2 3 [0; 1; 2]) 1 3 0 (mkWorld s new_connection []) with
  | Returns rc w => rc = SQL_SUCCESS ∧ rows_ (stmt w) = [] ∧ row_count_ (stmt w) = 1 ∧ conn w = new_connection
  | _ => False
  end.
Proof. by vm_compute. Qed.

(** A fetch beyond the last row leaves the cursor on it: its values are still
    returned. *)
Lemma cursor_stays_at_the_end :
  let s := two_columns "a" "b" <| current_row_ := 1%nat |> in
  match (rc ← fetch map_to_list; rc' ← getData 1 SQL_C_CHAR 16 4 0; text ← load_string 16; mret (rc, rc', text))
          (mkWorld s new_connection [mkBlock 16 (zeros 4)]) with
  | Returns r w => r = (SQL_NO_DATA, SQL_SUCCESS, "a" : bytes)
  | _ => False
  end.
Proof. by vm_compute. Qed.

(** Pieces are kept for a column, not for a column and a type: a value begun as
    hexadecimal text continues as that text when its bytes are asked for. *)
Lemma pieces_change_type :
  let s := two_columns "abc" "b" <| columns_ := [mkColumn "a" "BYTEA" SQL_VARBINARY 0 SQL_NULLABLE] |> <| rows_ := [["abc" : bytes]] |>
             <| current_row_ := 1%nat |> in
  match (_ ← getData 1 SQL_C_CHAR 16 3 0; _ ← getData 1 SQL_C_BINARY 16 2 0; load 16 2)
          (mkWorld s new_connection [mkBlock 16 (zeros 4)]) with
  | Returns r w => r = "62"
  | _ => False
  end.
Proof. by vm_compute. Qed.

(** ** Parameters *)

(** A length below zero that is none of the codes gives two literals for one
    parameter, which moves the following ones. *)
Lemma negative_length_shifts_parameters :
  let binding i addr ind := mkParameter SQL_PARAM_INPUT SQL_C_CHAR SQL_VARCHAR 0 0 addr 2 ind in
  let s := new_statement <| prepared_ := true |> <| param_bindings_ := {[ 1 := binding 1 16 32; 2 := binding 2 16 0 ]} |> in
  match buildParameterData 0 (mkWorld s new_connection [mkBlock 16 ["x"%byte; Byte.x00]; mkBlock 32 (le_bytes 8 (-5))]) with
  | Returns (rc, literals) w =>
      rc = SQL_SUCCESS ∧ prepared_text "INSERT INTO t VALUES (?, ?)" literals = "INSERT INTO t VALUES (NULL,NULL)"
  | _ => False
  end.
Proof. by vm_compute. Qed.

(** Parameters are counted, not looked up by their numbers: with 1 and 3 bound,
    the third is not sent. *)
Lemma gap_in_parameters_loses_one :
  let binding := mkParameter SQL_PARAM_INPUT SQL_C_CHAR SQL_VARCHAR 0 0 16 2 0 in
  let s := new_statement <| prepared_ := true |> <| param_bindings_ := {[ 1 := binding; 3 := binding ]} |> in
  match buildParameterData 0 (mkWorld s new_connection [mkBlock 16 ["x"%byte; Byte.x00]]) with
  | Returns (rc, literals) w => prepared_text "SELECT ?, ?, ?" literals = "SELECT 'x',NULL,?"
  | _ => False
  end.
Proof. by vm_compute. Qed.
