(* ===== verification/OdbcBulkSpec.v ===== *)
(** * ODBC driver: a bulk operation is its rows, one after the other

    [SQLBulkOperations] against the sequence of requests that it stands for. *)

From S2P Require Import Prelude.
From S2P Require Import Text.
From S2P Require Import NetworkClientSpec.
From S2P Require Import OdbcText.
From S2P Require Import OdbcTypes.
From S2P Require Import OdbcRun.
From S2P Require Import OdbcConnection.
From S2P Require Import OdbcStatement.
From S2P Require Import OdbcBulk.
From S2P Require Import OdbcResults.

Section rows.
Context (clock : nat → Z) (fuel : nat).

(** The statements in order, up to the first that fails. *)
Fixpoint execute_rows (sqls : list bytes) : prog OdbcConnection SQLRETURN :=
  match sqls with
  | [] => mret SQL_SUCCESS
  | sql :: sqls => '(rc, _) ← executeSQL clock fuel sql; if rc =? SQL_SUCCESS then execute_rows sqls else mret rc
  end.

(** A request keeps the prepared texts. *)
Lemma execute_keeps_prepared sql c : post True (executeSQL clock fuel sql) c (λ _ c', prepared_sql_ c' = prepared_sql_ c).
Proof.
  set (I := λ c', prepared_sql_ c' = prepared_sql_ c).
  assert (Hu : ∀ f, (∀ c, prepared_sql_ (f c) = prepared_sql_ c) → keeps True I (update f)).
  { intros f Hf w Hw. unfold post, update, I. by rewrite Hf. }
  assert (Hr : ∀ A (f : OdbcConnection → A), keeps True I (reads f)) by (by intros A f w Hw).
  assert (Hn : keeps True I (now clock)) by (by intros w Hw).
  assert (Hc : ∀ A ctx (m : NetworkClient.M A), keeps True I (with_client ctx m)).
  { intros A ctx m w Hw. unfold post, with_client. by destruct (m _ _). }
  assert (Ho : ∀ A (o : outcome A), keeps True I (from_outcome o)) by (by intros A o w Hw; destruct o).
  assert (Hk : keeps True I (executeSQL clock fuel sql)); [|by apply Hk].
  unfold executeSQL, allowRequest, bridge_executeSQL, report_bridge, recordFailure, recordSuccess, set_last, report.
  keep; try (by apply Hu). 
Qed.

(** What the pointers of the statement are given: nothing. *)
Definition silent (s : OdbcStatement) : Prop := param_status_ptr_ s = 0 ∧ params_processed_ptr_ s = 0 ∧ rows_fetched_ptr_ s = 0.

(** One row: its text is executed; the statement stays as it is. *)
Lemma run_row_executes row processed sql ls w :
  silent (stmt w) → Z.of_nat (size (param_bindings_ (stmt w))) < 65535 → gives_literals row (mem w) (stmt w) ls →
  prepared_sql_ (conn w) !! server_stmt_id_ (stmt w) = Some sql →
  ∀ r c', executeSQL clock fuel (prepared_text sql ls) (conn w) = Returns (SQL_SUCCESS, r) c' →
  run_row clock fuel row processed w = Returns (inl false) (w <| conn := c' |>).
Proof.
  intros (Hst & _ & _) Hsize Hls Hsql r c' E. unfold run_row. rewrite (run_bind _ _ _ _ _ (build_given row ls w Hsize Hls)).
  cbv beta iota. change (SQL_SUCCESS =? SQL_NEED_DATA) with false. change (negb (succeeded SQL_SUCCESS)) with false. cbv iota zeta.
  rewrite (run_bind _ _ _ (stmt w) w) by done. cbn [id].
  rewrite (run_bind _ _ _ _ _ (built sql (server_stmt_id_ (stmt w)) ls w Hsql)). cbv beta iota.
  rewrite (run_bind _ _ _ (SQL_SUCCESS, r) (w <| conn := c' |>)) by (unfold on_connection, zoom; by rewrite E).
  cbv beta iota. change (negb (succeeded SQL_SUCCESS)) with false. change (SQL_SUCCESS =? SQL_SUCCESS_WITH_INFO) with false. cbn [orb andb].
  rewrite (run_bind _ _ _ tt (w <| conn := c' |>)); [done|]. unfold set_param_status, field, mbind, prog_bind. cbn. by rewrite Hst.
Qed.

Lemma run_rows_execute sql : ∀ rows lss processed w c',
  silent (stmt w) → Z.of_nat (size (param_bindings_ (stmt w))) < 65535 →
  Forall2 (λ row ls, gives_literals row (mem w) (stmt w) ls) rows lss →
  prepared_sql_ (conn w) !! server_stmt_id_ (stmt w) = Some sql →
  execute_rows (prepared_text sql <$> lss) (conn w) = Returns SQL_SUCCESS c' →
  run_rows clock fuel rows processed false w =
    Returns SQL_SUCCESS (w <| conn := c' |> <| stmt := stmt w <| row_count_ := i64 (processed + blen lss) |> |>).
Proof.
  induction rows as [|row rows IH]; intros lss processed w c' Hs Hsize Hls Hsql E; inversion Hls as [|? ls ? lss' Hl Hr]; subst; cbn [run_rows].
  - injection E as <-. destruct Hs as (_ & Hp & Hf). unfold change, report_counts, field, store_to, mbind, prog_bind. cbn.
    rewrite Hp, Hf. cbn. by rewrite Z.add_0_r.
  - cbn [fmap list_fmap execute_rows] in E.
    pose proof (execute_keeps_prepared (prepared_text sql ls) (conn w)) as Hk. unfold post in Hk.
    unfold mbind at 1, prog_bind at 1 in E.
    destruct (executeSQL clock fuel (prepared_text sql ls) (conn w)) as [[rc r] c1| | |] eqn:E1; try done.
    cbv beta iota in E. destruct (Z.eqb_spec rc SQL_SUCCESS) as [->|]; [|by injection E].
    rewrite (run_bind _ _ _ _ _ (run_row_executes row processed sql ls w Hs Hsize Hl Hsql r c1 E1)). cbv beta iota. cbn [orb].
    set (w1 := w <| conn := c1 |>).
    rewrite (IH lss' (processed + 1) w1 c' Hs Hsize Hr); [|unfold w1; cbn; by rewrite Hk|exact E].
    unfold w1. cbn. replace (processed + 1 + blen lss') with (processed + Z.of_nat (S (length lss'))) by lia. done.
Qed.

Lemma preflight_passes rows lss w :
  Z.of_nat (size (param_bindings_ (stmt w))) < 65535 → Forall2 (λ row ls, gives_literals row (mem w) (stmt w) ls) rows lss →
  preflight rows w = Returns None w.
Proof.
  intros Hsize. induction 1 as [|row ls rows lss Hl _ IH]; [done|]. cbn [preflight].
  rewrite (run_bind _ _ _ _ _ (build_given row ls w Hsize Hl)). exact IH.
Qed.
End rows.

(** ** Theorem *)


Definition two_rows : list (list ParameterLiteral) := [[{| text := "7"; quoted := false |}]; [{| text := "-8"; quoted := false |}]].

